(* ===== verification/_CoqProject ===== *)
-Q . S2P
Prelude.v
CInt.v
DList.v
RecvQueue.v
RecvStream.v
SendQueue.v
SendProofs.v
SendTheorems.v
Transfer.v
Package.v
Binary64.v
LedbatCc.v
ConnState.v
PackageConnection.v
ConnDemo.v
ConnRtt.v
ConnClose.v
ConnDrive.v
ConnSafety.v
BufferStream.v
HashTable.v
SgTree.v
SgList.v
KeyManager.v
KeyProofs.v
KeyTheorems.v
KeyAdd.v
KeyFaults.v
Codec.v
Forward.v
StreamInts.v
SessionCodec.v
Endpoint.v
EndpointString.v
EndpointProofs.v
PackageFields.v
PackageCodec.v
PackageProofs.v
HandCodec.v
MergedPackages.v
MergedProofs.v
PeerInfo.v
PeerProofs.v
MergedTheorems.v
Termination.v
AesPadding.v
Crypto.v
UdpBox.v
ExchangeProofs.v
UdpProofs.v
UdpTheorems.v
TcpInterface.v
TcpUnbox.v
TcpPush.v
TcpBox.v
TcpProofs.v
TcpTheorems.v
TcpLifecycle.v
TcpSafety.v
TcpDemo.v
StreamConnection.v
StreamSend.v
StreamRecv.v
StreamTheorems.v
StreamEnd.v
StreamDemo.v
ConnectionManager.v
ManagerProofs.v
ManagerAccept.v
ManagerRuns.v
ManagerTheorems.v
