(* ===== verification/Prelude.v ===== *)
(** * BDT: a verification development of the BuckyCloud Data Transport stack

    BDT ([src/c/src/BDTCore], on [src/c/src/BuckyBase]) carries streams of bytes
    between peers, over UDP or TCP, with the keys, the packages and the
    retransmission this takes.  The development models the path of the data from
    one application to the other, and the collections and formats it stands on.

    ** How the parts interact

    - An application gives buffers to a connection and takes buffers from it.
      Over UDP the connection is a package connection
      ([Connection/PackageConnection]): a send queue cuts the buffers into
      packages, a receive queue puts packages back in order and fills the buffers
      of the receiver, a congestion control (LEDBAT) says how much may be on its
      way, and a handshake closes the two directions.  Over TCP it is a stream
      connection ([Connection/StreamConnection]) that encrypts records of data.
    - Packages become bytes by the coders of [Protocol], several of them in one
      datagram; fields that a later package shares with the first are left out.
    - The UDP and TCP interfaces ([Interface]) box the bytes: in the clear, or
      encrypted with a key both peers have, or with a new key that travels in
      front.  Keys are found by hashes that change every minute
      ([History/KeyManager]).
    - The connection manager ([Connection/ConnectionManager]) hands packages to
      connections by their ids, makes connections for the SYNs of peers, and
      brings them together with the requests of the application to accept.
    - Below: intrusive lists and hash tables ([BuckyBase/Coll]), red-black trees
      and lists of macros ([SGLib]), and streams in a buffer ([BuckyBase/Buffer]).

    ** How C is modelled

    - Integers are [Z] with the wrap-around of their C type written out ([CInt]),
      [size_t] of memory that exists is [nat], and [double] is a rational rounded
      as binary64 ([Binary64]).  Bytes in a stream are those of a little-endian
      host.
    - A store is passed along.  Where pointers matter (lists, hash tables, trees,
      the key manager) it is a heap of addresses; where a file uses a list only
      through the operations of [list.c] the list is a sequence, which [DList]
      justifies.
    - [None] is a fault: a failed [assert], NULL, freed or foreign memory.
      [M] below is the monad of a store and faults.  A theorem of the form
      [f s = Some ...] says that the code does not fault.
    - A section under a lock is one step.  Timers and callbacks are not run by
      the model: they are steps, calls or events in a trace that a theorem
      quantifies over.  Time is an argument, or a list of the readings of the
      clock.
    - Code that is not of this repository (the AES, RSA and SHA-256 of mbedtls,
      sockets) and parts of it that are not modelled (tunnels, supernode client)
      are arguments, with the laws that are needed of them as classes or
      records: [AesLaws], [CryptoLaws], [KeyServiceLaws], [PeerInfoLaws],
      [CbcLaws], [HashLaws], [CmpLaws], [UdpEnv].  The laws of AES with padding, of
      the congestion control ([BaseCcLaws]), of the key manager and of
      the peers are proved of this repository's code; each theorem that has such a
      hypothesis has a witness that instantiates it.

    ** The files

    Collections.
    - [DList]: [BuckyBase/Coll/list.c] on its pointers; it refines operations on
      sequences ([list_ops_refine_sequences]).
    - [HashTable]: [BuckyBase/Coll/hash.c]; it answers what a plain list answers.
    - [SgTree], [SgList]: the tree and list macros of [SGLib/SGLib.h] the stack
      instantiates; [tree_refines_bag]: no fault, ordered, balanced, and exactly
      the bag of its nodes.
    - [BufferStream], [StreamInts]: [BuckyBase/Buffer/buffer_stream.c].

    Package connections, from [BDTCore/Connection/PackageConnection].
    - [RecvQueue], [RecvStream]: [RecvQueue.imp.inl]; the application gets the
      stream in order under any interleaving of the locked sections.
    - [SendQueue], [SendProofs], [SendTheorems]: [SendQueue.imp.inl]; sent data is
      kept until it is acknowledged.
    - [Transfer]: both queues and a network that loses, repeats and reorders.
    - [Package], [Binary64], [LedbatCc]: [BaseCc.inl], [LedbatCc.imp.inl]; the
      window and the delay stay within bounds.
    - [ConnState], [PackageConnection], [ConnDemo]: [PackageConnection.imp.inl] in
      a state monad; [ConnRtt] (timeouts), [ConnClose] (the close handshake as an
      abstract machine that every operation refines), [ConnDrive] (the sending
      loop: it ends, and where it does not), [ConnSafety] (what is reported and
      sent).

    Packages, from [BDTCore/Protocol] and [BDTCore/Global].
    - [Codec], [Forward], [SessionCodec]: the frame of encoders and decoders, and
      session data packages ([PackageEncoder.imp.inl], [PackageDecoder.imp.inl]).
    - [Endpoint], [EndpointString], [EndpointProofs], [PeerInfo], [PeerProofs]:
      [Endpoint.imp.inl], [PeerInfo.imp.inl] and their formats; the string of an
      endpoint is read as the endpoint ([endpoint_conversions]).
    - [PackageFields], [PackageCodec], [PackageProofs], [HandCodec]: the members
      of all packages by name, and their coders, generated
      ([PackageImp.imp.inl]) and written by hand.
    - [MergedPackages], [MergedProofs], [MergedTheorems], [Termination]:
      datagrams of several packages; what is encoded is decoded
      ([datagram_roundtrip]), decoding ends on any bytes, and what the decoder
      does not check.

    Keys and interfaces.
    - [KeyManager], [KeyProofs], [KeyTheorems], [KeyAdd], [KeyFaults]:
      [History/KeyManager.imp.inl]; it acts as a set of keys ([keys_refine_set]),
      and where it does not do what it means to.
    - [AesPadding], [Crypto]: [Global/Aes/AesMbedtls.imp.inl],
      [Global/CryptoToolkit.imp.inl].
    - [UdpBox], [ExchangeProofs], [UdpProofs], [UdpTheorems]:
      [Interface/UdpInterface.imp.inl]; what is boxed is unboxed, a key that is
      exchanged is known afterwards, and the datagrams a receiver does not
      survive.
    - [TcpInterface], [TcpUnbox], [TcpPush], [TcpBox], [TcpProofs],
      [TcpTheorems], [TcpLifecycle], [TcpSafety], [TcpDemo]:
      [Interface/TcpInterface.imp.inl]; data arrives however the stream is cut,
      sockets and owners are released once, calls never fault.
    - [StreamConnection], [StreamSend], [StreamRecv], [StreamTheorems],
      [StreamEnd], [StreamDemo]: [Connection/StreamConnection.imp.inl],
      [Global/TimerHelper.imp.inl]; every byte once and in order, from a sending
      application to a receiving one ([stream_end_to_end]).

    The connection manager.
    - [ConnectionManager], [ManagerProofs], [ManagerAccept], [ManagerRuns],
      [ManagerTheorems]: [Connection/ConnectionManager.imp.inl],
      [Global/IdCreator.imp.inl]; references to connections are balanced and
      connections are accepted in order, each once, but the connections of
      different peers that number them alike are taken for one.

    [Prelude] (this file) and [CInt] hold what the others share.

    ** Bounds and fuel

    - Positions in the stream of a package connection are [uint64_t]; the
      theorems are about streams shorter than 2^62 bytes, and about 48 bits where
      a position travels in a package.
    - Clock readings of the congestion control are microseconds of a clock that
      does not go back and stays below the wrap of its type.
    - Loops that are not structural take fuel.  It is the length of the data and
      one ([decode_loop], [read_peer]), the number of keys and one
      ([rehash_loop]), the size of the heap and one ([listFind]), or a multiple
      of the length of the data ([parser_fuel]); theorems show that this is
      enough ([decoding_ends], [keys_refine_set], [list_ops_refine_sequences],
      [tcp_data_delivered]).  [SendDrive_terminates] gives the fuel of the sending
      loop, [SendDrive_diverges] the states in which none is enough.
    - The connection manager makes fewer than 2^31 - 1 connections, so that their
      ids are different.
    - A record of a stream connection has at most [maxRecordSize] bytes, which
      with its header and padding fit in 16 bits.  A socket that answers that it
      took more than it was given has taken all of it.

    ** What is not modelled

    - What is between a connection's manager and its package or stream
      connection, tunnels, their builder, the supernode client, the history but
      for its keys, the network manager and the stack: their behaviour is the
      order in which sockets, timers and threads meet, on top of the parts that
      are modelled.  What the modelled parts call of them is an argument.
    - Threads inside of one function, reference counts of interfaces, logging,
      names and statistics.
    - The release of memory at the end of a connection or a queue, except where
      the pointers are what the theorems are about (lists, trees, keys, packages
      of an interface).
    - Third-party code, bindings, tests and tools. *)

From stdpp Require Export base tactics list gmap strings.
From stdpp Require Export fin_maps.
From Stdlib Require Export ZArith Lia.

#[global] Open Scope Z_scope.
#[global] Set Default Goal Selector "!".

Declare Scope bdt_scope.
Delimit Scope bdt_scope with bdt.
#[global] Open Scope bdt_scope.

Create HintDb bdt.

(** ** Result codes ([BuckyBase/Global/result.h]) *)

Definition BFX_RESULT_SUCCESS : Z := 0.
Definition BFX_RESULT_FAILED : Z := 1.
Definition BFX_RESULT_INVALID_PARAM : Z := 2.
Definition BFX_RESULT_PENDING : Z := 6.
Definition BFX_RESULT_NOT_ENOUGH_BUFFER : Z := 7.
Definition BFX_RESULT_ALREADY_EXISTS : Z := 9.
Definition BFX_RESULT_NOT_FOUND : Z := 10.
Definition BFX_RESULT_INVALID_STATE : Z := 11.
Definition BFX_RESULT_UNKNOWN_TYPE : Z := 19.
Definition BFX_RESULT_NO_MORE_DATA : Z := 30.
Definition BFX_RESULT_NOT_CHANGED : Z := 40.
Definition BFX_RESULT_TOO_SMALL : Z := 43.

(** ** A state-and-fault monad

    C code that reads and writes a shared store [S] and that stops at a
    failed [assert] or at an access through a null pointer.  [None] is the
    fault; a computation that does not fault returns its value and the new
    store. *)

Definition M (S A : Type) : Type := S → option (A * S).

#[export] Instance M_ret {S} : MRet (M S) := λ A a s, Some (a, s).
#[export] Instance M_bind {S} : MBind (M S) := λ A B k c s,
  match c s with Some (a, s') => k a s' | None => None end.

Definition mfault {S A} : M S A := λ _, None.
Definition massert {S} (b : bool) : M S unit := if b then mret tt else mfault.
Definition mread {S A} (f : S → option A) : M S A :=
  λ s, match f s with Some a => Some (a, s) | None => None end.
Definition mwrite {S} (f : S → S) : M S unit := λ s, Some (tt, f s).

Lemma M_bind_Some {S A B} (c : M S A) (k : A → M S B) s a s' :
  c s = Some (a, s') → (c ≫= k) s = k a s'.
Proof. intros H. unfold mbind, M_bind. by rewrite H. Qed.

Lemma mread_Some {S A} (f : S → option A) s a :
  f s = Some a → mread f s = Some (a, s).
Proof. intros H. unfold mread. by rewrite H. Qed.

Lemma massert_Some {S} (b : bool) (s : S) : b = true → massert b s = Some (tt, s).
Proof. by intros ->. Qed.

(** Runs the first step of a computation in a goal [(c ≫= k) s = _], leaving
    the step's own result as a side goal when it is not already known. *)
Ltac mstep := erewrite M_bind_Some; [|first [eassumption | reflexivity | idtac]]; cbn beta.

(** ** Lists *)

Section list_facts.
Context {A : Type}.
Implicit Types (l : list A) (P : A → Prop).

Lemma filter_all P `{∀ x, Decision (P x)} l : (∀ x, x ∈ l → P x) → filter P l = l.
Proof.
  induction l as [|x l IH]; intros Hl; [done|].
  rewrite filter_cons_True by (apply Hl; by left). f_equal. apply IH. intros; apply Hl. by right.
Qed.

Lemma filter_none P `{∀ x, Decision (P x)} l : (∀ x, x ∈ l → ¬ P x) → filter P l = [].
Proof.
  induction l as [|x l IH]; intros Hl; [done|].
  rewrite filter_cons_False by (apply Hl; by left). apply IH. intros; apply Hl. by right.
Qed.
End list_facts.
