(* ===== verification/DList.v ===== *)
(** * [BfxList]: the intrusive circular doubly linked list

    Models [BuckyBase/Coll/list.c] at the level of its pointers: a heap maps
    the address of every [BfxListItem] to its [next] and [prev] fields and the
    address of every [BfxList] to its [count]; a list is identified by the
    address of its embedded [head] item.  [is_list h l xs] says that in heap
    [h] the list at [l] is well formed and holds the items [xs] in order; the
    theorems show that every operation of the file refines the operation on
    sequences that its callers rely on and leaves everything else untouched.
    The queues of the transport ([RecvQueue], [SendQueue], ...) are modelled
    on sequences, which these theorems justify. *)

From S2P Require Import Prelude.

(** ** The store *)

Record heap := Heap {
  hnext : gmap Z Z;    (* item->next; no entry is NULL or uninitialised *)
  hprev : gmap Z Z;    (* item->prev *)
  hcount : gmap Z Z;   (* list->count *)
}.

Definition rd_next (x : Z) : M heap Z := mread (λ h, hnext h !! x).
Definition rd_prev (x : Z) : M heap Z := mread (λ h, hprev h !! x).
Definition rd_count (l : Z) : M heap Z := mread (λ h, hcount h !! l).
Definition wr_next (x y : Z) : M heap unit :=
  mwrite (λ h, Heap (<[x := y]> (hnext h)) (hprev h) (hcount h)).
Definition wr_prev (x y : Z) : M heap unit :=
  mwrite (λ h, Heap (hnext h) (<[x := y]> (hprev h)) (hcount h)).
Definition wr_count (l n : Z) : M heap unit :=
  mwrite (λ h, Heap (hnext h) (hprev h) (<[l := n]> (hcount h))).
(** [item->next = item->prev = NULL] *)
Definition wr_null (x : Z) : M heap unit :=
  mwrite (λ h, Heap (delete x (hnext h)) (delete x (hprev h)) (hcount h)).

(** ** Operations *)

Definition BfxListInit (lst : Z) : M heap unit :=
  wr_count lst 0 ;; wr_prev lst lst ;; wr_next lst lst.

Fixpoint exists_loop (fuel : nat) (lst target it : Z) : M heap bool :=
  match fuel with
  | O => mfault
  | S fuel =>
      if decide (it = lst) then mret false
      else if decide (it = target) then mret true
      else (n ← rd_next it; exists_loop fuel lst target n)
  end.

(** The walk visits each initialised item at most once, so the number of
    initialised items bounds it. *)
Definition BfxListExists (lst target : Z) : M heap bool := λ h,
  (it ← rd_next lst; exists_loop (S (size (hnext h))) lst target it) h.

Definition BfxListInsertAfter (lst pos item : Z) : M heap unit :=
  e ← BfxListExists lst pos;
  massert (bool_decide (pos = lst) || e) ;;
  e' ← BfxListExists lst item;
  massert (negb e') ;;
  n ← rd_next pos;
  wr_next item n ;;
  wr_prev item pos ;;
  n ← rd_next pos;
  wr_prev n item ;;
  wr_next pos item ;;
  c ← rd_count lst;
  wr_count lst (c + 1).

Fixpoint BfxListMultiInsertAfter (lst pos : Z) (items : list Z) : M heap unit :=
  match items with
  | [] => mret tt
  | item :: items =>
      BfxListInsertAfter lst pos item ;;
      BfxListMultiInsertAfter lst item items
  end.

Definition BfxListErase (lst item : Z) : M heap unit :=
  e ← BfxListExists lst item;
  massert e ;;
  n ← rd_next lst;
  massert (bool_decide (n ≠ lst)) ;;
  p ← rd_prev lst;
  massert (bool_decide (p ≠ lst)) ;;
  n ← rd_next item;
  p ← rd_prev item;
  wr_prev n p ;;
  p ← rd_prev item;
  n ← rd_next item;
  wr_next p n ;;
  wr_null item ;;
  c ← rd_count lst;
  massert (bool_decide (0 < c)) ;;
  wr_count lst (c - 1).

(** One half of a swap: the head [dst] takes over the chain that another head
    described by its fields [n], [p] and its count [c]. *)
Definition swap_half (dst n p c : Z) : M heap unit :=
  if decide (c = 0) then
    wr_prev dst dst ;; wr_next dst dst
  else
    wr_next dst n ;;
    wr_prev dst p ;;
    n ← rd_next dst;
    wr_prev n dst ;;
    p ← rd_prev dst;
    wr_next p dst.

Definition BfxListSwap (lst other : Z) : M heap unit :=
  hn ← rd_next lst;
  hp ← rd_prev lst;
  oc ← rd_count other;
  n ← rd_next other;
  p ← rd_prev other;
  swap_half lst n p oc ;;
  lc ← rd_count lst;
  swap_half other hn hp lc ;;
  size ← rd_count lst;
  oc ← rd_count other;
  wr_count lst oc ;;
  wr_count other size.

Definition BfxListPushBack (lst item : Z) : M heap unit :=
  p ← rd_prev lst; BfxListInsertAfter lst p item.

Definition BfxListPushFront (lst item : Z) : M heap unit :=
  BfxListInsertAfter lst lst item.

Definition BfxListPopBack (lst : Z) : M heap (option Z) :=
  c ← rd_count lst;
  if decide (0 < c) then
    item ← rd_prev lst;
    BfxListErase lst item ;;
    mret (Some item)
  else mret None.

Definition BfxListPopFront (lst : Z) : M heap (option Z) :=
  c ← rd_count lst;
  if decide (0 < c) then
    item ← rd_next lst;
    BfxListErase lst item ;;
    mret (Some item)
  else mret None.

Definition BfxListSize (lst : Z) : M heap Z := rd_count lst.

Definition BfxListIsEmpty (lst : Z) : M heap bool :=
  c ← rd_count lst; mret (bool_decide (c ≤ 0)).

Definition BfxListClear (lst : Z) : M heap unit :=
  wr_count lst 0 ;; wr_prev lst lst ;; wr_next lst lst.

Definition BfxListFirst (lst : Z) : M heap (option Z) :=
  c ← rd_count lst;
  if decide (c = 0) then mret None
  else n ← rd_next lst; mret (Some n).

Definition BfxListNext (lst current : Z) : M heap (option Z) :=
  massert (bool_decide (current ≠ lst)) ;;
  n ← rd_next current;
  if decide (n = lst) then mret None else mret (Some n).

Definition BfxListLast (lst : Z) : M heap (option Z) :=
  c ← rd_count lst;
  if decide (c = 0) then mret None
  else p ← rd_prev lst; mret (Some p).

Definition BfxListPrev (lst current : Z) : M heap (option Z) :=
  e ← BfxListExists lst current;
  massert e ;;
  massert (bool_decide (current ≠ lst)) ;;
  p ← rd_prev current;
  if decide (p = lst) then mret None else mret (Some p).

Definition BfxListMerge (lst other : Z) (atBack : bool) : M heap unit :=
  oc ← rd_count other;
  if decide (oc = 0) then mret tt
  else
    (if atBack then
       n ← rd_next other; p ← rd_prev lst; wr_prev n p ;;
       p ← rd_prev other; wr_next p lst ;;
       p ← rd_prev lst; n ← rd_next other; wr_next p n ;;
       p ← rd_prev other; wr_prev lst p
     else
       n ← rd_next other; wr_prev n lst ;;
       p ← rd_prev other; n ← rd_next lst; wr_next p n ;;
       n ← rd_next lst; p ← rd_prev other; wr_prev n p ;;
       n ← rd_next other; wr_next lst n) ;;
    lc ← rd_count lst;
    oc ← rd_count other;
    wr_count lst (lc + oc) ;;
    BfxListClear other.

Definition BfxListMergeAfter (lst other pos : Z) : M heap unit :=
  oc ← rd_count other;
  if decide (oc = 0) then mret tt
  else
    n ← rd_next other; wr_prev n pos ;;
    p ← rd_prev other; n ← rd_next pos; wr_next p n ;;
    n ← rd_next pos; p ← rd_prev other; wr_prev n p ;;
    n ← rd_next other; wr_next pos n ;;
    lc ← rd_count lst;
    oc ← rd_count other;
    wr_count lst (lc + oc) ;;
    BfxListClear other.

(** ** Well-formed lists *)

Definition hd_or (b : Z) (xs : list Z) : Z := default b (head xs).
Definition last_or (a : Z) (xs : list Z) : Z := default a (last xs).

(** [linked nx pv a xs b]: following [next] from [a] passes through [xs] and
    arrives at [b], and [prev] leads back the same way. *)
Fixpoint linked (nx pv : gmap Z Z) (a : Z) (xs : list Z) (b : Z) : Prop :=
  match xs with
  | [] => nx !! a = Some b ∧ pv !! b = Some a
  | x :: xs => nx !! a = Some x ∧ pv !! x = Some a ∧ linked nx pv x xs b
  end.

Definition is_list (h : heap) (l : Z) (xs : list Z) : Prop :=
  hcount h !! l = Some (Z.of_nat (length xs)) ∧ NoDup (l :: xs) ∧
  linked (hnext h) (hprev h) l xs l.

(** The two heaps agree at every address outside [D]. *)
Definition same_off (D : list Z) (h h' : heap) : Prop :=
  ∀ y, y ∉ D → hnext h' !! y = hnext h !! y ∧ hprev h' !! y = hprev h !! y ∧
               hcount h' !! y = hcount h !! y.

Section linked_facts.
Implicit Types (nx pv : gmap Z Z) (xs ys : list Z).

Lemma hd_or_cons b x xs : hd_or b (x :: xs) = x.
Proof. done. Qed.
Lemma last_or_snoc a xs x : last_or a (xs ++ [x]) = x.
Proof. unfold last_or. by rewrite last_snoc. Qed.
Lemma last_or_cons a x xs : last_or a (x :: xs) = last_or x xs.
Proof. unfold last_or. rewrite last_cons. by destruct (last xs). Qed.
Lemma last_or_elem a xs : last_or a xs ∈ a :: xs.
Proof.
  unfold last_or. destruct (last xs) eqn:E; [|by left].
  right. by apply last_Some_elem_of.
Qed.
Lemma hd_or_elem b xs : hd_or b xs ∈ b :: xs.
Proof. destruct xs; unfold hd_or; simpl; set_solver. Qed.
Lemma last_or_elem_ne a xs : xs ≠ [] → last_or a xs ∈ xs.
Proof.
  intros Hne. unfold last_or. destruct (last xs) eqn:E.
  - by apply last_Some_elem_of.
  - by apply last_None in E.
Qed.
Lemma last_or_irrel a b xs : xs ≠ [] → last_or a xs = last_or b xs.
Proof. intros H. unfold last_or. destruct (last xs) eqn:E; [done|]. by apply last_None in E. Qed.

Lemma linked_next nx pv a xs b : linked nx pv a xs b → nx !! a = Some (hd_or b xs).
Proof. destruct xs; simpl; tauto. Qed.
Lemma linked_prev nx pv a xs b : linked nx pv a xs b → pv !! b = Some (last_or a xs).
Proof.
  revert a. induction xs as [|x xs IH]; intros a; simpl; [by intros [_ ?]|].
  intros (_ & _ & H). rewrite last_or_cons. by apply IH.
Qed.
Lemma linked_prev_hd nx pv a xs b : linked nx pv a xs b → pv !! hd_or b xs = Some a.
Proof. destruct xs; simpl; tauto. Qed.
Lemma linked_next_last nx pv a xs b : linked nx pv a xs b → nx !! last_or a xs = Some b.
Proof.
  revert a. induction xs as [|x xs IH]; intros a; simpl; [by intros [? _]|].
  intros (_ & _ & H). rewrite last_or_cons. by apply IH.
Qed.

Lemma linked_agree nx pv nx' pv' a xs b :
  (∀ y, y ∈ a :: xs → nx' !! y = nx !! y) →
  (∀ y, y ∈ b :: xs → pv' !! y = pv !! y) →
  linked nx pv a xs b → linked nx' pv' a xs b.
Proof.
  revert a. induction xs as [|x xs IH]; intros a Hn Hp; simpl.
  - intros [H1 H2]. rewrite Hn, Hp by set_solver. done.
  - intros (H1 & H2 & H3). rewrite Hn, Hp by set_solver.
    split; [done|split; [done|]]. apply IH; [..|done]; intros y Hy;
      [apply Hn|apply Hp]; set_solver.
Qed.

Lemma linked_suffix nx pv a xs1 xs2 b :
  linked nx pv a (xs1 ++ xs2) b → linked nx pv (last_or a xs1) xs2 b.
Proof.
  revert a. induction xs1 as [|x xs1 IH]; intros a; simpl; [done|].
  intros (_ & _ & H). rewrite last_or_cons. by apply IH.
Qed.

(** Replacing the tail of a chain. *)
Lemma linked_replace nx pv nx' pv' a xs1 xs2 xs2' b :
  NoDup (a :: xs1) →
  linked nx pv a (xs1 ++ xs2) b →
  linked nx' pv' (last_or a xs1) xs2' b →
  (∀ y, y ∈ a :: xs1 → y ≠ last_or a xs1 → nx' !! y = nx !! y) →
  (∀ y, y ∈ xs1 → pv' !! y = pv !! y) →
  linked nx' pv' a (xs1 ++ xs2') b.
Proof.
  revert a. induction xs1 as [|x xs1 IH]; intros a Hnd Hl Hs Hn Hp; simpl; [done|].
  simpl in Hl. destruct Hl as (H1 & H2 & H3). rewrite last_or_cons in *.
  inversion_clear Hnd as [|?? Ha Hnd'].
  rewrite Hn; [|by left|intros ->; apply Ha, last_or_elem].
  rewrite Hp by by left. split; [done|split; [done|]].
  apply IH; [done..| |].
  - intros y Hy Hne. apply Hn; [by right|done].
  - intros y Hy. apply Hp. by right.
Qed.

(** Moving a non-empty chain between new end points. *)
Lemma linked_rehead nx pv nx' pv' a b a' b' ys :
  ys ≠ [] → NoDup ys →
  linked nx pv a ys b →
  nx' !! a' = Some (hd_or b ys) → pv' !! hd_or b ys = Some a' →
  nx' !! last_or a ys = Some b' → pv' !! b' = Some (last_or a ys) →
  (∀ y, y ∈ ys → y ≠ last_or a ys → nx' !! y = nx !! y) →
  (∀ y, y ∈ ys → y ≠ hd_or b ys → pv' !! y = pv !! y) →
  linked nx' pv' a' ys b'.
Proof.
  intros Hne Hnd Hl H1 H2 H3 H4 Hn Hp. destruct ys as [|y ys]; [done|]. clear Hne.
  rewrite hd_or_cons in *. rewrite last_or_cons in *. simpl in *.
  destruct Hl as (_ & _ & Hl). split; [done|split; [done|]].
  clear H1 H2. revert y Hnd Hl Hn Hp H3 H4.
  induction ys as [|z ys IH]; intros y Hnd Hl Hn Hp H3 H4; simpl in *; [done|].
  rewrite last_or_cons in *. inversion_clear Hnd as [|?? Hy Hnd'].
  destruct Hl as (Ha & Hb & Hl).
  rewrite (Hn y); [|by left|intros ->; apply Hy, last_or_elem].
  rewrite (Hp z); [|set_solver|set_solver].
  split; [done|split; [done|]]. apply IH; [done..| | |done|done].
  - intros w Hw Hw'. apply Hn; [set_solver|done].
  - intros w Hw Hw'. apply Hp; [set_solver|]. intros ->. set_solver.
Qed.

Lemma linked_length nx pv a xs b :
  NoDup (a :: xs) → linked nx pv a xs b → (S (length xs) ≤ size nx)%nat.
Proof.
  intros Hnd Hl.
  assert (Hdom : ∀ y, y ∈ a :: xs → y ∈ dom nx).
  { clear Hnd. revert a Hl. induction xs as [|x xs IH]; intros a Hl y Hy; simpl in Hl.
    - apply list_elem_of_singleton in Hy as ->. apply elem_of_dom. naive_solver.
    - destruct Hl as (? & ? & Hl). apply elem_of_cons in Hy as [->|Hy].
      + apply elem_of_dom. naive_solver.
      + by eapply IH. }
  rewrite <- size_dom.
  replace (S (length xs)) with (size (list_to_set (a :: xs) : gset Z)).
  - apply subseteq_size. intros y Hy. apply Hdom. set_solver.
  - by rewrite size_list_to_set.
Qed.
End linked_facts.

(** ** The operations refine sequences *)

(** Evaluates one memory access or assertion at the head of a computation;
    the lookup it needs is left to [tac]. *)
Ltac drun1 tac :=
  match goal with
  | |- ((mread ?f ≫= ?k) ?s = _) =>
      erewrite (M_bind_Some (mread f) k); [|apply mread_Some; simpl; tac]; cbn beta
  | |- ((mwrite ?f ≫= ?k) ?s = _) =>
      erewrite (M_bind_Some (mwrite f) k); [|reflexivity]; cbn beta; cbn [hnext hprev hcount]
  | |- ((massert ?b ≫= ?k) ?s = _) =>
      erewrite (M_bind_Some (massert b) k); [|apply massert_Some; tac]; cbn beta
  end.
Ltac dunf := unfold rd_next, rd_prev, rd_count, wr_next, wr_prev, wr_count, wr_null.
Ltac dlook := by (simplify_map_eq; eauto).

Lemma exists_loop_spec h l t xs a fuel :
  linked (hnext h) (hprev h) a xs l → l ∉ xs → (length xs < fuel)%nat →
  exists_loop fuel l t (hd_or l xs) h = Some (bool_decide (t ∈ xs), h).
Proof.
  revert a fuel. induction xs as [|x xs IH]; intros a fuel Hl Hni Hf;
    (destruct fuel as [|fuel]; [simpl in *; lia|]).
  - simpl. rewrite decide_True by done. done.
  - change (hd_or l (x :: xs)) with x. simpl.
    rewrite decide_False by set_solver. destruct (decide (x = t)) as [->|Ht].
    + rewrite bool_decide_eq_true_2 by set_solver. done.
    + simpl in Hl. destruct Hl as (_ & _ & Hl). unfold rd_next.
      erewrite M_bind_Some by (apply mread_Some; by eapply linked_next).
      rewrite not_elem_of_cons in Hni. rewrite (IH x); [|done|tauto|simpl in *; lia].
      do 2 f_equal. apply bool_decide_ext. set_solver.
Qed.

Lemma BfxListExists_spec h l xs t :
  is_list h l xs → BfxListExists l t h = Some (bool_decide (t ∈ xs), h).
Proof.
  intros (Hc & Hnd & Hl). unfold BfxListExists, rd_next.
  erewrite M_bind_Some by (apply mread_Some; by eapply linked_next).
  apply (exists_loop_spec _ _ _ _ l); [done|by inversion Hnd|].
  pose proof (linked_length _ _ _ _ _ Hnd Hl). lia.
Qed.

Lemma is_list_nodup h l xs : is_list h l xs → NoDup (l :: xs).
Proof. by intros (_ & ? & _). Qed.
Lemma is_list_head_notin h l xs : is_list h l xs → l ∉ xs.
Proof. intros H%is_list_nodup. by inversion H. Qed.
#[export] Hint Resolve is_list_nodup is_list_head_notin : bdt.

Lemma same_off_refl D h : same_off D h h.
Proof. done. Qed.
#[export] Hint Resolve same_off_refl : bdt.

(** A list is untouched by changes outside its addresses. *)
Lemma is_list_frame D h h' l xs :
  same_off D h h' → (∀ y, y ∈ l :: xs → y ∉ D) → is_list h l xs → is_list h' l xs.
Proof.
  intros Hs Hd (Hc & Hnd & Hl). split; [|split; [done|]].
  - destruct (Hs l) as (_ & _ & ->); [|done]. apply Hd. by left.
  - eapply linked_agree; [..|exact Hl]; intros y Hy.
    + by apply Hs, Hd.
    + by apply Hs, Hd.
Qed.

Theorem BfxListInit_spec h l :
  ∃ h', BfxListInit l h = Some (tt, h') ∧ is_list h' l [] ∧ same_off [l] h h'.
Proof.
  eexists. split; [reflexivity|]. split.
  - split; [|split]; simpl.
    + by simplify_map_eq.
    + apply NoDup_singleton.
    + by simplify_map_eq.
  - intros y Hy. apply not_elem_of_cons in Hy as [? _]. simpl. by simplify_map_eq.
Qed.

(** The two neighbours of a cut in a ring. *)
Lemma ring_cut l xs1 xs2 :
  NoDup (l :: xs1 ++ xs2) →
  NoDup (l :: xs1) ∧ NoDup (l :: xs2) ∧ last_or l xs1 ∉ xs2 ∧ hd_or l xs2 ∉ xs1.
Proof.
  intros Hnd. apply NoDup_cons in Hnd as [Hl Hnd].
  apply NoDup_app in Hnd as (H1 & Hd & H2). rewrite elem_of_app in Hl.
  repeat split.
  - apply NoDup_cons. tauto.
  - apply NoDup_cons. tauto.
  - pose proof (last_or_elem l xs1) as [->|Hp]%elem_of_cons; [tauto|by apply Hd].
  - pose proof (hd_or_elem l xs2) as [->|Hp]%elem_of_cons; [tauto|].
    intros ?. by eapply Hd.
Qed.

Theorem BfxListInsertAfter_spec h l xs1 xs2 pos x :
  is_list h l (xs1 ++ xs2) → pos = last_or l xs1 → x ∉ l :: xs1 ++ xs2 →
  ∃ h', BfxListInsertAfter l pos x h = Some (tt, h') ∧
        is_list h' l (xs1 ++ x :: xs2) ∧
        same_off (x :: l :: xs1 ++ xs2) h h'.
Proof.
  intros Hli -> Hx. pose proof Hli as (Hc & Hnd & Hl).
  pose proof (linked_suffix _ _ _ _ _ _ Hl) as Hsuf.
  pose proof (linked_next _ _ _ _ _ Hsuf) as Hn.
  pose proof (ring_cut _ _ _ Hnd) as (Hnd1 & Hnd2 & Hp2 & Hn1).
  pose proof (last_or_elem l xs1) as Hp. pose proof (hd_or_elem l xs2) as Hn'.
  remember (last_or l xs1) as p eqn:Ep. remember (hd_or l xs2) as n eqn:En.
  rewrite elem_of_cons, elem_of_app in Hx. rewrite elem_of_cons in Hp, Hn'.
  assert (Hxp : x ≠ p) by naive_solver. assert (Hxn : x ≠ n) by naive_solver.
  eexists. split.
  { unfold BfxListInsertAfter.
    erewrite M_bind_Some by by apply BfxListExists_spec. cbn beta.
    drun1 ltac:(idtac).
    2:{ apply orb_true_iff. rewrite !bool_decide_eq_true, elem_of_app. tauto. }
    erewrite M_bind_Some by by apply BfxListExists_spec. cbn beta.
    drun1 ltac:(rewrite bool_decide_eq_false_2; [done|rewrite elem_of_app; tauto]).
    dunf. do 7 drun1 dlook. reflexivity. }
  split.
  - split; [|split]; simpl.
    + simplify_map_eq. rewrite !length_app. simpl. f_equal. lia.
    + rewrite <- Permutation_middle, Permutation_swap.
      apply NoDup_cons; split; [|done]. rewrite elem_of_cons, elem_of_app. tauto.
    + eapply linked_replace; [done|exact Hl|..]; rewrite <- ?Ep, <- ?En.
      * simpl. rewrite lookup_insert_eq, (lookup_insert_ne _ n x), lookup_insert_eq by done.
        split; [done|split; [done|]].
        destruct xs2 as [|y xs2]; unfold hd_or in En; simpl in En; subst n; simpl in *.
        -- by simplify_map_eq.
        -- split; [by simplify_map_eq|]. split; [by simplify_map_eq|].
           destruct Hsuf as (_ & _ & Hsuf). apply NoDup_cons in Hnd2 as [? Hnd2].
           apply NoDup_cons in Hnd2 as [? _].
           eapply linked_agree; [..|exact Hsuf]; intros z Hz.
           ++ rewrite !lookup_insert_ne; [done|intros <-; tauto|intros <-; tauto].
           ++ apply elem_of_cons in Hz. rewrite !lookup_insert_ne; [done|..]; intros <-;
                rewrite ?elem_of_cons in *; naive_solver.
      * intros y Hy Hne. rewrite !lookup_insert_ne; [done| |done].
        intros <-. apply elem_of_cons in Hy. tauto.
      * intros y Hy. rewrite !lookup_insert_ne; [done|..]; intros <-; tauto.
  - intros y Hy. rewrite !elem_of_cons, elem_of_app in Hy. simpl.
    rewrite <- ?En, !lookup_insert_ne by naive_solver. done.
Qed.

Theorem BfxListErase_spec h l xs1 x xs2 :
  is_list h l (xs1 ++ x :: xs2) →
  ∃ h', BfxListErase l x h = Some (tt, h') ∧
        is_list h' l (xs1 ++ xs2) ∧
        hnext h' !! x = None ∧ hprev h' !! x = None ∧
        same_off (l :: xs1 ++ x :: xs2) h h'.
Proof.
  intros Hli. pose proof Hli as (Hc & Hnd & Hl).
  pose proof (linked_suffix _ _ _ _ _ _ Hl) as Hsuf. simpl in Hsuf.
  destruct Hsuf as (Hnp & Hpx & Hsuf).
  pose proof (linked_next _ _ _ _ _ Hsuf) as Hnx.
  pose proof (linked_prev_hd _ _ _ _ _ Hsuf) as Hpn.
  pose proof (linked_next _ _ _ _ _ Hl) as Hln.
  pose proof (linked_prev _ _ _ _ _ Hl) as Hlp.
  assert (Hx : x ≠ l ∧ x ∉ xs1 ∧ x ∉ xs2 ∧ NoDup (l :: xs1 ++ xs2)).
  { revert Hnd. rewrite <- Permutation_middle, Permutation_swap, NoDup_cons.
    rewrite not_elem_of_cons, not_elem_of_app. tauto. }
  destruct Hx as (Hxl & Hx1 & Hx2 & Hnd').
  pose proof (ring_cut _ _ _ Hnd') as (Hnd1 & Hnd2 & Hp2 & Hn1).
  pose proof (last_or_elem l xs1) as Hp. pose proof (hd_or_elem l xs2) as Hn'.
  remember (last_or l xs1) as p eqn:Ep. remember (hd_or l xs2) as n eqn:En.
  rewrite elem_of_cons in Hp, Hn'.
  assert (Hxp : x ≠ p) by naive_solver. assert (Hxn : x ≠ n) by naive_solver.
  assert (Hhd : hd_or l (xs1 ++ x :: xs2) ≠ l).
  { destruct xs1 as [|y ?]; unfold hd_or; simpl; [done|].
    intros ->. apply NoDup_cons in Hnd as [Hl0 _]. apply Hl0. by left. }
  assert (Hla : last_or l (xs1 ++ x :: xs2) ≠ l).
  { intros E. apply NoDup_cons in Hnd as [Hl0 _]. apply Hl0. rewrite <- E at 1.
    apply last_or_elem_ne. by destruct xs1. }
  eexists. split.
  { unfold BfxListErase.
    erewrite M_bind_Some by by apply BfxListExists_spec. cbn beta.
    drun1 ltac:(apply bool_decide_eq_true_2; set_solver).
    dunf. drun1 ltac:(exact Hln). drun1 ltac:(by apply bool_decide_eq_true_2).
    drun1 ltac:(exact Hlp). drun1 ltac:(by apply bool_decide_eq_true_2).
    drun1 ltac:(exact Hnx). drun1 ltac:(exact Hpx). drun1 dlook.
    drun1 ltac:(rewrite lookup_insert_ne by done; exact Hpx). drun1 ltac:(exact Hnx).
    drun1 dlook. drun1 dlook. drun1 ltac:(exact Hc).
    drun1 ltac:(apply bool_decide_eq_true_2; rewrite length_app; simpl; lia).
    reflexivity. }
  split; [|split; [|split]]; simpl.
  - split; [|split]; simpl; [|done|].
    + rewrite lookup_insert_eq, !length_app. simpl. f_equal. lia.
    + eapply linked_replace; [done|exact Hl|..]; rewrite <- ?Ep.
      * destruct xs2 as [|y xs2]; unfold hd_or in En; simpl in En; subst n; simpl in *.
        -- by rewrite !lookup_delete_ne, !lookup_insert_eq by done.
        -- rewrite !lookup_delete_ne, !lookup_insert_eq by done.
           split; [done|split; [done|]]. destruct Hsuf as (_ & _ & Hsuf).
           apply NoDup_cons in Hnd2 as [? Hnd2]. apply NoDup_cons in Hnd2 as [? _].
           eapply linked_agree; [..|exact Hsuf]; intros z Hz;
             rewrite lookup_delete_ne, lookup_insert_ne; try done; intros <-;
             rewrite ?elem_of_cons in *; naive_solver.
      * intros y Hy Hne. rewrite elem_of_cons in Hy.
        rewrite lookup_delete_ne, lookup_insert_ne; [done|done|naive_solver].
      * intros y Hy. rewrite lookup_delete_ne, lookup_insert_ne; [done|naive_solver..].
  - apply lookup_delete_eq.
  - apply lookup_delete_eq.
  - intros y Hy. rewrite not_elem_of_cons, not_elem_of_app, not_elem_of_cons in Hy. simpl.
    rewrite !lookup_delete_ne, !lookup_insert_ne by naive_solver. done.
Qed.

Theorem BfxListPushBack_spec h l xs x :
  is_list h l xs → x ∉ l :: xs →
  ∃ h', BfxListPushBack l x h = Some (tt, h') ∧
        is_list h' l (xs ++ [x]) ∧ same_off (x :: l :: xs) h h'.
Proof.
  intros Hli Hx. pose proof Hli as (_ & _ & Hl%linked_prev).
  rewrite <- (app_nil_r xs) in Hli, Hx.
  edestruct BfxListInsertAfter_spec as (h' & Hr & Hl' & Hs); [exact Hli|done|exact Hx|].
  exists h'. rewrite app_nil_r in Hs. split; [|done].
  unfold BfxListPushBack. dunf. by drun1 ltac:(exact Hl).
Qed.

Theorem BfxListPushFront_spec h l xs x :
  is_list h l xs → x ∉ l :: xs →
  ∃ h', BfxListPushFront l x h = Some (tt, h') ∧
        is_list h' l (x :: xs) ∧ same_off (x :: l :: xs) h h'.
Proof. intros Hli Hx. by apply (BfxListInsertAfter_spec h l [] xs l x). Qed.

Theorem BfxListPopFront_spec h l xs :
  is_list h l xs →
  ∃ h', BfxListPopFront l h = Some (head xs, h') ∧
        is_list h' l (tail xs) ∧ same_off (l :: xs) h h'.
Proof.
  intros Hli. pose proof Hli as (Hc & _ & Hl). unfold BfxListPopFront. dunf.
  erewrite M_bind_Some by (apply mread_Some; exact Hc). cbn beta.
  destruct xs as [|x xs]; simpl.
  { exists h. auto with bdt. }
  destruct (BfxListErase_spec h l [] x xs Hli) as (h' & Hr & Hl' & _ & _ & Hs).
  exists h'. split; [|done].
  drun1 ltac:(exact (proj1 Hl)). by rewrite (M_bind_Some _ _ _ _ _ Hr).
Qed.

Theorem BfxListPopBack_spec h l xs :
  is_list h l xs →
  ∃ h', BfxListPopBack l h = Some (last xs, h') ∧
        is_list h' l (removelast xs) ∧ same_off (l :: xs) h h'.
Proof.
  intros Hli. pose proof Hli as (Hc & _ & Hl%linked_prev). unfold BfxListPopBack. dunf.
  erewrite M_bind_Some by (apply mread_Some; exact Hc). cbn beta.
  destruct xs as [|x xs _] using rev_ind.
  { exists h. auto with bdt. }
  destruct (BfxListErase_spec h l xs x [] Hli) as (h' & Hr & Hl' & _ & _ & Hs).
  exists h'. rewrite removelast_last, last_snoc. rewrite app_nil_r in Hl'. split; [|done].
  rewrite length_app, decide_True by (simpl; lia). rewrite last_or_snoc in Hl.
  drun1 ltac:(exact Hl). by rewrite (M_bind_Some _ _ _ _ _ Hr).
Qed.

Lemma BfxListSize_spec h l xs :
  is_list h l xs → BfxListSize l h = Some (Z.of_nat (length xs), h).
Proof. intros (Hc & _ & _). unfold BfxListSize, rd_count. by apply mread_Some. Qed.

Lemma BfxListIsEmpty_spec h l xs :
  is_list h l xs → BfxListIsEmpty l h = Some (bool_decide (xs = []), h).
Proof.
  intros (Hc & _ & _). unfold BfxListIsEmpty. dunf. drun1 ltac:(exact Hc).
  unfold mret, M_ret. do 2 f_equal. apply bool_decide_ext.
  destruct xs; simpl; split; [done|lia|lia|done].
Qed.

Lemma BfxListFirst_spec h l xs :
  is_list h l xs → BfxListFirst l h = Some (head xs, h).
Proof.
  intros (Hc & _ & Hl). unfold BfxListFirst. dunf. drun1 ltac:(exact Hc).
  destruct xs as [|x xs]; simpl; [done|]. by drun1 ltac:(exact (proj1 Hl)).
Qed.

Lemma BfxListLast_spec h l xs :
  is_list h l xs → BfxListLast l h = Some (last xs, h).
Proof.
  intros (Hc & _ & Hl%linked_prev). unfold BfxListLast. dunf. drun1 ltac:(exact Hc).
  destruct xs as [|x xs _] using rev_ind; [done|].
  rewrite length_app, decide_False by (simpl; lia).
  drun1 ltac:(exact Hl). by rewrite last_or_snoc, last_snoc.
Qed.

Theorem BfxListNext_spec h l xs1 x xs2 :
  is_list h l (xs1 ++ x :: xs2) → BfxListNext l x h = Some (head xs2, h).
Proof.
  intros (_ & Hnd & Hl). apply linked_suffix in Hl as (_ & _ & Hl%linked_next).
  apply NoDup_cons in Hnd as [Hni _]. rewrite elem_of_app, elem_of_cons in Hni.
  unfold BfxListNext. dunf. drun1 ltac:(apply bool_decide_eq_true_2; naive_solver).
  drun1 ltac:(exact Hl). destruct xs2 as [|y xs2]; unfold hd_or; simpl.
  - by rewrite decide_True.
  - rewrite decide_False; [done|]. intros ->. apply Hni. right. right. by left.
Qed.

Theorem BfxListPrev_spec h l xs1 x xs2 :
  is_list h l (xs1 ++ x :: xs2) → BfxListPrev l x h = Some (last xs1, h).
Proof.
  intros Hli. pose proof Hli as (_ & Hnd & Hl). apply linked_suffix in Hl as (_ & Hl & _).
  apply NoDup_cons in Hnd as [Hni _]. rewrite elem_of_app, elem_of_cons in Hni.
  unfold BfxListPrev. dunf. erewrite M_bind_Some by by apply BfxListExists_spec. cbn beta.
  drun1 ltac:(apply bool_decide_eq_true_2; set_solver).
  drun1 ltac:(apply bool_decide_eq_true_2; naive_solver).
  drun1 ltac:(exact Hl). destruct xs1 as [|y xs1 _] using rev_ind.
  - by rewrite decide_True.
  - rewrite last_or_snoc, last_snoc, decide_False; [done|]. intros ->.
    apply Hni. left. apply elem_of_app. right. by left.
Qed.

Theorem BfxListClear_spec h l xs :
  is_list h l xs →
  ∃ h', BfxListClear l h = Some (tt, h') ∧ is_list h' l [] ∧ same_off [l] h h'.
Proof. intros _. apply BfxListInit_spec. Qed.

Lemma same_off_trans D1 D2 D h1 h2 h3 :
  same_off D1 h1 h2 → same_off D2 h2 h3 → D1 ⊆ D → D2 ⊆ D → same_off D h1 h3.
Proof.
  intros H1 H2 S1 S2 y Hy. destruct (H1 y) as (? & ? & ?); [set_solver|].
  destruct (H2 y) as (? & ? & ?); [set_solver|]. repeat split; congruence.
Qed.

(** Inserting an array of items: they follow [pos] in their order. *)
Theorem BfxListMultiInsertAfter_spec h l xs1 xs2 pos items :
  is_list h l (xs1 ++ xs2) → pos = last_or l xs1 →
  NoDup items → (∀ x, x ∈ items → x ∉ l :: xs1 ++ xs2) →
  ∃ h', BfxListMultiInsertAfter l pos items h = Some (tt, h') ∧
        is_list h' l (xs1 ++ items ++ xs2) ∧
        same_off (items ++ l :: xs1 ++ xs2) h h'.
Proof.
  revert h xs1 pos. induction items as [|x items IH]; intros h xs1 pos Hli Hpos Hnd Hni.
  { exists h. split; [done|]. auto with bdt. }
  apply NoDup_cons in Hnd as [Hx Hnd].
  destruct (BfxListInsertAfter_spec h l xs1 xs2 pos x) as (h1 & Hr & Hl1 & Hs1);
    [done|done|apply Hni; by left|].
  destruct (IH h1 (xs1 ++ [x]) x) as (h2 & Hr2 & Hl2 & Hs2).
  - by rewrite <- app_assoc.
  - by rewrite last_or_snoc.
  - done.
  - intros y Hy. specialize (Hni y). rewrite <- app_assoc. simpl.
    rewrite elem_of_cons, elem_of_app, elem_of_cons. intros [->|[?|[->|?]]];
      [|set_solver|done|set_solver]. apply Hni; [by right|by left].
  - exists h2. split; [|split].
    + simpl. by erewrite M_bind_Some.
    + by rewrite <- app_assoc in Hl2.
    + eapply same_off_trans; [exact Hs1|exact Hs2|set_solver|set_solver].
Qed.

Section splice.
Implicit Types (nx pv : gmap Z Z) (xs ys : list Z).

Lemma linked_join nx pv a xs1 xs2 b :
  linked nx pv a xs1 (hd_or b xs2) →
  match xs2 with [] => True | x :: xs2 => linked nx pv x xs2 b end →
  linked nx pv a (xs1 ++ xs2) b.
Proof.
  revert a. induction xs1 as [|x xs1 IH]; intros a H1 H2; simpl in *.
  - by destruct xs2; simpl in *; [|naive_solver].
  - destruct H1 as (? & ? & ?). split; [done|split; [done|]]. by apply IH.
Qed.

Lemma linked_tail nx pv a xs b :
  linked nx pv a xs b → match xs with [] => True | x :: xs => linked nx pv x xs b end.
Proof. destruct xs; simpl; tauto. Qed.

(** Splicing the non-empty chain [ys] of another head into a ring. *)
Lemma linked_splice nx pv nx' pv' l xs1 xs2 l' ys (p := last_or l xs1) (n := hd_or l xs2)
    (f := hd_or l' ys) (e := last_or l' ys) :
  NoDup (l :: xs1 ++ xs2) → NoDup ys → ys ≠ [] →
  linked nx pv l (xs1 ++ xs2) l → linked nx pv l' ys l' →
  nx' !! p = Some f → pv' !! f = Some p → nx' !! e = Some n → pv' !! n = Some e →
  (∀ y, y ∈ l :: xs1 ++ xs2 → y ≠ p → nx' !! y = nx !! y) →
  (∀ y, y ∈ l :: xs1 ++ xs2 → y ≠ n → pv' !! y = pv !! y) →
  (∀ y, y ∈ ys → y ≠ e → nx' !! y = nx !! y) →
  (∀ y, y ∈ ys → y ≠ f → pv' !! y = pv !! y) →
  linked nx' pv' l (xs1 ++ ys ++ xs2) l.
Proof.
  intros Hnd Hndy Hne Hl Hly H1 H2 H3 H4 Hn Hp Hny Hpy.
  destruct (ring_cut _ _ _ Hnd) as (Hnd1 & Hnd2 & Hp2 & Hn1).
  fold p in Hp2. fold n in Hn1.
  apply NoDup_cons in Hnd2 as [Hl2 Hnd2]. apply NoDup_cons in Hnd1 as [Hl1 Hnd1].
  eapply linked_replace; [by apply NoDup_cons|exact Hl|..].
  - apply linked_join.
    + by eapply (linked_rehead nx pv).
    + apply linked_suffix, linked_tail in Hl. fold p in Hl. destruct xs2 as [|x xs2]; [done|].
      apply NoDup_cons in Hnd2 as [Hx2 _].
      eapply linked_agree; [..|exact Hl]; intros y Hy.
      * apply Hn; [set_solver|]. intros ->. done.
      * apply Hp; [set_solver|]. unfold n, hd_or; simpl. intros ->.
        apply elem_of_cons in Hy as [->|?]; [apply Hl2; by left|done].
  - intros y Hy Hne'. apply Hn; [|done]. set_solver.
  - intros y Hy. apply Hp; [set_solver|]. by intros ->.
Qed.
End splice.

(** Two lists that share no address. *)
Definition apart (l : Z) (xs : list Z) (l' : Z) (ys : list Z) : Prop :=
  ∀ y, y ∈ l :: xs → y ∉ l' :: ys.

Lemma apart_sym l xs l' ys : apart l xs l' ys → apart l' ys l xs.
Proof. intros H y Hy Hy'. by apply (H y). Qed.

Lemma elem_ne (x y : Z) (xs : list Z) : x ∈ xs → y ∉ xs → y ≠ x.
Proof. by intros ? ? ->. Qed.

(** The result of a merge, from its final pointer maps. *)
Lemma merged_is_list h h' l xs1 xs2 l' ys (p := last_or l xs1) (n := hd_or l xs2)
    (f := hd_or l' ys) (e := last_or l' ys) :
  is_list h l (xs1 ++ xs2) → is_list h l' ys → apart l (xs1 ++ xs2) l' ys → ys ≠ [] →
  hnext h' = <[l' := l']> (<[p := f]> (<[e := n]> (hnext h))) →
  hprev h' = <[l' := l']> (<[n := e]> (<[f := p]> (hprev h))) →
  hcount h' = <[l' := 0]> (<[l := Z.of_nat (length (xs1 ++ xs2)) + Z.of_nat (length ys)]> (hcount h)) →
  is_list h' l (xs1 ++ ys ++ xs2) ∧ is_list h' l' [] ∧
  same_off ((l :: xs1 ++ xs2) ++ (l' :: ys)) h h'.
Proof.
  intros (Hc & Hnd & Hl) (Hc' & Hnd' & Hl') Hap Hne En Ep Ec.
  assert (Hpl : p ∈ l :: xs1 ++ xs2).
  { pose proof (last_or_elem l xs1) as H. fold p in H. set_solver. }
  assert (Hnl : n ∈ l :: xs1 ++ xs2).
  { pose proof (hd_or_elem l xs2) as H. fold n in H. set_solver. }
  assert (He : e ∈ ys) by by apply last_or_elem_ne.
  assert (Hf : f ∈ ys) by (destruct ys; [done|by left]).
  apply NoDup_cons in Hnd' as [Hl'0 Hndy].
  assert (Hlk : ∀ y, y ∈ l :: xs1 ++ xs2 → y ≠ l' ∧ y ∉ ys ∧ y ≠ e ∧ y ≠ f).
  { intros y [? ?]%Hap%not_elem_of_cons. repeat split; [done..| |]; by eapply elem_ne. }
  assert (Hyk : ∀ y, y ∈ ys → y ≠ l' ∧ y ≠ p ∧ y ≠ n).
  { intros y Hy. repeat split; apply not_eq_sym; eapply elem_ne; try exact Hy; try done;
      by apply Hlk. }
  pose proof (Hlk p Hpl) as (? & ? & ? & ?). pose proof (Hlk n Hnl) as (? & ? & ? & ?).
  pose proof (Hlk l) as (? & ? & ? & ?); [by left|].
  pose proof (Hyk e He) as (? & ? & ?). pose proof (Hyk f Hf) as (? & ? & ?).
  split; [|split].
  - split; [|split].
    + rewrite Ec. rewrite lookup_insert_ne, lookup_insert_eq by done.
      rewrite !length_app. f_equal. lia.
    + rewrite (Permutation_app_swap_app xs1), Permutation_middle.
      apply NoDup_app. split; [done|split; [|done]]. intros y Hy Hy'.
      by destruct (Hlk y Hy') as (_ & ? & _).
    + eapply (linked_splice (hnext h) (hprev h)); try done; rewrite ?En, ?Ep;
        fold p n f e.
      * by rewrite lookup_insert_ne, lookup_insert_eq by done.
      * rewrite lookup_insert_ne, lookup_insert_ne, lookup_insert_eq by done. done.
      * rewrite lookup_insert_ne, lookup_insert_ne, lookup_insert_eq by done. done.
      * by rewrite lookup_insert_ne, lookup_insert_eq by done.
      * intros y Hy ?. destruct (Hlk y Hy) as (? & ? & ? & ?).
        by rewrite !lookup_insert_ne by done.
      * intros y Hy ?. destruct (Hlk y Hy) as (? & ? & ? & ?).
        by rewrite !lookup_insert_ne by done.
      * intros y Hy ?. destruct (Hyk y Hy) as (? & ? & ?).
        by rewrite !lookup_insert_ne by done.
      * intros y Hy ?. destruct (Hyk y Hy) as (? & ? & ?).
        by rewrite !lookup_insert_ne by done.
  - split; [|split; [apply NoDup_singleton|]]; simpl.
    + by rewrite Ec, lookup_insert_eq.
    + by rewrite En, Ep, !lookup_insert_eq.
  - intros y Hy. rewrite not_elem_of_app, (not_elem_of_cons ys) in Hy. rewrite En, Ep, Ec.
    destruct Hy as (Hy1 & Hy2 & Hy3).
    assert (y ≠ p ∧ y ≠ n ∧ y ≠ e ∧ y ≠ f ∧ y ≠ l) as (? & ? & ? & ? & ?).
    { repeat split; [exact (elem_ne _ _ _ Hpl Hy1)|exact (elem_ne _ _ _ Hnl Hy1)
        |exact (elem_ne _ _ _ He Hy3)|exact (elem_ne _ _ _ Hf Hy3)|].
      intros ->. apply Hy1. by left. }
    by rewrite !lookup_insert_ne by done.
Qed.

(** [BfxListMerge]: appending ([atBack]) or prepending all items of another list, which is
    left empty. *)
Theorem BfxListMerge_spec h l xs l' ys (atBack : bool) :
  is_list h l xs → is_list h l' ys → apart l xs l' ys →
  ∃ h', BfxListMerge l l' atBack h = Some (tt, h') ∧
        is_list h' l (if atBack then xs ++ ys else ys ++ xs) ∧ is_list h' l' [] ∧
        same_off ((l :: xs) ++ (l' :: ys)) h h'.
Proof.
  intros Hli Hli' Hap. pose proof Hli as (Hc & Hnd & Hl).
  pose proof Hli' as (Hc' & Hnd' & Hl').
  destruct (decide (ys = [])) as [->|Hne].
  { exists h. unfold BfxListMerge. dunf. split; [by drun1 ltac:(exact Hc')|].
    rewrite app_nil_r. destruct atBack; auto with bdt. }
  pose proof (linked_next _ _ _ _ _ Hl) as Hln. pose proof (linked_prev _ _ _ _ _ Hl) as Hlp.
  pose proof (linked_next _ _ _ _ _ Hl') as Hln'. pose proof (linked_prev _ _ _ _ _ Hl') as Hlp'.
  assert (He : last_or l' ys ∈ ys) by by apply last_or_elem_ne.
  assert (Hf : hd_or l' ys ∈ ys) by (destruct ys; [done|by left]).
  assert (Hll : l ≠ l' ∧ l ∉ ys) by (rewrite <- not_elem_of_cons; apply Hap; by left).
  assert (Hl'x : l' ∉ l :: xs) by (intros ?%Hap; set_solver).
  pose proof (last_or_elem l xs) as Hp. pose proof (hd_or_elem l xs) as Hn.
  assert (hd_or l' ys ≠ l) by (intros E; rewrite E in Hf; tauto).
  assert (last_or l' ys ≠ l) by (intros E; rewrite E in He; tauto).
  assert (last_or l' ys ≠ l') by (intros E; rewrite E in He; inversion Hnd'; done).
  assert (hd_or l' ys ≠ l') by (intros E; rewrite E in Hf; inversion Hnd'; done).
  assert (l' ≠ last_or l xs) by (intros E; rewrite <- E in Hp; tauto).
  assert (l' ≠ hd_or l xs) by (intros E; rewrite <- E in Hn; tauto).
  assert (Z.of_nat (length ys) ≠ 0) by (destruct ys; simpl; [done|lia]).
  destruct atBack.
  - eexists. split.
    { unfold BfxListMerge. dunf. drun1 ltac:(exact Hc'). rewrite decide_False by done.
      erewrite M_bind_Some; cbn beta.
      2:{ drun1 ltac:(exact Hln'). drun1 ltac:(exact Hlp). drun1 dlook.
          drun1 dlook. drun1 dlook. drun1 dlook. drun1 dlook. drun1 dlook. drun1 dlook.
          reflexivity. }
      drun1 ltac:(exact Hc). drun1 ltac:(exact Hc'). drun1 dlook. reflexivity. }
    match goal with |- is_list ?h' _ _ ∧ _ =>
      pose proof (merged_is_list h h' l xs [] l' ys) as Hm end.
    rewrite !app_nil_r in Hm. by apply Hm.
  - eexists. split.
    { unfold BfxListMerge. dunf. drun1 ltac:(exact Hc'). rewrite decide_False by done.
      erewrite M_bind_Some; cbn beta.
      2:{ drun1 ltac:(exact Hln'). drun1 dlook. drun1 dlook. drun1 dlook. drun1 dlook.
          drun1 dlook. drun1 dlook. drun1 dlook. drun1 dlook. reflexivity. }
      drun1 ltac:(exact Hc). drun1 ltac:(exact Hc'). drun1 dlook. reflexivity. }
    by apply (merged_is_list h) with (xs1 := []).
Qed.

Theorem BfxListMergeAfter_spec h l xs1 xs2 pos l' ys :
  is_list h l (xs1 ++ xs2) → pos = last_or l xs1 → is_list h l' ys →
  apart l (xs1 ++ xs2) l' ys →
  ∃ h', BfxListMergeAfter l l' pos h = Some (tt, h') ∧
        is_list h' l (xs1 ++ ys ++ xs2) ∧ is_list h' l' [] ∧
        same_off ((l :: xs1 ++ xs2) ++ (l' :: ys)) h h'.
Proof.
  intros Hli -> Hli' Hap. pose proof Hli as (Hc & Hnd & Hl).
  pose proof Hli' as (Hc' & Hnd' & Hl').
  destruct (decide (ys = [])) as [->|Hne].
  { exists h. unfold BfxListMergeAfter. dunf. split; [by drun1 ltac:(exact Hc')|].
    auto with bdt. }
  pose proof (linked_next _ _ _ _ _ (linked_suffix _ _ _ _ _ _ Hl)) as Hpn.
  pose proof (linked_next _ _ _ _ _ Hl') as Hln'. pose proof (linked_prev _ _ _ _ _ Hl') as Hlp'.
  assert (He : last_or l' ys ∈ ys) by by apply last_or_elem_ne.
  assert (Hf : hd_or l' ys ∈ ys) by (destruct ys; [done|by left]).
  assert (Hp : last_or l xs1 ∈ l :: xs1 ++ xs2) by (pose proof (last_or_elem l xs1); set_solver).
  assert (Hn : hd_or l xs2 ∈ l :: xs1 ++ xs2) by (pose proof (hd_or_elem l xs2); set_solver).
  apply Hap, not_elem_of_cons in Hp as [Hp Hp']. apply Hap, not_elem_of_cons in Hn as [Hn Hn'].
  assert (last_or l' ys ≠ last_or l xs1) by (intros E; rewrite E in He; tauto).
  assert (last_or l' ys ≠ l') by (intros E; rewrite E in He; inversion Hnd'; done).
  assert (hd_or l' ys ≠ l') by (intros E; rewrite E in Hf; inversion Hnd'; done).
  assert (Z.of_nat (length ys) ≠ 0) by (destruct ys; simpl; [done|lia]).
  eexists. split.
  { unfold BfxListMergeAfter. dunf. drun1 ltac:(exact Hc'). rewrite decide_False by done.
    drun1 ltac:(exact Hln'). do 9 drun1 dlook.
    drun1 ltac:(exact Hc). drun1 ltac:(exact Hc'). drun1 dlook. reflexivity. }
  by apply (merged_is_list h).
Qed.

Lemma swap_half_spec h h0 dst a b ys :
  NoDup (dst :: ys) → linked (hnext h0) (hprev h0) a ys b →
  (∀ y, y ∈ ys → hnext h !! y = hnext h0 !! y ∧ hprev h !! y = hprev h0 !! y) →
  ∃ h', swap_half dst (hd_or b ys) (last_or a ys) (Z.of_nat (length ys)) h = Some (tt, h') ∧
        linked (hnext h') (hprev h') dst ys dst ∧ hcount h' = hcount h ∧
        same_off (dst :: ys) h h'.
Proof.
  intros [Hd Hnd]%NoDup_cons Hl Hag. unfold swap_half. dunf.
  destruct (decide (ys = [])) as [->|Hne].
  { eexists. split; [reflexivity|]. simpl. rewrite !lookup_insert_eq.
    split; [done|split; [done|]]. intros y Hy%not_elem_of_cons. simpl.
    by rewrite !lookup_insert_ne by naive_solver. }
  assert (He : last_or a ys ∈ ys) by by apply last_or_elem_ne.
  assert (Hf : hd_or b ys ∈ ys) by (destruct ys; [done|by left]).
  pose proof (elem_ne _ _ _ He Hd). pose proof (elem_ne _ _ _ Hf Hd).
  rewrite decide_False by (destruct ys; simpl; [done|lia]).
  eexists. split.
  { drun1 dlook. drun1 dlook. drun1 dlook. drun1 dlook. drun1 dlook. reflexivity. }
  simpl. split; [|split; [done|]].
  - eapply linked_rehead; [done|done|exact Hl|..].
    + by rewrite lookup_insert_ne, lookup_insert_eq by done.
    + by rewrite lookup_insert_eq.
    + by rewrite lookup_insert_eq.
    + by rewrite lookup_insert_ne, lookup_insert_eq by done.
    + intros y Hy ?. pose proof (elem_ne _ _ _ Hy Hd). destruct (Hag y Hy) as [<- _].
      by rewrite !lookup_insert_ne by done.
    + intros y Hy ?. pose proof (elem_ne _ _ _ Hy Hd). destruct (Hag y Hy) as [_ <-].
      by rewrite !lookup_insert_ne by done.
  - intros y [? Hy]%not_elem_of_cons. simpl.
    pose proof (elem_ne _ _ _ He Hy). pose proof (elem_ne _ _ _ Hf Hy).
    by rewrite !lookup_insert_ne by done.
Qed.

(** [BfxListSwap]: two lists exchange their contents, and nothing outside
    them is written. *)
Theorem BfxListSwap_spec h l xs l' ys :
  is_list h l xs → is_list h l' ys → apart l xs l' ys →
  ∃ h', BfxListSwap l l' h = Some (tt, h') ∧
        is_list h' l ys ∧ is_list h' l' xs ∧ same_off ((l :: xs) ++ (l' :: ys)) h h'.
Proof.
  intros (Hc & Hnd & Hl) (Hc' & Hnd' & Hl') Hap.
  pose proof (Hap l ltac:(by left)) as [Hll Hly]%not_elem_of_cons.
  assert (Hlx : l' ∉ xs) by (intros ?; eapply (Hap l'); [by right|by left]).
  apply NoDup_cons in Hnd as [Hlx0 Hndx]. apply NoDup_cons in Hnd' as [Hly0 Hndy].
  destruct (swap_half_spec h h l l' l' ys) as (h1 & Hr1 & Hl1 & Hc1 & Hs1);
    [by apply NoDup_cons|done|done|].
  destruct (swap_half_spec h1 h l' l l xs) as (h2 & Hr2 & Hl2 & Hc2 & Hs2);
    [by apply NoDup_cons|done| |].
  { intros y Hy. destruct (Hs1 y) as (? & ? & _); [|done].
    rewrite not_elem_of_cons. split; [intros ->; done|]. intros ?.
    eapply (Hap y); by right. }
  eexists. split; [|split; [|split]].
  - unfold BfxListSwap. dunf.
    drun1 ltac:(exact (linked_next _ _ _ _ _ Hl)). drun1 ltac:(exact (linked_prev _ _ _ _ _ Hl)).
    drun1 ltac:(exact Hc').
    drun1 ltac:(exact (linked_next _ _ _ _ _ Hl')). drun1 ltac:(exact (linked_prev _ _ _ _ _ Hl')).
    erewrite M_bind_Some by exact Hr1. cbn beta.
    drun1 ltac:(rewrite Hc1; exact Hc). erewrite M_bind_Some by exact Hr2. cbn beta.
    drun1 ltac:(rewrite Hc2, Hc1; exact Hc). drun1 ltac:(rewrite Hc2, Hc1; exact Hc').
    drun1 dlook. reflexivity.
  - split; [|split]; simpl.
    + by rewrite lookup_insert_ne, lookup_insert_eq by done.
    + by apply NoDup_cons.
    + eapply linked_agree; [..|exact Hl1]; intros y Hy; apply Hs2;
        rewrite not_elem_of_cons; apply elem_of_cons in Hy as [->|Hy];
        (split; [try done; intros ->; done|try done]);
        intros ?; eapply (Hap y); by right.
  - split; [|split]; simpl.
    + by rewrite lookup_insert_eq.
    + by apply NoDup_cons.
    + done.
  - intros y Hy. rewrite not_elem_of_app in Hy. destruct Hy as [Hy1 Hy2].
    assert (same_off ((l :: xs) ++ (l' :: ys)) h h2) as Hs.
    { eapply same_off_trans; [exact Hs1|exact Hs2|set_solver|set_solver]. }
    destruct (Hs y) as (? & ? & ?); [rewrite not_elem_of_app; done|]. simpl.
    apply not_elem_of_cons in Hy1 as [? _]. apply not_elem_of_cons in Hy2 as [? _].
    by rewrite !lookup_insert_ne by done.
Qed.

(** ** The list as an abstract data type

    A client's sequence of calls, run on the pointers and on plain sequences.
    A call that the code's assertions reject is a fault on both sides. *)

Inductive list_op :=
  | OpPushBack (x : Z) | OpPushFront (x : Z) | OpInsertAfter (pos x : Z)
  | OpErase (x : Z) | OpPopFront | OpPopBack | OpClear.

Definition op_items (o : list_op) : list Z :=
  match o with
  | OpPushBack x | OpPushFront x | OpInsertAfter _ x | OpErase x => [x]
  | _ => []
  end.

Definition impl_op (l : Z) (o : list_op) : M heap (option Z) :=
  match o with
  | OpPushBack x => BfxListPushBack l x ;; mret None
  | OpPushFront x => BfxListPushFront l x ;; mret None
  | OpInsertAfter pos x => BfxListInsertAfter l pos x ;; mret None
  | OpErase x => BfxListErase l x ;; mret None
  | OpPopFront => BfxListPopFront l
  | OpPopBack => BfxListPopBack l
  | OpClear => BfxListClear l ;; mret None
  end.

Fixpoint seq_insert_after (pos x : Z) (xs : list Z) : list Z :=
  match xs with
  | [] => []
  | y :: xs => if decide (y = pos) then y :: x :: xs else y :: seq_insert_after pos x xs
  end.

Definition seq_op (l : Z) (o : list_op) (xs : list Z) : option (option Z * list Z) :=
  match o with
  | OpPushBack x => if decide (x ∈ xs) then None else Some (None, xs ++ [x])
  | OpPushFront x => if decide (x ∈ xs) then None else Some (None, x :: xs)
  | OpInsertAfter pos x =>
      if decide (x ∈ xs) then None
      else if decide (pos = l) then Some (None, x :: xs)
      else if decide (pos ∈ xs) then Some (None, seq_insert_after pos x xs) else None
  | OpErase x => if decide (x ∈ xs) then Some (None, filter (.≠ x) xs) else None
  | OpPopFront => Some (head xs, tail xs)
  | OpPopBack => Some (last xs, removelast xs)
  | OpClear => Some (None, [])
  end.

Fixpoint impl_run (l : Z) (os : list list_op) : M heap (list (option Z)) :=
  match os with
  | [] => mret []
  | o :: os => r ← impl_op l o; rs ← impl_run l os; mret (r :: rs)
  end.

Fixpoint seq_run (l : Z) (os : list list_op) (xs : list Z) : option (list (option Z) * list Z) :=
  match os with
  | [] => Some ([], xs)
  | o :: os =>
      match seq_op l o xs with
      | None => None
      | Some (r, xs) =>
          match seq_run l os xs with
          | None => None
          | Some (rs, xs) => Some (r :: rs, xs)
          end
      end
  end.

Lemma insert_after_fault h l xs pos x :
  is_list h l xs → x ∈ xs ∨ (pos ≠ l ∧ pos ∉ xs) → BfxListInsertAfter l pos x h = None.
Proof.
  intros Hli Hf. unfold BfxListInsertAfter.
  erewrite M_bind_Some by by apply BfxListExists_spec. cbn beta.
  destruct (bool_decide (pos = l) || bool_decide (pos ∈ xs)) eqn:E; [|done].
  erewrite M_bind_Some by by apply massert_Some. cbn beta.
  erewrite M_bind_Some by by apply BfxListExists_spec. cbn beta.
  apply orb_true_iff in E. rewrite !bool_decide_eq_true in E.
  rewrite bool_decide_eq_true_2 by naive_solver. done.
Qed.

Lemma seq_insert_after_app (pos x : Z) xs1 xs2 :
  pos ∉ xs1 → seq_insert_after pos x (xs1 ++ pos :: xs2) = xs1 ++ pos :: x :: xs2.
Proof.
  induction xs1 as [|y xs1 IH]; intros Hni; simpl; [by rewrite decide_True|].
  apply not_elem_of_cons in Hni as [? ?]. rewrite decide_False by done. by rewrite IH.
Qed.

Lemma filter_ne_app (x : Z) xs1 xs2 :
  x ∉ xs1 → x ∉ xs2 → filter (.≠ x) (xs1 ++ x :: xs2) = xs1 ++ xs2.
Proof.
  intros H1 H2. rewrite filter_app, filter_cons_False by naive_solver.
  rewrite !filter_all; [done|..]; by intros ? ? ->.
Qed.

Lemma impl_op_refines h l xs o :
  is_list h l xs → l ∉ op_items o →
  match seq_op l o xs with
  | Some (r, ys) => ∃ h', impl_op l o h = Some (r, h') ∧ is_list h' l ys
  | None => impl_op l o h = None
  end.
Proof.
  intros Hli Hno. pose proof Hli as (_ & Hnd & Hl). destruct o as [x|x|pos x|x| | |]; simpl.
  - case_decide as Hx.
    + assert (BfxListPushBack l x h = None) as Hr.
      { unfold BfxListPushBack. dunf. drun1 ltac:(exact (linked_prev _ _ _ _ _ Hl)).
        exact (insert_after_fault _ _ _ _ _ Hli (or_introl Hx)). }
      by unfold mbind, M_bind; rewrite Hr.
    + destruct (BfxListPushBack_spec h l xs x) as (h' & Hr & ? & _); [done|set_solver|].
      exists h'. by rewrite (M_bind_Some _ _ _ _ _ Hr).
  - case_decide as Hx.
    + unfold BfxListPushFront.
      by unfold mbind, M_bind; rewrite (insert_after_fault _ _ _ _ _ Hli (or_introl Hx)).
    + destruct (BfxListPushFront_spec h l xs x) as (h' & Hr & ? & _); [done|set_solver|].
      exists h'. by rewrite (M_bind_Some _ _ _ _ _ Hr).
  - case_decide as Hx.
    { by unfold mbind, M_bind; rewrite (insert_after_fault _ _ _ _ _ Hli (or_introl Hx)). }
    case_decide as Hpl; [|case_decide as Hp].
    + destruct (BfxListInsertAfter_spec h l [] xs pos x) as (h' & Hr & ? & _);
        [done|done|set_solver|]. exists h'. by rewrite (M_bind_Some _ _ _ _ _ Hr).
    + apply list_elem_of_split in Hp as (xs1 & xs2 & ->).
      destruct (BfxListInsertAfter_spec h l (xs1 ++ [pos]) xs2 pos x) as (h' & Hr & Hl' & _).
      * by rewrite <- app_assoc.
      * by rewrite last_or_snoc.
      * rewrite <- app_assoc. set_solver.
      * exists h'. rewrite <- app_assoc in Hl'. rewrite seq_insert_after_app.
        -- by rewrite (M_bind_Some _ _ _ _ _ Hr).
        -- apply NoDup_cons in Hnd as [_ Hnd]. apply NoDup_app in Hnd as (_ & Hd & _).
           intros ?. eapply Hd; [done|by left].
    + by unfold mbind, M_bind; rewrite (insert_after_fault _ _ _ _ _ Hli (or_intror (conj Hpl Hp))).
  - case_decide as Hx.
    + apply list_elem_of_split in Hx as (xs1 & xs2 & ->).
      destruct (BfxListErase_spec h l xs1 x xs2 Hli) as (h' & Hr & Hl' & _).
      apply NoDup_cons in Hnd as [_ Hnd]. rewrite <- Permutation_middle in Hnd.
      apply NoDup_cons in Hnd as [Hni _]. apply not_elem_of_app in Hni as [? ?].
      exists h'. rewrite filter_ne_app by done. by rewrite (M_bind_Some _ _ _ _ _ Hr).
    + unfold BfxListErase, mbind, M_bind. rewrite (BfxListExists_spec _ _ _ _ Hli).
      by rewrite bool_decide_eq_false_2.
  - destruct (BfxListPopFront_spec h l xs Hli) as (h' & ? & ? & _). eauto.
  - destruct (BfxListPopBack_spec h l xs Hli) as (h' & ? & ? & _). eauto.
  - destruct (BfxListClear_spec h l xs Hli) as (h' & Hr & ? & _).
    exists h'. by rewrite (M_bind_Some _ _ _ _ _ Hr).
Qed.

(** C12: Any sequence of calls on a list answers what the same calls answer on a
    plain sequence, and leaves the pointers linked in that sequence's order;
    a call rejected by an assertion is rejected on both sides. *)
Theorem list_ops_refine_sequences l os xs h :
  is_list h l xs → (∀ o, o ∈ os → l ∉ op_items o) →
  match seq_run l os xs with
  | Some (rs, ys) => ∃ h', impl_run l os h = Some (rs, h') ∧ is_list h' l ys
  | None => impl_run l os h = None
  end.
Proof.
  revert xs h. induction os as [|o os IH]; intros xs h Hli Hno; simpl; [by exists h|].
  pose proof (impl_op_refines h l xs o Hli (Hno o ltac:(by left))) as Ho.
  destruct (seq_op l o xs) as [[r ys]|].
  - destruct Ho as (h' & Hr & Hli'). rewrite (M_bind_Some _ _ _ _ _ Hr).
    specialize (IH ys h' Hli' ltac:(intros; apply Hno; by right)).
    destruct (seq_run l os ys) as [[rs zs]|].
    + destruct IH as (h'' & Hr' & ?). exists h''. by rewrite (M_bind_Some _ _ _ _ _ Hr').
    + unfold mbind, M_bind. by rewrite IH.
  - unfold mbind, M_bind. by rewrite Ho.
Qed.

(** ** A concrete heap

    The list at 1 holds 10 and 11, the list at 2 holds 20. *)
Definition demo_heap : heap := {|
  hnext := list_to_map [(1, 10); (10, 11); (11, 1); (2, 20); (20, 2)];
  hprev := list_to_map [(1, 11); (10, 1); (11, 10); (2, 20); (20, 2)];
  hcount := list_to_map [(1, 2); (2, 1)]
|}.

Lemma demo_list_1 : is_list demo_heap 1 [10; 11].
Proof. split; [done|]. split; [by apply (bool_decide_unpack _)|]. by vm_compute. Qed.
Lemma demo_list_2 : is_list demo_heap 2 [20].
Proof. split; [done|]. split; [by apply (bool_decide_unpack _)|]. by vm_compute. Qed.
Lemma demo_apart : apart 1 [10; 11] 2 [20].
Proof.
  intros y Hy. repeat (apply elem_of_cons in Hy as [->|Hy]; [by apply (bool_decide_unpack _)|]).
  by apply elem_of_nil in Hy.
Qed.

Lemma BfxListMerge_spec_witness :
  ∃ h', BfxListMerge 1 2 true demo_heap = Some (tt, h') ∧ is_list h' 1 [10; 11; 20].
Proof.
  destruct (BfxListMerge_spec demo_heap 1 [10; 11] 2 [20] true demo_list_1 demo_list_2 demo_apart)
    as (h' & H1 & H2 & _). exists h'. exact (conj H1 H2).
Defined.

Lemma BfxListSwap_spec_witness :
  ∃ h', BfxListSwap 1 2 demo_heap = Some (tt, h') ∧ is_list h' 1 [20] ∧ is_list h' 2 [10; 11].
Proof.
  destruct (BfxListSwap_spec demo_heap 1 [10; 11] 2 [20] demo_list_1 demo_list_2 demo_apart)
    as (h' & H1 & H2 & H3 & _). exists h'. exact (conj H1 (conj H2 H3)).
Defined.

Lemma list_ops_refine_sequences_witness :
  ∃ h', impl_run 1 [OpPushFront 9; OpErase 10; OpInsertAfter 9 12; OpPopBack] demo_heap
        = Some ([None; None; None; Some 11], h') ∧ is_list h' 1 [9; 12].
Proof.
  refine (list_ops_refine_sequences 1 [OpPushFront 9; OpErase 10; OpInsertAfter 9 12; OpPopBack]
    [10; 11] demo_heap demo_list_1 _).
  intros o Ho. repeat (apply elem_of_cons in Ho as [->|Ho]; [by apply (bool_decide_unpack _)|]).
  by apply elem_of_nil in Ho.
Defined.
