(* ===== verification/RecvQueue.v ===== *)
(** * The receive queue of a package connection

    Models [BDTCore/Connection/PackageConnection/RecvQueue.imp.inl]: the
    acknowledged position, the out-of-order blocks that become the SACK list,
    and the application's receive buffers into which payloads are copied.
    The two critical sections of the file ([lockRecvBlock], [lockRecvStream])
    guard the two halves of the record; each operation below is the body of
    one call. *)

From S2P Require Import Prelude CInt.

(** ** Data *)

(** [RecvPackageType] of [BaseType.inl]. *)
Inductive RecvPackageType :=
  | RECV_PACKAGE_TYPE_NONE
  | RECV_PACKAGE_TYPE_OLD
  | RECV_PACKAGE_TYPE_OUT_OF_BUFFER
  | RECV_PACKAGE_TYPE_IN_ORDER
  | RECV_PACKAGE_TYPE_LOST_ORDER
  | RECV_PACKAGE_TYPE_PART.
#[export] Instance RecvPackageType_eq_dec : EqDecision RecvPackageType.
Proof. solve_decision. Defined.

Inductive RecvBlockRelativePos :=
  | RECV_BLOCK_RELATIVE_POS_PREV
  | RECV_BLOCK_RELATIVE_POS_INTERSECT
  | RECV_BLOCK_RELATIVE_POS_INCLUDE
  | RECV_BLOCK_RELATIVE_POS_NEXT.
#[export] Instance RecvBlockRelativePos_eq_dec : EqDecision RecvBlockRelativePos.
Proof. solve_decision. Defined.

(** A received range beyond the acknowledged position; [blk_id] is the address
    of the block, which [recvBlock.latest] may point to. *)
Record RecvBlock := mkBlock { blk_id : Z; blk_start : Z; blk_end : Z }.

(** A buffer of the application.  [rb_addr] is the pointer it passed and
    [rb_bytes] the memory behind it (applications hand over disjoint
    buffers); [rb_callback] names the callback and its user data. *)
Record RecvBuffer := mkBuffer {
  rb_addr : Z; rb_len : Z; rb_bytes : list Z;
  rb_start : Z; rb_end : Z; rb_callback : Z }.

Record RecvQueue := mkRQ {
  rq_ack : Z;                  (* recvBlock.ackStreamPos *)
  rq_latest : option Z;        (* recvBlock.latest *)
  rq_blocks : list RecvBlock;  (* recvBlock.blocks *)
  rq_fresh : Z;                (* the next address malloc returns for a block *)
  rq_read : Z;                 (* recvStream.readStreamPos *)
  rq_end : Z;                  (* recvStream.endStreamPos *)
  rq_buffers : list RecvBuffer (* recvStream.buffers *)
}.

Definition set_blocks (q : RecvQueue) (ack : Z) (latest : option Z) (bs : list RecvBlock)
    (fresh : Z) : RecvQueue :=
  mkRQ ack latest bs fresh (rq_read q) (rq_end q) (rq_buffers q).
Definition set_stream (q : RecvQueue) (rd en : Z) (bufs : list RecvBuffer) : RecvQueue :=
  mkRQ (rq_ack q) (rq_latest q) (rq_blocks q) (rq_fresh q) rd en bufs.

Definition RecvQueueCreate (streamPos : Z) : RecvQueue :=
  mkRQ streamPos None [] 1 streamPos streamPos [].

(** ** Blocks *)

Definition HelpRecvQueueMax (left right : Z) : Z := if left >? right then left else right.
Definition HelpRecvQueueMin (left right : Z) : Z := if left >? right then right else left.

(** The arithmetic is on [uint64_t]. *)
Definition RecvQueueRecvBlockCalcRelaPos (base other : RecvBlock) : RecvBlockRelativePos :=
  let maxOffset := u64 (HelpRecvQueueMax (blk_end base) (blk_end other)
                        - HelpRecvQueueMin (blk_start base) (blk_start other)) in
  let totallen := u64 (blk_end base - blk_start base + blk_end other - blk_start other) in
  let maxLen := HelpRecvQueueMax (u64 (blk_end base - blk_start base))
                                 (u64 (blk_end other - blk_start other)) in
  if maxOffset <=? totallen then
    if maxOffset =? maxLen then RECV_BLOCK_RELATIVE_POS_INCLUDE
    else RECV_BLOCK_RELATIVE_POS_INTERSECT
  else if blk_start other <? blk_start base then RECV_BLOCK_RELATIVE_POS_PREV
  else RECV_BLOCK_RELATIVE_POS_NEXT.

Definition touching (p : RecvBlockRelativePos) : bool :=
  match p with
  | RECV_BLOCK_RELATIVE_POS_INCLUDE | RECV_BLOCK_RELATIVE_POS_INTERSECT => true
  | _ => false
  end.

Definition RecvQueueRecvBlockNew (addr startStreamPos endStreamPos : Z) : RecvBlock :=
  mkBlock addr startStreamPos endStreamPos.

(** [if (queue->recvBlock.latest == block) latest = NULL] *)
Definition forget_latest (latest : option Z) (b : RecvBlock) : option Z :=
  if decide (latest = Some (blk_id b)) then None else latest.

Definition RecvQueueDeleteBlock (q : RecvQueue) (b : RecvBlock) : RecvQueue :=
  set_blocks q (rq_ack q) (forget_latest (rq_latest q) b)
    (filter (λ c, blk_id c ≠ blk_id b) (rq_blocks q)) (rq_fresh q).

(** [block] grown to cover [s, e) as well. *)
Definition grow_block (b : RecvBlock) (s e : Z) : RecvBlock :=
  mkBlock (blk_id b) (HelpRecvQueueMin (blk_start b) s) (HelpRecvQueueMax (blk_end b) e).

(** The list around a cursor block [b] is kept as the blocks before it, nearest
    first, and the blocks after it: [BfxListPrev] and [BfxListNext] are the
    heads of the two. *)
Fixpoint merge_next (latest : option Z) (b : RecvBlock) (suf : list RecvBlock)
    : option Z * RecvBlock * list RecvBlock :=
  match suf with
  | [] => (latest, b, [])
  | nb :: suf' =>
      if touching (RecvQueueRecvBlockCalcRelaPos b nb) then
        merge_next (forget_latest latest nb) (grow_block b (blk_start nb) (blk_end nb)) suf'
      else (latest, b, suf)
  end.

Fixpoint merge_prev (latest : option Z) (rpre : list RecvBlock) (b : RecvBlock)
    : option Z * list RecvBlock * RecvBlock :=
  match rpre with
  | [] => (latest, [], b)
  | pb :: rpre' =>
      if touching (RecvQueueRecvBlockCalcRelaPos b pb) then
        merge_prev (forget_latest latest pb) rpre' (grow_block b (blk_start pb) (blk_end pb))
      else (latest, rpre, b)
  end.

Definition RecvQueueBlocksMerge (q : RecvQueue) (latest : option Z)
    (rpre : list RecvBlock) (b : RecvBlock) (suf : list RecvBlock) : RecvQueue :=
  let '(latest, b, suf) := merge_next latest b suf in
  let '(latest, rpre, b) := merge_prev latest rpre b in
  set_blocks q (rq_ack q) latest (reverse rpre ++ b :: suf) (rq_fresh q).

(** The search loop of [RecvQueueAddToBlocks] with its cursor at the head of
    [suf]; [prev] tells whether [prevBlock] is set, in which case it is the
    block just before the cursor. *)
Fixpoint add_loop (q : RecvQueue) (s e : Z) (prev : bool) (rpre suf : list RecvBlock)
    : bool * RecvQueue :=
  let new := RecvQueueRecvBlockNew (rq_fresh q) s e in
  match suf with
  | [] =>
      (false, set_blocks q (rq_ack q) (Some (blk_id new)) (reverse rpre ++ [new]) (rq_fresh q + 1))
  | b :: suf' =>
      match RecvQueueRecvBlockCalcRelaPos b (mkBlock 0 s e) with
      | RECV_BLOCK_RELATIVE_POS_INCLUDE =>
          if (blk_start b <=? s) && (e <=? blk_end b) then (true, q)
          else (false, RecvQueueBlocksMerge q (Some (blk_id b)) rpre (grow_block b s e) suf')
      | RECV_BLOCK_RELATIVE_POS_INTERSECT =>
          (false, RecvQueueBlocksMerge q (rq_latest q) rpre (grow_block b s e) suf')
      | RECV_BLOCK_RELATIVE_POS_NEXT => add_loop q s e true (b :: rpre) suf'
      | RECV_BLOCK_RELATIVE_POS_PREV =>
          let bs := if prev then reverse rpre ++ new :: suf else new :: reverse rpre ++ suf in
          (false, set_blocks q (rq_ack q) (Some (blk_id new)) bs (rq_fresh q + 1))
      end
  end.

(** The cursor at the block with address [id]. *)
Fixpoint cursor_at (id : Z) (rpre bs : list RecvBlock)
    : option (list RecvBlock * RecvBlock * list RecvBlock) :=
  match bs with
  | [] => None
  | b :: bs' => if decide (blk_id b = id) then Some (rpre, b, bs') else cursor_at id (b :: rpre) bs'
  end.

Definition RecvQueueAddToBlocks (q : RecvQueue) (s e : Z) : bool * RecvQueue :=
  match rq_latest q ≫= λ id, cursor_at id [] (rq_blocks q) with
  | Some (rpre, b, suf) =>
      if e <? blk_start b then add_loop q s e false [] (rq_blocks q)
      else add_loop q s e false rpre (b :: suf)
  | None => add_loop q s e false [] (rq_blocks q)
  end.

Definition RecvQueueUpdateStreamPos (q : RecvQueue) (s e : Z) : RecvPackageType * RecvQueue :=
  if e <=? rq_ack q then (RECV_PACKAGE_TYPE_OLD, q)
  else if s <=? rq_ack q then
    let q := set_blocks q e (rq_latest q) (rq_blocks q) (rq_fresh q) in
    match rq_blocks q with
    | [] => (RECV_PACKAGE_TYPE_IN_ORDER, q)
    | block :: _ =>
        if touching (RecvQueueRecvBlockCalcRelaPos block (mkBlock 0 s e)) then
          let q := set_blocks q (HelpRecvQueueMax (rq_ack q) (blk_end block))
                     (rq_latest q) (rq_blocks q) (rq_fresh q) in
          (RECV_PACKAGE_TYPE_IN_ORDER, RecvQueueDeleteBlock q block)
        else (RECV_PACKAGE_TYPE_IN_ORDER, q)
    end
  else
    let '(bOld, q) := RecvQueueAddToBlocks q s e in
    (if bOld then RECV_PACKAGE_TYPE_OLD else RECV_PACKAGE_TYPE_LOST_ORDER, q).

(** ** Receive buffers *)

(** The search of [RecvQueueSavePayload] for the buffer that holds
    [streamPos]: the buffers before it (nearest first), its first position, and
    the list from it on. *)
Fixpoint find_buffer (streamPos bufferBeginPos : Z) (rpre bufs : list RecvBuffer)
    : option (Z * list RecvBuffer * list RecvBuffer) :=
  match bufs with
  | [] => None
  | b :: bufs' =>
      if (bufferBeginPos <=? streamPos) && (streamPos <? bufferBeginPos + rb_len b)
      then Some (bufferBeginPos, rpre, bufs)
      else find_buffer streamPos (bufferBeginPos + rb_len b) (b :: rpre) bufs'
  end.

Definition write_buffer (b : RecvBuffer) (off : Z) (bytes : list Z) (en : Z) : RecvBuffer :=
  mkBuffer (rb_addr b) (rb_len b) (list_inserts (Z.to_nat off) bytes (rb_bytes b))
    (rb_start b) en (rb_callback b).

(** One round of the copy loop into the buffer [b], [data] being what is left to
    copy: the bytes copied, the new [recvStream.endStreamPos] and the buffer.
    [None] is a failed assertion. *)
Definition save_chunk (streamPos bufferBeginPos qend : Z) (data : list Z) (b : RecvBuffer)
    : option (Z * Z * RecvBuffer) :=
  let len := Z.of_nat (length data) in
  let off := streamPos - bufferBeginPos in
  let nCopy := if len >? rb_len b - off then rb_len b - off else len in
  let b' := write_buffer b off (take (Z.to_nat nCopy) data) in
  let len := len - nCopy in
  let streamPos := streamPos + nCopy in
  let en := if rb_end b <? streamPos then streamPos else rb_end b in
  if negb (en <=? bufferBeginPos + rb_len b) then None else
  let qend := if qend <? en then en else qend in
  let bufferBeginPos := bufferBeginPos + rb_len b in
  if (negb (len =? 0) && (streamPos =? bufferBeginPos)) ||
     ((len =? 0) && (streamPos <=? bufferBeginPos))
  then Some (nCopy, qend, b' en) else None.

Fixpoint save_loop (streamPos bufferBeginPos qend : Z) (data : list Z) (bufs : list RecvBuffer)
    : option (Z * Z * list RecvBuffer) :=
  match data, bufs with
  | [], _ | _, [] => Some (0, qend, bufs)
  | _, b :: bufs' =>
      '(nCopy, qend, b') ← save_chunk streamPos bufferBeginPos qend data b;
      '(n, qend, bufs') ← save_loop (streamPos + nCopy) (bufferBeginPos + rb_len b) qend
                            (drop (Z.to_nat nCopy) data) bufs';
      Some (nCopy + n, qend, b' :: bufs')
  end.

Definition RecvQueueSavePayload (q : RecvQueue) (streamPos : Z) (data : list Z)
    : option (Z * RecvQueue) :=
  let len := Z.of_nat (length data) in
  let trim := rq_read q - streamPos in
  if (streamPos <? rq_read q) && negb (trim <? len) then Some (len, q) else
  let '(save, streamPos, data) :=
    if streamPos <? rq_read q then (trim, rq_read q, drop (Z.to_nat trim) data)
    else (0, streamPos, data) in
  match find_buffer streamPos (rq_read q) [] (rq_buffers q) with
  | None => Some (save, q)
  | Some (bufferBeginPos, rpre, bufs) =>
      '(n, qend, bufs) ← save_loop streamPos bufferBeginPos (rq_end q) data bufs;
      Some (save + n, set_stream q (rq_read q) qend (reverse rpre ++ bufs))
  end.

(** [RecvQueueWriteData] takes the stream lock, releases it, and then takes the
    block lock: its two halves are also used apart, below, as the steps of a
    concurrent execution. *)
Definition RecvQueueWriteData (q : RecvQueue) (streamPos : Z) (payload : list Z)
    : option (RecvPackageType * RecvQueue) :=
  let payloadLength := Z.of_nat (length payload) in
  if u64 (streamPos + payloadLength) <=? rq_ack q then Some (RECV_PACKAGE_TYPE_OLD, q)
  else if payloadLength =? 0 then Some (RECV_PACKAGE_TYPE_IN_ORDER, q)
  else
    '(saveLen, q) ← RecvQueueSavePayload q streamPos payload;
    if saveLen =? 0 then Some (RECV_PACKAGE_TYPE_OUT_OF_BUFFER, q)
    else
      let '(t, q) := RecvQueueUpdateStreamPos q streamPos (u64 (streamPos + saveLen)) in
      Some (if saveLen <? payloadLength then RECV_PACKAGE_TYPE_PART else t, q).

Definition start_buffer (b : RecvBuffer) (s : Z) : RecvBuffer :=
  mkBuffer (rb_addr b) (rb_len b) (rb_bytes b) s (rb_end b) (rb_callback b).

Fixpoint pop_loop (currAckStreamPos : Z) (force : bool) (qend rd : Z) (bufs : list RecvBuffer)
    : option (list RecvBuffer * Z * list RecvBuffer) :=
  match bufs with
  | [] => Some ([], rd, [])
  | b :: bufs' =>
      if negb (rb_end b <=? qend) then None else
      let bNotify :=
        ((rb_end b =? rd + rb_len b) && (rb_end b <=? currAckStreamPos)) ||
        (force && negb (rb_end b =? 0) && (qend <=? currAckStreamPos)) in
      if bNotify then
        '(popped, rd', rest) ← pop_loop currAckStreamPos force qend (rb_end b) bufs';
        Some (start_buffer b rd :: popped, rd', rest)
      else Some ([], rd, bufs)
  end.

(** [currAckStreamPos] is read before the lock is taken: it is an argument, so
    that another thread may advance [ackStreamPos] in between. *)
Definition RecvQueuePopCompleteBuffers (q : RecvQueue) (currAckStreamPos : Z) (force : bool)
    (buffers : list RecvBuffer) : option (list RecvBuffer * RecvQueue) :=
  '(popped, rd, rest) ← pop_loop currAckStreamPos force (rq_end q) (rq_read q) (rq_buffers q);
  Some (buffers ++ popped, set_stream q rd (rq_end q) rest).

(** [BfxListSwap] with the caller's list. *)
Definition RecvQueuePopAllBuffers (q : RecvQueue) (buffers : list RecvBuffer)
    : list RecvBuffer * RecvQueue :=
  (rq_buffers q, set_stream q (rq_read q) (rq_end q) buffers).

Definition RecvQueueAddBuffer (q : RecvQueue) (data len : Z) (mem : list Z) (callback : Z)
    : Z * RecvQueue :=
  if (data =? 0) || (len =? 0) || (callback =? 0) then (BFX_RESULT_INVALID_PARAM, q)
  else if existsb (λ b, rb_addr b =? data) (rq_buffers q) then (BFX_RESULT_ALREADY_EXISTS, q)
  else (BFX_RESULT_SUCCESS,
        set_stream q (rq_read q) (rq_end q) (rq_buffers q ++ [mkBuffer data len mem 0 0 callback])).

(** ** Acknowledgement information *)

Record BdtStreamRange := mkRange { sr_pos : Z; sr_length : Z }.

Definition PACKAGE_SESSIONDATA_SACK_RANGE_MAX_COUNT : nat := 10.

Definition block_range (b : RecvBlock) : BdtStreamRange :=
  mkRange (blk_start b) (u32 (blk_end b - blk_start b)).

(** The loop of [RecvQueueGetAckInfo]: the entries written from [index] on, and
    the final [bAddLatestBlock]. *)
Fixpoint sack_loop (latest : option Z) (count index : nat) (bAddLatestBlock : bool)
    (bs : list RecvBlock) : list BdtStreamRange * bool :=
  match bs with
  | [] => ([], bAddLatestBlock)
  | b :: bs' =>
      if (index <? count)%nat then
        let bAddLatestBlock := bAddLatestBlock || bool_decide (latest = Some (blk_id b)) in
        if (S index =? count - 1)%nat && negb bAddLatestBlock
        then ([block_range b], bAddLatestBlock)
        else let '(rs, a) := sack_loop latest count (S index) bAddLatestBlock bs' in
             (block_range b :: rs, a)
      else ([], bAddLatestBlock)
  end.

(** [ackStreamPos] and the array, [None] for a null pointer; the array has
    [count + 1] entries, those not written being zero. *)
Definition RecvQueueGetAckInfo (q : RecvQueue) : Z * option (list BdtStreamRange) :=
  match rq_blocks q with
  | [] => (rq_ack q, None)
  | bs =>
      let count := Nat.min (length bs) PACKAGE_SESSIONDATA_SACK_RANGE_MAX_COUNT in
      let '(rs, a) := sack_loop (rq_latest q) count 0 (bool_decide (rq_latest q = None)) bs in
      let tail := match rq_latest q with
                  | Some id => if a then [] else
                      block_range <$> filter (λ b, blk_id b = id) bs
                  | None => []
                  end in
      let rs := rs ++ tail in
      (rq_ack q, Some (rs ++ replicate (count + 1 - length rs) (mkRange 0 0)))
  end.

(** ** Facts about blocks *)

(** Stream positions are 48 bits on the wire, far below this bound. *)
Definition pos_bound : Z := 2 ^ 62.

Definition block_ok (b : RecvBlock) : Prop :=
  0 ≤ blk_start b < blk_end b ∧ blk_end b < pos_bound.

Definition in_block (b : RecvBlock) (p : Z) : Prop := blk_start b ≤ p < blk_end b.

(** Two ranges touch when they overlap or are adjacent. *)
Definition touch (b c : RecvBlock) : Prop :=
  blk_start c ≤ blk_end b ∧ blk_start b ≤ blk_end c.

Lemma help_max a b : HelpRecvQueueMax a b = Z.max a b.
Proof. unfold HelpRecvQueueMax. destruct (Z.gtb_spec a b); lia. Qed.
Lemma help_min a b : HelpRecvQueueMin a b = Z.min a b.
Proof. unfold HelpRecvQueueMin. destruct (Z.gtb_spec a b); lia. Qed.

Lemma calc_assert_holds b c :
  block_ok b → block_ok c →
  HelpRecvQueueMax (u64 (blk_end b - blk_start b)) (u64 (blk_end c - blk_start c)) ≤
  u64 (HelpRecvQueueMax (blk_end b) (blk_end c) - HelpRecvQueueMin (blk_start b) (blk_start c)).
Proof.
  unfold block_ok, pos_bound. intros. rewrite !help_max, help_min, !u64_id by lia. lia.
Qed.

(** What [CalcRelaPos] answers, in terms of the two ranges. *)
Lemma calc_spec b c :
  block_ok b → block_ok c →
  match RecvQueueRecvBlockCalcRelaPos b c with
  | RECV_BLOCK_RELATIVE_POS_PREV => blk_end c < blk_start b
  | RECV_BLOCK_RELATIVE_POS_NEXT => blk_end b < blk_start c
  | RECV_BLOCK_RELATIVE_POS_INCLUDE =>
      (blk_start b ≤ blk_start c ∧ blk_end c ≤ blk_end b) ∨
      (blk_start c ≤ blk_start b ∧ blk_end b ≤ blk_end c)
  | RECV_BLOCK_RELATIVE_POS_INTERSECT =>
      touch b c ∧ ¬ (blk_start b ≤ blk_start c ∧ blk_end c ≤ blk_end b) ∧
      ¬ (blk_start c ≤ blk_start b ∧ blk_end b ≤ blk_end c)
  end.
Proof.
  unfold block_ok, pos_bound, touch, RecvQueueRecvBlockCalcRelaPos. intros Hb Hc.
  rewrite !help_max, help_min, !u64_id by lia.
  repeat match goal with
  | |- context [?a <=? ?b] => destruct (Z.leb_spec a b)
  | |- context [?a =? ?b] => destruct (Z.eqb_spec a b)
  | |- context [?a <? ?b] => destruct (Z.ltb_spec a b)
  end; lia.
Qed.

Lemma touching_spec b c :
  block_ok b → block_ok c →
  touching (RecvQueueRecvBlockCalcRelaPos b c) = true ↔ touch b c.
Proof.
  intros Hb Hc. pose proof (calc_spec b c Hb Hc) as H.
  unfold block_ok, touch in *. destruct (RecvQueueRecvBlockCalcRelaPos b c); simpl;
    split; intros; try done; lia.
Qed.

Lemma grow_block_eq b s e :
  grow_block b s e = mkBlock (blk_id b) (Z.min (blk_start b) s) (Z.max (blk_end b) e).
Proof. unfold grow_block. by rewrite help_max, help_min. Qed.

(** [sep lo bs]: the blocks are non-empty, ascending, all beyond [lo], and
    between two of them there is a gap.  [sepr hi rbs] is the same for a list
    kept nearest first below [hi]. *)
Fixpoint sep (lo : Z) (bs : list RecvBlock) : Prop :=
  match bs with
  | [] => True
  | b :: bs => lo < blk_start b ∧ block_ok b ∧ sep (blk_end b) bs
  end.
Fixpoint sepr (hi : Z) (rbs : list RecvBlock) : Prop :=
  match rbs with
  | [] => True
  | b :: rbs => blk_end b < hi ∧ block_ok b ∧ 0 < blk_start b ∧ sepr (blk_start b) rbs
  end.

Definition covers (bs : list RecvBlock) (p : Z) : Prop := ∃ b, b ∈ bs ∧ in_block b p.

Lemma covers_cons b bs p : covers (b :: bs) p ↔ in_block b p ∨ covers bs p.
Proof. unfold covers. set_solver. Qed.
Lemma covers_app bs bs' p : covers (bs ++ bs') p ↔ covers bs p ∨ covers bs' p.
Proof. unfold covers. set_solver. Qed.
Lemma covers_reverse bs p : covers (reverse bs) p ↔ covers bs p.
Proof. unfold covers. by setoid_rewrite elem_of_reverse. Qed.
Lemma covers_nil p : ¬ covers [] p.
Proof. unfold covers. set_solver. Qed.

Lemma sep_weaken lo lo' bs : lo' ≤ lo → sep lo bs → sep lo' bs.
Proof. destruct bs; simpl; [done|]. intros ? (? & ? & ?). split; [lia|done]. Qed.
Lemma sepr_weaken hi hi' bs : hi ≤ hi' → sepr hi bs → sepr hi' bs.
Proof. destruct bs; simpl; [done|]. intros ? (? & ? & ?). split; [lia|done]. Qed.

(** Joining and splitting at a cursor. *)
Lemma sep_join rpre suf hi :
  0 < hi → sepr hi rpre → sep (hi - 1) suf → sep 0 (reverse rpre ++ suf).
Proof.
  revert suf hi. induction rpre as [|b rpre IH]; intros suf hi Hhi Hr Hs.
  - eapply sep_weaken; [|done]. lia.
  - destruct Hr as (H1 & H2 & H3 & H4). rewrite reverse_cons, <- app_assoc.
    apply (IH _ (blk_start b)); [done..|]. simpl. split; [lia|]. split; [done|].
    eapply sep_weaken; [|exact Hs]. lia.
Qed.

Lemma sep_split rpre b suf :
  sep 0 (reverse rpre ++ b :: suf) →
  sepr (blk_start b) rpre ∧ block_ok b ∧ 0 < blk_start b ∧ sep (blk_end b) suf.
Proof.
  revert b suf. induction rpre as [|c rpre IH]; intros b suf H.
  - simpl in H. naive_solver.
  - rewrite reverse_cons, <- app_assoc in H. apply IH in H as (H1 & H2 & H3 & H4 & H5 & H6).
    unfold block_ok in *. repeat split; simpl; try done; lia.
Qed.

Lemma sep_ok lo bs b : sep lo bs → b ∈ bs → lo < blk_start b ∧ block_ok b.
Proof.
  revert lo. induction bs as [|c bs IH]; intros lo Hs Hb; [by apply not_elem_of_nil in Hb|].
  destruct Hs as (H1 & H2 & H3). apply elem_of_cons in Hb as [->|Hb]; [done|].
  destruct (IH _ H3 Hb). unfold block_ok in *. split; [lia|done].
Qed.

(** The blocks a merge swallows are gone from [latest]. *)
Definition latest_in (latest : option Z) (ids : list Z) : Prop :=
  ∀ id, latest = Some id → id ∈ ids.

Lemma forget_latest_in latest b ids :
  latest_in latest (blk_id b :: ids) → latest_in (forget_latest latest b) ids.
Proof.
  unfold forget_latest, latest_in. intros H id. case_decide as E; [done|].
  intros ->. specialize (H id eq_refl). set_solver.
Qed.

Lemma grow_ok b c : block_ok b → block_ok c → block_ok (grow_block b (blk_start c) (blk_end c)).
Proof. unfold block_ok, pos_bound. rewrite grow_block_eq. simpl. lia. Qed.

Lemma grow_covers b c p :
  touch b c → block_ok b → block_ok c →
  in_block (grow_block b (blk_start c) (blk_end c)) p ↔ in_block b p ∨ in_block c p.
Proof. unfold touch, block_ok, in_block. rewrite grow_block_eq. simpl. lia. Qed.

Lemma merge_next_spec latest b suf lo :
  block_ok b → blk_start b ≤ lo → sep lo suf →
  match merge_next latest b suf with
  | (latest', b', suf') =>
      block_ok b' ∧ blk_id b' = blk_id b ∧ blk_start b' = blk_start b ∧
      blk_end b ≤ blk_end b' ∧ sep (blk_end b') suf' ∧ suf' `suffix_of` suf ∧
      (∀ p, covers (b' :: suf') p ↔ covers (b :: suf) p) ∧
      (∀ ids, latest_in latest ((blk_id <$> suf) ++ ids) →
              latest_in latest' ((blk_id <$> suf') ++ ids))
  end.
Proof.
  revert latest b lo. induction suf as [|c suf IH]; intros latest b lo Hb Hlo Hs; simpl.
  { split_and!; try done; lia. }
  destruct Hs as (H1 & H2 & H3).
  destruct (touching _) eqn:E.
  - apply touching_spec in E; [|done..].
    assert (Hst : blk_start (grow_block b (blk_start c) (blk_end c)) = blk_start b)
      by (rewrite grow_block_eq; simpl; lia).
    specialize (IH (forget_latest latest c) (grow_block b (blk_start c) (blk_end c))
      (blk_end c) (grow_ok _ _ Hb H2) ltac:(unfold block_ok in *; lia) H3).
    destruct (merge_next _ _ _) as [[latest' b'] suf'].
    destruct IH as (I1 & I2 & I3 & I4 & I5 & I6 & I7 & I8).
    split; [done|]. split; [by rewrite I2, grow_block_eq|]. split; [lia|].
    split; [rewrite grow_block_eq in I4; simpl in I4; lia|].
    split; [done|]. split; [by apply suffix_cons_r|]. split.
    + intros p. rewrite I7, !covers_cons, grow_covers by done. tauto.
    + intros ids Hl. apply I8. by apply forget_latest_in.
  - assert (¬ touch b c) as Hnt by (rewrite <- touching_spec by done; by rewrite E).
    unfold touch, block_ok in *. simpl. split_and!; try done; lia.
Qed.

Lemma merge_prev_spec latest rpre b hi :
  block_ok b → 0 < blk_start b → blk_start b ≤ hi ≤ blk_end b → sepr hi rpre →
  match merge_prev latest rpre b with
  | (latest', rpre', b') =>
      block_ok b' ∧ 0 < blk_start b' ∧ blk_id b' = blk_id b ∧ blk_end b' = blk_end b ∧
      blk_start b' ≤ blk_start b ∧ sepr (blk_start b') rpre' ∧ rpre' `suffix_of` rpre ∧
      (∀ p, covers (b' :: rpre') p ↔ covers (b :: rpre) p) ∧
      (∀ ids, latest_in latest ((blk_id <$> rpre) ++ ids) →
              latest_in latest' ((blk_id <$> rpre') ++ ids))
  end.
Proof.
  revert latest b hi. induction rpre as [|c rpre IH]; intros latest b hi Hb H0 Hhi Hs; simpl.
  { split_and!; try done; lia. }
  destruct Hs as (H1 & H2 & H3 & H4).
  destruct (touching _) eqn:E.
  - apply touching_spec in E; [|done..].
    assert (blk_end (grow_block b (blk_start c) (blk_end c)) = blk_end b ∧
            0 < blk_start (grow_block b (blk_start c) (blk_end c)) ≤ blk_start c ∧
            blk_start (grow_block b (blk_start c) (blk_end c)) ≤ blk_start b) as (Hen & Hst & Hst').
    { rewrite grow_block_eq; simpl; lia. }
    specialize (IH (forget_latest latest c) (grow_block b (blk_start c) (blk_end c))
      (blk_start c) (grow_ok _ _ Hb H2) ltac:(lia) ltac:(unfold block_ok in *; lia) H4).
    destruct (merge_prev _ _ _) as [[latest' rpre'] b'].
    destruct IH as (I1 & I2 & I3 & I4 & I5 & I6 & I7 & I8 & I9).
    split; [done|]. split; [done|]. split; [by rewrite I3, grow_block_eq|]. split; [lia|].
    split; [lia|]. split; [done|]. split; [by apply suffix_cons_r|]. split.
    + intros p. rewrite I8, !covers_cons, grow_covers by done. tauto.
    + intros ids Hl. apply I9. by apply forget_latest_in.
  - assert (¬ touch b c) as Hnt by (rewrite <- touching_spec by done; by rewrite E).
    unfold touch, block_ok in *. simpl. split_and!; try done; lia.
Qed.

(** ** The block list invariant *)

Record blocks_wf (q : RecvQueue) : Prop := {
  bw_sep : sep 0 (rq_blocks q);
  bw_ids : NoDup ((blk_id <$> (rq_blocks q)));
  bw_fresh : ∀ b, b ∈ rq_blocks q → blk_id b < rq_fresh q;
  bw_latest : latest_in (rq_latest q) ((blk_id <$> (rq_blocks q)));
}.

Lemma ids_perm rpre b suf :
  (blk_id <$> (reverse rpre ++ b :: suf)) ≡ₚ blk_id b :: (blk_id <$> rpre) ++ (blk_id <$> suf).
Proof.
  rewrite fmap_app, fmap_reverse, reverse_Permutation. simpl. by rewrite Permutation_middle.
Qed.

Lemma suffix_elem {A} (l1 l2 : list A) x : l1 `suffix_of` l2 → x ∈ l1 → x ∈ l2.
Proof. intros [k ->]. rewrite elem_of_app. by right. Qed.
Lemma suffix_NoDup {A} (l1 l2 : list A) : l1 `suffix_of` l2 → NoDup l2 → NoDup l1.
Proof. intros [k ->]. rewrite NoDup_app. tauto. Qed.
Lemma suffix_map {A B} (f : A → B) l1 l2 : l1 `suffix_of` l2 → (f <$> l1) `suffix_of` (f <$> l2).
Proof. intros [k ->]. rewrite fmap_app. by exists (f <$> k). Qed.

(** Merging around a cursor block that grew from [b0] to [b] restores the
    invariant and keeps the covered positions. *)
Lemma BlocksMerge_spec q q0 latest rpre b0 b suf :
  rq_blocks q0 = reverse rpre ++ b0 :: suf → rq_fresh q0 = rq_fresh q → blocks_wf q0 →
  block_ok b → 0 < blk_start b ≤ blk_start b0 → blk_end b0 ≤ blk_end b → blk_id b = blk_id b0 →
  latest_in latest ((blk_id <$> (rq_blocks q0))) →
  let q' := RecvQueueBlocksMerge q latest rpre b suf in
  blocks_wf q' ∧ rq_ack q' = rq_ack q ∧
  (∀ p, covers (rq_blocks q') p ↔ in_block b p ∨ covers rpre p ∨ covers suf p).
Proof.
  intros Hbs Hfr [Hsep Hids Hfresh _] Hb Hst Hen Hid Hlat. simpl. unfold RecvQueueBlocksMerge.
  rewrite Hbs in *. apply sep_split in Hsep as (Hr & Hb0 & H00 & Hs).
  rewrite ids_perm in Hids. apply NoDup_cons in Hids as [Hni Hids].
  apply NoDup_app in Hids as (Hd1 & Hd & Hd2).
  assert (Hs' : sep (blk_start b0) suf).
  { eapply sep_weaken; [|exact Hs]. unfold block_ok in Hb0. lia. }
  pose proof (merge_next_spec latest b suf (blk_start b0) Hb ltac:(lia) Hs') as M1.
  destruct (merge_next latest b suf) as [[lat1 b1] suf1].
  destruct M1 as (A1 & A2 & A3 & A4 & A5 & A6 & A7 & A8).
  unfold block_ok in Hb0.
  pose proof (merge_prev_spec lat1 rpre b1 (blk_start b0) A1 ltac:(lia) ltac:(lia) Hr) as M2.
  destruct (merge_prev lat1 rpre b1) as [[lat2 rpre2] b2].
  destruct M2 as (B1 & B2 & B3 & B4 & B5 & B6 & B7 & B8 & B9). simpl.
  split; [split; simpl|split; [done|]].
  - apply (sep_join _ _ (blk_start b2)); [done..|]. simpl.
    split; [lia|]. split; [done|]. by rewrite B4.
  - rewrite ids_perm. rewrite B3, A2, Hid. apply NoDup_cons. split.
    + intros [?|?]%elem_of_app; apply Hni, elem_of_app; [left|right];
        (eapply suffix_elem; [|done]; by apply suffix_map).
    + apply NoDup_app. split_and!.
      * eapply suffix_NoDup; [by apply suffix_map|done].
      * intros i Hi Hi'. apply (Hd i).
        -- by eapply suffix_elem; [apply suffix_map, B7|].
        -- by eapply suffix_elem; [apply suffix_map, A6|].
      * eapply suffix_NoDup; [by apply suffix_map|done].
  - intros c Hc. rewrite elem_of_app, elem_of_reverse, elem_of_cons in Hc.
    rewrite <- Hfr. destruct Hc as [Hc|[->|Hc]].
    + apply Hfresh. rewrite elem_of_app, elem_of_reverse. left. by eapply suffix_elem.
    + rewrite B3, A2, Hid. apply Hfresh. rewrite elem_of_app. right. by left.
    + apply Hfresh. rewrite elem_of_app. do 2 right. by eapply suffix_elem.
  - intros i Hi. rewrite ids_perm.
    specialize (A8 (blk_id b0 :: (blk_id <$> rpre))). specialize (B9 (blk_id b0 :: (blk_id <$> suf1))).
    assert (i ∈ (blk_id <$> rpre2) ++ blk_id b0 :: (blk_id <$> suf1)) as Hin.
    { apply B9; [|done]. intros j Hj.
      assert (j ∈ (blk_id <$> suf1) ++ blk_id b0 :: (blk_id <$> rpre)) as Hj'.
      { apply A8; [|done]. intros k Hk%Hlat. revert Hk. rewrite ids_perm.
        rewrite !elem_of_cons, !elem_of_app, !elem_of_cons. tauto. }
      revert Hj'. rewrite !elem_of_app, !elem_of_cons. tauto. }
    revert Hin. rewrite B3, A2, Hid, elem_of_cons, !elem_of_app, elem_of_cons. tauto.
  - intros p. rewrite covers_app, covers_reverse, covers_cons.
    specialize (A7 p). specialize (B8 p). rewrite !covers_cons in *.
    clear -A7 B8. tauto.
Qed.

Lemma add_new_wf q rpre suf s e :
  blocks_wf q → rq_blocks q = reverse rpre ++ suf → block_ok (mkBlock (rq_fresh q) s e) → 0 < s →
  sepr s rpre → sep e suf →
  let new := mkBlock (rq_fresh q) s e in
  blocks_wf (set_blocks q (rq_ack q) (Some (blk_id new)) (reverse rpre ++ new :: suf)
               (rq_fresh q + 1)) ∧
  (∀ p, covers (reverse rpre ++ new :: suf) p ↔ covers (rq_blocks q) p ∨ s ≤ p < e).
Proof.
  intros [Hsep Hids Hfresh _] Hbs Hok H0 Hr Hs. simpl. rewrite Hbs in *. split; [split; simpl|].
  - apply (sep_join _ _ s); [done..|]. simpl. split; [lia|]. done.
  - rewrite ids_perm. apply NoDup_cons. split.
    + simpl. rewrite <- fmap_app. intros (c & Hc & Hin)%list_elem_of_fmap.
      specialize (Hfresh c). rewrite elem_of_app, elem_of_reverse in Hfresh.
      rewrite elem_of_app in Hin. specialize (Hfresh Hin). lia.
    + revert Hids. rewrite fmap_app, fmap_reverse, reverse_Permutation. done.
  - intros c. rewrite elem_of_app, elem_of_cons. intros Hc.
    destruct Hc as [Hc|[->|Hc]]; [..|simpl; lia|];
      (enough (blk_id c < rq_fresh q) by lia; apply Hfresh; rewrite elem_of_app; tauto).
  - intros i [= <-]. rewrite ids_perm. by left.
  - intros p. rewrite !covers_app, covers_cons. unfold in_block; simpl. tauto.
Qed.

Lemma sepr_not_covers hi rpre p : sepr hi rpre → hi - 1 ≤ p → ¬ covers rpre p.
Proof.
  revert hi. induction rpre as [|c rpre IH]; intros hi Hr Hp; [apply covers_nil|].
  destruct Hr as (H1 & H2 & H3 & H4). rewrite covers_cons. unfold block_ok, in_block in *.
  intros [?|?]; [lia|]. by eapply (IH (blk_start c)); [done|lia|].
Qed.
Lemma sep_not_covers lo suf p : sep lo suf → p ≤ lo → ¬ covers suf p.
Proof.
  revert lo. induction suf as [|c suf IH]; intros lo Hs Hp; [apply covers_nil|].
  destruct Hs as (H1 & H2 & H3). rewrite covers_cons. unfold block_ok, in_block in *.
  intros [?|?]; [lia|]. by eapply (IH (blk_end c)); [done|lia|].
Qed.

(** What [RecvQueueAddToBlocks] does to the block list. *)
Definition add_result (q : RecvQueue) (s e : Z) (r : bool * RecvQueue) : Prop :=
  let '(old, q') := r in
  blocks_wf q' ∧ rq_ack q' = rq_ack q ∧
  (rq_read q', rq_end q', rq_buffers q') = (rq_read q, rq_end q, rq_buffers q) ∧
  (∀ p, covers (rq_blocks q') p ↔ covers (rq_blocks q) p ∨ s ≤ p < e) ∧
  if old then q' = q else ∃ p, s ≤ p < e ∧ ¬ covers (rq_blocks q) p.

Lemma merge_stream q latest rpre b suf :
  let q' := RecvQueueBlocksMerge q latest rpre b suf in
  (rq_read q', rq_end q', rq_buffers q') = (rq_read q, rq_end q, rq_buffers q).
Proof.
  unfold RecvQueueBlocksMerge. simpl. destruct (merge_next _ _ _) as [[? ?] ?].
  by destruct (merge_prev _ _ _) as [[? ?] ?].
Qed.

(** A block that the new range touches without lying in it. *)
Lemma add_touching q s e rpre b suf latest :
  blocks_wf q → rq_blocks q = reverse rpre ++ b :: suf →
  0 < s < e → e < pos_bound → touch b (mkBlock 0 s e) → s < blk_start b ∨ blk_end b < e →
  latest_in latest (blk_id <$> (rq_blocks q)) →
  add_result q s e (false, RecvQueueBlocksMerge q latest rpre (grow_block b s e) suf).
Proof.
  intros Hwf Hbs Hse He Ht Hout Hlat.
  pose proof (bw_sep _ Hwf) as Hsep. rewrite Hbs in Hsep.
  apply sep_split in Hsep as (Hr & Hb & H0 & Hs).
  unfold touch in Ht. simpl in Ht.
  assert (Hg : block_ok (grow_block b s e)).
  { apply (grow_ok b (mkBlock 0 s e)); [done|]. unfold block_ok, pos_bound in *; simpl; lia. }
  unfold block_ok in Hb.
  destruct (BlocksMerge_spec q q latest rpre b (grow_block b s e) suf) as (H1 & H2 & H3);
    try done; try (rewrite grow_block_eq; simpl; lia).
  split; [done|]. split; [done|]. split; [apply merge_stream|]. split.
  - intros p. rewrite H3, Hbs, covers_app, covers_reverse, covers_cons.
    pose proof (grow_covers b (mkBlock 0 s e) p Ht) as Hgc. simpl in Hgc. rewrite Hgc.
    + unfold in_block. simpl. tauto.
    + done.
    + unfold block_ok, pos_bound in *; simpl; lia.
  - destruct Hout.
    + exists (blk_start b - 1). split; [lia|].
      rewrite Hbs, covers_app, covers_reverse, covers_cons. intros [?|[?|?]].
      * eapply sepr_not_covers; [exact Hr| |done]. lia.
      * unfold in_block in *. lia.
      * eapply sep_not_covers; [exact Hs| |done]. lia.
    + exists (blk_end b). split; [lia|].
      rewrite Hbs, covers_app, covers_reverse, covers_cons. intros [?|[?|?]].
      * eapply sepr_not_covers; [exact Hr| |done]. lia.
      * unfold in_block in *. lia.
      * eapply sep_not_covers; [exact Hs| |done]. lia.
Qed.

(** A range in a gap of the list becomes a block of its own. *)
Lemma add_in_gap q s e rpre suf :
  blocks_wf q → rq_blocks q = reverse rpre ++ suf → 0 < s < e → e < pos_bound →
  sepr s rpre → sep e suf →
  add_result q s e
    (false, set_blocks q (rq_ack q) (Some (rq_fresh q))
              (reverse rpre ++ mkBlock (rq_fresh q) s e :: suf) (rq_fresh q + 1)).
Proof.
  intros Hwf Hbs Hse He Hr Hs.
  destruct (add_new_wf q rpre suf s e) as [H1 H2]; try done.
  { unfold block_ok, pos_bound in *; simpl; lia. } { lia. }
  split; [done|]. split; [done|]. split; [done|]. split; [done|].
  exists s. split; [lia|]. rewrite Hbs, covers_app, covers_reverse. intros [?|?].
  - eapply sepr_not_covers; [exact Hr| |done]. lia.
  - eapply sep_not_covers; [exact Hs| |done]. lia.
Qed.

Lemma add_loop_spec q s e (prev : bool) rpre suf :
  blocks_wf q → rq_blocks q = reverse rpre ++ suf → 0 < s < e → e < pos_bound →
  (if prev then sepr s rpre else rpre = [] ∨ ∃ b suf', suf = b :: suf' ∧ blk_start b ≤ e) →
  add_result q s e (add_loop q s e prev rpre suf).
Proof.
  revert prev rpre. induction suf as [|b suf IH]; intros prev rpre Hwf Hbs Hse He Hprev; simpl.
  { apply add_in_gap; try done. destruct prev; [done|]. by destruct Hprev as [->|(? & ? & ? & _)]. }
  pose proof (bw_sep _ Hwf) as Hsep. rewrite Hbs in Hsep.
  apply sep_split in Hsep as (Hr & Hb & H0 & Hs).
  assert (Hok : block_ok (mkBlock 0 s e)) by (unfold block_ok, pos_bound in *; simpl; lia).
  pose proof (calc_spec b (mkBlock 0 s e) Hb Hok) as Hcalc.
  destruct (RecvQueueRecvBlockCalcRelaPos b (mkBlock 0 s e)); simpl in Hcalc.
  - (* PREV *)
    assert (Hrp : (if prev then True else rpre = []) ∧ sepr s rpre).
    { destruct prev; [done|]. destruct Hprev as [->|(? & ? & [= -> ->] & ?)]; [done|lia]. }
    destruct Hrp as [Hp Hrs]. unfold RecvQueueRecvBlockNew.
    assert (E : (if prev then reverse rpre ++ mkBlock (rq_fresh q) s e :: b :: suf
                 else mkBlock (rq_fresh q) s e :: reverse rpre ++ b :: suf) =
                reverse rpre ++ mkBlock (rq_fresh q) s e :: b :: suf)
      by (destruct prev; [done|by subst rpre]).
    rewrite E. apply add_in_gap; try done.
  - (* INTERSECT *)
    destruct Hcalc as (Ht & Hn1 & Hn2). apply add_touching; try done.
    + simpl in *. lia.
    + apply (bw_latest _ Hwf).
  - (* INCLUDE *)
    destruct (andb _ _) eqn:E.
    + apply andb_true_iff in E as [?%Z.leb_le ?%Z.leb_le].
      split; [done|]. split; [done|]. split; [done|]. split; [|done].
      intros p. split; [tauto|]. intros [?|?]; [done|]. exists b. split.
      * rewrite Hbs, elem_of_app. right. by left.
      * unfold in_block. lia.
    + apply andb_false_iff in E. rewrite !Z.leb_gt in E. unfold block_ok in *.
      apply add_touching; try done.
      * unfold touch. simpl. lia.
      * intros i [= <-]. rewrite Hbs, ids_perm. by left.
  - (* NEXT *)
    apply IH; try done. by rewrite reverse_cons, <- app_assoc.
Qed.

Lemma cursor_at_spec id rpre bs r b suf :
  cursor_at id rpre bs = Some (r, b, suf) → reverse rpre ++ bs = reverse r ++ b :: suf.
Proof.
  revert rpre. induction bs as [|c bs IH]; intros rpre H; simpl in H; [done|].
  case_decide; [by simplify_eq|]. apply IH in H. by rewrite reverse_cons, <- app_assoc in H.
Qed.

Lemma AddToBlocks_spec q s e :
  blocks_wf q → 0 < s < e → e < pos_bound → add_result q s e (RecvQueueAddToBlocks q s e).
Proof.
  intros Hwf Hse He. unfold RecvQueueAddToBlocks.
  destruct (rq_latest q ≫= _) as [[[r b] suf]|] eqn:E.
  2:{ apply add_loop_spec; try done. by left. }
  apply bind_Some in E as (id & _ & Hc%cursor_at_spec).
  destruct (Z.ltb_spec e (blk_start b)).
  - apply add_loop_spec; try done. by left.
  - apply add_loop_spec; try done. right. eauto.
Qed.

(** ** The acknowledged position and the received set *)

(** The positions the queue reports as received, by its acknowledged position
    or as a block. *)
Definition received (q : RecvQueue) (p : Z) : Prop := p < rq_ack q ∨ covers (rq_blocks q) p.

Lemma delete_head_block q b bs :
  NoDup (blk_id <$> (b :: bs)) → rq_blocks q = b :: bs →
  rq_blocks (RecvQueueDeleteBlock q b) = bs.
Proof.
  intros Hnd Hbs. simpl. rewrite Hbs, filter_cons_False by naive_solver.
  apply filter_all. intros c Hc E. apply NoDup_cons in Hnd as [Hni _].
  apply Hni. rewrite <- E. by apply list_elem_of_fmap_2.
Qed.

Lemma delete_head_wf q b bs :
  blocks_wf q → rq_blocks q = b :: bs → blocks_wf (RecvQueueDeleteBlock q b).
Proof.
  intros [Hsep Hids Hfresh Hlat] Hbs. rewrite Hbs in Hids.
  pose proof (delete_head_block q b bs Hids Hbs) as E. rewrite Hbs in *.
  split; rewrite ?E.
  - destruct Hsep as (? & ? & ?). eapply sep_weaken; [|done]. unfold block_ok in *. lia.
  - by apply NoDup_cons in Hids as [_ ?].
  - intros c Hc. apply Hfresh. by right.
  - by apply forget_latest_in.
Qed.

Lemma UpdateStreamPos_spec q s e :
  blocks_wf q → 0 ≤ rq_ack q → 0 ≤ s < e → e < pos_bound →
  let '(t, q') := RecvQueueUpdateStreamPos q s e in
  blocks_wf q' ∧ rq_ack q ≤ rq_ack q' ∧
  (rq_read q', rq_end q', rq_buffers q') = (rq_read q, rq_end q, rq_buffers q) ∧
  (∀ p, received q' p ↔ received q p ∨ s ≤ p < e) ∧
  match t with
  | RECV_PACKAGE_TYPE_OLD => q' = q
  | RECV_PACKAGE_TYPE_IN_ORDER => s ≤ rq_ack q ∧ e ≤ rq_ack q'
  | RECV_PACKAGE_TYPE_LOST_ORDER => rq_ack q < s ∧ rq_ack q' = rq_ack q ∧
                                    ∃ p, s ≤ p < e ∧ ¬ covers (rq_blocks q) p
  | _ => False
  end.
Proof.
  intros Hwf Hack Hse He. unfold RecvQueueUpdateStreamPos, received.
  destruct (Z.leb_spec e (rq_ack q)) as [Hold|Hnew].
  { split_and!; try done. intros p. split; [tauto|]. intros [?|?]; [done|]. left. lia. }
  destruct (Z.leb_spec s (rq_ack q)) as [Hin|Hout].
  - (* in order *)
    set (q1 := set_blocks q e (rq_latest q) (rq_blocks q) (rq_fresh q)).
    assert (Hwf1 : blocks_wf q1) by (destruct Hwf; by split).
    destruct (rq_blocks q1) as [|b bs] eqn:Eb; simpl in Eb.
    { split_and!; try done; simpl; rewrite ?Eb; [lia|]. intros p.
      assert (p < e ↔ p < rq_ack q ∨ s ≤ p < e) by lia. tauto. }
    pose proof (bw_sep _ Hwf) as Hs. rewrite Eb in Hs. destruct Hs as (Hs1 & Hb & Hs2).
    assert (Hok : block_ok (mkBlock 0 s e)) by (unfold block_ok, pos_bound in *; simpl; lia).
    destruct (touching _) eqn:Et.
    + apply touching_spec in Et; [|done..]. unfold touch in Et. simpl in Et.
      set (q2 := set_blocks q1 _ _ _ _).
      assert (Hwf2 : blocks_wf q2).
      { assert (E2 : rq_blocks q2 = rq_blocks q) by (by rewrite Eb).
        destruct Hwf; split; rewrite ?E2; done. }
      assert (E2 : rq_blocks q2 = b :: bs) by done.
      pose proof (delete_head_wf _ _ _ Hwf2 E2) as Hwf3.
      pose proof (delete_head_block q2 b bs) as E3. rewrite <- E2 in E3.
      specialize (E3 (bw_ids _ Hwf2) eq_refl).
      split; [done|]. rewrite E3. simpl. rewrite help_max.
      split_and!; try done; try lia.
      intros p. rewrite Eb, covers_cons. unfold in_block, block_ok in *.
      assert (p < e `max` blk_end b ↔ p < rq_ack q ∨ blk_start b ≤ p < blk_end b ∨ s ≤ p < e) by lia. tauto.
    + split_and!; try done; simpl; try lia. intros p. rewrite Eb.
      assert (p < e ↔ p < rq_ack q ∨ s ≤ p < e) by lia. tauto.
  - (* out of order *)
    pose proof (AddToBlocks_spec q s e Hwf ltac:(lia) He) as Ha.
    destruct (RecvQueueAddToBlocks q s e) as [old q'].
    destruct Ha as (H1 & H2 & H3 & H4 & H5). split; [done|]. split; [lia|]. split; [done|].
    split.
    + intros p. rewrite H4, H2. tauto.
    + destruct old; [done|]. done.
Qed.

(** ** The selective acknowledgement *)

Lemma sack_loop_seen latest count index bs :
  sack_loop latest count index true bs = (block_range <$> take (count - index) bs, true).
Proof.
  revert index. induction bs as [|b bs IH]; intros index; simpl; [by rewrite take_nil|].
  destruct (Nat.ltb_spec index count) as [H|H].
  - rewrite andb_false_r, IH. replace (count - index)%nat with (S (count - S index)) by lia. done.
  - by replace (count - index)%nat with 0%nat by lia.
Qed.

Lemma sack_loop_unseen id count index bs :
  (S index < count)%nat → (count - index ≤ length bs)%nat →
  sack_loop (Some id) count index false bs =
  if bool_decide (id ∈ blk_id <$> take (count - 1 - index) bs)
  then (block_range <$> take (count - index) bs, true)
  else (block_range <$> take (count - 1 - index) bs, false).
Proof.
  revert index. induction bs as [|b bs IH]; intros index Hi Hl; simpl in Hl; [lia|].
  cbn [sack_loop]. rewrite (proj2 (Nat.ltb_lt index count)) by lia. cbn [orb].
  replace (count - index)%nat with (S (count - S index)) by lia.
  replace (count - 1 - index)%nat with (S (count - 1 - S index)) by lia.
  cbn [take]. rewrite !fmap_cons.
  destruct (decide (id = blk_id b)) as [->|Hne].
  - rewrite !bool_decide_eq_true_2 by (done || by left). rewrite andb_false_r, sack_loop_seen. done.
  - rewrite (bool_decide_eq_false_2 (Some id = _)) by congruence. cbn [negb].
    rewrite andb_true_r. destruct (Nat.eqb_spec (S index) (count - 1)) as [E|E].
    + replace (count - 1 - S index)%nat with 0%nat by lia. cbn [take].
      rewrite bool_decide_eq_false_2; [done|]. rewrite elem_of_cons. intros [?|H]; [done|].
      by apply elem_of_nil in H.
    + rewrite IH by lia.
      rewrite (bool_decide_ext (id ∈ blk_id b :: _) (id ∈ blk_id <$> take (count - 1 - S index) bs))
        by (rewrite elem_of_cons; naive_solver).
      by case_bool_decide.
Qed.

Lemma filter_id bs b :
  NoDup (blk_id <$> bs) → b ∈ bs → filter (λ c, blk_id c = blk_id b) bs = [b].
Proof.
  induction bs as [|c bs IH]; [by intros _ ?%elem_of_nil|]. rewrite fmap_cons.
  intros [Hni Hnd]%NoDup_cons [->|Hb]%elem_of_cons.
  - rewrite filter_cons_True by done. f_equal. apply filter_none. intros d Hd E.
    apply Hni. rewrite <- E. by apply list_elem_of_fmap_2.
  - rewrite filter_cons_False; [by apply IH|]. intros E. apply Hni. rewrite E.
    by apply list_elem_of_fmap_2.
Qed.

(** The blocks the acknowledgement reports: the first ten, the last of them
    giving way to [latest] when it is not among the others. *)
Definition reported (q : RecvQueue) (bs : list RecvBlock) : Prop :=
  bs ⊆+ rq_blocks q ∧
  length bs = Nat.min (length (rq_blocks q)) PACKAGE_SESSIONDATA_SACK_RANGE_MAX_COUNT ∧
  ∀ id, rq_latest q = Some id → id ∈ blk_id <$> bs.

Lemma GetAckInfo_reported q :
  blocks_wf q → rq_blocks q ≠ [] →
  ∃ bs, RecvQueueGetAckInfo q = (rq_ack q, Some ((block_range <$> bs) ++ [mkRange 0 0])) ∧
        reported q bs.
Proof.
  intros [_ Hids _ Hlat] Hne. unfold RecvQueueGetAckInfo, reported.
  destruct (rq_blocks q) as [|b0 bs0] eqn:Ebs; [done|]. rewrite <- Ebs in *.
  set (bs := rq_blocks q) in *. set (count := Nat.min _ _).
  assert (Hc : (0 < count ≤ length bs)%nat ∧ (count = 1%nat → length bs = 1%nat)).
  { unfold count, PACKAGE_SESSIONDATA_SACK_RANGE_MAX_COUNT. rewrite Ebs. simpl length. lia. }
  clearbody count bs. destruct Hc as [Hc Hc1].
  assert (Hpad : ∀ l : list RecvBlock, length l = count →
    (block_range <$> l) ++ replicate (count + 1 - length (block_range <$> l)) (mkRange 0 0) =
    (block_range <$> l) ++ [mkRange 0 0]).
  { intros l Hl. rewrite length_fmap, Hl. by replace (count + 1 - count)%nat with 1%nat by lia. }
  destruct (rq_latest q) as [id|] eqn:El.
  2:{ rewrite bool_decide_eq_true_2, sack_loop_seen, Nat.sub_0_r, app_nil_r by done.
      exists (take count bs). rewrite Hpad by (rewrite length_take; lia).
      split_and!; try done; [by apply submseteq_take|rewrite length_take; lia]. }
  rewrite bool_decide_eq_false_2 by done. specialize (Hlat id eq_refl).
  destruct (decide (count = 1%nat)) as [->|H1].
  { specialize (Hc1 eq_refl). subst bs. destruct bs0; [|done].
    apply list_elem_of_singleton in Hlat as ->. simpl. rewrite bool_decide_eq_true_2 by done.
    exists [b0]. split_and!; try done. intros ? [= <-]. by left. }
  rewrite sack_loop_unseen by lia. case_bool_decide as Hin.
  - rewrite Nat.sub_0_r, app_nil_r. exists (take count bs).
    rewrite Hpad by (rewrite length_take; lia).
    split_and!; try done; [by apply submseteq_take|rewrite length_take; lia|].
    intros ? [= <-]. rewrite fmap_take in *. eapply elem_of_take in Hin as (i & ? & ?).
    apply elem_of_take. exists i. split; [done|lia].
  - apply list_elem_of_fmap in Hlat as (b & -> & Hb). rewrite filter_id by done.
    rewrite <- fmap_app, Nat.sub_0_r.
    exists (take (count - 1) bs ++ [b]).
    assert (Hlen : length (take (count - 1) bs ++ [b]) = count)
      by (rewrite length_app, length_take; simpl; lia).
    rewrite Hpad by done. split_and!; try done.
    + rewrite <- (take_drop (count - 1) bs) at 2. apply submseteq_app; [done|].
      apply singleton_submseteq_l. rewrite <- (take_drop (count - 1) bs) in Hb.
      apply elem_of_app in Hb as [Hb|Hb]; [|done]. exfalso. apply Hin. rewrite Nat.sub_0_r.
      by apply list_elem_of_fmap_2.
    + intros ? [= <-]. rewrite fmap_app, elem_of_app. right. by left.
Qed.

(** Nothing that was not received is acknowledged. *)
Lemma block_range_received q b p :
  blocks_wf q → b ∈ rq_blocks q →
  sr_pos (block_range b) ≤ p < sr_pos (block_range b) + sr_length (block_range b) → received q p.
Proof.
  intros Hwf Hb Hp. right. exists b. split; [done|]. unfold in_block. simpl in *.
  destruct (sep_ok _ _ _ (bw_sep _ Hwf) Hb) as [_ [? ?]].
  assert (u32 (blk_end b - blk_start b) ≤ blk_end b - blk_start b) by (apply Z.mod_le; lia). lia.
Qed.
