(* ===== verification/RecvStream.v ===== *)
(** * Delivery of the received stream

    The correctness of the buffer half of [RecvQueue]: what
    [RecvQueueSavePayload] copies, what [RecvQueuePopCompleteBuffers] hands to
    the application, and, for any interleaving of the two critical sections of
    [RecvQueueWriteData] with pops and new buffers, that the application reads
    exactly the bytes of the sender's stream in order. *)

From S2P Require Import Prelude CInt RecvQueue.

(** ** Layout of the buffers *)

(** The position after the last byte the buffers can hold, the first one
    starting at [g]. *)
Fixpoint end_pos (g : Z) (bufs : list RecvBuffer) : Z :=
  match bufs with [] => g | b :: bs => end_pos (g + rb_len b) bs end.

(** The byte held for position [p], [None] beyond what was written. *)
Fixpoint stream_byte (g : Z) (bufs : list RecvBuffer) (p : Z) : option Z :=
  match bufs with
  | [] => None
  | b :: bs =>
      if p <? g + rb_len b then
        if p <? rb_end b then rb_bytes b !! Z.to_nat (p - g) else None
      else stream_byte (g + rb_len b) bs p
  end.

Definition buf_ok (g qend : Z) (b : RecvBuffer) : Prop :=
  0 < rb_len b ∧ Z.of_nat (length (rb_bytes b)) = rb_len b ∧
  (rb_end b = 0 ∨ g < rb_end b ≤ g + rb_len b) ∧ rb_end b ≤ qend.

Fixpoint bufs_ok (g qend : Z) (bufs : list RecvBuffer) : Prop :=
  match bufs with
  | [] => True
  | b :: bs => buf_ok g qend b ∧ bufs_ok (g + rb_len b) qend bs
  end.

Lemma bufs_ok_weaken g qend qend' bufs :
  qend ≤ qend' → bufs_ok g qend bufs → bufs_ok g qend' bufs.
Proof.
  revert g. induction bufs as [|b bs IH]; intros g Hq; simpl; [done|].
  unfold buf_ok. intros [? ?]. split; [lia|]. by apply IH.
Qed.

Lemma end_pos_ge g qend bufs : bufs_ok g qend bufs → g ≤ end_pos g bufs.
Proof.
  revert g. induction bufs as [|b bs IH]; intros g; simpl; [lia|].
  intros [[? _] Hok%IH]. lia.
Qed.

Lemma end_pos_app g pre suf : end_pos g (pre ++ suf) = end_pos (end_pos g pre) suf.
Proof. revert g. induction pre as [|b bs IH]; intros g; simpl; [done|]. apply IH. Qed.

Lemma bufs_ok_app g qend pre suf :
  bufs_ok g qend (pre ++ suf) ↔ bufs_ok g qend pre ∧ bufs_ok (end_pos g pre) qend suf.
Proof. revert g. induction pre as [|b bs IH]; intros g; simpl; [tauto|]. rewrite IH. tauto. Qed.

Lemma stream_byte_app g qend pre suf p :
  g ≤ p → bufs_ok g qend pre →
  stream_byte g (pre ++ suf) p =
  if p <? end_pos g pre then stream_byte g pre p else stream_byte (end_pos g pre) suf p.
Proof.
  revert g. induction pre as [|b bs IH]; intros g Hp Hok; simpl.
  - destruct (Z.ltb_spec p g); [lia|done].
  - destruct Hok as [Hb Hok]. pose proof (end_pos_ge _ _ _ Hok).
    destruct (Z.ltb_spec p (g + rb_len b)).
    + destruct (Z.ltb_spec p (end_pos (g + rb_len b) bs)); [done|lia].
    + apply IH; [lia|done].
Qed.

Lemma find_buffer_spec sp g qend rpre bufs :
  g ≤ sp → bufs_ok g qend bufs →
  match find_buffer sp g rpre bufs with
  | Some (g', r, suf) => ∃ pre b suf', suf = b :: suf' ∧ reverse r = reverse rpre ++ pre ∧
      bufs = pre ++ b :: suf' ∧ g' = end_pos g pre ∧ g' ≤ sp < g' + rb_len b
  | None => end_pos g bufs ≤ sp
  end.
Proof.
  revert g rpre. induction bufs as [|b bs IH]; intros g rpre Hg Hok; simpl; [done|].
  destruct Hok as [Hb Hok]. destruct (Z.leb_spec g sp); [|lia]. simpl.
  destruct (Z.ltb_spec sp (g + rb_len b)).
  - exists [], b, bs. rewrite app_nil_r. split_and!; try done; simpl; lia.
  - specialize (IH (g + rb_len b) (b :: rpre) ltac:(lia) Hok).
    destruct (find_buffer _ _ _ _) as [[[g' r] suf]|]; [|done].
    destruct IH as (pre & c & suf' & -> & Hr & -> & -> & Hsp).
    exists (b :: pre), c, suf'. rewrite Hr, reverse_cons, <- app_assoc. done.
Qed.

(** ** The copy loop *)

(** A buffer alone: the byte it holds for [p]. *)
Definition buf_byte (g : Z) (b : RecvBuffer) (p : Z) : option Z :=
  if p <? rb_end b then rb_bytes b !! Z.to_nat (p - g) else None.

(** [f'] is [f] with [data] written at [sp, sp + n). *)
Definition overlays (g sp n : Z) (data : list Z) (f f' : Z → option Z) : Prop :=
  ∀ p, g ≤ p →
    if bool_decide (sp ≤ p < sp + n) then f' p = data !! Z.to_nat (p - sp)
    else ∀ v, f p = Some v → f' p = Some v.

(** One round of the loop: no assertion fails, the bytes land at their
    positions and the others stay. *)
Lemma save_chunk_spec sp g qend data b :
  0 ≤ g ≤ sp → sp < g + rb_len b → buf_ok g qend b → data ≠ [] →
  ∃ n qend' b', save_chunk sp g qend data b = Some (n, qend', b') ∧
  0 < n ≤ Z.of_nat (length data) ∧
  (n = Z.of_nat (length data) ∧ sp + n ≤ g + rb_len b ∨ sp + n = g + rb_len b) ∧
  buf_ok g qend' b' ∧ qend ≤ qend' ∧ rb_addr b' = rb_addr b ∧ rb_len b' = rb_len b ∧
  overlays g sp n data (buf_byte g b) (buf_byte g b').
Proof.
  intros Hsp Hlt (Hl & Hlen & Hend & Hq) Hd.
  assert (0 < Z.of_nat (length data)) by (destruct data; simpl; [done|lia]).
  unfold save_chunk. set (n := if _ >? _ then _ else _).
  assert (n = Z.min (Z.of_nat (length data)) (rb_len b - (sp - g))) as Hn
    by (unfold n; destruct (Z.gtb_spec (Z.of_nat (length data)) (rb_len b - (sp - g))); lia).
  clearbody n. set (en := if _ <? sp + n then _ else _).
  assert (Hen : en = Z.max (rb_end b) (sp + n)) by (unfold en; destruct (Z.ltb_spec (rb_end b) (sp + n)); lia).
  clearbody en. set (qe := if _ <? en then _ else _).
  assert (Hqe : qe = Z.max qend en) by (unfold qe; destruct (Z.ltb_spec qend en); lia).
  clearbody qe. rewrite (proj2 (Z.leb_le en (g + rb_len b))) by lia. cbn [negb].
  replace (_ || _) with true by lia.
  eexists n, qe, _. split; [reflexivity|]. split_and!; try done; try lia.
  - unfold buf_ok. simpl. rewrite length_inserts. lia.
  - intros p Hp. unfold buf_byte. simpl.
    assert (Ht : Z.of_nat (length (take (Z.to_nat n) data)) = n) by (rewrite length_take; lia).
    case_bool_decide.
    + destruct (Z.ltb_spec p en); [|lia]. rewrite list_lookup_inserts by lia.
      rewrite lookup_take_lt by lia. f_equal. lia.
    + intros v. destruct (Z.ltb_spec p (rb_end b)); [|done]. destruct (Z.ltb_spec p en); [|lia].
      intros <-. destruct (decide (p < sp)).
      * apply list_lookup_inserts_lt. lia.
      * apply list_lookup_inserts_ge. lia.
Qed.

(** What the copy loop does from the buffer at [g] on. *)
Record save_post (sp g qend : Z) (data : list Z) (bufs : list RecvBuffer)
    (n qend' : Z) (bufs' : list RecvBuffer) : Prop := {
  sv_len : 0 ≤ n ≤ Z.of_nat (length data);
  sv_all : n = Z.of_nat (length data) ∨ sp + n = end_pos g bufs;
  sv_ok : bufs_ok g qend' bufs';
  sv_qend : qend ≤ qend';
  sv_addr : (rb_addr <$> bufs') = (rb_addr <$> bufs);
  sv_end : end_pos g bufs' = end_pos g bufs;
  sv_bytes : overlays g sp n data (stream_byte g bufs) (stream_byte g bufs')
}.

Lemma range_nothing (P : Z → Prop) sp p : P p ↔ P p ∨ sp ≤ p < sp + 0.
Proof. split; [by left|]. intros [?|?]; [done|lia]. Qed.

Lemma overlays_nothing g sp data f : overlays g sp 0 data f f.
Proof. intros p Hp. rewrite bool_decide_eq_false_2; [done|lia]. Qed.

Lemma save_post_nothing sp g qend bufs :
  bufs_ok g qend bufs → save_post sp g qend [] bufs 0 qend bufs.
Proof. intros Hok. split; try done; [by left|apply overlays_nothing]. Qed.

Lemma save_post_cons sp g qend data b bs n qe b' m qe' bs' :
  0 ≤ g ≤ sp → sp < g + rb_len b → 0 < n ≤ Z.of_nat (length data) →
  sp + n ≤ g + rb_len b → (sp + n = g + rb_len b ∨ m = 0) →
  buf_ok g qe b' → qend ≤ qe → rb_addr b' = rb_addr b → rb_len b' = rb_len b →
  overlays g sp n data (buf_byte g b) (buf_byte g b') →
  save_post (sp + n) (g + rb_len b) qe (drop (Z.to_nat n) data) bs m qe' bs' →
  save_post sp g qend data (b :: bs) (n + m) qe' (b' :: bs').
Proof.
  intros Hg Hlt Hn Hroom Hm Hb' Hqe Ha Hl Hov [Hmlen Hall Hok Hqe' Has Hend Hbytes].
  rewrite length_drop in *.
  split; simpl; rewrite ?Ha, ?Has, ?Hl, ?Hend; try done; try lia.
  - split; [|done]. destruct Hb' as (? & ? & ? & ?). unfold buf_ok. lia.
  - by f_equal.
  - intros p Hp. specialize (Hov p Hp). specialize (Hbytes p).
    unfold buf_byte in Hov. destruct (Z.ltb_spec p (g + rb_len b)) as [Hin|Hout].
    + clear Hbytes. case_bool_decide as H1; case_bool_decide as H2; try done; lia.
    + clear Hov. specialize (Hbytes Hout). case_bool_decide as H1; case_bool_decide as H2; try done; try lia.
      rewrite Hbytes, lookup_drop. f_equal. lia.
Qed.

Lemma save_loop_spec sp g qend data bufs :
  0 ≤ g ≤ sp → bufs_ok g qend bufs →
  (data = [] ∨ match bufs with [] => sp = g | b :: _ => sp < g + rb_len b end) →
  ∃ n qend' bufs', save_loop sp g qend data bufs = Some (n, qend', bufs') ∧
    save_post sp g qend data bufs n qend' bufs'.
Proof.
  revert sp g qend data. induction bufs as [|b bs IH]; intros sp g qend data Hsp Hok Hpre.
  { assert (save_loop sp g qend data [] = Some (0, qend, [])) as -> by (by destruct data).
    exists 0, qend, []. split; [done|]. split; try done; try lia.
    - destruct Hpre as [->|?]; simpl; lia.
    - apply overlays_nothing. }
  destruct (decide (data = [])) as [->|Hd].
  { exists 0, qend, (b :: bs). split; [done|]. by apply save_post_nothing. }
  destruct Hpre as [?|Hpre]; [done|]. destruct Hok as [Hb Hok].
  destruct (save_chunk_spec sp g qend data b) as
    (n & qe & b' & E & Hn & Hcase & Hb' & Hqe & Ha & Hl & Hov); [done..|].
  set (rest := drop (Z.to_nat n) data).
  assert (∃ m qe' bs', save_loop (sp + n) (g + rb_len b) qe rest bs = Some (m, qe', bs') ∧
    save_post (sp + n) (g + rb_len b) qe rest bs m qe' bs' ∧ (sp + n = g + rb_len b ∨ m = 0))
    as (m & qe' & bs' & E' & Hpost & Hm).
  { assert (Hok' : bufs_ok (g + rb_len b) qe bs) by (by eapply bufs_ok_weaken).
    destruct Hcase as [[Hc ?]|Hc].
    - assert (rest = []) as -> by (apply nil_length_inv; unfold rest; rewrite length_drop; lia).
      exists 0, qe, bs. split; [by destruct bs|]. split; [by apply save_post_nothing|lia].
    - destruct (IH (sp + n) (g + rb_len b) qe rest) as (m & qe' & bs' & E' & Hpost); [lia|done| |].
      { destruct bs as [|c bs]; [lia|]. destruct Hok as [(? & _) _]. lia. }
      exists m, qe', bs'. split; [done|]. split; [done|lia]. }
  exists (n + m), qe', (b' :: bs'). split.
  - destruct data; [done|]. cbn [save_loop]. rewrite E. cbn. unfold rest in E'. by rewrite E'.
  - eapply save_post_cons; try done; lia.
Qed.

(** ** Saving a payload *)

Definition stream_ok (q : RecvQueue) : Prop :=
  0 ≤ rq_read q ∧ 0 ≤ rq_end q ∧ bufs_ok (rq_read q) (rq_end q) (rq_buffers q).

Definition same_blocks (q q' : RecvQueue) : Prop :=
  rq_ack q' = rq_ack q ∧ rq_latest q' = rq_latest q ∧ rq_blocks q' = rq_blocks q ∧
  rq_fresh q' = rq_fresh q.

Lemma overlays_trim g sp n m data f f' :
  0 ≤ m → sp + m ≤ g → overlays g (sp + m) n (drop (Z.to_nat m) data) f f' →
  overlays g sp (m + n) data f f'.
Proof.
  intros Hm Hg H p Hp. specialize (H p Hp).
  case_bool_decide as H1; case_bool_decide as H2; try done; try lia.
  rewrite H, lookup_drop. f_equal. lia.
Qed.

Record save_result (q : RecvQueue) (sp : Z) (data : list Z) (n : Z) (q' : RecvQueue) : Prop := {
  sr_len : 0 ≤ n ≤ Z.of_nat (length data);
  sr_room : n = Z.of_nat (length data) ∨ end_pos (rq_read q) (rq_buffers q) ≤ sp + n;
  sr_blocks : same_blocks q q';
  sr_read : rq_read q' = rq_read q;
  sr_qend : rq_end q ≤ rq_end q';
  sr_ok : stream_ok q';
  sr_addr : (rb_addr <$> rq_buffers q') = (rb_addr <$> rq_buffers q);
  sr_endp : end_pos (rq_read q) (rq_buffers q') = end_pos (rq_read q) (rq_buffers q);
  sr_bytes : overlays (rq_read q) sp n data
               (stream_byte (rq_read q) (rq_buffers q)) (stream_byte (rq_read q) (rq_buffers q'))
}.

Lemma save_result_nothing q sp data n :
  stream_ok q → 0 ≤ n ≤ Z.of_nat (length data) → sp + n ≤ rq_read q ∨ n = 0 →
  (n = Z.of_nat (length data) ∨ end_pos (rq_read q) (rq_buffers q) ≤ sp + n) →
  save_result q sp data n q.
Proof.
  intros Hok Hn Hz Hroom. split; try done. intros p Hp.
  rewrite bool_decide_eq_false_2; [done|lia].
Qed.

Lemma save_found q sp data m :
  stream_ok q → rq_read q ≤ sp →
  ∃ n q', match find_buffer sp (rq_read q) [] (rq_buffers q) with
          | None => Some (m, q)
          | Some (g, rpre, bufs) =>
              '(n, qend, bufs) ← save_loop sp g (rq_end q) data bufs;
              Some (m + n, set_stream q (rq_read q) qend (reverse rpre ++ bufs))
          end = Some (m + n, q') ∧ save_result q sp data n q'.
Proof.
  intros (Hr & He0 & Hok) Hsp. pose proof (find_buffer_spec sp _ _ [] _ Hsp Hok) as Hf.
  destruct (find_buffer _ _ _ _) as [[[g rpre] suf]|].
  2:{ exists 0, q. split; [do 2 f_equal; lia|]. apply save_result_nothing; try done; lia. }
  destruct Hf as (pre & b & suf' & -> & Hrev & Hbufs & -> & Hin).
  rewrite reverse_nil in Hrev. simpl in Hrev. rewrite Hbufs in Hok.
  apply bufs_ok_app in Hok as [Hpre Hsuf].
  pose proof (end_pos_ge _ _ _ Hpre) as Hge.
  destruct (save_loop_spec sp (end_pos (rq_read q) pre) (rq_end q) data (b :: suf'))
    as (n & qe & bufs' & -> & [Hl Ha Hok' Hq Had He Hby]); [lia|done|right; lia|].
  exists n, (set_stream q (rq_read q) qe (pre ++ bufs')). split.
  { cbn. by rewrite Hrev. }
  split; rewrite ?Hbufs; simpl; try done.
  - rewrite end_pos_app. lia.
  - split; [done|]. split; [simpl; lia|]. apply bufs_ok_app. split; [by eapply bufs_ok_weaken|done].
  - by rewrite !fmap_app, Had.
  - by rewrite !end_pos_app, He.
  - intros p Hp. rewrite !(stream_byte_app _ _ _ _ _ Hp Hpre).
    specialize (Hby p). destruct (Z.ltb_spec p (end_pos (rq_read q) pre)); [|by apply Hby].
    rewrite bool_decide_eq_false_2; [done|lia].
Qed.

Lemma SavePayload_spec q sp data :
  stream_ok q → 0 ≤ sp →
  ∃ n q', RecvQueueSavePayload q sp data = Some (n, q') ∧ save_result q sp data n q'.
Proof.
  intros Hok Hsp. unfold RecvQueueSavePayload.
  set (L := Z.of_nat (length data)).
  destruct (Z.ltb_spec sp (rq_read q)) as [Hold|Hnew]; cbn [andb].
  - destruct (Z.ltb_spec (rq_read q - sp) L) as [Hlt|Hge]; cbn [negb].
    + set (m := rq_read q - sp) in *.
      destruct (save_found q (rq_read q) (drop (Z.to_nat m) data) m Hok ltac:(lia))
        as (n & q' & E & [Hl Hro ? ? ? ? ? ? Hby]).
      exists (m + n), q'. split; [exact E|]. rewrite length_drop in *.
      split; try done; try lia.
      apply overlays_trim; [lia..|]. replace (sp + m) with (rq_read q) by lia. done.
    + exists L, q. split; [done|]. apply save_result_nothing; try done; lia.
  - destruct (save_found q sp data 0 Hok ltac:(lia)) as (n & q' & E & Hres). eauto.
Qed.

(** ** Handing buffers to the application *)

(** What the receive callback gets: [data] with [endStreamPos - startStreamPos]. *)
Definition payload_of (b : RecvBuffer) : list Z :=
  take (Z.to_nat (rb_end b - rb_start b)) (rb_bytes b).

Section delivery.
(** The bytes of the sender's stream, by position. *)
Context (stream : Z → Z).

Definition slice (s e : Z) : list Z :=
  (λ i, stream (s + Z.of_nat i)) <$> seq 0 (Z.to_nat (e - s)).

Lemma slice_lookup s e i :
  slice s e !! i = if bool_decide (Z.of_nat i < e - s) then Some (stream (s + Z.of_nat i)) else None.
Proof.
  unfold slice. rewrite list_lookup_fmap. case_bool_decide.
  - rewrite lookup_seq_lt by lia. done.
  - rewrite lookup_seq_ge by lia. done.
Qed.

Lemma slice_app a b c : a ≤ b ≤ c → slice a b ++ slice b c = slice a c.
Proof.
  intros H. apply list_eq. intros i. rewrite lookup_app, !slice_lookup.
  assert (Hl : length (slice a b) = Z.to_nat (b - a)) by (unfold slice; by rewrite length_fmap, length_seq).
  rewrite Hl. repeat case_bool_decide; try done; try lia. do 2 f_equal. lia.
Qed.

Lemma slice_nil a : slice a a = [].
Proof. unfold slice. by rewrite Z.sub_diag. Qed.

Lemma payload_slice b rd :
  rd ≤ rb_end b → (∀ p, rd ≤ p < rb_end b → rb_bytes b !! Z.to_nat (p - rd) = Some (stream p)) →
  payload_of (start_buffer b rd) = slice rd (rb_end b).
Proof.
  intros Hle H. unfold payload_of. simpl. apply list_eq. intros i. rewrite slice_lookup.
  case_bool_decide.
  - rewrite lookup_take_lt by lia. rewrite <- H by lia. f_equal. lia.
  - apply lookup_take_ge. lia.
Qed.

(** Buffers nothing was written to. *)
Definition untouched (bufs : list RecvBuffer) : Prop := ∀ b, b ∈ bufs → rb_end b = 0.

Lemma untouched_ok g g' qend bufs :
  untouched bufs → bufs_ok g qend bufs → bufs_ok g' qend bufs.
Proof.
  revert g g'. induction bufs as [|b bs IH]; intros g g' Hu; simpl; [done|].
  intros [(? & ? & ? & ?) Hok]. split.
  - split_and!; try done. left. apply Hu. by left.
  - eapply IH; [|done]. intros c Hc. apply Hu. by right.
Qed.

Lemma untouched_byte g bufs p : untouched bufs → 0 ≤ p → stream_byte g bufs p = None.
Proof.
  revert g. induction bufs as [|b bs IH]; intros g Hu Hp; simpl; [done|].
  rewrite (Hu b) by (by left). destruct (Z.ltb_spec p 0); [lia|].
  rewrite IH; [by destruct (p <? _)| |done]. intros c Hc. apply Hu. by right.
Qed.

Lemma touched_range g qend bufs :
  bufs_ok g qend bufs → untouched bufs ∨ g < qend.
Proof.
  revert g. induction bufs as [|b bs IH]; intros g; simpl.
  - intros _. left. intros c Hc. by apply elem_of_nil in Hc.
  - intros [(? & ? & [Hz|?] & ?) Hok]; [|lia].
    destruct (IH _ Hok) as [Hu|?]; [left|lia].
    intros c [->|Hc]%elem_of_cons; [done|by apply Hu].
Qed.

(** The positions [K] whose bytes are in the buffers. *)
Definition holds (K : Z → Prop) (rd : Z) (bufs : list RecvBuffer) : Prop :=
  ∀ p, rd ≤ p → K p → stream_byte rd bufs p = Some (stream p).

Record pop_result (K : Z → Prop) (ack : Z) (force : bool) (qend rd : Z) (bufs popped : list RecvBuffer)
    (rd' : Z) (rest : list RecvBuffer) : Prop := {
  pr_split : (rb_addr <$> bufs) = (rb_addr <$> popped) ++ (rb_addr <$> rest);
  pr_read : rd ≤ rd' ≤ ack;
  pr_ok : bufs_ok rd' qend rest;
  pr_holds : holds K rd' rest;
  pr_bytes : mjoin (payload_of <$> popped) = slice rd rd';
  pr_full : force = false → Forall (λ b, rb_end b = rb_start b + rb_len b) popped;
  pr_more : match rest with
            | [] => True
            | b :: _ => (rd' + rb_len b ≤ ack → rb_end b ≠ rd' + rb_len b) ∧
                        (force = true → qend ≤ ack → rb_end b = 0)
            end
}.

(** Popping the first buffer leaves the others as the layout wants them. *)
Lemma pop_first K ack force qend rd b bs :
  0 ≤ rd ≤ ack → bufs_ok rd qend (b :: bs) → holds K rd (b :: bs) →
  (∀ p, p < ack → K p) →
  (rb_end b = rd + rb_len b ∧ rb_end b ≤ ack) ∨ (force = true ∧ rb_end b ≠ 0 ∧ qend ≤ ack) →
  rd < rb_end b ≤ ack ∧ bufs_ok (rb_end b) qend bs ∧ holds K (rb_end b) bs ∧
  payload_of (start_buffer b rd) = slice rd (rb_end b).
Proof.
  intros Hrd [(Hl & Hlen & Hend & Hq) Hok] HK Hack Hn.
  assert (Hpos : rd < rb_end b ≤ ack) by lia. split; [done|].
  assert (Hb : ∀ p, rd ≤ p < rb_end b → rb_bytes b !! Z.to_nat (p - rd) = Some (stream p)).
  { intros p Hp. specialize (HK p ltac:(lia) (Hack p ltac:(lia))). simpl in HK.
    destruct (Z.ltb_spec p (rd + rb_len b)); [|lia].
    destruct (Z.ltb_spec p (rb_end b)); [done|lia]. }
  assert (Hpay := payload_slice b rd ltac:(lia) Hb).
  destruct (decide (rb_end b = rd + rb_len b)) as [Hf|Hf].
  - rewrite Hf in *. split; [done|]. split; [|done]. intros p Hp Hk. specialize (HK p ltac:(lia) Hk). simpl in HK.
    destruct (Z.ltb_spec p (rd + rb_len b)); [lia|done].
  - (* a partial buffer is the last one with data *)
    assert (Hu : untouched bs).
    { destruct (touched_range _ _ _ Hok) as [?|Ht]; [done|]. exfalso.
      specialize (HK (rb_end b) ltac:(lia) (Hack (rb_end b) ltac:(lia))). simpl in HK.
      destruct (Z.ltb_spec (rb_end b) (rd + rb_len b)); [|lia].
      destruct (Z.ltb_spec (rb_end b) (rb_end b)); [lia|done]. }
    split; [by eapply untouched_ok|]. split; [|done]. intros p Hp Hk. exfalso.
    specialize (HK p ltac:(lia) Hk). simpl in HK.
    rewrite untouched_byte in HK by (done || lia).
    destruct (Z.ltb_spec p (rb_end b)); [lia|]. by destruct (p <? _).
Qed.

Lemma pop_loop_spec K ack force qend rd bufs :
  0 ≤ rd ≤ ack → bufs_ok rd qend bufs → holds K rd bufs → (∀ p, p < ack → K p) →
  ∃ popped rd' rest, pop_loop ack force qend rd bufs = Some (popped, rd', rest) ∧
    pop_result K ack force qend rd bufs popped rd' rest.
Proof.
  revert rd. induction bufs as [|b bs IH]; intros rd Hrd Hok HK Hack.
  { exists [], rd, []. split; [done|]. split; try done; try lia. simpl. by rewrite slice_nil. }
  cbn [pop_loop]. pose proof Hok as [(_ & _ & _ & Hq) _].
  rewrite (proj2 (Z.leb_le _ _) Hq). cbn [negb]. set (n := _ || _).
  destruct n eqn:En; unfold n in En; clear n.
  - assert (Hn : (rb_end b = rd + rb_len b ∧ rb_end b ≤ ack) ∨ (force = true ∧ rb_end b ≠ 0 ∧ qend ≤ ack)).
    { destruct force; lia. }
    destruct (pop_first K ack force qend rd b bs) as (Hp & Hok' & HK' & Hpay); try done.
    destruct (IH (rb_end b)) as (popped & rd' & rest & E & [Hs Hr Ho Hh Hby Hfull Hm]); try done; [lia|].
    rewrite E. exists (start_buffer b rd :: popped), rd', rest. split; [done|].
    split; try done; try lia.
    + rewrite !fmap_cons, Hs. done.
    + change (payload_of (start_buffer b rd) ++ mjoin (payload_of <$> popped) = slice rd rd').
      rewrite Hpay, Hby. apply slice_app. lia.
    + intros Hf. constructor; [simpl; naive_solver|by apply Hfull].
  - exists [], rd, (b :: bs). split; [done|]. split; try done; try lia.
    + by rewrite slice_nil.
    + destruct force; lia.
Qed.
End delivery.

(** ** Concurrent executions

    [RecvQueueWriteData] releases the stream lock before it takes the block
    lock, and [RecvQueuePopCompleteBuffers] reads the acknowledged position
    before it takes the stream lock.  The steps below are the critical
    sections; any number of threads interleaves them. *)

Record RQThreads := mkThreads {
  th_queue : RecvQueue;
  th_pending : list (Z * Z);        (* ranges saved, [UpdateStreamPos] still to run *)
  th_delivered : list RecvBuffer    (* buffers popped so far *)
}.

Section threads.
Context (stream : Z → Z) (start : Z).

Inductive rq_step : RQThreads → RQThreads → Prop :=
| step_save q pend dl sp data n q' :
    0 ≤ sp → sp + Z.of_nat (length data) < pos_bound →
    (∀ i, (i < length data)%nat → data !! i = Some (stream (sp + Z.of_nat i))) →
    RecvQueueSavePayload q sp data = Some (n, q') → n ≠ 0 →
    rq_step (mkThreads q pend dl) (mkThreads q' ((sp, sp + n) :: pend) dl)
| step_update q pend1 s e pend2 dl t q' :
    RecvQueueUpdateStreamPos q s e = (t, q') →
    rq_step (mkThreads q (pend1 ++ (s, e) :: pend2) dl) (mkThreads q' (pend1 ++ pend2) dl)
| step_pop q pend dl ack force dl' q' :
    rq_read q ≤ ack ≤ rq_ack q →
    RecvQueuePopCompleteBuffers q ack force dl = Some (dl', q') →
    rq_step (mkThreads q pend dl) (mkThreads q' pend dl')
| step_add q pend dl data len mem callback r q' :
    0 ≤ len → Z.of_nat (length mem) = len →
    RecvQueueAddBuffer q data len mem callback = (r, q') →
    rq_step (mkThreads q pend dl) (mkThreads q' pend dl).

Definition rq_init : RQThreads := mkThreads (RecvQueueCreate start) [] [].

(** The positions whose bytes were saved. *)
Definition known (st : RQThreads) (p : Z) : Prop :=
  received (th_queue st) p ∨ ∃ se, se ∈ th_pending st ∧ se.1 ≤ p < se.2.

Record rq_inv (st : RQThreads) : Prop := {
  inv_blocks : blocks_wf (th_queue st);
  inv_stream : stream_ok (th_queue st);
  inv_read : start ≤ rq_read (th_queue st) ≤ rq_ack (th_queue st);
  inv_pending : ∀ se, se ∈ th_pending st → 0 ≤ se.1 < se.2 ∧ se.2 < pos_bound;
  inv_holds : holds stream (known st) (rq_read (th_queue st)) (rq_buffers (th_queue st));
  inv_delivered : mjoin (payload_of <$> th_delivered st) = slice stream start (rq_read (th_queue st))
}.

Lemma received_same q q' p : same_blocks q q' → received q' p ↔ received q p.
Proof. intros (E1 & _ & E2 & _). unfold received. by rewrite E1, E2. Qed.

Lemma blocks_wf_same q q' : same_blocks q q' → blocks_wf q → blocks_wf q'.
Proof. intros (E1 & E2 & E3 & E4) []. split; rewrite ?E2, ?E3, ?E4; done. Qed.

Lemma inv_save q pend dl sp data n q' :
  rq_inv (mkThreads q pend dl) → 0 ≤ sp → sp + Z.of_nat (length data) < pos_bound →
  (∀ i, (i < length data)%nat → data !! i = Some (stream (sp + Z.of_nat i))) → n ≠ 0 →
  save_result q sp data n q' → rq_inv (mkThreads q' ((sp, sp + n) :: pend) dl).
Proof.
  intros [Hb Hs Hr Hp Hh Hd] Hsp Hlen Hdata Hn [Hl _ Hsame Hread _ Hok _ _ Hby]. simpl in *.
  split; simpl; rewrite ?Hread; try done.
  - by eapply blocks_wf_same.
  - by rewrite (proj1 Hsame).
  - intros se [->|Hse]%elem_of_cons; [simpl; lia|by apply Hp].
  - intros p Hp0 Hk. specialize (Hby p Hp0). case_bool_decide as Hin.
    + rewrite Hby, Hdata by lia. do 2 f_equal. lia.
    + apply Hby, Hh; [done|]. unfold known in *. simpl in *. rewrite received_same in Hk by done.
      destruct Hk as [?|(se & [->|Hse]%elem_of_cons & ?)]; [by left|simpl in *; lia|right; eauto].
Qed.

Lemma inv_update q pend1 s e pend2 dl t q' :
  rq_inv (mkThreads q (pend1 ++ (s, e) :: pend2) dl) → 0 ≤ start →
  RecvQueueUpdateStreamPos q s e = (t, q') → rq_inv (mkThreads q' (pend1 ++ pend2) dl).
Proof.
  intros [Hb Hs Hr Hp Hh Hd] H0 E. simpl in *.
  destruct (Hp (s, e)) as [Hse He]; [rewrite elem_of_app, elem_of_cons; tauto|]. simpl in *.
  pose proof (UpdateStreamPos_spec q s e Hb ltac:(lia) ltac:(lia) He) as Hu. rewrite E in Hu.
  destruct Hu as (Hb' & Hack & [= E1 E2 E3] & Hrec & _).
  split; simpl; rewrite ?E1; try done; try lia.
  - unfold stream_ok. by rewrite E1, E2, E3.
  - intros se Hin. apply Hp. rewrite elem_of_app in *. rewrite elem_of_cons. tauto.
  - rewrite E3. intros p Hp0 Hk. apply Hh; [done|]. unfold known in *. simpl in *.
    setoid_rewrite elem_of_app. setoid_rewrite elem_of_cons.
    destruct Hk as [[?|?]%Hrec|(se & Hin%elem_of_app & ?)].
    + by left.
    + right. exists (s, e). tauto.
    + right. exists se. tauto.
Qed.

Lemma inv_pop q pend dl ack force dl' q' :
  rq_inv (mkThreads q pend dl) → rq_read q ≤ ack ≤ rq_ack q →
  RecvQueuePopCompleteBuffers q ack force dl = Some (dl', q') → rq_inv (mkThreads q' pend dl').
Proof.
  intros [Hb (Hs0 & Hs1 & Hs) Hr Hp Hh Hd] Hack E. simpl in *. unfold RecvQueuePopCompleteBuffers in E.
  destruct (pop_loop_spec stream (known (mkThreads q pend dl)) ack force (rq_end q) (rq_read q) (rq_buffers q))
    as (popped & rd' & rest & E' & [_ Hrd Hok Hh' Hby _ _]); try done; [lia| |].
  { intros p Hlt. left. left. simpl. lia. }
  rewrite E' in E. simpl in E. simplify_eq. split; simpl; try done; try lia.
  - destruct Hb. by split.
  - split_and!; simpl; [lia|lia|done].
  - rewrite fmap_app, join_app, Hd, Hby. apply slice_app. lia.
Qed.

Lemma stream_byte_lt g qend bufs p v :
  g ≤ p → bufs_ok g qend bufs → stream_byte g bufs p = Some v → p < end_pos g bufs.
Proof.
  revert g. induction bufs as [|b bs IH]; intros g Hp Hok; simpl; [done|].
  destruct Hok as [_ Hok]. pose proof (end_pos_ge _ _ _ Hok).
  destruct (Z.ltb_spec p (g + rb_len b)); [lia|]. by apply IH.
Qed.

Lemma inv_add q pend dl data len mem callback r q' :
  rq_inv (mkThreads q pend dl) → 0 ≤ len → Z.of_nat (length mem) = len →
  RecvQueueAddBuffer q data len mem callback = (r, q') → rq_inv (mkThreads q' pend dl).
Proof.
  intros Hinv Hlen Hmem E. unfold RecvQueueAddBuffer in E.
  destruct (_ || _) eqn:Eg; [by simplify_eq|].
  destruct (existsb _ _); simplify_eq; [done|].
  destruct Hinv as [Hb (Hs0 & Hs1 & Hs) Hr Hp Hh Hd]. simpl in *. split; simpl; try done.
  - destruct Hb. by split.
  - split_and!; try done. simpl. apply bufs_ok_app. split; [done|]. simpl.
    unfold buf_ok. simpl. split_and!; try done; try lia.
  - intros p Hp0 Hk. specialize (Hh p Hp0 Hk). rewrite (stream_byte_app _ _ _ _ _ Hp0 Hs).
    destruct (Z.ltb_spec p (end_pos (rq_read q) (rq_buffers q))); [done|].
    apply (stream_byte_lt _ _ _ _ _ Hp0 Hs) in Hh. lia.
Qed.

Lemma rq_init_inv : 0 ≤ start → rq_inv rq_init.
Proof.
  intros H. split; simpl; try done; try lia.
  - split; simpl; try done; try constructor. intros b Hb. by apply elem_of_nil in Hb.
  - intros se Hse. by apply elem_of_nil in Hse.
  - intros p Hp [[?|[b [Hb _]]]|[se [Hse _]]]; simpl in *; [lia| |].
    + by apply elem_of_nil in Hb.
    + by apply elem_of_nil in Hse.
  - by rewrite slice_nil.
Qed.

Lemma rq_step_inv st st' : 0 ≤ start → rq_inv st → rq_step st st' → rq_inv st'.
Proof.
  intros H0 Hinv Hstep. destruct Hstep as [q pend dl sp data n q' Hsp Hlen Hdata E Hn| | |].
  - destruct (SavePayload_spec q sp data) as (m & q1 & E1 & Hres); [apply Hinv|done|].
    rewrite E in E1. simplify_eq. by eapply inv_save.
  - by eapply inv_update.
  - by eapply inv_pop.
  - by eapply inv_add.
Qed.

Lemma reachable_inv st : 0 ≤ start → rtc rq_step rq_init st → rq_inv st.
Proof.
  intros H0 H. pattern st. revert st H. apply rtc_ind_r; [by apply rq_init_inv|].
  intros st1 st2 _ Hs IH. by eapply rq_step_inv.
Qed.
End threads.

(** ** Theorems *)


(** When the acknowledged position reaches the end of what was saved, a
    forced pop hands over everything acknowledged: nothing received in order
    stays in the buffers. *)
Theorem forced_pop_drains stream start st dl :
  0 ≤ start → rtc (rq_step stream) (rq_init start) st →
  rq_end (th_queue st) ≤ rq_ack (th_queue st) →
  ∃ dl' q', RecvQueuePopCompleteBuffers (th_queue st) (rq_ack (th_queue st)) true dl = Some (dl', q') ∧
    rq_read q' = rq_ack (th_queue st).
Proof.
  intros H0 H He. destruct (reachable_inv stream start st H0 H) as [Hb Hs Hr Hp Hh Hd].
  set (q := th_queue st) in *.
  unfold RecvQueuePopCompleteBuffers.
  destruct (pop_loop_spec stream (known st) (rq_ack q) true (rq_end q) (rq_read q) (rq_buffers q)
    ltac:(lia) (proj2 (proj2 Hs)) Hh) as (popped & rd' & rest & -> & [_ Hrd Hok Hh' _ _ Hm]);
    [intros p Hlt; left; left; fold q; lia|].
  eexists _, _. split; [done|]. simpl. destruct (decide (rd' = rq_ack q)); [done|].
  exfalso. specialize (Hh' rd' ltac:(lia)). destruct rest as [|b rest]; simpl in Hh'.
  - discriminate Hh'. left. left. fold q. lia.
  - destruct Hm as [_ Hm]. specialize (Hm eq_refl He). rewrite Hm in Hh'.
    destruct Hok as [(? & _) _]. destruct (Z.ltb_spec rd' (rd' + rb_len b)); [|lia].
    destruct (Z.ltb_spec rd' 0); [lia|]. discriminate Hh'. left. left. fold q. lia.
Qed.

(** The queue between two calls of one thread. *)
Definition queue_ok (q : RecvQueue) : Prop :=
  blocks_wf q ∧ stream_ok q ∧ rq_read q ≤ rq_ack q.

(** What each answer of [RecvQueueWriteData] means, [n] being the length saved. *)
Definition write_meaning (q q' : RecvQueue) (sp len n : Z) (t : RecvPackageType) : Prop :=
  match t with
  | RECV_PACKAGE_TYPE_OLD => ∀ p, sp ≤ p < sp + len → received q p
  | RECV_PACKAGE_TYPE_IN_ORDER => n = len ∧ (len = 0 ∨ sp ≤ rq_ack q ∧ sp + len ≤ rq_ack q')
  | RECV_PACKAGE_TYPE_LOST_ORDER =>
      n = len ∧ rq_ack q < sp ∧ rq_ack q' = rq_ack q ∧ ∃ p, sp ≤ p < sp + len ∧ ¬ received q p
  | RECV_PACKAGE_TYPE_PART => 0 < n < len ∧ end_pos (rq_read q) (rq_buffers q) ≤ sp + n
  | RECV_PACKAGE_TYPE_OUT_OF_BUFFER =>
      n = 0 ∧ 0 < len ∧ end_pos (rq_read q) (rq_buffers q) ≤ sp
  | RECV_PACKAGE_TYPE_NONE => False
  end.

(** C33: [RecvQueueWriteData] never fails an assertion, keeps the queue
    well-formed, adds exactly the saved positions to what the queue reports
    as received, puts their bytes in the buffers without touching the others,
    and its answer means what its name says. *)
Theorem RecvQueueWriteData_correct q sp data :
  queue_ok q → 0 ≤ sp → sp + Z.of_nat (length data) < pos_bound →
  ∃ t q' n, RecvQueueWriteData q sp data = Some (t, q') ∧ queue_ok q' ∧
    rq_ack q ≤ rq_ack q' ∧ rq_read q' = rq_read q ∧ 0 ≤ n ≤ Z.of_nat (length data) ∧
    (∀ p, received q' p ↔ received q p ∨ sp ≤ p < sp + n) ∧
    overlays (rq_read q) sp n data (stream_byte (rq_read q) (rq_buffers q))
      (stream_byte (rq_read q) (rq_buffers q')) ∧
    write_meaning q q' sp (Z.of_nat (length data)) n t.
Proof.
  intros (Hb & Hs & Hr) Hsp Hlen. unfold RecvQueueWriteData.
  set (L := Z.of_nat (length data)) in *. assert (0 ≤ L) by lia. pose proof Hlen as Hlen'.
  unfold pos_bound in Hlen'. rewrite (u64_id (sp + L)) by lia.
  destruct (Z.leb_spec (sp + L) (rq_ack q)).
  { eexists _, q, 0. split; [done|]. split_and!; try done; try lia; [apply range_nothing|apply overlays_nothing|].
    intros p Hp. left. lia. }
  destruct (Z.eqb_spec L 0) as [E|E].
  { eexists _, q, 0. split; [done|]. split_and!; try done; try lia; [apply range_nothing|apply overlays_nothing|].
    split; [lia|by left]. }
  destruct (SavePayload_spec q sp data Hs Hsp) as (n & q1 & -> & [Hn Hroom Hsame Hread Hqe Hok _ _ Hby]).
  fold L in Hn, Hroom. cbn.
  pose proof (blocks_wf_same _ _ Hsame Hb) as Hb1. pose proof Hsame as (Ea & _).
  destruct (Z.eqb_spec n 0) as [->|Hn0].
  { eexists _, q1, 0. split; [done|]. split_and!; try done; try lia.
    - split; [done|]. split; [done|]. lia.
    - intros p. rewrite received_same by done. apply range_nothing.
    - simpl. lia. }
  rewrite (u64_id (sp + n)) by lia.
  assert (0 ≤ rq_read q) by apply Hs.
  pose proof (UpdateStreamPos_spec q1 sp (sp + n) Hb1 ltac:(lia) ltac:(lia) ltac:(lia)) as Hu.
  destruct (RecvQueueUpdateStreamPos q1 sp (sp + n)) as [t q2].
  destruct Hu as (Hb2 & Hack & [= E1 E2 E3] & Hrec & Ht).
  assert (Hq2 : queue_ok q2).
  { split; [done|]. split; [|lia]. unfold stream_ok. by rewrite E1, E2, E3. }
  eexists _, q2, n. split; [reflexivity|]. split_and!; try done; try lia.
  - intros p. rewrite Hrec, received_same by done. done.
  - by rewrite E3.
  - destruct (Z.ltb_spec n L); [simpl; lia|]. assert (n = L) as -> by lia.
    destruct t; try done; simpl.
    + subst q2. intros p Hp. rewrite <- (received_same q q1) by done. apply Hrec. by right.
    + lia.
    + destruct Ht as (? & ? & p & ? & Hnc). split; [done|]. split; [lia|]. split; [lia|].
      exists p. split; [done|]. destruct Hsame as (_ & _ & Eb & _). rewrite Eb in Hnc.
      intros [?|?]; [lia|done].
Qed.

(** ** The acknowledged position and the packets *)

(** The acknowledged position is not received: the blocks start beyond it. *)
Lemma sep_raise lo lo' bs : sep lo bs → (∀ p, covers bs p → lo' < p) → sep lo' bs.
Proof.
  destruct bs as [|b bs]; [done|]. intros (? & Hb & ?) Hall. split; [|done].
  apply Hall. exists b. split; [by left|]. unfold in_block, block_ok in *. lia.
Qed.

Lemma UpdateStreamPos_gap q s e :
  blocks_wf q → 0 ≤ rq_ack q → 0 ≤ s < e → e < pos_bound → sep (rq_ack q) (rq_blocks q) →
  (s ≤ rq_ack q < e → match rq_blocks q with _ :: b :: _ => e < blk_start b | _ => True end) →
  let q' := snd (RecvQueueUpdateStreamPos q s e) in sep (rq_ack q') (rq_blocks q').
Proof.
  intros Hwf Hack Hse He Hsep H2. unfold RecvQueueUpdateStreamPos.
  destruct (Z.leb_spec e (rq_ack q)) as [Hold|Hnew]; [done|].
  destruct (Z.leb_spec s (rq_ack q)) as [Hin|Hout].
  - specialize (H2 ltac:(lia)). cbn [rq_blocks set_blocks].
    destruct (rq_blocks q) as [|b bs] eqn:Eb; [done|].
    destruct Hsep as (Hs1 & Hb & Hs2).
    assert (Hok : block_ok (mkBlock 0 s e)) by (unfold block_ok; simpl; lia).
    pose proof (touching_spec b (mkBlock 0 s e) Hb Hok) as Ht. unfold touch in Ht. simpl in Ht.
    destruct (touching _).
    + destruct Ht as [Ht _]. specialize (Ht eq_refl).
      cbn [snd]. rewrite (delete_head_block _ b bs);
        [|rewrite <- Eb; apply (bw_ids _ Hwf)|by rewrite <- Eb].
      cbn. rewrite help_max. destruct bs as [|c bs]; [done|].
      destruct Hs2 as (? & ? & ?). simpl. split; [lia|done].
    + cbn. split; [|done]. destruct (Z.lt_ge_cases e (blk_start b)); [done|].
      unfold block_ok in Hb. simpl in Ht. destruct Ht as [_ Ht]. discriminate Ht. lia.
  - pose proof (AddToBlocks_spec q s e Hwf ltac:(lia) He) as Ha.
    destruct (RecvQueueAddToBlocks q s e) as [old q'].
    destruct Ha as (H1 & H3 & _ & H4 & _). cbn. rewrite H3. eapply sep_raise; [apply H1|].
    intros p Hp. apply H4 in Hp as [Hp|?]; [|lia].
    destruct (Z.lt_ge_cases (rq_ack q) p); [done|]. by destruct (sep_not_covers _ _ p Hsep).
Qed.

Definition receive_all (q : RecvQueue) (l : list (Z * Z)) : RecvQueue :=
  fold_left (λ q se, snd (RecvQueueUpdateStreamPos q se.1 se.2)) l q.

(** Packets cut from one stream: any two are the same or do not overlap. *)
Definition packets_ok (start : Z) (l : list (Z * Z)) : Prop :=
  (∀ se, se ∈ l → start ≤ se.1 < se.2 ∧ se.2 < pos_bound) ∧
  (∀ a b, a ∈ l → b ∈ l → a = b ∨ a.2 ≤ b.1 ∨ b.2 ≤ a.1).

Definition in_packets (l : list (Z * Z)) (p : Z) : Prop := ∃ se, se ∈ l ∧ se.1 ≤ p < se.2.

Record gap_inv (start : Z) (l : list (Z * Z)) (q : RecvQueue) : Prop := {
  gi_wf : blocks_wf q;
  gi_ack : start ≤ rq_ack q;
  gi_sep : sep (rq_ack q) (rq_blocks q);
  gi_received : ∀ p, received q p ↔ p < start ∨ in_packets l p
}.

Lemma gap_inv_step start l s e q :
  0 ≤ start → packets_ok start (l ++ [(s, e)]) → gap_inv start l q →
  gap_inv start (l ++ [(s, e)]) (snd (RecvQueueUpdateStreamPos q s e)).
Proof.
  intros H0 [Hok Hdisj] [Hwf Hack Hsep Hrec].
  assert (Hnew : (s, e) ∈ l ++ [(s, e)]) by (apply elem_of_app; right; by left).
  destruct (Hok _ Hnew) as [Hs He]. simpl in Hs, He.
  pose proof (UpdateStreamPos_spec q s e Hwf ltac:(lia) ltac:(lia) He) as Hu.
  pose proof (UpdateStreamPos_gap q s e Hwf ltac:(lia) ltac:(lia) He Hsep) as Hg.
  destruct (RecvQueueUpdateStreamPos q s e) as [t q']. cbn [snd] in *.
  destruct Hu as (Hwf' & Hmono & _ & Hrec' & _).
  split; [done|lia| |].
  - apply Hg. intros Hin. destruct (rq_blocks q) as [|b1 [|b2 bs]] eqn:Eb; [done..|].
    pose proof Hsep as (H1 & Hb1 & H2 & _). unfold block_ok in Hb1.
    assert (Hna : ¬ received q (rq_ack q)).
    { intros [?|Hc]; [lia|]. rewrite Eb in Hc. by apply (sep_not_covers _ _ _ Hsep) in Hc. }
    assert (Hr1 : received q (blk_start b1)).
    { right. rewrite Eb. exists b1. split; [by left|]. unfold in_block. lia. }
    apply Hrec in Hr1 as [?|([s' e'] & Hl & Hin')]; [lia|]. simpl in Hin'.
    destruct (Hdisj (s, e) (s', e') Hnew) as [[= <- <-]|[?|?]]; simpl in *; try lia.
    + apply elem_of_app. by left.
    + exfalso. apply Hna, Hrec. right. exists (s, e). split; [done|simpl; lia].
  - intros p. rewrite Hrec', Hrec. unfold in_packets. setoid_rewrite elem_of_app.
    split.
    + intros [[?|(se & ? & ?)]|?]; [by left| |]; right; [exists se; tauto|].
      exists (s, e). split; [right; by left|done].
    + intros [?|(se & [?|E%list_elem_of_singleton] & ?)]; [by left; left| |by subst se; right].
      left. right. by exists se.
Qed.

Lemma gap_inv_all start l :
  0 ≤ start → packets_ok start l → gap_inv start l (receive_all (RecvQueueCreate start) l).
Proof.
  intros H0. induction l as [|[s e] l IH] using rev_ind; intros Hok.
  - split; simpl; try done.
    + split; simpl; try done; try constructor. intros b Hb. by apply elem_of_nil in Hb.
    + intros p. unfold received, in_packets. simpl. split; [|intros [?|(se & Hse & _)]; [by left|]].
      * intros [?|Hc]; [by left|]. by apply covers_nil in Hc.
      * by apply elem_of_nil in Hse.
  - unfold receive_all. rewrite fold_left_app. apply gap_inv_step; [done..|]. apply IH.
    destruct Hok as [H1 H2]. split.
    + intros se Hse. apply H1. apply elem_of_app. by left.
    + intros a b Ha Hb. apply H2; apply elem_of_app; by left.
Qed.

(** C31: fed with packets of one segmentation of the stream, in any order and
    with any repetitions, the receive queue has received exactly those
    packets, and [ackStreamPos] is the first missing position: everything
    below it was received and it was not. *)
Theorem ack_is_first_missing start l :
  0 ≤ start → packets_ok start l →
  let q := receive_all (RecvQueueCreate start) l in
  (∀ p, received q p ↔ p < start ∨ in_packets l p) ∧
  start ≤ rq_ack q ∧ (∀ p, start ≤ p < rq_ack q → in_packets l p) ∧ ¬ in_packets l (rq_ack q).
Proof.
  intros H0 Hok q. destruct (gap_inv_all start l H0 Hok) as [Hwf Hack Hsep Hrec]. fold q in Hack, Hsep, Hrec.
  split_and!; try done.
  - intros p Hp. destruct (proj1 (Hrec p)) as [?|?]; [left; lia|lia|done].
  - intros Hin. destruct (proj2 (Hrec (rq_ack q)) (or_intror Hin)) as [?|Hc]; [lia|].
    by apply (sep_not_covers _ _ _ Hsep) in Hc.
Qed.

(** With packets that overlap (a retransmission cut differently) the
    acknowledged position can stay behind: here everything up to 40 was
    received, the queue acknowledges 30, and the packet that reported the last
    bytes does not help when it is repeated only up to 30. *)
Theorem overlapping_packets_leave_ack_behind :
  let q := receive_all (RecvQueueCreate 0) [(10, 20); (30, 40); (0, 30)] in
  rq_ack q = 30 ∧ received q (rq_ack q) ∧
  receive_all q [(0, 30); (10, 20); (20, 30)] = q.
Proof.
  split_and!; [done| |done]. right. exists (mkBlock 2 30 40). split; [by left|].
  unfold in_block. vm_compute. split; [discriminate|done].
Qed.

(** The selective acknowledgement lists at most ten blocks, never an empty
    array, ends with the zero entry the encoder stops at, includes the block
    that was received last, lists every block when there are no more than ten,
    and never covers a position that was not received. *)
Theorem GetAckInfo_correct q :
  blocks_wf q →
  match RecvQueueGetAckInfo q with
  | (ack, None) => ack = rq_ack q ∧ rq_blocks q = []
  | (ack, Some sacks) =>
      ack = rq_ack q ∧
      ∃ bs, sacks = (block_range <$> bs) ++ [mkRange 0 0] ∧ reported q bs ∧ bs ≠ [] ∧
        ((length (rq_blocks q) ≤ 10)%nat → bs ≡ₚ rq_blocks q) ∧
        ∀ r p, r ∈ sacks → sr_pos r ≤ p < sr_pos r + sr_length r → received q p
  end.
Proof.
  intros Hwf. destruct (decide (rq_blocks q = [])) as [E|E].
  { unfold RecvQueueGetAckInfo. by rewrite E. }
  destruct (GetAckInfo_reported q Hwf E) as (bs & -> & Hrep). split; [done|].
  exists bs. pose proof Hrep as (Hsub & Hlen & _). unfold PACKAGE_SESSIONDATA_SACK_RANGE_MAX_COUNT in Hlen.
  split_and!; try done.
  - intros ->. simpl in Hlen. destruct (rq_blocks q); [done|]. simpl in Hlen. lia.
  - intros Hle. apply submseteq_length_Permutation; [done|lia].
  - intros r p Hr Hp. apply elem_of_app in Hr as [Hr|Hr].
    + apply list_elem_of_fmap in Hr as (b & -> & Hb).
      eapply block_range_received; [done| |done]. by eapply elem_of_submseteq.
    + apply list_elem_of_singleton in Hr as ->. simpl in Hp. lia.
Qed.

(** ** Concrete runs *)

(** The stream whose byte at [p] is [p]: a buffer of four bytes is added, the
    packet [0, 3) is saved and committed, and a forced pop delivers it. *)
Definition demo_queue : RecvQueue :=
  mkRQ 3 None [] 1 0 3 [mkBuffer 100 4 [0; 1; 2; 9] 0 3 1].
Definition demo_done : RecvQueue := set_stream demo_queue 3 3 [].

Lemma demo_saved : rtc (rq_step (λ p, p)) (rq_init 0) (mkThreads demo_queue [] []).
Proof.
  eapply rtc_l.
  { eapply (step_add _ _ _ _ 100 4 [9; 9; 9; 9] 1); [done|done|reflexivity]. }
  eapply rtc_l.
  { eapply (step_save _ _ _ _ 0 [0; 1; 2] 3); [done|done| |vm_compute; reflexivity|done].
    intros i Hi. simpl in Hi. by destruct i as [|[|[|i]]]; [| | |lia]. }
  eapply rtc_l; [|apply rtc_refl].
  eapply (step_update _ _ [] 0 3 []). vm_compute. reflexivity.
Qed.

Lemma demo_delivered :
  rtc (rq_step (λ p, p)) (rq_init 0)
    (mkThreads demo_done [] [mkBuffer 100 4 [0; 1; 2; 9] 0 3 1]).
Proof.
  eapply rtc_r; [apply demo_saved|].
  eapply (step_pop _ _ _ _ 3 true); [vm_compute; split; discriminate|vm_compute; reflexivity].
Qed.

(** Decides [packets_ok] on a literal list. *)
Ltac solve_packets :=
  split;
  [ intros ? H; repeat (apply elem_of_cons in H as [->|H]; [by vm_compute|]);
    by apply elem_of_nil in H
  | intros ?? Ha; repeat (apply elem_of_cons in Ha as [->|Ha];
      [intros Hb; repeat (apply elem_of_cons in Hb as [->|Hb]; [simpl; lia || by left|]);
       by apply elem_of_nil in Hb|]);
    by apply elem_of_nil in Ha ].


Lemma forced_pop_drains_witness :
  ∃ dl' q', RecvQueuePopCompleteBuffers demo_queue 3 true [] = Some (dl', q') ∧ rq_read q' = 3.
Proof.
  exact (forced_pop_drains (λ p, p) 0 _ [] ltac:(lia) demo_saved ltac:(simpl; lia)).
Defined.

Lemma demo_queue_ok : queue_ok demo_queue.
Proof.
  destruct (reachable_inv (λ p, p) 0 _ ltac:(lia) demo_saved) as [Hb Hs Hr _ _ _]. by split_and!.
Qed.

Lemma RecvQueueWriteData_correct_witness :
  ∃ t q' n, RecvQueueWriteData demo_queue 3 [7; 8] = Some (t, q') ∧
    write_meaning demo_queue q' 3 2 n t.
Proof.
  destruct (RecvQueueWriteData_correct demo_queue 3 [7; 8] demo_queue_ok ltac:(lia) ltac:(done))
    as (t & q' & n & H & _ & _ & _ & _ & _ & _ & Hm).
  exists t, q', n. split; [exact H|exact Hm].
Defined.

Lemma ack_is_first_missing_witness :
  ¬ in_packets [(10, 20); (0, 10); (30, 40)]
      (rq_ack (receive_all (RecvQueueCreate 0) [(10, 20); (0, 10); (30, 40)])).
Proof.
  refine (proj2 (proj2 (proj2 (ack_is_first_missing 0 [(10, 20); (0, 10); (30, 40)] ltac:(lia) _)))).
  solve_packets.
Defined.

Lemma GetAckInfo_correct_witness :
  ∃ bs, [mkRange 10 10; mkRange 30 10; mkRange 0 0] = (block_range <$> bs) ++ [mkRange 0 0] ∧
    reported (receive_all (RecvQueueCreate 0) [(10, 20); (30, 40)]) bs.
Proof.
  assert (Hwf : blocks_wf (receive_all (RecvQueueCreate 0) [(10, 20); (30, 40)])).
  { apply (gap_inv_all 0); [done|]. solve_packets. }
  destruct (GetAckInfo_correct _ Hwf) as [_ (bs & H1 & H2 & _)]. exists bs. by split.
Defined.
