(* ===== verification/SendQueue.v ===== *)
(** * The send queue of a package connection

    Models [BDTCore/Connection/PackageConnection/SendQueue.imp.inl]: the
    application's buffers waiting to be sent, the blocks cut from them that
    are in flight or lost, and their confirmation by the peer's
    acknowledgements.  [sendContext] and [sendingBuffers] are records of their
    own, as in the code, each under its own lock.  The intrusive lists are
    sequences (their pointer-level behaviour is in [DList]); pointers to data
    and to buffers are addresses in [Z]. *)

From S2P Require Import Prelude CInt RecvQueue.

(** ** Data *)

Record SendBuffer := mkSB {
  sb_id : Z;                        (* the address of the buffer object *)
  sb_data : Z; sb_len : Z;          (* the application's memory *)
  sb_start : Z; sb_offset : Z; sb_end : Z; sb_callback : Z }.

Record SendBlock := mkBlk { bk_start : Z; bk_end : Z; bk_time : Z; bk_data : Z }.

Inductive SendBlockCheckState :=
  | SEND_BLOCK_CHECK_STATE_LOST
  | SEND_BLOCK_CHECK_STATE_ACK
  | SEND_BLOCK_CHECK_STATE_PREV
  | SEND_BLOCK_CHECK_STATE_OUT_OF_RANGE.
#[export] Instance SendBlockCheckState_eq_dec : EqDecision SendBlockCheckState.
Proof. solve_decision. Defined.

Record SendContext := mkCtx {
  sc_ack : Z; sc_streamPos : Z;
  sc_lostBlocks : list SendBlock; sc_lost : Z;          (* uint64_t *)
  sc_flightBlocks : list SendBlock; sc_flight : Z;      (* uint32_t *)
  sc_latestAck : Z; sc_prevDupAck : Z; sc_dupAckTimes : Z (* uint8_t *) }.

Record SendingBuffers := mkSending {
  sd_streamPos : Z; sd_unSend : Z;
  sd_curr : option Z; sd_buffers : list SendBuffer }.

Record SendQueue := mkSQ {
  sq_ctx : SendContext; sq_sending : SendingBuffers; sq_mtu : Z;
  sq_fresh : Z                       (* the next address malloc returns *) }.

Definition bk_len (b : SendBlock) : Z := bk_end b - bk_start b.

Definition set_lists (c : SendContext) (flights : list SendBlock) (flight : Z)
    (losts : list SendBlock) (lost : Z) : SendContext :=
  mkCtx (sc_ack c) (sc_streamPos c) losts lost flights flight
    (sc_latestAck c) (sc_prevDupAck c) (sc_dupAckTimes c).
Definition set_acks (c : SendContext) (ack latest prevDup times : Z) : SendContext :=
  mkCtx ack (sc_streamPos c) (sc_lostBlocks c) (sc_lost c) (sc_flightBlocks c) (sc_flight c)
    latest prevDup times.
Definition set_pos (c : SendContext) (streamPos : Z) : SendContext :=
  mkCtx (sc_ack c) streamPos (sc_lostBlocks c) (sc_lost c) (sc_flightBlocks c) (sc_flight c)
    (sc_latestAck c) (sc_prevDupAck c) (sc_dupAckTimes c).

Definition SendQueueCreate (streamPos mtu : Z) : SendQueue :=
  mkSQ (mkCtx streamPos streamPos [] 0 [] 0 0 0 0) (mkSending streamPos 0 None []) mtu 1.

(** ** The application's buffers *)

(** The fields of a fresh buffer are filled before the lock is taken, its
    positions under the lock. *)
Definition SendQueueAddBuffer (q : SendQueue) (data len callback : Z) : Z * SendQueue :=
  if (data =? 0) || (len =? 0) || (callback =? 0) then (BFX_RESULT_INVALID_PARAM, q) else
  let s := sq_sending q in
  let id := sq_fresh q in
  let unSend := sd_unSend s in
  let buffer := mkSB id data len (sd_streamPos s) (sd_streamPos s) (u64 (sd_streamPos s + len)) callback in
  let curr := match sd_curr s with None => Some id | Some c => Some c end in
  (if unSend >? 0 then BFX_RESULT_PENDING else BFX_RESULT_SUCCESS,
   mkSQ (sq_ctx q) (mkSending (sb_end buffer) (u64 (unSend + len)) curr (sd_buffers s ++ [buffer]))
     (sq_mtu q) (id + 1)).

Definition SendQueueAddCloseOperation (q : SendQueue) : Z * Z :=
  let endStreamPos := sd_streamPos (sq_sending q) in
  (endStreamPos, if endStreamPos =? sc_ack (sq_ctx q) then BFX_RESULT_SUCCESS else BFX_RESULT_PENDING).

Definition find_buf (id : Z) (bufs : list SendBuffer) : option SendBuffer :=
  head (filter (λ b, sb_id b = id) bufs).

(** [BfxListNext] from the buffer [id]. *)
Fixpoint next_buf (id : Z) (bufs : list SendBuffer) : option Z :=
  match bufs with
  | [] => None
  | b :: bufs' => if decide (sb_id b = id) then sb_id <$> head bufs' else next_buf id bufs'
  end.

Definition set_offset (id off : Z) (bufs : list SendBuffer) : list SendBuffer :=
  (λ b, if decide (sb_id b = id)
        then mkSB (sb_id b) (sb_data b) (sb_len b) (sb_start b) off (sb_end b) (sb_callback b)
        else b) <$> bufs.

(** [None] is a failed assertion or a null [curr]. *)
Definition SendQueueGenerateBlock (s : SendingBuffers) (len : Z)
    : option (option SendBlock * SendingBuffers) :=
  if sd_unSend s =? 0 then Some (None, s) else
  id ← sd_curr s;
  cur ← find_buf id (sd_buffers s);
  let leftLen := u64 (sb_end cur - sb_offset cur) in
  if leftLen =? 0 then None else
  let data := sb_data cur + (sb_len cur - leftLen) in
  if leftLen <=? len then
    let block := mkBlk (sb_offset cur) (sb_end cur) 0 data in
    Some (Some block,
          mkSending (sd_streamPos s) (u64 (sd_unSend s - bk_len block))
            (next_buf id (sd_buffers s)) (set_offset id (sb_end cur) (sd_buffers s)))
  else
    let block := mkBlk (sb_offset cur) (u64 (sb_offset cur + len)) 0 data in
    Some (Some block,
          mkSending (sd_streamPos s) (u64 (sd_unSend s - bk_len block))
            (sd_curr s) (set_offset id (u64 (sb_offset cur + len)) (sd_buffers s))).

(** The loop of [SendQueuePopCompleteBuffers].  [out] is the address of the
    caller's list: a buffer pushed at its back has that address as successor,
    which is what [BfxListNext] on the queue's own list answers for a buffer
    that was moved. *)
Fixpoint pop_complete (ack out : Z) (curr : option Z) (bufs : list SendBuffer)
    : list SendBuffer * option Z * list SendBuffer :=
  match bufs with
  | [] => ([], curr, [])
  | b :: bufs' =>
      if sb_end b >? ack then ([], curr, bufs) else
      let curr := if decide (curr = Some (sb_id b)) then Some out else curr in
      let '(popped, curr, rest) := pop_complete ack out curr bufs' in
      (b :: popped, curr, rest)
  end.

Definition SendQueuePopCompleteBuffers (q : SendQueue) (ackStreamPos out : Z) (buffers : list SendBuffer)
    : list SendBuffer * SendQueue :=
  let s := sq_sending q in
  let '(popped, curr, rest) := pop_complete ackStreamPos out (sd_curr s) (sd_buffers s) in
  (buffers ++ popped,
   mkSQ (sq_ctx q) (mkSending (sd_streamPos s) (sd_unSend s) curr rest) (sq_mtu q) (sq_fresh q)).

Definition SendQueuePopAllBuffers (q : SendQueue) (buffers : list SendBuffer)
    : list SendBuffer * SendQueue :=
  let s := sq_sending q in
  (sd_buffers s,
   mkSQ (sq_ctx q) (mkSending (sd_streamPos s) (sd_unSend s) (sd_curr s) buffers) (sq_mtu q) (sq_fresh q)).

(** ** Sending blocks *)

(** Inserts a block before the first one that starts after it. *)
Fixpoint SendQueueMoveLostToFlight (flights : list SendBlock) (lostBlock : SendBlock) : list SendBlock :=
  match flights with
  | [] => [lostBlock]
  | b :: flights' =>
      if bk_start lostBlock <? bk_start b then lostBlock :: flights
      else b :: SendQueueMoveLostToFlight flights' lostBlock
  end.

Definition stamp (b : SendBlock) (now : Z) : SendBlock :=
  mkBlk (bk_start b) (bk_end b) now (bk_data b).

(** A package to send: the position, the address of the payload (0 is null)
    and its length. *)
Record Payload := mkPayload { pl_pos : Z; pl_data : Z; pl_len : Z }.

(** The common part of the three [FillPayload] functions for a lost block. *)
Definition resend (c : SendContext) (block : SendBlock) (losts : list SendBlock) (now : Z)
    : Payload * SendContext :=
  let block' := stamp block now in
  (mkPayload (bk_start block) (bk_data block) (u16 (bk_len block)),
   set_lists c (SendQueueMoveLostToFlight (sc_flightBlocks c) block')
     (u32 (sc_flight c + bk_len block)) losts (u64 (sc_lost c - bk_len block))).

(** ... and for a new block. *)
Definition send_new (c : SendContext) (block : SendBlock) (now : Z) : Payload * SendContext :=
  let len := u16 (bk_len block) in
  (mkPayload (bk_start block) (bk_data block) len,
   set_pos (set_lists c (sc_flightBlocks c ++ [stamp block now]) (u32 (sc_flight c + bk_len block))
              (sc_lostBlocks c) (sc_lost c))
     (u64 (sc_streamPos c + len))).

Definition set_ctx (q : SendQueue) (c : SendContext) (s : SendingBuffers) : SendQueue :=
  mkSQ c s (sq_mtu q) (sq_fresh q).

Definition SendQueueFillPayload (q : SendQueue) (now : Z) : option (Z * Payload * SendQueue) :=
  let c := sq_ctx q in
  match sc_lostBlocks c with
  | [] =>
      '(block, s) ← SendQueueGenerateBlock (sq_sending q) (sq_mtu q);
      match block with
      | Some block =>
          let '(p, c) := send_new c block now in Some (BFX_RESULT_SUCCESS, p, set_ctx q c s)
      | None => Some (BFX_RESULT_NOT_CHANGED, mkPayload (sc_streamPos c) 0 0, set_ctx q c s)
      end
  | block :: losts =>
      let '(p, c) := resend c block losts now in Some (BFX_RESULT_SUCCESS, p, set_ctx q c (sq_sending q))
  end.

(** The payload is [None] where the out parameters are left alone. *)
Definition SendQueueFillPayloadFromOld (q : SendQueue) (inLength now : Z)
    : Z * option Payload * SendQueue :=
  let c := sq_ctx q in
  match sc_lostBlocks c with
  | [] => (BFX_RESULT_NOT_FOUND, None, q)
  | block :: losts =>
      if u16 (bk_len block) <=? inLength then
        let '(p, c) := resend c block losts now in (BFX_RESULT_SUCCESS, Some p, set_ctx q c (sq_sending q))
      else (BFX_RESULT_NOT_ENOUGH_BUFFER, None, q)
  end.

(** [inLength] is 0 where the caller passes no payload pointer. *)
Definition SendQueueFillPayloadFromNew (q : SendQueue) (inLength now : Z)
    : option (Z * Payload * SendQueue) :=
  let c := sq_ctx q in
  if inLength =? 0 then Some (BFX_RESULT_NO_MORE_DATA, mkPayload (sc_streamPos c) 0 0, q) else
  '(block, s) ← SendQueueGenerateBlock (sq_sending q) inLength;
  match block with
  | Some block =>
      let '(p, c) := send_new c block now in Some (BFX_RESULT_SUCCESS, p, set_ctx q c s)
  | None => Some (BFX_RESULT_NO_MORE_DATA, mkPayload (sc_streamPos c) 0 0, set_ctx q c s)
  end.

(** ** Confirmation *)

(** [sackArray], up to the entry of length 0 that ends it. *)
Fixpoint check_sacks (block : SendBlock) (sacks : list BdtStreamRange) : SendBlockCheckState :=
  match sacks with
  | [] => SEND_BLOCK_CHECK_STATE_OUT_OF_RANGE
  | r :: sacks' =>
      if sr_length r =? 0 then SEND_BLOCK_CHECK_STATE_OUT_OF_RANGE
      else if bk_end block <=? sr_pos r then SEND_BLOCK_CHECK_STATE_PREV
      else if (bk_start block >=? sr_pos r) && (bk_end block <=? sr_pos r + sr_length r)
      then SEND_BLOCK_CHECK_STATE_ACK
      else check_sacks block sacks'
  end.

(** [!sackArray || !sackArray[0].length] *)
Definition no_sack (sacks : option (list BdtStreamRange)) : bool :=
  match sacks with
  | None => true
  | Some [] => true
  | Some (r :: _) => sr_length r =? 0
  end.

Definition CheckBlockStateByAck (block : SendBlock) (ackStreamPos : Z)
    (sackArray : option (list BdtStreamRange)) : SendBlockCheckState :=
  if bk_end block <=? ackStreamPos then SEND_BLOCK_CHECK_STATE_ACK
  else if bk_start block <? ackStreamPos then SEND_BLOCK_CHECK_STATE_LOST
  else if no_sack sackArray then SEND_BLOCK_CHECK_STATE_OUT_OF_RANGE
  else check_sacks block (default [] sackArray).

(** The counting of duplicate acknowledgements. *)
Definition count_dup_ack (c : SendContext) (ackStreamPos : Z) : SendContext :=
  if sc_prevDupAck c <? ackStreamPos then
    if sc_latestAck c <? ackStreamPos then
      set_acks c (sc_ack c) ackStreamPos (sc_prevDupAck c) 1
    else if sc_latestAck c =? ackStreamPos then
      set_acks c (sc_ack c) (sc_latestAck c) (sc_prevDupAck c) (u8 (sc_dupAckTimes c + 1))
    else c
  else c.

(** The state of the block at hand, and the context with the duplicate count
    reset when it fires. *)
Definition block_state (c : SendContext) (block : SendBlock) (sackArray : option (list BdtStreamRange))
    : SendBlockCheckState * SendContext :=
  if (bk_start block =? sc_latestAck c) && (sc_dupAckTimes c =? 4) then
    (SEND_BLOCK_CHECK_STATE_LOST, set_acks c (sc_ack c) 0 (sc_latestAck c) 0)
  else (CheckBlockStateByAck block (sc_ack c) sackArray, c).

(** What the loop does with a block taken from the flight ([bFlight]) or the
    lost blocks; [None] leaves the loop. *)
Definition confirm_block (c : SendContext) (acked : Z) (block : SendBlock) (bFlight : bool)
    (state : SendBlockCheckState) : option (SendContext * Z) :=
  match state with
  | SEND_BLOCK_CHECK_STATE_OUT_OF_RANGE => None
  | SEND_BLOCK_CHECK_STATE_ACK =>
      Some (if bFlight
            then set_lists c (sc_flightBlocks c) (u32 (sc_flight c - bk_len block)) (sc_lostBlocks c) (sc_lost c)
            else set_lists c (sc_flightBlocks c) (sc_flight c) (sc_lostBlocks c) (u64 (sc_lost c - bk_len block)),
            u32 (acked + bk_len block))
  | SEND_BLOCK_CHECK_STATE_PREV =>
      Some (if bFlight
            then set_lists c (sc_flightBlocks c ++ [block]) (sc_flight c) (sc_lostBlocks c) (sc_lost c)
            else set_lists c (sc_flightBlocks c) (sc_flight c) (sc_lostBlocks c ++ [block]) (sc_lost c),
            acked)
  | SEND_BLOCK_CHECK_STATE_LOST =>
      Some (if bFlight
            then set_lists c (sc_flightBlocks c) (u32 (sc_flight c - bk_len block))
                   (sc_lostBlocks c ++ [block]) (u64 (sc_lost c + bk_len block))
            else set_lists c (sc_flightBlocks c) (sc_flight c) (sc_lostBlocks c ++ [block]) (sc_lost c),
            acked)
  end.

(** The loop of [SendQueueConfirmRange]: the two local lists [fs] and [ls]
    include the blocks held in [flightBlock] and [lostBlock], which the code
    pushes back before it merges the rest; every round removes a block, so the
    number of blocks bounds the rounds. *)
Fixpoint confirm_loop (fuel : nat) (c : SendContext) (acked : Z) (sackArray : option (list BdtStreamRange))
    (fs ls : list SendBlock) : option (SendContext * Z) :=
  let done c := Some (set_lists c (sc_flightBlocks c ++ fs) (sc_flight c)
                        (sc_lostBlocks c ++ ls) (sc_lost c), acked) in
  match fuel with
  | O => None
  | S fuel =>
      let take_flight f fs' :=
        let '(state, c) := block_state c f sackArray in
        match confirm_block c acked f true state with
        | None => done c
        | Some (c, acked) => confirm_loop fuel c acked sackArray fs' ls
        end in
      let take_lost l ls' :=
        let '(state, c) := block_state c l sackArray in
        match confirm_block c acked l false state with
        | None => done c
        | Some (c, acked) => confirm_loop fuel c acked sackArray fs ls'
        end in
      match fs, ls with
      | [], [] => done c
      | f :: fs', [] => take_flight f fs'
      | [], l :: ls' => take_lost l ls'
      | f :: fs', l :: ls' =>
          if bk_start f <? bk_start l then take_flight f fs' else take_lost l ls'
      end
  end.

Definition SendQueueConfirmRange (q : SendQueue) (ackStreamPos : Z)
    (sackArray : option (list BdtStreamRange)) : option (Z * Z * SendQueue) :=
  let c := sq_ctx q in
  if (ackStreamPos <? sc_ack c) && no_sack sackArray then Some (BFX_RESULT_NOT_CHANGED, 0, q) else
  let c := count_dup_ack c ackStreamPos in
  let c := if sc_ack c <? ackStreamPos
           then set_acks c ackStreamPos (sc_latestAck c) (sc_prevDupAck c) (sc_dupAckTimes c) else c in
  let fs := sc_flightBlocks c in
  let ls := sc_lostBlocks c in
  '(c, acked) ← confirm_loop (S (length fs + length ls)) (set_lists c [] (sc_flight c) [] (sc_lost c))
                  0 sackArray fs ls;
  Some (if acked =? 0 then BFX_RESULT_NOT_CHANGED else BFX_RESULT_SUCCESS, acked,
        set_ctx q c (sq_sending q)).

(** ** Timeouts *)

Fixpoint skip_before (e : Z) (rpre suf : list SendBlock) : list SendBlock * list SendBlock :=
  match suf with
  | [] => (rpre, [])
  | b :: suf' => if e <=? bk_start b then (rpre, suf) else skip_before e (b :: rpre) suf'
  end.

(** The lost blocks before [blockQueue], nearest first, and from it on. *)
Fixpoint move_loop (rpre suf blocks : list SendBlock) : list SendBlock :=
  match blocks with
  | [] => reverse rpre ++ suf
  | b :: blocks' =>
      let '(rpre, suf) := skip_before (bk_end b) rpre suf in move_loop (b :: rpre) suf blocks'
  end.

Definition MoveFlightToLost (losts blocks : list SendBlock) : list SendBlock := move_loop [] losts blocks.

Definition timed_out (force : bool) (now rto : Z) (b : SendBlock) : bool :=
  force || (u64 (now - bk_time b) >? rto).

Definition total_len (bs : list SendBlock) : Z := foldr (λ b n, bk_len b + n) 0 bs.

(** [None] is the failed assertion on [flight]. *)
Definition SendQueueMarkRangeTimeout (q : SendQueue) (force : bool) (now rto : Z)
    : option (Z * SendQueue) :=
  let c := sq_ctx q in
  let out := filter (λ b, timed_out force now rto b = true) (sc_flightBlocks c) in
  let kept := filter (λ b, timed_out force now rto b = false) (sc_flightBlocks c) in
  let totalTimeout := foldl (λ n b, u32 (n + bk_len b)) 0 out in
  if totalTimeout >? 0 then
    if sc_flight c <? totalTimeout then None else
    Some (totalTimeout,
          set_ctx q (set_lists c kept (u32 (sc_flight c - totalTimeout))
                       (MoveFlightToLost (sc_lostBlocks c) out) (u64 (sc_lost c + totalTimeout)))
            (sq_sending q))
  else Some (totalTimeout, set_ctx q (set_lists c kept (sc_flight c) (sc_lostBlocks c) (sc_lost c)) (sq_sending q)).

Definition SendQueueGetFilght (q : SendQueue) : Z := sc_flight (sq_ctx q).
Definition SendQueueGetUnsendSize (q : SendQueue) : Z := sd_unSend (sq_sending q).
Definition SendQueueGetLostSize (q : SendQueue) : Z := sc_lost (sq_ctx q).

(** ** Closing *)

(** [SendQueueOnClose]: every buffer is handed back with
    [BFX_RESULT_INVALID_STATE] and no data, and the blocks are dropped. *)
Definition SendQueueOnClose (q : SendQueue) : list (Z * Z * Z * Z) * SendQueue :=
  let c := sq_ctx q in
  let s := sq_sending q in
  ((λ b, (sb_callback b, BFX_RESULT_INVALID_STATE, sb_data b, 0)) <$> sd_buffers s,
   set_ctx q (set_lists c [] (sc_flight c) [] (sc_lost c))
     (mkSending (sd_streamPos s) (sd_unSend s) (sd_curr s) [])).

(** ** The cache of units *)

(** [sizeof(BdtSendCacheUnit)] on a 64-bit platform: two links and a length. *)
Definition sizeof_unit : Z := 24.

Record BdtSendCache := mkCache {
  cache_data : Z; cache_free : list Z; cache_use : list Z; cache_unitSize : Z }.

(** [data] is what [BfxMalloc] returns. *)
Definition BdtSendCacheInit (maxsize mtu data : Z) : BdtSendCache :=
  let count := if maxsize / mtu =? 0 then 1 else maxsize / mtu in
  mkCache data ((λ i, data + Z.of_nat i * (sizeof_unit + mtu)) <$> seq 0 (Z.to_nat count)) [] mtu.

Definition BdtSendCacheNewUnit (cache : BdtSendCache) : option Z * BdtSendCache :=
  match cache_free cache with
  | [] => (None, cache)
  | item :: free =>
      (Some item, mkCache (cache_data cache) free (cache_use cache ++ [item]) (cache_unitSize cache))
  end.

(** [None]: the unit is not in use, which [BfxListErase] asserts. *)
Definition BdtSendCacheDeleteUnit (cache : BdtSendCache) (unit : Z) : option BdtSendCache :=
  if decide (unit ∈ cache_use cache) then
    Some (mkCache (cache_data cache) (cache_free cache ++ [unit])
            (filter (.≠ unit) (cache_use cache)) (cache_unitSize cache))
  else None.

Definition BdtSendCacheUnitFromData (data : Z) : Z := data - sizeof_unit.
Definition BdtSendCacheUnitToData (unit : Z) : Z := unit + sizeof_unit.
