(* ===== verification/SendProofs.v ===== *)
(** * Correctness of the send queue

    The invariant of [SendQueue]'s two records, that every operation keeps it,
    and what each operation does: the confirmation loop removes exactly
    acknowledged blocks, nothing sent is forgotten, a block's data pointer
    stays inside a live buffer of the application. *)

From S2P Require Import Prelude CInt RecvQueue SendQueue.

(** ** Ordered lists of blocks *)

Definition before (a b : SendBlock) : Prop := bk_end a ≤ bk_start b.

Definition ordered (xs ys : list SendBlock) : Prop := ∀ x y, x ∈ xs → y ∈ ys → before x y.

Fixpoint asc (bs : list SendBlock) : Prop :=
  match bs with [] => True | b :: bs => (∀ y, y ∈ bs → before b y) ∧ asc bs end.

Definition apart (xs ys : list SendBlock) : Prop :=
  ∀ x y, x ∈ xs → y ∈ ys → before x y ∨ before y x.

Definition nonempty (bs : list SendBlock) : Prop := ∀ b, b ∈ bs → bk_start b < bk_end b.

Lemma asc_app xs ys : asc (xs ++ ys) ↔ asc xs ∧ asc ys ∧ ordered xs ys.
Proof.
  induction xs as [|x xs IH]; simpl.
  - split; [|tauto]. intros H. split_and!; try done. intros ? ? Hx. by apply elem_of_nil in Hx.
  - rewrite IH. unfold ordered. setoid_rewrite elem_of_app. setoid_rewrite elem_of_cons. split.
    + intros (H1 & H2 & H3 & H4). split_and!; try done; [by auto|].
      intros a b [->|Ha] Hb; auto.
    + intros ((H1 & H2) & H3 & H4). split_and!; try done; [|by auto].
      intros y [?|?]; auto.
Qed.

Lemma asc_snoc xs b : asc xs → (∀ x, x ∈ xs → before x b) → asc (xs ++ [b]).
Proof.
  intros Ha Hb. apply asc_app. split_and!; [done| |].
  - split; [|done]. intros y Hy. by apply elem_of_nil in Hy.
  - intros x y Hx ->%list_elem_of_singleton. auto.
Qed.

Lemma total_len_app xs ys : total_len (xs ++ ys) = total_len xs + total_len ys.
Proof. unfold total_len. induction xs as [|x xs IH]; simpl; [done|]. lia. Qed.
Lemma total_len_cons b bs : total_len (b :: bs) = bk_len b + total_len bs.
Proof. done. Qed.
Lemma total_len_perm xs ys : xs ≡ₚ ys → total_len xs = total_len ys.
Proof. unfold total_len. induction 1; simpl; lia. Qed.

(** Blocks being processed in order: [F] and [L] are done, [fs] and [ls] are to
    do, everything done precedes everything to do. *)
Record pool (F L fs ls : list SendBlock) : Prop := {
  po_F : asc F; po_L : asc L; po_fs : asc fs; po_ls : asc ls;
  po_done : apart F L; po_todo : apart fs ls;
  po_order : ordered (F ++ L) (fs ++ ls);
  po_ne : nonempty ((F ++ L) ++ (fs ++ ls))
}.

Lemma pool_swap F L fs ls : pool F L fs ls → pool L F ls fs.
Proof.
  intros [? ? ? ? Hd Ht Ho Hn]. split; try done.
  - intros x y ? ?. destruct (Hd y x); tauto.
  - intros x y ? ?. destruct (Ht y x); tauto.
  - intros x y. rewrite !elem_of_app. intros Hx Hy. apply Ho; rewrite elem_of_app; tauto.
  - intros b. rewrite !elem_of_app. intros Hb. apply Hn. rewrite !elem_of_app. tauto.
Qed.

(** The next block to do. *)
Definition first_of (f : SendBlock) (fs ls : list SendBlock) : Prop :=
  ∀ y, y ∈ fs ++ ls → before f y.

Lemma first_of_comm f fs ls : first_of f fs ls → first_of f ls fs.
Proof. intros H y. rewrite elem_of_app. intros Hy. apply H. rewrite elem_of_app. tauto. Qed.

Lemma pool_first F L f fs ls :
  pool F L (f :: fs) ls → (match ls with l :: _ => bk_start f ≤ bk_start l | [] => True end) →
  first_of f fs ls.
Proof.
  intros [_ _ [Hf _] Hls _ Ht _ Hn] Hl y [Hy|Hy]%elem_of_app; [by apply Hf|].
  destruct ls as [|l ls]; [by apply elem_of_nil in Hy|].
  assert (Hfl : before f l).
  { destruct (Ht f l) as [?|H]; [by left|by left|done|]. unfold before in *.
    assert (bk_start l < bk_end l) by (apply Hn; rewrite !elem_of_app; right; right; by left). lia. }
  apply elem_of_cons in Hy as [->|Hy]; [done|]. destruct Hls as [Hls _]. specialize (Hls y Hy).
  assert (bk_start l < bk_end l) by (apply Hn; rewrite !elem_of_app; right; right; by left).
  unfold before in *. lia.
Qed.

Lemma pool_drop F L f fs ls : pool F L (f :: fs) ls → pool F L fs ls.
Proof.
  intros [? ? [? ?] ? ? Ht Ho Hn]. split; try done.
  - intros x y Hx Hy. apply Ht; [by right|done].
  - intros x y Hx Hy. apply Ho; [done|]. rewrite elem_of_app in *. rewrite elem_of_cons. tauto.
  - intros b Hb. apply Hn. rewrite !elem_of_app in *. rewrite elem_of_cons. tauto.
Qed.

Lemma pool_push F L f fs ls :
  pool F L (f :: fs) ls → first_of f fs ls → pool (F ++ [f]) L fs ls.
Proof.
  intros Hp Hf. pose proof (pool_drop _ _ _ _ _ Hp) as Hp'.
  destruct Hp as [? ? _ ? ? Ht Ho Hn], Hp' as [_ _ ? _ _ ? Ho' _].
  assert (Hxf : ∀ x, x ∈ F ++ L → before x f).
  { intros x Hx. apply Ho; [done|]. rewrite elem_of_app. left. by left. }
  split; try done.
  - apply asc_snoc; [done|]. intros x Hx. apply Hxf. rewrite elem_of_app. by left.
  - intros x y [Hx| ->%list_elem_of_singleton]%elem_of_app Hy; [auto|].
    right. apply Hxf. rewrite elem_of_app. by right.
  - intros x y Hx Hy. rewrite !elem_of_app, list_elem_of_singleton in Hx.
    destruct Hx as [[Hx| ->]|Hx]; [|by apply Hf|]; apply Ho'; rewrite ?elem_of_app in *; tauto.
  - intros b Hb. apply Hn. rewrite !elem_of_app, list_elem_of_singleton in *.
    rewrite elem_of_cons. tauto.
Qed.

Lemma pool_push_other F L f fs ls :
  pool F L (f :: fs) ls → first_of f fs ls → pool F (L ++ [f]) fs ls.
Proof.
  intros Hp Hf. pose proof (pool_drop _ _ _ _ _ Hp) as Hp'.
  destruct Hp as [? ? _ ? ? Ht Ho Hn], Hp' as [_ _ ? _ _ ? Ho' _].
  assert (Hxf : ∀ x, x ∈ F ++ L → before x f).
  { intros x Hx. apply Ho; [done|]. rewrite elem_of_app. left. by left. }
  split; try done.
  - apply asc_snoc; [done|]. intros x Hx. apply Hxf. rewrite elem_of_app. by right.
  - intros x y Hx [Hy| ->%list_elem_of_singleton]%elem_of_app; [auto|].
    left. apply Hxf. rewrite elem_of_app. by left.
  - intros x y Hx Hy. rewrite !elem_of_app, list_elem_of_singleton in Hx.
    destruct Hx as [Hx|[Hx| ->]]; [| |by apply Hf]; apply Ho'; rewrite ?elem_of_app in *; tauto.
  - intros b Hb. apply Hn. rewrite !elem_of_app, list_elem_of_singleton in *.
    rewrite elem_of_cons. tauto.
Qed.

(** Putting the rest back leaves two ascending lists apart from each other. *)
Lemma pool_close F L fs ls :
  pool F L fs ls → asc (F ++ fs) ∧ asc (L ++ ls) ∧ apart (F ++ fs) (L ++ ls).
Proof.
  intros [? ? ? ? Hd Ht Ho _]. split_and!.
  - apply asc_app. split_and!; try done. intros x y ? ?. apply Ho; rewrite elem_of_app; by left.
  - apply asc_app. split_and!; try done. intros x y ? ?. apply Ho; rewrite elem_of_app; by right.
  - intros x y. rewrite !elem_of_app. intros [?|?] [?|?]; [by apply Hd| | |by apply Ht].
    + left. apply Ho; rewrite elem_of_app; tauto.
    + right. apply Ho; rewrite elem_of_app; tauto.
Qed.

Lemma pool_open fs ls :
  asc fs → asc ls → apart fs ls → nonempty (fs ++ ls) → pool [] [] fs ls.
Proof.
  intros ? ? ? ?. split; try done.
  - intros x y Hx. by apply elem_of_nil in Hx.
  - intros x y Hx. by apply elem_of_nil in Hx.
Qed.

Lemma pool_closed F L : asc F → asc L → apart F L → nonempty (F ++ L) → pool F L [] [].
Proof.
  intros ? ? ? Hn. split; try done.
  - intros x y Hx. by apply elem_of_nil in Hx.
  - intros x y _ Hy. by apply elem_of_nil in Hy.
  - by rewrite app_nil_r.
Qed.

(** ** The confirmation loop *)

Definition sacked_by (sacks : list BdtStreamRange) (b : SendBlock) : Prop :=
  ∃ r, r ∈ sacks ∧ sr_length r ≠ 0 ∧ sr_pos r ≤ bk_start b ∧ bk_end b ≤ sr_pos r + sr_length r.

Definition acked_by (ack : Z) (sacks : option (list BdtStreamRange)) (b : SendBlock) : Prop :=
  bk_end b ≤ ack ∨ sacked_by (default [] sacks) b.

Lemma check_sacks_ack b sacks :
  check_sacks b sacks = SEND_BLOCK_CHECK_STATE_ACK → sacked_by sacks b.
Proof.
  induction sacks as [|r sacks IH]; simpl; [done|].
  destruct (Z.eqb_spec (sr_length r) 0); [done|]. destruct (Z.leb_spec (bk_end b) (sr_pos r)); [done|].
  destruct ((_ >=? _) && _) eqn:E.
  - intros _. exists r. split; [by left|]. lia.
  - intros H'. destruct (IH H') as (r' & ? & ?). exists r'. split; [by right|done].
Qed.

Lemma check_sacks_lost b sacks : check_sacks b sacks ≠ SEND_BLOCK_CHECK_STATE_LOST.
Proof. induction sacks as [|r sacks IH]; simpl; [done|]. by repeat case_match. Qed.

Lemma CheckBlockStateByAck_spec b ack sacks :
  match CheckBlockStateByAck b ack sacks with
  | SEND_BLOCK_CHECK_STATE_ACK => acked_by ack sacks b
  | SEND_BLOCK_CHECK_STATE_LOST => bk_start b < ack < bk_end b
  | _ => ack < bk_end b ∧ ack ≤ bk_start b
  end.
Proof.
  unfold CheckBlockStateByAck. destruct (Z.leb_spec (bk_end b) ack); [by left|].
  destruct (Z.ltb_spec (bk_start b) ack); [lia|]. destruct (no_sack sacks); [lia|].
  destruct (check_sacks _ _) eqn:E; try lia.
  - by apply check_sacks_lost in E.
  - right. by apply check_sacks_ack.
Qed.

(** Two contexts that differ in their lists, sums and duplicate counts only. *)
Definition same_pos (c c' : SendContext) : Prop :=
  sc_ack c' = sc_ack c ∧ sc_streamPos c' = sc_streamPos c.

Record conf_inv (c : SendContext) (fs ls : list SendBlock) : Prop := {
  ci_pool : pool (sc_flightBlocks c) (sc_lostBlocks c) fs ls;
  ci_flight : sc_flight c = u32 (total_len (sc_flightBlocks c ++ fs));
  ci_lost : sc_lost c = u64 (total_len (sc_lostBlocks c ++ ls));
  ci_live : ∀ b, b ∈ sc_flightBlocks c ++ sc_lostBlocks c → sc_ack c < bk_end b;
  ci_dup : sc_dupAckTimes c = 4 → ∀ b, b ∈ fs ++ ls → sc_ack c < bk_end b;
  ci_latest : 0 ≤ sc_latestAck c ≤ sc_ack c ∧ 0 ≤ sc_prevDupAck c ≤ sc_ack c
}.

Lemma block_state_spec c b sacks fs ls st c' :
  conf_inv c fs ls → b ∈ fs ++ ls → block_state c b sacks = (st, c') →
  conf_inv c' fs ls ∧ same_pos c c' ∧
  (sc_flightBlocks c', sc_lostBlocks c') = (sc_flightBlocks c, sc_lostBlocks c) ∧
  match st with
  | SEND_BLOCK_CHECK_STATE_ACK => acked_by (sc_ack c) sacks b
  | _ => sc_ack c < bk_end b
  end.
Proof.
  intros [Hp Hf Hl Hlive Hdup Hlat] Hb. unfold block_state.
  destruct (_ && _) eqn:E; intros [= <- <-].
  - apply andb_true_iff in E as [_ E%Z.eqb_eq]. split; [|split_and!; try done; by apply Hdup].
    split; try done. simpl. lia.
  - pose proof (CheckBlockStateByAck_spec b (sc_ack c) sacks) as H.
    split; [by split|]. split; [done|]. split; [done|].
    destruct (CheckBlockStateByAck _ _ _); lia || done.
Qed.

Lemma u32_minus a b : u32 (u32 (a + b) - a) = u32 b.
Proof. rewrite u32_sub_l. f_equal. lia. Qed.
Lemma u64_minus a b : u64 (u64 (a + b) - a) = u64 b.
Proof. rewrite u64_sub_l. f_equal. lia. Qed.

(** A round on the block [b], taken from the flight or from the lost blocks. *)
Definition with_flight (bFlight : bool) (b : SendBlock) (fs : list SendBlock) : list SendBlock :=
  if bFlight then b :: fs else fs.
Definition with_lost (bFlight : bool) (b : SendBlock) (ls : list SendBlock) : list SendBlock :=
  if bFlight then ls else b :: ls.

Lemma live_snoc c b :
  (∀ x, x ∈ sc_flightBlocks c ++ sc_lostBlocks c → sc_ack c < bk_end x) → sc_ack c < bk_end b →
  (∀ x, x ∈ (sc_flightBlocks c ++ [b]) ++ sc_lostBlocks c → sc_ack c < bk_end x) ∧
  (∀ x, x ∈ sc_flightBlocks c ++ (sc_lostBlocks c ++ [b]) → sc_ack c < bk_end x).
Proof.
  intros H Hb. setoid_rewrite elem_of_app in H.
  split; intros x; rewrite !elem_of_app, list_elem_of_singleton.
  - intros [[?| ->]|?]; auto.
  - intros [?|[?| ->]]; auto.
Qed.

Lemma push_left (b : SendBlock) xs ys : (xs ++ [b]) ++ ys ≡ₚ b :: xs ++ ys.
Proof. rewrite <- app_assoc. symmetry. apply Permutation_middle. Qed.
Lemma push_right (b : SendBlock) xs ys : xs ++ (ys ++ [b]) ≡ₚ b :: xs ++ ys.
Proof. rewrite app_assoc. symmetry. apply Permutation_cons_append. Qed.

(** Sums after a block changed its list; the lists after a push. *)
Ltac solve_sum :=
  repeat match goal with H : sc_flight _ = _ |- _ => rewrite H | H : sc_lost _ = _ |- _ => rewrite H end;
  rewrite ?u32_sub_l, ?u64_sub_l, ?u64_add_l; f_equal; rewrite ?total_len_app, ?total_len_cons;
  unfold bk_len, total_len; simpl; lia.
Ltac solve_push := first [done | apply push_left | apply push_right].

Lemma confirm_block_spec c acked b (bFlight : bool) fs ls st :
  conf_inv c (with_flight bFlight b fs) (with_lost bFlight b ls) → first_of b fs ls →
  match st with
  | SEND_BLOCK_CHECK_STATE_ACK => True
  | _ => sc_ack c < bk_end b
  end →
  match confirm_block c acked b bFlight st with
  | None => st = SEND_BLOCK_CHECK_STATE_OUT_OF_RANGE
  | Some (c', acked') => conf_inv c' fs ls ∧ same_pos c c' ∧
      if decide (st = SEND_BLOCK_CHECK_STATE_ACK)
      then acked' = u32 (acked + bk_len b) ∧
           sc_flightBlocks c' ++ sc_lostBlocks c' = sc_flightBlocks c ++ sc_lostBlocks c
      else acked' = acked ∧
           sc_flightBlocks c' ++ sc_lostBlocks c' ≡ₚ b :: sc_flightBlocks c ++ sc_lostBlocks c
  end.
Proof.
  intros [Hp Hf Hl Hlive Hdup Hlat] Hfirst Hst.
  assert (Hdup' : sc_dupAckTimes c = 4 → ∀ y, y ∈ fs ++ ls → sc_ack c < bk_end y).
  { intros H4 y Hy. apply Hdup; [done|]. destruct bFlight; simpl; [by right|].
    rewrite elem_of_app, elem_of_cons in *. tauto. }
  pose proof (live_snoc c b Hlive) as Hlive'.
  destruct bFlight; cbn [with_flight with_lost] in *.
  - pose proof (pool_drop _ _ _ _ _ Hp). pose proof (pool_push _ _ _ _ _ Hp Hfirst).
    pose proof (pool_push_other _ _ _ _ _ Hp Hfirst).
    destruct st; cbn [confirm_block]; [| | |done];
      (split; [split; cbn|split; [done|split; [done|cbn; solve_push]]]); try done; try solve_sum; try naive_solver.
  - apply pool_swap in Hp.
    assert (Hfirst' : first_of b ls fs) by (intros y; rewrite elem_of_app; intros Hy; apply Hfirst; rewrite elem_of_app; tauto).
    pose proof (pool_swap _ _ _ _ (pool_drop _ _ _ _ _ Hp)).
    pose proof (pool_swap _ _ _ _ (pool_push _ _ _ _ _ Hp Hfirst')).
    destruct st; cbn [confirm_block]; [| | |done];
      (split; [split; cbn|split; [done|split; [done|cbn; solve_push]]]); try done; try solve_sum; try naive_solver.
Qed.

(** What the whole loop leaves: [gone] are the blocks it freed. *)
Record conf_post (c c' : SendContext) (acked acked' : Z) (sacks : option (list BdtStreamRange))
    (fs ls gone : list SendBlock) : Prop := {
  cp_lists : (sc_flightBlocks c ++ sc_lostBlocks c) ++ (fs ++ ls) ≡ₚ
             gone ++ (sc_flightBlocks c' ++ sc_lostBlocks c');
  cp_gone : Forall (acked_by (sc_ack c) sacks) gone;
  cp_acked : acked = u32 acked → acked' = u32 (acked + total_len gone);
  cp_pos : same_pos c c';
  cp_inv : conf_inv c' [] []
}.

Lemma conf_inv_close c fs ls :
  conf_inv c fs ls → (∀ y, y ∈ fs ++ ls → sc_ack c < bk_end y) →
  conf_inv (set_lists c (sc_flightBlocks c ++ fs) (sc_flight c) (sc_lostBlocks c ++ ls) (sc_lost c)) [] [].
Proof.
  intros [Hp Hf Hl Hlive Hdup Hlat] Hall. destruct (pool_close _ _ _ _ Hp) as (HF & HL & Hd).
  split; simpl; rewrite ?app_nil_r; try done.
  - apply pool_closed; try done. intros x Hx. apply (po_ne _ _ _ _ Hp). rewrite !elem_of_app in *. tauto.
  - intros b. rewrite !elem_of_app. intros Hb.
    destruct Hb as [[Hb|Hb]|[Hb|Hb]];
      [apply Hlive|apply Hall|apply Hlive|apply Hall]; rewrite elem_of_app; tauto.
  - intros _ b Hb. by apply elem_of_nil in Hb.
Qed.

Lemma conf_post_done c acked sacks fs ls :
  conf_inv c fs ls → (∀ y, y ∈ fs ++ ls → sc_ack c < bk_end y) →
  conf_post c (set_lists c (sc_flightBlocks c ++ fs) (sc_flight c) (sc_lostBlocks c ++ ls) (sc_lost c))
    acked acked sacks fs ls [].
Proof.
  intros Hi Hall. split; simpl; try done.
  - rewrite <- !app_assoc. apply Permutation_app_head. rewrite !app_assoc.
    apply Permutation_app_tail, Permutation_app_comm.
  - intros ->. rewrite u32_add_l. f_equal. unfold total_len. simpl. lia.
  - by apply conf_inv_close.
Qed.

(** Before the round on [b] come the rounds that follow it. *)
Lemma conf_post_step c c1 c2 c' acked acked2 acked' sacks (bFlight : bool) b fs ls gone st :
  same_pos c c1 → same_pos c1 c2 →
  (sc_flightBlocks c1, sc_lostBlocks c1) = (sc_flightBlocks c, sc_lostBlocks c) →
  match st with SEND_BLOCK_CHECK_STATE_ACK => acked_by (sc_ack c) sacks b | _ => True end →
  (if decide (st = SEND_BLOCK_CHECK_STATE_ACK)
   then acked2 = u32 (acked + bk_len b) ∧
        sc_flightBlocks c2 ++ sc_lostBlocks c2 = sc_flightBlocks c1 ++ sc_lostBlocks c1
   else acked2 = acked ∧
        sc_flightBlocks c2 ++ sc_lostBlocks c2 ≡ₚ b :: sc_flightBlocks c1 ++ sc_lostBlocks c1) →
  conf_post c2 c' acked2 acked' sacks fs ls gone →
  ∃ gone', conf_post c c' acked acked' sacks (with_flight bFlight b fs) (with_lost bFlight b ls) gone'.
Proof.
  intros [E1 E1'] [E2 E2'] [= EF EL] Hack Hd [Hl Hg Ha [Hp1 Hp2] Hi].
  assert (Hw : with_flight bFlight b fs ++ with_lost bFlight b ls ≡ₚ b :: fs ++ ls).
  { destruct bFlight; simpl; [done|]. symmetry. apply Permutation_middle. }
  rewrite EF, EL in Hd. rewrite E2, E1 in Hg. case_decide as Hst.
  - subst st. destruct Hd as [-> Hd]. exists (b :: gone). split; try done.
    + rewrite Hw, <- Permutation_middle. cbn. f_equiv. rewrite <- Hd. done.
    + by constructor.
    + intros _. rewrite Ha by (unfold u32; by rewrite Zmod_mod).
      rewrite u32_add_l, total_len_cons. f_equal. lia.
    + split; congruence.
  - destruct Hd as [-> Hd]. exists gone. split; try done.
    + rewrite Hw, <- Permutation_middle, <- Hl, Hd. done.
    + split; congruence.
Qed.

Lemma first_before_live c b fs ls (bFlight : bool) :
  first_of b fs ls → nonempty (with_flight bFlight b fs ++ with_lost bFlight b ls) →
  sc_ack c < bk_end b →
  ∀ y, y ∈ with_flight bFlight b fs ++ with_lost bFlight b ls → sc_ack c < bk_end y.
Proof.
  intros Hf Hn Hb y Hy. pose proof (Hn y Hy) as Hne.
  assert (y = b ∨ y ∈ fs ++ ls) as [->|Hy'].
  { destruct bFlight; cbn in Hy; [by apply elem_of_cons in Hy|].
    rewrite elem_of_app in *. rewrite elem_of_cons in Hy. tauto. }
  - done.
  - specialize (Hf y Hy'). unfold before in Hf. lia.
Qed.

Lemma confirm_loop_spec fuel c acked sacks fs ls :
  (length fs + length ls < fuel)%nat → conf_inv c fs ls →
  ∃ c' acked' gone, confirm_loop fuel c acked sacks fs ls = Some (c', acked') ∧
    conf_post c c' acked acked' sacks fs ls gone.
Proof.
  revert c acked fs ls. induction fuel as [|fuel IH]; intros c acked fs ls Hfuel Hi; [lia|].
  (* one round, on either list *)
  assert (Hround : ∀ (bFlight : bool) b fs0 ls0,
    fs = with_flight bFlight b fs0 → ls = with_lost bFlight b ls0 → first_of b fs0 ls0 →
    ∃ c' acked' gone,
      (let '(state, c1) := block_state c b sacks in
       match confirm_block c1 acked b bFlight state with
       | None => Some (set_lists c1 (sc_flightBlocks c1 ++ fs) (sc_flight c1) (sc_lostBlocks c1 ++ ls) (sc_lost c1), acked)
       | Some (c2, acked2) => confirm_loop fuel c2 acked2 sacks fs0 ls0
       end) = Some (c', acked') ∧ conf_post c c' acked acked' sacks fs ls gone).
  { intros bFlight b fs0 ls0 -> -> Hfirst.
    destruct (block_state c b sacks) as [st c1] eqn:Es.
    destruct (block_state_spec c b sacks _ _ st c1 Hi) as (Hi1 & Hpos1 & Hl1 & Hst); [|done|].
    { rewrite elem_of_app. destruct bFlight; [left|right]; by left. }
    pose proof (confirm_block_spec c1 acked b bFlight fs0 ls0 st Hi1 Hfirst) as Hc.
    specialize (Hc ltac:(destruct Hpos1 as [-> _]; by destruct st)).
    destruct (confirm_block c1 acked b bFlight st) as [[c2 acked2]|].
    - destruct Hc as (Hi2 & Hpos2 & Hd).
      destruct (IH c2 acked2 fs0 ls0) as (c' & acked' & gone & E & Hpost); [|done|].
      { destruct bFlight; simpl in Hfuel; lia. }
      destruct (conf_post_step c c1 c2 c' acked acked2 acked' sacks bFlight b fs0 ls0 gone st)
        as [gone' Hpost']; try done; [by destruct st|]. eauto.
    - subst st. eexists _, _, []. split; [done|].
      pose proof (conf_post_done c1 acked sacks _ _ Hi1) as Hpost.
      destruct Hpos1 as [Ea Ep]. injection Hl1 as EF EL.
      destruct Hpost as [Hp1 Hp2 Hp3 [Hp4 Hp5] Hp6].
      { eapply first_before_live; [done| |congruence]. intros y Hy.
        apply (po_ne _ _ _ _ (ci_pool _ _ _ Hi1)). rewrite elem_of_app. by right. }
      split; [by rewrite <- EF, <- EL|by constructor|done| |done]. by split; congruence. }
  cbn [confirm_loop]. destruct fs as [|f fs], ls as [|l ls].
  - exists (set_lists c (sc_flightBlocks c ++ []) (sc_flight c) (sc_lostBlocks c ++ []) (sc_lost c)), acked, [].
    split; [done|]. apply conf_post_done; [done|]. intros y Hy. by apply elem_of_nil in Hy.
  - apply (Hround false l [] ls); try done. apply first_of_comm.
    eapply (pool_first _ _ _ ls []); [|done]. apply pool_swap, Hi.
  - apply (Hround true f fs []); try done. eapply pool_first; [apply Hi|done].
  - destruct (Z.ltb_spec (bk_start f) (bk_start l)).
    + apply (Hround true f fs (l :: ls)); try done. eapply pool_first; [apply Hi|lia].
    + apply (Hround false l (f :: fs) ls); try done. apply first_of_comm.
      eapply (pool_first _ _ _ ls (f :: fs)); [|lia]. apply pool_swap, Hi.
Qed.

(** ** The application's buffers *)

Fixpoint chain (lo : Z) (bufs : list SendBuffer) (hi : Z) : Prop :=
  match bufs with
  | [] => lo = hi
  | b :: bufs => sb_start b = lo ∧ sb_end b = lo + sb_len b ∧ 0 < sb_len b ∧ chain (sb_end b) bufs hi
  end.

(** The buffer that holds the position [s]. *)
Fixpoint curr_at (s : Z) (bufs : list SendBuffer) : option Z :=
  match bufs with
  | [] => None
  | b :: bufs => if s <? sb_end b then Some (sb_id b) else curr_at s bufs
  end.

(** [s] is the position up to which blocks were cut. *)
Record sending_ok (lo s : Z) (sd : SendingBuffers) : Prop := {
  so_chain : chain lo (sd_buffers sd) (sd_streamPos sd);
  so_range : 0 ≤ lo ≤ s ∧ s ≤ sd_streamPos sd < pos_bound;
  so_offsets : ∀ b, b ∈ sd_buffers sd → sb_offset b = Z.max (sb_start b) (Z.min (sb_end b) s);
  so_curr : sd_curr sd = curr_at s (sd_buffers sd);
  so_unSend : sd_unSend sd = sd_streamPos sd - s;
  so_ids : NoDup (sb_id <$> sd_buffers sd)
}.

(** The block's payload is the part of a live buffer at its positions. *)
Definition in_buffers (bufs : list SendBuffer) (b : SendBlock) : Prop :=
  ∃ u, u ∈ bufs ∧ sb_start u ≤ bk_start b ∧ bk_end b ≤ sb_end u ∧
       bk_data b = sb_data u + (bk_start b - sb_start u).

Lemma chain_app lo xs ys hi : chain lo (xs ++ ys) hi ↔ ∃ m, chain lo xs m ∧ chain m ys hi.
Proof.
  revert lo. induction xs as [|b xs IH]; intros lo; simpl.
  - split; [eauto|]. by intros (m & -> & ?).
  - rewrite IH. naive_solver.
Qed.

Lemma chain_le lo bufs hi : chain lo bufs hi → lo ≤ hi.
Proof. revert lo. induction bufs as [|b bufs IH]; intros lo; simpl; [lia|]. intros (? & ? & ? & ?%IH). lia. Qed.

Lemma chain_elem lo bufs hi b :
  chain lo bufs hi → b ∈ bufs → lo ≤ sb_start b ∧ sb_start b < sb_end b ∧ sb_end b ≤ hi ∧
                                 sb_end b = sb_start b + sb_len b.
Proof.
  revert lo. induction bufs as [|c bufs IH]; intros lo; simpl; [by intros _ ?%elem_of_nil|].
  intros (? & ? & ? & Hc) [->|Hb]%elem_of_cons.
  - apply chain_le in Hc. lia.
  - destruct (IH _ Hc Hb). lia.
Qed.

Lemma curr_at_app s pre suf :
  (∀ b, b ∈ pre → sb_end b ≤ s) → curr_at s (pre ++ suf) = curr_at s suf.
Proof.
  induction pre as [|b pre IH]; intros H; [done|]. simpl.
  pose proof (H b ltac:(by left)). destruct (Z.ltb_spec s (sb_end b)); [lia|].
  apply IH. intros c Hc. apply H. by right.
Qed.

(** The buffer cut next, between those sent and those not begun. *)
Lemma curr_split lo s bufs hi :
  chain lo bufs hi → lo ≤ s < hi →
  ∃ pre cur suf, bufs = pre ++ cur :: suf ∧ (∀ b, b ∈ pre → sb_end b ≤ s) ∧
    sb_start cur ≤ s < sb_end cur ∧ chain (sb_end cur) suf hi.
Proof.
  revert lo. induction bufs as [|b bufs IH]; intros lo; simpl; [lia|].
  intros (H1 & H2 & H3 & Hc) Hs. destruct (Z.lt_ge_cases s (sb_end b)).
  - exists [], b, bufs. split_and!; try done; [|lia]. intros c Hc'. by apply elem_of_nil in Hc'.
  - destruct (IH _ Hc) as (pre & cur & suf & -> & Hp & Hcur & Hsuf); [lia|].
    exists (b :: pre), cur, suf. split_and!; try done; try lia.
    intros c [->|Hc']%elem_of_cons; [done|by apply Hp].
Qed.

Lemma find_buf_mid pre cur suf :
  NoDup (sb_id <$> pre ++ cur :: suf) → find_buf (sb_id cur) (pre ++ cur :: suf) = Some cur.
Proof.
  intros Hnd. unfold find_buf. rewrite filter_app, filter_cons_True by done.
  rewrite filter_none; [done|]. intros b Hb E. rewrite fmap_app, fmap_cons in Hnd.
  apply NoDup_app in Hnd as (_ & Hd & _). apply (Hd (sb_id b)); [by apply list_elem_of_fmap_2|].
  rewrite E. by left.
Qed.

Lemma next_buf_mid pre cur suf :
  NoDup (sb_id <$> pre ++ cur :: suf) → next_buf (sb_id cur) (pre ++ cur :: suf) = sb_id <$> head suf.
Proof.
  induction pre as [|b pre IH]; simpl; [by rewrite decide_True|]. intros [Hni Hnd]%NoDup_cons.
  rewrite decide_False; [by apply IH|]. intros E. apply Hni. rewrite E, fmap_app, elem_of_app.
  right. by left.
Qed.

Definition with_offset (b : SendBuffer) (off : Z) : SendBuffer :=
  mkSB (sb_id b) (sb_data b) (sb_len b) (sb_start b) off (sb_end b) (sb_callback b).

Lemma set_offset_none id off bufs : id ∉ (sb_id <$> bufs) → set_offset id off bufs = bufs.
Proof.
  unfold set_offset. induction bufs as [|b bufs IH]; [done|]. rewrite fmap_cons.
  intros [? ?]%not_elem_of_cons. rewrite fmap_cons, IH, decide_False by done. done.
Qed.

Lemma set_offset_mid pre cur suf off :
  NoDup (sb_id <$> pre ++ cur :: suf) →
  set_offset (sb_id cur) off (pre ++ cur :: suf) = pre ++ with_offset cur off :: suf.
Proof.
  rewrite fmap_app, fmap_cons. intros Hnd. apply NoDup_app in Hnd as (_ & Hd & Hnd).
  apply NoDup_cons in Hnd as [Hni _]. unfold set_offset. rewrite fmap_app, fmap_cons.
  rewrite decide_True by done. f_equal; [|f_equal].
  - apply set_offset_none. intros Hin. apply (Hd _ Hin). by left.
  - by apply set_offset_none.
Qed.

Lemma chain_with_offset lo pre cur suf hi off :
  chain lo (pre ++ cur :: suf) hi ↔ chain lo (pre ++ with_offset cur off :: suf) hi.
Proof. by rewrite !chain_app. Qed.

(** Cutting [n] bytes at [s]. *)
Lemma sending_ok_cut lo s n sd curr unSend pre cur suf :
  sending_ok lo s sd → sd_buffers sd = pre ++ cur :: suf → (∀ b, b ∈ pre → sb_end b ≤ s) →
  sb_start cur ≤ s < sb_end cur → 0 < n → s + n ≤ sb_end cur →
  curr = (if s + n =? sb_end cur then sb_id <$> head suf else Some (sb_id cur)) →
  unSend = sd_streamPos sd - (s + n) →
  sending_ok lo (s + n) (mkSending (sd_streamPos sd) unSend curr (pre ++ with_offset cur (s + n) :: suf)).
Proof.
  intros [Hc Hr Ho _ Hu Hi] Hb Hpre Hcur Hn Hle -> ->. rewrite Hb in *.
  pose proof Hc as Hc'. apply chain_app in Hc' as (m & _ & Hm1 & Hm2 & Hm3 & Hsuf).
  pose proof (chain_le _ _ _ Hsuf).
  assert (Hsb : ∀ b, b ∈ suf → sb_end cur ≤ sb_start b < sb_end b).
  { intros b Hb'. destruct (chain_elem _ _ _ _ Hsuf Hb'). lia. }
  split; simpl; try done; try lia.
  - by apply chain_with_offset.
  - intros b. rewrite elem_of_app, elem_of_cons. intros [Hb'|[->|Hb']]; [| simpl; lia|].
    + rewrite (Ho b) by (rewrite elem_of_app; by left). specialize (Hpre b Hb'). lia.
    + rewrite (Ho b) by (rewrite elem_of_app; right; by right). specialize (Hsb b Hb'). lia.
  - rewrite curr_at_app by (intros b Hb'; specialize (Hpre b Hb'); lia). simpl.
    destruct (Z.ltb_spec (s + n) (sb_end cur)), (Z.eqb_spec (s + n) (sb_end cur)); try lia; [done|].
    destruct suf as [|b suf]; [done|]. simpl. specialize (Hsb b ltac:(by left)).
    destruct (Z.ltb_spec (s + n) (sb_end b)); [done|lia].
  - by rewrite fmap_app, fmap_cons in *.
Qed.

(** The buffers up to how much of them was sent. *)
Definition buf_view (b : SendBuffer) : SendBuffer := with_offset b 0.

Lemma in_buffers_view bufs bufs' b :
  (buf_view <$> bufs') = (buf_view <$> bufs) → in_buffers bufs b → in_buffers bufs' b.
Proof.
  intros E (u & Hu & H1 & H2 & H3).
  assert (Hv : buf_view u ∈ buf_view <$> bufs') by (rewrite E; by apply list_elem_of_fmap_2).
  apply list_elem_of_fmap in Hv as (u' & E' & Hu').
  exists u'. unfold buf_view, with_offset in E'. injection E' as _ ? _ ? ? _. split; [done|]. lia.
Qed.

Lemma in_buffers_cur pre cur suf s n :
  sb_start cur ≤ s → s + n ≤ sb_end cur →
  in_buffers (pre ++ cur :: suf) (mkBlk s (s + n) 0 (sb_data cur + (s - sb_start cur))).
Proof. intros. exists cur. rewrite elem_of_app. split; [right; by left|done]. Qed.

Record generated (lo s len : Z) (sd : SendingBuffers) (b : SendBlock) (sd' : SendingBuffers) : Prop := {
  ge_start : bk_start b = s;
  ge_len : 0 < bk_len b ≤ len;
  ge_in : in_buffers (sd_buffers sd) b;
  ge_ok : sending_ok lo (bk_end b) sd';
  ge_pos : sd_streamPos sd' = sd_streamPos sd;
  ge_view : (buf_view <$> sd_buffers sd') = (buf_view <$> sd_buffers sd)
}.

Lemma buf_view_mid pre cur suf off :
  (buf_view <$> pre ++ with_offset cur off :: suf) = (buf_view <$> pre ++ cur :: suf).
Proof. by rewrite !fmap_app, !fmap_cons. Qed.

Lemma GenerateBlock_spec lo s len sd :
  sending_ok lo s sd → 0 < len < 2 ^ 16 →
  if decide (s = sd_streamPos sd) then SendQueueGenerateBlock sd len = Some (None, sd)
  else ∃ b sd', SendQueueGenerateBlock sd len = Some (Some b, sd') ∧ generated lo s len sd b sd'.
Proof.
  intros Hok Hlen. pose proof Hok as [Hc Hr Ho Hcurr Hu Hi]. unfold pos_bound in Hr.
  unfold SendQueueGenerateBlock. destruct (Z.eqb_spec (sd_unSend sd) 0) as [E|E].
  { rewrite decide_True by lia. done. }
  rewrite decide_False by lia.
  destruct (curr_split lo s _ _ Hc) as (pre & cur & suf & Hb & Hpre & Hcur & Hsuf); [lia|].
  assert (Hcid : sd_curr sd = Some (sb_id cur)).
  { rewrite Hcurr, Hb, curr_at_app by done. simpl. destruct (Z.ltb_spec s (sb_end cur)); [done|lia]. }
  rewrite Hb in Hi, Hc. rewrite Hcid. cbn [mbind option_bind]. rewrite Hb, find_buf_mid by done. cbn [mbind option_bind].
  destruct (chain_elem _ _ _ cur Hc) as (H1 & H2 & H3 & H4); [rewrite elem_of_app; right; by left|].
  assert (Hoff : sb_offset cur = s).
  { rewrite (Ho cur) by (rewrite Hb, elem_of_app; right; by left). lia. }
  rewrite Hoff, (u64_id (sb_end cur - s)) by lia.
  destruct (Z.eqb_spec (sb_end cur - s) 0); [lia|].
  replace (sb_data cur + (sb_len cur - (sb_end cur - s))) with (sb_data cur + (s - sb_start cur)) by lia.
  rewrite !set_offset_mid, next_buf_mid by done.
  destruct (Z.leb_spec (sb_end cur - s) len) as [Hle|Hgt].
  - eexists _, _. split; [reflexivity|]. unfold bk_len. simpl.
    rewrite u64_id by lia. split; unfold bk_len; simpl; try done; try lia.
    + rewrite Hb. replace (sb_end cur) with (s + (sb_end cur - s)) by lia. apply in_buffers_cur; lia.
    + pose proof (sending_ok_cut lo s (sb_end cur - s) sd (sb_id <$> head suf)
        (sd_unSend sd - (sb_end cur - s)) pre cur suf Hok Hb Hpre Hcur) as Hx.
      replace (s + (sb_end cur - s)) with (sb_end cur) in Hx by lia. rewrite Z.eqb_refl in Hx.
      apply Hx; try done; lia.
    + by rewrite Hb, buf_view_mid.
  - rewrite (u64_id (s + len)) by lia. eexists _, _. split; [reflexivity|]. unfold bk_len. simpl.
    rewrite u64_id by lia. split; unfold bk_len; simpl; try done; try lia.
    + rewrite Hb. apply in_buffers_cur; lia.
    + eapply sending_ok_cut; try done; try lia.
      destruct (Z.eqb_spec (s + len) (sb_end cur)); [lia|done].
    + by rewrite Hb, buf_view_mid.
Qed.

(** ** Moving blocks between the lists *)

Lemma MoveLostToFlight_perm fs b : SendQueueMoveLostToFlight fs b ≡ₚ b :: fs.
Proof.
  induction fs as [|c fs IH]; simpl; [done|]. destruct (_ <? _); [done|].
  rewrite IH. constructor.
Qed.

Lemma before_chain a b y : before a b → before b y → bk_start b < bk_end b → before a y.
Proof. unfold before. lia. Qed.

Lemma MoveLostToFlight_asc fs b :
  asc fs → apart [b] fs → nonempty (b :: fs) → asc (SendQueueMoveLostToFlight fs b).
Proof.
  induction fs as [|c fs IH]; intros Ha Hd Hn; simpl.
  - split; [|done]. intros y Hy. by apply elem_of_nil in Hy.
  - destruct Ha as [Hc Ha].
    pose proof (Hn b ltac:(by left)) as Hnb. pose proof (Hn c ltac:(right; by left)) as Hnc.
    pose proof (Hd b c ltac:(by left) ltac:(by left)) as Hbc.
    destruct (Z.ltb_spec (bk_start b) (bk_start c)) as [Hlt|Hge].
    + assert (Hb : before b c) by (unfold before in *; lia).
      split; [|by split]. intros y [->|Hy]%elem_of_cons; [done|]. eapply before_chain; eauto.
    + assert (Hb : before c b) by (unfold before in *; lia). split.
      * intros y Hy. rewrite MoveLostToFlight_perm in Hy.
        apply elem_of_cons in Hy as [->|Hy]; [done|by apply Hc].
      * apply IH; [done| |].
        -- intros x y Hx Hy. apply Hd; [done|by right].
        -- intros x [->|Hx]%elem_of_cons; apply Hn; [by left|right; by right].
Qed.

Lemma skip_before_spec e rpre suf :
  ∃ sk suf', skip_before e rpre suf = (reverse sk ++ rpre, suf') ∧ suf = sk ++ suf' ∧
    (∀ x, x ∈ sk → bk_start x < e) ∧ match suf' with x :: _ => e ≤ bk_start x | [] => True end.
Proof.
  revert rpre. induction suf as [|b suf IH]; intros rpre; simpl.
  - exists [], []. split_and!; try done. intros x Hx. by apply elem_of_nil in Hx.
  - destruct (Z.leb_spec e (bk_start b)).
    + exists [], (b :: suf). split_and!; try done. intros x Hx. by apply elem_of_nil in Hx.
    + destruct (IH (b :: rpre)) as (sk & suf' & -> & -> & Hsk & Hs). exists (b :: sk), suf'.
      split_and!; try done; [by rewrite reverse_cons, <- app_assoc|].
      intros x [->|Hx]%elem_of_cons; [done|by apply Hsk].
Qed.

Lemma move_loop_spec rpre suf blocks :
  asc (reverse rpre ++ suf) → asc blocks → apart blocks (reverse rpre ++ suf) →
  ordered rpre blocks → nonempty (blocks ++ suf) →
  asc (move_loop rpre suf blocks) ∧ move_loop rpre suf blocks ≡ₚ (reverse rpre ++ suf) ++ blocks.
Proof.
  revert rpre suf. induction blocks as [|b blocks IH]; intros rpre suf Ha Hb Hd Ho Hn; simpl.
  { by rewrite app_nil_r. }
  destruct (skip_before_spec (bk_end b) rpre suf) as (sk & suf' & -> & -> & Hsk & Hs).
  destruct Hb as [Hb1 Hb2]. pose proof (Hn b ltac:(by left)) as Hnb.
  assert (Hskb : ∀ x, x ∈ sk → before x b).
  { intros x Hx. destruct (Hd b x) as [H|H]; [by left| |by specialize (Hsk x Hx); unfold before in *; lia|done].
    rewrite !elem_of_app. right. by left. }
  assert (Hrpb : ∀ x, x ∈ rpre → before x b) by (intros x Hx; apply Ho; [done|by left]).
  rewrite app_assoc in Ha. apply asc_app in Ha as (Ha1 & Ha2 & Ha3).
  assert (Hsufb : ∀ y, y ∈ suf' → before b y).
  { destruct suf' as [|c suf']; [by intros y ?%elem_of_nil|]. destruct Ha2 as [Hc _].
    assert (bk_start c < bk_end c) by (apply Hn; rewrite !elem_of_app; right; right; by left).
    intros y [->|Hy]%elem_of_cons; [done|]. apply (before_chain b c y); auto. }
  assert (Erev : reverse (b :: reverse sk ++ rpre) ++ suf' = (reverse rpre ++ sk) ++ b :: suf').
  { by rewrite reverse_cons, reverse_app, reverse_involutive, <- !app_assoc. }
  destruct (IH (b :: reverse sk ++ rpre) suf') as [IH1 IH2]; rewrite ?Erev in *.
  - apply asc_app. split_and!; [done|by split|].
    intros x y Hx [->|Hy]%elem_of_cons; [|by apply Ha3].
    rewrite elem_of_app, elem_of_reverse in Hx. destruct Hx; auto.
  - done.
  - intros x y Hx. rewrite !elem_of_app, elem_of_cons. intros Hy.
    destruct Hy as [Hy|[->|Hy]]; [|right; by apply Hb1|];
      apply Hd; rewrite ?elem_of_app; try (by right); tauto.
  - intros x y [->|Hx]%elem_of_cons Hy; [by apply Hb1|]. rewrite elem_of_app, elem_of_reverse in Hx.
    assert (before x b) by (destruct Hx; auto). apply (before_chain x b y); auto.
  - intros x Hx. apply Hn. rewrite !elem_of_app, elem_of_cons. rewrite elem_of_app in Hx. tauto.
  - split; [done|]. rewrite IH2, <- !app_assoc. do 2 apply Permutation_app_head.
    rewrite <- app_comm_cons. apply Permutation_middle.
Qed.

Lemma MoveFlightToLost_spec losts blocks :
  asc losts → asc blocks → apart blocks losts → nonempty (blocks ++ losts) →
  asc (MoveFlightToLost losts blocks) ∧ MoveFlightToLost losts blocks ≡ₚ losts ++ blocks.
Proof.
  intros Hl Hb Hd Hn. apply (move_loop_spec [] losts blocks); try done.
  intros x y Hx. by apply elem_of_nil in Hx.
Qed.

(** ** The invariant of the queue *)

Definition outstanding (c : SendContext) : list SendBlock := sc_flightBlocks c ++ sc_lostBlocks c.

(** The two lists between two operations, every block beyond the acknowledged
    position, the counters the sums of the lengths. *)
Record ctx_inv (c : SendContext) : Prop := {
  cx_F : asc (sc_flightBlocks c); cx_L : asc (sc_lostBlocks c);
  cx_apart : apart (sc_flightBlocks c) (sc_lostBlocks c);
  cx_ne : nonempty (outstanding c);
  cx_flight : sc_flight c = u32 (total_len (sc_flightBlocks c));
  cx_lost : sc_lost c = u64 (total_len (sc_lostBlocks c));
  cx_live : ∀ b, b ∈ outstanding c → sc_ack c < bk_end b;
  cx_latest : 0 ≤ sc_latestAck c ≤ sc_ack c ∧ 0 ≤ sc_prevDupAck c ≤ sc_ack c
}.

Lemma conf_inv_ctx c : conf_inv c [] [] ↔ ctx_inv c.
Proof.
  split.
  - intros [[HF HL _ _ Hd _ _ Hn] Hf Hl Hlive _ Hlat]. rewrite !app_nil_r in *. by split.
  - intros [HF HL Hd Hn Hf Hl Hlive Hlat]. split; rewrite ?app_nil_r; try done.
    + by apply pool_closed.
    + intros _ b Hb. by apply elem_of_nil in Hb.
Qed.

Record sq_inv (lo : Z) (q : SendQueue) : Prop := {
  si_ctx : ctx_inv (sq_ctx q);
  si_sent : ∀ b, b ∈ outstanding (sq_ctx q) → bk_end b ≤ sc_streamPos (sq_ctx q) ∧ bk_len b < 2 ^ 16;
  si_data : ∀ b, b ∈ outstanding (sq_ctx q) → in_buffers (sd_buffers (sq_sending q)) b;
  si_sending : sending_ok lo (sc_streamPos (sq_ctx q)) (sq_sending q);
  si_ack : lo ≤ sc_ack (sq_ctx q) ≤ sc_streamPos (sq_ctx q);
  si_mtu : 0 < sq_mtu q < 2 ^ 16;
  si_fresh : ∀ u, u ∈ sd_buffers (sq_sending q) → sb_id u < sq_fresh q
}.

Lemma Create_inv pos mtu :
  0 ≤ pos < pos_bound → 0 < mtu < 2 ^ 16 → sq_inv pos (SendQueueCreate pos mtu).
Proof.
  intros Hp Hm. split; simpl; try done; try lia.
  - split; simpl; try done; try lia; try (by intros x y ?%elem_of_nil); by intros x ?%elem_of_nil.
  - by intros b ?%elem_of_nil.
  - by intros b ?%elem_of_nil.
  - split; simpl; try done; try lia; [by intros b ?%elem_of_nil|constructor].
  - by intros u ?%elem_of_nil.
Qed.

Lemma curr_at_none lo s bufs hi :
  chain lo bufs hi → lo ≤ s → hi ≤ s → curr_at s bufs = None.
Proof.
  intros Hc Hlo Hs. rewrite <- (app_nil_r bufs). rewrite curr_at_app; [done|].
  intros b Hb. destruct (chain_elem _ _ _ _ Hc Hb). lia.
Qed.

Lemma curr_at_snoc s bufs lo hi u :
  chain lo bufs hi → lo ≤ s ≤ hi → s < sb_end u →
  curr_at s (bufs ++ [u]) = match curr_at s bufs with Some i => Some i | None => Some (sb_id u) end.
Proof.
  revert lo. induction bufs as [|b bufs IH]; intros lo; simpl.
  - intros -> ? ?. destruct (Z.ltb_spec s (sb_end u)); [done|lia].
  - intros (? & ? & ? & Hc) Hs Hu. destruct (Z.ltb_spec s (sb_end b)); [done|].
    pose proof (chain_le _ _ _ Hc). apply (IH (sb_end b)); [done|lia|done].
Qed.

Lemma AddBuffer_inv lo q data len callback :
  sq_inv lo q → 0 ≤ len → sd_streamPos (sq_sending q) + len < pos_bound →
  sq_inv lo (snd (SendQueueAddBuffer q data len callback)).
Proof.
  intros Hq Hlen Hb. unfold SendQueueAddBuffer.
  destruct (_ || _) eqn:E; [done|]. assert (len ≠ 0) by lia. clear E.
  destruct Hq as [Hc Hs Hd [Hch Hr Ho Hcu Hu Hi] Ha Hm Hf]. unfold pos_bound in *.
  cbn. rewrite (u64_id (_ + len)) by lia. set (u := mkSB _ _ _ _ _ _ _).
  split; simpl; try done.
  - intros b Hb'. destruct (Hd b Hb') as (u' & ? & ?). exists u'. rewrite elem_of_app. tauto.
  - split; simpl; try done; try (unfold pos_bound; lia).
    + apply chain_app. exists (sd_streamPos (sq_sending q)). split; [done|]. simpl. split_and!; try done; lia.
    + intros b [Hb'| ->%list_elem_of_singleton]%elem_of_app; [by apply Ho|]. unfold u. simpl. lia.
    + rewrite Hcu. rewrite (curr_at_snoc _ _ lo (sd_streamPos (sq_sending q))); try done; try lia.
      unfold u. simpl. lia.
    + rewrite Hu, u64_id by lia. lia.
    + rewrite fmap_app. apply NoDup_app. split_and!; [done| |apply NoDup_singleton].
      intros i Hin ->%list_elem_of_singleton. apply list_elem_of_fmap in Hin as (v & E & Hv).
      specialize (Hf v Hv). unfold u in E. simpl in E. lia.
  - intros v [Hv| ->%list_elem_of_singleton]%elem_of_app; [specialize (Hf v Hv); lia|].
    unfold u. simpl. lia.
Qed.

(** Sending a block again: its time changes, and its list. *)
Lemma resend_inv c b losts now :
  ctx_inv c → sc_lostBlocks c = b :: losts →
  let '(p, c') := resend c b losts now in
  ctx_inv c' ∧ same_pos c c' ∧ outstanding c' ≡ₚ stamp b now :: (sc_flightBlocks c ++ losts).
Proof.
  intros [HF HL Hd Hn Hf Hl Hlive Hlat] E. unfold resend. rewrite E in *. destruct HL as [Hb HL].
  unfold outstanding in *. rewrite E in *.
  assert (Hperm : SendQueueMoveLostToFlight (sc_flightBlocks c) (stamp b now) ++ losts ≡ₚ
                  stamp b now :: sc_flightBlocks c ++ losts) by (by rewrite MoveLostToFlight_perm).
  assert (Hnb : bk_start b < bk_end b) by (apply Hn; rewrite elem_of_app; right; by left).
  split; [|split; [done|done]]. split; simpl; try done.
  - apply MoveLostToFlight_asc; [done| |].
    + intros x y ->%list_elem_of_singleton Hy. destruct (Hd y b Hy); [by left|by right|by left].
    + intros x [->|Hx]%elem_of_cons; [done|]. apply Hn. rewrite elem_of_app. by left.
  - intros x y Hx Hy. rewrite MoveLostToFlight_perm in Hx. apply elem_of_cons in Hx as [->|Hx].
    + left. by apply Hb.
    + apply Hd; [done|by right].
  - intros x Hx. unfold outstanding in Hx. simpl in Hx. rewrite Hperm in Hx.
    apply elem_of_cons in Hx as [->|Hx]; [done|]. apply Hn. rewrite elem_of_app in *.
    rewrite elem_of_cons. tauto.
  - rewrite Hf, u32_add_l. f_equal.
    rewrite (total_len_perm _ _ (MoveLostToFlight_perm _ _)), total_len_cons. unfold bk_len. simpl. lia.
  - rewrite Hl, u64_sub_l, total_len_cons. f_equal. lia.
  - intros x Hx. unfold outstanding in Hx. simpl in Hx. rewrite Hperm in Hx.
    assert (sc_ack c < bk_end b) by (apply Hlive; rewrite elem_of_app; right; by left).
    apply elem_of_cons in Hx as [->|Hx]; [done|]. apply Hlive. rewrite elem_of_app in *.
    rewrite elem_of_cons. tauto.
Qed.

Lemma send_new_inv c b now :
  ctx_inv c → (∀ x, x ∈ outstanding c → bk_end x ≤ sc_streamPos c) →
  bk_start b = sc_streamPos c → sc_ack c ≤ sc_streamPos c → 0 ≤ sc_streamPos c →
  0 < bk_len b < 2 ^ 16 → bk_end b < pos_bound →
  let '(p, c') := send_new c b now in
  ctx_inv c' ∧ sc_ack c' = sc_ack c ∧ sc_streamPos c' = bk_end b ∧
  p = mkPayload (bk_start b) (bk_data b) (bk_len b) ∧
  outstanding c' ≡ₚ stamp b now :: outstanding c.
Proof.
  intros [HF HL Hd Hn Hf Hl Hlive Hlat] Hsent Hstart Hack H0 Hlen Hend. unfold send_new, pos_bound in *.
  assert (Hb : bk_end b = sc_streamPos c + bk_len b) by (unfold bk_len; lia).
  rewrite u16_id by lia. cbn. rewrite u64_id by lia.
  assert (Hbef : ∀ x, x ∈ outstanding c → before x (stamp b now)).
  { intros x Hx. specialize (Hsent x Hx). unfold before. simpl. lia. }
  unfold outstanding in *. split; [|split_and!; try done; simpl; first [lia | apply push_left]].
  split; simpl; try done.
  - apply asc_snoc; [done|]. intros x Hx. apply Hbef. rewrite elem_of_app. by left.
  - intros x y [Hx| ->%list_elem_of_singleton]%elem_of_app Hy; [by apply Hd|].
    right. apply Hbef. rewrite elem_of_app. by right.
  - intros x Hx. unfold outstanding in Hx. simpl in Hx. rewrite push_left in Hx.
    apply elem_of_cons in Hx as [->|Hx]; [simpl; lia|by apply Hn].
  - rewrite Hf, u32_add_l, total_len_app. f_equal. unfold total_len, bk_len. simpl. lia.
  - intros x Hx. unfold outstanding in Hx. simpl in Hx. rewrite push_left in Hx.
    apply elem_of_cons in Hx as [->|Hx]; [simpl; lia|by apply Hlive].
Qed.

(** What a filled payload is: the block that carries it is outstanding and its
    data is in a buffer not yet handed back. *)
Definition payload_ok (q : SendQueue) (p : Payload) (now : Z) : Prop :=
  ∃ b, b ∈ outstanding (sq_ctx q) ∧ bk_time b = now ∧
       p = mkPayload (bk_start b) (bk_data b) (bk_len b) ∧ 0 < pl_len p < 2 ^ 16 ∧
       in_buffers (sd_buffers (sq_sending q)) b.

Definition ranges (c : SendContext) : list (Z * Z) := (λ b, (bk_start b, bk_end b)) <$> outstanding c.

Lemma resend_queue lo q b losts now :
  sq_inv lo q → sc_lostBlocks (sq_ctx q) = b :: losts →
  let '(p, c') := resend (sq_ctx q) b losts now in
  let q' := set_ctx q c' (sq_sending q) in
  sq_inv lo q' ∧ payload_ok q' p now ∧ ranges c' ≡ₚ ranges (sq_ctx q) ∧ same_pos (sq_ctx q) c' ∧
  pl_len p = bk_len b ∧ pl_pos p = bk_start b.
Proof.
  intros [Hc Hs Hd Hsd Ha Hm Hf] E. pose proof (resend_inv _ b losts now Hc E) as H.
  destruct (resend (sq_ctx q) b losts now) as [p c'] eqn:Er. destruct H as (Hc' & Hpos & Ho).
  assert (Hob : b ∈ outstanding (sq_ctx q)) by (unfold outstanding; rewrite E, elem_of_app; right; by left).
  assert (Hsub : ∀ x, x ∈ outstanding c' → x = stamp b now ∨ x ∈ outstanding (sq_ctx q)).
  { intros x. rewrite Ho, elem_of_cons. unfold outstanding. rewrite E, !elem_of_app, elem_of_cons. tauto. }
  destruct (Hs b Hob) as [Hb1 Hb2]. pose proof (cx_ne _ Hc b Hob) as Hne.
  assert (Hp : p = mkPayload (bk_start b) (bk_data b) (bk_len b)).
  { unfold resend in Er. injection Er as <- _. rewrite u16_id; [done|]. unfold bk_len in *. lia. }
  destruct Hpos as [Ea Ep]. split_and!; try (by rewrite Hp); try done.
  - split; simpl; rewrite ?Ea, ?Ep; try done.
    + intros x Hx. destruct (Hsub x Hx) as [->|?]; [done|by apply Hs].
    + intros x Hx. destruct (Hsub x Hx) as [->|Hx']; [by apply (Hd b)|by apply Hd].
  - exists (stamp b now). simpl. rewrite Ho. split_and!; try done; [by left| | |by apply (Hd b)];
      rewrite Hp; simpl; unfold bk_len in *; lia.
  - unfold ranges. rewrite Ho. unfold outstanding. rewrite E, fmap_cons, !fmap_app, fmap_cons.
    apply Permutation_middle.
Qed.

Lemma send_new_queue lo q len b sd' now :
  sq_inv lo q → generated lo (sc_streamPos (sq_ctx q)) len (sq_sending q) b sd' → 0 < len < 2 ^ 16 →
  let '(p, c') := send_new (sq_ctx q) b now in
  let q' := set_ctx q c' sd' in
  sq_inv lo q' ∧ payload_ok q' p now ∧ pl_pos p = sc_streamPos (sq_ctx q) ∧
  sc_streamPos c' = sc_streamPos (sq_ctx q) + pl_len p ∧ sc_ack c' = sc_ack (sq_ctx q) ∧
  0 < pl_len p ≤ len ∧
  ranges c' ≡ₚ (pl_pos p, pl_pos p + pl_len p) :: ranges (sq_ctx q).
Proof.
  intros [Hc Hs Hd Hsd Ha Hm Hf] [Gs Gl Gi Gok Gp Gv] Hlen.
  pose proof (so_range _ _ _ Hsd) as Hr. pose proof (so_range _ _ _ Gok) as Hr'. rewrite Gp in Hr'.
  pose proof (send_new_inv (sq_ctx q) b now Hc) as H.
  destruct (send_new (sq_ctx q) b now) as [p c'].
  destruct H as (Hc' & Ea & Ep & -> & Ho); try done; try lia; [intros x Hx; by apply Hs|].
  assert (Hsub : ∀ x, x ∈ outstanding c' → x = stamp b now ∨ x ∈ outstanding (sq_ctx q)).
  { intros x. by rewrite Ho, elem_of_cons. }
  assert (Hin : in_buffers (sd_buffers sd') b) by by eapply in_buffers_view.
  unfold bk_len in *. split_and!; simpl; try done; try lia.
  - split; simpl; rewrite ?Ea, ?Ep; try done; try lia.
    + intros x Hx. destruct (Hsub x Hx) as [->|Hx']; unfold bk_len; simpl; [lia|].
      destruct (Hs x Hx'). unfold bk_len in *. lia.
    + intros x Hx. destruct (Hsub x Hx) as [->|Hx']; [done|].
      eapply in_buffers_view; [done|by apply Hd].
    + intros u Hu. assert (Hv : buf_view u ∈ buf_view <$> sd_buffers sd') by by apply list_elem_of_fmap_2.
      rewrite Gv in Hv. apply list_elem_of_fmap in Hv as (u' & E & Hu'). specialize (Hf u' Hu').
      injection E as -> _ _ _ _ _. done.
  - exists (stamp b now). simpl. rewrite Ho. split_and!; try done; [by left|lia..].
  - unfold ranges. rewrite Ho, fmap_cons. simpl. rewrite Gs.
    replace (sc_streamPos (sq_ctx q) + (bk_end b - sc_streamPos (sq_ctx q))) with (bk_end b) by lia. done.
Qed.

(** ** Filling a payload *)

(** The first lost block is sent again. *)
Definition filled_old (q q' : SendQueue) (p : Payload) : Prop :=
  sc_lostBlocks (sq_ctx q) ≠ [] ∧ sc_streamPos (sq_ctx q') = sc_streamPos (sq_ctx q) ∧
  ranges (sq_ctx q') ≡ₚ ranges (sq_ctx q).

(** A new block is cut at [sendContext.streamPos]. *)
Definition filled_new (q q' : SendQueue) (p : Payload) : Prop :=
  pl_pos p = sc_streamPos (sq_ctx q) ∧ sc_streamPos (sq_ctx q') = pl_pos p + pl_len p ∧
  ranges (sq_ctx q') ≡ₚ (pl_pos p, pl_pos p + pl_len p) :: ranges (sq_ctx q).

Definition filled (q q' : SendQueue) (p : Payload) (now : Z) : Prop :=
  payload_ok q' p now ∧ sc_ack (sq_ctx q') = sc_ack (sq_ctx q) ∧
  (buf_view <$> sd_buffers (sq_sending q')) = (buf_view <$> sd_buffers (sq_sending q)) ∧
  (filled_old q q' p ∨ filled_new q q' p).

Lemma set_ctx_same q : set_ctx q (sq_ctx q) (sq_sending q) = q.
Proof. by destruct q. Qed.

(** The part shared by the fills that cut a new block of at most [len]. *)
Lemma fill_new lo q len now r :
  sq_inv lo q → 0 < len < 2 ^ 16 →
  ∃ r' p q',
    ('(block, s) ← SendQueueGenerateBlock (sq_sending q) len;
     match block with
     | Some block =>
         let '(p, c) := send_new (sq_ctx q) block now in Some (BFX_RESULT_SUCCESS, p, set_ctx q c s)
     | None => Some (r, mkPayload (sc_streamPos (sq_ctx q)) 0 0, set_ctx q (sq_ctx q) s)
     end) = Some (r', p, q') ∧ sq_inv lo q' ∧
    (r' = r ∧ q' = q ∧ sd_unSend (sq_sending q) = 0 ∧ p = mkPayload (sc_streamPos (sq_ctx q)) 0 0 ∨
     r' = BFX_RESULT_SUCCESS ∧ pl_len p ≤ len ∧ 0 < sd_unSend (sq_sending q) ∧ filled q q' p now ∧
     filled_new q q' p).
Proof.
  intros Hq Hlen. pose proof (si_sending _ _ Hq) as Hsd.
  pose proof (so_unSend _ _ _ Hsd) as Hu. pose proof (so_range _ _ _ Hsd) as Hr.
  pose proof (GenerateBlock_spec lo _ len _ Hsd Hlen) as Hg. case_decide as Hs.
  - rewrite Hg. cbn. eexists _, _, _. split; [done|]. rewrite set_ctx_same. split; [done|].
    left. split_and!; try done. lia.
  - destruct Hg as (b & sd' & -> & Hg). cbn [mbind option_bind].
    pose proof (send_new_queue lo q len b sd' now Hq Hg Hlen) as H.
    destruct (send_new (sq_ctx q) b now) as [p c'].
    destruct H as (Hq' & Hp & H1 & H2 & H3 & H4 & H5).
    assert (Hn : filled_new q (set_ctx q c' sd') p) by (split_and!; simpl; [done|lia|done]).
    eexists _, _, _. split; [done|]. split; [done|]. right. split_and!; try done; try lia.
    split_and!; [done|done|apply Hg|by right].
Qed.

Lemma FillPayload_inv lo q now :
  sq_inv lo q →
  ∃ r p q', SendQueueFillPayload q now = Some (r, p, q') ∧ sq_inv lo q' ∧
    (r = BFX_RESULT_NOT_CHANGED ∧ q' = q ∧ sc_lostBlocks (sq_ctx q) = [] ∧ sd_unSend (sq_sending q) = 0 ∨
     r = BFX_RESULT_SUCCESS ∧ filled q q' p now).
Proof.
  intros Hq. unfold SendQueueFillPayload. destruct (sc_lostBlocks (sq_ctx q)) as [|b losts] eqn:E.
  - destruct (fill_new lo q (sq_mtu q) now BFX_RESULT_NOT_CHANGED Hq (si_mtu _ _ Hq))
      as (r & p & q' & H & Hq' & Hc).
    exists r, p, q'. split; [exact H|]. split; [done|]. destruct Hc as [(? & ? & ? & ?)|(? & ? & ? & ? & ?)]; tauto.
  - pose proof (resend_queue lo q b losts now Hq E) as H.
    destruct (resend (sq_ctx q) b losts now) as [p c'].
    destruct H as (Hq' & Hp & Hran & [Ea Ep] & _). eexists _, _, _. split; [done|]. split; [done|].
    right. split; [done|]. split; [done|]. split; [done|]. split; [done|]. left. split_and!; [by rewrite E|done|done].
Qed.

Lemma FillPayloadFromOld_inv lo q inLength now :
  sq_inv lo q →
  let '(r, p, q') := SendQueueFillPayloadFromOld q inLength now in
  sq_inv lo q' ∧
  match p with
  | None => q' = q ∧ (r = BFX_RESULT_NOT_FOUND ∧ sc_lostBlocks (sq_ctx q) = [] ∨
                      r = BFX_RESULT_NOT_ENOUGH_BUFFER)
  | Some p => r = BFX_RESULT_SUCCESS ∧ pl_len p ≤ inLength ∧ filled q q' p now
  end.
Proof.
  intros Hq. unfold SendQueueFillPayloadFromOld. destruct (sc_lostBlocks (sq_ctx q)) as [|b losts] eqn:E.
  - split; [done|]. split; [done|]. by left.
  - destruct (si_sent _ _ Hq b) as [_ Hb]; [unfold outstanding; rewrite E, elem_of_app; right; by left|].
    pose proof (cx_ne _ (si_ctx _ _ Hq) b) as Hne. unfold outstanding in Hne.
    rewrite E, elem_of_app, elem_of_cons in Hne. specialize (Hne ltac:(right; by left)).
    rewrite u16_id by (unfold bk_len in *; lia). destruct (Z.leb_spec (bk_len b) inLength).
    + pose proof (resend_queue lo q b losts now Hq E) as H1.
      destruct (resend (sq_ctx q) b losts now) as [p c'].
      destruct H1 as (Hq' & Hp & Hran & [Ea Ep] & Hl & _). split; [done|]. split; [done|].
      split; [lia|]. split; [done|]. split; [done|]. split; [done|]. left. split_and!; [by rewrite E|done|done].
    + split; [done|]. split; [done|]. by right.
Qed.

Lemma FillPayloadFromNew_inv lo q inLength now :
  sq_inv lo q → 0 ≤ inLength < 2 ^ 16 →
  ∃ r p q', SendQueueFillPayloadFromNew q inLength now = Some (r, p, q') ∧ sq_inv lo q' ∧
    (r = BFX_RESULT_NO_MORE_DATA ∧ q' = q ∧ (inLength = 0 ∨ sd_unSend (sq_sending q) = 0) ∨
     r = BFX_RESULT_SUCCESS ∧ pl_len p ≤ inLength ∧ filled q q' p now ∧ filled_new q q' p).
Proof.
  intros Hq Hlen. unfold SendQueueFillPayloadFromNew. destruct (Z.eqb_spec inLength 0).
  { eexists _, _, q. split; [done|]. split; [done|]. left. tauto. }
  destruct (fill_new lo q inLength now BFX_RESULT_NO_MORE_DATA Hq ltac:(lia)) as (r & p & q' & H & Hq' & Hc).
  exists r, p, q'. split; [exact H|]. split; [done|]. tauto.
Qed.

(** ** Confirming *)

Record confirmed (lo : Z) (q q' : SendQueue) (ack : Z) (sacks : option (list BdtStreamRange))
    (acked : Z) (gone : list SendBlock) : Prop := {
  cd_inv : sq_inv lo q';
  cd_ack : sc_ack (sq_ctx q') = Z.max (sc_ack (sq_ctx q)) ack;
  cd_pos : sc_streamPos (sq_ctx q') = sc_streamPos (sq_ctx q);
  cd_sending : sq_sending q' = sq_sending q;
  cd_lists : outstanding (sq_ctx q) ≡ₚ gone ++ outstanding (sq_ctx q');
  cd_gone : Forall (acked_by (sc_ack (sq_ctx q')) sacks) gone;
  cd_acked : acked = u32 (total_len gone)
}.

(** The context the loop starts with. *)
Definition confirm_start (c : SendContext) (ackStreamPos : Z) : SendContext :=
  let c := count_dup_ack c ackStreamPos in
  if sc_ack c <? ackStreamPos
  then set_acks c ackStreamPos (sc_latestAck c) (sc_prevDupAck c) (sc_dupAckTimes c) else c.

Lemma confirm_start_spec c ack :
  let c' := confirm_start c ack in
  sc_ack c' = Z.max (sc_ack c) ack ∧ sc_streamPos c' = sc_streamPos c ∧
  sc_flightBlocks c' = sc_flightBlocks c ∧ sc_lostBlocks c' = sc_lostBlocks c ∧
  sc_flight c' = sc_flight c ∧ sc_lost c' = sc_lost c ∧
  (ctx_inv c → 0 ≤ ack →
   (0 ≤ sc_latestAck c' ≤ sc_ack c' ∧ 0 ≤ sc_prevDupAck c' ≤ sc_ack c') ∧
   (sc_dupAckTimes c' = 4 → sc_ack c' = sc_ack c)).
Proof.
  unfold confirm_start, count_dup_ack.
  destruct (Z.ltb_spec (sc_prevDupAck c) ack), (Z.ltb_spec (sc_latestAck c) ack);
    try destruct (Z.eqb_spec (sc_latestAck c) ack); simpl;
    destruct (Z.ltb_spec (sc_ack c) ack); simpl; split_and!; try done; try lia;
    intros [_ _ _ _ _ _ _ Hlat] Hack0; simpl in *; lia.
Qed.

Lemma confirm_start_inv c ack :
  ctx_inv c → 0 ≤ ack →
  let c' := confirm_start c ack in
  conf_inv (set_lists c' [] (sc_flight c') [] (sc_lost c')) (sc_flightBlocks c') (sc_lostBlocks c').
Proof.
  intros Hc H0. destruct (confirm_start_spec c ack) as (Ea & _ & EF & EL & Ef & El & Hr).
  destruct (Hr Hc H0) as [Hlat Hdup]. destruct Hc as [HF HL Hd Hn Hf Hl Hlive _].
  unfold outstanding in *. split; cbn; rewrite ?EF, ?EL, ?Ef, ?El; try done.
  - by apply pool_open.
  - intros x Hx. by apply elem_of_nil in Hx.
  - intros H4 b Hb. rewrite (Hdup H4). by apply Hlive.
Qed.

Lemma ConfirmRange_spec lo q ack sacks :
  sq_inv lo q → 0 ≤ ack ≤ sc_streamPos (sq_ctx q) →
  ∃ acked q' gone,
    SendQueueConfirmRange q ack sacks =
      Some (if acked =? 0 then BFX_RESULT_NOT_CHANGED else BFX_RESULT_SUCCESS, acked, q') ∧
    confirmed lo q q' ack sacks acked gone.
Proof.
  intros Hq Hack. unfold SendQueueConfirmRange.
  destruct ((ack <? _) && _) eqn:E.
  { exists 0, q, []. split; [done|]. split; try done. lia. }
  clear E. fold (confirm_start (sq_ctx q) ack). destruct Hq as [Hc Hs Hd Hsd Ha Hm Hf].
  pose proof (so_range _ _ _ Hsd) as Hr.
  pose proof (confirm_start_inv _ ack Hc ltac:(lia)) as Hi. cbn zeta in Hi.
  destruct (confirm_start_spec (sq_ctx q) ack) as (Ea & Ep & EF & EL & _).
  set (c0 := confirm_start (sq_ctx q) ack) in *.
  destruct (confirm_loop_spec (S (length (sc_flightBlocks c0) + length (sc_lostBlocks c0)))
    (set_lists c0 [] (sc_flight c0) [] (sc_lost c0)) 0 sacks (sc_flightBlocks c0) (sc_lostBlocks c0)
    ltac:(lia) Hi) as (c' & acked & gone & -> & [Hl Hg Hk [Pa Pp] Hi']).
  cbn in Hl, Hg, Pa, Pp. cbn [mbind option_bind].
  rewrite EF, EL in Hl. unfold outstanding in *. rewrite conf_inv_ctx in Hi'.
  assert (Hsub : ∀ x, x ∈ outstanding c' → x ∈ outstanding (sq_ctx q)).
  { intros x Hx. unfold outstanding. rewrite Hl, elem_of_app. by right. }
  exists acked, (set_ctx q c' (sq_sending q)), gone. split; [done|].
  split; simpl; rewrite ?Pa, ?Pp, ?Ea, ?Ep; try done.
  - split; simpl; rewrite ?Pp, ?Ep, ?Pa, ?Ea; try done; auto; lia.
  - by rewrite Ea in Hg.
  - by apply Hk.
Qed.

(** ** Timeouts *)

Lemma asc_total lo hi bs :
  asc bs → lo ≤ hi → (∀ b, b ∈ bs → lo ≤ bk_start b < bk_end b ∧ bk_end b ≤ hi) →
  0 ≤ total_len bs ≤ hi - lo.
Proof.
  revert lo. induction bs as [|b bs IH]; intros lo; [unfold total_len; simpl; lia|].
  intros [Hb Ha] Hle H. rewrite total_len_cons. destruct (H b ltac:(by left)).
  destruct (IH (bk_end b) Ha); [lia| |unfold bk_len; lia].
  intros c Hc. destruct (H c ltac:(by right)). specialize (Hb c Hc). unfold before in Hb. lia.
Qed.

Lemma asc_filter (f : SendBlock → bool) (v : bool) bs :
  asc bs → asc (filter (λ b, f b = v) bs).
Proof.
  induction bs as [|b bs IH]; [done|]. intros [Hb Ha]. rewrite filter_cons. case_decide; [|by apply IH].
  split; [|by apply IH]. intros y Hy. apply Hb. by apply list_elem_of_filter in Hy as [_ ?].
Qed.

Lemma asc_both bs x y : asc bs → x ∈ bs → y ∈ bs → x ≠ y → before x y ∨ before y x.
Proof.
  induction bs as [|b bs IH]; [by intros _ ?%elem_of_nil|]. intros [Hb Ha].
  intros [->|Hx]%elem_of_cons [->|Hy]%elem_of_cons Hne; [done|left; auto|right; auto|auto].
Qed.

Lemma filter_both (f : SendBlock → bool) bs :
  filter (λ b, f b = true) bs ++ filter (λ b, f b = false) bs ≡ₚ bs.
Proof.
  induction bs as [|b bs IH]; [done|]. rewrite !filter_cons. destruct (f b) eqn:E.
  - rewrite decide_True, decide_False by done. cbn. by rewrite IH.
  - rewrite decide_False, decide_True by done. rewrite <- Permutation_middle. by rewrite IH.
Qed.

Lemma fold_total bs n :
  0 ≤ n < 2 ^ 32 → foldl (λ n b, u32 (n + bk_len b)) n bs = u32 (n + total_len bs).
Proof.
  revert n. induction bs as [|b bs IH]; intros n Hn; simpl.
  - unfold total_len. simpl. by rewrite Z.add_0_r, u32_id.
  - rewrite IH by apply u32_range. rewrite u32_add_l. f_equal. unfold total_len. simpl. lia.
Qed.

Lemma total_nonneg bs : nonempty bs → 0 ≤ total_len bs.
Proof.
  induction bs as [|c bs IH]; [done|]. intros Hn. rewrite total_len_cons.
  assert (0 ≤ total_len bs) by (apply IH; intros x Hx; apply Hn; by right).
  pose proof (Hn c ltac:(by left)). unfold bk_len. lia.
Qed.

Lemma total_pos bs : nonempty bs → total_len bs = 0 → bs = [].
Proof.
  destruct bs as [|b bs]; [done|]. intros Hn H. exfalso. rewrite total_len_cons in H.
  assert (0 ≤ total_len bs) by (apply total_nonneg; intros x Hx; apply Hn; by right).
  pose proof (Hn b ltac:(by left)). unfold bk_len in H. lia.
Qed.

(** The bytes between the acknowledged and the sent position stay below 4 GiB
    (less one block), so that [flight] does not wrap. *)
Definition window_ok (c : SendContext) : Prop := sc_streamPos c - sc_ack c ≤ 2 ^ 32 - 2 ^ 16 - 1.

Record timed (lo : Z) (force : bool) (now rto : Z) (q q' : SendQueue) (total : Z) : Prop := {
  ti_inv : sq_inv lo q';
  ti_flight : sc_flightBlocks (sq_ctx q') =
              filter (λ b, timed_out force now rto b = false) (sc_flightBlocks (sq_ctx q));
  ti_lost : sc_lostBlocks (sq_ctx q') ≡ₚ
            sc_lostBlocks (sq_ctx q) ++ filter (λ b, timed_out force now rto b = true) (sc_flightBlocks (sq_ctx q));
  ti_total : total = total_len (filter (λ b, timed_out force now rto b = true) (sc_flightBlocks (sq_ctx q)));
  ti_outstanding : outstanding (sq_ctx q') ≡ₚ outstanding (sq_ctx q);
  ti_pos : same_pos (sq_ctx q) (sq_ctx q');
  ti_sending : sq_sending q' = sq_sending q
}.

Lemma timeout_lists c c' (f : SendBlock → bool) :
  ctx_inv c → same_pos c c' → sc_latestAck c' = sc_latestAck c → sc_prevDupAck c' = sc_prevDupAck c →
  sc_flightBlocks c' = filter (λ b, f b = false) (sc_flightBlocks c) →
  sc_lostBlocks c' = MoveFlightToLost (sc_lostBlocks c) (filter (λ b, f b = true) (sc_flightBlocks c)) →
  sc_flight c' = u32 (total_len (sc_flightBlocks c')) → sc_lost c' = u64 (total_len (sc_lostBlocks c')) →
  ctx_inv c' ∧ sc_lostBlocks c' ≡ₚ sc_lostBlocks c ++ filter (λ b, f b = true) (sc_flightBlocks c) ∧
  outstanding c' ≡ₚ outstanding c.
Proof.
  intros [HF HL Hd Hn Hf Hl Hlive Hlat] [Ea Ep] E1 E2 EF EL Ef' El'.
  set (out := filter (λ b, f b = true) (sc_flightBlocks c)) in *.
  assert (Hout : ∀ x, x ∈ out → x ∈ sc_flightBlocks c) by (by intros x [_ ?]%list_elem_of_filter).
  assert (Hkept : ∀ x, x ∈ sc_flightBlocks c' → x ∈ sc_flightBlocks c)
    by (rewrite EF; by intros x [_ ?]%list_elem_of_filter).
  destruct (MoveFlightToLost_spec (sc_lostBlocks c) out) as [HL' Hperm]; try done.
  { by apply asc_filter. }
  { intros x y Hx Hy. apply Hd; auto. }
  { intros x Hx. apply Hn. unfold outstanding. rewrite elem_of_app in *. destruct Hx; auto. }
  rewrite <- EL in HL', Hperm.
  assert (Ho : outstanding c' ≡ₚ outstanding c).
  { unfold outstanding. rewrite Hperm, EF. rewrite (Permutation_app_comm (sc_lostBlocks c)), app_assoc.
    apply Permutation_app_tail. rewrite Permutation_app_comm. apply filter_both. }
  split; [|done]. split; try done; rewrite ?Ea, ?E1, ?E2; try done.
  - rewrite EF. by apply asc_filter.
  - intros x y Hx Hy. rewrite Hperm, elem_of_app in Hy. destruct Hy as [Hy|Hy]; [by apply Hd; auto|].
    (* both from the flight: ordered by it *)
    apply Hkept in Hx as Hx'. rewrite EF in Hx. apply list_elem_of_filter in Hx as [Hx _].
    apply list_elem_of_filter in Hy as [Hy Hy']. apply (asc_both (sc_flightBlocks c)); try done.
    congruence.
  - intros x. rewrite Ho. apply Hn.
  - intros x. rewrite Ho. apply Hlive.
Qed.

Lemma flight_bound lo q :
  sq_inv lo q → window_ok (sq_ctx q) → 0 ≤ total_len (sc_flightBlocks (sq_ctx q)) < 2 ^ 32.
Proof.
  intros [Hc Hs Hd Hsd Ha Hm Hf] Hw. unfold window_ok in Hw.
  destruct (asc_total (sc_ack (sq_ctx q) - 2 ^ 16 + 2) (sc_streamPos (sq_ctx q))
    (sc_flightBlocks (sq_ctx q)) (cx_F _ Hc)); [lia| |lia].
  intros b Hb. assert (Ho : b ∈ outstanding (sq_ctx q)) by (unfold outstanding; rewrite elem_of_app; by left).
  pose proof (cx_ne _ Hc b Ho). pose proof (cx_live _ Hc b Ho). destruct (Hs b Ho) as [? Hl].
  unfold bk_len in Hl. lia.
Qed.

Lemma MarkRangeTimeout_spec lo q (force : bool) now rto :
  sq_inv lo q → window_ok (sq_ctx q) →
  ∃ total q', SendQueueMarkRangeTimeout q force now rto = Some (total, q') ∧
    timed lo force now rto q q' total.
Proof.
  intros Hq Hw. pose proof (flight_bound lo q Hq Hw) as Hb.
  destruct Hq as [Hc Hs Hd Hsd Ha Hm Hf].
  unfold SendQueueMarkRangeTimeout. set (f := timed_out force now rto).
  set (out := filter (λ b, f b = true) _). set (kept := filter (λ b, f b = false) _).
  assert (Hsplit : total_len out + total_len kept = total_len (sc_flightBlocks (sq_ctx q))).
  { rewrite <- total_len_app. apply total_len_perm, filter_both. }
  assert (Hnf : nonempty (sc_flightBlocks (sq_ctx q))).
  { intros b Hb'. apply (cx_ne _ Hc). unfold outstanding. rewrite elem_of_app. by left. }
  assert (Hno : ∀ v, nonempty (filter (λ b, f b = v) (sc_flightBlocks (sq_ctx q)))).
  { intros v b [_ Hb']%list_elem_of_filter. by apply Hnf. }
  pose proof (total_nonneg out (Hno true)). pose proof (total_nonneg kept (Hno false)).
  rewrite fold_total, Z.add_0_l, (u32_id (total_len out)) by lia.
  pose proof (cx_flight _ Hc) as Efl. rewrite u32_id in Efl by lia.
  destruct (total_len out >? 0) eqn:Et; [destruct (Z.ltb_spec (sc_flight (sq_ctx q)) (total_len out)); [lia|]|].
  - set (c' := set_lists _ _ _ _ _).
    destruct (timeout_lists (sq_ctx q) c' f Hc) as (Hc' & Hperm & Ho); try done.
    { simpl. rewrite Efl. f_equal. fold kept. lia. }
    { simpl. rewrite (cx_lost _ Hc), u64_add_l. f_equal.
      destruct (MoveFlightToLost_spec (sc_lostBlocks (sq_ctx q)) out) as [_ Hp].
      - apply Hc.
      - apply asc_filter, Hc.
      - intros x y [_ Hx]%list_elem_of_filter Hy. by apply (cx_apart _ Hc).
      - intros x [Hx|Hx]%elem_of_app; [by apply (Hno true)|].
        apply (cx_ne _ Hc). unfold outstanding. rewrite elem_of_app. by right.
      - fold out. rewrite (total_len_perm _ _ Hp), total_len_app. done. }
    eexists _, _. split; [reflexivity|]. split; simpl; try done.
    split; simpl; try done; intros b; rewrite Ho; auto.
  - assert (out = []) as Eo by (apply total_pos; [apply Hno|lia]).
    assert (kept = sc_flightBlocks (sq_ctx q)) as Ek.
    { unfold kept. apply filter_all. intros b Hb'. destruct (f b) eqn:E; [|done].
      assert (b ∈ out) as Hin by (by apply list_elem_of_filter). rewrite Eo in Hin. by apply elem_of_nil in Hin. }
    rewrite Ek. exists (total_len out), q. split.
    + do 2 f_equal. destruct q as [[]]. done.
    + split; try done. fold f out. rewrite Eo. by rewrite app_nil_r.
Qed.

(** ** Completed buffers *)

Lemma pop_complete_spec ack out curr bufs lo hi :
  chain lo bufs hi → (∀ b, b ∈ bufs → curr = Some (sb_id b) → ack < sb_end b) →
  ∃ popped rest lo', pop_complete ack out curr bufs = (popped, curr, rest) ∧ bufs = popped ++ rest ∧
    chain lo popped lo' ∧ chain lo' rest hi ∧ (popped = [] ∧ lo' = lo ∨ lo' ≤ ack) ∧
    match rest with b :: _ => ack < sb_end b | [] => True end.
Proof.
  revert lo. induction bufs as [|b bufs IH]; intros lo Hc Hcur; simpl.
  - exists [], [], lo. split_and!; try done. by left.
  - destruct Hc as (H1 & H2 & H3 & Hc). destruct (sb_end b >? ack) eqn:E.
    + exists [], (b :: bufs), lo. split_and!; try done; [by left|lia].
    + rewrite decide_False by (intros E'; specialize (Hcur b ltac:(by left) E'); lia).
      destruct (IH _ Hc) as (popped & rest & lo' & -> & -> & Hp & Hr & Hl & Hm).
      { intros c Hc'. apply Hcur. by right. }
      exists (b :: popped), rest, lo'. split_and!; try done. right. destruct Hl as [[-> ->]|?]; lia.
Qed.

Record popped_ok (lo : Z) (q q' : SendQueue) (ack : Z) (popped : list SendBuffer) (lo' : Z) : Prop := {
  pk_inv : sq_inv lo' q';
  pk_buffers : sd_buffers (sq_sending q) = popped ++ sd_buffers (sq_sending q');
  pk_chain : chain lo popped lo';
  pk_ctx : sq_ctx q' = sq_ctx q;
  pk_acked : popped = [] ∧ lo' = lo ∨ lo' ≤ ack;
  pk_rest : match sd_buffers (sq_sending q') with b :: _ => ack < sb_end b | [] => True end
}.

Lemma curr_at_some s bufs i :
  curr_at s bufs = Some i → ∃ u, u ∈ bufs ∧ sb_id u = i ∧ s < sb_end u.
Proof.
  induction bufs as [|b bufs IH]; [done|]. simpl. destruct (Z.ltb_spec s (sb_end b)).
  - intros [= <-]. exists b. split; [by left|done].
  - intros H'. destruct (IH H') as (u & ? & ?). exists u. split; [by right|done].
Qed.

Lemma NoDup_id_eq (bufs : list SendBuffer) u v :
  NoDup (sb_id <$> bufs) → u ∈ bufs → v ∈ bufs → sb_id u = sb_id v → u = v.
Proof.
  induction bufs as [|b bufs IH]; [by intros _ ?%elem_of_nil|]. rewrite fmap_cons.
  intros [Hni Hnd]%NoDup_cons [->|Hu]%elem_of_cons [->|Hv]%elem_of_cons E; try done; [..|by apply IH].
  - exfalso. apply Hni. rewrite E. by apply list_elem_of_fmap_2.
  - exfalso. apply Hni. rewrite <- E. by apply list_elem_of_fmap_2.
Qed.

Lemma PopComplete_spec lo q ack out buffers :
  sq_inv lo q → ack ≤ sc_ack (sq_ctx q) →
  ∃ popped q' lo', SendQueuePopCompleteBuffers q ack out buffers = (buffers ++ popped, q') ∧
    popped_ok lo q q' ack popped lo'.
Proof.
  intros [Hc Hs Hd Hsd Ha Hm Hf] Hack. destruct Hsd as [Hch Hr Ho Hcu Hu Hi].
  unfold SendQueuePopCompleteBuffers.
  destruct (pop_complete_spec ack out (sd_curr (sq_sending q)) (sd_buffers (sq_sending q)) lo
    (sd_streamPos (sq_sending q)) Hch) as (popped & rest & lo' & -> & Eb & Hcp & Hcr & Hl & Hrest).
  { intros b Hb E. rewrite Hcu in E. apply curr_at_some in E as (u & Hu' & E & Hlt).
    rewrite (NoDup_id_eq _ u b Hi Hu' Hb E) in Hlt. lia. }
  exists popped. eexists _, lo'. split; [reflexivity|].
  assert (Hlo : lo ≤ lo' ∧ lo' ≤ sc_ack (sq_ctx q)).
  { apply chain_le in Hcp. destruct Hl as [[_ ->]|?]; lia. }
  assert (Hpop : ∀ b, b ∈ popped → sb_end b ≤ sc_ack (sq_ctx q)).
  { intros b Hb. destruct (chain_elem _ _ _ _ Hcp Hb). lia. }
  split; simpl; try done. split; simpl; try done; try lia.
  - intros b Hb. destruct (Hd b Hb) as (u & Hu' & H1 & H2 & H3). exists u. split; [|done].
    rewrite Eb in Hu'. apply elem_of_app in Hu' as [Hu'|Hu']; [|done].
    specialize (Hpop u Hu'). pose proof (cx_live _ Hc b Hb). lia.
  - split; simpl; try done; try lia.
    + intros b Hb. apply Ho. rewrite Eb, elem_of_app. by right.
    + rewrite Hcu, Eb, curr_at_app; [done|]. intros b Hb. specialize (Hpop b Hb). lia.
    + rewrite Eb, fmap_app in Hi. by apply NoDup_app in Hi as (_ & _ & ?).
  - intros u Hu'. apply Hf. rewrite Eb, elem_of_app. by right.
Qed.

(** ** The cache of units *)

(** Units are neither lost nor duplicated. *)
Definition units (c : BdtSendCache) : list Z := cache_free c ++ cache_use c.

Lemma NewUnit_units c u c' :
  BdtSendCacheNewUnit c = (Some u, c') → units c' ≡ₚ units c ∧ u ∈ cache_use c'.
Proof.
  unfold BdtSendCacheNewUnit, units. destruct (cache_free c) as [|x free]; [done|].
  intros [= -> <-]. simpl. split.
  - rewrite app_assoc. symmetry. apply Permutation_cons_append.
  - rewrite elem_of_app. right. by left.
Qed.

Lemma DeleteUnit_units c u c' :
  NoDup (units c) → BdtSendCacheDeleteUnit c u = Some c' → units c' ≡ₚ units c.
Proof.
  unfold BdtSendCacheDeleteUnit, units. intros Hnd. case_decide as Hu; [|done]. intros [= <-]. simpl.
  apply NoDup_app in Hnd as (_ & _ & Hnd). rewrite <- app_assoc. apply Permutation_app_head.
  apply list_elem_of_split in Hu as (l1 & l2 & E). rewrite E in *. clear E.
  rewrite <- Permutation_middle in *. apply NoDup_cons in Hnd as [Hni Hnd]. rewrite filter_cons_False by naive_solver.
  cbn. constructor. rewrite filter_all; [done|]. intros x Hx ->. done.
Qed.
