(* ===== verification/SendTheorems.v ===== *)
(** * What the send queue guarantees

    Executions of the send queue under any sequence of its operations, with
    the peer's acknowledgements bounded by what was sent, and the theorems on
    the single operations. *)

From S2P Require Import Prelude CInt RecvQueue SendQueue SendProofs.

(** ** Executions *)

(** The queue with the history an outside observer keeps: the selective ranges
    the peer reported and the buffers handed back. *)
Record SQRun := mkRun {
  run_q : SendQueue; run_sacks : list BdtStreamRange; run_popped : list SendBuffer }.

(** The operations.  The caller of [SendQueuePopCompleteBuffers] sees an
    acknowledged position read earlier, hence a smaller or equal one. *)
Inductive sq_step : SQRun → SQRun → Prop :=
  | sq_add q sacks popped data len callback r q' :
      0 ≤ len → sd_streamPos (sq_sending q) + len < pos_bound →
      SendQueueAddBuffer q data len callback = (r, q') →
      sq_step (mkRun q sacks popped) (mkRun q' sacks popped)
  | sq_fill q sacks popped now r p q' :
      SendQueueFillPayload q now = Some (r, p, q') →
      sq_step (mkRun q sacks popped) (mkRun q' sacks popped)
  | sq_fill_old q sacks popped inLength now r p q' :
      SendQueueFillPayloadFromOld q inLength now = (r, p, q') →
      sq_step (mkRun q sacks popped) (mkRun q' sacks popped)
  | sq_fill_new q sacks popped inLength now r p q' :
      0 ≤ inLength < 2 ^ 16 → SendQueueFillPayloadFromNew q inLength now = Some (r, p, q') →
      sq_step (mkRun q sacks popped) (mkRun q' sacks popped)
  | sq_confirm q sacks popped ack sackArray r acked q' :
      0 ≤ ack ≤ sc_streamPos (sq_ctx q) →
      SendQueueConfirmRange q ack sackArray = Some (r, acked, q') →
      sq_step (mkRun q sacks popped) (mkRun q' (default [] sackArray ++ sacks) popped)
  | sq_timeout q sacks popped (force : bool) now rto total q' :
      window_ok (sq_ctx q) → SendQueueMarkRangeTimeout q force now rto = Some (total, q') →
      sq_step (mkRun q sacks popped) (mkRun q' sacks popped)
  | sq_pop q sacks popped ack out popped' q' :
      ack ≤ sc_ack (sq_ctx q) →
      SendQueuePopCompleteBuffers q ack out popped = (popped', q') →
      sq_step (mkRun q sacks popped) (mkRun q' sacks popped').

Definition in_ranges (l : list (Z * Z)) (p : Z) : Prop := ∃ r, r ∈ l ∧ r.1 ≤ p < r.2.
Definition in_sacks (l : list BdtStreamRange) (p : Z) : Prop :=
  ∃ r, r ∈ l ∧ sr_pos r ≤ p < sr_pos r + sr_length r.

Record run_inv (start : Z) (st : SQRun) : Prop := {
  ri_inv : ∃ lo, sq_inv lo (run_q st) ∧ chain start (run_popped st) lo;
  ri_acked : ∀ u, u ∈ run_popped st → sb_end u ≤ sc_ack (sq_ctx (run_q st));
  ri_sent : ∀ p, sc_ack (sq_ctx (run_q st)) ≤ p < sc_streamPos (sq_ctx (run_q st)) →
              in_ranges (ranges (sq_ctx (run_q st))) p ∨ in_sacks (run_sacks st) p
}.

Lemma in_ranges_perm l l' p : l ≡ₚ l' → in_ranges l p → in_ranges l' p.
Proof. intros E (r & Hr & ?). exists r. by rewrite <- E. Qed.

Lemma in_sacks_app l l' p : in_sacks (l ++ l') p ↔ in_sacks l p ∨ in_sacks l' p.
Proof. unfold in_sacks. setoid_rewrite elem_of_app. naive_solver. Qed.

(** A step that keeps the acknowledged position and loses no range. *)
Lemma run_inv_keep start q sacks popped q' lo :
  run_inv start (mkRun q sacks popped) → sq_inv lo q' → chain start popped lo →
  sc_ack (sq_ctx q') = sc_ack (sq_ctx q) →
  (∀ p, p < sc_streamPos (sq_ctx q') →
        p < sc_streamPos (sq_ctx q) ∨ in_ranges (ranges (sq_ctx q')) p) →
  (∀ p, in_ranges (ranges (sq_ctx q)) p → in_ranges (ranges (sq_ctx q')) p) →
  run_inv start (mkRun q' sacks popped).
Proof.
  intros [_ Hacked Hsent] Hq' Hch Ea Hp Hr. simpl in *. split; simpl; rewrite ?Ea; [eauto|done|].
  intros p Hlt. destruct (Hp p) as [?|?]; [lia| |by left].
  destruct (Hsent p) as [?|?]; [lia|left; auto|by right].
Qed.

Lemma run_inv_filled start q sacks popped q' p now lo :
  run_inv start (mkRun q sacks popped) → sq_inv lo q' → chain start popped lo →
  filled q q' p now → run_inv start (mkRun q' sacks popped).
Proof.
  intros Hi Hq' Hch (_ & Ea & _ & Hf). apply (run_inv_keep start q sacks popped q' lo); try done.
  - intros x Hx. destruct Hf as [(_ & E & _)|(E1 & E2 & Hr)]; [left; lia|].
    destruct (Z.lt_ge_cases x (sc_streamPos (sq_ctx q))); [by left|right].
    exists (pl_pos p, pl_pos p + pl_len p). rewrite Hr. split; [by left|simpl; lia].
  - intros x. destruct Hf as [(_ & _ & Hr)|(_ & _ & Hr)].
    + by apply in_ranges_perm.
    + intros (r & ? & ?). exists r. rewrite Hr. split; [by right|done].
Qed.

Lemma run_inv_confirm start q sacks popped q' lo ack sackArray acked gone :
  run_inv start (mkRun q sacks popped) → chain start popped lo →
  confirmed lo q q' ack sackArray acked gone →
  run_inv start (mkRun q' (default [] sackArray ++ sacks) popped).
Proof.
  intros [_ Hacked Hsent] Hch [Hq' Ea Ep Es Hl Hg _]. simpl in *.
  split; simpl; [eauto|intros u Hu; specialize (Hacked u Hu); lia|].
  intros p Hp. rewrite in_sacks_app. destruct (Hsent p) as [Hin|?]; [lia| |tauto].
  destruct Hin as (r & Hr & Hin). unfold ranges in Hr.
  apply list_elem_of_fmap in Hr as (b & -> & Hb). simpl in Hin. rewrite Hl in Hb.
  apply elem_of_app in Hb as [Hb|Hb].
  - rewrite Forall_forall in Hg. destruct (Hg b Hb) as [?|(r & ? & ? & ? & ?)]; [lia|].
    right. left. exists r. split; [done|lia].
  - left. exists (bk_start b, bk_end b). split; [|done].
    apply list_elem_of_fmap. eauto.
Qed.

Lemma run_inv_step start st st' : run_inv start st → sq_step st st' → run_inv start st'.
Proof.
  intros Hi Hstep. pose proof Hi as [(lo & Hq & Hch) Hacked Hsent].
  destruct Hstep as [q sacks popped data len cb r q' Hlen Hb E|q sacks popped now r p q' E
    |q sacks popped il now r p q' E|q sacks popped il now r p q' Hil E
    |q sacks popped ack sa r acked q' Hack E|q sacks popped force now rto total q' Hw E
    |q sacks popped ack out popped' q' Hack E]; simpl in *.
  - pose proof (AddBuffer_inv lo q data len cb Hq Hlen Hb) as Hq'. rewrite E in Hq'. simpl in Hq'.
    assert (Ec : sq_ctx q' = sq_ctx q).
    { unfold SendQueueAddBuffer in E. by case_match; simplify_eq. }
    apply (run_inv_keep start q sacks popped q' lo); rewrite ?Ec; try done. by left.
  - destruct (FillPayload_inv lo q now Hq) as (r' & p' & q1 & E' & Hq' & Hc). rewrite E in E'. simplify_eq.
    destruct Hc as [(_ & -> & _)|(_ & Hf)]; [done|]. by eapply run_inv_filled.
  - pose proof (FillPayloadFromOld_inv lo q il now Hq) as H. rewrite E in H. destruct H as [Hq' H].
    destruct p as [p|]; [|by destruct H as [-> _]]. destruct H as (_ & _ & Hf). by eapply run_inv_filled.
  - destruct (FillPayloadFromNew_inv lo q il now Hq Hil) as (r' & p' & q1 & E' & Hq' & Hc).
    rewrite E in E'. simplify_eq. destruct Hc as [(_ & -> & _)|(_ & _ & Hf & _)]; [done|].
    by eapply run_inv_filled.
  - destruct (ConfirmRange_spec lo q ack sa Hq Hack) as (acked' & q1 & gone & E' & Hc).
    rewrite E in E'. simplify_eq. by eapply run_inv_confirm.
  - destruct (MarkRangeTimeout_spec lo q force now rto Hq Hw) as (total' & q1 & E' & [Hq' _ _ _ Ho [Ea Ep] _]).
    rewrite E in E'. simplify_eq. apply (run_inv_keep start q sacks popped q1 lo); try done.
    + intros p ?. left. lia.
    + intros p. apply in_ranges_perm. unfold ranges. by rewrite Ho.
  - destruct (PopComplete_spec lo q ack out popped Hq Hack) as (pp & q1 & lo' & E' & [Hq' Eb Hc Ec Hk _]).
    rewrite E in E'. simplify_eq. split; simpl; rewrite ?Ec; try done.
    + exists lo'. split; [done|]. apply chain_app. eauto.
    + intros u [Hu|Hu]%elem_of_app; [by apply Hacked|]. destruct (chain_elem _ _ _ _ Hc Hu).
      destruct Hk as [[-> ->]|?]; [by apply elem_of_nil in Hu|]. lia.
Qed.

Lemma run_reachable start mtu st :
  0 ≤ start < pos_bound → 0 < mtu < 2 ^ 16 →
  rtc sq_step (mkRun (SendQueueCreate start mtu) [] []) st → run_inv start st.
Proof.
  intros Hs Hm H. pattern st. revert st H. apply rtc_ind_r.
  - split; simpl.
    + exists start. split; [by apply Create_inv|done].
    + by intros u ?%elem_of_nil.
    + intros p Hp. lia.
  - intros st1 st2 _ Hstep IH. by eapply run_inv_step.
Qed.

(** ** Theorems *)


(** C34: a confirmation frees exactly blocks that are acknowledged, by the
    position or by a selective range, keeps every other block, counts the
    freed bytes, never moves the acknowledged position back, and leaves no
    block that ends at or before it. *)
Theorem ConfirmRange_correct lo q ack sacks :
  sq_inv lo q → 0 ≤ ack ≤ sc_streamPos (sq_ctx q) →
  ∃ acked q' gone,
    SendQueueConfirmRange q ack sacks =
      Some (if acked =? 0 then BFX_RESULT_NOT_CHANGED else BFX_RESULT_SUCCESS, acked, q') ∧
    sc_ack (sq_ctx q') = Z.max (sc_ack (sq_ctx q)) ack ∧
    outstanding (sq_ctx q) ≡ₚ gone ++ outstanding (sq_ctx q') ∧
    Forall (acked_by (sc_ack (sq_ctx q')) sacks) gone ∧ acked = u32 (total_len gone) ∧
    (∀ b, b ∈ outstanding (sq_ctx q') → sc_ack (sq_ctx q') < bk_end b) ∧
    sq_sending q' = sq_sending q ∧ sq_inv lo q'.
Proof.
  intros Hq Hack. destruct (ConfirmRange_spec lo q ack sacks Hq Hack) as (acked & q' & gone & E & [Hi]).
  exists acked, q', gone. split_and!; try done. apply (cx_live _ (si_ctx _ _ Hi)).
Qed.

(** C33: [SendQueueFillPayload] answers [NOT_CHANGED] only when nothing is lost
    and nothing unsent; otherwise the payload is a block now in flight, its
    address points at the bytes of the stream position inside a live buffer,
    and it is either a lost block or the next [mtu] bytes at most. *)
Theorem FillPayload_correct lo q now :
  sq_inv lo q →
  ∃ r p q', SendQueueFillPayload q now = Some (r, p, q') ∧ sq_inv lo q' ∧
    if decide (r = BFX_RESULT_SUCCESS) then
      filled q q' p now ∧
      ∃ u, u ∈ sd_buffers (sq_sending q') ∧ sb_start u ≤ pl_pos p ∧ pl_pos p + pl_len p ≤ sb_end u ∧
           pl_data p = sb_data u + (pl_pos p - sb_start u)
    else r = BFX_RESULT_NOT_CHANGED ∧ q' = q ∧ sc_lostBlocks (sq_ctx q) = [] ∧
         SendQueueGetUnsendSize q = 0.
Proof.
  intros Hq. destruct (FillPayload_inv lo q now Hq) as (r & p & q' & E & Hq' & Hc).
  exists r, p, q'. split; [done|]. split; [done|].
  destruct Hc as [(-> & ? & ? & ?)|(-> & Hf)]; [by rewrite decide_False|].
  rewrite decide_True by done. split; [done|].
  destruct Hf as ((b & _ & _ & -> & _ & u & Hu & H1 & H2 & H3) & _). exists u. simpl.
  unfold bk_len. split_and!; try done. lia.
Qed.

(** A timeout moves from the flight to the lost blocks exactly the blocks
    whose time has passed (all of them when forced), in order, and moves their
    bytes between the two counters. *)
Theorem MarkRangeTimeout_correct lo q (force : bool) now rto :
  sq_inv lo q → window_ok (sq_ctx q) →
  let late b := timed_out force now rto b in
  ∃ total q', SendQueueMarkRangeTimeout q force now rto = Some (total, q') ∧ sq_inv lo q' ∧
    sc_flightBlocks (sq_ctx q') = filter (λ b, late b = false) (sc_flightBlocks (sq_ctx q)) ∧
    sc_lostBlocks (sq_ctx q') ≡ₚ
      sc_lostBlocks (sq_ctx q) ++ filter (λ b, late b = true) (sc_flightBlocks (sq_ctx q)) ∧
    asc (sc_lostBlocks (sq_ctx q')) ∧
    SendQueueGetFilght q' = SendQueueGetFilght q - total ∧
    SendQueueGetLostSize q' = u64 (SendQueueGetLostSize q + total) ∧
    total = total_len (filter (λ b, late b = true) (sc_flightBlocks (sq_ctx q))).
Proof.
  intros Hq Hw late. destruct (MarkRangeTimeout_spec lo q force now rto Hq Hw) as (total & q' & E & [Hi Hf Hl Ht Ho Hp Hs]).
  exists total, q'. split; [done|]. split; [done|]. split; [done|]. split; [done|].
  split; [apply (cx_L _ (si_ctx _ _ Hi))|]. pose proof (flight_bound lo q Hq Hw) as Hb.
  pose proof (total_len_perm _ _ (filter_both late (sc_flightBlocks (sq_ctx q)))) as Hsum.
  rewrite total_len_app in Hsum. unfold SendQueueGetFilght, SendQueueGetLostSize.
  rewrite (cx_flight _ (si_ctx _ _ Hi)), (cx_lost _ (si_ctx _ _ Hi)), (cx_flight _ (si_ctx _ _ Hq)), (cx_lost _ (si_ctx _ _ Hq)).
  rewrite Hf, (total_len_perm _ _ Hl), total_len_app, u64_add_l.
  assert (Hnn : ∀ v, 0 ≤ total_len (filter (λ b, late b = v) (sc_flightBlocks (sq_ctx q)))).
  { intros v. apply total_nonneg. intros b [_ Hb']%list_elem_of_filter.
    apply (cx_ne _ (si_ctx _ _ Hq)). unfold outstanding. rewrite elem_of_app. by left. }
  pose proof (Hnn true). pose proof (Hnn false). unfold late in *.
  split_and!; [|by rewrite Ht|done]. rewrite !u32_id by lia. lia.
Qed.

(** The buffers handed back by [SendQueuePopCompleteBuffers] are the longest
    prefix of the queue's buffers that is acknowledged; blocks and counters
    are untouched and the queue stays well-formed. *)
Theorem PopCompleteBuffers_correct lo q ack out buffers :
  sq_inv lo q → ack ≤ sc_ack (sq_ctx q) →
  ∃ popped q' lo', SendQueuePopCompleteBuffers q ack out buffers = (buffers ++ popped, q') ∧
    sd_buffers (sq_sending q) = popped ++ sd_buffers (sq_sending q') ∧
    (∀ u, u ∈ popped → sb_end u ≤ ack) ∧
    match sd_buffers (sq_sending q') with u :: _ => ack < sb_end u | [] => True end ∧
    sq_ctx q' = sq_ctx q ∧ sq_inv lo' q'.
Proof.
  intros Hq Hack. destruct (PopComplete_spec lo q ack out buffers Hq Hack) as (popped & q' & lo' & E & [Hi Hb Hc He Hk Hr]).
  exists popped, q', lo'. split_and!; try done. intros u Hu. destruct (chain_elem _ _ _ _ Hc Hu).
  destruct Hk as [[-> ->]|?]; [by apply elem_of_nil in Hu|lia].
Qed.

(** The fourth acknowledgement of the same position retransmits: the block
    that starts there leaves the flight for the lost blocks and the duplicate
    count starts again. *)
Theorem fourth_duplicate_ack_retransmits lo q b fs :
  sq_inv lo q → sc_lostBlocks (sq_ctx q) = [] → sc_flightBlocks (sq_ctx q) = b :: fs →
  bk_start b = sc_ack (sq_ctx q) → sc_latestAck (sq_ctx q) = sc_ack (sq_ctx q) →
  sc_prevDupAck (sq_ctx q) < sc_ack (sq_ctx q) → sc_dupAckTimes (sq_ctx q) = 3 →
  ∃ q', SendQueueConfirmRange q (sc_ack (sq_ctx q)) None = Some (BFX_RESULT_NOT_CHANGED, 0, q') ∧
    sc_flightBlocks (sq_ctx q') = fs ∧ sc_lostBlocks (sq_ctx q') = [b] ∧
    sc_prevDupAck (sq_ctx q') = sc_ack (sq_ctx q) ∧ sc_dupAckTimes (sq_ctx q') = 0.
Proof.
  intros Hq EL EF Eb Elat Hprev Edup.
  assert (Hfs : ∀ f, f ∈ fs → sc_ack (sq_ctx q) < bk_end f ∧ sc_ack (sq_ctx q) ≤ bk_start f).
  { intros f Hf. pose proof (cx_F _ (si_ctx _ _ Hq)) as Ha. rewrite EF in Ha. destruct Ha as [Ha _].
    specialize (Ha f Hf). unfold before in Ha.
    assert (Hn : ∀ x, x ∈ b :: fs → bk_start x < bk_end x).
    { intros x Hx. apply (cx_ne _ (si_ctx _ _ Hq)). unfold outstanding. rewrite EF, elem_of_app. by left. }
    pose proof (Hn b ltac:(by left)). pose proof (Hn f ltac:(by right)). lia. }
  unfold SendQueueConfirmRange. rewrite Z.ltb_irrefl. cbn [andb].
  unfold count_dup_ack. rewrite (proj2 (Z.ltb_lt _ _) Hprev), Elat, Z.ltb_irrefl, Z.eqb_refl, Edup.
  change (u8 (3 + 1)) with 4. cbn -[confirm_loop]. rewrite Z.ltb_irrefl. cbn -[confirm_loop].
  rewrite EF, EL, Nat.add_0_r. cbn [length]. cbn [confirm_loop].
  unfold block_state at 1. simpl. rewrite Eb, Z.eqb_refl. cbn -[confirm_loop].
  destruct fs as [|f fs].
  - eexists. split; [reflexivity|]. done.
  - destruct (Hfs f ltac:(by left)) as [H1 H2]. cbn [confirm_loop]. unfold block_state. simpl.
    rewrite andb_false_r. unfold CheckBlockStateByAck.
    rewrite (proj2 (Z.leb_gt _ _) H1), (proj2 (Z.ltb_ge _ _) H2). simpl.
    eexists. split; [reflexivity|]. done.
Qed.

(** C34: acknowledgements are not compared with what was sent.  A position the
    queue never sent is accepted, its buffer is handed back as complete, and
    the cursor is left on the list header of the caller, so that the next fill
    reads a buffer that is not one. *)
Theorem ack_beyond_sent_dangles :
  let q0 := snd (SendQueueAddBuffer (SendQueueCreate 0 1400) 4096 10 1) in
  ∃ q1 q2 u, SendQueueConfirmRange q0 10 None = Some (BFX_RESULT_NOT_CHANGED, 0, q1) ∧
    SendQueuePopCompleteBuffers q1 (sc_ack (sq_ctx q1)) 77 [] = ([u], q2) ∧
    sb_offset u = sb_start u ∧ sc_streamPos (sq_ctx q2) = 0 ∧
    sd_curr (sq_sending q2) = Some 77 ∧ SendQueueFillPayload q2 0 = None.
Proof. do 3 eexists. split; [reflexivity|]. split; [reflexivity|]. done. Qed.

(** ** A concrete queue

    A buffer of 2500 bytes sent in three blocks of at most 1000. *)
Definition demo_added : SendQueue := snd (SendQueueAddBuffer (SendQueueCreate 0 1000) 4096 2500 1).
Definition fill_at (q : SendQueue) (now : Z) : SendQueue :=
  match SendQueueFillPayload q now with Some (_, _, q') => q' | None => q end.
Definition ack_at (q : SendQueue) (ack : Z) : SendQueue :=
  match SendQueueConfirmRange q ack None with Some (_, _, q') => q' | None => q end.
Definition demo_sent : SendQueue := fill_at (fill_at (fill_at demo_added 5) 6) 7.
Definition demo_dup : SendQueue := ack_at (ack_at (ack_at demo_sent 1000) 1000) 1000.

Lemma fill_at_inv lo q now : sq_inv lo q → sq_inv lo (fill_at q now).
Proof. intros H. unfold fill_at. by destruct (FillPayload_inv lo q now H) as (? & ? & ? & -> & ? & _). Qed.

Lemma demo_sent_inv : sq_inv 0 demo_sent.
Proof. do 3 apply fill_at_inv. by apply AddBuffer_inv; [apply Create_inv|..]. Qed.

Lemma ack_at_inv lo q ack :
  sq_inv lo q → 0 ≤ ack ≤ sc_streamPos (sq_ctx q) → sq_inv lo (ack_at q ack).
Proof.
  intros H Ha. unfold ack_at. destruct (ConfirmRange_spec lo q ack None H Ha) as (? & ? & ? & -> & [? _]). done.
Qed.

Lemma demo_dup_inv : sq_inv 0 demo_dup.
Proof. repeat (apply ack_at_inv; [|vm_compute; split; discriminate]). apply demo_sent_inv. Qed.

Lemma demo_run : rtc sq_step (mkRun (SendQueueCreate 0 1000) [] []) (mkRun demo_sent [] []).
Proof.
  eapply rtc_l; [eapply (sq_add _ _ _ 4096 2500 1); [done|done|reflexivity]|].
  eapply rtc_l; [eapply (sq_fill _ _ _ 5); vm_compute; reflexivity|].
  eapply rtc_l; [eapply (sq_fill _ _ _ 6); vm_compute; reflexivity|].
  eapply rtc_l; [eapply (sq_fill _ _ _ 7); vm_compute; reflexivity|].
  apply rtc_refl.
Qed.


Lemma ConfirmRange_correct_witness :
  ∃ acked q', SendQueueConfirmRange demo_sent 1000 (Some [mkRange 2000 500]) =
      Some (if acked =? 0 then BFX_RESULT_NOT_CHANGED else BFX_RESULT_SUCCESS, acked, q') ∧ sq_inv 0 q'.
Proof.
  destruct (ConfirmRange_correct 0 demo_sent 1000 (Some [mkRange 2000 500]) demo_sent_inv ltac:(by vm_compute))
    as (acked & q' & gone & E & _ & _ & _ & _ & _ & _ & Hi).
  exists acked, q'. exact (conj E Hi).
Defined.

Lemma FillPayload_correct_witness : ∃ r p q', SendQueueFillPayload demo_added 5 = Some (r, p, q') ∧ sq_inv 0 q'.
Proof.
  destruct (FillPayload_correct 0 demo_added 5) as (r & p & q' & E & Hi & _).
  { by apply AddBuffer_inv; [apply Create_inv|..]. }
  exists r, p, q'. exact (conj E Hi).
Defined.

Lemma MarkRangeTimeout_correct_witness :
  ∃ total q', SendQueueMarkRangeTimeout demo_sent false 10 3 = Some (total, q') ∧ sq_inv 0 q' ∧
    sc_flightBlocks (sq_ctx q') = [mkBlk 2000 2500 7 6096].
Proof.
  destruct (MarkRangeTimeout_correct 0 demo_sent false 10 3 demo_sent_inv ltac:(by vm_compute))
    as (total & q' & E & Hi & Hf & _).
  exists total, q'. exact (conj E (conj Hi Hf)).
Defined.

Lemma PopCompleteBuffers_correct_witness :
  ∃ popped q' lo', SendQueuePopCompleteBuffers demo_dup 1000 77 [] = (popped, q') ∧ sq_inv lo' q'.
Proof.
  destruct (PopCompleteBuffers_correct 0 demo_dup 1000 77 [] demo_dup_inv ltac:(by vm_compute))
    as (popped & q' & lo' & E & _ & _ & _ & _ & Hi).
  exists popped, q', lo'. exact (conj E Hi).
Defined.

Lemma fourth_duplicate_ack_retransmits_witness :
  ∃ q', SendQueueConfirmRange demo_dup 1000 None = Some (BFX_RESULT_NOT_CHANGED, 0, q') ∧
    sc_lostBlocks (sq_ctx q') = [mkBlk 1000 2000 6 5096].
Proof.
  destruct (fourth_duplicate_ack_retransmits 0 demo_dup (mkBlk 1000 2000 6 5096) [mkBlk 2000 2500 7 6096]
    demo_dup_inv eq_refl eq_refl eq_refl eq_refl ltac:(by vm_compute) eq_refl)
    as (q' & E & _ & H & _).
  exists q'. exact (conj E H).
Defined.
