(* ===== verification/Transfer.v ===== *)
(** * A transfer between two peers

    The send queue of one peer and the receive queue of the other, joined by a
    network that loses, repeats, reorders and delays packages and
    acknowledgements at will.  The theorem at the end is what the two queues
    promise together: the receiving application reads the bytes the sending
    application wrote, and a buffer is reported as sent only when the peer has
    all of it. *)

From S2P Require Import Prelude CInt RecvQueue RecvStream SendQueue SendProofs SendTheorems.

(** A package on the network: its stream position and its payload. *)
Record Packet := mkPacket { pk_pos : Z; pk_bytes : list Z }.

(** The two peers; [tr_net] and [tr_acks] hold everything ever sent, a package
    may be delivered any number of times or never. *)
Record Transfer := mkTransfer {
  tr_run : SQRun;                                   (* the sender's queue and its history *)
  tr_mem : Z → Z;                                   (* the sender's memory *)
  tr_net : list Packet;
  tr_acks : list (Z * option (list BdtStreamRange));
  tr_recv : RQThreads }.

Definition read_mem (mem : Z → Z) (addr len : Z) : list Z :=
  (λ i, mem (addr + Z.of_nat i)) <$> seq 0 (Z.to_nat len).

(** A successful call of one of the three functions that fill a payload. *)
Inductive sends (q : SendQueue) (p : Payload) (q' : SendQueue) : Prop :=
  | sends_any now : SendQueueFillPayload q now = Some (BFX_RESULT_SUCCESS, p, q') → sends q p q'
  | sends_old len now :
      SendQueueFillPayloadFromOld q len now = (BFX_RESULT_SUCCESS, Some p, q') → sends q p q'
  | sends_new len now : 0 ≤ len < 2 ^ 16 →
      SendQueueFillPayloadFromNew q len now = Some (BFX_RESULT_SUCCESS, p, q') → sends q p q'.

Section transfer.
(** The bytes the sending application writes, by position, and the position
    both peers start at. *)
Context (stream : Z → Z) (start mtu : Z).

(** An address inside a buffer the queue still holds. *)
Definition live (q : SendQueue) (a : Z) : Prop :=
  ∃ u, u ∈ sd_buffers (sq_sending q) ∧ sb_data u ≤ a < sb_data u + sb_len u.

Inductive t_step : Transfer → Transfer → Prop :=
  (* the sending application hands over a buffer with the next bytes *)
  | t_add q sacks popped mem net acks rv data len callback r q' :
      0 ≤ len → sd_streamPos (sq_sending q) + len < pos_bound →
      (∀ i, 0 ≤ i < len → mem (data + i) = stream (sd_streamPos (sq_sending q) + i)) →
      SendQueueAddBuffer q data len callback = (r, q') →
      t_step (mkTransfer (mkRun q sacks popped) mem net acks rv)
             (mkTransfer (mkRun q' sacks popped) mem net acks rv)
  (* it may write anywhere but in those buffers *)
  | t_write run mem mem' net acks rv :
      (∀ a, live (run_q run) a → mem' a = mem a) →
      t_step (mkTransfer run mem net acks rv) (mkTransfer run mem' net acks rv)
  | t_send q sacks popped mem net acks rv p q' :
      sends q p q' →
      t_step (mkTransfer (mkRun q sacks popped) mem net acks rv)
             (mkTransfer (mkRun q' sacks popped) mem
                (mkPacket (pl_pos p) (read_mem mem (pl_data p) (pl_len p)) :: net) acks rv)
  | t_confirm q sacks popped mem net acks rv ack sackArray r acked q' :
      (ack, sackArray) ∈ acks →
      SendQueueConfirmRange q ack sackArray = Some (r, acked, q') →
      t_step (mkTransfer (mkRun q sacks popped) mem net acks rv)
             (mkTransfer (mkRun q' (default [] sackArray ++ sacks) popped) mem net acks rv)
  | t_timeout q sacks popped mem net acks rv (force : bool) now rto total q' :
      window_ok (sq_ctx q) → SendQueueMarkRangeTimeout q force now rto = Some (total, q') →
      t_step (mkTransfer (mkRun q sacks popped) mem net acks rv)
             (mkTransfer (mkRun q' sacks popped) mem net acks rv)
  (* the sent buffers are handed back *)
  | t_complete q sacks popped mem net acks rv ack out popped' q' :
      ack ≤ sc_ack (sq_ctx q) →
      SendQueuePopCompleteBuffers q ack out popped = (popped', q') →
      t_step (mkTransfer (mkRun q sacks popped) mem net acks rv)
             (mkTransfer (mkRun q' sacks popped') mem net acks rv)
  (* a package arrives *)
  | t_arrive run mem net acks rq pend dl pk n rq' :
      pk ∈ net → RecvQueueSavePayload rq (pk_pos pk) (pk_bytes pk) = Some (n, rq') → n ≠ 0 →
      t_step (mkTransfer run mem net acks (mkThreads rq pend dl))
             (mkTransfer run mem net acks (mkThreads rq' ((pk_pos pk, pk_pos pk + n) :: pend) dl))
  | t_update run mem net acks rq pend1 s e pend2 dl t rq' :
      RecvQueueUpdateStreamPos rq s e = (t, rq') →
      t_step (mkTransfer run mem net acks (mkThreads rq (pend1 ++ (s, e) :: pend2) dl))
             (mkTransfer run mem net acks (mkThreads rq' (pend1 ++ pend2) dl))
  (* the receiving application gets filled buffers and hands over empty ones *)
  | t_deliver run mem net acks rq pend dl ack force dl' rq' :
      rq_read rq ≤ ack ≤ rq_ack rq →
      RecvQueuePopCompleteBuffers rq ack force dl = Some (dl', rq') →
      t_step (mkTransfer run mem net acks (mkThreads rq pend dl))
             (mkTransfer run mem net acks (mkThreads rq' pend dl'))
  | t_space run mem net acks rq pend dl data len bytes callback r rq' :
      0 ≤ len → Z.of_nat (length bytes) = len →
      RecvQueueAddBuffer rq data len bytes callback = (r, rq') →
      t_step (mkTransfer run mem net acks (mkThreads rq pend dl))
             (mkTransfer run mem net acks (mkThreads rq' pend dl))
  | t_ack run mem net acks rv :
      t_step (mkTransfer run mem net acks rv)
             (mkTransfer run mem net (RecvQueueGetAckInfo (th_queue rv) :: acks) rv).

Definition t_init (mem : Z → Z) : Transfer :=
  mkTransfer (mkRun (SendQueueCreate start mtu) [] []) mem [] [] (rq_init start).

(** ** The invariant *)

Definition packet_ok (hi : Z) (pk : Packet) : Prop :=
  start ≤ pk_pos pk ∧ pk_pos pk + Z.of_nat (length (pk_bytes pk)) ≤ hi ∧
  ∀ i, (i < length (pk_bytes pk))%nat → pk_bytes pk !! i = Some (stream (pk_pos pk + Z.of_nat i)).

(** The sender's live buffers hold the stream. *)
Definition mem_ok (q : SendQueue) (mem : Z → Z) : Prop :=
  ∀ u p, u ∈ sd_buffers (sq_sending q) → sb_start u ≤ p < sb_end u →
    mem (sb_data u + (p - sb_start u)) = stream p.

(** What the receiver says was received. *)
Definition ack_ok (rq : RecvQueue) (a : Z * option (list BdtStreamRange)) : Prop :=
  0 ≤ a.1 ≤ rq_ack rq ∧ ∀ p, in_sacks (default [] a.2) p → received rq p.

Record t_inv (t : Transfer) : Prop := {
  tv_run : run_inv start (tr_run t);
  tv_mem : mem_ok (run_q (tr_run t)) (tr_mem t);
  tv_net : ∀ pk, pk ∈ tr_net t → packet_ok (sc_streamPos (sq_ctx (run_q (tr_run t)))) pk;
  tv_recv : rq_inv stream start (tr_recv t);
  tv_known : ∀ p, known (tr_recv t) p → p < sc_streamPos (sq_ctx (run_q (tr_run t)));
  tv_acks : ∀ a, a ∈ tr_acks t → ack_ok (th_queue (tr_recv t)) a;
  tv_sack : sc_ack (sq_ctx (run_q (tr_run t))) ≤ rq_ack (th_queue (tr_recv t));
  tv_sacks : ∀ p, in_sacks (run_sacks (tr_run t)) p → received (th_queue (tr_recv t)) p
}.

Lemma sends_filled lo q p q' :
  sq_inv lo q → sends q p q' → ∃ now, sq_inv lo q' ∧ filled q q' p now.
Proof.
  intros Hq [now E|len now E|len now Hlen E].
  - destruct (FillPayload_inv lo q now Hq) as (r & p' & q1 & E' & Hq' & Hc). rewrite E in E'. simplify_eq.
    destruct Hc as [(? & _)|(_ & Hf)]; [done|eauto].
  - pose proof (FillPayloadFromOld_inv lo q len now Hq) as H. rewrite E in H.
    destruct H as [? (_ & _ & ?)]. eauto.
  - destruct (FillPayloadFromNew_inv lo q len now Hq Hlen) as (r & p' & q1 & E' & Hq' & Hc).
    rewrite E in E'. simplify_eq. destruct Hc as [(? & _)|(_ & _ & Hf & _)]; [done|eauto].
Qed.

(** The bytes of a payload are the stream's. *)
Lemma payload_bytes q p now mem :
  payload_ok q p now → mem_ok q mem →
  ∀ i, (i < length (read_mem mem (pl_data p) (pl_len p)))%nat →
    read_mem mem (pl_data p) (pl_len p) !! i = Some (stream (pl_pos p + Z.of_nat i)).
Proof.
  intros (b & _ & _ & -> & Hlen & u & Hu & H1 & H2 & H3) Hm i Hi. simpl in *. unfold read_mem in *.
  rewrite length_fmap, length_seq in Hi. rewrite list_lookup_fmap, lookup_seq_lt by done. simpl.
  f_equal. rewrite H3, <- (Hm u) by (done || unfold bk_len in *; lia). f_equal. lia.
Qed.

Lemma ack_ok_mono rq rq' a :
  rq_ack rq ≤ rq_ack rq' → (∀ p, received rq p → received rq' p) → ack_ok rq a → ack_ok rq' a.
Proof. intros H1 H2 [H3 H4]. split; [lia|]. auto. Qed.

(** A step of the receiver that only learns. *)
Lemma t_inv_recv t rv' :
  t_inv t → rq_inv stream start rv' →
  rq_ack (th_queue (tr_recv t)) ≤ rq_ack (th_queue rv') →
  (∀ p, received (th_queue (tr_recv t)) p → received (th_queue rv') p) →
  (∀ p, known rv' p → p < sc_streamPos (sq_ctx (run_q (tr_run t)))) →
  t_inv (mkTransfer (tr_run t) (tr_mem t) (tr_net t) (tr_acks t) rv').
Proof.
  intros [] Hi Ha Hr Hk. split; simpl; try done; eauto; [|lia].
  intros a Hin. eapply ack_ok_mono; eauto.
Qed.

(** A step of the sender that learns nothing from the receiver. *)
Lemma t_inv_sent t run' :
  t_inv t → run_inv start run' → mem_ok (run_q run') (tr_mem t) →
  sc_streamPos (sq_ctx (run_q (tr_run t))) ≤ sc_streamPos (sq_ctx (run_q run')) →
  sc_ack (sq_ctx (run_q run')) = sc_ack (sq_ctx (run_q (tr_run t))) →
  run_sacks run' = run_sacks (tr_run t) →
  t_inv (mkTransfer run' (tr_mem t) (tr_net t) (tr_acks t) (tr_recv t)).
Proof.
  intros [H1 H2 H3 H4 H5 H6 H7 H8] Hr Hm Hp Ea Es. split; simpl; rewrite ?Ea, ?Es; try done.
  - intros pk Hpk. destruct (H3 pk Hpk) as (? & ? & ?). split_and!; [done|lia|done].
  - intros p Hk. specialize (H5 p Hk). lia.
Qed.

Lemma mem_ok_view q q' mem :
  (buf_view <$> sd_buffers (sq_sending q')) = (buf_view <$> sd_buffers (sq_sending q)) →
  mem_ok q mem → mem_ok q' mem.
Proof.
  intros E H u p Hu Hp.
  assert (Hv : buf_view u ∈ buf_view <$> sd_buffers (sq_sending q)).
  { rewrite <- E. by apply list_elem_of_fmap_2. }
  apply list_elem_of_fmap in Hv as (u' & E' & Hu'). injection E' as _ Ed _ Es Ee _.
  rewrite Ed, Es. apply H; [done|lia].
Qed.

Lemma mem_ok_sub q q' mem :
  (∀ u, u ∈ sd_buffers (sq_sending q') → u ∈ sd_buffers (sq_sending q)) → mem_ok q mem → mem_ok q' mem.
Proof. intros H Hm u p Hu. apply Hm. auto. Qed.

Lemma add_buffer_ctx q data len callback :
  sq_ctx (snd (SendQueueAddBuffer q data len callback)) = sq_ctx q ∧
  ∀ u, u ∈ sd_buffers (sq_sending (snd (SendQueueAddBuffer q data len callback))) →
    u ∈ sd_buffers (sq_sending q) ∨
    sb_data u = data ∧ sb_start u = sd_streamPos (sq_sending q) ∧
    sb_end u = u64 (sd_streamPos (sq_sending q) + len).
Proof.
  unfold SendQueueAddBuffer. destruct (_ || _); simpl; [tauto|]. split; [done|].
  intros u [?| ->%list_elem_of_singleton]%elem_of_app; [by left|by right].
Qed.

Lemma step_add_inv q sacks popped mem net acks rv data len callback :
  t_inv (mkTransfer (mkRun q sacks popped) mem net acks rv) →
  0 ≤ len → sd_streamPos (sq_sending q) + len < pos_bound →
  (∀ i, 0 ≤ i < len → mem (data + i) = stream (sd_streamPos (sq_sending q) + i)) →
  t_inv (mkTransfer (mkRun (snd (SendQueueAddBuffer q data len callback)) sacks popped) mem net acks rv).
Proof.
  intros Hi Hlen Hb Hdata. destruct (add_buffer_ctx q data len callback) as [Ec Hu].
  destruct (SendQueueAddBuffer q data len callback) as [r q'] eqn:E. simpl in Ec, Hu |- *.
  apply (t_inv_sent _ (mkRun q' sacks popped) Hi); simpl; rewrite ?Ec; try done.
  - eapply run_inv_step; [apply (tv_run _ Hi)|]. by eapply sq_add.
  - intros u p Hin Hp. destruct (Hu u Hin) as [Hin'|(-> & Es & Ee)]; [by apply (tv_mem _ Hi)|].
    destruct (tv_run _ Hi) as [(lo & Hq & _) _ _]. pose proof (so_range _ _ _ (si_sending _ _ Hq)) as Hr.
    simpl in Hr. unfold pos_bound in *. rewrite Es, Ee, u64_id in Hp by lia.
    rewrite Es, Hdata by lia. f_equal. lia.
Qed.

Lemma step_send_inv q sacks popped mem net acks rv p q' :
  t_inv (mkTransfer (mkRun q sacks popped) mem net acks rv) → sends q p q' →
  t_inv (mkTransfer (mkRun q' sacks popped) mem
           (mkPacket (pl_pos p) (read_mem mem (pl_data p) (pl_len p)) :: net) acks rv).
Proof.
  intros Hi Hs. pose proof Hi as [Hrun Hm Hnet _ _ _ _ _]. simpl in *.
  pose proof Hrun as [(lo & Hq & Hch) Ha Hsent]. simpl in *.
  destruct (sends_filled lo q p q' Hq Hs) as (now & Hq' & Hf).
  pose proof Hf as (Hpay & Ea & Hv & Hcase).
  assert (Hm' : mem_ok q' mem) by by eapply mem_ok_view.
  assert (Hpos : sc_streamPos (sq_ctx q) ≤ sc_streamPos (sq_ctx q')).
  { pose proof Hpay as (? & _ & _ & _ & Hl & _).
    destruct Hcase as [(_ & E & _)|(E1 & E2 & _)]; lia. }
  assert (Hrun' : run_inv start (mkRun q' sacks popped)) by by eapply run_inv_filled.
  destruct (t_inv_sent _ (mkRun q' sacks popped) Hi) as [? ? Hnet' ? ? ? ? ?]; try done.
  split; try done. intros pk [->|Hpk]%elem_of_cons; [|by apply Hnet'].
  pose proof Hpay as (b & Hb & _ & Ep & Hl & u & Hu & Hu1 & _).
  destruct (si_sent _ _ Hq' b Hb) as [Hend _].
  destruct (chain_elem _ _ _ _ (so_chain _ _ _ (si_sending _ _ Hq')) Hu) as [Hlo _].
  apply chain_le in Hch. split_and!.
  - rewrite Ep. simpl. lia.
  - simpl. unfold read_mem. rewrite length_fmap, length_seq. rewrite Ep in Hl |- *. simpl in *. unfold bk_len in *. lia.
  - by eapply payload_bytes.
Qed.

Lemma step_confirm_inv q sacks popped mem net acks rv ack sackArray r acked q' :
  t_inv (mkTransfer (mkRun q sacks popped) mem net acks rv) → (ack, sackArray) ∈ acks →
  SendQueueConfirmRange q ack sackArray = Some (r, acked, q') →
  t_inv (mkTransfer (mkRun q' (default [] sackArray ++ sacks) popped) mem net acks rv).
Proof.
  intros Hi Hin E. pose proof Hi as [Hrun Hm Hnet Hrv Hk Hacks Hsa Hss]. simpl in *.
  destruct (Hacks _ Hin) as [Hack Hrec]. simpl in Hack, Hrec.
  pose proof Hrun as [(lo & Hq & Hch) Ha Hsent]. simpl in *.
  assert (Hle : ack ≤ sc_streamPos (sq_ctx q)).
  { destruct (Z.le_gt_cases ack (sc_streamPos (sq_ctx q))); [done|].
    assert (known rv (sc_streamPos (sq_ctx q))) as H' by (left; left; lia). apply Hk in H'. lia. }
  destruct (ConfirmRange_spec lo q ack sackArray Hq ltac:(lia)) as (acked' & q1 & gone & E' & Hc).
  rewrite E in E'. simplify_eq. pose proof Hc as [Hq' Ea' Ep' Es' _ _ _].
  split; simpl; rewrite ?Ea', ?Ep'; try done.
  - by eapply run_inv_confirm.
  - intros u p. rewrite Es'. apply Hm.
  - lia.
  - intros p. rewrite in_sacks_app. intros [?|?]; auto.
Qed.

Lemma step_timeout_inv q sacks popped mem net acks rv (force : bool) now rto total q' :
  t_inv (mkTransfer (mkRun q sacks popped) mem net acks rv) →
  window_ok (sq_ctx q) → SendQueueMarkRangeTimeout q force now rto = Some (total, q') →
  t_inv (mkTransfer (mkRun q' sacks popped) mem net acks rv).
Proof.
  intros Hi Hw E. pose proof Hi as [[(lo & Hq & _) _ _] Hm _ _ _ _ _ _]. simpl in *.
  destruct (MarkRangeTimeout_spec lo q force now rto Hq Hw) as (total' & q1 & E' & [_ _ _ _ _ [Ea Ep] Es]).
  rewrite E in E'. simplify_eq.
  apply (t_inv_sent _ (mkRun q1 sacks popped) Hi); simpl; rewrite ?Ea, ?Ep; try done.
  - eapply run_inv_step; [apply (tv_run _ Hi)|]. by eapply sq_timeout.
  - intros u p. rewrite Es. apply Hm.
Qed.

Lemma step_complete_inv q sacks popped mem net acks rv ack out popped' q' :
  t_inv (mkTransfer (mkRun q sacks popped) mem net acks rv) → ack ≤ sc_ack (sq_ctx q) →
  SendQueuePopCompleteBuffers q ack out popped = (popped', q') →
  t_inv (mkTransfer (mkRun q' sacks popped') mem net acks rv).
Proof.
  intros Hi Hack E. pose proof Hi as [[(lo & Hq & _) _ _] Hm _ _ _ _ _ _]. simpl in *.
  destruct (PopComplete_spec lo q ack out popped Hq Hack) as (pp & q1 & lo' & E' & [_ Eb _ Ec _ _]).
  rewrite E in E'. simplify_eq.
  apply (t_inv_sent _ (mkRun q1 sacks (popped ++ pp)) Hi); simpl; rewrite ?Ec; try done.
  - eapply run_inv_step; [apply (tv_run _ Hi)|]. by eapply sq_pop.
  - eapply mem_ok_sub; [|exact Hm]. intros u Hu. rewrite Eb, elem_of_app. by right.
Qed.

(** ** Steps of the receiver *)

Lemma step_arrive_inv run mem net acks rq pend dl pk n rq' :
  t_inv (mkTransfer run mem net acks (mkThreads rq pend dl)) → 0 ≤ start →
  pk ∈ net → RecvQueueSavePayload rq (pk_pos pk) (pk_bytes pk) = Some (n, rq') → n ≠ 0 →
  t_inv (mkTransfer run mem net acks (mkThreads rq' ((pk_pos pk, pk_pos pk + n) :: pend) dl)).
Proof.
  intros Hi H0 Hpk E Hn. pose proof Hi as [[(lo & Hq & _) _ _] _ Hnet Hrv Hk _ _ _]. simpl in *.
  destruct (Hnet pk Hpk) as (Hp1 & Hp2 & Hp3).
  destruct (so_range _ _ _ (si_sending _ _ Hq)) as [? ?].
  destruct (SavePayload_spec rq (pk_pos pk) (pk_bytes pk)) as (m & rq1 & E1 & Hres); [apply Hrv|lia|].
  rewrite E in E1. simplify_eq. pose proof Hres as [Hl _ Hsame _ _ _ _ _ _].
  apply (t_inv_recv _ (mkThreads rq1 ((pk_pos pk, pk_pos pk + m) :: pend) dl) Hi); simpl.
  - eapply inv_save; try done; lia.
  - by rewrite (proj1 Hsame).
  - intros p. by rewrite (received_same _ _ _ Hsame).
  - intros p [Hr|(se & [->|Hse]%elem_of_cons & Hin)]; simpl in *; [|lia|].
    + apply Hk. left. simpl. by rewrite <- (received_same _ _ _ Hsame).
    + apply Hk. right. eauto.
Qed.

Lemma step_update_inv run mem net acks rq pend1 s e pend2 dl t rq' :
  t_inv (mkTransfer run mem net acks (mkThreads rq (pend1 ++ (s, e) :: pend2) dl)) → 0 ≤ start →
  RecvQueueUpdateStreamPos rq s e = (t, rq') →
  t_inv (mkTransfer run mem net acks (mkThreads rq' (pend1 ++ pend2) dl)).
Proof.
  intros Hi H0 E. pose proof Hi as [_ _ _ Hrv Hk _ _ _]. simpl in *.
  pose proof Hrv as [Hb [Hs0 _] Hr Hp _ _]. simpl in *.
  assert (Hin : (s, e) ∈ pend1 ++ (s, e) :: pend2) by (rewrite elem_of_app; right; by left).
  destruct (Hp _ Hin) as [Hse He]. simpl in *.
  pose proof (UpdateStreamPos_spec rq s e Hb ltac:(lia) ltac:(lia) He) as Hu. rewrite E in Hu.
  destruct Hu as (_ & Hack & _ & Hrec & _).
  apply (t_inv_recv _ (mkThreads rq' (pend1 ++ pend2) dl) Hi); simpl; try done.
  - by eapply inv_update.
  - intros p Hr'. apply Hrec. by left.
  - intros p [Hr'|(se & Hse' & Hin')]; simpl in *; apply Hk.
    + apply Hrec in Hr' as [?|?]; [by left|]. right. exists (s, e). done.
    + right. exists se. split; [|done]. simpl. rewrite elem_of_app, elem_of_cons in *. tauto.
Qed.

Lemma step_recv_same run mem net acks rq pend dl rq' dl' :
  t_inv (mkTransfer run mem net acks (mkThreads rq pend dl)) →
  rq_inv stream start (mkThreads rq' pend dl') → same_blocks rq rq' →
  t_inv (mkTransfer run mem net acks (mkThreads rq' pend dl')).
Proof.
  intros Hi Hrv Hsame. pose proof Hi as [_ _ _ _ Hk _ _ _]. simpl in *.
  apply (t_inv_recv _ (mkThreads rq' pend dl') Hi); simpl; try done.
  - by rewrite (proj1 Hsame).
  - intros p. by rewrite (received_same _ _ _ Hsame).
  - intros p [Hr|Hr]; apply Hk; [left|by right]. simpl. by rewrite <- (received_same _ _ _ Hsame).
Qed.

Lemma step_ack_inv run mem net acks rv :
  t_inv (mkTransfer run mem net acks rv) → 0 ≤ start →
  t_inv (mkTransfer run mem net (RecvQueueGetAckInfo (th_queue rv) :: acks) rv).
Proof.
  intros [H1 H2 H3 H4 H5 H6 H7 H8] H0. split; simpl in *; try done.
  intros a [->|Ha]%elem_of_cons; [|by apply H6].
  destruct H4 as [Hb [Hs _] Hr _ _ _]. destruct (decide (rq_blocks (th_queue rv) = [])) as [E|E].
  - unfold RecvQueueGetAckInfo. rewrite E. split; [simpl; lia|]. by intros p (r & ?%elem_of_nil & _).
  - destruct (GetAckInfo_reported _ Hb E) as (bs & -> & Hsub & _ & _). split; [simpl; lia|].
    intros p (r & Hr' & Hin). simpl in Hr'. apply elem_of_app in Hr' as [Hr'|Hr'].
    + apply list_elem_of_fmap in Hr' as (b & -> & Hb').
      eapply block_range_received; [done| |done]. by eapply elem_of_submseteq.
    + apply list_elem_of_singleton in Hr' as ->. simpl in Hin. lia.
Qed.

Lemma t_step_inv t t' : 0 ≤ start → t_inv t → t_step t t' → t_inv t'.
Proof.
  intros H0 Hi Hstep. destruct Hstep.
  - match goal with H : SendQueueAddBuffer _ _ _ _ = _ |- _ => rename H into E end.
    replace q' with (snd (SendQueueAddBuffer q data len callback)) by (by rewrite E).
    by apply step_add_inv.
  - destruct Hi as [H1 H2 H3 H4 H5 H6 H7 H8]. split; simpl in *; try done.
    intros u p Hu Hp. rewrite <- (H2 u p Hu Hp).
    match goal with H : ∀ a, live _ a → _ |- _ => apply H end.
    exists u. split; [done|]. destruct H1 as [(lo & Hq & _) _ _].
    destruct (chain_elem _ _ _ _ (so_chain _ _ _ (si_sending _ _ Hq)) Hu) as (_ & _ & _ & ?). lia.
  - by eapply step_send_inv.
  - by eapply step_confirm_inv.
  - by eapply step_timeout_inv.
  - by eapply step_complete_inv.
  - by eapply step_arrive_inv.
  - by eapply step_update_inv.
  - eapply step_recv_same; [done|eapply inv_pop; [apply Hi|done|done]|].
    match goal with H : RecvQueuePopCompleteBuffers _ _ _ _ = _ |- _ => rename H into E end.
    unfold RecvQueuePopCompleteBuffers in E. apply bind_Some in E as ([[popped rd] rest] & _ & E). by simplify_eq.
  - eapply step_recv_same; [done|eapply (inv_add _ _ _ _ _ data len); [apply Hi|done..]|].
    match goal with H : RecvQueueAddBuffer _ _ _ _ _ = _ |- _ => rename H into E end.
    unfold RecvQueueAddBuffer in E. by repeat case_match; simplify_eq.
  - by apply step_ack_inv.
Qed.

Lemma t_init_inv mem :
  0 ≤ start < pos_bound → 0 < mtu < 2 ^ 16 → t_inv (t_init mem).
Proof.
  intros Hs Hm. split; simpl; try done.
  - apply (run_reachable start mtu); [done..|apply rtc_refl].
  - by intros u p ?%elem_of_nil.
  - by intros pk ?%elem_of_nil.
  - apply rq_init_inv; lia.
  - intros p [[?|[b [Hb _]]]|[se [Hse _]]]; simpl in *; [lia| |].
    + by apply elem_of_nil in Hb.
    + by apply elem_of_nil in Hse.
  - by intros a ?%elem_of_nil.
  - by intros p (r & ?%elem_of_nil & _).
Qed.

Lemma t_reachable mem t :
  0 ≤ start < pos_bound → 0 < mtu < 2 ^ 16 → rtc t_step (t_init mem) t → t_inv t.
Proof.
  intros Hs Hm H. pattern t. revert t H. apply rtc_ind_r; [by apply t_init_inv|].
  intros t1 t2 _ Hstep IH. eapply t_step_inv; [|done|done]. lia.
Qed.
End transfer.

(** ** Theorems *)

(** C16: end to end.  However the network treats packages and acknowledgements,
    the receiving application has read exactly the first bytes the sending
    application wrote, in order; a buffer is handed back to the sender as
    complete only when the peer has received every byte of it; and every byte
    that was sent and not received is in a block the sender still holds. *)
Theorem transfer_end_to_end stream start mtu mem t :
  0 ≤ start < pos_bound → 0 < mtu < 2 ^ 16 → rtc (t_step stream) (t_init start mtu mem) t →
  let sent := sq_ctx (run_q (tr_run t)) in let rq := th_queue (tr_recv t) in
  mjoin (payload_of <$> th_delivered (tr_recv t)) = slice stream start (rq_read rq) ∧
  rq_read rq ≤ sc_streamPos sent ∧
  (∀ u p, u ∈ run_popped (tr_run t) → sb_start u ≤ p < sb_end u → p < rq_ack rq) ∧
  (∀ p, start ≤ p < sc_streamPos sent →
    received rq p ∨ ∃ b, b ∈ outstanding sent ∧ bk_start b ≤ p < bk_end b).
Proof.
  intros Hs Hm H sent rq. pose proof (t_reachable stream start mtu mem t Hs Hm H) as [Hrun Hmem Hnet Hrv Hk Hacks Hsa Hss].
  destruct Hrun as [(lo & Hq & Hch) Ha Hsent]. fold sent in Hk, Hsa, Hsent, Ha. fold rq in Hsa, Hss.
  pose proof Hrv as [_ _ Hrd _ _ Hdel]. fold rq in Hrd, Hdel. split_and!.
  - done.
  - pose proof (chain_le _ _ _ Hch). destruct (Z.le_gt_cases (rq_read rq) (sc_streamPos sent)); [done|].
    assert (known (tr_recv t) (sc_streamPos sent)) as H' by (left; left; fold rq; lia). apply Hk in H'. lia.
  - intros u p Hu Hp. specialize (Ha u Hu). lia.
  - intros p Hp. destruct (Z.lt_ge_cases p (sc_ack sent)); [left; left; lia|].
    destruct (Hsent p) as [(r & Hr & Hin)|Hin]; [lia|right|left; by apply Hss].
    apply list_elem_of_fmap in Hr as (b & -> & Hb). eauto.
Qed.

(** A transfer of three bytes: handed over, sent, saved, committed,
    acknowledged, confirmed and handed back. *)
Lemma transfer_end_to_end_witness :
  ∃ t, rtc (t_step (λ p, p)) (t_init 0 1000 (λ a, a - 4096)) t ∧
    run_popped (tr_run t) ≠ [] ∧
    mjoin (payload_of <$> th_delivered (tr_recv t)) = slice (λ p, p) 0 (rq_read (th_queue (tr_recv t))).
Proof.
  assert (∃ t, rtc (t_step (λ p, p)) (t_init 0 1000 (λ a, a - 4096)) t ∧ run_popped (tr_run t) ≠ []) as (t & Ht & Hp).
  { eexists. split.
    { eapply rtc_l; [eapply (t_add _ _ _ _ _ _ _ _ 4096 3 1); [done|done|intros i Hi; simpl; lia|reflexivity]|].
      eapply rtc_l; [eapply (t_send _ _ _ _ _ _ _ _ (mkPayload 0 4096 3)); apply (sends_any _ _ _ 5); vm_compute; reflexivity|].
      eapply rtc_l; [eapply (t_space _ _ _ _ _ _ _ _ 100 4 [9; 9; 9; 9] 1); [done|done|reflexivity]|].
      eapply rtc_l; [eapply (t_arrive _ _ _ _ _ _ _ _ (mkPacket 0 [0; 1; 2]) 3); [by left|vm_compute; reflexivity|done]|].
      eapply rtc_l; [eapply (t_update _ _ _ _ _ _ [] 0 3 []); vm_compute; reflexivity|].
      eapply rtc_l; [eapply t_ack|].
      eapply rtc_l; [eapply (t_confirm _ _ _ _ _ _ _ _ 3 None); [by left|vm_compute; reflexivity]|].
      eapply rtc_l; [eapply (t_complete _ _ _ _ _ _ _ _ 3 77); [vm_compute; discriminate|vm_compute; reflexivity]|].
      apply rtc_refl. }
    done. }
  exists t. split; [exact Ht|]. split; [exact Hp|].
  exact (proj1 (transfer_end_to_end (λ p, p) 0 1000 _ t ltac:(done) ltac:(done) Ht)).
Defined.
