(* ===== verification/Package.v ===== *)
(** * Session data packages and the interface of congestion control

    The fields of [Bdt_SessionDataPackage] ([BDTCore/Protocol/Package.h]) that
    a package connection reads and writes, its flags, and [BaseCc]
    ([PackageConnection/BaseCc.inl]): the table of functions through which a
    connection calls its congestion control, as a class with the laws a
    connection relies on. *)

From S2P Require Import Prelude CInt RecvQueue.

(** ** Packages *)

Definition BDT_SESSIONDATA_PACKAGE_FLAG_SYN : Z := Z.shiftl 1 2.
Definition BDT_SESSIONDATA_PACKAGE_FLAG_ACK : Z := Z.shiftl 1 3.
Definition BDT_SESSIONDATA_PACKAGE_FLAG_FIN : Z := Z.shiftl 1 10.
Definition BDT_SESSIONDATA_PACKAGE_FLAG_FINACK : Z := Z.shiftl 1 11.

(** [Bdt_SessionDataPackageIdPart] *)
Record PackageIdPart := mkIdPart { ip_packageId : Z; ip_totalRecv : Z }.

(** [payload] is an address, 0 for a null pointer. *)
Record SessionData := mkSession {
  pg_cmdflags : Z; pg_sessionId : Z; pg_streamPos : Z; pg_ackStreamPos : Z; pg_toSessionId : Z;
  pg_sackArray : option (list BdtStreamRange); pg_sendTime : Z;
  pg_payloadLength : Z; pg_payload : Z; pg_idPart : option PackageIdPart }.

(** [Bdt_SessionDataPackage p = { 0 }] *)
Definition empty_package : SessionData := mkSession 0 0 0 0 0 None 0 0 0 None.

Definition has_flag (flags f : Z) : bool := negb (Z.land flags f =? 0).

Definition set_flags (p : SessionData) (f : Z) : SessionData :=
  mkSession f (pg_sessionId p) (pg_streamPos p) (pg_ackStreamPos p) (pg_toSessionId p)
    (pg_sackArray p) (pg_sendTime p) (pg_payloadLength p) (pg_payload p) (pg_idPart p).
Definition set_payload (p : SessionData) (streamPos len payload : Z) : SessionData :=
  mkSession (pg_cmdflags p) (pg_sessionId p) streamPos (pg_ackStreamPos p) (pg_toSessionId p)
    (pg_sackArray p) (pg_sendTime p) len payload (pg_idPart p).
Definition set_ack_info (p : SessionData) (a : Z * option (list BdtStreamRange)) : SessionData :=
  mkSession (pg_cmdflags p) (pg_sessionId p) (pg_streamPos p) (fst a) (pg_toSessionId p)
    (snd a) (pg_sendTime p) (pg_payloadLength p) (pg_payload p) (pg_idPart p).
Definition set_session (p : SessionData) (id : Z) : SessionData :=
  mkSession (pg_cmdflags p) id (pg_streamPos p) (pg_ackStreamPos p) id
    (pg_sackArray p) (pg_sendTime p) (pg_payloadLength p) (pg_payload p) (pg_idPart p).
Definition set_send_time (p : SessionData) (t : Z) (idPart : option PackageIdPart) : SessionData :=
  mkSession (pg_cmdflags p) (pg_sessionId p) (pg_streamPos p) (pg_ackStreamPos p) (pg_toSessionId p)
    (pg_sackArray p) t (pg_payloadLength p) (pg_payload p) idPart.

(** ** Congestion control *)

Inductive CcState := CC_STATE_OPEN | CC_STATE_LOST | CC_STATE_RTO | CC_STATE_CLOSE.
#[export] Instance CcState_eq_dec : EqDecision CcState.
Proof. solve_decision. Defined.

(** The function table.  [now] is what [BfxTimeGetNow] answers during the call.
    [onData] and [trySendAck] answer a result code, [trySendPayload] a result
    code and the length the congestion control allows. *)
Class BaseCc (C : Type) := {
  cc_onChangeState : C → CcState → CcState → C;
  cc_onSend : C → Z → SessionData → C * SessionData;
  cc_onAck : C → Z → SessionData → Z → Z → C;
  cc_onData : C → option SessionData → RecvPackageType → Z * C;
  cc_trySendPayload : C → Z → Z * Z;
  cc_trySendAck : C → Z * C
}.

(** What a connection relies on. *)
Class BaseCcLaws (C : Type) `{BaseCc C} (mtu : C → Z) (wnd : C → Z) := {
  (* the payload fits in a package and in the window *)
  cc_payload_le : ∀ c flight,
    0 ≤ mtu c → 0 ≤ flight →
    let '(r, len) := cc_trySendPayload c flight in
    0 ≤ len ≤ mtu c ∧ (len = 0 ∨ flight + len ≤ wnd c) ∧
    (r = BFX_RESULT_SUCCESS ↔ flight < wnd c);
  (* sending does not touch the payload, the flags nor the acknowledgement *)
  cc_onSend_package : ∀ c now p,
    let '(_, p') := cc_onSend c now p in
    (pg_cmdflags p', pg_streamPos p', pg_payloadLength p', pg_payload p') =
    (pg_cmdflags p, pg_streamPos p, pg_payloadLength p, pg_payload p) ∧
    (pg_ackStreamPos p', pg_sackArray p') = (pg_ackStreamPos p, pg_sackArray p);
  (* nor the window *)
  cc_onSend_wnd : ∀ c now p,
    let '(c', _) := cc_onSend c now p in wnd c' = wnd c ∧ mtu c' = mtu c;
  cc_trySendAck_wnd : ∀ c, let '(_, c') := cc_trySendAck c in wnd c' = wnd c ∧ mtu c' = mtu c;
  (* nor what may be sent and whether an acknowledgement is due *)
  cc_onSend_try : ∀ c now p flight,
    cc_trySendPayload (fst (cc_onSend c now p)) flight = cc_trySendPayload c flight;
  cc_trySendAck_try : ∀ c flight,
    cc_trySendPayload (snd (cc_trySendAck c)) flight = cc_trySendPayload c flight;
  cc_onSend_ack : ∀ c now p, fst (cc_trySendAck (fst (cc_onSend c now p))) = fst (cc_trySendAck c);
  (* an acknowledgement is due once after data arrived *)
  cc_ack_once : ∀ c, let '(_, c') := cc_trySendAck c in
    fst (cc_trySendAck c') ≠ BFX_RESULT_SUCCESS;
  cc_ack_due : ∀ c p t,
    let '(r, c') := cc_onData c p t in
    r = BFX_RESULT_SUCCESS → fst (cc_trySendAck c') = BFX_RESULT_SUCCESS
}.
