(* ===== verification/Binary64.v ===== *)
(** * Double precision arithmetic

    The value of a C [double] as a rational, and the rounding of IEEE 754
    binary64 to nearest, ties to even, for results in the normal range.  The
    congestion control computes its gain with a few such operations. *)

From S2P Require Import Prelude.
From Stdlib Require Import QArith Lqa Qround.
#[local] Open Scope Z_scope.

(** [n / d] rounded to an integer, ties to even; [d] is positive. *)
Definition round_half_even (n d : Z) : Z :=
  let q := n / d in
  let r := n mod d in
  if 2 * r <? d then q else if d <? 2 * r then q + 1 else if Z.even q then q else q + 1.

(** The exponent [e] with [2^e <= n/d < 2^(e+1)]. *)
Definition ratio_exp (n d : Z) : Z :=
  let e := Z.log2 n - Z.log2 d in
  if (if 0 <=? e then 2 ^ e * d <=? n else d <=? n * 2 ^ (- e)) then e else e - 1.

(** A positive ratio rounded to 53 significant bits. *)
Definition round_pos (n d : Z) : Q :=
  let sh := ratio_exp n d - 52 in
  if 0 <=? sh then inject_Z (round_half_even n (d * 2 ^ sh) * 2 ^ sh)
  else Qmake (round_half_even (n * 2 ^ (- sh)) d) (Z.to_pos (2 ^ (- sh))).

Definition rnd (x : Q) : Q :=
  if Qnum x =? 0 then 0%Q
  else if 0 <? Qnum x then round_pos (Qnum x) (Zpos (Qden x))
  else Qopp (round_pos (- Qnum x) (Zpos (Qden x))).

(** The operations of C on doubles, and the conversions. *)
Definition fadd (x y : Q) : Q := rnd (x + y)%Q.
Definition fmul (x y : Q) : Q := rnd (x * y)%Q.
Definition fdiv (x y : Q) : Q := rnd (x / y)%Q.
Definition of_int (z : Z) : Q := rnd (inject_Z z).
Definition flt (x y : Q) : bool := negb (Qle_bool y x).
(** Truncation of a non-negative double. *)
Definition to_int (x : Q) : Z := Qfloor x.

Lemma round_half_even_le n d j : 0 < d → n ≤ j * d → round_half_even n d ≤ j.
Proof.
  intros Hd Hn. unfold round_half_even.
  pose proof (Z.div_mod n d ltac:(lia)) as E. pose proof (Z.mod_pos_bound n d Hd) as Hr.
  set (q := n / d) in *. set (r := n mod d) in *.
  assert (q ≤ j) by nia.
  repeat match goal with |- context [if ?a <? ?b then _ else _] => destruct (Z.ltb_spec a b) end;
    try lia; try (assert (q ≠ j) by nia; lia).
  destruct (Z.even q); [lia|]. assert (q ≠ j) by nia. lia.
Qed.

Lemma round_half_even_nonneg n d : 0 < d → 0 ≤ n → 0 ≤ round_half_even n d.
Proof.
  intros Hd Hn. unfold round_half_even. pose proof (Z.div_pos n d Hn Hd).
  repeat case_match; lia.
Qed.

Lemma ratio_exp_large n d k : 0 < n → 0 < d → n ≤ k * d → 0 ≤ k < 2 ^ 53 → ratio_exp n d ≤ 52.
Proof.
  intros Hn Hd Hk Hk2. destruct (Z.le_gt_cases (ratio_exp n d) 52) as [?|Hgt]; [done|exfalso].
  assert (2 ^ 53 * d ≤ n); [|nia].
  unfold ratio_exp in Hgt.
  pose proof (Z.log2_spec n Hn) as [Hn1 _]. pose proof (Z.log2_spec d Hd) as [_ Hd2].
  pose proof (Z.log2_nonneg d) as Hld.
  set (e := Z.log2 n - Z.log2 d) in *.
  destruct (Z.leb_spec 0 e).
  - destruct (Z.leb_spec (2 ^ e * d) n).
    + assert (2 ^ 53 ≤ 2 ^ e) by (apply Z.pow_le_mono_r; lia). nia.
    + assert (2 ^ (Z.log2 n) = 2 ^ (e - 1) * 2 ^ Z.succ (Z.log2 d)) as E.
      { rewrite <- Z.pow_add_r by lia. f_equal. unfold e. lia. }
      assert (2 ^ 53 ≤ 2 ^ (e - 1)) by (apply Z.pow_le_mono_r; lia). nia.
  - destruct (Z.leb_spec d (n * 2 ^ (- e))); lia.
Qed.

Lemma round_pos_le n d k :
  0 < n → 0 < d → n ≤ k * d → 0 ≤ k < 2 ^ 53 → (round_pos n d <= inject_Z k)%Q.
Proof.
  intros Hn Hd Hk Hk2. pose proof (ratio_exp_large n d k Hn Hd Hk Hk2).
  unfold round_pos. set (sh := ratio_exp n d - 52) in *.
  destruct (Z.leb_spec 0 sh).
  - assert (sh = 0) as -> by lia. rewrite Z.pow_0_r, !Z.mul_1_r. unfold Qle. simpl.
    pose proof (round_half_even_le n d k Hd Hk). lia.
  - assert (Hp : 0 < 2 ^ (- sh)) by (apply Z.pow_pos_nonneg; lia).
    unfold Qle. simpl. rewrite Z2Pos.id by done. rewrite Z.mul_1_r.
    apply round_half_even_le; [done|]. nia.
Qed.

Lemma round_pos_nonneg n d : 0 < n → 0 < d → (0 <= round_pos n d)%Q.
Proof.
  intros Hn Hd. unfold round_pos. set (sh := ratio_exp n d - 52).
  destruct (Z.leb_spec 0 sh).
  - assert (0 < 2 ^ sh) by (apply Z.pow_pos_nonneg; lia).
    pose proof (round_half_even_nonneg n (d * 2 ^ sh) ltac:(nia) ltac:(lia)).
    unfold Qle. simpl. nia.
  - assert (0 < 2 ^ (- sh)) by (apply Z.pow_pos_nonneg; lia).
    pose proof (round_half_even_nonneg (n * 2 ^ (- sh)) d Hd ltac:(nia)). unfold Qle. simpl. lia.
Qed.

Lemma rnd_nonneg x : (0 <= x)%Q → (0 <= rnd x)%Q.
Proof.
  intros H. unfold rnd. unfold Qle in H. simpl in H.
  destruct (Z.eqb_spec (Qnum x) 0); [done|]. destruct (Z.ltb_spec 0 (Qnum x)); [|lia].
  by apply round_pos_nonneg.
Qed.

Lemma rnd_nonpos x : (x <= 0)%Q → (rnd x <= 0)%Q.
Proof.
  intros H. unfold rnd. unfold Qle in H. simpl in H.
  destruct (Z.eqb_spec (Qnum x) 0); [done|]. destruct (Z.ltb_spec 0 (Qnum x)); [lia|].
  pose proof (round_pos_nonneg (- Qnum x) (Zpos (Qden x)) ltac:(lia) ltac:(lia)). lra.
Qed.

(** Rounding does not cross an integer of 53 bits. *)
Lemma rnd_le x k : (x <= inject_Z k)%Q → 0 ≤ k < 2 ^ 53 → (rnd x <= inject_Z k)%Q.
Proof.
  intros H Hk. assert (0 <= inject_Z k)%Q by (unfold Qle; simpl; lia).
  destruct (Qlt_le_dec 0 x) as [Hx|Hx]; [|pose proof (rnd_nonpos x Hx); lra].
  unfold rnd. unfold Qlt in Hx. simpl in Hx. destruct (Z.eqb_spec (Qnum x) 0); [lia|].
  destruct (Z.ltb_spec 0 (Qnum x)); [|lia]. unfold Qle in H. simpl in H.
  apply round_pos_le; lia.
Qed.
