(* ===== verification/LedbatCc.v ===== *)
(** * The LEDBAT congestion control

    Models [BDTCore/Connection/PackageConnection/LedbatCc.imp.inl]: the
    one-way delay samples, the window they drive, and the function table
    [BaseCc] it implements.  Doubles are rationals rounded as binary64
    ([Binary64]); [now] is the answer of [BfxTimeGetNow], in microseconds. *)

From S2P Require Import Prelude CInt RecvQueue Binary64 Package.
From Stdlib Require Import QArith Lqa Qround.
#[local] Open Scope Z_scope.

Definition CONGESTION_LEDBAT_MAX : Z := Z.shiftl 1 62.
Definition CONGESTION_LEDBET_BASE_SAMPLE_COUNT : nat := 10.
Definition CONGESTION_LEDBET_CURRENT_DELAY_SAMPLE_COUNT : nat := 4.
Definition CONGESTION_LEDBET_TARGET_TIME : Z := 100.
Definition CONGESTION_LEDBET_INIT_CWND : Z := 2.
Definition CONGESTION_LEDBET_MIN_CWND : Z := 2.
Definition MAX_CWND_INCREASE_BYTES_PER_RTT : Z := 8000.
Definition MAX_INT32 : Z := 2 ^ 31 - 1.

(** [LedbatDelayEstimateSample] *)
Record DelaySample := mkSample { smp_streamPos : Z; smp_sendTime : Z; smp_packageId : Z }.

(** The indices of the two rings count the slots of the arrays. *)
Record LedbatCc := mkLedbat {
  lc_baseHead : nat; lc_base : list Z; lc_currHead : nat; lc_curr : list Z;
  lc_rollcoverTime : Z; lc_maxStreamPos : Z; lc_estimate : list DelaySample;
  lc_packageId : Z (* int32_t *); lc_prevEstTime : Z;
  lc_wnd : Z (* uint32_t *); lc_mss : Z; lc_mtu : Z (* uint16_t *);
  lc_newAck : Z; lc_remotePackageId : Z }.

Definition set_wnd (c : LedbatCc) (wnd : Z) : LedbatCc :=
  mkLedbat (lc_baseHead c) (lc_base c) (lc_currHead c) (lc_curr c) (lc_rollcoverTime c)
    (lc_maxStreamPos c) (lc_estimate c) (lc_packageId c) (lc_prevEstTime c)
    wnd (lc_mss c) (lc_mtu c) (lc_newAck c) (lc_remotePackageId c).
Definition set_rings (c : LedbatCc) (baseHead : nat) (base : list Z) (currHead : nat) (curr : list Z)
    (rollcover : Z) : LedbatCc :=
  mkLedbat baseHead base currHead curr rollcover
    (lc_maxStreamPos c) (lc_estimate c) (lc_packageId c) (lc_prevEstTime c)
    (lc_wnd c) (lc_mss c) (lc_mtu c) (lc_newAck c) (lc_remotePackageId c).
Definition set_estimate (c : LedbatCc) (maxPos : Z) (est : list DelaySample) (pid prev : Z) : LedbatCc :=
  mkLedbat (lc_baseHead c) (lc_base c) (lc_currHead c) (lc_curr c) (lc_rollcoverTime c)
    maxPos est pid prev
    (lc_wnd c) (lc_mss c) (lc_mtu c) (lc_newAck c) (lc_remotePackageId c).
Definition set_remote (c : LedbatCc) (newAck remote : Z) : LedbatCc :=
  mkLedbat (lc_baseHead c) (lc_base c) (lc_currHead c) (lc_curr c) (lc_rollcoverTime c)
    (lc_maxStreamPos c) (lc_estimate c) (lc_packageId c) (lc_prevEstTime c)
    (lc_wnd c) (lc_mss c) (lc_mtu c) newAck remote.

Definition LedbatCcNew (mtu mss : Z) : LedbatCc :=
  mkLedbat 0 (replicate CONGESTION_LEDBET_BASE_SAMPLE_COUNT CONGESTION_LEDBAT_MAX)
    0 (replicate CONGESTION_LEDBET_CURRENT_DELAY_SAMPLE_COUNT CONGESTION_LEDBAT_MAX)
    0 0 [] 0 0 (u32 (mss * CONGESTION_LEDBET_INIT_CWND)) mss mtu 0 0.

(** ** Delay samples *)

Fixpoint sacks_contain (streamPos : Z) (sacks : list BdtStreamRange) : bool :=
  match sacks with
  | [] => false
  | r :: sacks' =>
      if sr_length r =? 0 then false
      else if (streamPos >? sr_pos r) && (streamPos <=? sr_pos r + sr_length r) then true
      else sacks_contain streamPos sacks'
  end.

Definition CompareStreamPosWith (streamPos : Z) (sackArray : option (list BdtStreamRange)) : bool :=
  sacks_contain streamPos (default [] sackArray).

Definition slot (l : list Z) (i : nat) : Z := default 0 (l !! i).

(** The slot before the head of the base ring. *)
Definition tail_index (c : LedbatCc) : nat :=
  match lc_baseHead c with O => CONGESTION_LEDBET_BASE_SAMPLE_COUNT - 1 | S i => i end.

Definition next_index (count i : nat) : nat := if (S i =? count)%nat then 0%nat else S i.

Definition UpdateBaseDelay (c : LedbatCc) (now delay : Z) : LedbatCc :=
  if now - lc_rollcoverTime c <? 60 * 1000 * 1000 then
    let t := tail_index c in
    let d := if slot (lc_base c) t <? delay then slot (lc_base c) t else delay in
    set_rings c (lc_baseHead c) (<[t := d]> (lc_base c)) (lc_currHead c) (lc_curr c) (lc_rollcoverTime c)
  else
    set_rings c (next_index CONGESTION_LEDBET_BASE_SAMPLE_COUNT (lc_baseHead c))
      (<[lc_baseHead c := delay]> (lc_base c)) (lc_currHead c) (lc_curr c) now.

Definition UpdateCurrDelay (c : LedbatCc) (delay : Z) : LedbatCc :=
  set_rings c (lc_baseHead c) (lc_base c)
    (next_index CONGESTION_LEDBET_CURRENT_DELAY_SAMPLE_COUNT (lc_currHead c))
    (<[lc_currHead c := delay]> (lc_curr c)) (lc_rollcoverTime c).

(** The loop of [UpdateSample]: the delay of the sample the package answers,
    and the samples that stay. *)
Fixpoint sample_loop (p : SessionData) (packageId delay : Z) (est : list DelaySample)
    : Z * list DelaySample :=
  match est with
  | [] => (delay, [])
  | s :: est' =>
      if (smp_streamPos s <=? pg_ackStreamPos p) || CompareStreamPosWith (smp_streamPos s) (pg_sackArray p)
      then
        let delay := if (packageId >? 0) && (packageId =? smp_packageId s)
                     then Z.quot (i64 (pg_sendTime p - smp_sendTime s)) 1000 else delay in
        sample_loop p packageId delay est'
      else (delay, est)
  end.

Definition UpdateSample (c : LedbatCc) (now : Z) (p : SessionData) : LedbatCc :=
  let packageId := match pg_idPart p with
                   | Some ip => if ip_totalRecv ip =? 0 then ip_packageId ip else 0
                   | None => 0
                   end in
  let '(delay, est) := sample_loop p packageId CONGESTION_LEDBAT_MAX (lc_estimate c) in
  let c := set_estimate c (lc_maxStreamPos c) est (lc_packageId c) (lc_prevEstTime c) in
  if delay =? CONGESTION_LEDBAT_MAX then c
  else UpdateCurrDelay (UpdateBaseDelay c now delay) delay.

(** ** The function table *)

Definition list_min (l : list Z) : Z :=
  match l with [] => 0 | x :: l => foldl (λ m y, if m >? y then y else m) x l end.

(** The new window, from the acknowledged bytes and the queueing delay. *)
Definition scaled_gain (wnd nAcks queueDelay : Z) : Q :=
  let delayFactor := fdiv (of_int (CONGESTION_LEDBET_TARGET_TIME - queueDelay))
                          (inject_Z CONGESTION_LEDBET_TARGET_TIME) in
  let wndFactor := fdiv (inject_Z (Z.min nAcks wnd)) (inject_Z (Z.max wnd nAcks)) in
  fmul (fmul (inject_Z MAX_CWND_INCREASE_BYTES_PER_RTT) wndFactor) delayFactor.

Definition next_wnd (wnd mss nAcks queueDelay : Z) : Z :=
  let x := fadd (scaled_gain wnd nAcks queueDelay) (inject_Z wnd) in
  if flt x (inject_Z (CONGESTION_LEDBET_MIN_CWND * mss))
  then u32 (CONGESTION_LEDBET_MIN_CWND * mss)
  else u32 (to_int x).

Definition LedbatCcOnAck (c : LedbatCc) (now : Z) (p : SessionData) (nAcks flight : Z) : LedbatCc :=
  let c := UpdateSample c now p in
  let minCurrDelay := list_min (lc_curr c) in
  let minBaseDelay := list_min (lc_base c) in
  let queueDelay := minCurrDelay - minBaseDelay in
  if minBaseDelay =? CONGESTION_LEDBAT_MAX then c
  else set_wnd c (next_wnd (lc_wnd c) (lc_mss c) nAcks queueDelay).

Definition LedbatCcOnChangeState (c : LedbatCc) (oldState newState : CcState) : LedbatCc :=
  match newState with
  | CC_STATE_RTO => set_wnd c (u32 (CONGESTION_LEDBET_MIN_CWND * lc_mss c))
  | CC_STATE_LOST =>
      let wnd := lc_wnd c / 2 in
      set_wnd c (if wnd <? CONGESTION_LEDBET_MIN_CWND * lc_mss c
                 then u32 (CONGESTION_LEDBET_MIN_CWND * lc_mss c) else wnd)
  | _ => c
  end.

(** The first sample that ends at [pos] goes. *)
Fixpoint drop_sample (pos : Z) (est : list DelaySample) : list DelaySample :=
  match est with
  | [] => []
  | s :: est' => if smp_streamPos s =? pos then est' else s :: drop_sample pos est'
  end.

(** Sampling the delay of a package with a payload. *)
Definition on_send_payload (c : LedbatCc) (now : Z) (p : SessionData) : LedbatCc * SessionData :=
  let pos := u64 (pg_streamPos p + pg_payloadLength p) in
  if pos >? lc_maxStreamPos c then
    if u64 (pg_sendTime p - lc_prevEstTime c) >=? 30 * 1000 then
      match pg_idPart p with
      | Some _ =>
          (set_estimate c pos (lc_estimate c ++ [mkSample pos now 0]) (lc_packageId c) (pg_sendTime p), p)
      | None =>
          let pid := i32 (lc_packageId c + 1) in
          (set_estimate c pos (lc_estimate c ++ [mkSample pos now (u32 pid)])
             (if pid =? MAX_INT32 then 0 else pid) (pg_sendTime p),
           set_send_time p (pg_sendTime p) (Some (mkIdPart (u32 pid) 1)))
      end
    else (c, p)
  else (set_estimate c (lc_maxStreamPos c) (drop_sample pos (lc_estimate c)) (lc_packageId c) (lc_prevEstTime c), p).

Definition LedbatCcOnSend (c : LedbatCc) (now : Z) (p : SessionData) : LedbatCc * SessionData :=
  let sendTime := if pg_sendTime p =? 0 then now else pg_sendTime p in
  let packageId := u32 (lc_remotePackageId c) in
  let c := set_remote c (lc_newAck c) 0 in
  let p := set_send_time p sendTime
             (if packageId >? 0 then Some (mkIdPart packageId 0) else pg_idPart p) in
  if pg_payloadLength p =? 0 then (c, p) else on_send_payload c now p.

Definition LedbatCcOnData (c : LedbatCc) (p : option SessionData) (type : RecvPackageType) : Z * LedbatCc :=
  match type with
  | RECV_PACKAGE_TYPE_NONE | RECV_PACKAGE_TYPE_OUT_OF_BUFFER => (BFX_RESULT_PENDING, c)
  | _ =>
      let remote := match p ≫= pg_idPart with
                    | Some ip => if ip_totalRecv ip =? 1 then i32 (ip_packageId ip) else lc_remotePackageId c
                    | None => lc_remotePackageId c
                    end in
      (BFX_RESULT_SUCCESS, set_remote c 1 remote)
  end.

Definition LedbatCcTrySendPayload (c : LedbatCc) (flight : Z) : Z * Z :=
  if lc_wnd c >? flight then
    let maxFree := u32 (lc_wnd c - flight) in
    let maxFree := if maxFree >? lc_mtu c then lc_mtu c else maxFree in
    (BFX_RESULT_SUCCESS, u16 maxFree)
  else (BFX_RESULT_TOO_SMALL, 0).

(** [BfxAtomicCompareAndSwap32(&newAck, 1, 0)] answers the old value. *)
Definition LedbatCcTrySendAck (c : LedbatCc) : Z * LedbatCc :=
  if lc_newAck c =? 1 then (BFX_RESULT_SUCCESS, set_remote c 0 (lc_remotePackageId c))
  else (BFX_RESULT_NOT_CHANGED, c).

#[export] Instance LedbatCc_BaseCc : BaseCc LedbatCc := {
  cc_onChangeState := LedbatCcOnChangeState;
  cc_onSend := LedbatCcOnSend;
  cc_onAck := LedbatCcOnAck;
  cc_onData := LedbatCcOnData;
  cc_trySendPayload := LedbatCcTrySendPayload;
  cc_trySendAck := LedbatCcTrySendAck
}.

(** ** The laws of the function table *)

#[export] Instance LedbatCc_laws : BaseCcLaws LedbatCc lc_mtu lc_wnd.
Proof.
  split.
  - intros c flight Hm Hf. simpl. unfold LedbatCcTrySendPayload.
    destruct (Z.gtb_spec (lc_wnd c) flight) as [Hlt|Hge]; 
      [|split; [lia|]; split; [by left|]; split; [done|lia]].
    assert (Hle : u32 (lc_wnd c - flight) ≤ lc_wnd c - flight) by (apply Z.mod_le; lia).
    pose proof (u32_range (lc_wnd c - flight)).
    set (m := if _ >? _ then _ else _).
    assert (Hmm : 0 ≤ m ≤ lc_mtu c ∧ m ≤ lc_wnd c - flight).
    { unfold m. destruct (Z.gtb_spec (u32 (lc_wnd c - flight)) (lc_mtu c)); lia. }
    clearbody m. assert (u16 m ≤ m) by (apply Z.mod_le; lia). pose proof (u16_range m).
    split; [lia|]. split; [lia|done].
  - intros c now p. simpl. unfold LedbatCcOnSend. destruct (_ =? 0); [done|].
    unfold on_send_payload. by repeat (case_match; simplify_eq/=).
  - intros c now p. simpl. unfold LedbatCcOnSend. destruct (_ =? 0); [done|].
    unfold on_send_payload. by repeat (case_match; simplify_eq/=).
  - intros c. simpl. unfold LedbatCcTrySendAck. by destruct (lc_newAck c =? 1).
  - intros c now p flight. simpl. unfold LedbatCcOnSend. set (x := pg_payloadLength _ =? 0). destruct x; [reflexivity|].
    unfold on_send_payload. by repeat (case_match; simplify_eq/=).
  - intros c flight. simpl. unfold LedbatCcTrySendAck. by destruct (lc_newAck c =? 1).
  - intros c now p. simpl. unfold LedbatCcOnSend. set (x := pg_payloadLength _ =? 0). destruct x; [by unfold LedbatCcTrySendAck; simpl; destruct (lc_newAck c =? 1)|].
    unfold on_send_payload, LedbatCcTrySendAck. by repeat (case_match; simplify_eq/=).
  - intros c. simpl. unfold LedbatCcTrySendAck. destruct (lc_newAck c =? 1) eqn:E; simpl; [done|].
    by rewrite E.
  - intros c p t. simpl. unfold LedbatCcOnData. by destruct t.
Qed.

(** ** Minima of the rings *)

Lemma foldl_min_le l : ∀ m, foldl (λ m y, if m >? y then y else m) m l ≤ m.
Proof.
  induction l as [|y l IH]; intros m; simpl; [lia|].
  destruct (Z.gtb_spec m y); [specialize (IH y)|specialize (IH m)]; lia.
Qed.

Lemma foldl_min_spec l : ∀ m,
  let r := foldl (λ m y, if m >? y then y else m) m l in (r = m ∨ r ∈ l) ∧ ∀ y, y ∈ l → r ≤ y.
Proof.
  induction l as [|y l IH]; intros m r; [split; [by left|by intros ? ?%elem_of_nil]|].
  unfold r. simpl. destruct (Z.gtb_spec m y) as [Hgt|Hle].
  - destruct (IH y) as [Hin Hl]. pose proof (foldl_min_le l y). split; [destruct Hin as [->|?]; right; set_solver|].
    intros z [->|Hz]%elem_of_cons; [done|by apply Hl].
  - destruct (IH m) as [Hin Hl]. pose proof (foldl_min_le l m). split; [destruct Hin; [by left|right; set_solver]|].
    intros z [->|Hz]%elem_of_cons; [lia|by apply Hl].
Qed.

Lemma list_min_le l x : x ∈ l → list_min l ≤ x.
Proof.
  destruct l as [|y l]; [by intros ?%elem_of_nil|]. simpl. pose proof (foldl_min_le l y).
  destruct (foldl_min_spec l y) as [_ Hl]. intros [->|Hx]%elem_of_cons; [done|by apply Hl].
Qed.

Lemma list_min_in l : l ≠ [] → list_min l ∈ l.
Proof.
  destruct l as [|y l]; [done|]. intros _. simpl.
  destruct (foldl_min_spec l y) as [[->|Hin] _]; [by left|by right].
Qed.

(** ** The rings of delays

    The [j]-th latest delay of the current ring was entered into one of the
    [j + 1] latest slots of the base ring, which only decrease until they are
    overwritten ten turns later: the base ring's minimum never exceeds the
    current one's. *)

Definition base_slot (c : LedbatCc) (d : nat) : Z :=
  slot (lc_base c) ((lc_baseHead c + 9 - d) mod 10).
Definition curr_slot (c : LedbatCc) (j : nat) : Z :=
  slot (lc_curr c) ((lc_currHead c + 3 - j) mod 4).

Record ring_inv (c : LedbatCc) : Prop := {
  ri_base_len : length (lc_base c) = CONGESTION_LEDBET_BASE_SAMPLE_COUNT;
  ri_curr_len : length (lc_curr c) = CONGESTION_LEDBET_CURRENT_DELAY_SAMPLE_COUNT;
  ri_base_head : (lc_baseHead c < 10)%nat;
  ri_curr_head : (lc_currHead c < 4)%nat;
  ri_below : ∀ j, (j < 4)%nat → ∃ d, (d ≤ j)%nat ∧ base_slot c d ≤ curr_slot c j }.

Definition queue_delay (c : LedbatCc) : Z := list_min (lc_curr c) - list_min (lc_base c).

Lemma slot_insert l i k x : (i < length l)%nat →
  slot (<[i := x]> l) k = if decide (i = k) then x else slot l k.
Proof.
  intros Hi. unfold slot. destruct (decide (i = k)) as [->|Hne].
  - by rewrite list_lookup_insert_eq.
  - by rewrite list_lookup_insert_ne.
Qed.

Lemma slot_in l i : (i < length l)%nat → slot l i ∈ l.
Proof.
  intros Hi. unfold slot. destruct (lookup_lt_is_Some_2 l i Hi) as [x Hx]. rewrite Hx.
  by eapply list_elem_of_lookup_2.
Qed.

(** Counting backwards around a ring of [n] slots. *)
Lemma ring_back n (h d : nat) : (h < n → d < n →
  (h + (n - 1) - d) mod n = if decide (d + 1 ≤ h) then h - 1 - d else h + (n - 1) - d)%nat.
Proof.
  intros Hh Hd. destruct (decide _).
  - symmetry. apply (Nat.mod_unique _ _ 1); lia.
  - apply Nat.mod_small. lia.
Qed.

Lemma ring_next n (h : nat) : (h < n → (h + 1) mod n = if decide (h + 1 = n) then 0 else h + 1)%nat.
Proof.
  intros Hh. destruct (decide _) as [->|?]; [apply Nat.Div0.mod_same|apply Nat.mod_small; lia].
Qed.

Lemma ring_latest n (h : nat) : (h < n → ((h + 1) mod n + (n - 1) - 0) mod n = h)%nat.
Proof.
  intros Hh. rewrite ring_next by done.
  destruct (decide (h + 1 = n)%nat); rewrite ring_back by lia; destruct (decide _); lia.
Qed.

Lemma ring_older n (h d : nat) : (h < n → S d < n →
  ((h + 1) mod n + (n - 1) - S d) mod n = (h + (n - 1) - d) mod n)%nat.
Proof.
  intros Hh Hd. rewrite ring_next by done.
  destruct (decide (h + 1 = n)%nat); rewrite !ring_back by lia; repeat destruct (decide _); lia.
Qed.

Lemma ring_not_head n (h d : nat) : (h < n → S d < n → (h + (n - 1) - d) mod n ≠ h)%nat.
Proof. intros Hh Hd. rewrite ring_back by lia. destruct (decide _); lia. Qed.

Lemma ring4_flip (h i : nat) : (h < 4 → i < 4 → (h + 3 - (h + 3 - i) mod 4) mod 4 = i)%nat.
Proof.
  intros Hh Hi. destruct h as [|[|[|[|]]]]; try lia; by destruct i as [|[|[|[|]]]]; try lia.
Qed.

Lemma queue_delay_nonneg c : ring_inv c → 0 ≤ queue_delay c.
Proof.
  intros [Hb Hc Hbh Hch Hj]. unfold queue_delay.
  assert (Hin : list_min (lc_curr c) ∈ lc_curr c) by (apply list_min_in; by destruct (lc_curr c)).
  apply list_elem_of_lookup in Hin as [i Hi]. pose proof (lookup_lt_Some _ _ _ Hi) as Hlt.
  rewrite Hc in Hlt. unfold CONGESTION_LEDBET_CURRENT_DELAY_SAMPLE_COUNT in Hlt.
  destruct (Hj ((lc_currHead c + 3 - i) mod 4)%nat) as (d & Hd & Hle); [by apply Nat.mod_upper_bound|].
  unfold curr_slot in Hle.
  rewrite ring4_flip in Hle by lia.
  assert (Hs : slot (lc_curr c) i = list_min (lc_curr c)) by (unfold slot; by rewrite Hi).
  rewrite Hs in Hle.
  assert (list_min (lc_base c) ≤ base_slot c d); [|lia].
  apply list_min_le, slot_in. rewrite Hb. unfold CONGESTION_LEDBET_BASE_SAMPLE_COUNT. by apply Nat.mod_upper_bound.
Qed.

Lemma LedbatCcNew_rings mtu mss : ring_inv (LedbatCcNew mtu mss).
Proof.
  split; simpl; [done|done|lia|lia|]. intros j Hj. exists 0%nat. split; [lia|].
  do 4 (destruct j as [|j]; [done|]). lia.
Qed.

Lemma next_index_mod i n : (i < n)%nat → next_index n i = ((i + 1) mod n)%nat.
Proof.
  intros Hi. rewrite ring_next by done. unfold next_index.
  destruct (Nat.eqb_spec (S i) n), (decide (i + 1 = n)%nat); lia.
Qed.

(** A delay enters the current ring. *)
Lemma curr_slot_push c delay j :
  length (lc_curr c) = 4%nat → (lc_currHead c < 4)%nat → (j < 4)%nat →
  curr_slot (UpdateCurrDelay c delay) j = match j with O => delay | S j => curr_slot c j end.
Proof.
  intros Hl Hh Hj. unfold curr_slot, UpdateCurrDelay, CONGESTION_LEDBET_CURRENT_DELAY_SAMPLE_COUNT. simpl.
  rewrite next_index_mod, slot_insert by lia. destruct j as [|j].
  - by rewrite decide_True by (symmetry; by apply (ring_latest 4)).
  - rewrite decide_False.
    + f_equal. by apply (ring_older 4).
    + intros E. apply (ring_not_head 4 (lc_currHead c) j); [lia..|]. rewrite E at 2. symmetry. by apply (ring_older 4).
Qed.

(** A delay enters the base ring: an old slot moves back by at most one and
    does not grow, and the latest one is not above the delay. *)
Lemma base_slot_update c now delay :
  length (lc_base c) = 10%nat → (lc_baseHead c < 10)%nat →
  let c' := UpdateBaseDelay c now delay in
  base_slot c' 0 ≤ delay ∧
  ∀ d, (S d < 10)%nat → base_slot c' d ≤ base_slot c d ∨ base_slot c' (S d) ≤ base_slot c d.
Proof.
  intros Hl Hh. simpl. unfold UpdateBaseDelay, base_slot, CONGESTION_LEDBET_BASE_SAMPLE_COUNT.
  destruct (_ <? _); simpl.
  - assert (Ht : tail_index c = ((lc_baseHead c + 9 - 0) mod 10)%nat).
    { etrans; [|symmetry; apply (ring_back 10); lia]. unfold tail_index.
      destruct (lc_baseHead c) as [|h]; [done|]. rewrite decide_True by lia. simpl; lia. }
    assert (Htr : (tail_index c < 10)%nat) by (rewrite Ht; by apply Nat.mod_upper_bound).
    set (v := if _ <? _ then _ else _).
    assert (Hv : v ≤ delay ∧ v ≤ slot (lc_base c) (tail_index c))
      by (unfold v; destruct (Z.ltb_spec (slot (lc_base c) (tail_index c)) delay); lia).
    clearbody v. split; [rewrite slot_insert by lia; rewrite decide_True by done; lia|].
    intros d Hd. left. rewrite slot_insert by lia.
    destruct (decide _) as [E|_]; [rewrite E in Hv; lia|done].
  - rewrite next_index_mod by done. split.
    + rewrite slot_insert by lia. rewrite decide_True by (symmetry; by apply (ring_latest 10)). done.
    + intros d Hd. right. rewrite slot_insert by lia. rewrite decide_False.
      * apply Z.eq_le_incl. f_equal. by apply (ring_older 10).
      * intros E. apply (ring_not_head 10 (lc_baseHead c) d); [lia..|]. rewrite E at 2. symmetry. by apply (ring_older 10).
Qed.

Lemma base_head_update c now delay : length (lc_base c) = 10%nat → (lc_baseHead c < 10)%nat →
  length (lc_base (UpdateBaseDelay c now delay)) = 10%nat ∧ (lc_baseHead (UpdateBaseDelay c now delay) < 10)%nat.
Proof.
  intros Hl Hh. unfold UpdateBaseDelay, CONGESTION_LEDBET_BASE_SAMPLE_COUNT.
  destruct (_ <? _); simpl; rewrite length_insert; split; [done..|].
  rewrite next_index_mod by done. by apply Nat.mod_upper_bound.
Qed.

Lemma UpdateBaseDelay_curr c now delay :
  let c' := UpdateBaseDelay c now delay in
  lc_curr c' = lc_curr c ∧ lc_currHead c' = lc_currHead c ∧ lc_wnd c' = lc_wnd c ∧
  lc_mss c' = lc_mss c ∧ lc_mtu c' = lc_mtu c ∧ lc_estimate c' = lc_estimate c.
Proof. unfold UpdateBaseDelay. by destruct (_ <? _). Qed.

Lemma update_delay_rings c now delay :
  ring_inv c → ring_inv (UpdateCurrDelay (UpdateBaseDelay c now delay) delay).
Proof.
  intros [Hb Hc Hbh Hch Hj].
  destruct (base_head_update c now delay Hb Hbh) as [Hb' Hbh'].
  destruct (base_slot_update c now delay Hb Hbh) as [Hs0 HsS].
  destruct (UpdateBaseDelay_curr c now delay) as (Ec & Eh & _).
  set (c1 := UpdateBaseDelay c now delay) in *.
  split; simpl; [done|by rewrite length_insert, Ec|done| |].
  - rewrite Eh. rewrite next_index_mod by done. by apply Nat.mod_upper_bound.
  - intros j Hj4. rewrite curr_slot_push by (rewrite ?Ec, ?Eh; done). destruct j as [|j].
    + exists 0%nat. split; [lia|done].
    + destruct (Hj j) as (d & Hd & Hle); [lia|].
      assert (curr_slot c1 j = curr_slot c j) as -> by (unfold curr_slot; by rewrite Ec, Eh).
      destruct (HsS d ltac:(lia)) as [Hx|Hx]; [exists d|exists (S d)]; (split; [lia|]);
        (etrans; [exact Hx|exact Hle]).
Qed.

(** ** The window *)

Lemma fmul_nonneg x y : (0 <= x)%Q → (0 <= y)%Q → (0 <= fmul x y)%Q.
Proof. intros. apply rnd_nonneg. nra. Qed.

Lemma scaled_gain_le wnd nAcks q :
  0 < wnd → 0 ≤ nAcks → 0 ≤ q → wnd < 2 ^ 32 → nAcks < 2 ^ 32 →
  (scaled_gain wnd nAcks q <= inject_Z MAX_CWND_INCREASE_BYTES_PER_RTT)%Q ∧
  (CONGESTION_LEDBET_TARGET_TIME ≤ q → (scaled_gain wnd nAcks q <= 0)%Q).
Proof.
  intros Hw Hn Hq Hw2 Hn2. unfold scaled_gain.
  set (df := fdiv (of_int _) _). set (wf := fdiv (inject_Z (Z.min _ _)) _).
  assert (Hdiv : ∀ a b k, 0 < b → (a <= inject_Z (k * b))%Q → (a / inject_Z b <= inject_Z k)%Q).
  { intros a b k Hb Ha. apply Qle_shift_div_r; [unfold Qlt; simpl; lia|].
    rewrite <- inject_Z_mult. done. }
  assert (Hwf : (0 <= wf <= 1)%Q).
  { split.
    - apply rnd_nonneg. apply Qle_shift_div_l; [unfold Qlt; simpl; lia|]. unfold Qle. simpl. lia.
    - apply (rnd_le _ 1); [|done]. apply Hdiv; [lia|]. unfold Qle. simpl. lia. }
  assert (Hdf : (df <= 1)%Q ∧ (CONGESTION_LEDBET_TARGET_TIME ≤ q → (df <= 0)%Q)).
  { unfold df, CONGESTION_LEDBET_TARGET_TIME. split.
    - apply (rnd_le _ 1); [|done]. apply Hdiv; [lia|]. apply rnd_le; [|lia]. unfold Qle. simpl. lia.
    - intros Hq2. apply rnd_nonpos. apply (Hdiv _ _ 0); [lia|]. apply rnd_nonpos. unfold Qle. simpl. lia. }
  set (a := fmul _ wf).
  assert (Ha : (0 <= a <= inject_Z MAX_CWND_INCREASE_BYTES_PER_RTT)%Q).
  { split; [apply fmul_nonneg; [done|apply Hwf]|]. apply rnd_le; [|done].
    unfold MAX_CWND_INCREASE_BYTES_PER_RTT. change (inject_Z 8000) with 8000%Q. nra. }
  clearbody a. destruct Hdf as [Hd1 Hd0]. split.
  - apply rnd_le; [|done]. unfold MAX_CWND_INCREASE_BYTES_PER_RTT in *.
    change (inject_Z 8000) with 8000%Q in *.
    destruct (Qlt_le_dec 0 df); nra.
  - intros Hq2. specialize (Hd0 Hq2). apply rnd_nonpos. nra.
Qed.

Lemma next_wnd_bounds wnd mss nAcks q lim :
  0 < wnd < 2 ^ 32 → 0 ≤ nAcks < 2 ^ 32 → 0 ≤ q → 0 < mss → 2 * mss < 2 ^ 32 →
  wnd ≤ lim < 2 ^ 32 → (scaled_gain wnd nAcks q <= inject_Z (lim - wnd))%Q →
  CONGESTION_LEDBET_MIN_CWND * mss ≤ next_wnd wnd mss nAcks q ≤ Z.max (CONGESTION_LEDBET_MIN_CWND * mss) lim.
Proof.
  intros Hw Hn Hq Hm Hm2 Hl Hg. unfold next_wnd, CONGESTION_LEDBET_MIN_CWND.
  set (x := fadd _ _).
  assert (Hx : (x <= inject_Z lim)%Q).
  { apply rnd_le; [|lia]. replace lim with (lim - wnd + wnd) by lia. rewrite inject_Z_plus. lra. }
  clearbody x. unfold flt. destruct (Qle_bool (inject_Z (2 * mss)) x) eqn:E; simpl.
  - apply Qle_bool_iff in E. apply Qfloor_resp_le in E. rewrite Qfloor_Z in E.
    apply Qfloor_resp_le in Hx. rewrite Qfloor_Z in Hx. unfold to_int. rewrite u32_id; lia.
  - rewrite u32_id; lia.
Qed.

(** The window of a congestion control, of segment size [mss]. *)
Definition wnd_ok (c : LedbatCc) (lim : Z) : Prop :=
  0 < lc_mss c ∧ CONGESTION_LEDBET_MIN_CWND * lc_mss c ≤ lc_wnd c ≤ lim ∧ lim < 2 ^ 32.

Lemma UpdateSample_inv c now p :
  ring_inv c → ring_inv (UpdateSample c now p) ∧
  lc_wnd (UpdateSample c now p) = lc_wnd c ∧ lc_mss (UpdateSample c now p) = lc_mss c ∧
  lc_mtu (UpdateSample c now p) = lc_mtu c.
Proof.
  intros Hr. unfold UpdateSample.
  set (id := match pg_idPart p with Some _ => _ | None => _ end).
  destruct (sample_loop p id CONGESTION_LEDBAT_MAX (lc_estimate c)) as [delay est].
  set (c1 := set_estimate c _ _ _ _).
  assert (Hr1 : ring_inv c1) by (destruct Hr; by split).
  destruct (delay =? CONGESTION_LEDBAT_MAX); [done|].
  destruct (UpdateBaseDelay_curr c1 now delay) as (_ & _ & Ew & Em & Et & _).
  split; [by apply update_delay_rings|done].
Qed.

Lemma LedbatCcOnAck_inv c now p nAcks flight lim :
  ring_inv c → wnd_ok c lim → 0 ≤ nAcks < 2 ^ 32 → lim + MAX_CWND_INCREASE_BYTES_PER_RTT < 2 ^ 32 →
  let c' := LedbatCcOnAck c now p nAcks flight in
  ring_inv c' ∧ wnd_ok c' (lim + MAX_CWND_INCREASE_BYTES_PER_RTT) ∧
  lc_mss c' = lc_mss c ∧ lc_mtu c' = lc_mtu c ∧
  (CONGESTION_LEDBET_TARGET_TIME ≤ queue_delay c' → lc_wnd c' ≤ lc_wnd c).
Proof.
  intros Hr (Hm & Hw & Hl) Hn Hl2. simpl. unfold LedbatCcOnAck.
  destruct (UpdateSample_inv c now p Hr) as (Hr' & Ew & Em & Et).
  set (c1 := UpdateSample c now p) in *. fold (queue_delay c1).
  pose proof (queue_delay_nonneg c1 Hr') as Hq.
  unfold MAX_CWND_INCREASE_BYTES_PER_RTT, wnd_ok, CONGESTION_LEDBET_MIN_CWND in *.
  destruct (_ =? _).
  - rewrite Ew, Em. split_and!; auto; lia.
  - assert (Hr2 : ring_inv (set_wnd c1 (next_wnd (lc_wnd c1) (lc_mss c1) nAcks (queue_delay c1))))
      by (destruct Hr'; by split).
    destruct (scaled_gain_le (lc_wnd c1) nAcks (queue_delay c1)) as [Hg8 Hg0]; [lia..|].
    pose proof (next_wnd_bounds (lc_wnd c1) (lc_mss c1) nAcks (queue_delay c1) (lc_wnd c1 + 8000)) as Hb.
    simpl. rewrite Em, Ew in *. split; [done|].
    assert (Hb1 := Hb ltac:(lia) Hn Hq Hm ltac:(lia) ltac:(lia)).
    unfold CONGESTION_LEDBET_MIN_CWND in Hb1. 
    replace (lc_wnd c + 8000 - lc_wnd c) with 8000 in Hb1 by lia. specialize (Hb1 Hg8).
    split_and!; [lia..|done|done|].
    intros Hq2. change (CONGESTION_LEDBET_TARGET_TIME ≤ queue_delay c1) in Hq2. specialize (Hg0 Hq2).
    pose proof (next_wnd_bounds (lc_wnd c) (lc_mss c) nAcks (queue_delay c1) (lc_wnd c)
      ltac:(lia) Hn Hq Hm ltac:(lia) ltac:(lia)) as Hb2.
    rewrite Z.sub_diag in Hb2. specialize (Hb2 Hg0). unfold CONGESTION_LEDBET_MIN_CWND in Hb2. lia.
Qed.

(** ** Runs *)

(** The states a congestion control goes through, with the number of
    acknowledgements it was told of.  The counts of acknowledged bytes are
    [uint32_t]. *)
Inductive ledbat_run (mtu mss : Z) : nat → LedbatCc → Prop :=
  | run_new : ledbat_run mtu mss 0 (LedbatCcNew mtu mss)
  | run_ack n c now p nAcks flight :
      ledbat_run mtu mss n c → 0 ≤ nAcks < 2 ^ 32 →
      ledbat_run mtu mss (S n) (LedbatCcOnAck c now p nAcks flight)
  | run_state n c s s' : ledbat_run mtu mss n c → ledbat_run mtu mss n (LedbatCcOnChangeState c s s')
  | run_send n c now p : ledbat_run mtu mss n c → ledbat_run mtu mss n (fst (LedbatCcOnSend c now p))
  | run_data n c p t : ledbat_run mtu mss n c → ledbat_run mtu mss n (snd (LedbatCcOnData c p t))
  | run_try n c : ledbat_run mtu mss n c → ledbat_run mtu mss n (snd (LedbatCcTrySendAck c)).

(** The samples waiting for an answer lie below the highest position probed,
    and the identifiers stay positive [int32_t]. *)
Definition samples_ok (c : LedbatCc) : Prop :=
  Forall (λ s, smp_streamPos s ≤ lc_maxStreamPos c) (lc_estimate c) ∧ 0 ≤ lc_packageId c < MAX_INT32.

Lemma sample_loop_suffix p id est : ∀ delay, snd (sample_loop p id delay est) `suffix_of` est.
Proof.
  induction est as [|s est IH]; intros delay; simpl; [done|].
  destruct (_ || _); [|done]. by apply suffix_cons_r.
Qed.

Lemma drop_sample_sub pos est s : s ∈ drop_sample pos est → s ∈ est.
Proof.
  induction est as [|x est IH]; simpl; [done|]. destruct (_ =? _); [by right|].
  intros [->|?]%elem_of_cons; [by left|right; auto].
Qed.

Lemma UpdateSample_samples c now p : samples_ok c → samples_ok (UpdateSample c now p).
Proof.
  intros [Hs Hp]. unfold UpdateSample. set (id := match pg_idPart p with Some _ => _ | None => _ end).
  pose proof (sample_loop_suffix p id (lc_estimate c) CONGESTION_LEDBAT_MAX) as Hsuf.
  destruct (sample_loop p id CONGESTION_LEDBAT_MAX (lc_estimate c)) as [delay est]. simpl in Hsuf.
  assert (He : Forall (λ s, smp_streamPos s ≤ lc_maxStreamPos c) est)
    by (destruct Hsuf as [l E]; rewrite E in Hs; by apply Forall_app in Hs as [_ ?]).
  destruct (delay =? CONGESTION_LEDBAT_MAX); [by split|].
  unfold UpdateBaseDelay. destruct (_ <? _); by split.
Qed.

Lemma on_send_payload_samples c now p : samples_ok c → samples_ok (fst (on_send_payload c now p)).
Proof.
  intros [Hs Hp]. unfold on_send_payload. set (pos := u64 _).
  destruct (Z.gtb_spec pos (lc_maxStreamPos c)) as [Hgt|Hle].
  - assert (Hf : ∀ id, Forall (λ s, smp_streamPos s ≤ pos) (lc_estimate c ++ [mkSample pos now id])).
    { intros id. apply Forall_app. split; [|by constructor]. eapply Forall_impl; [done|]. simpl; intros; lia. }
    destruct (_ >=? _); [|by split]. destruct (pg_idPart p); (split; [apply Hf|]); simpl; [done|].
    unfold MAX_INT32 in *. rewrite i32_id by lia. destruct (Z.eqb_spec (lc_packageId c + 1) (2 ^ 31 - 1)); lia.
  - split; [|done]. simpl. rewrite Forall_forall in Hs |- *. eauto using drop_sample_sub.
Qed.

Lemma on_send_payload_rings c now p : ring_inv c → ring_inv (fst (on_send_payload c now p)).
Proof.
  intros []. unfold on_send_payload. repeat (case_match; simpl); by split.
Qed.

Lemma LedbatCcOnSend_inv c now p :
  ring_inv c → samples_ok c →
  let c' := fst (LedbatCcOnSend c now p) in
  ring_inv c' ∧ samples_ok c' ∧ lc_wnd c' = lc_wnd c ∧ lc_mss c' = lc_mss c ∧ lc_mtu c' = lc_mtu c.
Proof.
  intros Hr Hs. simpl. unfold LedbatCcOnSend. set (p1 := set_send_time _ _ _).
  set (c1 := set_remote c (lc_newAck c) 0).
  assert (Hr1 : ring_inv c1) by (destruct Hr; by split).
  destruct (pg_payloadLength p1 =? 0); [exact (conj Hr1 (conj Hs (conj eq_refl (conj eq_refl eq_refl))))|]. split_and!.
  - by apply on_send_payload_rings.
  - by apply on_send_payload_samples.
  - unfold on_send_payload. by repeat (case_match; simpl).
  - unfold on_send_payload. by repeat (case_match; simpl).
  - unfold on_send_payload. by repeat (case_match; simpl).
Qed.

Lemma LedbatCcOnChangeState_wnd c s s' lim :
  wnd_ok c lim → wnd_ok (LedbatCcOnChangeState c s s') lim ∧ lc_wnd (LedbatCcOnChangeState c s s') ≤ lc_wnd c.
Proof.
  unfold wnd_ok, CONGESTION_LEDBET_MIN_CWND. intros (Hm & Hw & Hl). unfold LedbatCcOnChangeState, CONGESTION_LEDBET_MIN_CWND.
  pose proof (Z.div_mod (lc_wnd c) 2 ltac:(lia)). pose proof (Z.mod_pos_bound (lc_wnd c) 2 ltac:(lia)).
  destruct s'; simpl; rewrite ?u32_id by lia; [lia| |lia|lia].
  destruct (Z.ltb_spec (lc_wnd c / 2) (2 * lc_mss c)); lia.
Qed.

Lemma ledbat_run_inv mtu mss n c :
  0 < mss → CONGESTION_LEDBET_INIT_CWND * mss + MAX_CWND_INCREASE_BYTES_PER_RTT * Z.of_nat n < 2 ^ 32 →
  ledbat_run mtu mss n c →
  ring_inv c ∧ samples_ok c ∧ lc_mss c = mss ∧ lc_mtu c = mtu ∧
  wnd_ok c (CONGESTION_LEDBET_INIT_CWND * mss + MAX_CWND_INCREASE_BYTES_PER_RTT * Z.of_nat n).
Proof.
  intros Hm Hn Hrun. revert Hn.
  induction Hrun as [|n c now p nAcks flight Hrun IH HnA|n c s s' Hrun IH|n c now p Hrun IH|n c p t Hrun IH|n c Hrun IH];
    intros Hn.
  - unfold CONGESTION_LEDBET_INIT_CWND in *. unfold wnd_ok, CONGESTION_LEDBET_MIN_CWND. simpl.
    unfold CONGESTION_LEDBET_INIT_CWND. rewrite u32_id by lia.
    split_and!; try done; try lia. apply LedbatCcNew_rings.
  - unfold MAX_CWND_INCREASE_BYTES_PER_RTT in *. destruct IH as (Hr & Hs & Em & Et & Hw); [lia|].
    destruct (LedbatCcOnAck_inv c now p nAcks flight _ Hr Hw HnA) as (Hr' & Hw' & Em' & Et' & _).
    { unfold MAX_CWND_INCREASE_BYTES_PER_RTT. lia. }
    split_and!; [done| |congruence|congruence|].
    + unfold LedbatCcOnAck. destruct (_ =? _); [by apply UpdateSample_samples|].
      destruct (UpdateSample_samples c now p Hs). by split.
    + unfold MAX_CWND_INCREASE_BYTES_PER_RTT in Hw'.
      by replace (CONGESTION_LEDBET_INIT_CWND * mss + 8000 * Z.of_nat (S n))
        with (CONGESTION_LEDBET_INIT_CWND * mss + 8000 * Z.of_nat n + 8000) by lia.
  - destruct (IH Hn) as (Hr & Hs & Em & Et & Hw). destruct (LedbatCcOnChangeState_wnd c s s' _ Hw) as [Hw' _].
    split_and!; [| | | |done]; destruct s'; try done; first [destruct Hr; by split|destruct Hs; by split].
  - destruct (IH Hn) as (Hr & Hs & Em & Et & Hw).
    destruct (LedbatCcOnSend_inv c now p Hr Hs) as (Hr' & Hs' & Ew' & Em' & Et').
    unfold wnd_ok. rewrite Ew', Em', Et'. split_and!; try done; apply Hw.
  - destruct (IH Hn) as (Hr & Hs & Em & Et & Hw). unfold LedbatCcOnData.
    destruct t; simpl; try done; (split; [destruct Hr; by split|done]).
  - destruct (IH Hn) as (Hr & Hs & Em & Et & Hw). unfold LedbatCcTrySendAck.
    destruct (_ =? 1); simpl; [|done]. split; [destruct Hr; by split|done].
Qed.

(** ** Properties *)

(** C22: However a LEDBAT congestion control is driven, its window never falls
    below two segments nor rises above two segments plus 8000 bytes for every
    acknowledgement, and the queueing delay it computes is never negative,
    although the base delays are kept in a ring whose slots expire. *)
Theorem ledbat_window_safe mtu mss n c :
  0 < mss → CONGESTION_LEDBET_INIT_CWND * mss + MAX_CWND_INCREASE_BYTES_PER_RTT * Z.of_nat n < 2 ^ 32 →
  ledbat_run mtu mss n c →
  CONGESTION_LEDBET_MIN_CWND * mss ≤ lc_wnd c
    ≤ CONGESTION_LEDBET_INIT_CWND * mss + MAX_CWND_INCREASE_BYTES_PER_RTT * Z.of_nat n ∧
  0 ≤ list_min (lc_curr c) - list_min (lc_base c).
Proof.
  intros Hm Hn Hrun. destruct (ledbat_run_inv mtu mss n c Hm Hn Hrun) as (Hr & _ & Em & _ & _ & Hw & _).
  rewrite Em in Hw. split; [done|]. by apply queue_delay_nonneg.
Qed.

(** One acknowledgement moves the window by the scaled gain only: it grows
    by at most 8000 bytes, never falls below two segments, and does not grow
    when the queueing delay is at or above the target of 100 ms.  A loss
    halves the window and a retransmission timeout takes it back to two
    segments, neither below two segments. *)
Theorem ledbat_window_step mtu mss n c now p nAcks flight s :
  0 < mss → CONGESTION_LEDBET_INIT_CWND * mss + MAX_CWND_INCREASE_BYTES_PER_RTT * Z.of_nat (S n) < 2 ^ 32 →
  ledbat_run mtu mss n c → 0 ≤ nAcks < 2 ^ 32 →
  let c' := LedbatCcOnAck c now p nAcks flight in
  (2 * mss ≤ lc_wnd c' ≤ Z.max (2 * mss) (lc_wnd c + MAX_CWND_INCREASE_BYTES_PER_RTT)) ∧
  (CONGESTION_LEDBET_TARGET_TIME ≤ list_min (lc_curr c') - list_min (lc_base c') → lc_wnd c' ≤ lc_wnd c) ∧
  lc_wnd (LedbatCcOnChangeState c s CC_STATE_LOST) = Z.max (2 * mss) (lc_wnd c / 2) ∧
  lc_wnd (LedbatCcOnChangeState c s CC_STATE_RTO) = 2 * mss.
Proof.
  intros Hm Hn Hrun HnA c'. unfold MAX_CWND_INCREASE_BYTES_PER_RTT in *.
  destruct (ledbat_run_inv mtu mss n c Hm ltac:(unfold MAX_CWND_INCREASE_BYTES_PER_RTT; lia) Hrun)
    as (Hr & _ & Em & _ & _ & Hw & Hlim).
  unfold CONGESTION_LEDBET_INIT_CWND, CONGESTION_LEDBET_MIN_CWND, MAX_CWND_INCREASE_BYTES_PER_RTT in *.
  assert (Hw0 : wnd_ok c (lc_wnd c)) by (unfold wnd_ok, CONGESTION_LEDBET_MIN_CWND; lia).
  destruct (LedbatCcOnAck_inv c now p nAcks flight _ Hr Hw0 HnA) as (_ & (_ & Hw' & _) & Em' & _ & Hs).
  { unfold MAX_CWND_INCREASE_BYTES_PER_RTT. lia. }
  fold c' in Hw', Em', Hs. rewrite Em', Em in Hw'.
  unfold CONGESTION_LEDBET_MIN_CWND, MAX_CWND_INCREASE_BYTES_PER_RTT in Hw'.
  split_and!; [lia|lia|exact Hs| |].
  - simpl. unfold CONGESTION_LEDBET_MIN_CWND. rewrite Em.
    destruct (Z.ltb_spec (lc_wnd c / 2) (2 * mss)); rewrite ?u32_id; lia.
  - simpl. unfold CONGESTION_LEDBET_MIN_CWND. rewrite Em. rewrite u32_id; lia.
Qed.

Lemma sample_loop_all p id est s :
  Forall (λ x, smp_streamPos x ≤ pg_ackStreamPos p) (est ++ [s]) → 0 < id → smp_packageId s = id →
  ∀ delay, sample_loop p id delay (est ++ [s]) = (Z.quot (i64 (pg_sendTime p - smp_sendTime s)) 1000, []).
Proof.
  induction est as [|x est IH]; intros Hf Hid Hs delay; simpl; apply Forall_cons in Hf as [Hx Hf].
  - rewrite (proj2 (Z.leb_le _ _) Hx). simpl. rewrite Hs, Z.eqb_refl.
    by rewrite (proj2 (Z.gtb_gt _ _)) by lia.
  - rewrite (proj2 (Z.leb_le _ _) Hx). simpl. by apply IH.
Qed.

(** An owed identifier goes onto the next package, which answers it. *)
Lemma LedbatCcOnSend_answers c now q a pid :
  0 < pid < 2 ^ 31 → pg_idPart (snd (LedbatCcOnSend (set_remote c a (i32 pid)) now q)) = Some (mkIdPart pid 0).
Proof.
  intros Hpid. unfold LedbatCcOnSend. cbn -[i32 u32 u64 on_send_payload].
  rewrite i32_id, u32_id by lia. rewrite (proj2 (Z.gtb_gt _ _)) by lia.
  destruct (pg_payloadLength q =? 0); [done|]. unfold on_send_payload. by repeat (case_match; simplify_eq/=).
Qed.

(** A package that answers the latest probe and acknowledges everything
    probed takes all the probes and enters its delay. *)
Lemma LedbatCcOnAck_answer c now q nAcks flight est s :
  length (lc_curr c) = CONGESTION_LEDBET_CURRENT_DELAY_SAMPLE_COUNT → (lc_currHead c < 4)%nat →
  lc_estimate c = est ++ [s] → Forall (λ x, smp_streamPos x ≤ pg_ackStreamPos q) (est ++ [s]) →
  0 < smp_packageId s → pg_idPart q = Some (mkIdPart (smp_packageId s) 0) →
  let delay := Z.quot (i64 (pg_sendTime q - smp_sendTime s)) 1000 in
  delay ≠ CONGESTION_LEDBAT_MAX →
  slot (lc_curr (LedbatCcOnAck c now q nAcks flight)) (lc_currHead c) = delay ∧
  lc_estimate (LedbatCcOnAck c now q nAcks flight) = [].
Proof.
  intros Hl Hh He Hf Hid Hq delay Hd. unfold LedbatCcOnAck.
  assert (HU : UpdateSample c now q =
               UpdateCurrDelay (UpdateBaseDelay
                 (set_estimate c (lc_maxStreamPos c) [] (lc_packageId c) (lc_prevEstTime c)) now delay) delay).
  { unfold UpdateSample. rewrite Hq. cbn [ip_totalRecv ip_packageId]. rewrite Z.eqb_refl, He.
    rewrite sample_loop_all by done. fold delay. by rewrite (proj2 (Z.eqb_neq _ _)) by done. }
  rewrite HU. set (c2 := set_estimate _ _ _ _ _).
  destruct (UpdateBaseDelay_curr c2 now delay) as (Ec & Eh & _ & _ & _ & Ee).
  set (c3 := UpdateBaseDelay c2 now delay) in *.
  assert (Hs : slot (lc_curr (UpdateCurrDelay c3 delay)) (lc_currHead c) = delay).
  { simpl. rewrite Eh, Ec. simpl. rewrite slot_insert by (rewrite Hl; done). by rewrite decide_True. }
  destruct (_ =? _); by split.
Qed.

(** The package starts a probe: it carries data beyond what was probed, and
    30 ms passed since the last probe; no answer is owed to the peer. *)
Definition starts_probe (c : LedbatCc) (p : SessionData) : Prop :=
  pg_payloadLength p ≠ 0 ∧ pg_sendTime p ≠ 0 ∧ pg_idPart p = None ∧ lc_remotePackageId c = 0 ∧
  lc_maxStreamPos c < u64 (pg_streamPos p + pg_payloadLength p) ∧
  30 * 1000 ≤ u64 (pg_sendTime p - lc_prevEstTime c).

Lemma LedbatCcOnSend_probe c now p :
  starts_probe c p → 0 ≤ lc_packageId c < MAX_INT32 →
  let pos := u64 (pg_streamPos p + pg_payloadLength p) in
  let pid := lc_packageId c + 1 in
  ∃ next, LedbatCcOnSend c now p =
    (set_estimate (set_remote c (lc_newAck c) 0) pos (lc_estimate c ++ [mkSample pos now pid]) next (pg_sendTime p),
     set_send_time p (pg_sendTime p) (Some (mkIdPart pid 1))).
Proof.
  intros (Hlen & Htime & Hid & Hrem & Hpos & Hprev) Hp pos pid. unfold MAX_INT32 in Hp.
  exists (if pid =? MAX_INT32 then 0 else pid).
  assert (Epid : i32 pid = pid ∧ u32 pid = pid) by (unfold pid; rewrite i32_id, u32_id; lia).
  destruct Epid as [E1 E2].
  unfold LedbatCcOnSend. rewrite Hrem, Hid. change (u32 0 >? 0) with false. cbv iota.
  rewrite (proj2 (Z.eqb_neq _ _) Htime).
  cbn [pg_payloadLength set_send_time]. rewrite (proj2 (Z.eqb_neq _ _) Hlen).
  unfold on_send_payload.
  cbn [pg_payloadLength pg_streamPos pg_sendTime pg_idPart set_send_time
       lc_maxStreamPos lc_prevEstTime lc_packageId lc_estimate set_remote].
  fold pos pid. rewrite (proj2 (Z.gtb_gt _ _)) by lia. rewrite (proj2 (Z.geb_ge _ _)) by lia.
  by rewrite E1, E2.
Qed.

(** The delay probe makes a round trip: the package with new data carries
    an identifier, the receiver answers that identifier on its next package,
    and when that package acknowledges the data the sender enters the time
    from its own sending to the answer's sending, in milliseconds, as the
    latest delay and forgets the probe. *)
Theorem delay_probe_roundtrip mtu mss n c now p d t q now' now'' nAcks flight :
  0 < mss → CONGESTION_LEDBET_INIT_CWND * mss + MAX_CWND_INCREASE_BYTES_PER_RTT * Z.of_nat n < 2 ^ 32 →
  ledbat_run mtu mss n c → starts_probe c p →
  t ≠ RECV_PACKAGE_TYPE_NONE → t ≠ RECV_PACKAGE_TYPE_OUT_OF_BUFFER →
  let '(c1, p1) := LedbatCcOnSend c now p in
  let '(_, d1) := LedbatCcOnData d (Some p1) t in
  let '(_, q1) := LedbatCcOnSend d1 now' q in
  let delay := Z.quot (i64 (pg_sendTime q1 - now)) 1000 in
  let c2 := LedbatCcOnAck c1 now'' q1 nAcks flight in
  u64 (pg_streamPos p + pg_payloadLength p) ≤ pg_ackStreamPos q →
  delay ≠ CONGESTION_LEDBAT_MAX →
  slot (lc_curr c2) (lc_currHead c1) = delay ∧ lc_estimate c2 = [].
Proof.
  intros Hm Hn Hrun Hpr Ht1 Ht2.
  destruct (ledbat_run_inv mtu mss n c Hm Hn Hrun) as ([_ Hcl _ Hch _] & [Hs Hp] & _).
  destruct (LedbatCcOnSend_probe c now p Hpr Hp) as [next ->].
  destruct Hpr as (_ & _ & _ & _ & Hpos & _). unfold MAX_INT32 in Hp.
  set (pid := lc_packageId c + 1) in *. set (c1 := set_estimate _ _ _ _ _). set (p1 := set_send_time _ _ (Some _)).
  assert (Hd1 : ∃ r, LedbatCcOnData d (Some p1) t = (r, set_remote d 1 (i32 pid)))
    by (destruct t; try done; by eexists).
  destruct Hd1 as [r ->].
  pose proof (cc_onSend_package (set_remote d 1 (i32 pid)) now' q) as Hq. cbn [cc_onSend LedbatCc_BaseCc] in Hq.
  pose proof (LedbatCcOnSend_answers d now' q 1 pid ltac:(unfold pid; lia)) as Hqid.
  destruct (LedbatCcOnSend (set_remote d 1 (i32 pid)) now' q) as [d2 q1]. simpl in Hqid.
  destruct Hq as [_ [=Hack _]]. intros delay c2 Hcov Hdel.
  refine (LedbatCcOnAck_answer c1 now'' q1 nAcks flight (lc_estimate c) (mkSample _ now pid) Hcl Hch eq_refl _ _ Hqid Hdel).
  - rewrite Hack. apply Forall_app. split; [|constructor; [done|constructor]].
    eapply Forall_impl; [exact Hs|]. simpl. intros; lia.
  - simpl. unfold pid. lia.
Qed.

(** ** Concrete runs *)

(** A probe of 1000 bytes at position 5, answered 40 ms later. *)
Definition demo_probe : SessionData := mkSession 0 7 5 0 0 None 2000000 1000 0 None.
Definition demo_answer : SessionData := mkSession 0 7 0 1005 0 None 2040000 0 0 None.

Lemma ledbat_window_safe_witness :
  let c := LedbatCcOnAck (LedbatCcNew 1400 1400) 0 demo_answer 1000 0 in
  ledbat_run 1400 1400 1 c ∧ 2800 ≤ lc_wnd c ≤ 10800.
Proof.
  assert (Hr : ledbat_run 1400 1400 1 (LedbatCcOnAck (LedbatCcNew 1400 1400) 0 demo_answer 1000 0))
    by (apply run_ack; [apply run_new|lia]).
  split; [exact Hr|].
  exact (proj1 (ledbat_window_safe 1400 1400 1 _ eq_refl eq_refl Hr)).
Defined.

(** The delays of a package sent 40 ms ago: the window opens. *)
Definition demo_answered : LedbatCc :=
  let c1 := fst (LedbatCcOnSend (LedbatCcNew 1400 1400) 2000000 demo_probe) in
  LedbatCcOnAck c1 2050000 (set_send_time demo_answer 2040000 (Some (mkIdPart 1 0))) 1000 1000.

Example demo_answered_wnd : lc_wnd demo_answered = 5657.
Proof. vm_compute. reflexivity. Qed.

Lemma ledbat_window_step_witness :
  ledbat_run 1400 1400 1 demo_answered ∧
  lc_wnd (LedbatCcOnChangeState demo_answered CC_STATE_OPEN CC_STATE_LOST) = 2828.
Proof.
  assert (Hr : ledbat_run 1400 1400 1 demo_answered)
    by (apply run_ack; [apply run_send, run_new|lia]).
  split; [exact Hr|].
  destruct (ledbat_window_step 1400 1400 1 demo_answered 0 demo_answer 0 0 CC_STATE_OPEN
              eq_refl eq_refl Hr ltac:(lia)) as (_ & _ & Hl & _).
  rewrite Hl. vm_compute. reflexivity.
Defined.

Lemma delay_probe_roundtrip_witness :
  starts_probe (LedbatCcNew 1400 1400) demo_probe ∧
  slot (lc_curr demo_answered) 0 = 40.
Proof.
  assert (Hs : starts_probe (LedbatCcNew 1400 1400) demo_probe) by (vm_compute; intuition congruence).
  split; [exact Hs|].
  pose proof (delay_probe_roundtrip 1400 1400 0 (LedbatCcNew 1400 1400) 2000000 demo_probe (LedbatCcNew 1400 1400)
    RECV_PACKAGE_TYPE_IN_ORDER demo_answer 2040000 2050000 1000 1000 eq_refl eq_refl (run_new _ _) Hs
    ltac:(discriminate) ltac:(discriminate)) as H.
  vm_compute in H. vm_compute. apply H; discriminate.
Defined.
