(* ===== verification/ConnState.v ===== *)
(** * The state of a package connection

    The data of [BDTCore/Connection/PackageConnection/PackageConnection.imp.inl]
    and of its header: [struct PackageConnection], its enumerations and its
    configuration, the monad in which its functions run, and the rest of the
    world as a connection sees it: the clock it reads, and the trace of what it
    sends and of the application's callbacks it invokes. *)

From S2P Require Import Prelude CInt RecvQueue SendQueue Package.

(** ** Enumerations and configuration *)

Inductive PackageConnectionState :=
  | PACKAGE_CONNECTION_STATE_NONE
  | PACKAGE_CONNECTION_STATE_ESTABLISH
  | PACKAGE_CONNECTION_STATE_CLOSING
  | PACKAGE_CONNECTION_STATE_CLOSE.
#[export] Instance PackageConnectionState_eq_dec : EqDecision PackageConnectionState.
Proof. solve_decision. Defined.

Inductive PackageConnectionCloseSubState :=
  | PACKAGE_CONNECTION_CLOSE_SUBSTATE_NONE
  | PACKAGE_CONNECTION_CLOSE_SUBSTATE_FIN1
  | PACKAGE_CONNECTION_CLOSE_SUBSTATE_FIN2
  | PACKAGE_CONNECTION_CLOSE_SUBSTATE_CLOSING
  | PACKAGE_CONNECTION_CLOSE_SUBSTATE_TIMEWAIT
  | PACKAGE_CONNECTION_CLOSE_SUBSTATE_WAITCLOSE
  | PACKAGE_CONNECTION_CLOSE_SUBSTATE_LASTACK
  | PACKAGE_CONNECTION_CLOSE_SUBSTATE_CLOSED.
#[export] Instance PackageConnectionCloseSubState_eq_dec : EqDecision PackageConnectionCloseSubState.
Proof. solve_decision. Defined.

Inductive RttState :=
  | PACKAGE_CONNECTION_RTT_ESTIMATE_STATE_NONE
  | PACKAGE_CONNECTION_RTT_ESTIMATE_STATE_PREPARE
  | PACKAGE_CONNECTION_RTT_ESTIMATE_STATE_WAIT
  | PACKAGE_CONNECTION_RTT_ESTIMATE_STATE_CANCEL
  | PACKAGE_CONNECTION_RTT_ESTIMATE_STATE_CALC.
#[export] Instance RttState_eq_dec : EqDecision RttState.
Proof. solve_decision. Defined.

Definition PACKAGE_CONNECTION_INIT_STREAM_POS : Z := 1.
Definition PACKAGE_CONNECTION_FLAG_CLOSE_RECV : Z := Z.shiftl 1 1.
Definition PACKAGE_CONNECTION_FLAG_CLOSE_SEND : Z := Z.shiftl 1 2.
Definition PACKAGE_CONNECTION_MIN_RTO : Z := 200000.
Definition PACKAGE_CONNECTION_INIT_RTO : Z := 1000000.

(** [BdtPackageConnectionConfig]; the intervals only go to the timers. *)
Record PackageConnectionConfig := mkConfig { cfg_mtu : Z; cfg_mss : Z; cfg_halfOpen : bool }.

(** What surrounds a connection: its configuration, the identifier of the
    remote session, and the address of the list a caller keeps on its stack. *)
Record Env := mkEnv { env_config : PackageConnectionConfig; env_remoteId : Z; env_list : Z }.

(** The close timer runs one of two callbacks. *)
Inductive CloseTimer := FinTimer | TimewaitTimer.

(** What a connection does to the world: packages given to the tunnel, the
    callbacks of send buffers (callback, result, data, length) and of receive
    buffers (callback, data, length, the bytes there), and the statistics. *)
Inductive Event :=
  | EvSend (p : SessionData)
  | EvSent (callback result data len : Z)
  | EvRecv (callback data len : Z) (bytes : list Z)
  | EvStat (recvSize : Z).

(** ** The connection *)

(** [state], [closeSubState], [flags], [remoteCloseStreamPos],
    [selfCloseStreamPos] and [closeTimer] *)
Record CloseCtx := mkClose {
  cl_state : PackageConnectionState ;
  cl_sub : PackageConnectionCloseSubState ;
  cl_flags : Z ;
  cl_remotePos : Z ;
  cl_selfPos : Z ;
  cl_timer : option CloseTimer }.

(** [rttEst] *)
Record RttEst := mkRtt {
  re_srtt : Z ;
  re_mdev : Z ;
  re_mdev_max : Z ;
  re_rttvar : Z ;
  re_sendTime : Z ;
  re_lastEstTime : Z ;
  re_ackStreamPos : Z ;
  re_prevAckStreamPos : Z ;
  re_state : RttState }.

(** [recvReadyQueue] *)
Record ReadyQueue := mkReady {
  ry_buffers : list RecvBuffer ;
  ry_streamPos : Z ;
  ry_onNotifying : bool }.

Record World := mkWorld {
  w_clock : nat → Z ;
  w_tick : nat ;
  w_trace : list Event }.

(** [struct PackageConnection], over the state [C] of its congestion control *)
Record Conn (C : Type) := mkConn {
  pc_close : CloseCtx ;
  pc_sendQueue : SendQueue ;
  pc_recvQueue : RecvQueue ;
  pc_cc : C ;
  pc_rto : Z ;
  pc_lastRecvAckTime : Z ;
  pc_rtoTimer : bool ;
  pc_recvTimer : bool ;
  pc_trySendCnt : Z ;
  pc_lastLostStateTime : Z ;
  pc_ready : ReadyQueue ;
  pc_rttEst : RttEst ;
  pc_world : World }.
Arguments mkConn {C}.
Arguments pc_close {C}.
Arguments pc_sendQueue {C}.
Arguments pc_recvQueue {C}.
Arguments pc_cc {C}.
Arguments pc_rto {C}.
Arguments pc_lastRecvAckTime {C}.
Arguments pc_rtoTimer {C}.
Arguments pc_recvTimer {C}.
Arguments pc_trySendCnt {C}.
Arguments pc_lastLostStateTime {C}.
Arguments pc_ready {C}.
Arguments pc_rttEst {C}.
Arguments pc_world {C}.

(** *** Updates of one field *)

Definition set_cl_state (v : PackageConnectionState) (r : CloseCtx) : CloseCtx :=
  mkClose v (cl_sub r) (cl_flags r) (cl_remotePos r) (cl_selfPos r) (cl_timer r).
Definition set_cl_sub (v : PackageConnectionCloseSubState) (r : CloseCtx) : CloseCtx :=
  mkClose (cl_state r) v (cl_flags r) (cl_remotePos r) (cl_selfPos r) (cl_timer r).
Definition set_cl_flags (v : Z) (r : CloseCtx) : CloseCtx :=
  mkClose (cl_state r) (cl_sub r) v (cl_remotePos r) (cl_selfPos r) (cl_timer r).
Definition set_cl_remotePos (v : Z) (r : CloseCtx) : CloseCtx :=
  mkClose (cl_state r) (cl_sub r) (cl_flags r) v (cl_selfPos r) (cl_timer r).
Definition set_cl_selfPos (v : Z) (r : CloseCtx) : CloseCtx :=
  mkClose (cl_state r) (cl_sub r) (cl_flags r) (cl_remotePos r) v (cl_timer r).
Definition set_cl_timer (v : option CloseTimer) (r : CloseCtx) : CloseCtx :=
  mkClose (cl_state r) (cl_sub r) (cl_flags r) (cl_remotePos r) (cl_selfPos r) v.
Definition set_ry_buffers (v : list RecvBuffer) (r : ReadyQueue) : ReadyQueue :=
  mkReady v (ry_streamPos r) (ry_onNotifying r).
Definition set_ry_streamPos (v : Z) (r : ReadyQueue) : ReadyQueue :=
  mkReady (ry_buffers r) v (ry_onNotifying r).
Definition set_ry_onNotifying (v : bool) (r : ReadyQueue) : ReadyQueue :=
  mkReady (ry_buffers r) (ry_streamPos r) v.

Section updates.
Context {C : Type}.
Definition set_pc_close (v : CloseCtx) (r : Conn C) : Conn C :=
  mkConn v (pc_sendQueue r) (pc_recvQueue r) (pc_cc r) (pc_rto r) (pc_lastRecvAckTime r) (pc_rtoTimer r) (pc_recvTimer r) (pc_trySendCnt r) (pc_lastLostStateTime r) (pc_ready r) (pc_rttEst r) (pc_world r).
Definition set_pc_sendQueue (v : SendQueue) (r : Conn C) : Conn C :=
  mkConn (pc_close r) v (pc_recvQueue r) (pc_cc r) (pc_rto r) (pc_lastRecvAckTime r) (pc_rtoTimer r) (pc_recvTimer r) (pc_trySendCnt r) (pc_lastLostStateTime r) (pc_ready r) (pc_rttEst r) (pc_world r).
Definition set_pc_recvQueue (v : RecvQueue) (r : Conn C) : Conn C :=
  mkConn (pc_close r) (pc_sendQueue r) v (pc_cc r) (pc_rto r) (pc_lastRecvAckTime r) (pc_rtoTimer r) (pc_recvTimer r) (pc_trySendCnt r) (pc_lastLostStateTime r) (pc_ready r) (pc_rttEst r) (pc_world r).
Definition set_pc_cc (v : C) (r : Conn C) : Conn C :=
  mkConn (pc_close r) (pc_sendQueue r) (pc_recvQueue r) v (pc_rto r) (pc_lastRecvAckTime r) (pc_rtoTimer r) (pc_recvTimer r) (pc_trySendCnt r) (pc_lastLostStateTime r) (pc_ready r) (pc_rttEst r) (pc_world r).
Definition set_pc_rto (v : Z) (r : Conn C) : Conn C :=
  mkConn (pc_close r) (pc_sendQueue r) (pc_recvQueue r) (pc_cc r) v (pc_lastRecvAckTime r) (pc_rtoTimer r) (pc_recvTimer r) (pc_trySendCnt r) (pc_lastLostStateTime r) (pc_ready r) (pc_rttEst r) (pc_world r).
Definition set_pc_lastRecvAckTime (v : Z) (r : Conn C) : Conn C :=
  mkConn (pc_close r) (pc_sendQueue r) (pc_recvQueue r) (pc_cc r) (pc_rto r) v (pc_rtoTimer r) (pc_recvTimer r) (pc_trySendCnt r) (pc_lastLostStateTime r) (pc_ready r) (pc_rttEst r) (pc_world r).
Definition set_pc_rtoTimer (v : bool) (r : Conn C) : Conn C :=
  mkConn (pc_close r) (pc_sendQueue r) (pc_recvQueue r) (pc_cc r) (pc_rto r) (pc_lastRecvAckTime r) v (pc_recvTimer r) (pc_trySendCnt r) (pc_lastLostStateTime r) (pc_ready r) (pc_rttEst r) (pc_world r).
Definition set_pc_recvTimer (v : bool) (r : Conn C) : Conn C :=
  mkConn (pc_close r) (pc_sendQueue r) (pc_recvQueue r) (pc_cc r) (pc_rto r) (pc_lastRecvAckTime r) (pc_rtoTimer r) v (pc_trySendCnt r) (pc_lastLostStateTime r) (pc_ready r) (pc_rttEst r) (pc_world r).
Definition set_pc_trySendCnt (v : Z) (r : Conn C) : Conn C :=
  mkConn (pc_close r) (pc_sendQueue r) (pc_recvQueue r) (pc_cc r) (pc_rto r) (pc_lastRecvAckTime r) (pc_rtoTimer r) (pc_recvTimer r) v (pc_lastLostStateTime r) (pc_ready r) (pc_rttEst r) (pc_world r).
Definition set_pc_lastLostStateTime (v : Z) (r : Conn C) : Conn C :=
  mkConn (pc_close r) (pc_sendQueue r) (pc_recvQueue r) (pc_cc r) (pc_rto r) (pc_lastRecvAckTime r) (pc_rtoTimer r) (pc_recvTimer r) (pc_trySendCnt r) v (pc_ready r) (pc_rttEst r) (pc_world r).
Definition set_pc_ready (v : ReadyQueue) (r : Conn C) : Conn C :=
  mkConn (pc_close r) (pc_sendQueue r) (pc_recvQueue r) (pc_cc r) (pc_rto r) (pc_lastRecvAckTime r) (pc_rtoTimer r) (pc_recvTimer r) (pc_trySendCnt r) (pc_lastLostStateTime r) v (pc_rttEst r) (pc_world r).
Definition set_pc_rttEst (v : RttEst) (r : Conn C) : Conn C :=
  mkConn (pc_close r) (pc_sendQueue r) (pc_recvQueue r) (pc_cc r) (pc_rto r) (pc_lastRecvAckTime r) (pc_rtoTimer r) (pc_recvTimer r) (pc_trySendCnt r) (pc_lastLostStateTime r) (pc_ready r) v (pc_world r).
Definition set_pc_world (v : World) (r : Conn C) : Conn C :=
  mkConn (pc_close r) (pc_sendQueue r) (pc_recvQueue r) (pc_cc r) (pc_rto r) (pc_lastRecvAckTime r) (pc_rtoTimer r) (pc_recvTimer r) (pc_trySendCnt r) (pc_lastLostStateTime r) (pc_ready r) (pc_rttEst r) v.
End updates.

(** ** The monad

    A function of the connection reads and writes it, and returns, or stops at
    a failed assertion or a null pointer ([Fault]); [OutOfFuel] bounds the
    rounds of the sending loop. *)

Inductive outcome (A : Type) := Ok (a : A) | Fault | OutOfFuel.
Arguments Ok {A}.
Arguments Fault {A}.
Arguments OutOfFuel {A}.

Definition CM (C A : Type) : Type := Conn C → outcome (A * Conn C).

#[export] Instance CM_ret {C} : MRet (CM C) := λ A a c, Ok (a, c).
#[export] Instance CM_bind {C} : MBind (CM C) := λ A B k m c,
  match m c with
  | Ok (a, c') => k a c'
  | Fault => Fault
  | OutOfFuel => OutOfFuel
  end.

Definition getc {C} : CM C (Conn C) := λ c, Ok (c, c).
Definition putc {C} (c : Conn C) : CM C unit := λ _, Ok (tt, c).
Definition modify {C} (f : Conn C → Conn C) : CM C unit := λ c, Ok (tt, f c).
Definition orfault {C A} (o : option A) : CM C A :=
  λ c, match o with Some a => Ok (a, c) | None => Fault end.

(** [BfxTimeGetNow] *)
Definition now {C} : CM C Z := λ c,
  let w := pc_world c in
  Ok (w_clock w (w_tick w), set_pc_world (mkWorld (w_clock w) (S (w_tick w)) (w_trace w)) c).

Definition emit {C} (e : Event) : CM C unit :=
  modify (λ c, let w := pc_world c in
    set_pc_world (mkWorld (w_clock w) (w_tick w) (w_trace w ++ [e])) c).

Definition update_close {C} (f : CloseCtx → CloseCtx) : CM C unit :=
  modify (λ c, set_pc_close (f (pc_close c)) c).

(** [BfxAtomicCompareAndSwap32] on [state] and on [closeSubState]; the answer
    tells whether the old value was the expected one. *)
Definition cas_state {C} (old new : PackageConnectionState) : CM C bool := λ c,
  if decide (cl_state (pc_close c) = old)
  then Ok (true, set_pc_close (set_cl_state new (pc_close c)) c) else Ok (false, c).
Definition cas_sub {C} (old new : PackageConnectionCloseSubState) : CM C bool := λ c,
  if decide (cl_sub (pc_close c) = old)
  then Ok (true, set_pc_close (set_cl_sub new (pc_close c)) c) else Ok (false, c).

Definition add_flags {C} (f : Z) : CM C unit :=
  update_close (λ k, set_cl_flags (Z.lor (cl_flags k) f) k).

Definition state_is {C} (s : PackageConnectionState) (c : Conn C) : bool :=
  bool_decide (cl_state (pc_close c) = s).
Definition sub_is {C} (l : list PackageConnectionCloseSubState) (c : Conn C) : bool :=
  bool_decide (cl_sub (pc_close c) ∈ l).

(** ** Reasoning about runs

    [rel R m]: whenever [m] returns, the connections before and after are
    related by the preorder [R]; [keeps f m]: it leaves [f] of the connection
    alone. *)

Definition rel {C A} (R : Conn C → Conn C → Prop) (m : CM C A) : Prop :=
  ∀ c a c', m c = Ok (a, c') → R c c'.

Definition keeps {C A T} (f : Conn C → T) (m : CM C A) : Prop := rel (λ c c', f c' = f c) m.

Lemma bind_Ok {C A B} (m : CM C A) (k : A → CM C B) c r :
  (m ≫= k) c = Ok r → ∃ a c1, m c = Ok (a, c1) ∧ k a c1 = Ok r.
Proof. unfold mbind, CM_bind. destruct (m c) as [[a c1]| |]; [eauto|done|done]. Qed.

Section logic.
Context {C : Type} (R : Conn C → Conn C → Prop) `{!PreOrder R}.

Lemma rel_ret {A} (a : A) : rel R (mret a).
Proof. intros c a' c' [=<- <-]. reflexivity. Qed.

Lemma rel_bind {A B} (m : CM C A) (k : A → CM C B) : rel R m → (∀ a, rel R (k a)) → rel R (m ≫= k).
Proof.
  intros Hm Hk c b c' (a & c1 & H1 & H2)%bind_Ok. etrans; [by eapply Hm|by eapply Hk].
Qed.

(** A function that first reads the connection. *)
Lemma rel_getc {B} (k : Conn C → CM C B) :
  (∀ c b c', k c c = Ok (b, c') → R c c') → rel R (getc ≫= k).
Proof. intros Hk c b c' Hr. by eapply Hk. Qed.

Lemma rel_getc_any : rel R getc.
Proof. intros c a c' [=<- <-]. reflexivity. Qed.

Lemma rel_modify f : (∀ c, R c (f c)) → rel R (modify f).
Proof. intros Hf c a c' [=<- <-]. apply Hf. Qed.

Lemma rel_orfault {A} (o : option A) : rel R (orfault o).
Proof. intros c a c'. unfold orfault. destruct o; [|done]. intros [=<- <-]. reflexivity. Qed.

Lemma rel_outoffuel {A} : rel R (λ _, OutOfFuel : outcome (A * Conn C)).
Proof. done. Qed.

Lemma rel_now : (∀ c w, R c (set_pc_world w c)) → rel R now.
Proof. intros Hw c a c' [=<- <-]. apply Hw. Qed.

Lemma rel_emit e : (∀ c w, R c (set_pc_world w c)) → rel R (emit e).
Proof. intros Hw. apply rel_modify. intros c. apply Hw. Qed.
End logic.

#[export] Instance keeps_preorder {C T} (f : Conn C → T) : PreOrder (λ c c', f c' = f c).
Proof. split; [done|]. intros x y z -> ->. done. Qed.

(** Goes through a function whose every step keeps [f]: [tac] is tried on what
    is not a primitive. *)
Ltac keeps_go tac :=
  unfold keeps; repeat (intros;
    first [ apply rel_ret; [typeclasses eauto]
          | tac
          | apply rel_bind; [typeclasses eauto| |]
          | apply rel_orfault; [typeclasses eauto]
          | apply rel_outoffuel
          | apply rel_now; by intros
          | apply rel_emit; by intros
          | apply rel_modify; by intros
          | apply rel_getc_any; [typeclasses eauto]
          | case_match ]).
