(* ===== verification/PackageConnection.v ===== *)
(** * The package connection

    The functions of
    [BDTCore/Connection/PackageConnection/PackageConnection.imp.inl], in the
    monad of [ConnState]: sending, receiving, the close handshake, the timers'
    callbacks, the estimation of the round trip time and the notification of
    the application.  The congestion control is any instance of [BaseCc].
    Callbacks of the application are events of the trace; a call an application
    makes from a callback is an operation of its own. *)

From S2P Require Import Prelude CInt RecvQueue SendQueue Package ConnState.

(** ** Estimating the round trip time *)

(** [PackageConnectionEstimateRttFromLinuxTcp], on [rttEst]: the new estimate
    and the new [rto].  [m] is a [long], the fields are [uint32_t]. *)
Definition EstimateRttFromLinuxTcp (r : RttEst) (mrtt : Z) : RttEst * Z :=
  let m := if mrtt =? 0 then 1 else mrtt in
  let '(srtt, mdev, mdev_max, rttvar) :=
    if negb (re_srtt r =? 0) then
      let m := m - Z.shiftr (re_srtt r) 3 in
      let srtt := u32 (re_srtt r + m) in
      let m :=
        if m <? 0 then
          let m := - m - Z.shiftr (re_mdev r) 2 in
          if m >? 0 then Z.shiftr m 3 else m
        else m - Z.shiftr (re_mdev r) 2 in
      let mdev := u32 (re_mdev r + m) in
      let '(mdev_max, rttvar) :=
        if mdev >? re_mdev_max r
        then (mdev, if mdev >? re_rttvar r then mdev else re_rttvar r)
        else (re_mdev_max r, re_rttvar r) in
      let rttvar :=
        if mdev_max <? rttvar then u32 (rttvar - Z.shiftr (u32 (rttvar - mdev_max)) 2) else rttvar in
      (srtt, mdev, 200000, rttvar)
    else
      let mdev := u32 (Z.shiftl m 1) in
      let v := if mdev >? PACKAGE_CONNECTION_MIN_RTO then mdev else PACKAGE_CONNECTION_MIN_RTO in
      (u32 (Z.shiftl m 3), mdev, v, v) in
  (mkRtt srtt mdev mdev_max rttvar (re_sendTime r) (re_lastEstTime r) (re_ackStreamPos r)
     (re_prevAckStreamPos r) (re_state r),
   u32 (Z.shiftr srtt 3 + rttvar)).

Definition set_re_state (s : RttState) (r : RttEst) : RttEst :=
  mkRtt (re_srtt r) (re_mdev r) (re_mdev_max r) (re_rttvar r) (re_sendTime r) (re_lastEstTime r)
    (re_ackStreamPos r) (re_prevAckStreamPos r) s.

(** The end of [PackageConnectionEstimateRtt]. *)
Definition finish_estimate (r : RttEst) (now : Z) : RttEst :=
  mkRtt (re_srtt r) (re_mdev r) (re_mdev_max r) (re_rttvar r) (re_sendTime r) now
    0 (re_prevAckStreamPos r) PACKAGE_CONNECTION_RTT_ESTIMATE_STATE_NONE.

(** A range of the SACK array reaches over the position. *)
Fixpoint rtt_sacked (pos : Z) (sacks : list BdtStreamRange) : bool :=
  match sacks with
  | [] => false
  | s :: sacks' =>
      if sr_length s =? 0 then false
      else if (pos >? sr_pos s) && (pos <=? sr_pos s + sr_length s) then true
      else rtt_sacked pos sacks'
  end.

Definition rtt_acked (r : RttEst) (p : SessionData) : bool :=
  if re_ackStreamPos r =? 0 then false
  else if re_ackStreamPos r <=? pg_ackStreamPos p then true
  else match pg_sackArray p with
       | Some sacks => rtt_sacked (re_ackStreamPos r) sacks
       | None => false
       end.

(** Preparing or cancelling an estimation when a payload is sent; [now1] and
    [now2] are the two readings of the clock. *)
Definition rtt_on_send (r : RttEst) (endPos now1 now2 : Z) : RttEst :=
  if re_ackStreamPos r =? endPos then
    if decide (re_state r = PACKAGE_CONNECTION_RTT_ESTIMATE_STATE_WAIT) then
      mkRtt (re_srtt r) (re_mdev r) (re_mdev_max r) (re_rttvar r) (re_sendTime r) (re_lastEstTime r)
        0 (re_prevAckStreamPos r) PACKAGE_CONNECTION_RTT_ESTIMATE_STATE_NONE
    else r
  else if (re_ackStreamPos r =? 0) && (re_prevAckStreamPos r <? endPos) &&
          (now1 >? u64 (200000 + re_lastEstTime r)) then
    if decide (re_state r = PACKAGE_CONNECTION_RTT_ESTIMATE_STATE_NONE) then
      mkRtt (re_srtt r) (re_mdev r) (re_mdev_max r) (re_rttvar r) now2 (re_lastEstTime r)
        endPos endPos PACKAGE_CONNECTION_RTT_ESTIMATE_STATE_WAIT
    else r
  else r.

Section connection.
Context {C : Type} `{BaseCc C}.
Variable env : Env.

Definition PackageConnectionEstimateRtt (p : SessionData) : CM C unit :=
c ← getc;
let r := pc_rttEst c in
if decide (re_state r ≠ PACKAGE_CONNECTION_RTT_ESTIMATE_STATE_WAIT) then mret tt else
if negb (rtt_acked r p) then mret tt else
now ← now;
let '(r', rto) := EstimateRttFromLinuxTcp r (u32 (now - re_sendTime r)) in
modify (λ c, set_pc_rttEst (finish_estimate r' now) (set_pc_rto rto c)).

(** ** Timers *)

Definition PackageConnectionBeginFinTimer : CM C unit := update_close (set_cl_timer (Some FinTimer)).
Definition PackageConnectionBeginTimewaitTimer : CM C unit := update_close (set_cl_timer (Some TimewaitTimer)).
Definition stop_close_timer : CM C unit := update_close (set_cl_timer None).
Definition PackageConnectionBeginRtoTimer : CM C unit := modify (set_pc_rtoTimer true).
Definition PackageConnectionBeginRecvTimer : CM C unit := modify (set_pc_recvTimer true).

(** ** Creation *)

Definition PackageConnectionCreate (cc : C) (clock : nat → Z) : Conn C :=
mkConn (mkClose PACKAGE_CONNECTION_STATE_ESTABLISH PACKAGE_CONNECTION_CLOSE_SUBSTATE_NONE 0 0 0 None)
  (SendQueueCreate PACKAGE_CONNECTION_INIT_STREAM_POS (cfg_mtu (env_config env)))
  (RecvQueueCreate PACKAGE_CONNECTION_INIT_STREAM_POS)
  cc PACKAGE_CONNECTION_INIT_RTO 0 true false 0 0
  (mkReady [] PACKAGE_CONNECTION_INIT_STREAM_POS false)
  (mkRtt 0 0 0 0 0 0 0 0 PACKAGE_CONNECTION_RTT_ESTIMATE_STATE_NONE)
  (mkWorld clock 0 []).

(** ** Notifying the application *)

Fixpoint notify_sent (bufs : list SendBuffer) : CM C unit :=
match bufs with
| [] => mret tt
| b :: bufs' =>
    if sb_callback b =? 0 then orfault None else
    emit (EvSent (sb_callback b) BFX_RESULT_SUCCESS (sb_data b) (sb_len b));; notify_sent bufs'
end.
Definition PackageConnectionNotifySendCompleteBuffers (bufs : list SendBuffer) : CM C unit :=
notify_sent bufs.

(** [buffers] put behind the last waiting buffer that ends before they start;
  [rpre] are the waiting buffers not yet passed, last first.  [None] is the
  null [bufferSrc]. *)
Fixpoint insert_ready (rpre after buffers : list RecvBuffer) : option (list RecvBuffer) :=
match rpre with
| [] => Some (buffers ++ after)
| dst :: rpre' =>
    src ← head buffers;
    if rb_start src >=? rb_end dst then Some (reverse rpre ++ buffers ++ after)
    else insert_ready rpre' (dst :: after) buffers
end.

(** The loop of the notifying thread: each waiting buffer that starts where the
  last one ended. *)
Fixpoint notify_ready (pos : Z) (bufs : list RecvBuffer) : CM C (Z * list RecvBuffer) :=
match bufs with
| [] => mret (pos, [])
| b :: bufs' =>
    if rb_start b =? pos then
      let recvSize := rb_end b - rb_start b in
      emit (EvStat recvSize);;
      emit (EvRecv (rb_callback b) (rb_addr b) recvSize (take (Z.to_nat recvSize) (rb_bytes b)));;
      notify_ready (rb_end b) bufs'
    else mret (pos, bufs)
end.

Definition PackageConnectionNotifyRecvReadyBuffers (buffers : list RecvBuffer) : CM C unit :=
c ← getc;
let q := pc_ready c in
bufs ← orfault (insert_ready (reverse (ry_buffers q)) [] buffers);
modify (set_pc_ready (mkReady bufs (ry_streamPos q) true));;
if ry_onNotifying q then mret tt else
'(pos, rest) ← notify_ready (ry_streamPos q) bufs;
modify (set_pc_ready (mkReady rest pos false)).

(** The callbacks of [PackageConnectionMaybeCloseFinish]. *)
Fixpoint close_recv_buffers (bufs : list RecvBuffer) : CM C unit :=
match bufs with
| [] => mret tt
| b :: bufs' => emit (EvRecv (rb_callback b) (rb_addr b) 0 []);; close_recv_buffers bufs'
end.
Fixpoint close_send_buffers (bufs : list SendBuffer) : CM C unit :=
match bufs with
| [] => mret tt
| b :: bufs' =>
    emit (EvSent (sb_callback b) BFX_RESULT_SUCCESS (sb_data b) (sb_len b));; close_send_buffers bufs'
end.

Definition PackageConnectionMaybeCloseFinish : CM C unit :=
c ← getc;
if sub_is [PACKAGE_CONNECTION_CLOSE_SUBSTATE_CLOSED] c &&
   negb (Z.land (cl_flags (pc_close c))
           (Z.lor PACKAGE_CONNECTION_FLAG_CLOSE_RECV PACKAGE_CONNECTION_FLAG_CLOSE_SEND) =? 0) then
  swapped ← cas_state PACKAGE_CONNECTION_STATE_CLOSING PACKAGE_CONNECTION_STATE_CLOSE;
  if (swapped : bool) then
    stop_close_timer;;
    modify (set_pc_rtoTimer false);;
    modify (set_pc_recvTimer false);;
    c ← getc;
    let '(rbufs, rq) := RecvQueuePopAllBuffers (pc_recvQueue c) [] in
    modify (set_pc_recvQueue rq);;
    close_recv_buffers rbufs;;
    c ← getc;
    let '(sbufs, sq) := SendQueuePopAllBuffers (pc_sendQueue c) [] in
    modify (set_pc_sendQueue sq);;
    close_send_buffers sbufs
  else mret tt
else mret tt.

(** ** The close handshake, on sending *)

(** [PackageConnectionUpdateCloseSubState] with [recv] false. *)
Definition UpdateCloseSubState_sent (cmdflags : Z) : CM C unit :=
if has_flag cmdflags BDT_SESSIONDATA_PACKAGE_FLAG_FIN then
  swapped ← cas_sub PACKAGE_CONNECTION_CLOSE_SUBSTATE_NONE PACKAGE_CONNECTION_CLOSE_SUBSTATE_FIN1;
  if (swapped : bool) then PackageConnectionBeginFinTimer else
  swapped ← cas_sub PACKAGE_CONNECTION_CLOSE_SUBSTATE_WAITCLOSE PACKAGE_CONNECTION_CLOSE_SUBSTATE_LASTACK;
  if (swapped : bool) then
    add_flags PACKAGE_CONNECTION_FLAG_CLOSE_RECV;; PackageConnectionBeginFinTimer
  else mret tt
else mret tt.

(** ** Sending *)

Definition PackageConnectionOnPreSendPackage (p : SessionData) : CM C SessionData :=
let p := set_session p (env_remoteId env) in
(if has_flag (pg_cmdflags p) BDT_SESSIONDATA_PACKAGE_FLAG_FIN
 then UpdateCloseSubState_sent (pg_cmdflags p) else mret tt);;
c ← getc;
(if (pc_lastRecvAckTime c =? 0) && negb (pg_payloadLength p =? 0)
 then t ← now; modify (set_pc_lastRecvAckTime t) else mret tt);;
t ← now;
c ← getc;
let '(cc, p) := cc_onSend (pc_cc c) t p in
modify (set_pc_cc cc);;
(if negb (pg_payloadLength p =? 0) then
   t1 ← now; t2 ← now;
   modify (λ c, set_pc_rttEst
     (rtt_on_send (pc_rttEst c) (u64 (pg_streamPos p + pg_payloadLength p)) t1 t2) c)
 else mret tt);;
mret p.

Definition PackageConnectionSendPackage (p : SessionData) : CM C Z :=
c ← getc;
if state_is PACKAGE_CONNECTION_STATE_CLOSE c then mret BFX_RESULT_INVALID_STATE else
emit (EvSend p);;
c ← getc;
(if (pc_lastRecvAckTime c =? 0) && negb (pg_payloadLength p =? 0)
 then t ← now; modify (set_pc_lastRecvAckTime t) else mret tt);;
mret BFX_RESULT_SUCCESS.

Definition with_flag (p : SessionData) (f : Z) : SessionData := set_flags p (Z.lor (pg_cmdflags p) f).

(** The three parts of [PackageConnectionFillPackage]. *)
Definition fill_payload (p : SessionData) (payloadLength : Z) : CM C (Z * SessionData) :=
c ← getc;
t ← now;
if payloadLength =? cfg_mtu (env_config env) then
  '(r, pl, q) ← orfault (SendQueueFillPayload (pc_sendQueue c) t);
  modify (set_pc_sendQueue q);;
  mret (r, set_payload p (pl_pos pl) (pl_len pl) (pl_data pl))
else
  '(_, pl, q) ← orfault (SendQueueFillPayloadFromNew (pc_sendQueue c) 0 t);
  modify (set_pc_sendQueue q);;
  mret (BFX_RESULT_NOT_CHANGED, set_payload p (pl_pos pl) (pg_payloadLength p) (pg_payload p)).

Definition fin_due (c : Conn C) (p : SessionData) : bool :=
state_is PACKAGE_CONNECTION_STATE_CLOSING c &&
(u64 (pg_streamPos p + pg_payloadLength p) >=? cl_selfPos (pc_close c)) &&
sub_is [PACKAGE_CONNECTION_CLOSE_SUBSTATE_NONE; PACKAGE_CONNECTION_CLOSE_SUBSTATE_FIN1;
        PACKAGE_CONNECTION_CLOSE_SUBSTATE_CLOSING; PACKAGE_CONNECTION_CLOSE_SUBSTATE_WAITCLOSE;
        PACKAGE_CONNECTION_CLOSE_SUBSTATE_LASTACK] c.

Definition finack_due (c : Conn C) : bool :=
cl_remotePos (pc_close c) =? fst (RecvQueueGetAckInfo (pc_recvQueue c)).

Definition fill_fin (c : Conn C) (r : Z) (p : SessionData) : Z * SessionData :=
let '(r, p) := if fin_due c p
               then (BFX_RESULT_SUCCESS, with_flag p BDT_SESSIONDATA_PACKAGE_FLAG_FIN) else (r, p) in
if finack_due c
then (BFX_RESULT_SUCCESS, with_flag p BDT_SESSIONDATA_PACKAGE_FLAG_FINACK) else (r, p).

Definition fill_ack (r : Z) (p : SessionData) : CM C (Z * SessionData) :=
c ← getc;
if r =? BFX_RESULT_SUCCESS then
  mret (r, set_ack_info p (RecvQueueGetAckInfo (pc_recvQueue c)))
else
  let '(a, cc) := cc_trySendAck (pc_cc c) in
  modify (set_pc_cc cc);;
  if a =? BFX_RESULT_SUCCESS
  then mret (BFX_RESULT_SUCCESS, set_ack_info p (RecvQueueGetAckInfo (pc_recvQueue c)))
  else mret (r, p).

Definition PackageConnectionFillPackage (p : SessionData) (payloadLength : Z) : CM C (Z * SessionData) :=
'(r, p) ← fill_payload p payloadLength;
c ← getc;
let '(r, p) := fill_fin c r p in
fill_ack r p.

(** What is left to send, tested after every package. *)
Definition nothing_to_send (q : SendQueue) (payloadLength : Z) : bool :=
(payloadLength =? 0) || (u64 (SendQueueGetUnsendSize q + SendQueueGetLostSize q) =? 0).

Fixpoint PackageConnectionSendDrive (fuel : nat) : CM C unit :=
match fuel with
| O => λ _, OutOfFuel
| S fuel =>
    c ← getc;
    let '(_, payloadLength) := cc_trySendPayload (pc_cc c) (SendQueueGetFilght (pc_sendQueue c)) in
    '(r, p) ← PackageConnectionFillPackage empty_package payloadLength;
    if r =? BFX_RESULT_SUCCESS then
      p ← PackageConnectionOnPreSendPackage p;
      e ← PackageConnectionSendPackage p;
      if negb (e =? BFX_RESULT_SUCCESS) then mret tt else
      c ← getc;
      if nothing_to_send (pc_sendQueue c) payloadLength then mret tt
      else PackageConnectionSendDrive fuel
    else mret tt
end.

(** The loop of [PackageConnectionTrySendPackage]; [v] is the number of
  requests the next drive serves. *)
Fixpoint try_send_loop (fuel : nat) (v : Z) : CM C unit :=
match fuel with
| O => λ _, OutOfFuel
| S fuel' =>
    PackageConnectionSendDrive fuel;;
    c ← getc;
    let v := i32 (pc_trySendCnt c - v) in
    modify (set_pc_trySendCnt v);;
    if v =? 0 then mret tt else try_send_loop fuel' v
end.

Definition PackageConnectionTrySendPackage (fuel : nat) : CM C unit :=
c ← getc;
let v := i32 (pc_trySendCnt c + 1) in
modify (set_pc_trySendCnt v);;
if v >? 1 then mret tt else try_send_loop fuel v.

Definition PackageConnectionSendAckAck (fuel : nat) : CM C Z :=
c ← getc;
modify (set_pc_cc (snd (cc_onData (pc_cc c) None RECV_PACKAGE_TYPE_IN_ORDER)));;
PackageConnectionTrySendPackage fuel;;
mret BFX_RESULT_SUCCESS.

(** ** The interface for the application *)

Definition PackageConnectionSend (fuel : nat) (buffer length callback : Z) : CM C Z :=
c ← getc;
if negb (state_is PACKAGE_CONNECTION_STATE_ESTABLISH c) then mret BFX_RESULT_INVALID_STATE else
let '(errcode, q) := SendQueueAddBuffer (pc_sendQueue c) buffer length callback in
modify (set_pc_sendQueue q);;
if negb (errcode =? BFX_RESULT_SUCCESS) then mret errcode else
PackageConnectionTrySendPackage fuel;;
mret BFX_RESULT_PENDING.

Definition PackageConnectionRecv (data len : Z) (mem : list Z) (callback : Z) : CM C Z :=
c ← getc;
if state_is PACKAGE_CONNECTION_STATE_CLOSE c then mret BFX_RESULT_INVALID_STATE else
let '(r, q) := RecvQueueAddBuffer (pc_recvQueue c) data len mem callback in
modify (set_pc_recvQueue q);;
mret r.

Definition PackageConnectionClose (fuel : nat) : CM C Z :=
c ← getc;
if state_is PACKAGE_CONNECTION_STATE_CLOSE c then mret BFX_RESULT_INVALID_STATE else
if state_is PACKAGE_CONNECTION_STATE_CLOSING c then mret BFX_RESULT_INVALID_STATE else
_ ← cas_state PACKAGE_CONNECTION_STATE_ESTABLISH PACKAGE_CONNECTION_STATE_CLOSING;
c ← getc;
let '(pos, r) := SendQueueAddCloseOperation (pc_sendQueue c) in
update_close (set_cl_selfPos pos);;
(if r =? BFX_RESULT_SUCCESS then PackageConnectionTrySendPackage fuel else mret tt);;
mret BFX_RESULT_SUCCESS.

Definition PackageConnectionReset : CM C Z :=
swapped ← cas_state PACKAGE_CONNECTION_STATE_ESTABLISH PACKAGE_CONNECTION_STATE_CLOSING;
if (swapped : bool) then
  update_close (set_cl_sub PACKAGE_CONNECTION_CLOSE_SUBSTATE_CLOSED);;
  add_flags (Z.lor PACKAGE_CONNECTION_FLAG_CLOSE_RECV PACKAGE_CONNECTION_FLAG_CLOSE_SEND);;
  PackageConnectionMaybeCloseFinish;;
  mret BFX_RESULT_SUCCESS
else mret BFX_RESULT_INVALID_STATE.

(** ** The close handshake, on receiving *)

Definition on_fin (fuel : nat) : CM C unit :=
swapped ← cas_sub PACKAGE_CONNECTION_CLOSE_SUBSTATE_NONE PACKAGE_CONNECTION_CLOSE_SUBSTATE_WAITCLOSE;
if (swapped : bool) then
  if cfg_halfOpen (env_config env) then mret tt else PackageConnectionClose fuel;; mret tt
else
swapped ← cas_sub PACKAGE_CONNECTION_CLOSE_SUBSTATE_FIN1 PACKAGE_CONNECTION_CLOSE_SUBSTATE_CLOSING;
if (swapped : bool) then mret tt else
swapped ← cas_sub PACKAGE_CONNECTION_CLOSE_SUBSTATE_FIN2 PACKAGE_CONNECTION_CLOSE_SUBSTATE_TIMEWAIT;
if (swapped : bool) then stop_close_timer;; PackageConnectionBeginTimewaitTimer else mret tt.

Definition on_finack : CM C unit :=
swapped ← cas_sub PACKAGE_CONNECTION_CLOSE_SUBSTATE_FIN1 PACKAGE_CONNECTION_CLOSE_SUBSTATE_FIN2;
if (swapped : bool) then add_flags PACKAGE_CONNECTION_FLAG_CLOSE_SEND;; stop_close_timer else
swapped ← cas_sub PACKAGE_CONNECTION_CLOSE_SUBSTATE_CLOSING PACKAGE_CONNECTION_CLOSE_SUBSTATE_TIMEWAIT;
if (swapped : bool) then
  add_flags PACKAGE_CONNECTION_FLAG_CLOSE_SEND;; stop_close_timer;; PackageConnectionBeginTimewaitTimer
else
swapped ← cas_sub PACKAGE_CONNECTION_CLOSE_SUBSTATE_LASTACK PACKAGE_CONNECTION_CLOSE_SUBSTATE_CLOSED;
if (swapped : bool) then
  add_flags PACKAGE_CONNECTION_FLAG_CLOSE_SEND;; stop_close_timer;; PackageConnectionMaybeCloseFinish
else mret tt.

Definition PackageConnectionUpdateCloseSubState (fuel : nat) (cmdflags : Z) (recv : bool) : CM C unit :=
if recv then
  (if has_flag cmdflags BDT_SESSIONDATA_PACKAGE_FLAG_FIN then on_fin fuel else mret tt);;
  (if has_flag cmdflags BDT_SESSIONDATA_PACKAGE_FLAG_FINACK then on_finack else mret tt)
else UpdateCloseSubState_sent cmdflags.

(** ** Receiving *)

(** What an acknowledgement does. *)
Definition push_ack (fuel : nat) (p : SessionData) : CM C unit :=
c ← getc;
'(errcode, nAcked, q) ← orfault
  (SendQueueConfirmRange (pc_sendQueue c) (pg_ackStreamPos p) (pg_sackArray p));
modify (set_pc_sendQueue q);;
if negb (errcode =? BFX_RESULT_SUCCESS) then mret tt else
(if nAcked >? 0 then
   t ← now;
   c ← getc;
   modify (set_pc_cc (cc_onAck (pc_cc c) t p nAcked (SendQueueGetFilght (pc_sendQueue c))))
 else mret tt);;
PackageConnectionTrySendPackage fuel;;
if nAcked >? 0 then
  c ← getc;
  let '(bufs, q) := SendQueuePopCompleteBuffers (pc_sendQueue c) (sc_ack (sq_ctx (pc_sendQueue c)))
                      (env_list env) [] in
  modify (set_pc_sendQueue q);;
  match bufs with
  | [] => mret tt
  | _ => PackageConnectionNotifySendCompleteBuffers bufs
  end
else mret tt.

(** Handing complete receive buffers to the application. *)
Definition pop_and_notify (force : bool) : CM C unit :=
c ← getc;
'(bufs, q) ← orfault
  (RecvQueuePopCompleteBuffers (pc_recvQueue c) (rq_ack (pc_recvQueue c)) force []);
modify (set_pc_recvQueue q);;
match bufs with
| [] => mret tt
| _ => PackageConnectionNotifyRecvReadyBuffers bufs
end.

(** What a payload or a FIN does; [bytes] is the memory at [payload]. *)
Definition push_data (fuel : nat) (p : SessionData) (bytes : list Z) : CM C unit :=
let fin := has_flag (pg_cmdflags p) BDT_SESSIONDATA_PACKAGE_FLAG_FIN in
(if fin then update_close (set_cl_remotePos (u64 (pg_streamPos p + pg_payloadLength p))) else mret tt);;
recvType ←
  (if negb (pg_payload p =? 0) && negb (pg_payloadLength p =? 0) then
     c ← getc;
     '(t, q) ← orfault (RecvQueueWriteData (pc_recvQueue c) (pg_streamPos p)
                          (take (Z.to_nat (pg_payloadLength p)) bytes));
     modify (set_pc_recvQueue q);;
     mret t
   else mret (if fin then RECV_PACKAGE_TYPE_IN_ORDER else RECV_PACKAGE_TYPE_NONE));
if decide (recvType = RECV_PACKAGE_TYPE_NONE) then mret tt else
c ← getc;
let '(r, cc) := cc_onData (pc_cc c) (Some p) recvType in
modify (set_pc_cc cc);;
(if r =? BFX_RESULT_SUCCESS then PackageConnectionTrySendPackage fuel else mret tt);;
match recvType with
| RECV_PACKAGE_TYPE_IN_ORDER | RECV_PACKAGE_TYPE_LOST_ORDER | RECV_PACKAGE_TYPE_PART =>
    PackageConnectionBeginRecvTimer;;
    pop_and_notify (pg_payloadLength p <? cfg_mtu (env_config env))
| _ => mret tt
end.

Definition PackageConnectionPushPackage (fuel : nat) (p : SessionData) (bytes : list Z) : CM C Z :=
(if has_flag (pg_cmdflags p) BDT_SESSIONDATA_PACKAGE_FLAG_SYN then
   if has_flag (pg_cmdflags p) BDT_SESSIONDATA_PACKAGE_FLAG_ACK
   then PackageConnectionSendAckAck fuel;; mret tt else mret tt
 else
   t ← now;
   modify (set_pc_lastRecvAckTime t);;
   PackageConnectionEstimateRtt p;;
   PackageConnectionUpdateCloseSubState fuel (pg_cmdflags p) true;;
   push_ack fuel p;;
   push_data fuel p bytes);;
mret BFX_RESULT_SUCCESS.

(** ** The timers' callbacks *)

Definition PackageConnectionFinTimerCallback (fuel : nat) : CM C unit :=
stop_close_timer;;
c ← getc;
if sub_is [PACKAGE_CONNECTION_CLOSE_SUBSTATE_FIN2; PACKAGE_CONNECTION_CLOSE_SUBSTATE_TIMEWAIT;
           PACKAGE_CONNECTION_CLOSE_SUBSTATE_CLOSED] c then mret tt else
PackageConnectionTrySendPackage fuel;;
PackageConnectionBeginFinTimer.

Definition PackageConnectionTimewaitTimerCallback : CM C unit :=
stop_close_timer;;
add_flags PACKAGE_CONNECTION_FLAG_CLOSE_RECV;;
update_close (set_cl_sub PACKAGE_CONNECTION_CLOSE_SUBSTATE_CLOSED);;
PackageConnectionMaybeCloseFinish.

(** Something is in flight, lost or unsent. *)
Definition busy (q : SendQueue) : bool :=
(SendQueueGetFilght q >? 0) || (SendQueueGetLostSize q >? 0) || (SendQueueGetUnsendSize q >? 0).

Definition PackageConnectionRtoTimerCallback (fuel : nat) : CM C unit :=
modify (set_pc_rtoTimer false);;
c ← getc;
if state_is PACKAGE_CONNECTION_STATE_CLOSE c then mret tt else
(if busy (pc_sendQueue c) then
   t ← now;
   t' ← now;
   '(nCount, q) ← orfault (SendQueueMarkRangeTimeout (pc_sendQueue c) false t' (pc_rto c));
   modify (set_pc_sendQueue q);;
   if nCount >? 0 then
     PackageConnectionTrySendPackage fuel;;
     c ← getc;
     if u64 (t - pc_lastLostStateTime c) >? 200000 then
       modify (set_pc_cc (cc_onChangeState (pc_cc c) CC_STATE_OPEN CC_STATE_LOST));;
       modify (set_pc_lastLostStateTime t)
     else mret tt
   else mret tt
 else modify (set_pc_lastRecvAckTime 0));;
PackageConnectionBeginRtoTimer.

Definition PackageConnectionRecvTimerCallback : CM C unit :=
c ← getc;
if state_is PACKAGE_CONNECTION_STATE_CLOSE c then mret tt else pop_and_notify true.

End connection.
