(* ===== verification/ConnDemo.v ===== *)
(** * A concrete connection

    The default configuration and a new connection over [LedbatCc], on which
    the other files run examples and instantiate their theorems. *)

From S2P Require Import Prelude CInt RecvQueue SendQueue Package LedbatCc ConnState PackageConnection.

(** The default configuration of the stack ([Stack.c]): packages of 1308
    bytes, half-open connections. *)
Definition demo_env : Env := mkEnv (mkConfig 1308 1308 true) 7 99.
Definition demo_clock (n : nat) : Z := 1000000 + 1000 * Z.of_nat n.
Definition demo_conn : Conn LedbatCc := PackageConnectionCreate demo_env (LedbatCcNew 1308 1308) demo_clock.

(** The connection after a function that returned. *)
Definition after {A} (m : CM LedbatCc A) (c : Conn LedbatCc) : Conn LedbatCc :=
  match m c with Ok (_, c') => c' | _ => c end.

Definition returns {A} (m : CM LedbatCc A) (c : Conn LedbatCc) : bool :=
  match m c with Ok _ => true | _ => false end.

Lemma after_run (m : CM LedbatCc unit) c : returns m c = true → m c = Ok (tt, after m c).
Proof. unfold returns, after. by destruct (m c) as [[[] c']| |]. Qed.


(** A buffer waits to be sent. *)
Definition with_buffer (data len : Z) (c : Conn LedbatCc) : Conn LedbatCc :=
  set_pc_sendQueue (snd (SendQueueAddBuffer (pc_sendQueue c) data len 1)) c.
