(* ===== verification/ConnRtt.v ===== *)
(** * Round trip times

    The retransmission timeout a package connection derives from the round
    trip times it measures ([PackageConnection.EstimateRttFromLinuxTcp]): the
    fixed-point arithmetic on [uint32_t] never wraps, and the timeout stays
    between the minimum and a bound that follows the measurements. *)

From S2P Require Import Prelude CInt RecvQueue SendQueue Package ConnState PackageConnection.

(** The estimate after measurements of at most [R] microseconds: nothing yet,
    or scaled values within range. *)
Definition rtt_ok (R : Z) (r : RttEst) : Prop :=
  (re_srtt r = 0 ∨ 8 ≤ re_srtt r ≤ 8 * R) ∧ 0 ≤ re_mdev r ≤ 4 * R ∧
  (re_srtt r ≠ 0 →
   PACKAGE_CONNECTION_MIN_RTO ≤ re_mdev_max r ≤ Z.max PACKAGE_CONNECTION_MIN_RTO (4 * R) ∧
   PACKAGE_CONNECTION_MIN_RTO ≤ re_rttvar r ≤ Z.max PACKAGE_CONNECTION_MIN_RTO (4 * R)).

Definition rto_bound (R : Z) : Z := R + Z.max PACKAGE_CONNECTION_MIN_RTO (4 * R).

(** The measurements of a run, oldest first. *)
Definition estimate_all (r : RttEst) (rto : Z) (ms : list Z) : RttEst * Z :=
  foldl (λ '(r, _) m, EstimateRttFromLinuxTcp r m) (r, rto) ms.

Definition rtt_start : RttEst := mkRtt 0 0 0 0 0 0 0 0 PACKAGE_CONNECTION_RTT_ESTIMATE_STATE_NONE.

(** The deviation moves towards the error. *)
Lemma mdev_step (R mdev srtt m : Z) :
  0 ≤ mdev ≤ 4 * R → 0 ≤ srtt ≤ 8 * R → 1 ≤ m ≤ R →
  let e := m - Z.shiftr srtt 3 in
  let d := if e <? 0 then
             let d := - e - Z.shiftr mdev 2 in if d >? 0 then Z.shiftr d 3 else d
           else e - Z.shiftr mdev 2 in
  0 ≤ mdev + d ≤ 4 * R.
Proof.
  intros Hd Hs Hm. cbv zeta. rewrite !Z.shiftr_div_pow2 by lia. change (2 ^ 3) with 8. change (2 ^ 2) with 4.
  destruct (Z.ltb_spec (m - srtt / 8) 0) as [Hneg|Hpos].
  - destruct (Z.gtb_spec (- (m - srtt / 8) - mdev / 4) 0) as [Hgt|Hle].
    + set (d := - (m - srtt / 8) - mdev / 4) in *.
      pose proof (Z.div_pos d 8 ltac:(lia) ltac:(lia)). pose proof (Z.div_le_upper_bound d 8 d ltac:(lia) ltac:(lia)).
      set (x := d / 8) in *. clearbody x. unfold d in *. clear d. Z.to_euclidean_division_equations. lia.
    + Z.to_euclidean_division_equations. lia.
  - Z.to_euclidean_division_equations. lia.
Qed.

Lemma srtt_step (R srtt m : Z) :
  8 ≤ srtt ≤ 8 * R → 1 ≤ m ≤ R → 8 ≤ srtt + (m - Z.shiftr srtt 3) ≤ 8 * R.
Proof.
  intros Hs Hm. rewrite Z.shiftr_div_pow2 by lia. change (2 ^ 3) with 8. Z.to_euclidean_division_equations. lia.
Qed.

(** One measurement. *)
Lemma estimate_step R r m :
  0 ≤ m ≤ R → 1 ≤ R < 2 ^ 28 → rtt_ok R r →
  let '(r', rto) := EstimateRttFromLinuxTcp r m in
  rtt_ok R r' ∧ re_srtt r' ≠ 0 ∧ PACKAGE_CONNECTION_MIN_RTO ≤ rto ≤ rto_bound R.
Proof.
  intros Hm HR (Hs & Hd & Hv). unfold EstimateRttFromLinuxTcp, rtt_ok, rto_bound, PACKAGE_CONNECTION_MIN_RTO in *.
  set (m1 := if m =? 0 then 1 else m).
  assert (Hm1 : 1 ≤ m1 ≤ R) by (unfold m1; destruct (Z.eqb_spec m 0); lia). clearbody m1. clear m Hm.
  destruct (Z.eqb_spec (re_srtt r) 0) as [Hz|Hnz]; simpl negb; cbv iota.
  - (* the first measurement *)
    rewrite (Z.shiftl_mul_pow2 m1 1), (Z.shiftl_mul_pow2 m1 3) by lia.
    rewrite (u32_id (m1 * 2 ^ 1)), (u32_id (m1 * 2 ^ 3)) by lia.
    rewrite Z.shiftr_div_pow2 by lia. change (2 ^ 3) with 8. change (2 ^ 1) with 2. rewrite Z.div_mul by lia.
    destruct (Z.gtb_spec (m1 * 2) 200000); simpl; rewrite u32_id by lia; lia.
  - destruct Hs as [Hs|Hs]; [done|]. destruct (Hv Hnz) as [Hmm Hvv].
    pose proof (srtt_step R (re_srtt r) m1 Hs Hm1) as Hs'.
    pose proof (mdev_step R (re_mdev r) (re_srtt r) m1 Hd ltac:(lia) Hm1) as Hd'. cbv zeta in *.
    set (s' := re_srtt r + (m1 - Z.shiftr (re_srtt r) 3)) in *.
    rewrite (u32_id s') by lia.
    set (d' := re_mdev r + _) in *. rewrite (u32_id d') by lia.
    assert (Hsh : 0 ≤ Z.shiftr s' 3 ≤ R).
    { rewrite Z.shiftr_div_pow2 by lia. change (2 ^ 3) with 8. Z.to_euclidean_division_equations. lia. }
    clearbody s' d'.
    set (mv := if d' >? re_mdev_max r then _ else _).
    assert (Hmv : 200000 ≤ fst mv ≤ Z.max 200000 (4 * R) ∧ 200000 ≤ snd mv ≤ Z.max 200000 (4 * R)).
    { unfold mv. destruct (Z.gtb_spec d' (re_mdev_max r)); simpl; [|lia].
      destruct (Z.gtb_spec d' (re_rttvar r)); lia. }
    destruct mv as [mm vv]. simpl in Hmv.
    set (v' := if mm <? vv then _ else _).
    assert (Hv' : 200000 ≤ v' ≤ Z.max 200000 (4 * R)).
    { unfold v'. destruct (Z.ltb_spec mm vv); [|lia]. rewrite (u32_id (vv - mm)) by lia.
      rewrite Z.shiftr_div_pow2 by lia. change (2 ^ 2) with 4.
      assert (0 ≤ (vv - mm) / 4 ≤ vv - mm) by (Z.to_euclidean_division_equations; lia).
      rewrite u32_id by lia. lia. }
    clearbody v'. simpl. rewrite u32_id by lia. lia.
Qed.

Lemma estimate_all_ok R r rto ms :
  1 ≤ R < 2 ^ 28 → Forall (λ m, 0 ≤ m ≤ R) ms → rtt_ok R r →
  PACKAGE_CONNECTION_MIN_RTO ≤ rto ≤ Z.max PACKAGE_CONNECTION_INIT_RTO (rto_bound R) →
  let '(r', rto') := estimate_all r rto ms in
  rtt_ok R r' ∧ PACKAGE_CONNECTION_MIN_RTO ≤ rto' ≤ Z.max PACKAGE_CONNECTION_INIT_RTO (rto_bound R).
Proof.
  intros HR Hms. revert r rto. unfold estimate_all.
  induction Hms as [|m ms Hm Hms IH]; intros r rto Hr Hrto; [done|]. simpl.
  pose proof (estimate_step R r m Hm HR Hr) as Hstep.
  destruct (EstimateRttFromLinuxTcp r m) as [r' rto']. destruct Hstep as (Hr' & _ & Hb).
  apply IH; [done|]. unfold PACKAGE_CONNECTION_MIN_RTO, PACKAGE_CONNECTION_INIT_RTO in *. lia.
Qed.

(** C39: After any measurements of at most [R] microseconds (less than 268 s)
    the retransmission timeout is at least 200 ms and at most [5R], or the
    initial second, and the smoothed values of [uint32_t] stay in range: no
    subtraction wraps. *)
Theorem rto_bounds R ms :
  1 ≤ R < 2 ^ 28 → Forall (λ m, 0 ≤ m ≤ R) ms →
  let '(r, rto) := estimate_all rtt_start PACKAGE_CONNECTION_INIT_RTO ms in
  PACKAGE_CONNECTION_MIN_RTO ≤ rto ≤ Z.max PACKAGE_CONNECTION_INIT_RTO
                                       (R + Z.max PACKAGE_CONNECTION_MIN_RTO (4 * R)) ∧
  0 ≤ re_srtt r ≤ 8 * R ∧ 0 ≤ re_mdev r ≤ 4 * R.
Proof.
  intros HR Hms. pose proof (estimate_all_ok R rtt_start PACKAGE_CONNECTION_INIT_RTO ms HR Hms) as Hall.
  destruct (estimate_all _ _ ms) as [r rto]. destruct Hall as ((Hs & Hd & _) & Hrto).
  - unfold rtt_ok, rtt_start. simpl. lia.
  - unfold PACKAGE_CONNECTION_MIN_RTO, PACKAGE_CONNECTION_INIT_RTO, rto_bound. lia.
  - split; [exact Hrto|]. lia.
Qed.

Lemma rto_bounds_witness :
  Forall (λ m, 0 ≤ m ≤ 90000) [50000; 90000; 0; 30000] ∧
  snd (estimate_all rtt_start PACKAGE_CONNECTION_INIT_RTO [50000; 90000; 0; 30000]) ≤ 1000000.
Proof.
  assert (Hms : Forall (λ m, 0 ≤ m ≤ 90000) [50000; 90000; 0; 30000]) by (repeat constructor; lia).
  split; [exact Hms|].
  pose proof (rto_bounds 90000 [50000; 90000; 0; 30000] ltac:(lia) Hms) as Hb.
  destruct (estimate_all rtt_start PACKAGE_CONNECTION_INIT_RTO [50000; 90000; 0; 30000]) as [r rto].
  destruct Hb as [[_ Hb] _]. exact Hb.
Defined.
