(* ===== verification/ConnClose.v ===== *)
(** * The close handshake

    An abstract specification of the close handshake of a package connection:
    the transitions of [CloseCtx] that are allowed, and the invariants of
    their runs.  Every operation of [PackageConnection] refines it: what it
    does to the close state is a sequence of these transitions. *)

From S2P Require Import Prelude CInt RecvQueue SendQueue Package LedbatCc ConnState PackageConnection ConnDemo.
From stdpp Require Import relations.
#[local] Open Scope Z_scope.

(** ** The specification *)

#[local] Notation FLAG_RECV := PACKAGE_CONNECTION_FLAG_CLOSE_RECV (only parsing).
#[local] Notation FLAG_SEND := PACKAGE_CONNECTION_FLAG_CLOSE_SEND (only parsing).

Definition or_flags (f : Z) (k : CloseCtx) : CloseCtx := set_cl_flags (Z.lor (cl_flags k) f) k.

(** A FIN is sent, only while the connection is closing. *)
Inductive fin_step : CloseCtx → CloseCtx → Prop :=
  | fs_active k : cl_state k = PACKAGE_CONNECTION_STATE_CLOSING →
      cl_sub k = PACKAGE_CONNECTION_CLOSE_SUBSTATE_NONE →
      fin_step k (set_cl_timer (Some FinTimer) (set_cl_sub PACKAGE_CONNECTION_CLOSE_SUBSTATE_FIN1 k))
  | fs_passive k : cl_state k = PACKAGE_CONNECTION_STATE_CLOSING →
      cl_sub k = PACKAGE_CONNECTION_CLOSE_SUBSTATE_WAITCLOSE →
      fin_step k (set_cl_timer (Some FinTimer)
        (or_flags FLAG_RECV (set_cl_sub PACKAGE_CONNECTION_CLOSE_SUBSTATE_LASTACK k))).

Inductive close_step : CloseCtx → CloseCtx → Prop :=
  (* the application closes *)
  | cs_close k pos : cl_state k = PACKAGE_CONNECTION_STATE_ESTABLISH →
      close_step k (set_cl_selfPos pos (set_cl_state PACKAGE_CONNECTION_STATE_CLOSING k))
  (* (no connection is in the state NONE) *)
  | cs_none k pos : cl_state k = PACKAGE_CONNECTION_STATE_NONE → close_step k (set_cl_selfPos pos k)
  (* or resets *)
  | cs_reset k : cl_state k = PACKAGE_CONNECTION_STATE_ESTABLISH →
      close_step k (or_flags (Z.lor FLAG_RECV FLAG_SEND)
        (set_cl_sub PACKAGE_CONNECTION_CLOSE_SUBSTATE_CLOSED
          (set_cl_state PACKAGE_CONNECTION_STATE_CLOSING k)))
  | cs_fin k k' : fin_step k k' → close_step k k'
  (* a FIN arrives *)
  | cs_remote k pos : close_step k (set_cl_remotePos pos k)
  | cs_recv_fin k : cl_sub k = PACKAGE_CONNECTION_CLOSE_SUBSTATE_NONE →
      close_step k (set_cl_sub PACKAGE_CONNECTION_CLOSE_SUBSTATE_WAITCLOSE k)
  | cs_both_fin k : cl_sub k = PACKAGE_CONNECTION_CLOSE_SUBSTATE_FIN1 →
      close_step k (set_cl_sub PACKAGE_CONNECTION_CLOSE_SUBSTATE_CLOSING k)
  | cs_fin_answered k : cl_sub k = PACKAGE_CONNECTION_CLOSE_SUBSTATE_FIN2 →
      close_step k (set_cl_timer (Some TimewaitTimer)
        (set_cl_sub PACKAGE_CONNECTION_CLOSE_SUBSTATE_TIMEWAIT k))
  (* a FINACK arrives *)
  | cs_ack_fin1 k : cl_sub k = PACKAGE_CONNECTION_CLOSE_SUBSTATE_FIN1 →
      close_step k (set_cl_timer None (or_flags FLAG_SEND
        (set_cl_sub PACKAGE_CONNECTION_CLOSE_SUBSTATE_FIN2 k)))
  | cs_ack_closing k : cl_sub k = PACKAGE_CONNECTION_CLOSE_SUBSTATE_CLOSING →
      close_step k (set_cl_timer (Some TimewaitTimer) (or_flags FLAG_SEND
        (set_cl_sub PACKAGE_CONNECTION_CLOSE_SUBSTATE_TIMEWAIT k)))
  | cs_ack_last k : cl_sub k = PACKAGE_CONNECTION_CLOSE_SUBSTATE_LASTACK →
      close_step k (set_cl_timer None (or_flags FLAG_SEND
        (set_cl_sub PACKAGE_CONNECTION_CLOSE_SUBSTATE_CLOSED k)))
  (* the time of waiting is over *)
  | cs_timewait k : cl_timer k = Some TimewaitTimer →
      close_step k (set_cl_sub PACKAGE_CONNECTION_CLOSE_SUBSTATE_CLOSED
        (or_flags FLAG_RECV (set_cl_timer None k)))
  (* closed in both directions *)
  | cs_finish k : cl_state k = PACKAGE_CONNECTION_STATE_CLOSING →
      cl_sub k = PACKAGE_CONNECTION_CLOSE_SUBSTATE_CLOSED →
      close_step k (set_cl_timer None (set_cl_state PACKAGE_CONNECTION_STATE_CLOSE k)).

(** The two directions that are closed. *)
Definition send_closed (k : CloseCtx) : bool := has_flag (cl_flags k) FLAG_SEND.
Definition recv_closed (k : CloseCtx) : bool := has_flag (cl_flags k) FLAG_RECV.

(** What holds in each sub-state: the state of the connection, the closed
    directions and the timer that is running. *)
Definition close_ok (k : CloseCtx) : Prop :=
  let closing := cl_state k = PACKAGE_CONNECTION_STATE_CLOSING in
  match cl_sub k with
  | PACKAGE_CONNECTION_CLOSE_SUBSTATE_NONE | PACKAGE_CONNECTION_CLOSE_SUBSTATE_WAITCLOSE =>
      (cl_state k = PACKAGE_CONNECTION_STATE_ESTABLISH ∨ closing) ∧
      send_closed k = false ∧ recv_closed k = false ∧ cl_timer k = None
  | PACKAGE_CONNECTION_CLOSE_SUBSTATE_FIN1 | PACKAGE_CONNECTION_CLOSE_SUBSTATE_CLOSING =>
      closing ∧ send_closed k = false ∧ recv_closed k = false ∧ cl_timer k = Some FinTimer
  | PACKAGE_CONNECTION_CLOSE_SUBSTATE_LASTACK =>
      closing ∧ send_closed k = false ∧ recv_closed k = true ∧ cl_timer k = Some FinTimer
  | PACKAGE_CONNECTION_CLOSE_SUBSTATE_FIN2 =>
      closing ∧ send_closed k = true ∧ recv_closed k = false ∧ cl_timer k = None
  | PACKAGE_CONNECTION_CLOSE_SUBSTATE_TIMEWAIT =>
      closing ∧ send_closed k = true ∧ recv_closed k = false ∧ cl_timer k = Some TimewaitTimer
  | PACKAGE_CONNECTION_CLOSE_SUBSTATE_CLOSED =>
      (closing ∨ cl_state k = PACKAGE_CONNECTION_STATE_CLOSE) ∧
      send_closed k = true ∧ recv_closed k = true ∧ cl_timer k = None
  end.

(** ** Flags *)

Lemma has_flag_or f g x : has_flag (Z.lor x g) f = has_flag x f || has_flag g f.
Proof.
  unfold has_flag. rewrite Z.land_lor_distr_l.
  destruct (Z.eqb_spec (Z.land x f) 0) as [->|Hx]; [by rewrite Z.lor_0_l|]. simpl.
  destruct (Z.eqb_spec (Z.lor (Z.land x f) (Z.land g f)) 0) as [E|]; [|done].
  by apply Z.lor_eq_0_iff in E as [??].
Qed.

Lemma send_closed_or k f : send_closed (or_flags f k) = send_closed k || has_flag f FLAG_SEND.
Proof. apply has_flag_or. Qed.
Lemma recv_closed_or k f : recv_closed (or_flags f k) = recv_closed k || has_flag f FLAG_RECV.
Proof. apply has_flag_or. Qed.

Lemma close_step_ok k k' : close_ok k → close_step k k' → close_ok k'.
Proof.
  assert (Hs1 : has_flag FLAG_SEND FLAG_SEND = true ∧ has_flag FLAG_SEND FLAG_RECV = false) by done.
  assert (Hr1 : has_flag FLAG_RECV FLAG_SEND = false ∧ has_flag FLAG_RECV FLAG_RECV = true) by done.
  assert (Hb1 : has_flag (Z.lor FLAG_RECV FLAG_SEND) FLAG_SEND = true ∧
                has_flag (Z.lor FLAG_RECV FLAG_SEND) FLAG_RECV = true) by done.
  destruct Hs1 as [Hs1 Hs2], Hr1 as [Hr1 Hr2], Hb1 as [Hb1 Hb2].
  intros Hok Hs. destruct Hs as [k pos E|k pos E|k E|k k' [? E1 E2|? E1 E2]|k pos|k E|k E|k E|k E|k E|k E|k E|k E1 E2];
    match type of Hok with close_ok ?k => destruct k as [st sub fl rp sp tm] end; unfold close_ok, send_closed, recv_closed, or_flags in *;
    cbn [cl_state cl_sub cl_flags cl_timer set_cl_state set_cl_sub set_cl_flags set_cl_timer
         set_cl_selfPos set_cl_remotePos] in *; subst;
    rewrite ?has_flag_or, ?Hs1, ?Hs2, ?Hr1, ?Hr2, ?Hb1, ?Hb2, ?orb_true_r, ?orb_false_r;
    clear Hs1 Hs2 Hr1 Hr2 Hb1 Hb2;
    try (destruct sub); intuition congruence.
Qed.

Lemma close_steps_ok k k' : close_ok k → rtc close_step k k' → close_ok k'.
Proof. intros Hok Hs. induction Hs; eauto using close_step_ok. Qed.

(** ** Refinement *)

Section refinement.
Context {C : Type} `{BaseCc C}.
Variable env : Env.

Definition refines (c c' : Conn C) : Prop := rtc close_step (pc_close c) (pc_close c').

#[local] Instance refines_preorder : PreOrder refines.
Proof. split; [intros c; apply rtc_refl|intros x y z Hx Hy; unfold refines in *; by etrans]. Qed.

(** What sending does. *)
Definition sends_fin (c c' : Conn C) : Prop := rtc fin_step (pc_close c) (pc_close c').

#[local] Instance sends_fin_preorder : PreOrder sends_fin.
Proof. split; [intros c; apply rtc_refl|intros x y z Hx Hy; unfold sends_fin in *; by etrans]. Qed.

Lemma sends_fin_refines {A} (m : CM C A) : rel sends_fin m → rel refines m.
Proof.
  intros Hs c a c' Hm. eapply rtc_subrel; [|exact (Hs _ _ _ Hm)]. intros; by apply cs_fin.
Qed.

Lemma keeps_sends_fin {A} (m : CM C A) : keeps pc_close m → rel sends_fin m.
Proof. intros Hk c a c' Hm. unfold sends_fin. rewrite (Hk _ _ _ Hm). apply rtc_refl. Qed.

Lemma keeps_refines {A} (m : CM C A) : keeps pc_close m → rel refines m.
Proof. intros Hk c a c' Hm. unfold refines. rewrite (Hk _ _ _ Hm). apply rtc_refl. Qed.

Lemma keeps_EstimateRtt p : keeps (C:=C) pc_close (PackageConnectionEstimateRtt p).
Proof. unfold PackageConnectionEstimateRtt. keeps_go fail. Qed.

Lemma keeps_SendPackage p : keeps (C:=C) pc_close (PackageConnectionSendPackage p).
Proof. unfold PackageConnectionSendPackage. keeps_go fail. Qed.

Lemma keeps_fill_payload p len : keeps (C:=C) pc_close (fill_payload env p len).
Proof. unfold fill_payload. keeps_go fail. Qed.

Lemma keeps_fill_ack r p : keeps (C:=C) pc_close (fill_ack r p).
Proof. unfold fill_ack. keeps_go fail. Qed.

Lemma keeps_notify_sent bufs : keeps (C:=C) pc_close (notify_sent bufs).
Proof. induction bufs as [|b bufs IH]; simpl; keeps_go ltac:(exact IH). Qed.

Lemma keeps_notify_ready pos bufs : keeps (C:=C) pc_close (notify_ready pos bufs).
Proof. revert pos. induction bufs as [|b bufs IH]; intros pos; simpl; keeps_go ltac:(apply IH). Qed.

Lemma keeps_NotifyRecvReadyBuffers bufs :
  keeps (C:=C) pc_close (PackageConnectionNotifyRecvReadyBuffers bufs).
Proof. unfold PackageConnectionNotifyRecvReadyBuffers. keeps_go ltac:(apply keeps_notify_ready). Qed.

Lemma keeps_pop_and_notify force : keeps (C:=C) pc_close (pop_and_notify force).
Proof. unfold pop_and_notify. keeps_go ltac:(apply keeps_NotifyRecvReadyBuffers). Qed.

Lemma keeps_close_buffers rbufs sbufs :
  keeps (C:=C) pc_close (close_recv_buffers rbufs) ∧ keeps (C:=C) pc_close (close_send_buffers sbufs).
Proof.
  split; [induction rbufs as [|b rbufs IH]|induction sbufs as [|b sbufs IH]]; simpl; keeps_go ltac:(exact IH).
Qed.

(** The primitives, run. *)
Lemma run_update_close f (c : Conn C) : update_close f c = Ok (tt, set_pc_close (f (pc_close c)) c).
Proof. done. Qed.

Lemma run_cas_sub old new (c : Conn C) :
  cas_sub old new c = if decide (cl_sub (pc_close c) = old)
                      then Ok (true, set_pc_close (set_cl_sub new (pc_close c)) c) else Ok (false, c).
Proof. done. Qed.

Lemma refines_MaybeCloseFinish : rel refines (PackageConnectionMaybeCloseFinish (C:=C)).
Proof.
  intros c a c' Hm. unfold PackageConnectionMaybeCloseFinish in Hm.
  apply bind_Ok in Hm as (c0 & c1 & [=<- <-] & Hm).
  destruct (sub_is _ c && _) eqn:E; [|injection Hm as <- <-; apply rtc_refl].
  apply andb_true_iff in E as [Esub _]. apply bool_decide_eq_true in Esub.
  apply list_elem_of_singleton in Esub.
  apply bind_Ok in Hm as (sw & c1 & Hc & Hm). unfold cas_state in Hc.
  destruct (decide _) as [Est|_]; injection Hc as <- <-; [|injection Hm as <- <-; apply rtc_refl].
  apply bind_Ok in Hm as ([] & c2 & [=<-] & Hm).
  eapply rtc_l; [apply (cs_finish (pc_close c)); done|].
  assert (Hk : keeps (C:=C) pc_close (modify (set_pc_rtoTimer false);; modify (set_pc_recvTimer false);;
      c ← getc;
      let '(rbufs, rq) := RecvQueuePopAllBuffers (pc_recvQueue c) [] in
      modify (set_pc_recvQueue rq);; close_recv_buffers rbufs;;
      c ← getc;
      let '(sbufs, sq) := SendQueuePopAllBuffers (pc_sendQueue c) [] in
      modify (set_pc_sendQueue sq);; close_send_buffers sbufs)).
  { keeps_go ltac:(first [apply (keeps_close_buffers _ []) | apply (keeps_close_buffers [])]). }
  apply Hk in Hm. rewrite Hm. apply rtc_refl.
Qed.

(** Sending a FIN, while the connection is closing. *)
Lemma fin_sent_fin flags c a c' :
  cl_state (pc_close c) = PACKAGE_CONNECTION_STATE_CLOSING →
  UpdateCloseSubState_sent (C:=C) flags c = Ok (a, c') → sends_fin c c'.
Proof.
  intros Hst Hm. unfold UpdateCloseSubState_sent in Hm.
  destruct (has_flag _ _); [|injection Hm as <- <-; apply rtc_refl].
  apply bind_Ok in Hm as (sw & c1 & Hc & Hm). rewrite run_cas_sub in Hc.
  destruct (decide _) as [E1|E1]; injection Hc as <- <-.
  { injection Hm as <- <-. eapply rtc_once, (fs_active (pc_close c)); done. }
  apply bind_Ok in Hm as (sw & c1 & Hc & Hm). rewrite run_cas_sub in Hc.
  destruct (decide _) as [E2|E2]; injection Hc as <- <-; [|injection Hm as <- <-; apply rtc_refl].
  injection Hm as <- <-. eapply rtc_once, (fs_passive (pc_close c)); done.
Qed.

(** What [PackageConnectionOnPreSendPackage] does to a package with a FIN, and
    without. *)
Lemma OnPreSend_fin p c a c' :
  (has_flag (pg_cmdflags p) BDT_SESSIONDATA_PACKAGE_FLAG_FIN = true →
   cl_state (pc_close c) = PACKAGE_CONNECTION_STATE_CLOSING) →
  PackageConnectionOnPreSendPackage env p c = Ok (a, c') → sends_fin c c'.
Proof.
  intros Hfin Hm. unfold PackageConnectionOnPreSendPackage in Hm. cbn [pg_cmdflags set_session] in Hm.
  apply bind_Ok in Hm as ([] & c1 & Hu & Hm).
  assert (Hr : sends_fin c c1).
  { destruct (has_flag _ _); [by eapply fin_sent_fin; eauto|injection Hu as <-; apply rtc_refl]. }
  etrans; [exact Hr|].
  revert Hm. apply keeps_sends_fin. keeps_go fail.
Qed.

(** The sub-states in which a FIN may be sent. *)
Definition fin_subs : list PackageConnectionCloseSubState :=
  [PACKAGE_CONNECTION_CLOSE_SUBSTATE_NONE; PACKAGE_CONNECTION_CLOSE_SUBSTATE_FIN1;
   PACKAGE_CONNECTION_CLOSE_SUBSTATE_CLOSING; PACKAGE_CONNECTION_CLOSE_SUBSTATE_WAITCLOSE;
   PACKAGE_CONNECTION_CLOSE_SUBSTATE_LASTACK].

(** A filled package carries a FIN only while the connection is closing. *)
Lemma FillPackage_fin p len c r p' c' :
  has_flag (pg_cmdflags p) BDT_SESSIONDATA_PACKAGE_FLAG_FIN = false →
  PackageConnectionFillPackage env p len c = Ok ((r, p'), c') →
  pc_close c' = pc_close c ∧
  (has_flag (pg_cmdflags p') BDT_SESSIONDATA_PACKAGE_FLAG_FIN = true →
   cl_state (pc_close c) = PACKAGE_CONNECTION_STATE_CLOSING ∧
   u64 (pg_streamPos p' + pg_payloadLength p') >=? cl_selfPos (pc_close c) = true ∧
   sub_is fin_subs c = true).
Proof.
  intros Hp Hm. unfold PackageConnectionFillPackage in Hm.
  apply bind_Ok in Hm as ([r1 p1] & c1 & Hpl & Hm).
  pose proof (keeps_fill_payload p len _ _ _ Hpl) as Hk1. cbn beta in Hk1.
  apply bind_Ok in Hm as (c0 & c2 & [=<- <-] & Hm).
  destruct (fill_fin c1 r1 p1) as [r2 p2] eqn:Ef.
  pose proof (keeps_fill_ack r2 p2 _ _ _ Hm) as Hk2. cbn beta in Hk2. rewrite Hk2, Hk1.
  split; [done|].
  assert (Hfl : pg_cmdflags p' = pg_cmdflags p2 ∧ pg_streamPos p' = pg_streamPos p2 ∧
                pg_payloadLength p' = pg_payloadLength p2).
  { unfold fill_ack in Hm. apply bind_Ok in Hm as (c0 & c2 & [=<- <-] & Hm).
    destruct (r2 =? _); [by injection Hm as <- <- <-|].
    destruct (cc_trySendAck (pc_cc c1)) as [a cc]. apply bind_Ok in Hm as ([] & c2 & _ & Hm).
    destruct (a =? _); by injection Hm as <- <- <-. }
  destruct Hfl as (-> & -> & ->).
  assert (Hp1 : pg_cmdflags p1 = pg_cmdflags p).
  { unfold fill_payload in Hpl. apply bind_Ok in Hpl as (c0 & c2 & [=<- <-] & Hpl).
    apply bind_Ok in Hpl as (t0 & c2 & _ & Hpl).
    destruct (len =? _); apply bind_Ok in Hpl as ([[r0 pl] q] & c3 & _ & Hpl);
      apply bind_Ok in Hpl as ([] & c4 & _ & Hpl); by injection Hpl as <- <- <-. }
  unfold fill_fin in Ef.
  assert (Hor : has_flag (pg_cmdflags (with_flag p1 BDT_SESSIONDATA_PACKAGE_FLAG_FINACK))
                  BDT_SESSIONDATA_PACKAGE_FLAG_FIN = false).
  { unfold with_flag. cbn [pg_cmdflags set_flags]. by rewrite has_flag_or, Hp1, Hp. }
  destruct (fin_due c1 p1) eqn:Efd.
  - unfold fin_due in Efd. apply andb_true_iff in Efd as [Efd Hsub]. apply andb_true_iff in Efd as [Hst Hpos].
    apply bool_decide_eq_true in Hst. unfold sub_is in *. rewrite Hk1 in Hst, Hpos, Hsub.
    intros _. split; [done|]. split; [|exact Hsub].
    destruct (finack_due c1); injection Ef as <- <-; done.
  - destruct (finack_due c1); injection Ef as <- <-; [|rewrite Hp1]; congruence.
Qed.

Lemma SendDrive_fin fuel : rel sends_fin (PackageConnectionSendDrive env fuel).
Proof.
  induction fuel as [|fuel IH]; [done|]. intros c a c' Hm. cbn [PackageConnectionSendDrive] in Hm.
  apply bind_Ok in Hm as (c0 & c1 & [=<- <-] & Hm).
  destruct (cc_trySendPayload _ _) as [e len].
  apply bind_Ok in Hm as ([r p] & c1 & Hf & Hm).
  apply FillPackage_fin in Hf as [Hk Hfin]; [|done].
  assert (Hr : sends_fin c c1) by (unfold sends_fin; rewrite Hk; apply rtc_refl).
  etrans; [exact Hr|]. clear Hr.
  destruct (r =? _); [|injection Hm as <- <-; apply rtc_refl].
  apply bind_Ok in Hm as (p1 & c2 & Hp & Hm).
  apply OnPreSend_fin in Hp; [|intros Hx; rewrite Hk; by apply Hfin].
  etrans; [exact Hp|]. revert c2 a c' Hm Hp. clear -IH. intros c2 a c' Hm _. revert c2 a c' Hm.
  apply rel_bind; [typeclasses eauto|apply keeps_sends_fin, keeps_SendPackage|].
  intros e. destruct (negb _); [by apply rel_ret; typeclasses eauto|].
  apply rel_bind; [typeclasses eauto|by apply rel_getc_any; typeclasses eauto|].
  intros c0. destruct (nothing_to_send _ _); [by apply rel_ret; typeclasses eauto|exact IH].
Qed.

Lemma try_send_loop_fin fuel v : rel sends_fin (try_send_loop env fuel v).
Proof.
  revert v. induction fuel as [|fuel IH]; intros v; [done|]. cbn [try_send_loop].
  apply rel_bind; [typeclasses eauto|apply SendDrive_fin|]. intros _.
  apply rel_bind; [typeclasses eauto|by apply rel_getc_any; typeclasses eauto|]. intros c.
  apply rel_bind; [typeclasses eauto|apply keeps_sends_fin; keeps_go fail|]. intros _.
  destruct (_ =? 0); [by apply rel_ret; typeclasses eauto|apply IH].
Qed.

Lemma TrySend_fin fuel : rel sends_fin (PackageConnectionTrySendPackage env fuel).
Proof.
  unfold PackageConnectionTrySendPackage.
  apply rel_bind; [typeclasses eauto|by apply rel_getc_any; typeclasses eauto|]. intros c.
  apply rel_bind; [typeclasses eauto|apply keeps_sends_fin; keeps_go fail|]. intros _.
  destruct (_ >? 1); [by apply rel_ret; typeclasses eauto|apply try_send_loop_fin].
Qed.


Lemma refines_TrySend fuel : rel refines (PackageConnectionTrySendPackage env fuel).
Proof. apply sends_fin_refines, TrySend_fin. Qed.

Ltac refines_go tac :=
  repeat (intros;
    first [ apply rel_ret; [typeclasses eauto]
          | tac
          | apply keeps_refines; solve [keeps_go fail]
          | apply rel_bind; [typeclasses eauto| |]
          | apply rel_getc_any; [typeclasses eauto]
          | case_match ]).

Lemma refines_Close fuel : rel refines (PackageConnectionClose env fuel).
Proof.
  intros c a c' Hm. unfold PackageConnectionClose in Hm.
  apply bind_Ok in Hm as (c0 & c1 & [=<- <-] & Hm).
  destruct (state_is PACKAGE_CONNECTION_STATE_CLOSE c) eqn:E1; [injection Hm as <- <-; apply rtc_refl|].
  destruct (state_is PACKAGE_CONNECTION_STATE_CLOSING c) eqn:E2; [injection Hm as <- <-; apply rtc_refl|].
  apply bind_Ok in Hm as (sw & c1 & Hc & Hm). apply bind_Ok in Hm as (c0 & c2 & [=<- <-] & Hm).
  destruct (SendQueueAddCloseOperation _) as [pos r].
  apply bind_Ok in Hm as ([] & c2 & [=<-] & Hm).
  assert (Hr : refines c (set_pc_close (set_cl_selfPos pos (pc_close c1)) c1)).
  { unfold cas_state in Hc. destruct (decide _) as [Est|Hne]; injection Hc as <- <-.
    - eapply rtc_once, (cs_close (pc_close c)); done.
    - eapply rtc_once, (cs_none (pc_close c)). unfold state_is in E1, E2.
      apply bool_decide_eq_false in E1, E2. destruct (cl_state (pc_close c)); congruence. }
  etrans; [exact Hr|]. revert Hm. generalize (set_pc_close (set_cl_selfPos pos (pc_close c1)) c1).
  intros c2 Hm. revert c2 a c' Hm. change (rel refines
    ((if r =? BFX_RESULT_SUCCESS then PackageConnectionTrySendPackage env fuel else mret tt);;
     mret BFX_RESULT_SUCCESS)).
  refines_go ltac:(apply refines_TrySend).
Qed.

Lemma refines_on_fin fuel : rel refines (on_fin env fuel).
Proof.
  intros c a c' Hm. unfold on_fin in Hm.
  apply bind_Ok in Hm as (sw & c1 & Hc & Hm). rewrite run_cas_sub in Hc.
  destruct (decide _) as [E1|E1]; injection Hc as <- <-.
  { eapply rtc_l; [apply (cs_recv_fin (pc_close c)); done|].
    revert Hm. generalize (set_cl_sub PACKAGE_CONNECTION_CLOSE_SUBSTATE_WAITCLOSE (pc_close c)). intros k Hm.
    change (refines (set_pc_close k c) c').
    destruct (cfg_halfOpen _); [injection Hm as <- <-; apply rtc_refl|].
    apply bind_Ok in Hm as (r & c2 & Hc & Hm). injection Hm as <- <-. by apply refines_Close in Hc. }
  apply bind_Ok in Hm as (sw & c1 & Hc & Hm). rewrite run_cas_sub in Hc.
  destruct (decide _) as [E2|E2]; injection Hc as <- <-.
  { injection Hm as <- <-. eapply rtc_once, (cs_both_fin (pc_close c)); done. }
  apply bind_Ok in Hm as (sw & c1 & Hc & Hm). rewrite run_cas_sub in Hc.
  destruct (decide _) as [E3|E3]; injection Hc as <- <-; injection Hm as <- <-; [|apply rtc_refl].
  eapply rtc_once, (cs_fin_answered (pc_close c)); done.
Qed.

Lemma refines_on_finack : rel refines (on_finack (C:=C)).
Proof.
  intros c a c' Hm. unfold on_finack in Hm.
  apply bind_Ok in Hm as (sw & c1 & Hc & Hm). rewrite run_cas_sub in Hc.
  destruct (decide _) as [E1|E1]; injection Hc as <- <-.
  { injection Hm as <- <-. eapply rtc_once, (cs_ack_fin1 (pc_close c)); done. }
  apply bind_Ok in Hm as (sw & c1 & Hc & Hm). rewrite run_cas_sub in Hc.
  destruct (decide _) as [E2|E2]; injection Hc as <- <-.
  { injection Hm as <- <-. eapply rtc_once, (cs_ack_closing (pc_close c)); done. }
  apply bind_Ok in Hm as (sw & c1 & Hc & Hm). rewrite run_cas_sub in Hc.
  destruct (decide _) as [E3|E3]; injection Hc as <- <-; [|injection Hm as <- <-; apply rtc_refl].
  apply bind_Ok in Hm as ([] & c1 & [=<-] & Hm). apply bind_Ok in Hm as ([] & c2 & [=<-] & Hm).
  apply refines_MaybeCloseFinish in Hm. eapply rtc_l; [|exact Hm].
  apply (cs_ack_last (pc_close c)); done.
Qed.

Lemma refines_UpdateCloseSubState fuel flags :
  rel refines (PackageConnectionUpdateCloseSubState env fuel flags true).
Proof.
  unfold PackageConnectionUpdateCloseSubState.
  refines_go ltac:(first [apply refines_on_fin | apply refines_on_finack]).
Qed.

Lemma refines_push_ack fuel p : rel refines (push_ack env fuel p).
Proof.
  unfold push_ack. refines_go ltac:(first [apply refines_TrySend | apply keeps_refines, keeps_notify_sent]).
Qed.

Lemma refines_push_data fuel p bytes : rel refines (push_data env fuel p bytes).
Proof.
  unfold push_data. apply rel_bind; [typeclasses eauto| |].
  - case_match; [|by apply rel_ret; typeclasses eauto].
    intros c a c' [=<- <-]. eapply rtc_once, (cs_remote (pc_close c)).
  - refines_go ltac:(first [apply refines_TrySend | apply keeps_refines, keeps_pop_and_notify]).
Qed.

Lemma refines_PushPackage fuel p bytes : rel refines (PackageConnectionPushPackage env fuel p bytes).
Proof.
  unfold PackageConnectionPushPackage, PackageConnectionSendAckAck.
  refines_go ltac:(first [apply refines_TrySend | apply refines_UpdateCloseSubState | apply refines_push_ack
    | apply refines_push_data | apply keeps_refines, keeps_EstimateRtt]).
Qed.

Lemma refines_Send fuel buffer length callback :
  rel refines (PackageConnectionSend env fuel buffer length callback).
Proof. unfold PackageConnectionSend. refines_go ltac:(apply refines_TrySend). Qed.

Lemma refines_Recv data len mem callback : rel refines (PackageConnectionRecv (C:=C) data len mem callback).
Proof. unfold PackageConnectionRecv. refines_go fail. Qed.

Lemma refines_Reset : rel refines (PackageConnectionReset (C:=C)).
Proof.
  intros c a c' Hm. unfold PackageConnectionReset in Hm.
  apply bind_Ok in Hm as (sw & c1 & Hc & Hm). unfold cas_state in Hc.
  destruct (decide _) as [E|_]; injection Hc as <- <-; [|injection Hm as <- <-; apply rtc_refl].
  apply bind_Ok in Hm as ([] & c1 & [=<-] & Hm). apply bind_Ok in Hm as ([] & c2 & [=<-] & Hm).
  apply bind_Ok in Hm as ([] & c3 & Hf & Hm). injection Hm as <- <-.
  apply refines_MaybeCloseFinish in Hf. eapply rtc_l; [|exact Hf].
  apply (cs_reset (pc_close c)); done.
Qed.

Lemma refines_RtoTimer fuel : rel refines (PackageConnectionRtoTimerCallback env fuel).
Proof. unfold PackageConnectionRtoTimerCallback. refines_go ltac:(apply refines_TrySend). Qed.

Lemma refines_RecvTimer : rel refines (PackageConnectionRecvTimerCallback (C:=C)).
Proof.
  unfold PackageConnectionRecvTimerCallback.
  refines_go ltac:(apply keeps_refines, keeps_pop_and_notify).
Qed.

Lemma refines_TimewaitTimer c a c' :
  cl_timer (pc_close c) = Some TimewaitTimer →
  PackageConnectionTimewaitTimerCallback (C:=C) c = Ok (a, c') → refines c c'.
Proof.
  intros Ht Hm. unfold PackageConnectionTimewaitTimerCallback in Hm.
  apply bind_Ok in Hm as ([] & c1 & [=<-] & Hm). apply bind_Ok in Hm as ([] & c2 & [=<-] & Hm).
  apply bind_Ok in Hm as ([] & c3 & [=<-] & Hm).
  apply refines_MaybeCloseFinish in Hm. eapply rtc_l; [|exact Hm].
  apply (cs_timewait (pc_close c)); done.
Qed.

(** While a FIN waits for its answer, sending leaves the close state alone. *)
Lemma fin_pending_keeps c c' :
  cl_sub (pc_close c) ≠ PACKAGE_CONNECTION_CLOSE_SUBSTATE_NONE →
  cl_sub (pc_close c) ≠ PACKAGE_CONNECTION_CLOSE_SUBSTATE_WAITCLOSE →
  sends_fin c c' → pc_close c' = pc_close c.
Proof.
  intros Hn Hw Hs. unfold sends_fin in Hs. inversion Hs as [|? k ? Hstep ?]; [done|]. by destruct Hstep.
Qed.

Lemma FinTimer_keeps fuel c a c' :
  close_ok (pc_close c) → cl_timer (pc_close c) = Some FinTimer →
  PackageConnectionFinTimerCallback env fuel c = Ok (a, c') → pc_close c' = pc_close c.
Proof.
  intros Hok Ht Hm. unfold PackageConnectionFinTimerCallback in Hm.
  apply bind_Ok in Hm as ([] & c1 & [=<-] & Hm). apply bind_Ok in Hm as (c0 & c2 & [=<- <-] & Hm).
  assert (Hsub : cl_sub (pc_close c) ∈ [PACKAGE_CONNECTION_CLOSE_SUBSTATE_FIN1;
    PACKAGE_CONNECTION_CLOSE_SUBSTATE_CLOSING; PACKAGE_CONNECTION_CLOSE_SUBSTATE_LASTACK]).
  { unfold close_ok in Hok. destruct (cl_sub (pc_close c)) eqn:E;
      first [set_solver | destruct Hok as (_ & _ & _ & Ht'); congruence]. }
  destruct (sub_is _ _) eqn:E.
  { apply bool_decide_eq_true in E. cbn [pc_close cl_sub set_pc_close set_cl_timer] in E.
    destruct (cl_sub (pc_close c)); set_solver. }
  apply bind_Ok in Hm as ([] & c2 & Hs & Hm). injection Hm as <- <-.
  apply TrySend_fin, fin_pending_keeps in Hs;
    [|cbn [pc_close cl_sub set_pc_close set_cl_timer]; intros Hx; rewrite Hx in Hsub; set_solver..].
  cbn. rewrite Hs. cbn. rewrite <- Ht. by destruct (pc_close c).
Qed.

(** *** The operations of a connection *)

(** One call, received package or timer; a timer fires while it is armed.
    [fuel] only bounds the sending loop of a call that returned. *)
Inductive conn_step (c c' : Conn C) : Prop :=
  | st_send fuel buffer length callback r :
      PackageConnectionSend env fuel buffer length callback c = Ok (r, c') → conn_step c c'
  | st_recv data len mem callback r :
      PackageConnectionRecv data len mem callback c = Ok (r, c') → conn_step c c'
  | st_close fuel r : PackageConnectionClose env fuel c = Ok (r, c') → conn_step c c'
  | st_reset r : PackageConnectionReset c = Ok (r, c') → conn_step c c'
  | st_push fuel p bytes r : PackageConnectionPushPackage env fuel p bytes c = Ok (r, c') → conn_step c c'
  | st_fin fuel r : cl_timer (pc_close c) = Some FinTimer →
      PackageConnectionFinTimerCallback env fuel c = Ok (r, c') → conn_step c c'
  | st_timewait r : cl_timer (pc_close c) = Some TimewaitTimer →
      PackageConnectionTimewaitTimerCallback c = Ok (r, c') → conn_step c c'
  | st_rto fuel r : pc_rtoTimer c = true →
      PackageConnectionRtoTimerCallback env fuel c = Ok (r, c') → conn_step c c'
  | st_recvTimer r : pc_recvTimer c = true →
      PackageConnectionRecvTimerCallback c = Ok (r, c') → conn_step c c'.

Lemma conn_step_refines c c' : close_ok (pc_close c) → conn_step c c' → refines c c'.
Proof.
  intros Hok [fuel b l cb r E|d l m cb r E|fuel r E|r E|fuel p bytes r E|fuel r Ht E|r Ht E|fuel r _ E|r _ E].
  - by apply refines_Send in E.
  - by apply refines_Recv in E.
  - by apply refines_Close in E.
  - by apply refines_Reset in E.
  - by apply refines_PushPackage in E.
  - apply FinTimer_keeps in E; [|done..]. unfold refines. rewrite E. apply rtc_refl.
  - by apply refines_TimewaitTimer in E.
  - by apply refines_RtoTimer in E.
  - by apply refines_RecvTimer in E.
Qed.

Lemma conn_reachable_ok cc clock c :
  rtc conn_step (PackageConnectionCreate env cc clock) c → close_ok (pc_close c).
Proof.
  intros Hr. assert (H0 : close_ok (pc_close (PackageConnectionCreate env cc clock))).
  { vm_compute. by repeat split; left. }
  revert H0. induction Hr as [c|c c1 c2 Hs _ IH]; intros Hok; [done|].
  apply IH. eapply close_steps_ok; [exact Hok|]. by apply conn_step_refines.
Qed.

(** C18: Whatever an application, the network and the timers do to a
    connection, its close handshake takes only the transitions of
    [close_step]: the detailed functions refine the abstract machine. *)
Theorem connection_refines_close cc clock c c' :
  rtc conn_step (PackageConnectionCreate env cc clock) c → conn_step c c' →
  rtc close_step (pc_close c) (pc_close c').
Proof. intros Hr Hs. apply conn_step_refines; [|done]. by eapply conn_reachable_ok. Qed.

(** C36: In every reachable state of a connection the sub-state of the close
    handshake determines which directions are closed and which timer runs: a
    FIN that waits for its answer has the retransmission timer running, and a
    connection is only closed ([PACKAGE_CONNECTION_STATE_CLOSE]) when both
    directions are, with no close timer left. *)
Theorem close_handshake_sound cc clock c :
  rtc conn_step (PackageConnectionCreate env cc clock) c →
  let k := pc_close c in
  close_ok k ∧
  (cl_state k = PACKAGE_CONNECTION_STATE_CLOSE →
   cl_sub k = PACKAGE_CONNECTION_CLOSE_SUBSTATE_CLOSED ∧ send_closed k = true ∧ recv_closed k = true ∧
   cl_timer k = None) ∧
  (cl_state k = PACKAGE_CONNECTION_STATE_ESTABLISH → send_closed k = false ∧ recv_closed k = false).
Proof.
  intros Hr k. pose proof (conn_reachable_ok _ _ _ Hr) as Hok. fold k in Hok.
  split; [exact Hok|]. unfold close_ok in Hok.
  destruct (cl_sub k); intuition congruence.
Qed.

End refinement.

(** ** Concrete runs *)

(** An orderly close by this side: the FIN goes out, the peer's FINACK and FIN
    come in, and the waiting time passes. *)
Definition demo_peer (flags : Z) : SessionData := mkSession flags 7 1 1 7 None 5 0 0 None.

Definition demo_fin1 : Conn LedbatCc := after (PackageConnectionClose demo_env 9) demo_conn.
Definition demo_fin2 : Conn LedbatCc :=
  after (PackageConnectionPushPackage demo_env 9 (demo_peer BDT_SESSIONDATA_PACKAGE_FLAG_FINACK) []) demo_fin1.
Definition demo_timewait : Conn LedbatCc :=
  after (PackageConnectionPushPackage demo_env 9 (demo_peer BDT_SESSIONDATA_PACKAGE_FLAG_FIN) []) demo_fin2.
Definition demo_closed : Conn LedbatCc := after PackageConnectionTimewaitTimerCallback demo_timewait.

Example demo_close_path :
  (λ c, cl_sub (pc_close c)) <$> [demo_conn; demo_fin1; demo_fin2; demo_timewait; demo_closed] =
  [PACKAGE_CONNECTION_CLOSE_SUBSTATE_NONE; PACKAGE_CONNECTION_CLOSE_SUBSTATE_FIN1;
   PACKAGE_CONNECTION_CLOSE_SUBSTATE_FIN2; PACKAGE_CONNECTION_CLOSE_SUBSTATE_TIMEWAIT;
   PACKAGE_CONNECTION_CLOSE_SUBSTATE_CLOSED].
Proof. vm_compute. reflexivity. Qed.

Lemma after_ok {A} (m : CM LedbatCc A) c : returns m c = true → ∃ r, m c = Ok (r, after m c).
Proof. unfold returns, after. destruct (m c) as [[r c']| |]; [by exists r|done|done]. Qed.

Lemma step_close fuel c :
  returns (PackageConnectionClose demo_env fuel) c = true →
  conn_step demo_env c (after (PackageConnectionClose demo_env fuel) c).
Proof. intros [r E]%after_ok. by eapply st_close. Qed.

Lemma step_push fuel p bytes c :
  returns (PackageConnectionPushPackage demo_env fuel p bytes) c = true →
  conn_step demo_env c (after (PackageConnectionPushPackage demo_env fuel p bytes) c).
Proof. intros [r E]%after_ok. by eapply st_push. Qed.

Lemma demo_fin2_run : rtc (conn_step demo_env) demo_conn demo_fin2.
Proof.
  apply (rtc_l _ _ demo_fin1); [|apply rtc_once].
  - unfold demo_fin1. apply step_close. vm_compute. reflexivity.
  - unfold demo_fin2. apply step_push. vm_compute. reflexivity.
Qed.

Lemma demo_fin_step : conn_step demo_env demo_fin2 demo_timewait.
Proof. unfold demo_timewait. apply step_push. vm_compute. reflexivity. Qed.

Lemma connection_refines_close_witness : rtc close_step (pc_close demo_fin2) (pc_close demo_timewait).
Proof.
  apply (connection_refines_close demo_env (LedbatCcNew 1308 1308) demo_clock demo_fin2 demo_timewait).
  - exact demo_fin2_run.
  - exact demo_fin_step.
Defined.

Lemma close_handshake_sound_witness : close_ok (pc_close demo_fin2) ∧ send_closed (pc_close demo_fin2) = true.
Proof.
  destruct (close_handshake_sound demo_env (LedbatCcNew 1308 1308) demo_clock demo_fin2 demo_fin2_run) as (Hok & _ & _).
  split; [exact Hok|vm_compute; reflexivity].
Defined.
