(* ===== verification/ConnDrive.v ===== *)
(** * The sending loop

    [PackageConnectionSendDrive] sends packages until the window or the data is
    used up.  It terminates while the connection neither closes nor owes an
    acknowledgement of the peer's FIN, it respects the window, and it does not
    terminate when such a flag is due while less than a package fits in the
    window: the same state comes back after every package. *)

From S2P Require Import Prelude CInt RecvQueue SendQueue SendProofs Package LedbatCc ConnState PackageConnection ConnDemo ConnClose.
From stdpp Require Import relations.
#[local] Open Scope Z_scope.

(** ** Functions that return *)

Definition total {C A} (m : CM C A) : Prop := ∀ c, ∃ a c', m c = Ok (a, c').

Section totals.
Context {C : Type}.

Lemma total_ret {A} (a : A) : total (C:=C) (mret a).
Proof. intros c. by exists a, c. Qed.

Lemma total_bind {A B} (m : CM C A) (k : A → CM C B) : total m → (∀ a, total (k a)) → total (m ≫= k).
Proof.
  intros Hm Hk c. destruct (Hm c) as (a & c1 & E). destruct (Hk a c1) as (b & c2 & E2).
  exists b, c2. unfold mbind, CM_bind. by rewrite E.
Qed.

Lemma total_getc : total (C:=C) getc.
Proof. intros c. by exists c, c. Qed.
Lemma total_modify f : total (C:=C) (modify f).
Proof. intros c. by exists tt, (f c). Qed.
Lemma total_now : total (C:=C) now.
Proof. intros c. by do 2 eexists. Qed.
Lemma total_cas_sub old new : total (C:=C) (cas_sub old new).
Proof. intros c. rewrite run_cas_sub. case_decide; by do 2 eexists. Qed.
End totals.

Ltac total_go tac :=
  repeat (intros;
    first [ apply total_ret | tac | apply total_bind | apply total_getc | apply total_modify
          | apply total_now | apply total_cas_sub | case_match ]).

Lemma bind_run {C A B} (m : CM C A) (k : A → CM C B) c a c1 :
  m c = Ok (a, c1) → (m ≫= k) c = k a c1.
Proof. intros E. unfold mbind, CM_bind. by rewrite E. Qed.

(** ** The work left in a send queue *)

(** Every fill takes a lost block or cuts unsent data. *)
Definition work (q : SendQueue) : nat :=
  length (sc_lostBlocks (sq_ctx q)) + Z.to_nat (sd_unSend (sq_sending q)).

(** No lost block is longer than a payload. *)
Definition lost_fit (q : SendQueue) : Prop :=
  ∀ b, b ∈ sc_lostBlocks (sq_ctx q) → bk_len b ≤ sq_mtu q.

Definition flight_le (q q' : SendQueue) : Prop :=
  0 ≤ sc_flight (sq_ctx q) → sc_flight (sq_ctx q') ≤ sc_flight (sq_ctx q) + sq_mtu q.

Lemma FillPayload_step lo q t :
  sq_inv lo q →
  ∃ r pl q', SendQueueFillPayload q t = Some (r, pl, q') ∧ sq_inv lo q' ∧ sq_mtu q' = sq_mtu q ∧
    (r = BFX_RESULT_NOT_CHANGED ∧ q' = q ∧ work q = 0%nat ∨
     r = BFX_RESULT_SUCCESS ∧ (work q' < work q)%nat ∧ (lost_fit q → lost_fit q' ∧ flight_le q q')).
Proof.
  intros Hq. destruct (FillPayload_inv lo q t Hq) as (r & pl & q' & E & Hq' & _).
  exists r, pl, q'. split; [done|]. split; [done|]. revert E. unfold SendQueueFillPayload.
  pose proof (si_mtu _ _ Hq) as Hm. pose proof (si_sending _ _ Hq) as Hsd.
  destruct (sc_lostBlocks (sq_ctx q)) as [|b losts] eqn:El.
  - pose proof (GenerateBlock_spec lo _ (sq_mtu q) _ Hsd Hm) as Hg.
    pose proof (so_unSend _ _ _ Hsd) as Hu. case_decide as Hs.
    + rewrite Hg. cbn [mbind option_bind]. intros [=<- <- <-]. split; [done|]. left.
      rewrite set_ctx_same. unfold work. rewrite El. simpl. split_and!; [done|done|lia].
    + destruct Hg as (b & sd' & Eg & Hg). rewrite Eg. cbn [mbind option_bind].
      destruct (send_new (sq_ctx q) b t) as [p c] eqn:Es. intros [=<- <- <-]. split; [done|]. right.
      destruct Hg as [Gs Gl Gi Gok Gp Gv]. pose proof (so_unSend _ _ _ Gok) as Hu'.
      pose proof (so_range _ _ _ Gok) as Hr'. unfold send_new in Es. injection Es as <- <-.
      unfold work, lost_fit, flight_le, set_pos, set_lists, bk_len in *. cbn. rewrite El. cbn.
      split; [done|]. split; [lia|]. intros _. split; [by intros x ?%elem_of_nil|]. intros Hf.
      pose proof (Z.mod_le (sc_flight (sq_ctx q) + (bk_end b - bk_start b)) (2 ^ 32) ltac:(lia) ltac:(lia)).
      unfold u32. lia.
  - destruct (resend (sq_ctx q) b losts t) as [p c] eqn:Er. intros [=<- <- <-]. split; [done|]. right.
    unfold resend in Er. injection Er as <- <-.
    unfold work, lost_fit, flight_le, set_lists. cbn. rewrite El. cbn. split; [done|]. split; [lia|].
    intros Hfit. split; [intros x Hx; apply Hfit; by right|]. intros Hf.
    assert (Hbl : 0 < bk_len b ≤ sq_mtu q).
    { split; [|apply Hfit; by left]. pose proof (cx_ne _ (si_ctx _ _ Hq) b) as Hne. unfold outstanding in Hne.
      rewrite El, elem_of_app, elem_of_cons in Hne. unfold bk_len. specialize (Hne ltac:(right; by left)). lia. }
    pose proof (Z.mod_le (sc_flight (sq_ctx q) + bk_len b) (2 ^ 32) ltac:(lia) ltac:(lia)).
    unfold u32. lia.
Qed.

Section drive.
Context {C : Type} {mtu wnd : C → Z} `{Hlaws : BaseCcLaws C mtu wnd}.
Variable env : Env.

(** ** What the parts of a round do *)

(** What sending a package leaves alone. *)
Definition queues (c : Conn C) : SendQueue * RecvQueue := (pc_sendQueue c, pc_recvQueue c).

Lemma total_fin_sent flags : total (C:=C) (UpdateCloseSubState_sent flags).
Proof. unfold UpdateCloseSubState_sent. total_go fail. Qed.

Lemma keeps_fin_sent {T} (f : Conn C → T) flags :
  (∀ c k, f (set_pc_close k c) = f c) → keeps (C:=C) f (UpdateCloseSubState_sent flags).
Proof.
  intros Hf. unfold UpdateCloseSubState_sent.
  assert (Hu : ∀ g, keeps (C:=C) f (update_close g)) by (intros g c a c' [=<- <-]; apply Hf).
  assert (Hc : ∀ o n, keeps (C:=C) f (cas_sub o n)).
  { intros o n c a c'. rewrite run_cas_sub. case_decide; intros [=<- <-]; [apply Hf|done]. }
  keeps_go ltac:(first [apply Hu | apply Hc]).
Qed.

Lemma fin_sent_state flags : keeps (C:=C) (λ c, cl_state (pc_close c)) (UpdateCloseSubState_sent flags).
Proof.
  unfold UpdateCloseSubState_sent.
  assert (Hc : ∀ o n, keeps (C:=C) (λ c, cl_state (pc_close c)) (cas_sub o n)).
  { intros o n c a c'. rewrite run_cas_sub. case_decide; by intros [=<- <-]. }
  keeps_go ltac:(apply Hc).
Qed.

(** Preparing a package: only the close handshake (for a FIN), the congestion
    control and the estimates change. *)
Lemma OnPreSend_effect p c :
  ∃ t p' c', PackageConnectionOnPreSendPackage env p c = Ok (p', c') ∧
    queues c' = queues c ∧ pc_cc c' = fst (cc_onSend (pc_cc c) t (set_session p (env_remoteId env))) ∧
    p' = snd (cc_onSend (pc_cc c) t (set_session p (env_remoteId env))) ∧
    cl_state (pc_close c') = cl_state (pc_close c) ∧
    ∃ c1, pc_close c' = pc_close c1 ∧
      (if has_flag (pg_cmdflags p) BDT_SESSIONDATA_PACKAGE_FLAG_FIN
       then UpdateCloseSubState_sent (pg_cmdflags p) c = Ok (tt, c1) else c1 = c).
Proof.
  unfold PackageConnectionOnPreSendPackage. cbn [pg_cmdflags set_session].
  set (m1 := if has_flag _ _ then _ else _).
  assert (H1 : ∃ c1, m1 c = Ok (tt, c1) ∧ queues c1 = queues c ∧ pc_cc c1 = pc_cc c ∧
                cl_state (pc_close c1) = cl_state (pc_close c) ∧
                (if has_flag (pg_cmdflags p) BDT_SESSIONDATA_PACKAGE_FLAG_FIN
                 then UpdateCloseSubState_sent (pg_cmdflags p) c = Ok (tt, c1) else c1 = c)).
  { unfold m1. destruct (has_flag _ _); [|by exists c].
    destruct (total_fin_sent (pg_cmdflags p) c) as ([] & c1 & E). exists c1. split_and!; [done| | | |done].
    - by apply (keeps_fin_sent queues) in E.
    - by apply (keeps_fin_sent pc_cc) in E.
    - by apply fin_sent_state in E. }
  destruct H1 as (c1 & E1 & Hq1 & Hcc1 & Hst1 & Hcl). rewrite (bind_run _ _ _ _ _ E1). clear E1 m1.
  rewrite (bind_run getc _ c1 c1 c1) by done.
  set (m2 := if (pc_lastRecvAckTime c1 =? 0) && _ then _ else _).
  assert (H2 : ∃ c2, m2 c1 = Ok (tt, c2) ∧ queues c2 = queues c1 ∧ pc_cc c2 = pc_cc c1 ∧ pc_close c2 = pc_close c1)
    by (unfold m2; destruct (_ && _); by eexists).
  destruct H2 as (c2 & E2 & Hq2 & Hcc2 & Hcl2). rewrite (bind_run _ _ _ _ _ E2). clear E2 m2.
  set (c3 := set_pc_world (mkWorld (w_clock (pc_world c2)) (S (w_tick (pc_world c2))) (w_trace (pc_world c2))) c2).
  set (t := w_clock (pc_world c2) (w_tick (pc_world c2))).
  rewrite (bind_run now _ c2 t c3) by done. rewrite (bind_run getc _ c3 c3 c3) by done.
  assert (Hc3 : pc_cc c3 = pc_cc c) by (cbn; congruence). rewrite Hc3.
  destruct (cc_onSend (pc_cc c) t (set_session p (env_remoteId env))) as [cc p'] eqn:Eo.
  rewrite (bind_run (modify _) _ c3 tt (set_pc_cc cc c3)) by done.
  set (m4 := if negb (pg_payloadLength p' =? 0) then _ else _).
  assert (H4 : ∃ c4, m4 (set_pc_cc cc c3) = Ok (tt, c4) ∧ queues c4 = queues c3 ∧ pc_cc c4 = cc ∧
                pc_close c4 = pc_close c3) by (unfold m4; destruct (negb _); by eexists).
  destruct H4 as (c4 & E4 & Hq4 & Hcc4 & Hcl4). rewrite (bind_run _ _ _ _ _ E4).
  assert (Hq3 : queues c3 = queues c2) by done. assert (Hcl3 : pc_close c3 = pc_close c2) by done.
  exists t, p', c4. rewrite Eo. split_and!; [done|congruence|done|done|congruence|].
  exists c1. split; [congruence|done].
Qed.

(** Handing a package to the tunnel. *)
Lemma SendPackage_effect p c :
  ∃ e c', PackageConnectionSendPackage p c = Ok (e, c') ∧ queues c' = queues c ∧ pc_cc c' = pc_cc c ∧
    pc_close c' = pc_close c ∧
    (e = BFX_RESULT_INVALID_STATE ↔ cl_state (pc_close c) = PACKAGE_CONNECTION_STATE_CLOSE) ∧
    (e = BFX_RESULT_SUCCESS ∨ e = BFX_RESULT_INVALID_STATE).
Proof.
  unfold PackageConnectionSendPackage. rewrite (bind_run getc _ c c c) by done.
  destruct (state_is PACKAGE_CONNECTION_STATE_CLOSE c) eqn:E.
  - apply bool_decide_eq_true in E. eexists _, c. split_and!; first [done | by right].
  - apply bool_decide_eq_false in E.
    set (c1 := set_pc_world (mkWorld (w_clock (pc_world c)) (w_tick (pc_world c)) (w_trace (pc_world c) ++ [EvSend p])) c).
    rewrite (bind_run (emit _) _ c tt c1) by done. rewrite (bind_run getc _ c1 c1 c1) by done.
    set (m := if _ && _ then _ else _).
    assert (Hm : ∃ c2, m c1 = Ok (tt, c2) ∧ queues c2 = queues c ∧ pc_cc c2 = pc_cc c ∧ pc_close c2 = pc_close c)
      by (unfold m; destruct (_ && _); by eexists).
    destruct Hm as (c2 & Em & Hq & Hcc & Hcl). rewrite (bind_run _ _ _ _ _ Em).
    eexists _, c2. split_and!; first [done | by left].
Qed.

(** Filling a package, with and without room for a payload. *)
Lemma fill_payload_small p len c :
  len ≠ cfg_mtu (env_config env) →
  ∃ c', fill_payload (C:=C) env p len c =
        Ok ((BFX_RESULT_NOT_CHANGED,
             set_payload p (sc_streamPos (sq_ctx (pc_sendQueue c))) (pg_payloadLength p) (pg_payload p)), c') ∧
    queues c' = queues c ∧ pc_cc c' = pc_cc c ∧ pc_close c' = pc_close c.
Proof.
  intros Hne. unfold fill_payload. rewrite (bind_run getc _ c c c) by done.
  rewrite (bind_run now _ c (w_clock (pc_world c) (w_tick (pc_world c)))
    (set_pc_world (mkWorld (w_clock (pc_world c)) (S (w_tick (pc_world c))) (w_trace (pc_world c))) c)) by done.
  rewrite (proj2 (Z.eqb_neq _ _) Hne). eexists. by split_and!.
Qed.

Lemma fill_payload_full p len lo c :
  len = cfg_mtu (env_config env) → sq_inv lo (pc_sendQueue c) →
  ∃ r p' c', fill_payload (C:=C) env p len c = Ok ((r, p'), c') ∧
    pc_recvQueue c' = pc_recvQueue c ∧ pc_cc c' = pc_cc c ∧ pc_close c' = pc_close c ∧
    pg_cmdflags p' = pg_cmdflags p ∧ sq_inv lo (pc_sendQueue c') ∧
    sq_mtu (pc_sendQueue c') = sq_mtu (pc_sendQueue c) ∧
    (r = BFX_RESULT_NOT_CHANGED ∧ pc_sendQueue c' = pc_sendQueue c ∧ work (pc_sendQueue c) = 0%nat ∨
     r = BFX_RESULT_SUCCESS ∧ (work (pc_sendQueue c') < work (pc_sendQueue c))%nat ∧
     (lost_fit (pc_sendQueue c) → lost_fit (pc_sendQueue c') ∧ flight_le (pc_sendQueue c) (pc_sendQueue c'))).
Proof.
  intros -> Hq. unfold fill_payload. rewrite (bind_run getc _ c c c) by done.
  set (c1 := set_pc_world (mkWorld (w_clock (pc_world c)) (S (w_tick (pc_world c))) (w_trace (pc_world c))) c).
  set (t := w_clock (pc_world c) (w_tick (pc_world c))).
  rewrite (bind_run now _ c t c1) by done. rewrite Z.eqb_refl.
  destruct (FillPayload_step lo _ t Hq) as (r & pl & q' & E & Hq' & Hm & Hr).
  rewrite (bind_run (orfault _) _ c1 (r, pl, q') c1) by (unfold orfault; by rewrite E).
  rewrite (bind_run (modify _) _ c1 tt (set_pc_sendQueue q' c1)) by done.
  eexists r, _, _. by split_and!.
Qed.

Lemma fill_ack_effect r p c :
  ∃ r' p' c', fill_ack (C:=C) r p c = Ok ((r', p'), c') ∧ queues c' = queues c ∧ pc_close c' = pc_close c ∧
    pg_cmdflags p' = pg_cmdflags p ∧
    if r =? BFX_RESULT_SUCCESS then r' = r ∧ pc_cc c' = pc_cc c
    else r' = (if fst (cc_trySendAck (pc_cc c)) =? BFX_RESULT_SUCCESS then BFX_RESULT_SUCCESS else r) ∧
         pc_cc c' = snd (cc_trySendAck (pc_cc c)).
Proof.
  unfold fill_ack. rewrite (bind_run getc _ c c c) by done. destruct (r =? BFX_RESULT_SUCCESS).
  - eexists r, _, c. by split_and!.
  - destruct (cc_trySendAck (pc_cc c)) as [a cc] eqn:Ea.
    rewrite (bind_run (modify _) _ c tt (set_pc_cc cc c)) by done. cbn [fst snd].
    destruct (a =? BFX_RESULT_SUCCESS); eexists _, _, _; by split_and!.
Qed.

(** ** One round of the loop *)

Definition flight (c : Conn C) : Z := SendQueueGetFilght (pc_sendQueue c).
Definition payload_len (c : Conn C) : Z := snd (cc_trySendPayload (pc_cc c) (flight c)).
Definition ack_due (c : Conn C) : bool := fst (cc_trySendAck (pc_cc c)) =? BFX_RESULT_SUCCESS.

(** No FIN of ours and no answer to the peer's FIN is to be sent. *)
Definition quiet (c : Conn C) : Prop :=
  cl_state (pc_close c) ≠ PACKAGE_CONNECTION_STATE_CLOSING ∧ finack_due c = false.

Definition measure (c : Conn C) : nat := work (pc_sendQueue c) + if ack_due c then 1 else 0.

(** What one package does to the connection [c], leaving [c']. *)
Record round (lo : Z) (c c' : Conn C) : Prop := {
  rd_inv : sq_inv lo (pc_sendQueue c');
  rd_mtu : sq_mtu (pc_sendQueue c') = sq_mtu (pc_sendQueue c);
  rd_recv : pc_recvQueue c' = pc_recvQueue c;
  rd_wnd : wnd (pc_cc c') = wnd (pc_cc c) ∧ mtu (pc_cc c') = mtu (pc_cc c);
  rd_window : lost_fit (pc_sendQueue c) → sq_mtu (pc_sendQueue c) = cfg_mtu (env_config env) →
    0 ≤ mtu (pc_cc c) → lost_fit (pc_sendQueue c') ∧
    flight c' ≤ Z.max (flight c) (wnd (pc_cc c)) }.

Lemma onSend_laws cc t p :
  wnd (fst (cc_onSend cc t p)) = wnd cc ∧ mtu (fst (cc_onSend cc t p)) = mtu cc ∧
  pg_cmdflags (snd (cc_onSend cc t p)) = pg_cmdflags p.
Proof using Hlaws.
  pose proof (cc_onSend_wnd cc t p) as H1. pose proof (cc_onSend_package cc t p) as H2.
  destruct (cc_onSend cc t p) as [cc' p']. destruct H1, H2 as [[=] _]. by split_and!.
Qed.

Lemma trySendAck_laws cc :
  wnd (snd (cc_trySendAck cc)) = wnd cc ∧ mtu (snd (cc_trySendAck cc)) = mtu cc ∧
  fst (cc_trySendAck (snd (cc_trySendAck cc))) ≠ BFX_RESULT_SUCCESS.
Proof using Hlaws.
  pose proof (cc_trySendAck_wnd cc) as H1. pose proof (cc_ack_once cc) as H2.
  destruct (cc_trySendAck cc). by destruct H1.
Qed.

Lemma flight_nonneg lo q : sq_inv lo q → 0 ≤ SendQueueGetFilght q.
Proof. intros Hq. unfold SendQueueGetFilght. rewrite (cx_flight _ (si_ctx _ _ Hq)). apply u32_range. Qed.

(** Nothing is flagged on a quiet connection. *)
Lemma fill_fin_quiet c r p : quiet c → fill_fin c r p = (r, p).
Proof.
  intros [Hst Hfa]. unfold fill_fin, fin_due, state_is. rewrite Hfa.
  by rewrite bool_decide_eq_false_2.
Qed.

Lemma fill_fin_flags c r p :
  has_flag (pg_cmdflags p) BDT_SESSIONDATA_PACKAGE_FLAG_FIN = false →
  (fst (fill_fin c r p) = r ∨ fst (fill_fin c r p) = BFX_RESULT_SUCCESS) ∧
  (quiet c → fill_fin c r p = (r, p)).
Proof.
  intros Hp. split; [|apply fill_fin_quiet]. unfold fill_fin.
  destruct (fin_due c p); destruct (finack_due c); simpl; tauto.
Qed.

Lemma FillPackage_effect lo c :
  sq_inv lo (pc_sendQueue c) →
  ∃ r p c', PackageConnectionFillPackage env empty_package (payload_len c) c = Ok ((r, p), c') ∧
    round lo c c' ∧ pc_close c' = pc_close c ∧
    (quiet c → has_flag (pg_cmdflags p) BDT_SESSIONDATA_PACKAGE_FLAG_FIN = false ∧
      (r ≠ BFX_RESULT_SUCCESS ∨
       (work (pc_sendQueue c') < work (pc_sendQueue c))%nat ∧ ack_due c' = ack_due c ∨
       pc_sendQueue c' = pc_sendQueue c ∧ ack_due c = true ∧ ack_due c' = false)).
Proof using Hlaws.
  intros Hq. set (len := payload_len c). unfold PackageConnectionFillPackage.
  (* the payload *)
  assert (Hpl : ∃ r p c1, fill_payload env empty_package len c = Ok ((r, p), c1) ∧
    pc_recvQueue c1 = pc_recvQueue c ∧ pc_cc c1 = pc_cc c ∧ pc_close c1 = pc_close c ∧
    pg_cmdflags p = 0 ∧ sq_inv lo (pc_sendQueue c1) ∧ sq_mtu (pc_sendQueue c1) = sq_mtu (pc_sendQueue c) ∧
    (r = BFX_RESULT_NOT_CHANGED ∧ pc_sendQueue c1 = pc_sendQueue c ∨
     r = BFX_RESULT_SUCCESS ∧ len = cfg_mtu (env_config env) ∧
     (work (pc_sendQueue c1) < work (pc_sendQueue c))%nat ∧
     (lost_fit (pc_sendQueue c) → lost_fit (pc_sendQueue c1) ∧ flight_le (pc_sendQueue c) (pc_sendQueue c1)))).
  { destruct (decide (len = cfg_mtu (env_config env))) as [E|E].
    - destruct (fill_payload_full empty_package len lo c E Hq) as (r & p & c1 & ? & ? & ? & ? & ? & ? & ? & Hr).
      exists r, p, c1. split_and!; try done. destruct Hr as [(? & ? & ?)|(? & ? & ?)]; tauto.
    - destruct (fill_payload_small empty_package len c E) as (c1 & Hf & Hqs & Hcc & Hcl). injection Hqs as Es Er.
      eexists _, _, c1. split; [exact Hf|]. rewrite Es. split_and!; try done. by left. }
  destruct Hpl as (r & p & c1 & Epl & Hrv & Hcc & Hcl & Hfl & Hq1 & Hm1 & Hr).
  rewrite (bind_run _ _ _ _ _ Epl). rewrite (bind_run getc _ c1 c1 c1) by done.
  destruct (fill_fin_flags c1 r p) as [Hfr Hfq]; [by rewrite Hfl|].
  destruct (fill_fin c1 r p) as [r2 p2] eqn:Ef. simpl in Hfr.
  destruct (fill_ack_effect r2 p2 c1) as (r3 & p3 & c3 & Ea & Hqs & Hcl3 & Hfl3 & Hca).
  injection Hqs as Hsq3 Hrq3. exists r3, p3, c3. split; [exact Ea|].
  assert (Hcc3 : wnd (pc_cc c3) = wnd (pc_cc c) ∧ mtu (pc_cc c3) = mtu (pc_cc c)).
  { destruct (r2 =? BFX_RESULT_SUCCESS); destruct Hca as [_ ->]; rewrite Hcc; [done|].
    destruct (trySendAck_laws (pc_cc c)) as (? & ? & _). done. }
  split; [|split; [congruence|]].
  - split; [by rewrite Hsq3|by rewrite Hsq3|congruence|done|].
    intros Hfit Hmtu Hmc. rewrite Hsq3. unfold flight. rewrite Hsq3.
    destruct Hr as [[_ ->]|(_ & Elen & _ & Hw)]; [split; [done|lia]|].
    destruct (Hw Hfit) as [? Hle]. split; [done|].
    pose proof (flight_nonneg _ _ Hq) as Hf0. specialize (Hle Hf0). unfold SendQueueGetFilght in *.
    pose proof (cc_payload_le (pc_cc c) (flight c) Hmc Hf0) as Hlaw. unfold len, payload_len in Elen.
    destruct (cc_trySendPayload (pc_cc c) (flight c)) as [e l]. simpl in Elen.
    destruct Hlaw as (_ & Hlaw & _). pose proof (si_mtu _ _ Hq).
    unfold flight, SendQueueGetFilght in Hlaw. lia.
  - intros [Hst Hfa]. assert (Hquiet : quiet c1).
    { split; [by rewrite Hcl|]. unfold finack_due in *. by rewrite Hcl, Hrv. }
    specialize (Hfq Hquiet). injection Hfq as -> ->. split; [by rewrite Hfl3, Hfl|].
    unfold ack_due at 1 2. rewrite Hcc in Hca. rewrite Hsq3.
    destruct Hr as [[-> Es]|(-> & _ & Hw & _)].
    + simpl in Hca. destruct Hca as [-> Ecc]. unfold ack_due.
      destruct (fst (cc_trySendAck (pc_cc c)) =? BFX_RESULT_SUCCESS) eqn:Ed; [|left; done].
      right. right. split; [done|]. split; [done|]. rewrite Ecc.
      destruct (trySendAck_laws (pc_cc c)) as (_ & _ & ?). by apply Z.eqb_neq.
    + rewrite Z.eqb_refl in Hca. destruct Hca as [_ Ecc]. right. left. split; [done|].
      unfold ack_due. by rewrite Ecc.
Qed.

(** The package is prepared and sent; the loop goes on while there is room and
    data. *)
Definition drive_rest (fuel : nat) (len : Z) (p : SessionData) : CM C unit :=
  p ← PackageConnectionOnPreSendPackage env p;
  e ← PackageConnectionSendPackage p;
  if negb (e =? BFX_RESULT_SUCCESS) then mret tt else
  c ← getc;
  if nothing_to_send (pc_sendQueue c) len then mret tt else PackageConnectionSendDrive env fuel.

Lemma SendDrive_S fuel c :
  PackageConnectionSendDrive env (S fuel) c =
  ('(r, p) ← PackageConnectionFillPackage env empty_package (payload_len c);
   if r =? BFX_RESULT_SUCCESS then drive_rest fuel (payload_len c) p else mret tt) c.
Proof.
  cbn [PackageConnectionSendDrive]. rewrite (bind_run getc _ c c c) by done.
  unfold payload_len, flight. by destruct (cc_trySendPayload _ _).
Qed.

Lemma drive_rest_effect len p lo c0 c :
  round lo c0 c →
  ∃ c', round lo c0 c' ∧ pc_sendQueue c' = pc_sendQueue c ∧ ack_due c' = ack_due c ∧
    (∀ n, snd (cc_trySendPayload (pc_cc c') n) = snd (cc_trySendPayload (pc_cc c) n)) ∧
    cl_state (pc_close c') = cl_state (pc_close c) ∧
    (∃ c1, pc_close c' = pc_close c1 ∧
       if has_flag (pg_cmdflags p) BDT_SESSIONDATA_PACKAGE_FLAG_FIN
       then UpdateCloseSubState_sent (pg_cmdflags p) c = Ok (tt, c1) else c1 = c) ∧
    ∀ fuel, drive_rest fuel len p c =
      if bool_decide (cl_state (pc_close c) = PACKAGE_CONNECTION_STATE_CLOSE) ||
         nothing_to_send (pc_sendQueue c) len
      then Ok (tt, c') else PackageConnectionSendDrive env fuel c'.
Proof using Hlaws.
  intros [Ri Rm Rr Rw Rx]. unfold drive_rest.
  destruct (OnPreSend_effect p c) as (t & p' & c1 & Ep & Hq1 & Hcc1 & _ & Hst1 & Hcl1). injection Hq1 as Hsq1 Hrq1.
  destruct (SendPackage_effect p' c1) as (e & c2 & Es & Hq2 & Hcc2 & Hcl2 & He & He2).
  injection Hq2 as Hsq2 Hrq2.
  destruct (onSend_laws (pc_cc c) t (set_session p (env_remoteId env))) as (Hw & Hmt & _).
  exists c2. split_and!.
  - split; rewrite ?Hcc2, ?Hcc1, ?Hsq2, ?Hsq1, ?Hrq2, ?Hrq1, ?Hw, ?Hmt; try done.
    intros H1 H2 H3. unfold flight. rewrite Hsq2, Hsq1. by apply Rx.
  - congruence.
  - unfold ack_due. by rewrite Hcc2, Hcc1, cc_onSend_ack.
  - intros n. by rewrite Hcc2, Hcc1, cc_onSend_try.
  - congruence.
  - destruct Hcl1 as (c3 & ? & ?). exists c3. split; [congruence|done].
  - intros fuel. rewrite (bind_run _ _ _ _ _ Ep), (bind_run _ _ _ _ _ Es).
    rewrite Hst1 in He. destruct He2 as [-> | ->].
    + rewrite bool_decide_eq_false_2 by (intros Hx; apply He in Hx; done). simpl.
      rewrite (bind_run getc _ c2 c2 c2) by done. rewrite Hsq2, Hsq1. by destruct (nothing_to_send _ _).
    + by rewrite bool_decide_eq_true_2 by (by apply He).
Qed.

(** One more package on a quiet connection: the loop ends, or goes on with less
    to do. *)
Lemma drive_round lo c :
  sq_inv lo (pc_sendQueue c) → quiet c →
  ∃ c', round lo c c' ∧
    ((∀ fuel, PackageConnectionSendDrive env (S fuel) c = Ok (tt, c')) ∨
     (∀ fuel, PackageConnectionSendDrive env (S fuel) c = PackageConnectionSendDrive env fuel c') ∧
     quiet c' ∧ (measure c' < measure c)%nat).
Proof using Hlaws.
  intros Hq Hquiet. destruct (FillPackage_effect lo c Hq) as (r & p & c1 & Ef & Hrd & Hcl & Hm).
  destruct (Hm Hquiet) as [Hnofin Hcase]. clear Hm.
  destruct (Z.eqb_spec r BFX_RESULT_SUCCESS) as [Er|Er].
  2: { exists c1. split; [done|]. left. intros fuel. rewrite SendDrive_S, (bind_run _ _ _ _ _ Ef).
       by rewrite (proj2 (Z.eqb_neq _ _) Er). }
  destruct (drive_rest_effect (payload_len c) p lo c c1 Hrd) as (c2 & Hrd2 & Hsq & Had & _ & Hst & Hcl2 & Hrun).
  rewrite Hnofin in Hcl2. destruct Hcl2 as (c3 & Hcl2 & ->). exists c2. split; [done|].
  assert (Hgo : ∀ fuel, PackageConnectionSendDrive env (S fuel) c = drive_rest fuel (payload_len c) p c1).
  { intros fuel. rewrite SendDrive_S, (bind_run _ _ _ _ _ Ef). by rewrite Er, Z.eqb_refl. }
  destruct (_ || _) eqn:Estop in Hrun; [left; intros fuel; by rewrite Hgo|]. right.
  split; [intros fuel; by rewrite Hgo|]. destruct Hquiet as [Hst0 Hfa]. split.
  - split; [by rewrite Hcl2, Hcl|]. unfold finack_due in *. by rewrite Hcl2, Hcl, (rd_recv _ _ _ Hrd2).
  - unfold measure. rewrite Hsq, Had.
    destruct Hcase as [?|[[? ->]|(-> & -> & ->)]]; [done|lia|lia].
Qed.

(** ** The loop *)

Lemma round_refl lo c : sq_inv lo (pc_sendQueue c) → round lo c c.
Proof. intros Hq. split; try done. intros; split; [done|lia]. Qed.

Lemma round_trans lo c1 c2 c3 : round lo c1 c2 → round lo c2 c3 → round lo c1 c3.
Proof.
  intros [I1 M1 R1 [W1 T1] X1] [I2 M2 R2 [W2 T2] X2]. split; [done|congruence|congruence|split; congruence|].
  intros Hf Hm Hmc. destruct (X1 Hf Hm Hmc) as [Hf1 Hx1]. rewrite M1 in X2. rewrite T1 in X2.
  destruct (X2 Hf1 Hm Hmc) as [Hf2 Hx2]. split; [done|]. rewrite W1 in Hx2. lia.
Qed.

Lemma SendDrive_returns lo fuel c :
  sq_inv lo (pc_sendQueue c) → quiet c → (measure c < fuel)%nat →
  ∃ c', PackageConnectionSendDrive env fuel c = Ok (tt, c') ∧ round lo c c'.
Proof using Hlaws.
  revert c. induction fuel as [|fuel IH]; intros c Hq Hquiet Hfuel; [lia|].
  destruct (drive_round lo c Hq Hquiet) as (c1 & Hrd & [Hend|(Hgo & Hquiet1 & Hlt)]).
  - exists c1. by rewrite Hend.
  - destruct (IH c1 (rd_inv _ _ _ Hrd) Hquiet1 ltac:(lia)) as (c2 & E & Hrd2).
    exists c2. rewrite Hgo. split; [done|]. by eapply round_trans.
Qed.

(** Whenever the loop ends, it kept the queue's invariant and the window. *)
Lemma SendDrive_round lo fuel c c' :
  sq_inv lo (pc_sendQueue c) → PackageConnectionSendDrive env fuel c = Ok (tt, c') → round lo c c'.
Proof using Hlaws.
  revert c. induction fuel as [|fuel IH]; intros c Hq E; [done|].
  destruct (FillPackage_effect lo c Hq) as (r & p & c1 & Ef & Hrd & Hcl & _).
  rewrite SendDrive_S, (bind_run _ _ _ _ _ Ef) in E.
  destruct (r =? BFX_RESULT_SUCCESS); [|injection E as <-; done].
  destruct (drive_rest_effect (payload_len c) p lo c c1 Hrd) as (c2 & Hrd2 & _ & _ & _ & _ & _ & Hrun).
  rewrite Hrun in E. destruct (_ || _); [injection E as <-; done|].
  eapply round_trans; [exact Hrd2|]. apply IH; [by apply (rd_inv _ _ _ Hrd2)|done].
Qed.

(** ** The loop that does not end *)

Definition flagged (c : Conn C) : bool :=
  finack_due c ||
  fin_due c (set_payload empty_package (sc_streamPos (sq_ctx (pc_sendQueue c))) 0 0).

(** A flag is due, data is left, and less than a package fits. *)
Definition stuck (c : Conn C) : Prop :=
  cl_state (pc_close c) ≠ PACKAGE_CONNECTION_STATE_CLOSE ∧ flagged c = true ∧
  payload_len c ≠ cfg_mtu (env_config env) ∧
  nothing_to_send (pc_sendQueue c) (payload_len c) = false.

(** Sending a FIN leaves the positions and the need for further FINs alone. *)
Lemma fin_sent_due flags c c1 :
  UpdateCloseSubState_sent (C:=C) flags c = Ok (tt, c1) →
  cl_remotePos (pc_close c1) = cl_remotePos (pc_close c) ∧ ∀ p, fin_due c1 p = fin_due c p.
Proof.
  unfold UpdateCloseSubState_sent. destruct (has_flag _ _); [|intros [=<-]; done].
  unfold mbind, CM_bind. rewrite run_cas_sub. case_decide as E1.
  - intros [=<-]. split; [done|]. intros p. unfold fin_due, state_is, sub_is. cbn. by rewrite E1.
  - rewrite run_cas_sub. case_decide as E2; intros [=<-]; [|done].
    split; [done|]. intros p. unfold fin_due, state_is, sub_is. cbn. by rewrite E2.
Qed.

Lemma FillPackage_flagged c :
  flagged c = true → payload_len c ≠ cfg_mtu (env_config env) →
  ∃ p c', PackageConnectionFillPackage env empty_package (payload_len c) c = Ok ((BFX_RESULT_SUCCESS, p), c') ∧
    queues c' = queues c ∧ pc_cc c' = pc_cc c ∧ pc_close c' = pc_close c.
Proof.
  intros Hfl Hlen. unfold PackageConnectionFillPackage.
  destruct (fill_payload_small empty_package (payload_len c) c Hlen) as (c1 & Epl & Hqs1 & Hcc1 & Hcl1).
  injection Hqs1 as Hsq1 Hrq1. rewrite (bind_run _ _ _ _ _ Epl). rewrite (bind_run getc _ c1 c1 c1) by done.
  set (p1 := set_payload _ _ _ _).
  assert (Hdue : fst (fill_fin c1 BFX_RESULT_NOT_CHANGED p1) = BFX_RESULT_SUCCESS).
  { unfold flagged in Hfl. unfold fill_fin.
    assert (finack_due c1 = finack_due c) as -> by (unfold finack_due; by rewrite Hcl1, Hrq1).
    assert (fin_due c1 p1 = fin_due c p1) as -> by (unfold fin_due, state_is, sub_is; by rewrite Hcl1).
    change p1 with (set_payload empty_package (sc_streamPos (sq_ctx (pc_sendQueue c))) 0 0).
    destruct (fin_due _ _), (finack_due c); done. }
  destruct (fill_fin c1 BFX_RESULT_NOT_CHANGED p1) as [r2 p2]. simpl in Hdue. subst r2.
  destruct (fill_ack_effect BFX_RESULT_SUCCESS p2 c1) as (r3 & p3 & c3 & Ea & Hqs3 & Hcl3 & _ & Er & Hcc3).
  subst r3. exists p3, c3. split; [exact Ea|]. unfold queues in *.
  injection Hqs3 as -> ->. split_and!; congruence.
Qed.

Lemma stuck_round lo c :
  sq_inv lo (pc_sendQueue c) → stuck c →
  ∃ c', (∀ fuel, PackageConnectionSendDrive env (S fuel) c = PackageConnectionSendDrive env fuel c') ∧
    sq_inv lo (pc_sendQueue c') ∧ stuck c'.
Proof using Hlaws.
  intros Hq (Hst & Hfl & Hlen & Hleft).
  destruct (FillPackage_flagged c Hfl Hlen) as (p & c1 & Ef & Hqs1 & Hcc1 & Hcl1). injection Hqs1 as Hsq1 Hrq1.
  assert (Hrd : round lo c c1).
  { split; rewrite ?Hsq1, ?Hcc1; try done. intros ? _ _. unfold flight. rewrite Hsq1. split; [done|lia]. }
  destruct (drive_rest_effect (payload_len c) p lo c c1 Hrd) as (c2 & Hrd2 & Hsq2 & _ & Htry & Hst2 & Hcl2 & Hrun).
  assert (Hdue : flagged c2 = flagged c).
  { destruct Hcl2 as (c3 & Hcl2 & Hup). unfold flagged, finack_due.
    assert (Hd : cl_remotePos (pc_close c3) = cl_remotePos (pc_close c1) ∧ ∀ p, fin_due c3 p = fin_due c1 p).
    { destruct (has_flag _ _); [by eapply fin_sent_due|by subst]. }
    destruct Hd as [Hd1 Hd2]. rewrite (rd_recv _ _ _ Hrd2), Hsq2, Hsq1, Hcl2, Hd1, Hcl1. f_equal.
    assert (∀ p', fin_due c2 p' = fin_due c3 p') as -> by (intros p'; unfold fin_due, state_is, sub_is; by rewrite Hcl2).
    rewrite Hd2. unfold fin_due, state_is, sub_is. by rewrite Hcl1. }
  assert (Hlen2 : payload_len c2 = payload_len c).
  { unfold payload_len, flight. by rewrite Htry, Hcc1, Hsq2, Hsq1. }
  exists c2. split; [|split; [by rewrite Hsq2, Hsq1|]].
  - intros fuel. rewrite SendDrive_S, (bind_run _ _ _ _ _ Ef). simpl. rewrite Hrun, Hcl1, Hsq1.
    rewrite bool_decide_eq_false_2 by done. by rewrite Hleft.
  - split_and!; [by rewrite Hst2, Hcl1|by rewrite Hdue|by rewrite Hlen2|]. by rewrite Hlen2, Hsq2, Hsq1.
Qed.

Lemma stuck_diverges lo fuel c :
  sq_inv lo (pc_sendQueue c) → stuck c → PackageConnectionSendDrive env fuel c = OutOfFuel.
Proof using Hlaws.
  revert c. induction fuel as [|fuel IH]; intros c Hq Hs; [done|].
  destruct (stuck_round lo c Hq Hs) as (c' & Hgo & Hq' & Hs'). rewrite Hgo. by apply IH.
Qed.

(** ** Properties *)

(** C23: The sending loop terminates on a connection that is not closing and
    owes no FINACK: it sends at most one package for every lost block and
    every unsent byte, and one acknowledgement. *)
Theorem SendDrive_terminates lo c :
  sq_inv lo (pc_sendQueue c) → quiet c →
  ∃ c', ∀ fuel, (work (pc_sendQueue c) + 1 < fuel)%nat → PackageConnectionSendDrive env fuel c = Ok (tt, c').
Proof using Hlaws.
  intros Hq Hquiet.
  assert (Hm : (measure c ≤ work (pc_sendQueue c) + 1)%nat) by (unfold measure; destruct (ack_due c); lia).
  revert Hm. generalize (work (pc_sendQueue c) + 1)%nat. intros n. revert c Hq Hquiet.
  induction n as [|n IH]; intros c Hq Hquiet Hm;
    (destruct (drive_round lo c Hq Hquiet) as (c1 & Hrd & [Hend|(Hgo & Hquiet1 & Hlt)]);
     [exists c1; intros [|fuel] Hf; [lia|apply Hend]|]); [lia|].
  destruct (IH c1 (rd_inv _ _ _ Hrd) Hquiet1 ltac:(lia)) as [c2 Hc2].
  exists c2. intros [|fuel] Hf; [lia|]. rewrite Hgo. apply Hc2. lia.
Qed.

(** The sending loop respects the congestion window: when it ends, the
    bytes in flight are at most the window, unless there were already more. *)
Theorem SendDrive_within_window lo fuel c c' :
  sq_inv lo (pc_sendQueue c) → lost_fit (pc_sendQueue c) →
  sq_mtu (pc_sendQueue c) = cfg_mtu (env_config env) → 0 ≤ mtu (pc_cc c) →
  PackageConnectionSendDrive env fuel c = Ok (tt, c') →
  wnd (pc_cc c') = wnd (pc_cc c) ∧
  SendQueueGetFilght (pc_sendQueue c') ≤ Z.max (SendQueueGetFilght (pc_sendQueue c)) (wnd (pc_cc c)).
Proof using Hlaws.
  intros Hq Hfit Hmtu Hm E. pose proof (SendDrive_round lo fuel c c' Hq E) as Hrd.
  split; [apply Hrd|]. by apply (rd_window _ _ _ Hrd).
Qed.

(** C40: The sending loop never ends while a FIN or a FINACK is due, data is
    left, and the window has room but not for a whole package: a payload is
    only filled into a whole package, so the same state comes back after each
    of the empty packages it keeps sending. *)
Theorem SendDrive_diverges lo c :
  sq_inv lo (pc_sendQueue c) →
  cl_state (pc_close c) ≠ PACKAGE_CONNECTION_STATE_CLOSE → flagged c = true →
  payload_len c ≠ 0 → payload_len c ≠ cfg_mtu (env_config env) →
  u64 (SendQueueGetUnsendSize (pc_sendQueue c) + SendQueueGetLostSize (pc_sendQueue c)) ≠ 0 →
  ∀ fuel, PackageConnectionSendDrive env fuel c = OutOfFuel.
Proof using Hlaws.
  intros Hq Hst Hfl H0 Hlen Hleft fuel. eapply stuck_diverges; [exact Hq|]. split_and!; [done..|].
  unfold nothing_to_send. by rewrite !(proj2 (Z.eqb_neq _ _)) by done.
Qed.

End drive.

(** ** Concrete runs *)

Lemma with_buffer_inv lo data len c :
  sq_inv lo (pc_sendQueue c) → 0 ≤ len → sd_streamPos (sq_sending (pc_sendQueue c)) + len < pos_bound →
  sq_inv lo (pc_sendQueue (with_buffer data len c)).
Proof. apply AddBuffer_inv. Qed.

(** 2000 bytes are in flight, 616 more fit in the window of 2616. *)
Definition demo_flying : Conn LedbatCc :=
  after (PackageConnectionSendDrive demo_env 10) (with_buffer 4096 2000 demo_conn).

Lemma demo_buffer_inv : sq_inv 1 (pc_sendQueue (with_buffer 4096 2000 demo_conn)).
Proof.
  apply with_buffer_inv; [|lia|done]. apply Create_inv; [|done]. unfold PACKAGE_CONNECTION_INIT_STREAM_POS, pos_bound. lia.
Qed.

Lemma demo_flying_run :
  PackageConnectionSendDrive demo_env 10 (with_buffer 4096 2000 demo_conn) = Ok (tt, demo_flying).
Proof. apply after_run. vm_compute. reflexivity. Qed.

Lemma demo_flying_inv : sq_inv 1 (pc_sendQueue demo_flying).
Proof. eapply rd_inv, SendDrive_round; [exact demo_buffer_inv|exact demo_flying_run]. Qed.

(** The peer's FIN was received, and 100 more bytes are to be sent. *)
Definition with_fin (c : Conn LedbatCc) : Conn LedbatCc :=
  set_pc_close (set_cl_remotePos 1 (pc_close c)) c.

Lemma with_fin_inv lo c : sq_inv lo (pc_sendQueue c) → sq_inv lo (pc_sendQueue (with_fin c)).
Proof. done. Qed.

Definition demo_stuck : Conn LedbatCc :=
  with_buffer 9000 100 (with_fin demo_flying).

Lemma demo_small_inv : sq_inv 1 (pc_sendQueue (with_buffer 4096 10 demo_conn)).
Proof.
  apply with_buffer_inv; [|lia|done]. apply Create_inv; [|done]. unfold PACKAGE_CONNECTION_INIT_STREAM_POS, pos_bound. lia.
Qed.

Lemma SendDrive_terminates_witness :
  ∃ c', PackageConnectionSendDrive demo_env 12 (with_buffer 4096 10 demo_conn) = Ok (tt, c').
Proof.
  assert (Hquiet : quiet (with_buffer 4096 10 demo_conn)) by (split; by vm_compute).
  assert (Hf : (work (pc_sendQueue (with_buffer 4096 10 demo_conn)) + 1 < 12)%nat)
    by (apply Nat.ltb_lt; vm_compute; reflexivity).
  destruct (SendDrive_terminates demo_env 1 (with_buffer 4096 10 demo_conn) demo_small_inv Hquiet) as [c' Hc'].
  exists c'. exact (Hc' 12%nat Hf).
Defined.

Lemma SendDrive_within_window_witness :
  SendQueueGetFilght (pc_sendQueue demo_flying) ≤ 2616.
Proof.
  destruct (SendDrive_within_window demo_env 1 10 (with_buffer 4096 2000 demo_conn) demo_flying demo_buffer_inv)
    as [_ H]; [by intros b ?%elem_of_nil|reflexivity|by vm_compute|exact demo_flying_run|].
  etrans; [exact H|]. vm_compute. discriminate.
Defined.

Lemma SendDrive_diverges_witness : PackageConnectionSendDrive demo_env 100 demo_stuck = OutOfFuel.
Proof.
  apply (SendDrive_diverges demo_env 1 demo_stuck); try (by vm_compute).
  apply with_buffer_inv; [|lia|by vm_compute].
  apply with_fin_inv. exact demo_flying_inv.
Defined.

(** The same from the interface: after the peer's FIN an application that sends
    into a window with room for less than a package keeps the sending thread
    busy. *)
Definition demo_fin : SessionData := mkSession BDT_SESSIONDATA_PACKAGE_FLAG_FIN 7 1 1 7 None 5 0 0 None.

Example half_open_send_spins :
  let c := after (PackageConnectionSend demo_env 20 4096 2000 1) demo_conn in
  let c := after (PackageConnectionPushPackage demo_env 20 demo_fin []) c in
  PackageConnectionSend demo_env 20 9000 100 1 c = OutOfFuel.
Proof. vm_compute. reflexivity. Qed.
