(* ===== verification/ConnSafety.v ===== *)
(** * What a connection reports and sends

    Safety of the operations of [PackageConnection] over whole runs: how a
    connection finishes, that it is silent afterwards, and where its FIN is. *)

From S2P Require Import Prelude CInt RecvQueue SendQueue Package LedbatCc ConnState PackageConnection ConnDemo ConnClose ConnDrive.
From stdpp Require Import relations.
#[local] Open Scope Z_scope.

(** The packages of a trace. *)
Definition sent_of (e : Event) : option SessionData := match e with EvSend p => Some p | _ => None end.
Definition sends_in (tr : list Event) : list SessionData := omap sent_of tr.
Definition trace_of {C} (c : Conn C) : list Event := w_trace (pc_world c).

(** ** Finishing *)

Definition recv_closed_event (b : RecvBuffer) : Event := EvRecv (rb_callback b) (rb_addr b) 0 [].
Definition sent_event (b : SendBuffer) : Event :=
  EvSent (sb_callback b) BFX_RESULT_SUCCESS (sb_data b) (sb_len b).

Section safety.
Context {C : Type} `{BaseCc C}.
Variable env : Env.

Definition with_trace (c : Conn C) (tr : list Event) : Conn C :=
  set_pc_world (mkWorld (w_clock (pc_world c)) (w_tick (pc_world c)) (w_trace (pc_world c) ++ tr)) c.

Lemma with_trace_app c t1 t2 : with_trace (with_trace c t1) t2 = with_trace c (t1 ++ t2).
Proof. unfold with_trace. cbn. by rewrite (assoc_L (++)). Qed.

Lemma with_trace_nil c : with_trace c [] = c.
Proof. unfold with_trace. rewrite app_nil_r. by destruct c as [????????????[]]. Qed.

Lemma close_recv_run bufs c : close_recv_buffers bufs c = Ok (tt, with_trace c (recv_closed_event <$> bufs)).
Proof.
  revert c. induction bufs as [|b bufs IH]; intros c; [by rewrite with_trace_nil|].
  cbn [close_recv_buffers]. change ((emit (recv_closed_event b);; close_recv_buffers bufs) c = Ok (tt, with_trace c (recv_closed_event <$> b :: bufs))).
  transitivity (close_recv_buffers bufs (with_trace c [recv_closed_event b])); [done|].
  by rewrite IH, with_trace_app.
Qed.

Lemma close_send_run bufs c : close_send_buffers bufs c = Ok (tt, with_trace c (sent_event <$> bufs)).
Proof.
  revert c. induction bufs as [|b bufs IH]; intros c; [by rewrite with_trace_nil|].
  cbn [close_send_buffers].
  transitivity (close_send_buffers bufs (with_trace c [sent_event b])); [done|].
  by rewrite IH, with_trace_app.
Qed.

(** The position after the last byte the application wrote. *)
Definition stream_end (c : Conn C) : Z := sd_streamPos (sq_sending (pc_sendQueue c)).

Lemma MaybeCloseFinish_all (c : Conn C) :
  ∃ c', PackageConnectionMaybeCloseFinish c = Ok (tt, c') ∧
  if sub_is [PACKAGE_CONNECTION_CLOSE_SUBSTATE_CLOSED] c &&
     (send_closed (pc_close c) || recv_closed (pc_close c)) &&
     state_is PACKAGE_CONNECTION_STATE_CLOSING c
  then
    cl_state (pc_close c') = PACKAGE_CONNECTION_STATE_CLOSE ∧
    (cl_timer (pc_close c'), pc_rtoTimer c', pc_recvTimer c') = (None, false, false) ∧
    rq_buffers (pc_recvQueue c') = [] ∧ stream_end c' = stream_end c ∧
    pc_sendQueue c' = snd (SendQueuePopAllBuffers (pc_sendQueue c) []) ∧ sd_buffers (sq_sending (pc_sendQueue c')) = [] ∧
    trace_of c' = trace_of c ++ (recv_closed_event <$> rq_buffers (pc_recvQueue c))
                             ++ (sent_event <$> sd_buffers (sq_sending (pc_sendQueue c)))
  else c' = c.
Proof.
  unfold PackageConnectionMaybeCloseFinish, mbind at 1, CM_bind at 1, getc at 1.
  assert (Hfl : negb (Z.land (cl_flags (pc_close c)) (Z.lor PACKAGE_CONNECTION_FLAG_CLOSE_RECV PACKAGE_CONNECTION_FLAG_CLOSE_SEND) =? 0)
                = send_closed (pc_close c) || recv_closed (pc_close c)).
  { unfold send_closed, recv_closed, has_flag. rewrite Z.land_lor_distr_r.
    destruct (Z.eqb_spec (Z.land (cl_flags (pc_close c)) PACKAGE_CONNECTION_FLAG_CLOSE_RECV) 0) as [->|Hr];
      destruct (Z.eqb_spec (Z.land (cl_flags (pc_close c)) PACKAGE_CONNECTION_FLAG_CLOSE_SEND) 0) as [Es|Hs]; simpl.
    - by rewrite Es.
    - by rewrite (proj2 (Z.eqb_neq _ _)).
    - rewrite Es, Z.lor_0_r. by rewrite (proj2 (Z.eqb_neq _ _)).
    - match goal with |- context [?a =? 0] => destruct (Z.eqb_spec a 0) as [E|] end; [|done]. by apply Z.lor_eq_0_iff in E as [??]. }
  rewrite Hfl. destruct (sub_is _ c && _); simpl; [|by exists c].
  unfold mbind at 1, CM_bind at 1, cas_state, state_is.
  case_decide as Est; [|rewrite bool_decide_eq_false_2 by done; by exists c].
  rewrite bool_decide_eq_true_2 by done.
  cbv beta iota zeta delta [mbind CM_bind stop_close_timer update_close modify getc
    RecvQueuePopAllBuffers SendQueuePopAllBuffers]. 
  rewrite close_recv_run. cbv beta iota zeta.
  rewrite close_send_run. eexists. split; [reflexivity|].
  unfold trace_of, with_trace. cbn. by rewrite (assoc_L (++)).
Qed.

Lemma omap_none {A B} (f : A → option B) l : (∀ x, x ∈ l → f x = None) → omap f l = [].
Proof.
  induction l as [|x l IH]; intros Hl; [done|]. simpl. rewrite Hl by by left. apply IH. intros; apply Hl. by right.
Qed.

Lemma MaybeCloseFinish_run (c : Conn C) :
  ∃ c', PackageConnectionMaybeCloseFinish c = Ok (tt, c') ∧
  if sub_is [PACKAGE_CONNECTION_CLOSE_SUBSTATE_CLOSED] c &&
     (send_closed (pc_close c) || recv_closed (pc_close c)) &&
     state_is PACKAGE_CONNECTION_STATE_CLOSING c
  then cl_state (pc_close c') = PACKAGE_CONNECTION_STATE_CLOSE ∧ stream_end c' = stream_end c ∧
       sends_in (trace_of c') = sends_in (trace_of c)
  else c' = c.
Proof.
  destruct (MaybeCloseFinish_all c) as (c' & E & Hc). exists c'. split; [done|].
  destruct (_ && _); [|done]. destruct Hc as (? & _ & _ & ? & _ & _ & ->). split_and!; [done..|].
  unfold sends_in. rewrite !omap_app, (omap_none sent_of (recv_closed_event <$> _)),
    (omap_none sent_of (sent_event <$> _)), !app_nil_r; [done|..];
    intros x (b & -> & _)%list_elem_of_fmap; done.
Qed.

(** [PackageConnectionMaybeCloseFinish] on a closing connection whose
    handshake is over: it ends in the state CLOSE with every timer stopped and
    no buffer left, each receive buffer called back with no data, and each
    send buffer called back with success and its whole length, whatever part
    of it was sent or acknowledged; otherwise it changes nothing. *)
Theorem MaybeCloseFinish_correct (c : Conn C) :
  ∃ c', PackageConnectionMaybeCloseFinish c = Ok (tt, c') ∧
  if sub_is [PACKAGE_CONNECTION_CLOSE_SUBSTATE_CLOSED] c &&
     (send_closed (pc_close c) || recv_closed (pc_close c)) &&
     state_is PACKAGE_CONNECTION_STATE_CLOSING c
  then
    cl_state (pc_close c') = PACKAGE_CONNECTION_STATE_CLOSE ∧
    (cl_timer (pc_close c'), pc_rtoTimer c', pc_recvTimer c') = (None, false, false) ∧
    rq_buffers (pc_recvQueue c') = [] ∧ sd_buffers (sq_sending (pc_sendQueue c')) = [] ∧
    trace_of c' = trace_of c ++ (recv_closed_event <$> rq_buffers (pc_recvQueue c))
                             ++ (sent_event <$> sd_buffers (sq_sending (pc_sendQueue c)))
  else c' = c.
Proof.
  destruct (MaybeCloseFinish_all c) as (c' & E & Hc). exists c'. split; [done|].
  destruct (_ && _); [|done]. destruct Hc as (? & ? & ? & _ & _ & ? & ?). by split_and!.
Qed.

(** Finishing hands the send buffers back but keeps the cursor on the one
    being sent and the count of unsent bytes: after a reset with unsent data
    the next attempt to fill a package (a package that arrives is enough) goes
    through the cursor to a buffer that was freed. *)
Theorem reset_leaves_cursor (c c' : Conn C) r :
  cl_state (pc_close c) = PACKAGE_CONNECTION_STATE_ESTABLISH →
  sc_lostBlocks (sq_ctx (pc_sendQueue c)) = [] → sd_unSend (sq_sending (pc_sendQueue c)) ≠ 0 →
  PackageConnectionReset c = Ok (r, c') →
  sd_curr (sq_sending (pc_sendQueue c')) = sd_curr (sq_sending (pc_sendQueue c)) ∧
  sd_buffers (sq_sending (pc_sendQueue c')) = [] ∧
  ∀ t, SendQueueFillPayload (pc_sendQueue c') t = None.
Proof.
  intros Hst Hl Hu Hm. unfold PackageConnectionReset in Hm.
  apply bind_Ok in Hm as (sw & c1 & Hc & Hm). unfold cas_state in Hc. rewrite decide_True in Hc by done.
  injection Hc as <- <-. apply bind_Ok in Hm as ([] & c1 & [=<-] & Hm).
  apply bind_Ok in Hm as ([] & c2 & [=<-] & Hm). apply bind_Ok in Hm as ([] & c3 & Hf & Hm).
  injection Hm as _ <-.
  match type of Hf with _ ?c0 = _ => destruct (MaybeCloseFinish_all c0) as (c4 & E & Hc4) end.
  rewrite Hf in E. injection E as <-.
  rewrite andb_true_l in Hc4 || idtac.
  assert (Hfl : ∀ x, has_flag (Z.lor x (Z.lor PACKAGE_CONNECTION_FLAG_CLOSE_RECV PACKAGE_CONNECTION_FLAG_CLOSE_SEND))
                  PACKAGE_CONNECTION_FLAG_CLOSE_SEND = true) by (intros x; rewrite has_flag_or; apply orb_true_r).
  unfold sub_is, send_closed, state_is in Hc4. cbn in Hc4. rewrite Hfl in Hc4. cbn in Hc4.
  destruct Hc4 as (_ & _ & _ & _ & -> & _). cbn. split_and!; [done..|]. intros t.
  unfold SendQueueFillPayload. cbn. rewrite Hl. unfold SendQueueGenerateBlock. cbn.
  rewrite (proj2 (Z.eqb_neq _ _) Hu). by destruct (sd_curr _).
Qed.

(** ** Silence *)

(** A closed connection stays closed and sends nothing. *)
Definition silent (c c' : Conn C) : Prop :=
  cl_state (pc_close c) = PACKAGE_CONNECTION_STATE_CLOSE →
  cl_state (pc_close c') = PACKAGE_CONNECTION_STATE_CLOSE ∧
  sends_in (trace_of c') = sends_in (trace_of c).

#[local] Instance silent_preorder : PreOrder silent.
Proof.
  split; [done|]. intros x y z Hxy Hyz Hx. destruct (Hxy Hx) as [Hy E1]. destruct (Hyz Hy) as [Hz E2].
  split; [done|congruence].
Qed.

Lemma silent_cas_state old new :
  old ≠ PACKAGE_CONNECTION_STATE_CLOSE → rel silent (cas_state (C:=C) old new).
Proof. intros Ho c a c' Hm Hc. unfold cas_state in Hm. case_decide; injection Hm as <- <-; [congruence|done]. Qed.

Lemma silent_cas_sub old new : rel silent (cas_sub (C:=C) old new).
Proof. intros c a c' Hm Hc. rewrite run_cas_sub in Hm. case_decide; by injection Hm as <- <-. Qed.

Lemma silent_now : rel silent (now (C:=C)).
Proof. intros c a c' [=<- <-] Hc. by split. Qed.

Lemma silent_emit e : sent_of e = None → rel silent (emit (C:=C) e).
Proof.
  intros He c a c' [=<- <-] Hc. split; [done|]. unfold trace_of, sends_in. cbn.
  rewrite omap_app. simpl. rewrite He. simpl. by rewrite app_nil_r.
Qed.

Lemma silent_SendPackage p : rel silent (PackageConnectionSendPackage (C:=C) p).
Proof.
  intros c a c' Hm Hc. unfold PackageConnectionSendPackage in Hm.
  apply bind_Ok in Hm as (c0 & c1 & [=<- <-] & Hm).
  unfold state_is in Hm. rewrite bool_decide_eq_true_2 in Hm by done. by injection Hm as <- <-.
Qed.

Ltac silent_go tac :=
  repeat (intros;
    first [ apply rel_ret; [typeclasses eauto]
          | tac
          | apply silent_SendPackage
          | apply silent_cas_sub
          | apply silent_cas_state; discriminate
          | apply silent_emit; reflexivity
          | apply rel_bind; [typeclasses eauto| |]
          | apply rel_orfault; [typeclasses eauto]
          | apply rel_outoffuel
          | apply silent_now
          | apply rel_modify; intros ? Hc; by split
          | apply rel_getc_any; [typeclasses eauto]
          | case_match ]).

Lemma silent_callbacks rbufs sbufs ebufs pos bufs :
  rel silent (close_recv_buffers (C:=C) rbufs) ∧ rel silent (close_send_buffers (C:=C) sbufs) ∧
  rel silent (notify_sent (C:=C) ebufs) ∧ rel silent (notify_ready (C:=C) pos bufs).
Proof.
  split_and!.
  - induction rbufs as [|b l IH]; simpl; silent_go ltac:(exact IH).
  - induction sbufs as [|b l IH]; simpl; silent_go ltac:(exact IH).
  - induction ebufs as [|b l IH]; simpl; silent_go ltac:(exact IH).
  - revert pos. induction bufs as [|b l IH]; intros pos; simpl; silent_go ltac:(apply IH).
Qed.

Lemma silent_MaybeCloseFinish : rel silent (PackageConnectionMaybeCloseFinish (C:=C)).
Proof.
  unfold PackageConnectionMaybeCloseFinish, stop_close_timer, update_close.
  silent_go ltac:(first [apply (silent_callbacks _ [] [] 0 []) | apply (silent_callbacks [] _ [] 0 [])]).
Qed.

Lemma silent_fin_sent flags : rel silent (UpdateCloseSubState_sent (C:=C) flags).
Proof.
  unfold UpdateCloseSubState_sent, PackageConnectionBeginFinTimer, add_flags, update_close. silent_go fail.
Qed.

Lemma silent_OnPreSend p : rel silent (PackageConnectionOnPreSendPackage env p).
Proof. unfold PackageConnectionOnPreSendPackage. silent_go ltac:(apply silent_fin_sent). Qed.

Lemma silent_FillPackage p len : rel silent (PackageConnectionFillPackage env p len).
Proof. unfold PackageConnectionFillPackage, fill_payload, fill_ack. silent_go fail. Qed.

Lemma silent_SendDrive fuel : rel silent (PackageConnectionSendDrive env fuel).
Proof.
  induction fuel as [|fuel IH]; cbn [PackageConnectionSendDrive];
    silent_go ltac:(first [exact IH | apply silent_FillPackage | apply silent_OnPreSend]).
Qed.

Lemma silent_TrySend fuel : rel silent (PackageConnectionTrySendPackage env fuel).
Proof.
  unfold PackageConnectionTrySendPackage.
  assert (Hl : ∀ n v, rel silent (try_send_loop env n v)).
  { intros n. induction n as [|n IH]; intros v; cbn [try_send_loop];
      silent_go ltac:(first [apply IH | apply silent_SendDrive]). }
  silent_go ltac:(apply Hl).
Qed.

Lemma silent_Close fuel : rel silent (PackageConnectionClose env fuel).
Proof. unfold PackageConnectionClose, update_close. silent_go ltac:(apply silent_TrySend). Qed.

Lemma silent_UpdateCloseSubState fuel flags : rel silent (PackageConnectionUpdateCloseSubState env fuel flags true).
Proof.
  unfold PackageConnectionUpdateCloseSubState, on_fin, on_finack, PackageConnectionBeginTimewaitTimer,
    stop_close_timer, add_flags, update_close.
  silent_go ltac:(first [apply silent_Close | apply silent_MaybeCloseFinish]).
Qed.

Lemma silent_pop force : rel silent (pop_and_notify (C:=C) force).
Proof.
  unfold pop_and_notify, PackageConnectionNotifyRecvReadyBuffers.
  silent_go ltac:(apply (silent_callbacks [] [] [])).
Qed.

Lemma silent_Push fuel p bytes : rel silent (PackageConnectionPushPackage env fuel p bytes).
Proof.
  unfold PackageConnectionPushPackage, PackageConnectionSendAckAck, PackageConnectionEstimateRtt, push_ack, push_data,
    PackageConnectionNotifySendCompleteBuffers, PackageConnectionBeginRecvTimer, update_close.
  silent_go ltac:(first [apply silent_TrySend | apply silent_UpdateCloseSubState | apply silent_pop
    | apply (silent_callbacks [] [] _ 0 [])]).
Qed.

Lemma conn_step_silent c c' : conn_step env c c' → silent c c'.
Proof.
  intros [fuel b l cb r E|d l m cb r E|fuel r E|r E|fuel p bytes r E|fuel r Ht E|r Ht E|fuel r _ E|r _ E];
    revert E; match goal with |- ?m c = _ → _ => enough (Hr : rel silent m) by (intros E; by eapply Hr) end.
  - unfold PackageConnectionSend. silent_go ltac:(apply silent_TrySend).
  - unfold PackageConnectionRecv. silent_go fail.
  - apply silent_Close.
  - unfold PackageConnectionReset, add_flags, update_close. silent_go ltac:(apply silent_MaybeCloseFinish).
  - apply silent_Push.
  - unfold PackageConnectionFinTimerCallback, PackageConnectionBeginFinTimer, stop_close_timer, update_close.
    silent_go ltac:(apply silent_TrySend).
  - unfold PackageConnectionTimewaitTimerCallback, stop_close_timer, add_flags, update_close.
    silent_go ltac:(apply silent_MaybeCloseFinish).
  - unfold PackageConnectionRtoTimerCallback, PackageConnectionBeginRtoTimer. silent_go ltac:(apply silent_TrySend).
  - unfold PackageConnectionRecvTimerCallback. silent_go ltac:(apply silent_pop).
Qed.

(** C38: Once a connection is closed it stays closed, and neither calls of the
    application nor packages nor timers make it send a package. *)
Theorem closed_is_silent c c' :
  cl_state (pc_close c) = PACKAGE_CONNECTION_STATE_CLOSE → rtc (conn_step env) c c' →
  cl_state (pc_close c') = PACKAGE_CONNECTION_STATE_CLOSE ∧
  sends_in (trace_of c') = sends_in (trace_of c).
Proof.
  intros Hc Hr. induction Hr as [c|c c1 c2 Hs _ IH]; [done|].
  destruct (conn_step_silent _ _ Hs Hc) as [Hc1 <-]. by apply IH.
Qed.

(** ** The FIN is at the end of the stream *)

Definition is_fin (p : SessionData) : Prop :=
  has_flag (pg_cmdflags p) BDT_SESSIONDATA_PACKAGE_FLAG_FIN = true.

Record fin_inv (c : Conn C) : Prop := {
  fi_state : cl_state (pc_close c) ≠ PACKAGE_CONNECTION_STATE_NONE;
  fi_self : cl_state (pc_close c) = PACKAGE_CONNECTION_STATE_CLOSING →
    cl_sub (pc_close c) ∈ fin_subs → cl_selfPos (pc_close c) = stream_end c;
  fi_sent : ∀ p, p ∈ sends_in (trace_of c) → is_fin p →
    cl_state (pc_close c) ≠ PACKAGE_CONNECTION_STATE_ESTABLISH ∧
    stream_end c ≤ u64 (pg_streamPos p + pg_payloadLength p) }.

Definition fin_keeps (c c' : Conn C) : Prop := fin_inv c → fin_inv c'.

#[local] Instance fin_keeps_preorder : PreOrder fin_keeps.
Proof. split; [intros c Hc; exact Hc|]. intros x y z Hxy Hyz Hx. by apply Hyz, Hxy. Qed.

(** What the invariant looks at. *)
Definition fin_view (c : Conn C) : CloseCtx * Z * list SessionData :=
  (pc_close c, stream_end c, sends_in (trace_of c)).

Lemma fin_keeps_view c c' : fin_view c' = fin_view c → fin_keeps c c'.
Proof.
  unfold fin_view. intros [=Ec Es Et] [H1 H2 H3]. split; rewrite ?Ec, ?Es, ?Et; done.
Qed.

Lemma fin_keeps_sub c sub :
  (sub ∈ fin_subs → cl_sub (pc_close c) ∈ fin_subs) → fin_keeps c (set_pc_close (set_cl_sub sub (pc_close c)) c).
Proof. intros Hs [H1 H2 H3]. split; cbn; [done| |done]. intros Hc Hn. apply H2; [done|by apply Hs]. Qed.

Lemma fin_keeps_cas_sub old new : (new ∈ fin_subs → old ∈ fin_subs) → rel fin_keeps (cas_sub (C:=C) old new).
Proof.
  intros Hs c a c' Hm. rewrite run_cas_sub in Hm. case_decide as E; injection Hm as <- <-; [|done].
  apply fin_keeps_sub. by rewrite E.
Qed.

Lemma fin_keeps_now : rel fin_keeps (now (C:=C)).
Proof. intros c a c' [=<- <-]. by apply fin_keeps_view. Qed.

Lemma fin_keeps_emit e : sent_of e = None → rel fin_keeps (emit (C:=C) e).
Proof.
  intros He c a c' [=<- <-]. apply fin_keeps_view. unfold fin_view, stream_end, trace_of, sends_in. cbn.
  rewrite omap_app. simpl. rewrite He. simpl. by rewrite app_nil_r.
Qed.

Lemma fin_keeps_sendQueue q c :
  sd_streamPos (sq_sending q) = sd_streamPos (sq_sending (pc_sendQueue c)) → fin_keeps c (set_pc_sendQueue q c).
Proof. intros E. apply fin_keeps_view. unfold fin_view, stream_end. cbn. by rewrite E. Qed.

(** No operation of the send queue but [SendQueueAddBuffer] moves the end of
    the stream. *)
Lemma GenerateBlock_end s len b s' :
  SendQueueGenerateBlock s len = Some (b, s') → sd_streamPos s' = sd_streamPos s.
Proof.
  unfold SendQueueGenerateBlock. destruct (_ =? 0); [by intros [=<- <-]|].
  destruct (sd_curr s) as [id|]; [cbn [mbind option_bind]|done].
  destruct (find_buf id _) as [cur|]; [cbn [mbind option_bind]|done].
  destruct (u64 _ =? 0); [done|]. by destruct (_ <=? _); intros [=<- <-].
Qed.

Lemma FillPayload_end q t r p q' :
  SendQueueFillPayload q t = Some (r, p, q') → sd_streamPos (sq_sending q') = sd_streamPos (sq_sending q).
Proof.
  unfold SendQueueFillPayload. destruct (sc_lostBlocks _) as [|b l].
  - destruct (SendQueueGenerateBlock _ _) as [[[b|] s]|] eqn:E; [| |done]; cbn [mbind option_bind].
    + destruct (send_new _ _ _) as [p' c]. intros [=<- <- <-]. by apply GenerateBlock_end in E.
    + intros [=<- <- <-]. by apply GenerateBlock_end in E.
  - destruct (resend _ _ _ _) as [p' c]. by intros [=<- <- <-].
Qed.

Lemma ConfirmRange_end q ack sacks r n q' :
  SendQueueConfirmRange q ack sacks = Some (r, n, q') → sd_streamPos (sq_sending q') = sd_streamPos (sq_sending q).
Proof.
  unfold SendQueueConfirmRange. destruct (_ && _); [by intros [=<- <- <-]|].
  destruct (confirm_loop _ _ _ _ _ _) as [[c a]|]; [|done]. by intros [=<- <- <-].
Qed.

Lemma MarkRangeTimeout_end q (force : bool) t rto n q' :
  SendQueueMarkRangeTimeout q force t rto = Some (n, q') → sd_streamPos (sq_sending q') = sd_streamPos (sq_sending q).
Proof.
  unfold SendQueueMarkRangeTimeout. destruct (_ >? 0); [destruct (_ <? _); [done|]|]; by intros [=<- <-].
Qed.

Lemma PopComplete_end q ack out l :
  sd_streamPos (sq_sending (snd (SendQueuePopCompleteBuffers q ack out l))) = sd_streamPos (sq_sending q).
Proof. unfold SendQueuePopCompleteBuffers. by destruct (pop_complete _ _ _ _) as [[??]?]. Qed.

Ltac fin_go tac :=
  repeat (intros;
    first [ apply rel_ret; [typeclasses eauto]
          | tac
          | apply fin_keeps_cas_sub; unfold fin_subs; set_solver
          | apply fin_keeps_emit; reflexivity
          | apply fin_keeps_now
          | apply rel_modify; intros ?; by apply fin_keeps_view
          | apply rel_modify; intros ?; apply fin_keeps_sub; unfold fin_subs; set_solver
          | apply rel_modify; intros ? [? Hx ?]; split; cbn; [done|exact Hx|done]
          | apply rel_bind; [typeclasses eauto| |]
          | apply rel_orfault; [typeclasses eauto]
          | apply rel_outoffuel
          | apply rel_getc_any; [typeclasses eauto]
          | case_match ]).

Lemma fin_callbacks rbufs sbufs ebufs pos bufs :
  rel fin_keeps (close_recv_buffers (C:=C) rbufs) ∧ rel fin_keeps (close_send_buffers (C:=C) sbufs) ∧
  rel fin_keeps (notify_sent (C:=C) ebufs) ∧ rel fin_keeps (notify_ready (C:=C) pos bufs).
Proof.
  split_and!.
  - induction rbufs as [|b l IH]; simpl; fin_go ltac:(exact IH).
  - induction sbufs as [|b l IH]; simpl; fin_go ltac:(exact IH).
  - induction ebufs as [|b l IH]; simpl; fin_go ltac:(exact IH).
  - revert pos. induction bufs as [|b l IH]; intros pos; simpl; fin_go ltac:(apply IH).
Qed.

Lemma fin_SendPackage_nofin p : ¬ is_fin p → rel fin_keeps (PackageConnectionSendPackage (C:=C) p).
Proof.
  intros Hp. unfold PackageConnectionSendPackage.
  assert (He : rel fin_keeps (emit (C:=C) (EvSend p))).
  { intros c a c' [=<- <-] [H1 H2 H3]. split; cbn; [done|exact H2|]. intros p' Hp'.
    unfold trace_of, sends_in in Hp'. cbn in Hp'. rewrite omap_app in Hp'.
    apply elem_of_app in Hp' as [Hp'|Hp']; [by apply H3|]. simpl in Hp'.
    apply list_elem_of_singleton in Hp' as ->. done. }
  fin_go ltac:(exact He).
Qed.

(** A FIN goes out of a closing connection, at or behind [selfCloseStreamPos]. *)
Lemma fin_SendPackage p c a c' :
  cl_state (pc_close c) ≠ PACKAGE_CONNECTION_STATE_ESTABLISH →
  stream_end c ≤ u64 (pg_streamPos p + pg_payloadLength p) →
  PackageConnectionSendPackage p c = Ok (a, c') → fin_keeps c c'.
Proof.
  intros Hst Hpos Hm. unfold PackageConnectionSendPackage in Hm.
  apply bind_Ok in Hm as (c0 & c1 & [=<- <-] & Hm).
  destruct (state_is _ _); [by injection Hm as <- <-|].
  apply bind_Ok in Hm as ([] & c1 & [=<-] & Hm).
  etrans; [|revert Hm; match goal with |- ?m _ = _ → _ => enough (Hr : rel fin_keeps m) by (intros Hm; exact (Hr _ _ _ Hm)) end; fin_go fail].
  intros [H1 H2 H3]. split; cbn; [done|exact H2|]. intros p' Hp' Hf.
  unfold trace_of, sends_in in Hp'. cbn in Hp'. rewrite omap_app in Hp'.
  apply elem_of_app in Hp' as [Hp'|Hp']; [by apply H3|]. simpl in Hp'.
  apply list_elem_of_singleton in Hp' as ->. done.
Qed.

Lemma fin_fin_sent flags : rel fin_keeps (UpdateCloseSubState_sent (C:=C) flags).
Proof.
  unfold UpdateCloseSubState_sent, PackageConnectionBeginFinTimer, add_flags, update_close. fin_go fail.
Qed.

Context {mtu wnd : C → Z} `{Hlaws : !BaseCcLaws C mtu wnd}.

(** Preparing leaves the package's flags and place alone. *)
Lemma OnPreSend_package p c p' c' :
  PackageConnectionOnPreSendPackage env p c = Ok (p', c') →
  fin_keeps c c' ∧ pg_cmdflags p' = pg_cmdflags p ∧ pg_streamPos p' = pg_streamPos p ∧
  pg_payloadLength p' = pg_payloadLength p ∧ stream_end c' = stream_end c ∧
  cl_state (pc_close c') = cl_state (pc_close c).
Proof using Hlaws.
  intros Hm. assert (Hk : rel fin_keeps (PackageConnectionOnPreSendPackage env p))
    by (unfold PackageConnectionOnPreSendPackage; fin_go ltac:(apply fin_fin_sent)).
  destruct (OnPreSend_effect env p c) as (t & p2 & c2 & E & Hq & _ & Hp2 & Hst & _).
  rewrite Hm in E. injection E as <- <-. split; [by eapply Hk|].
  pose proof (cc_onSend_package (pc_cc c) t (set_session p (env_remoteId env))) as Hl.
  destruct (cc_onSend _ _ _) as [cc p3]. simpl in Hp2. subst p3. destruct Hl as [[=E1 E2 E3 E4] _].
  injection Hq as Hq _. unfold stream_end. rewrite Hq. by split_and!.
Qed.

Lemma keeps_view_FillPackage p len : keeps fin_view (PackageConnectionFillPackage env p len).
Proof.
  assert (Hnow : keeps (C:=C) fin_view now) by (by intros c a c' [=<- <-]).
  unfold PackageConnectionFillPackage.
  assert (Hpl : keeps fin_view (fill_payload (C:=C) env p len)).
  { intros c a c' Hm. unfold fill_payload in Hm. apply bind_Ok in Hm as (c0 & c1 & [=<- <-] & Hm).
    apply bind_Ok in Hm as (t & c1 & [=<- <-] & Hm).
    destruct (_ =? _); apply bind_Ok in Hm as ([[r pl] q] & c2 & Ho & Hm);
      apply bind_Ok in Hm as ([] & c3 & [=<-] & Hm); injection Hm as <- <-; unfold orfault in Ho.
    - destruct (SendQueueFillPayload _ _) as [x|] eqn:E; [|done]. injection Ho as -> <-.
      apply FillPayload_end in E. unfold fin_view, stream_end. cbn. by rewrite E.
    - injection Ho as <- <- <- <-. done. }
  unfold fill_ack. keeps_go ltac:(first [apply Hpl | apply Hnow]).
Qed.

Lemma SendDrive_fin_inv fuel : rel fin_keeps (PackageConnectionSendDrive env fuel).
Proof using Hlaws.
  induction fuel as [|fuel IH]; [done|]. intros c a c' Hm Hinv. cbn [PackageConnectionSendDrive] in Hm.
  apply bind_Ok in Hm as (c0 & c1 & [=<- <-] & Hm). destruct (cc_trySendPayload _ _) as [e len].
  apply bind_Ok in Hm as ([r p] & c1 & Hf & Hm).
  pose proof (keeps_view_FillPackage _ _ _ _ _ Hf) as Hv. cbn beta in Hv.
  pose proof (fin_keeps_view _ _ Hv Hinv) as Hinv1.
  apply FillPackage_fin in Hf as [Hcl Hfin]; [|done].
  destruct (r =? _); [|by injection Hm as <- <-].
  apply bind_Ok in Hm as (p1 & c2 & Hp & Hm).
  apply OnPreSend_package in Hp as (Hk2 & Ef & Epos & Elen & Eend & Est). specialize (Hk2 Hinv1).
  apply bind_Ok in Hm as (e1 & c3 & Hs & Hm).
  assert (Hinv3 : fin_inv c3).
  { destruct (decide (is_fin p)) as [Hp|Hp].
    - destruct (Hfin Hp) as (Hst & Hpos & Hsub). eapply fin_SendPackage; [| |exact Hs|exact Hk2].
      + rewrite Est, Hcl, Hst. discriminate.
      + apply bool_decide_eq_true in Hsub. rewrite Eend, Epos, Elen. injection Hv as _ Hv _. rewrite Hv.
        rewrite <- (fi_self _ Hinv Hst Hsub). apply Z.geb_le in Hpos. lia.
    - eapply fin_SendPackage_nofin; [|exact Hs|exact Hk2]. unfold is_fin in *. by rewrite Ef. }
  revert Hm. destruct (negb _); [by intros [=<- <-]|].
  intros (c4 & c5 & [=<- <-] & Hm)%bind_Ok. destruct (nothing_to_send _ _); [by injection Hm as <- <-|].
  by eapply IH.
Qed.

Lemma TrySend_fin_inv fuel : rel fin_keeps (PackageConnectionTrySendPackage env fuel).
Proof using Hlaws.
  unfold PackageConnectionTrySendPackage.
  assert (Hl : ∀ n v, rel fin_keeps (try_send_loop env n v)).
  { intros n. induction n as [|n IH]; intros v; cbn [try_send_loop];
      fin_go ltac:(first [apply IH | apply SendDrive_fin_inv]). }
  fin_go ltac:(apply Hl).
Qed.

Lemma Send_fin_inv fuel buffer length callback : rel fin_keeps (PackageConnectionSend env fuel buffer length callback).
Proof using Hlaws.
  intros c a c' Hm Hinv. unfold PackageConnectionSend in Hm.
  apply bind_Ok in Hm as (c0 & c1 & [=<- <-] & Hm).
  destruct (state_is PACKAGE_CONNECTION_STATE_ESTABLISH c) eqn:Est; [|by injection Hm as <- <-]. simpl in Hm.
  apply bool_decide_eq_true in Est.
  destruct (SendQueueAddBuffer _ _ _ _) as [errcode q] eqn:Eq.
  apply bind_Ok in Hm as ([] & c1 & [=<-] & Hm).
  assert (Hinv1 : fin_inv (set_pc_sendQueue q c)).
  { destruct Hinv as [H1 H2 H3]. split; cbn; [done|by rewrite Est|]. intros p Hp Hf.
    by destruct (H3 p Hp Hf) as [? _]. }
  destruct (negb _); [by injection Hm as <- <-|].
  apply bind_Ok in Hm as ([] & c2 & Ht & Hm). injection Hm as <- <-. by eapply TrySend_fin_inv.
Qed.

Lemma Close_fin_inv fuel : rel fin_keeps (PackageConnectionClose env fuel).
Proof using Hlaws.
  intros c a c' Hm Hinv. unfold PackageConnectionClose in Hm.
  apply bind_Ok in Hm as (c0 & c1 & [=<- <-] & Hm).
  destruct (state_is PACKAGE_CONNECTION_STATE_CLOSE c) eqn:E1; [by injection Hm as <- <-|].
  destruct (state_is PACKAGE_CONNECTION_STATE_CLOSING c) eqn:E2; [by injection Hm as <- <-|].
  apply bool_decide_eq_false in E1, E2.
  assert (Est : cl_state (pc_close c) = PACKAGE_CONNECTION_STATE_ESTABLISH)
    by (pose proof (fi_state _ Hinv); destruct (cl_state (pc_close c)); congruence).
  apply bind_Ok in Hm as (sw & c1 & Hc & Hm). unfold cas_state in Hc. rewrite decide_True in Hc by done.
  injection Hc as <- <-. apply bind_Ok in Hm as (c0 & c2 & [=<- <-] & Hm).
  apply bind_Ok in Hm as ([] & c2 & [=<-] & Hm).
  match type of Hm with ?m ?c1 = _ => assert (Hinv1 : fin_inv c1); [|revert Hm Hinv1; generalize c1] end.
  { destruct Hinv as [H1 H2 H3]. split; cbn; [done|done|]. intros p Hp Hf.
    by destruct (H3 p Hp Hf) as [? _]. }
  intros c1 Hm. revert c1 a c' Hm.
  match goal with |- ∀ c a c', ?m c = _ → _ => change (rel fin_keeps m) end.
  fin_go ltac:(apply TrySend_fin_inv).
Qed.

Lemma fin_MaybeCloseFinish : rel fin_keeps (PackageConnectionMaybeCloseFinish (C:=C)).
Proof.
  intros c a c' Hm [H1 H2 H3]. destruct (MaybeCloseFinish_run c) as (c2 & E & Hc2).
  rewrite Hm in E. injection E as _ <-. destruct (_ && _); [|by subst].
  destruct Hc2 as (Hst & Hend & Htr). split.
  - by rewrite Hst.
  - rewrite Hst. discriminate.
  - rewrite Hst, Htr, Hend. intros p Hp Hf. split; [done|]. by apply H3.
Qed.

Lemma fin_UpdateCloseSubState fuel flags :
  rel fin_keeps (PackageConnectionUpdateCloseSubState env fuel flags true).
Proof using Hlaws.
  unfold PackageConnectionUpdateCloseSubState, on_fin, on_finack, PackageConnectionBeginTimewaitTimer,
    stop_close_timer, add_flags, update_close.
  fin_go ltac:(first [apply Close_fin_inv | apply fin_MaybeCloseFinish]).
Qed.

Lemma fin_pop force : rel fin_keeps (pop_and_notify (C:=C) force).
Proof.
  unfold pop_and_notify, PackageConnectionNotifyRecvReadyBuffers.
  fin_go ltac:(apply (fin_callbacks [] [] [])).
Qed.

Lemma fin_complete nAcked : rel fin_keeps
  (if nAcked >? 0 then
     c ← getc;
     let '(bufs, q) := SendQueuePopCompleteBuffers (pc_sendQueue c) (sc_ack (sq_ctx (pc_sendQueue c)))
                         (env_list env) [] in
     modify (set_pc_sendQueue q);;
     match bufs with
     | [] => mret tt
     | _ => PackageConnectionNotifySendCompleteBuffers (C:=C) bufs
     end
   else mret tt).
Proof.
  destruct (nAcked >? 0); [|fin_go fail]. intros c a c' Hm. apply bind_Ok in Hm as (c0 & c1 & [=<- <-] & Hm).
  pose proof (PopComplete_end (pc_sendQueue c) (sc_ack (sq_ctx (pc_sendQueue c))) (env_list env) []) as Hend.
  destruct (SendQueuePopCompleteBuffers _ _ _ _) as [bufs q]. simpl in Hend.
  apply bind_Ok in Hm as ([] & c1 & [=<-] & Hm).
  etrans; [by apply (fin_keeps_sendQueue q)|].
  destruct bufs as [|b bufs]; [by injection Hm as <- <-|].
  by apply (fin_callbacks [] [] (b :: bufs) 0 []) in Hm.
Qed.

Lemma fin_push_ack fuel p : rel fin_keeps (push_ack env fuel p).
Proof using Hlaws.
  intros c a c' Hm. unfold push_ack in Hm. apply bind_Ok in Hm as (c0 & c1 & [=<- <-] & Hm).
  apply bind_Ok in Hm as ([[errcode nAcked] q] & c1 & Ho & Hm). unfold orfault in Ho.
  destruct (SendQueueConfirmRange _ _ _) as [x|] eqn:E; [|done]. injection Ho as -> <-.
  apply ConfirmRange_end in E. apply bind_Ok in Hm as ([] & c1 & [=<-] & Hm).
  etrans; [by apply (fin_keeps_sendQueue q)|]. revert Hm.
  match goal with |- ?m _ = _ → _ => enough (Hr : rel fin_keeps m) by (intros Hm; exact (Hr _ _ _ Hm)) end.
  fin_go ltac:(first [apply fin_complete | apply TrySend_fin_inv]).
Qed.

Lemma fin_Push fuel p bytes : rel fin_keeps (PackageConnectionPushPackage env fuel p bytes).
Proof using Hlaws.
  unfold PackageConnectionPushPackage, PackageConnectionSendAckAck, PackageConnectionEstimateRtt, push_data,
    PackageConnectionBeginRecvTimer, update_close.
  fin_go ltac:(first [apply TrySend_fin_inv | apply fin_UpdateCloseSubState | apply fin_pop | apply fin_push_ack]).
Qed.

Lemma fin_Reset : rel fin_keeps (PackageConnectionReset (C:=C)).
Proof.
  intros c a c' Hm Hinv. unfold PackageConnectionReset in Hm.
  apply bind_Ok in Hm as (sw & c1 & Hc & Hm). unfold cas_state in Hc.
  case_decide as Est; injection Hc as <- <-; [|by injection Hm as <- <-].
  apply bind_Ok in Hm as ([] & c1 & [=<-] & Hm). revert Hm.
  match goal with |- ?m ?c1 = _ → _ => assert (Hinv1 : fin_inv c1);
    [|enough (Hr : rel fin_keeps m) by (intros Hm; exact (Hr _ _ _ Hm Hinv1)); unfold add_flags, update_close; fin_go ltac:(apply fin_MaybeCloseFinish)] end.
  destruct Hinv as [H1 H2 H3]. split; cbn; [done| |].
  - intros _ Hx. exfalso. unfold fin_subs in Hx. set_solver.
  - intros p Hp Hf. by destruct (H3 p Hp Hf) as [? _].
Qed.

Lemma fin_Rto fuel : rel fin_keeps (PackageConnectionRtoTimerCallback env fuel).
Proof using Hlaws.
  unfold PackageConnectionRtoTimerCallback, PackageConnectionBeginRtoTimer.
  apply rel_bind; [typeclasses eauto|fin_go fail|]. intros _.
  intros c a c' Hm. apply bind_Ok in Hm as (c0 & c1 & [=<- <-] & Hm).
  destruct (state_is _ _); [by injection Hm as <- <-|].
  apply bind_Ok in Hm as ([] & c1 & Hb & Hm). injection Hm as <- <-.
  transitivity c1; [|by apply fin_keeps_view]. destruct (busy _); [|injection Hb as <-; by apply fin_keeps_view].
  apply bind_Ok in Hb as (t & c2 & [=<- <-] & Hb). apply bind_Ok in Hb as (t' & c2 & [=<- <-] & Hb).
  apply bind_Ok in Hb as ([n q] & c2 & Ho & Hb). unfold orfault in Ho.
  destruct (SendQueueMarkRangeTimeout _ _ _ _) as [x|] eqn:E; [|done]. injection Ho as -> <-.
  apply MarkRangeTimeout_end in E. apply bind_Ok in Hb as ([] & c2 & [=<-] & Hb).
  etrans; [|revert Hb; match goal with |- ?m _ = _ → _ => enough (Hr : rel fin_keeps m) by (intros Hm; exact (Hr _ _ _ Hm)) end;
            fin_go ltac:(apply TrySend_fin_inv)].
  apply fin_keeps_view. unfold fin_view, stream_end. cbn. by rewrite E.
Qed.

Lemma conn_step_fin c c' : conn_step env c c' → fin_keeps c c'.
Proof using Hlaws.
  intros [fuel b l cb r E|d l m cb r E|fuel r E|r E|fuel p bytes r E|fuel r Ht E|r Ht E|fuel r _ E|r _ E];
    revert E; match goal with |- ?m c = _ → _ => enough (Hr : rel fin_keeps m) by (intros E; exact (Hr _ _ _ E)) end.
  - apply Send_fin_inv.
  - unfold PackageConnectionRecv. fin_go fail.
  - apply Close_fin_inv.
  - apply fin_Reset.
  - apply fin_Push.
  - unfold PackageConnectionFinTimerCallback, PackageConnectionBeginFinTimer, stop_close_timer, update_close.
    fin_go ltac:(apply TrySend_fin_inv).
  - unfold PackageConnectionTimewaitTimerCallback, stop_close_timer, add_flags, update_close.
    fin_go ltac:(apply fin_MaybeCloseFinish).
  - apply fin_Rto.
  - unfold PackageConnectionRecvTimerCallback. fin_go ltac:(apply fin_pop).
Qed.


(** [PackageConnectionClose] enters the state CLOSING before
    [SendQueueAddCloseOperation] stores the end of the stream: a thread that
    fills a package in between finds [selfCloseStreamPos] still zero and marks
    it as FIN wherever the stream is, with bytes of the application still
    unsent. *)
Theorem close_race_sends_early_fin (c c1 : Conn C) p :
  cl_state (pc_close c) = PACKAGE_CONNECTION_STATE_ESTABLISH → cl_selfPos (pc_close c) = 0 →
  cl_sub (pc_close c) ∈ fin_subs →
  cas_state PACKAGE_CONNECTION_STATE_ESTABLISH PACKAGE_CONNECTION_STATE_CLOSING c = Ok (true, c1) →
  fin_due c1 p = true.
Proof.
  intros Hst Hself Hsub Hc. unfold cas_state in Hc. rewrite decide_True in Hc by done. injection Hc as <-.
  unfold fin_due, state_is, sub_is. cbn -[u64]. rewrite Hself.
  rewrite (bool_decide_eq_true_2 _ Hsub), andb_true_r.
  apply Z.geb_le. apply u64_range.
Qed.

End safety.

(** ** Concrete runs *)

Lemma demo_fin_run : rtc (conn_step demo_env) demo_conn demo_fin1.
Proof. apply rtc_once. unfold demo_fin1. apply step_close. vm_compute. reflexivity. Qed.

Definition demo_fin_package : SessionData := nth 0 (sends_in (trace_of demo_fin1)) empty_package.


Definition demo_reset : Conn LedbatCc := after PackageConnectionReset (with_buffer 4096 5000 demo_conn).

Lemma closed_is_silent_witness :
  let c := after PackageConnectionReset demo_conn in
  let c' := after (PackageConnectionPushPackage demo_env 9 (demo_peer BDT_SESSIONDATA_PACKAGE_FLAG_FIN) []) c in
  cl_state (pc_close c') = PACKAGE_CONNECTION_STATE_CLOSE.
Proof.
  cbv zeta.
  assert (Hc : cl_state (pc_close (after PackageConnectionReset demo_conn)) = PACKAGE_CONNECTION_STATE_CLOSE)
    by (vm_compute; reflexivity).
  eapply (closed_is_silent demo_env (after PackageConnectionReset demo_conn) _ Hc).
  apply rtc_once. apply step_push. vm_compute. reflexivity.
Defined.

(** 5000 bytes are not sent, and reported as sent. *)
Example reset_reports_success :
  trace_of demo_reset = [EvSent 1 BFX_RESULT_SUCCESS 4096 5000].
Proof. vm_compute. reflexivity. Qed.

Lemma reset_leaves_cursor_witness :
  SendQueueFillPayload (pc_sendQueue demo_reset) 100 = None.
Proof.
  destruct (after_ok PackageConnectionReset (with_buffer 4096 5000 demo_conn)) as [r E]; [vm_compute; reflexivity|].
  assert (Hst : cl_state (pc_close (with_buffer 4096 5000 demo_conn)) = PACKAGE_CONNECTION_STATE_ESTABLISH)
    by (vm_compute; reflexivity).
  assert (Hl : sc_lostBlocks (sq_ctx (pc_sendQueue (with_buffer 4096 5000 demo_conn))) = [])
    by (vm_compute; reflexivity).
  assert (Hu : sd_unSend (sq_sending (pc_sendQueue (with_buffer 4096 5000 demo_conn))) ≠ 0)
    by (vm_compute; discriminate).
  unfold demo_reset.
  destruct (reset_leaves_cursor _ _ r Hst Hl Hu E) as (_ & _ & H). exact (H 100).
Defined.

(** The package that arrives after the reset. *)
Example reset_then_package_faults :
  PackageConnectionPushPackage demo_env 9 (demo_peer BDT_SESSIONDATA_PACKAGE_FLAG_FIN) [] demo_reset = Fault.
Proof. vm_compute. reflexivity. Qed.

Lemma close_race_sends_early_fin_witness :
  let c := with_buffer 4096 5000 demo_conn in
  let p := set_payload empty_package (sc_streamPos (sq_ctx (pc_sendQueue c))) 0 0 in
  ∃ c1, cas_state PACKAGE_CONNECTION_STATE_ESTABLISH PACKAGE_CONNECTION_STATE_CLOSING c = Ok (true, c1) ∧
    fin_due c1 p = true ∧ pg_streamPos p + pg_payloadLength p < stream_end c.
Proof.
  intros c p.
  assert (Hs : cl_state (pc_close c) = PACKAGE_CONNECTION_STATE_ESTABLISH) by reflexivity.
  assert (Hp : cl_selfPos (pc_close c) = 0) by reflexivity.
  assert (Hn : cl_sub (pc_close c) ∈ fin_subs) by by left.
  eexists. split; [reflexivity|]. split; [|vm_compute; reflexivity].
  apply (close_race_sends_early_fin c _ p Hs Hp Hn). reflexivity.
Defined.
