(* ===== verification/BufferStream.v ===== *)
(** * Buffer streams

    [BuckyBase/Buffer/buffer_stream.c]: a cursor in a buffer, through which all
    packages are written and read.  [bs_buffer] is the memory from the start of
    the buffer to the end of the allocation it lies in, [bs_length] the length
    the stream was given; they differ when a package is in the middle of a
    larger buffer.  The answer [None] is a failed [assert] or an access outside
    that memory.  Integers are stored as a little-endian host stores them. *)

From S2P Require Import Prelude CInt.

(** ** Bytes of integers *)

Fixpoint le_bytes (n : nat) (v : Z) : list Z :=
  match n with O => [] | S n => v mod 256 :: le_bytes n (v / 256) end.

Fixpoint le_val (bs : list Z) : Z :=
  match bs with [] => 0 | b :: bs' => b + 256 * le_val bs' end.

(** ** The stream *)

Record BfxBufferStream := mkStream { bs_buffer : list Z; bs_length : nat; bs_pos : nat }.

Definition BfxBufferStreamInit (buffer : list Z) (length : nat) : BfxBufferStream :=
  mkStream buffer length 0.
Definition BfxBufferStreamGetPos (s : BfxBufferStream) : nat := bs_pos s.
Definition BfxBufferStreamGetTailLength (s : BfxBufferStream) : option nat :=
  guard (bs_pos s ≤ bs_length s)%nat;; Some (bs_length s - bs_pos s)%nat.
Definition BfxBufferStreamSetPos (s : BfxBufferStream) (newPos : nat) : option BfxBufferStream :=
  guard (newPos ≤ bs_length s)%nat;; Some (mkStream (bs_buffer s) (bs_length s) newPos).

(** [assert(self->pos + n <= self->length)] *)
Definition assert_room (s : BfxBufferStream) (n : nat) : option unit :=
  guard (bs_pos s + n ≤ bs_length s)%nat;; Some tt.

Definition advance (n : nat) (s : BfxBufferStream) : BfxBufferStream :=
  mkStream (bs_buffer s) (bs_length s) (bs_pos s + n).

(** The memory access of a read and of a write at the cursor. *)
Definition load (n : nat) (s : BfxBufferStream) : option (list Z) :=
  guard (bs_pos s + n ≤ length (bs_buffer s))%nat;; Some (take n (drop (bs_pos s) (bs_buffer s))).

Definition written (bs : list Z) (s : BfxBufferStream) : BfxBufferStream :=
  mkStream (take (bs_pos s) (bs_buffer s) ++ bs ++ drop (bs_pos s + length bs) (bs_buffer s))
    (bs_length s) (bs_pos s + length bs).

Definition store (bs : list Z) (s : BfxBufferStream) : option BfxBufferStream :=
  guard (bs_pos s + length bs ≤ length (bs_buffer s))%nat;; Some (written bs s).

(** ** Reading: the number of bytes read, the value and the stream *)

Definition Read (A : Type) : Type := BfxBufferStream → option (Z * A * BfxBufferStream).

Definition BfxBufferReadUInt8 : Read Z := λ s,
  assert_room s 1;; b ← load 1 s; Some (1, le_val b, advance 1 s).
Definition BfxBufferReadUInt16 : Read Z := λ s,
  assert_room s 2;; b ← load 2 s; Some (2, le_val b, advance 2 s).
Definition BfxBufferReadUInt32 : Read Z := λ s,
  assert_room s 4;; b ← load 4 s; Some (4, le_val b, advance 4 s).
Definition BfxBufferReadUInt64 : Read Z := λ s,
  assert_room s 8;; b ← load 8 s; Some (8, le_val b, advance 8 s).

(** The same reads through a pointer to a signed type: two's complement. *)
Definition signed (bits v : Z) : Z := if v <? 2 ^ (bits - 1) then v else v - 2 ^ bits.
Definition BfxBufferReadInt8 : Read Z := λ s,
  assert_room s 1;; b ← load 1 s; Some (1, signed 8 (le_val b), advance 1 s).
Definition BfxBufferReadInt16 : Read Z := λ s,
  assert_room s 2;; b ← load 2 s; Some (2, signed 16 (le_val b), advance 2 s).
Definition BfxBufferReadInt32 : Read Z := λ s,
  assert_room s 4;; b ← load 4 s; Some (4, signed 32 (le_val b), advance 4 s).
Definition BfxBufferReadInt64 : Read Z := λ s,
  assert_room s 8;; b ← load 8 s; Some (8, signed 64 (le_val b), advance 8 s).

(** Six bytes are asserted and consumed, but eight are read. *)
Definition BfxBufferReadUInt48 : Read Z := λ s,
  assert_room s 6;; b ← load 8 s; Some (6, Z.land (le_val b) (2 ^ 48 - 1), advance 6 s).

Definition BfxBufferReadByteArray (length : nat) : Read (list Z) := λ s,
  assert_room s length;; b ← load length s; Some (i32 (Z.of_nat length), b, advance length s).

(** The buffer, [None] for the null handle. *)
Definition BfxBufferReadByteArrayBeginWithU16Length : Read (option (list Z)) := λ s,
  assert_room s 2;;
  b ← load 2 s;
  let len := Z.to_nat (le_val b) in
  let s := advance 2 s in
  if (len =? 0)%nat then Some (2, None, s) else
  if (bs_length s <? bs_pos s + len)%nat then Some (-1, None, s) else
  b ← load len s;
  Some (2 + Z.of_nat len, Some b, advance len s).

(** ** Writing: the result code, [*pWriteBytes] and the stream *)

Definition Write : Type := BfxBufferStream → option (Z * nat * BfxBufferStream).

Definition BfxBufferWriteUInt8 (v : Z) : Write := λ s,
  assert_room s 1;; s ← store (le_bytes 1 v) s; Some (BFX_RESULT_SUCCESS, 1%nat, s).
Definition BfxBufferWriteUInt16 (v : Z) : Write := λ s,
  assert_room s 2;; s ← store (le_bytes 2 v) s; Some (BFX_RESULT_SUCCESS, 2%nat, s).
Definition BfxBufferWriteUInt32 (v : Z) : Write := λ s,
  assert_room s 4;; s ← store (le_bytes 4 v) s; Some (BFX_RESULT_SUCCESS, 4%nat, s).
Definition BfxBufferWriteUInt64 (v : Z) : Write := λ s,
  assert_room s 8;; s ← store (le_bytes 8 v) s; Some (BFX_RESULT_SUCCESS, 8%nat, s).
Definition BfxBufferWriteInt8 (v : Z) : Write := λ s,
  assert_room s 1;; s ← store (le_bytes 1 v) s; Some (BFX_RESULT_SUCCESS, 1%nat, s).
Definition BfxBufferWriteInt16 (v : Z) : Write := λ s,
  assert_room s 2;; s ← store (le_bytes 2 v) s; Some (BFX_RESULT_SUCCESS, 2%nat, s).
Definition BfxBufferWriteInt32 (v : Z) : Write := λ s,
  assert_room s 4;; s ← store (le_bytes 4 v) s; Some (BFX_RESULT_SUCCESS, 4%nat, s).
Definition BfxBufferWriteInt64 (v : Z) : Write := λ s,
  assert_room s 8;; s ← store (le_bytes 8 v) s; Some (BFX_RESULT_SUCCESS, 8%nat, s).

Definition BfxBufferWriteUInt48 (v : Z) : Write := λ s,
  assert_room s 6;;
  s ← store (le_bytes 4 (Z.land v (2 ^ 32 - 1))) s;
  s ← store (le_bytes 2 (Z.land (Z.shiftr v 32) (2 ^ 16 - 1))) s;
  Some (BFX_RESULT_SUCCESS, 6%nat, s).

(** The caller counts the bytes of an array itself. *)
Definition BfxBufferWriteByteArray (input : list Z) : Write := λ s,
  assert_room s (length input);; s ← store input s; Some (BFX_RESULT_SUCCESS, length input, s).

(** [None] is the null handle, whose data [BfxBufferGetData] asserts not to be
    asked for. *)
Definition BfxBufferWriteByteArrayBeginWithU16Length (hBuffer : option (list Z)) : Write := λ s,
  input ← hBuffer;
  guard (Z.of_nat (length input) < 65535);;
  assert_room s (length input + 2);;
  s ← store (le_bytes 2 (Z.of_nat (length input))) s;
  s ← store input s;
  Some (BFX_RESULT_SUCCESS, (2 + length input)%nat, s).

(** ** Facts *)

Lemma length_le_bytes n v : length (le_bytes n v) = n.
Proof. revert v. induction n as [|n IH]; intros v; simpl; [done|]. by rewrite IH. Qed.

Lemma le_val_bytes n v : le_val (le_bytes n v) = v mod 2 ^ (8 * Z.of_nat n).
Proof.
  revert v. induction n as [|n IH]; intros v; cbn [le_bytes le_val].
  { change (2 ^ (8 * Z.of_nat 0)) with 1. by rewrite Z.mod_1_r. }
  rewrite IH. replace (8 * Z.of_nat (S n)) with (8 + 8 * Z.of_nat n) by lia.
  rewrite Z.pow_add_r by lia. change (2 ^ 8) with 256.
  rewrite (Z.rem_mul_r v 256) by lia. lia.
Qed.

Lemma le_bytes_app n k v : le_bytes (n + k) v = le_bytes n v ++ le_bytes k (v / 2 ^ (8 * Z.of_nat n)).
Proof.
  revert v. induction n as [|n IH]; intros v; cbn [le_bytes Nat.add app].
  - change (2 ^ (8 * Z.of_nat 0)) with 1. by rewrite Z.div_1_r.
  - rewrite IH. do 3 f_equal. rewrite Z.div_div by lia. f_equal.
    change 256 with (2 ^ 8). rewrite <- Z.pow_add_r by lia. f_equal. lia.
Qed.

Lemma le_bytes_mod n v : le_bytes n (v mod 2 ^ (8 * Z.of_nat n)) = le_bytes n v.
Proof.
  revert v. induction n as [|n IH]; intros v; cbn [le_bytes]; [done|].
  replace (8 * Z.of_nat (S n)) with (8 + 8 * Z.of_nat n) by lia.
  rewrite Z.pow_add_r by lia. change (2 ^ 8) with 256.
  assert (0 < 2 ^ (8 * Z.of_nat n)) by lia.
  rewrite (Z.rem_mul_r v 256) by lia. f_equal.
  - rewrite (Z.mul_comm 256), Z.mod_add, Z.mod_mod by lia. done.
  - rewrite (Z.mul_comm 256), Z.div_add, (Z.div_small (v mod 256)) by (try apply Z.mod_pos_bound; lia).
    rewrite Z.add_0_l. apply IH.
Qed.

Lemma le_val_app a b : le_val (a ++ b) = le_val a + 2 ^ (8 * Z.of_nat (length a)) * le_val b.
Proof.
  induction a as [|x a IH]; cbn [app le_val length].
  - change (2 ^ (8 * Z.of_nat 0)) with 1. lia.
  - rewrite IH. replace (8 * Z.of_nat (S (length a))) with (8 + 8 * Z.of_nat (length a)) by lia.
    rewrite Z.pow_add_r by lia. change (2 ^ 8) with 256. lia.
Qed.

(** Two writes one after the other are one write. *)
Lemma written_app a b s :
  (bs_pos s + length a + length b ≤ length (bs_buffer s))%nat → written b (written a s) = written (a ++ b) s.
Proof.
  intros H. unfold written. cbn [bs_buffer bs_length bs_pos].
  rewrite length_app, Nat.add_assoc. f_equal.
  rewrite !app_assoc. f_equal.
  - f_equal. apply take_app_length'. rewrite length_app, length_take. lia.
  - rewrite drop_app_ge by (rewrite !length_app, length_take; lia).
    rewrite drop_drop. f_equal. rewrite !length_app, length_take. lia.
Qed.

(** Writing at an earlier position up to where another write began. *)
Lemma written_before a b s q :
  bs_pos s = (q + length a)%nat → (bs_pos s + length b ≤ length (bs_buffer s))%nat →
  bs_buffer (written a (mkStream (bs_buffer (written b s)) (bs_length s) q)) =
  bs_buffer (written (a ++ b) (mkStream (bs_buffer s) (bs_length s) q)).
Proof.
  intros Hp H. unfold written. cbn [bs_buffer bs_length bs_pos]. rewrite Hp in *.
  rewrite take_app_le by (rewrite length_take; lia).
  rewrite take_take, Nat.min_l, <- app_assoc by lia. f_equal. f_equal.
  rewrite drop_app_length' by (rewrite length_take; lia). rewrite length_app, Nat.add_assoc. done.
Qed.

Lemma length_written bs s :
  (bs_pos s + length bs ≤ length (bs_buffer s))%nat → length (bs_buffer (written bs s)) = length (bs_buffer s).
Proof. intros H. unfold written. simpl. rewrite !length_app, length_take, length_drop. lia. Qed.

(** The bytes a stream reads next. *)
Definition reads (s : BfxBufferStream) (bs rest : list Z) : Prop :=
  (bs_pos s ≤ length (bs_buffer s))%nat ∧ drop (bs_pos s) (bs_buffer s) = bs ++ rest.

Lemma reads_length s bs rest :
  reads s bs rest → length (bs_buffer s) = (bs_pos s + length bs + length rest)%nat.
Proof. intros [H E]. apply (f_equal length) in E. rewrite length_drop, length_app in E. lia. Qed.

Lemma reads_advance s a b rest : reads s (a ++ b) rest → reads (advance (length a) s) b rest.
Proof.
  intros Hr. pose proof (reads_length _ _ _ Hr) as Hl. rewrite length_app in Hl. destruct Hr as [H E].
  split; simpl; [lia|]. rewrite <- drop_drop, E, <- app_assoc. by apply drop_app_length'.
Qed.

Lemma reads_weaken s a b rest : reads s (a ++ b) rest → reads s a (b ++ rest).
Proof. intros [H E]. split; [done|]. by rewrite E, app_assoc. Qed.

Lemma load_reads s bs rest : reads s bs rest → load (length bs) s = Some bs.
Proof.
  intros Hr. pose proof (reads_length _ _ _ Hr). destruct Hr as [_ E]. unfold load.
  rewrite option_guard_True by lia. simpl. by rewrite E, take_app_length.
Qed.

Lemma load_reads_n n s bs rest : reads s bs rest → length bs = n → load n s = Some bs.
Proof. intros H <-. by eapply load_reads. Qed.

Lemma written_reads bs s :
  (bs_pos s + length bs ≤ length (bs_buffer s))%nat →
  reads (mkStream (bs_buffer (written bs s)) (bs_length s) (bs_pos s)) bs
    (drop (bs_pos s + length bs) (bs_buffer s)).
Proof.
  intros H. split; simpl.
  - rewrite !length_app, length_take. lia.
  - rewrite drop_app_length'; [done|]. rewrite length_take. lia.
Qed.

Lemma assert_room_ok s n : (bs_pos s + n ≤ bs_length s)%nat → assert_room s n = Some tt.
Proof. intros H. unfold assert_room. by rewrite option_guard_True. Qed.

Lemma assert_room_fail s n : (bs_length s < bs_pos s + n)%nat → assert_room s n = None.
Proof. intros H. unfold assert_room. by rewrite option_guard_False by lia. Qed.

Lemma store_ok bs s : (bs_pos s + length bs ≤ length (bs_buffer s))%nat → store bs s = Some (written bs s).
Proof. intros H. unfold store. by rewrite option_guard_True. Qed.
