(* ===== verification/HashTable.v ===== *)
(** * [BfxHashTable]: the chained hash table

    Models [BuckyBase/Coll/hash.c] on the pointer heap of [DList]: the table is
    an array of [dim] list heads, zeroed by [BfxHashTableInit] and linked to
    themselves once they have been used, and an item is chained into the ring
    of the head its hash selects.  The hash and compare callbacks are
    parameters; [HashLaws] is what a table asks of them.  The reference
    definition is a plain list of the items, newest first, searched from its
    start ([ref_op]); [hash_run_is_list_run] shows the table answers as it
    does, and [iteration_never_ends] that [BfxHashTableNext] never reports the
    end of a table that holds something. *)

From S2P Require Import Prelude DList.

(** ** The table *)

(** [count] lives in the heap at [taddr]; items and heads are counted in units
    of [BfxListItem], so the head of bucket [i] is [hashVec + i]. *)
Record BfxHashTable := HashTable { taddr : Z; hashVec : Z; dim : Z }.

(** A pointer field that may be NULL. *)
Definition rd_next_opt (x : Z) : M heap (option Z) := λ h, Some (hnext h !! x, h).
Definition rd_prev_opt (x : Z) : M heap (option Z) := λ h, Some (hprev h !! x, h).

(** [memset(hashVec, 0, sizeof(BfxListItem) * dim)] *)
Fixpoint zero_items (p : Z) (n : nat) : M heap unit :=
  match n with
  | O => mret tt
  | S n => wr_null p ;; zero_items (p + 1) n
  end.

(** [block] is what the allocator answers.  The count is left as it was. *)
Definition BfxHashTableInit (taddr : Z) (block : option Z) (dim : Z) : M heap (Z * option BfxHashTable) :=
  match block with
  | None => mret (BFX_RESULT_FAILED, None)
  | Some base =>
      zero_items base (Z.to_nat dim) ;;
      mret (0, Some (HashTable taddr base dim))
  end.

Definition BfxHashTableUninit (T : BfxHashTable) : M heap BfxHashTable :=
  zero_items (hashVec T) (Z.to_nat (dim T)) ;;
  wr_count (taddr T) 0 ;;
  mret (HashTable (taddr T) 0 0).

Definition isInPlace (T : BfxHashTable) (item : Z) : bool :=
  bool_decide (hashVec T ≤ item) && bool_decide (item < hashVec T + dim T).

Definition BfxHashTableGetCount (T : BfxHashTable) : M heap Z := rd_count (taddr T).

Definition listInsertAfter (T : BfxHashTable) (pos item : Z) : M heap unit :=
  n ← rd_next_opt pos;
  (match n with
   | Some n =>
       wr_next item n ;;
       wr_prev item pos ;;
       n ← rd_next pos;
       wr_prev n item ;;
       wr_next pos item
   | None =>
       wr_prev item pos ;;
       wr_next item pos ;;
       wr_prev pos item ;;
       wr_next pos item
   end) ;;
  c ← rd_count (taddr T);
  wr_count (taddr T) (c + 1).

Definition listRemoveItem (T : BfxHashTable) (item : Z) : M heap unit :=
  massert (negb (isInPlace T item)) ;;
  n ← rd_next item;
  p ← rd_prev item;
  wr_prev n p ;;
  p ← rd_prev item;
  n ← rd_next item;
  wr_next p n ;;
  wr_null item ;;
  c ← rd_count (taddr T);
  massert (bool_decide (0 < c)) ;;
  wr_count (taddr T) (c - 1).

Definition BfxHashTableRemoveUnsafe (T : BfxHashTable) (item : Z) : M heap Z :=
  listRemoveItem T item ;; mret 0.

(** The scan for a head whose ring is not empty, over the [n] heads from [it]. *)
Fixpoint scan_heads (n : nat) (it : Z) : M heap (option Z) :=
  match n with
  | O => mret None
  | S n =>
      nx ← rd_next_opt it;
      match nx with
      | Some y =>
          if decide (y = it) then scan_heads n (it + 1)
          else
            p ← rd_prev_opt it;
            massert (match p with Some p => bool_decide (p ≠ it) | None => false end) ;;
            mret (Some y)
      | None => scan_heads n (it + 1)
      end
  end.

Definition BfxHashTableFirst (T : BfxHashTable) : M heap (option Z) :=
  scan_heads (Z.to_nat (dim T)) (hashVec T).

Definition BfxHashTableNext (T : BfxHashTable) (it : Z) : M heap (option Z) :=
  it ← rd_next it;
  if isInPlace T it then scan_heads (Z.to_nat (hashVec T + dim T - it)) it
  else mret (Some it).

Definition BfxHashTableClear (T : BfxHashTable) : M heap unit :=
  zero_items (hashVec T) (Z.to_nat (dim T)) ;;
  wr_count (taddr T) 0.

Section callbacks.
Context (hashFunc : Z → Z) (compareFunc : Z → Z → Z).

(** The place an item is chained to. *)
Definition place (T : BfxHashTable) (item : Z) : Z := hashVec T + hashFunc item mod dim T.

Definition calcPlace (T : BfxHashTable) (item : Z) : M heap Z :=
  massert (bool_decide (dim T ≠ 0)) ;; mret (place T item).

Fixpoint find_loop (fuel : nat) (head item : Z) (it : option Z) : M heap (option Z) :=
  match fuel with
  | O => mfault
  | S fuel =>
      match it with
      | None => mret None
      | Some it =>
          if decide (it = head) then mret None
          else if decide (compareFunc it item = 0) then mret (Some it)
          else (n ← rd_next_opt it; find_loop fuel head item n)
      end
  end.

Definition listFind (head item : Z) : M heap (option Z) := λ h,
  (it ← rd_next_opt head; find_loop (S (size (hnext h))) head item it) h.

Definition BfxHashTableAdd (T : BfxHashTable) (item : Z) : M heap unit :=
  p ← calcPlace T item; listInsertAfter T p item.

Definition BfxHashTableAddIfNotMember (T : BfxHashTable) (item : Z) : M heap (Z * option Z) :=
  p ← calcPlace T item;
  c ← listFind p item;
  match c with
  | Some cur => mret (BFX_RESULT_ALREADY_EXISTS, Some cur)
  | None => listInsertAfter T p item ;; mret (0, None)
  end.

Definition BfxHashTableRemove (T : BfxHashTable) (item : Z) : M heap Z :=
  p ← calcPlace T item;
  c ← listFind p item;
  match c with
  | None => mret BFX_RESULT_NOT_FOUND
  | Some cur => listRemoveItem T cur ;; mret 0
  end.

Definition BfxHashTableFind (T : BfxHashTable) (item : Z) : M heap (Z * option Z) :=
  p ← calcPlace T item;
  c ← listFind p item;
  match c with
  | None => mret (BFX_RESULT_NOT_FOUND, None)
  | Some cur => mret (0, Some cur)
  end.

(** ** The reference definition

    The items of the table, newest first. *)

Inductive hash_op :=
  | HAdd (x : Z) | HAddIfNotMember (x : Z) | HRemove (key : Z) | HRemoveUnsafe (x : Z)
  | HFind (key : Z) | HGetCount | HClear.

Inductive hash_res := RDone | RCode (code : Z) (cur : option Z) | RCount (n : Z).

Definition hash_do (T : BfxHashTable) (o : hash_op) : M heap hash_res :=
  match o with
  | HAdd x => BfxHashTableAdd T x ;; mret RDone
  | HAddIfNotMember x => r ← BfxHashTableAddIfNotMember T x; mret (RCode r.1 r.2)
  | HRemove x => c ← BfxHashTableRemove T x; mret (RCode c None)
  | HRemoveUnsafe x => c ← BfxHashTableRemoveUnsafe T x; mret (RCode c None)
  | HFind x => r ← BfxHashTableFind T x; mret (RCode r.1 r.2)
  | HGetCount => n ← BfxHashTableGetCount T; mret (RCount n)
  | HClear => BfxHashTableClear T ;; mret RDone
  end.

Fixpoint hash_run (T : BfxHashTable) (os : list hash_op) : M heap (list hash_res) :=
  match os with
  | [] => mret []
  | o :: os => r ← hash_do T o; rs ← hash_run T os; mret (r :: rs)
  end.

Definition ref_find (key : Z) (xs : list Z) : option Z :=
  head (filter (λ y, compareFunc y key = 0) xs).

Definition ref_op (o : hash_op) (xs : list Z) : hash_res * list Z :=
  match o with
  | HAdd x => (RDone, x :: xs)
  | HAddIfNotMember x =>
      match ref_find x xs with
      | Some y => (RCode BFX_RESULT_ALREADY_EXISTS (Some y), xs)
      | None => (RCode 0 None, x :: xs)
      end
  | HRemove k =>
      match ref_find k xs with
      | Some y => (RCode 0 None, filter (.≠ y) xs)
      | None => (RCode BFX_RESULT_NOT_FOUND None, xs)
      end
  | HRemoveUnsafe x => (RCode 0 None, filter (.≠ x) xs)
  | HFind k =>
      match ref_find k xs with
      | Some y => (RCode 0 (Some y), xs)
      | None => (RCode BFX_RESULT_NOT_FOUND None, xs)
      end
  | HGetCount => (RCount (Z.of_nat (length xs)), xs)
  | HClear => (RDone, [])
  end.

Fixpoint ref_run (os : list hash_op) (xs : list Z) : list hash_res * list Z :=
  match os with
  | [] => ([], xs)
  | o :: os => let '(r, ys) := ref_op o xs in
               let '(rs, zs) := ref_run os ys in (r :: rs, zs)
  end.

(** What a caller must not do: add an item that is already chained, or one of
    the heads, or remove by address an item that is not chained. *)
Definition permitted (T : BfxHashTable) (xs : list Z) (o : hash_op) : Prop :=
  match o with
  | HAdd x | HAddIfNotMember x => x ∉ xs ∧ isInPlace T x = false
  | HRemoveUnsafe x => x ∈ xs
  | _ => True
  end.

Fixpoint all_permitted (T : BfxHashTable) (xs : list Z) (os : list hash_op) : Prop :=
  match os with
  | [] => True
  | o :: os => permitted T xs o ∧ all_permitted T (ref_op o xs).2 os
  end.

(** Items that compare equal hash alike. *)
Class HashLaws : Prop := hash_compat x y : compareFunc x y = 0 → hashFunc x = hashFunc y.

(** ** The representation *)

(** The ring of head [p]: never used, or linked through [xs]. *)
Definition bucket_ok (nx pv : gmap Z Z) (p : Z) (xs : list Z) : Prop :=
  (xs = [] ∧ nx !! p = None ∧ pv !! p = None) ∨ linked nx pv p xs p.

Definition bucket (T : BfxHashTable) (p : Z) (xs : list Z) : list Z :=
  filter (λ x, place T x = p) xs.

Definition in_heads (T : BfxHashTable) (p : Z) : Prop := hashVec T ≤ p < hashVec T + dim T.

Definition is_table (T : BfxHashTable) (h : heap) (xs : list Z) : Prop :=
  0 < dim T ∧ hcount h !! taddr T = Some (Z.of_nat (length xs)) ∧
  NoDup xs ∧ (∀ x, x ∈ xs → ¬ in_heads T x) ∧
  ∀ p, in_heads T p → bucket_ok (hnext h) (hprev h) p (bucket T p xs).

Lemma isInPlace_spec T x : isInPlace T x = bool_decide (in_heads T x).
Proof.
  unfold isInPlace. symmetry. unfold in_heads. rewrite <- bool_decide_and. done.
Qed.

Lemma place_in_heads T x : 0 < dim T → in_heads T (place T x).
Proof. intros H. unfold in_heads, place. pose proof (Z.mod_pos_bound (hashFunc x) (dim T)). lia. Qed.

Lemma elem_of_bucket T p xs x : x ∈ bucket T p xs ↔ place T x = p ∧ x ∈ xs.
Proof. unfold bucket. by rewrite list_elem_of_filter. Qed.

(** ** Finding an item *)

Lemma find_loop_spec h p item xs a fuel :
  linked (hnext h) (hprev h) a xs p → p ∉ xs → (length xs < fuel)%nat →
  find_loop fuel p item (Some (hd_or p xs)) h = Some (ref_find item xs, h).
Proof.
  revert a fuel. induction xs as [|x xs IH]; intros a fuel Hl Hni Hf;
    (destruct fuel as [|fuel]; [simpl in *; lia|]); unfold ref_find.
  - simpl. by rewrite decide_True.
  - rewrite hd_or_cons. cbn [find_loop].
    rewrite decide_False by set_solver. destruct (decide (compareFunc x item = 0)) as [Hx|Hx].
    + by rewrite filter_cons_True.
    + rewrite filter_cons_False by done. simpl in Hl. destruct Hl as (_ & _ & Hl).
      unfold rd_next_opt. erewrite M_bind_Some by reflexivity. cbn beta.
      rewrite (linked_next _ _ _ _ _ Hl). apply not_elem_of_cons in Hni as [_ Hni].
      simpl in Hf. apply (IH x); [done..|lia].
Qed.

Lemma listFind_spec h p item xs :
  bucket_ok (hnext h) (hprev h) p xs → NoDup (p :: xs) →
  listFind p item h = Some (ref_find item xs, h).
Proof.
  intros [(-> & Hn & _)|Hl] Hnd; unfold listFind, rd_next_opt;
    (erewrite M_bind_Some by reflexivity); cbn beta.
  - by rewrite Hn.
  - rewrite (linked_next _ _ _ _ _ Hl). apply (find_loop_spec _ _ _ _ p); [done|by inversion Hnd|].
    pose proof (linked_length _ _ _ _ _ Hnd Hl). lia.
Qed.

(** An item that compares equal to the key can only be in the key's bucket. *)
Lemma ref_find_bucket `{!HashLaws} T item xs :
  ref_find item (bucket T (place T item) xs) = ref_find item xs.
Proof.
  unfold ref_find, bucket. f_equal. rewrite list_filter_filter.
  apply list_filter_iff. intros y. split; [by intros [? _]|]. intros Hy. split; [done|].
  unfold place. by rewrite (hash_compat _ _ Hy).
Qed.

Lemma ref_find_Some item xs y : ref_find item xs = Some y → y ∈ xs ∧ compareFunc y item = 0.
Proof.
  unfold ref_find. intros H%head_Some_elem_of. apply list_elem_of_filter in H as [? ?]. done.
Qed.

Lemma table_ring T h xs p :
  is_table T h xs → in_heads T p → NoDup (p :: bucket T p xs).
Proof.
  intros (_ & _ & Hnd & Hni & _) Hp. apply NoDup_cons. split.
  - intros Hx%elem_of_bucket. destruct Hx as [_ Hx]. by apply Hni in Hx.
  - unfold bucket. by apply NoDup_filter.
Qed.

Lemma table_find `{!HashLaws} T h xs item :
  is_table T h xs → listFind (place T item) item h = Some (ref_find item xs, h).
Proof.
  intros Ht. pose proof Ht as (Hd & _ & _ & _ & Hb). pose proof (place_in_heads T item Hd) as Hp.
  rewrite (listFind_spec h (place T item) item (bucket T (place T item) xs)).
  - by rewrite ref_find_bucket.
  - by apply Hb.
  - by eapply table_ring.
Qed.

Lemma calcPlace_spec T item h : 0 < dim T → calcPlace T item h = Some (place T item, h).
Proof.
  intros Hd. unfold calcPlace. erewrite M_bind_Some; [|apply massert_Some]; [done|].
  apply bool_decide_eq_true_2. lia.
Qed.

(** ** Chaining and unchaining an item *)

Lemma bucket_ok_agree nx pv nx' pv' p xs :
  (∀ y, y ∈ p :: xs → nx' !! y = nx !! y ∧ pv' !! y = pv !! y) →
  bucket_ok nx pv p xs → bucket_ok nx' pv' p xs.
Proof.
  intros Ha [(-> & Hn & Hp)|Hl].
  - left. destruct (Ha p) as [-> ->]; [by left|done].
  - right. eapply linked_agree; [..|exact Hl]; intros y Hy; by apply Ha.
Qed.

Lemma link_front nx pv p xs x (n := hd_or p xs) :
  NoDup (p :: xs) → x ∉ p :: xs → bucket_ok nx pv p xs →
  linked (<[p := x]> (<[x := n]> nx)) (<[n := x]> (<[x := p]> pv)) p (x :: xs) p.
Proof.
  intros Hnd Hx Hb. apply not_elem_of_cons in Hx as [Hxp Hx].
  assert (Hn : n ∈ p :: xs) by (pose proof (hd_or_elem p xs); set_solver).
  assert (Hxn : x ≠ n) by (intros ->; apply elem_of_cons in Hn as [?|?]; done).
  apply NoDup_cons in Hnd as [Hpx Hnd].
  cbn [linked]. rewrite lookup_insert_eq, (lookup_insert_ne _ n x), lookup_insert_eq by done.
  split; [done|split; [done|]]. destruct xs as [|y xs].
  - cbn [linked]. unfold n, hd_or. simpl. by simplify_map_eq.
  - destruct Hb as [(? & _)|Hl]; [done|]. subst n. rewrite hd_or_cons in *.
    cbn [linked] in *. destruct Hl as (_ & _ & Hl).
    apply not_elem_of_cons in Hx as [Hxy Hx]. apply not_elem_of_cons in Hpx as [Hpy Hpx].
    apply NoDup_cons in Hnd as [Hy Hnd].
    split; [by rewrite lookup_insert_ne, lookup_insert_eq by done|].
    split; [by rewrite lookup_insert_eq|].
    eapply linked_agree; [..|exact Hl]; intros z Hz; apply elem_of_cons in Hz;
      by rewrite !lookup_insert_ne by (intros ->; naive_solver).
Qed.

Lemma unlink_item nx pv p xs1 x xs2 (e := last_or p xs1) (n := hd_or p xs2) :
  NoDup (p :: xs1 ++ x :: xs2) → linked nx pv p (xs1 ++ x :: xs2) p →
  linked (delete x (<[e := n]> nx)) (delete x (<[n := e]> pv)) p (xs1 ++ xs2) p.
Proof.
  intros Hnd Hl. pose proof (linked_suffix _ _ _ _ _ _ Hl) as Hsuf. fold e in Hsuf.
  simpl in Hsuf. destruct Hsuf as (_ & _ & Hsuf).
  assert (Hx : x ≠ p ∧ x ∉ xs1 ∧ x ∉ xs2 ∧ NoDup (p :: xs1 ++ xs2)).
  { revert Hnd. rewrite <- Permutation_middle, Permutation_swap, NoDup_cons.
    rewrite not_elem_of_cons, not_elem_of_app. tauto. }
  destruct Hx as (Hxp & Hx1 & Hx2 & Hnd').
  destruct (ring_cut _ _ _ Hnd') as (Hnd1 & Hnd2 & He2 & Hn1). fold e in He2. fold n in Hn1.
  assert (He : x ≠ e) by (pose proof (last_or_elem p xs1); set_solver).
  assert (Hn : x ≠ n) by (pose proof (hd_or_elem p xs2); set_solver).
  eapply linked_replace; [done|exact Hl|..]; fold e.
  - rewrite <- (app_nil_l xs2). apply linked_join; simpl.
    + fold n. by rewrite !lookup_delete_ne, !lookup_insert_eq by done.
    + apply linked_tail in Hsuf. destruct xs2 as [|y xs2]; [done|].
      assert (n = y) as Hny by done.
      apply NoDup_cons in Hnd2 as [Hp2 Hnd2]. apply NoDup_cons in Hnd2 as [Hy Hnd2].
      eapply linked_agree; [..|exact Hsuf]; intros z Hz;
        (rewrite lookup_delete_ne by set_solver); rewrite lookup_insert_ne; [done| |done|];
        intros ->; set_solver.
  - intros y Hy Hne. rewrite lookup_delete_ne by set_solver. by rewrite lookup_insert_ne.
  - intros y Hy. rewrite lookup_delete_ne by set_solver. rewrite lookup_insert_ne; [done|].
    intros <-. done.
Qed.

(** Two rings share no address. *)
Lemma rings_apart T h xs p q y z :
  is_table T h xs → in_heads T p → in_heads T q → p ≠ q →
  y ∈ p :: bucket T p xs → z ∈ q :: bucket T q xs → y ≠ z.
Proof.
  intros (_ & _ & _ & Hni & _) Hp Hq Hpq Hy Hz ->.
  rewrite elem_of_cons, elem_of_bucket in Hy, Hz.
  destruct Hy as [->|[? Hy]], Hz as [->|[? Hz]]; [done|by apply (Hni p)|by apply (Hni q)|congruence].
Qed.

Lemma bucket_cons T p x xs :
  bucket T p (x :: xs) = if decide (place T x = p) then x :: bucket T p xs else bucket T p xs.
Proof. unfold bucket. by rewrite filter_cons. Qed.

Lemma listInsertAfter_spec T h xs x :
  is_table T h xs → x ∉ xs → ¬ in_heads T x →
  ∃ h', listInsertAfter T (place T x) x h = Some (tt, h') ∧ is_table T h' (x :: xs).
Proof.
  intros Ht Hx Hxh. pose proof Ht as (Hd & Hc & Hnd & Hni & Hb).
  set (p := place T x). assert (Hp : in_heads T p) by by apply place_in_heads.
  set (b := bucket T p xs). set (n := hd_or p b).
  assert (Hxb : x ∉ p :: b).
  { unfold b. rewrite not_elem_of_cons, elem_of_bucket. split; [|tauto].
    intros E. apply Hxh. by rewrite E. }
  assert (Hxp : x ≠ p) by set_solver.
  assert (Hn : n ∈ p :: b) by (unfold n; pose proof (hd_or_elem p b); set_solver).
  assert (Hr : ∃ h', listInsertAfter T p x h = Some (tt, h') ∧
    hnext h' = <[p := x]> (<[x := n]> (hnext h)) ∧ hprev h' = <[n := x]> (<[x := p]> (hprev h)) ∧
    hcount h' = <[taddr T := Z.of_nat (length xs) + 1]> (hcount h)).
  { unfold listInsertAfter, rd_next_opt. erewrite M_bind_Some by reflexivity. cbn beta.
    destruct (Hb p Hp) as [(Hbe & Hn' & _)|Hl].
    - rewrite Hn'. unfold n, b, hd_or. rewrite Hbe. simpl.
      eexists. split.
      { erewrite M_bind_Some by reflexivity. cbn beta. dunf. drun1 ltac:(exact Hc). reflexivity. }
      by split_and!.
    - pose proof (linked_next _ _ _ _ _ Hl) as Hn'. fold b n in Hn'. rewrite Hn'.
      eexists. split.
      { erewrite M_bind_Some.
        2:{ dunf. do 2 drun1 dlook. drun1 ltac:(rewrite lookup_insert_ne by done; exact Hn').
            drun1 dlook. reflexivity. }
        cbn beta. dunf. drun1 ltac:(exact Hc). reflexivity. }
      by split_and!. }
  destruct Hr as (h' & Hr & En & Ep & Ec). exists h'. split; [done|].
  split; [done|]. rewrite Ec, lookup_insert_eq. cbn [length]. split; [f_equal; lia|].
  split; [by apply NoDup_cons|]. split.
  { intros y Hy. apply elem_of_cons in Hy as [->|Hy]; [done|by apply Hni]. }
  intros q Hq. rewrite bucket_cons, En, Ep. fold p. case_decide as Hpq.
  - subst q. right. apply link_front; [by eapply table_ring|done|by apply Hb].
  - eapply bucket_ok_agree; [|by apply Hb]. intros y Hy.
    assert (y ≠ x).
    { intros ->. apply elem_of_cons in Hy as [->|Hy%elem_of_bucket]; [done|tauto]. }
    assert (Hap : ∀ z, z ∈ p :: b → y ≠ z).
    { intros z Hz. by eapply (rings_apart T h xs q p). }
    assert (y ≠ p) by (apply Hap; by left). assert (y ≠ n) by by apply Hap.
    by rewrite !lookup_insert_ne by done.
Qed.

Lemma bucket_filter T p x xs : bucket T p (filter (.≠ x) xs) = filter (.≠ x) (bucket T p xs).
Proof.
  unfold bucket. rewrite !list_filter_filter. apply list_filter_iff. tauto.
Qed.

Lemma length_filter_ne (x : Z) xs :
  NoDup xs → x ∈ xs → Z.of_nat (length (filter (.≠ x) xs)) = Z.of_nat (length xs) - 1.
Proof.
  intros Hnd (xs1 & xs2 & ->)%list_elem_of_split.
  rewrite <- Permutation_middle, NoDup_cons, not_elem_of_app in Hnd.
  rewrite filter_ne_app by tauto. rewrite !length_app. simpl. lia.
Qed.

Lemma listRemoveItem_spec T h xs x :
  is_table T h xs → x ∈ xs →
  ∃ h', listRemoveItem T x h = Some (tt, h') ∧ is_table T h' (filter (.≠ x) xs).
Proof.
  intros Ht Hx. pose proof Ht as (Hd & Hc & Hnd & Hni & Hb).
  set (p := place T x). assert (Hp : in_heads T p) by by apply place_in_heads.
  assert (Hxb : x ∈ bucket T p xs) by by rewrite elem_of_bucket.
  pose proof (table_ring _ _ _ _ Ht Hp) as Hndb.
  pose proof Hxb as (b1 & b2 & Eb)%list_elem_of_split.
  destruct (Hb p Hp) as [(Hbe & _)|Hl]; [rewrite Hbe in Hxb; by apply elem_of_nil in Hxb|].
  rewrite Eb in Hl, Hndb. pose proof (unlink_item _ _ _ _ _ _ Hndb Hl) as Hl'.
  pose proof (linked_suffix _ _ _ _ _ _ Hl) as Hsuf. simpl in Hsuf.
  destruct Hsuf as (Hnp & Hpx & Hsuf). pose proof (linked_next _ _ _ _ _ Hsuf) as Hnx.
  set (e := last_or p b1) in *. set (n := hd_or p b2) in *.
  assert (Hxb12 : x ∉ p :: b1 ++ b2).
  { revert Hndb. rewrite <- Permutation_middle, Permutation_swap, NoDup_cons. tauto. }
  assert (He : e ∈ p :: b1 ++ b2).
  { pose proof (last_or_elem p b1) as H. fold e in H. set_solver. }
  assert (Hn : n ∈ p :: b1 ++ b2).
  { pose proof (hd_or_elem p b2) as H. fold n in H. set_solver. }
  assert (x ≠ e ∧ x ≠ n) as [Hxe Hxn] by (split; intros E; apply Hxb12; by rewrite E).
  eexists. split.
  { unfold listRemoveItem. rewrite isInPlace_spec. dunf.
    drun1 ltac:(rewrite bool_decide_eq_false_2; [done|by apply Hni]).
    drun1 ltac:(exact Hnx). drun1 ltac:(exact Hpx). drun1 dlook.
    drun1 ltac:(rewrite lookup_insert_ne by done; exact Hpx). drun1 ltac:(exact Hnx).
    drun1 dlook. drun1 dlook. drun1 ltac:(exact Hc).
    drun1 ltac:(apply bool_decide_eq_true_2; destruct xs; [by apply elem_of_nil in Hx|simpl; lia]).
    reflexivity. }
  unfold is_table. cbn [hnext hprev hcount]. split; [done|].
  rewrite lookup_insert_eq, (length_filter_ne x xs) by done.
  split; [f_equal; lia|]. split; [by apply NoDup_filter|].
  split; [intros y [_ Hy]%list_elem_of_filter; by apply Hni|].
  intros q Hq. rewrite bucket_filter. destruct (decide (p = q)) as [<-|Hpq].
  - right. rewrite Eb, filter_ne_app; [done|set_solver..].
  - rewrite filter_all by (intros y [Hy _]%elem_of_bucket ->; done).
    eapply bucket_ok_agree; [|by apply Hb]. intros y Hy.
    assert (Hap : ∀ z, z ∈ p :: bucket T p xs → y ≠ z).
    { intros z Hz. by eapply (rings_apart T h xs q p). }
    rewrite Eb in Hap. assert (y ≠ x) by (apply Hap; set_solver).
    assert (y ≠ e) by (apply Hap; set_solver). assert (y ≠ n) by (apply Hap; set_solver).
    by rewrite !lookup_delete_ne, !lookup_insert_ne by done.
Qed.

(** ** The table refines the list of its items *)

Lemma zero_items_spec p n h :
  ∃ h', zero_items p n h = Some (tt, h') ∧ hcount h' = hcount h ∧
    ∀ q, (p ≤ q < p + Z.of_nat n → hnext h' !! q = None ∧ hprev h' !! q = None) ∧
         (¬ p ≤ q < p + Z.of_nat n → hnext h' !! q = hnext h !! q ∧ hprev h' !! q = hprev h !! q).
Proof.
  revert p h. induction n as [|n IH]; intros p h; cbn [zero_items].
  { exists h. split; [done|]. split; [done|]. intros q. split; [lia|done]. }
  unfold wr_null. erewrite M_bind_Some by reflexivity. cbn beta.
  edestruct (IH (p + 1)) as (h' & Hr & Hc & Hq). exists h'. split; [exact Hr|].
  split; [by rewrite Hc|]. intros q. destruct (Hq q) as [H1 H2]. cbn [hnext hprev] in H2.
  destruct (decide (q = p)) as [->|Hqp].
  - rewrite !lookup_delete_eq in H2. split; [intros _; apply H2; lia|lia].
  - rewrite !lookup_delete_ne in H2 by done. split; intros Hr'; [apply H1; lia|apply H2; lia].
Qed.

Lemma zeroed_table T h h' :
  0 < dim T → zero_items (hashVec T) (Z.to_nat (dim T)) h = Some (tt, h') →
  ∀ p xs, in_heads T p → (∀ x, x ∉ xs) → bucket_ok (hnext h') (hprev h') p xs.
Proof.
  intros Hd Hr p xs Hp Hx. left.
  destruct (zero_items_spec (hashVec T) (Z.to_nat (dim T)) h) as (h1 & Hr1 & _ & Hq).
  rewrite Hr in Hr1. injection Hr1 as <-.
  destruct (Hq p) as [H1 _]. unfold in_heads in Hp.
  split; [|apply H1; lia]. destruct xs as [|x xs]; [done|]. exfalso. apply (Hx x). by left.
Qed.

(** The heads are zeroed; the count is whatever it was. *)
Theorem BfxHashTableInit_spec a base n h c :
  0 < n → hcount h !! a = Some c →
  ∃ h', BfxHashTableInit a (Some base) n h = Some ((0, Some (HashTable a base n)), h') ∧
    BfxHashTableGetCount (HashTable a base n) h' = Some (c, h') ∧
    (c = 0 → is_table (HashTable a base n) h' []).
Proof.
  intros Hn Hc. unfold BfxHashTableInit.
  destruct (zero_items_spec base (Z.to_nat n) h) as (h' & Hr & Hc' & _).
  exists h'. rewrite (M_bind_Some _ _ _ _ _ Hr). split; [done|]. split.
  { unfold BfxHashTableGetCount, rd_count. apply mread_Some. by rewrite Hc'. }
  intros ->. split; [done|]. split; [by rewrite Hc'|]. split; [apply NoDup_nil_2|].
  split; [intros x []%elem_of_nil|]. intros p Hp.
  eapply (zeroed_table (HashTable a base n)); [done|exact Hr|done|apply not_elem_of_nil].
Qed.

Lemma BfxHashTableClear_spec T h xs :
  is_table T h xs → ∃ h', BfxHashTableClear T h = Some (tt, h') ∧ is_table T h' [].
Proof.
  intros (Hd & Hc & _ & _ & _). unfold BfxHashTableClear.
  destruct (zero_items_spec (hashVec T) (Z.to_nat (dim T)) h) as (h' & Hr & Hc' & _).
  rewrite (M_bind_Some _ _ _ _ _ Hr). eexists. split; [reflexivity|].
  split; [done|]. split; [simpl; by rewrite lookup_insert_eq|]. split; [apply NoDup_nil_2|].
  split; [intros x []%elem_of_nil|]. intros p Hp. cbn [hnext hprev].
  apply (zeroed_table T h h'); [done|exact Hr|done|apply not_elem_of_nil].
Qed.

Lemma hash_do_is_ref_op `{!HashLaws} T h xs o :
  is_table T h xs → permitted T xs o →
  ∃ h', hash_do T o h = Some ((ref_op o xs).1, h') ∧ is_table T h' (ref_op o xs).2.
Proof.
  intros Ht Hp. pose proof Ht as (Hd & Hc & _).
  assert (Hcp : ∀ x, calcPlace T x h = Some (place T x, h)) by by intros; apply calcPlace_spec.
  destruct o as [x|x|k|x|k| |]; cbn [hash_do ref_op permitted] in *.
  - rewrite isInPlace_spec, bool_decide_eq_false in Hp. destruct Hp as [Hx Hi].
    destruct (listInsertAfter_spec T h xs x Ht Hx Hi) as (h' & Hr & Ht'). exists h'.
    split; [|done]. unfold BfxHashTableAdd, mbind, M_bind. by rewrite Hcp, Hr.
  - rewrite isInPlace_spec, bool_decide_eq_false in Hp. destruct Hp as [Hx Hi].
    destruct (listInsertAfter_spec T h xs x Ht Hx Hi) as (h' & Hr & Ht').
    unfold BfxHashTableAddIfNotMember, mbind, M_bind. rewrite Hcp, (table_find T h xs x Ht).
    destruct (ref_find x xs) as [y|]; [by exists h|]. rewrite Hr. by exists h'.
  - unfold BfxHashTableRemove, mbind, M_bind. rewrite Hcp, (table_find T h xs k Ht).
    destruct (ref_find k xs) as [y|] eqn:E; [|by exists h].
    apply ref_find_Some in E as [Hy _].
    destruct (listRemoveItem_spec T h xs y Ht Hy) as (h' & Hr & Ht'). exists h'. by rewrite Hr.
  - destruct (listRemoveItem_spec T h xs x Ht Hp) as (h' & Hr & Ht'). exists h'.
    unfold BfxHashTableRemoveUnsafe, mbind, M_bind. by rewrite Hr.
  - exists h. unfold BfxHashTableFind, mbind, M_bind. rewrite Hcp, (table_find T h xs k Ht).
    by destruct (ref_find k xs).
  - exists h. split; [|done]. unfold BfxHashTableGetCount, rd_count. by drun1 ltac:(exact Hc).
  - destruct (BfxHashTableClear_spec T h xs Ht) as (h' & Hr & Ht'). exists h'.
    by rewrite (M_bind_Some _ _ _ _ _ Hr).
Qed.

(** C13: any sequence of calls on a hash table answers what the same calls
    answer on a plain list of the items searched from the newest: the buckets,
    their rings and the lazily linked heads are not observable. *)
Theorem hash_run_is_list_run `{!HashLaws} T os xs h :
  is_table T h xs → all_permitted T xs os →
  ∃ h', hash_run T os h = Some ((ref_run os xs).1, h') ∧ is_table T h' (ref_run os xs).2.
Proof.
  revert xs h. induction os as [|o os IH]; intros xs h Ht Hp; [by exists h|].
  cbn [all_permitted] in Hp. destruct Hp as [Hp Hps].
  destruct (hash_do_is_ref_op T h xs o Ht Hp) as (h1 & Hr & Ht1).
  destruct (IH _ h1 Ht1 Hps) as (h2 & Hrs & Ht2). exists h2.
  cbn [hash_run ref_run]. rewrite (M_bind_Some _ _ _ _ _ Hr), (M_bind_Some _ _ _ _ _ Hrs).
  destruct (ref_op o xs) as [r ys]. cbn [fst snd] in *. by destruct (ref_run os ys).
Qed.

(** ** Iteration *)

Fixpoint iterate (T : BfxHashTable) (k : nat) (it : Z) : M heap (option Z) :=
  match k with
  | O => mret (Some it)
  | S k =>
      n ← BfxHashTableNext T it;
      match n with None => mret None | Some it => iterate T k it end
  end.

(** A scan stops at the first ring that is not empty. *)
Lemma scan_heads_spec T h xs n it :
  is_table T h xs → hashVec T ≤ it → it + Z.of_nat n = hashVec T + dim T →
  (∃ x, x ∈ xs ∧ it ≤ place T x) →
  ∃ p y b, in_heads T p ∧ bucket T p xs = y :: b ∧ scan_heads n it h = Some (Some y, h) ∧
    (bucket T it xs ≠ [] → p = it).
Proof.
  intros Ht. pose proof Ht as (Hd & _ & _ & _ & Hb). revert it.
  induction n as [|n IH]; intros it Hit Hn (x & Hx & Hpx); cbn [scan_heads].
  { pose proof (place_in_heads T x Hd). unfold in_heads in *. lia. }
  assert (Hih : in_heads T it) by (unfold in_heads; lia).
  unfold rd_next_opt at 1. erewrite M_bind_Some by reflexivity. cbn beta.
  destruct (bucket T it xs) as [|y b] eqn:Eb.
  - assert (Hne : place T x ≠ it).
    { intros E. assert (x ∈ bucket T it xs) as Hxb by by rewrite elem_of_bucket.
      rewrite Eb in Hxb. by apply elem_of_nil in Hxb. }
    destruct (IH (it + 1)) as (p & y & b & H1 & H2 & H3 & _); [lia|lia|exists x; split; [done|lia]|].
    exists p, y, b. split; [done|]. split; [done|]. split; [|done].
    destruct (Hb it Hih) as [(_ & -> & _)|Hl]; [done|]. rewrite Eb in Hl. destruct Hl as [-> _].
    by rewrite decide_True.
  - exists it, y, b. split; [done|]. split; [done|]. split; [|done].
    pose proof (table_ring _ _ _ _ Ht Hih) as Hnd. rewrite Eb in Hnd.
    destruct (Hb it Hih) as [(E & _)|Hl]; [congruence|]. rewrite Eb in Hl.
    pose proof (linked_prev _ _ _ _ _ Hl) as Hlp. destruct Hl as (-> & _).
    apply NoDup_cons in Hnd as [Hni _].
    rewrite decide_False by (intros ->; apply Hni; by left).
    unfold rd_prev_opt. erewrite M_bind_Some by reflexivity. cbn beta. rewrite Hlp.
    erewrite M_bind_Some; [reflexivity|]. apply massert_Some, bool_decide_eq_true_2.
    intros E. apply Hni. rewrite <- E at 1. by apply last_or_elem_ne.
Qed.

(** The successor of an item is another item of the same ring, its first one
    after its last one. *)
Lemma BfxHashTableNext_spec T h xs x :
  is_table T h xs → x ∈ xs →
  ∃ y, BfxHashTableNext T x h = Some (Some y, h) ∧ y ∈ xs ∧ place T y = place T x.
Proof.
  clear compareFunc.
  intros Ht Hx. pose proof Ht as (Hd & _ & _ & Hni & Hb).
  pose proof (place_in_heads T x Hd) as Hp.
  assert (Hxb : x ∈ bucket T (place T x) xs) by by rewrite elem_of_bucket.
  destruct (Hb _ Hp) as [(E & _)|Hl]; [rewrite E in Hxb; by apply elem_of_nil in Hxb|].
  pose proof Hxb as (b1 & b2 & Eb)%list_elem_of_split. rewrite Eb in Hl.
  apply linked_suffix in Hl as (_ & _ & Hl%linked_next).
  assert (Hgo : BfxHashTableNext T x h =
    (if isInPlace T (hd_or (place T x) b2)
     then scan_heads (Z.to_nat (hashVec T + dim T - hd_or (place T x) b2)) (hd_or (place T x) b2)
     else mret (Some (hd_or (place T x) b2))) h).
  { unfold BfxHashTableNext. dunf. drun1 ltac:(exact Hl). by destruct (isInPlace _ _). }
  rewrite Hgo, isInPlace_spec. clear Hgo. destruct b2 as [|y b2].
  - unfold hd_or; simpl. rewrite bool_decide_eq_true_2 by done.
    destruct (scan_heads_spec T h xs (Z.to_nat (hashVec T + dim T - place T x)) (place T x))
      as (p & y & b & _ & Ey & Hs & Hpp); [done|apply Hp|unfold in_heads in Hp; lia|by exists x|].
    exists y. rewrite Hpp in Ey by (rewrite Eb; by destruct b1).
    assert (Hy : y ∈ bucket T (place T x) xs) by (rewrite Ey; by left).
    apply elem_of_bucket in Hy as [? ?]. done.
  - assert (Hy : y ∈ bucket T (place T x) xs) by (rewrite Eb; set_solver).
    apply elem_of_bucket in Hy as [? ?]. exists y. rewrite hd_or_cons.
    rewrite bool_decide_eq_false_2 by by apply Hni. done.
Qed.

(** An iteration over a table that holds something never ends: however
    often [BfxHashTableNext] is called it answers an item, and always one of
    the bucket the iteration started in. *)
Theorem iteration_never_ends T h xs :
  is_table T h xs → xs ≠ [] →
  ∃ x, BfxHashTableFirst T h = Some (Some x, h) ∧
    ∀ k, ∃ y, iterate T k x h = Some (Some y, h) ∧ y ∈ xs ∧ place T y = place T x.
Proof.
  clear compareFunc.
  intros Ht Hne. pose proof Ht as (Hd & _).
  destruct (scan_heads_spec T h xs (Z.to_nat (dim T)) (hashVec T))
    as (p & x & b & _ & Ex & Hs & _); [done|lia|lia| |].
  { destruct xs as [|x xs]; [done|]. exists x. split; [by left|]. apply place_in_heads, Hd. }
  assert (Hx : x ∈ bucket T p xs) by (rewrite Ex; by left).
  apply elem_of_bucket in Hx as [_ Hx]. exists x. split; [done|]. clear Hs Ex.
  intros k. revert x Hx. induction k as [|k IH]; intros x Hx; [by exists x|].
  destruct (BfxHashTableNext_spec T h xs x Ht Hx) as (z & Hz & Hzx & Hzp).
  destruct (IH z Hzx) as (y & Hy & Hyx & Hyp). exists y.
  cbn [iterate]. rewrite (M_bind_Some _ _ _ _ _ Hz). by rewrite Hyp, Hzp.
Qed.
End callbacks.

(** ** A concrete table

    Two buckets at 100 and 101; items hash to their value and compare by
    their value modulo ten, so that 12 and 22 are the same key. *)
Definition demo_hash (x : Z) : Z := x mod 10.
Definition demo_cmp (x y : Z) : Z := x mod 10 - y mod 10.

Lemma demo_laws : HashLaws demo_hash demo_cmp.
Proof. intros x y. unfold demo_cmp, demo_hash. lia. Qed.

Definition demo_table : BfxHashTable := HashTable 1 100 2.
Definition demo_fresh : heap := Heap ∅ ∅ {[1 := 0]}.

Lemma demo_empty : is_table demo_hash demo_table demo_fresh [].
Proof.
  split; [done|]. split; [done|]. split; [apply NoDup_nil_2|].
  split; [intros x []%elem_of_nil|]. intros p _. by left.
Qed.

Lemma hash_run_is_list_run_witness :
  ∃ h', hash_run demo_hash demo_cmp demo_table
          [HAdd 12; HAdd 5; HAddIfNotMember 22; HFind 32; HRemove 2; HFind 12; HGetCount] demo_fresh
        = Some ([RDone; RDone; RCode BFX_RESULT_ALREADY_EXISTS (Some 12); RCode 0 (Some 12);
                 RCode 0 None; RCode BFX_RESULT_NOT_FOUND None; RCount 1], h') ∧
        is_table demo_hash demo_table h' [5].
Proof.
  refine (@hash_run_is_list_run demo_hash demo_cmp demo_laws demo_table
    [HAdd 12; HAdd 5; HAddIfNotMember 22; HFind 32; HRemove 2; HFind 12; HGetCount] []
    demo_fresh demo_empty _).
  by apply (bool_decide_unpack _).
Defined.

Definition demo_two : heap :=
  Heap (list_to_map [(100, 12); (12, 100); (101, 5); (5, 101)])
       (list_to_map [(100, 12); (12, 100); (101, 5); (5, 101)]) {[1 := 2]}.

Lemma demo_two_table : is_table demo_hash demo_table demo_two [12; 5].
Proof.
  split; [done|]. split; [done|]. split; [by apply (bool_decide_unpack _)|]. split.
  - intros x Hx. unfold in_heads. cbn [hashVec dim demo_table].
    repeat (apply elem_of_cons in Hx as [->|Hx]; [lia|]). by apply elem_of_nil in Hx.
  - intros p Hp. unfold in_heads in Hp. cbn [hashVec dim demo_table] in Hp. right.
    assert (p = 100 ∨ p = 101) as [-> | ->] by lia; by vm_compute.
Qed.

Lemma iteration_never_ends_witness :
  ∃ x, BfxHashTableFirst demo_table demo_two = Some (Some x, demo_two) ∧
    ∀ k, ∃ y, iterate demo_table k x demo_two = Some (Some y, demo_two) ∧ y ∈ [12; 5] ∧
      place demo_hash demo_table y = place demo_hash demo_table x.
Proof.
  apply (iteration_never_ends demo_hash demo_table demo_two [12; 5] demo_two_table). discriminate.
Defined.
