(* ===== verification/SgTree.v ===== *)
(** * The red-black trees of SGLib

    Models the tree macros of [SGLib/SGLib.h] that
    [SGLIB_DEFINE_RBTREE_FUNCTIONS] instantiates for the maps of the stack
    (keys by hash, peers, tunnels, connections, call sessions ...).  A node is
    a value of type [A] with an address; the [left], [right] and colour fields
    of a node belong to one tree, so that a tree is an inductive value.  The
    macros that exist for both sides take the side as an argument.  A failed
    [assert] and an access through NULL are faults ([None]).

    The theorems: rotations keep the order of the nodes, [add] and [delete]
    keep the tree a search tree and the red-black balance and never fault,
    [delete] removes exactly the node it is given, and [find_member] answers a
    node that compares equal whenever there is one. *)

From stdpp Require Import sorting.
From S2P Require Import Prelude.

Inductive rb_color := RED | BLACK.
#[global] Instance rb_color_eq_dec : EqDecision rb_color.
Proof. solve_decision. Defined.

Inductive rbtree (A : Type) := Leaf | Node (bits : rb_color) (left : rbtree A) (elem : A) (right : rbtree A).
Arguments Leaf {A}.
Arguments Node {A} _ _ _ _.

Section tree.
Context {A : Type}.
Implicit Types t l r : rbtree A.

(** [t != NULL && t->bits == RED] *)
Definition is_red t : bool := match t with Node RED _ _ _ => true | _ => false end.

Definition paint (c : rb_color) t : rbtree A :=
  match t with Leaf => Leaf | Node _ l x r => Node c l x r end.

(** The macros name the two fields of a node [leftt] and [rightt]: with
    [s = true] they are [left] and [right], with [s = false] the other way
    round. *)
Definition nd (s : bool) (c : rb_color) (lt : rbtree A) (x : A) (rt : rbtree A) : rbtree A :=
  if s then Node c lt x rt else Node c rt x lt.

Definition fields (s : bool) t : option (rb_color * rbtree A * A * rbtree A) :=
  match t with
  | Leaf => None
  | Node c l x r => Some (if s then (c, l, x, r) else (c, r, x, l))
  end.

(** ** Insertion *)

Definition fix_insertion (s : bool) t : option (rbtree A) :=
  '(ct, tl, x, tr) ← fields s t;
  '(cl, tll, xl, tlr) ← fields s tl;
  Some (
    if is_red tr then
      if decide (cl = RED) then
        if is_red tll || is_red tlr
        then nd s RED (paint BLACK tl) x (paint BLACK tr)
        else t
      else t
    else if decide (cl = RED) then
      if is_red tll then nd s BLACK tll xl (nd s RED tlr x tr)
      else match fields s tlr with
           | Some (RED, c_l, xc, c_r) => nd s BLACK (nd s cl tll xl c_l) xc (nd s RED c_r x tr)
           | _ => t
           end
    else t).

Context (addr : A → Z) (comparator : A → A → Z).

(** [cmp < 0 || (cmp==0 && elem<t)] *)
Definition before (x y : A) : bool :=
  bool_decide (comparator x y < 0) || (bool_decide (comparator x y = 0) && bool_decide (addr x < addr y)).

(** [cmp > 0 || (cmp==0 && elem>t)] *)
Definition beyond (x y : A) : bool :=
  bool_decide (comparator x y > 0) || (bool_decide (comparator x y = 0) && bool_decide (addr x > addr y)).

Fixpoint add_recursive t (x : A) : option (rbtree A) :=
  match t with
  | Leaf => Some (Node RED Leaf x Leaf)
  | Node c l y r =>
      if before x y then
        l ← add_recursive l x;
        if decide (c = BLACK) then fix_insertion true (Node c l y r) else Some (Node c l y r)
      else
        r ← add_recursive r x;
        if decide (c = BLACK) then fix_insertion false (Node c l y r) else Some (Node c l y r)
  end.

Definition sglib_add t (x : A) : option (rbtree A) :=
  t ← add_recursive t x; Some (paint BLACK t).

(** ** Deletion *)

(** The subtree on the [rightt] side has lost one level of blacks; the answer
    says whether the whole tree has. *)
Definition fix_deletion (s : bool) t : option (rbtree A * bool) :=
  '(ca, b, xa, ar) ← fields s t;
  match fields s b with
  | None => if decide (ca = RED) then Some (nd s BLACK b xa ar, false) else None
  | Some (cb, bl, xb, br) =>
      if decide (cb = RED) then
        match fields s br with
        | None => Some (nd s BLACK bl xb (nd s ca br xa ar), false)
        | Some (cc, cl, xc, cr) =>
            if decide (cc = BLACK) then
              if negb (is_red cl) && negb (is_red cr) then
                Some (nd s BLACK bl xb (nd s ca (nd s RED cl xc cr) xa ar), false)
              else if is_red cl && negb (is_red cr) then
                Some (nd s cc (nd s cb bl xb (paint BLACK cl)) xc (nd s ca cr xa ar), false)
              else
                '(_, dl, xd, dr) ← fields s cr;
                Some (nd s BLACK (nd s cb bl xb (nd s cc cl xc dl)) xd (nd s ca dr xa ar), false)
            else None
        end
      else if negb (is_red bl) && negb (is_red br) then
        Some (nd s BLACK (nd s RED bl xb br) xa ar, bool_decide (ca = BLACK))
      else if is_red bl && negb (is_red br) then
        Some (nd s ca (paint BLACK bl) xb (nd s BLACK br xa ar), false)
      else
        if is_red br then
          '(_, cl, xc, cr) ← fields s br;
          Some (nd s ca (nd s cb bl xb cl) xc (nd s BLACK cr xa ar), false)
        else None
  end.

(** Answers the tree without its rightmost node, whether it lost a level, and
    that node. *)
Fixpoint delete_rightmost_leaf t : option (rbtree A * bool * A) :=
  match t with
  | Leaf => None
  | Node c l x Leaf =>
      match l with
      | Leaf => Some (Leaf, bool_decide (c = BLACK), x)
      | _ => Some (paint BLACK l, bool_decide (c = BLACK) && negb (is_red l), x)
      end
  | Node c l x r =>
      '(r, dec, y) ← delete_rightmost_leaf r;
      if (dec : bool) then '(t, res) ← fix_deletion true (Node c l x r); Some (t, res, y)
      else Some (Node c l x r, false, y)
  end.

Fixpoint delete_recursive t (x : A) : option (rbtree A * bool) :=
  match t with
  | Leaf => None
  | Node c l y r =>
      if before x y then
        '(l, dec) ← delete_recursive l x;
        if (dec : bool) then fix_deletion false (Node c l y r) else Some (Node c l y r, false)
      else if beyond x y then
        '(r, dec) ← delete_recursive r x;
        if (dec : bool) then fix_deletion true (Node c l y r) else Some (Node c l y r, false)
      else
        match l with
        | Leaf =>
            match r with
            | Leaf => Some (Leaf, bool_decide (c = BLACK))
            | _ => Some (paint BLACK r, bool_decide (c = BLACK) && negb (is_red r))
            end
        | _ =>
            '(l, dec, y) ← delete_rightmost_leaf l;
            if (dec : bool) then fix_deletion false (Node c l y r) else Some (Node c l y r, false)
        end
  end.

Definition sglib_delete t (x : A) : option (rbtree A) :=
  '(t, _) ← delete_recursive t x; Some (paint BLACK t).

(** ** Searching *)

Fixpoint find_member t (x : A) : option A :=
  match t with
  | Leaf => None
  | Node _ l y r =>
      if decide (comparator x y < 0) then find_member l x
      else if decide (comparator x y > 0) then find_member r x
      else Some y
  end.

(** ** The nodes in order *)

Lemma leaf_dec t : {t = Leaf} + {t ≠ Leaf}.
Proof. destruct t; [by left|by right]. Defined.

Fixpoint elems t : list A :=
  match t with Leaf => [] | Node _ l x r => elems l ++ x :: elems r end.

Lemma elems_paint c t : elems (paint c t) = elems t.
Proof. by destruct t. Qed.

(** What a tree's fields say of its nodes, whichever side is called left. *)
Definition side_elems (s : bool) (xs : list A) (x : A) (ys : list A) : list A :=
  if s then xs ++ x :: ys else ys ++ x :: xs.

Lemma elems_nd s c l x r : elems (nd s c l x r) = side_elems s (elems l) x (elems r).
Proof. by destruct s. Qed.

Lemma fields_elems s t c l x r :
  fields s t = Some (c, l, x, r) → elems t = side_elems s (elems l) x (elems r).
Proof. destruct t, s; simpl; intros; simplify_eq; done. Qed.

Lemma fields_nd s t c l x r : fields s t = Some (c, l, x, r) → t = nd s c l x r.
Proof. destruct t, s; simpl; intros; simplify_eq; done. Qed.

Lemma side_elems_assoc s xs x ys y zs :
  side_elems s (side_elems s xs x ys) y zs = side_elems s xs x (side_elems s ys y zs).
Proof. destruct s; simpl; by rewrite <- app_assoc. Qed.

Ltac fields_cases :=
  repeat match goal with
    | H : context [match ?e with _ => _ end] |- _ => destruct e eqn:?
    | H : (_ ≫= _) = Some _ |- _ => apply bind_Some in H as (? & ? & ?)
    | H : fields _ _ = Some _ |- _ => apply fields_nd in H; subst
    | _ => progress simplify_eq/=
    end.
Ltac elems_eq :=
  repeat (rewrite ?elems_nd, ?elems_paint, ?side_elems_assoc); try done.

Lemma fix_insertion_elems s t t' : fix_insertion s t = Some t' → elems t' = elems t.
Proof. unfold fix_insertion. intros H. fields_cases; elems_eq. Qed.

Lemma fix_deletion_elems s t t' d : fix_deletion s t = Some (t', d) → elems t' = elems t.
Proof. unfold fix_deletion. intros H. fields_cases; elems_eq. Qed.

(** ** The search order *)

(** What a comparator must be: a total preorder. *)
Class CmpLaws : Prop := {
  cmp_opp x y : comparator x y < 0 ↔ comparator y x > 0;
  cmp_trans x y z : comparator x y ≤ 0 → comparator y z ≤ 0 → comparator x z ≤ 0;
}.

Definition ordered : list A → Prop := StronglySorted (λ x y, before x y = true).

Lemma ordered_mid xs x ys :
  ordered (xs ++ x :: ys) ↔
  ordered xs ∧ ordered ys ∧ (∀ y, y ∈ xs → before y x = true) ∧ (∀ y, y ∈ ys → before x y = true) ∧
  (∀ y z, y ∈ xs → z ∈ ys → before y z = true).
Proof.
  unfold ordered. induction xs as [|w xs IH]; simpl.
  - split.
    + intros H. apply StronglySorted_inv in H as [H1 H2]. rewrite Forall_forall in H2.
      repeat split; [constructor|done|set_solver|done|set_solver].
    + intros (_ & H1 & _ & H2 & _). constructor; [done|]. by apply Forall_forall.
  - split.
    + intros H. apply StronglySorted_inv in H as [H1 H2]. rewrite Forall_forall in H2.
      apply IH in H1 as (Hx & Hy & Hxx & Hxy & Hyz). repeat split; [|done|..|done|].
      * constructor; [done|]. apply Forall_forall. set_solver.
      * intros y [->|Hy']%elem_of_cons; [set_solver|by apply Hxx].
      * intros y z [->|Hy']%elem_of_cons Hz; [set_solver|by apply Hyz].
    + intros (H1 & Hy & Hxx & Hxy & Hyz). apply StronglySorted_inv in H1 as [H1 H2].
      rewrite Forall_forall in H2. constructor.
      * apply IH. repeat split; [done|done|..|done|]; set_solver.
      * apply Forall_forall. set_solver.
Qed.

Section laws.
Context {Hcmp : CmpLaws}.

Lemma cmp_eq_sym x y : comparator x y = 0 → comparator y x = 0.
Proof. intros E. pose proof (cmp_opp x y). pose proof (cmp_opp y x). lia. Qed.

Lemma beyond_before x y : beyond x y = before y x.
Proof.
  unfold beyond, before. pose proof (cmp_opp y x). pose proof (cmp_eq_sym x y).
  pose proof (cmp_eq_sym y x). apply eq_true_iff_eq.
  rewrite !orb_true_iff, !andb_true_iff, !bool_decide_eq_true. lia.
Qed.

Lemma before_true x y :
  before x y = true ↔ comparator x y < 0 ∨ (comparator x y = 0 ∧ addr x < addr y).
Proof. unfold before. rewrite orb_true_iff, andb_true_iff, !bool_decide_eq_true. done. Qed.

Lemma before_trans x y z : before x y = true → before y z = true → before x z = true.
Proof.
  rewrite !before_true. intros H1 H2. pose proof (cmp_trans x y z ltac:(lia) ltac:(lia)).
  destruct (decide (comparator x z = 0)) as [E|]; [|lia].
  pose proof (cmp_eq_sym _ _ E). pose proof (cmp_trans z x y). pose proof (cmp_trans y z x).
  pose proof (cmp_opp x y). pose proof (cmp_opp y x). pose proof (cmp_opp y z).
  pose proof (cmp_opp z y). lia.
Qed.

Lemma before_irrefl x : before x x = false.
Proof.
  apply not_true_iff_false. rewrite before_true. pose proof (cmp_opp x x). lia.
Qed.

Lemma before_asym x y : before x y = true → before y x = false.
Proof.
  intros H. apply not_true_iff_false. intros H'. pose proof (before_trans _ _ _ H H') as E.
  by rewrite before_irrefl in E.
Qed.

Lemma before_total x y : before x y = false → before y x = false → comparator x y = 0 ∧ addr x = addr y.
Proof.
  rewrite <- !not_true_iff_false, !before_true. pose proof (cmp_opp x y). pose proof (cmp_opp y x).
  pose proof (cmp_eq_sym x y). lia.
Qed.

(** Adding a node puts it at its place in the order. *)
Lemma add_recursive_elems t x t' :
  ordered (elems t) → (∀ y, y ∈ elems t → addr y ≠ addr x) → add_recursive t x = Some t' →
  elems t' ≡ₚ x :: elems t ∧ ordered (elems t').
Proof.
  revert t'. induction t as [|c l IHl y r IHr]; intros t' Ho Ha; cbn [add_recursive].
  { intros; simplify_eq/=. split; [done|]. repeat constructor. }
  cbn [elems] in *. pose proof Ho as (Hl & Hr & Hly & Hyr & Hlr)%ordered_mid.
  destruct (before x y) eqn:Exy.
  - destruct (add_recursive l x) as [l'|] eqn:El; [|done]. cbn [mbind option_bind].
    destruct (IHl l' Hl) as [Hp Ho']; [set_solver|done|]. intros Hc.
    assert (Hel : elems t' = elems l' ++ y :: elems r).
    { case_decide; [by rewrite (fix_insertion_elems _ _ _ Hc)|by simplify_eq]. }
    assert (Hm : ∀ z, z ∈ elems l' → z = x ∨ z ∈ elems l).
    { intros z. rewrite Hp. apply elem_of_cons. }
    rewrite Hel. split; [by rewrite Hp|]. apply ordered_mid. repeat split; [done|done|..|done|].
    + intros z [->|?]%Hm; [done|by apply Hly].
    + intros z w [->|?]%Hm Hw; [|by apply Hlr]. by eapply before_trans, Hyr.
  - assert (Hyx : before y x = true).
    { destruct (before y x) eqn:E; [done|]. destruct (before_total _ _ Exy E) as [_ Eq].
      exfalso. apply (Ha y); [set_solver|done]. }
    destruct (add_recursive r x) as [r'|] eqn:Er; [|done]. cbn [mbind option_bind].
    destruct (IHr r' Hr) as [Hp Ho']; [set_solver|done|]. intros Hc.
    assert (Hel : elems t' = elems l ++ y :: elems r').
    { case_decide; [by rewrite (fix_insertion_elems _ _ _ Hc)|by simplify_eq]. }
    assert (Hm : ∀ z, z ∈ elems r' → z = x ∨ z ∈ elems r).
    { intros z. rewrite Hp. apply elem_of_cons. }
    rewrite Hel. split; [rewrite Hp; solve_Permutation|]. apply ordered_mid.
    repeat split; [done|done|done|..].
    + intros z [->|?]%Hm; [done|by apply Hyr].
    + intros z w Hz [->|?]%Hm; [|by apply Hlr]. eapply before_trans; [by apply Hly|done].
Qed.

Lemma delete_rightmost_node c l x r :
  r ≠ Leaf →
  delete_rightmost_leaf (Node c l x r) =
    '(r, dec, y) ← delete_rightmost_leaf r;
    if (dec : bool) then '(t, res) ← fix_deletion true (Node c l x r); Some (t, res, y)
    else Some (Node c l x r, false, y).
Proof. by destruct r. Qed.

(** Deleting removes the node and nothing else. *)
Lemma delete_rightmost_elems t t' d y :
  delete_rightmost_leaf t = Some (t', d, y) → elems t = elems t' ++ [y].
Proof.
  revert t' d y. induction t as [|c l IHl x r IHr]; intros t' d y H; [done|].
  destruct (leaf_dec r) as [->|Hr].
  { simpl in H. destruct l as [|cl ll xl lr]; simplify_eq/=; done. }
  rewrite delete_rightmost_node in H by done.
  apply bind_Some in H as ([[r' dec] z] & Hd & H). specialize (IHr _ _ _ Hd).
  cbn [elems]. rewrite IHr. destruct dec.
  - apply bind_Some in H as ([t1 res] & Hf & H). simplify_eq.
    rewrite (fix_deletion_elems _ _ _ _ Hf). cbn [elems]. by rewrite <- app_assoc.
  - simplify_eq. cbn [elems]. by rewrite <- app_assoc.
Qed.

Lemma delete_recursive_elems t x t' d :
  ordered (elems t) → NoDup (addr <$> elems t) → x ∈ elems t →
  delete_recursive t x = Some (t', d) →
  ∃ xs ys, elems t = xs ++ x :: ys ∧ elems t' = xs ++ ys.
Proof.
  revert t' d. induction t as [|c l IHl y r IHr]; intros t' d Ho Hnd Hx H; [done|].
  cbn [delete_recursive] in H. cbn [elems] in *.
  pose proof Ho as (Hl & Hr & Hly & Hyr & Hlr)%ordered_mid.
  rewrite fmap_app, fmap_cons in Hnd. pose proof Hnd as (Hndl & _ & Hndr)%NoDup_app.
  apply NoDup_cons in Hndr as [_ Hndr]. rewrite beyond_before in H.
  destruct (before x y) eqn:Exy; [|destruct (before y x) eqn:Eyx].
  - assert (Hxl : x ∈ elems l).
    { apply elem_of_app in Hx as [?|[->|Hx]%elem_of_cons]; [done|by rewrite before_irrefl in Exy|].
      apply Hyr, before_asym in Hx. congruence. }
    apply bind_Some in H as ([l' dec] & Hd & H).
    destruct (IHl _ _ Hl Hndl Hxl Hd) as (xs & ys & -> & El).
    exists xs, (ys ++ y :: elems r). split; [by rewrite <- app_assoc|].
    destruct dec; [rewrite (fix_deletion_elems _ _ _ _ H)|simplify_eq];
      cbn [elems]; by rewrite El, <- app_assoc.
  - assert (Hxr : x ∈ elems r).
    { apply elem_of_app in Hx as [Hx|[->|Hx]%elem_of_cons]; [|by rewrite before_irrefl in Eyx|done].
      apply Hly in Hx. congruence. }
    apply bind_Some in H as ([r' dec] & Hd & H).
    destruct (IHr _ _ Hr Hndr Hxr Hd) as (xs & ys & -> & Er).
    exists (elems l ++ y :: xs), ys. split; [by rewrite <- app_assoc|].
    destruct dec; [rewrite (fix_deletion_elems _ _ _ _ H)|simplify_eq];
      cbn [elems]; by rewrite Er, <- app_assoc.
  - destruct (before_total _ _ Exy Eyx) as [_ Ea].
    assert (x = y) as ->.
    { clear -Ea Hx Hnd. rewrite elem_of_app, elem_of_cons in Hx.
      apply NoDup_app in Hnd as (_ & Hd & Hnd). apply NoDup_cons in Hnd as [Hni _].
      destruct Hx as [Hx|[->|Hx]]; [|done|]; apply (list_elem_of_fmap_2 addr) in Hx as Hax.
      - exfalso. apply (Hd _ Hax). rewrite Ea. by left.
      - exfalso. apply Hni. by rewrite <- Ea. }
    exists (elems l), (elems r). split; [done|].
    destruct l as [|cl ll xl lr].
    + destruct r as [|cr rl xr rr]; by simplify_eq/=.
    + remember (Node cl ll xl lr) as l0 eqn:El0.
      assert (H' : ('(l, dec, y) ← delete_rightmost_leaf l0;
        if (dec : bool) then fix_deletion false (Node c l y r) else Some (Node c l y r, false))
        = Some (t', d)) by by rewrite El0 in *.
      apply bind_Some in H' as ([[l' dec] z] & Hd & H').
      rewrite (delete_rightmost_elems _ _ _ _ Hd).
      destruct dec; [rewrite (fix_deletion_elems _ _ _ _ H')|simplify_eq];
        cbn [elems]; by rewrite <- app_assoc.
Qed.

(** Searching answers a node exactly when one compares equal. *)
Lemma find_member_spec t x :
  ordered (elems t) →
  match find_member t x with
  | Some y => y ∈ elems t ∧ comparator x y = 0
  | None => ∀ y, y ∈ elems t → comparator x y ≠ 0
  end.
Proof.
  induction t as [|c l IHl y r IHr]; intros Ho; cbn [find_member elems].
  { intros y Hy. by apply elem_of_nil in Hy. }
  pose proof Ho as (Hl & Hr & Hly & Hyr & Hlr)%ordered_mid.
  specialize (IHl Hl). specialize (IHr Hr). case_decide as H1; [|case_decide as H2].
  - destruct (find_member l x) as [z|]; [split; [set_solver|naive_solver]|].
    intros z [Hz|[->|Hz]%elem_of_cons]%elem_of_app; [by apply IHl|lia|].
    apply Hyr, before_true in Hz. pose proof (cmp_trans x y z ltac:(lia) ltac:(lia)).
    intros E. apply cmp_eq_sym in E. pose proof (cmp_trans y z x ltac:(lia) ltac:(lia)).
    pose proof (cmp_opp x y). lia.
  - destruct (find_member r x) as [z|]; [split; [set_solver|naive_solver]|].
    intros z [Hz|[->|Hz]%elem_of_cons]%elem_of_app; [|lia|by apply IHr].
    apply Hly, before_true in Hz. intros E.
    pose proof (cmp_trans x z y ltac:(lia) ltac:(lia)). lia.
  - split; [set_solver|lia].
Qed.
End laws.

(** ** The balance *)

(** No red node has a red child, and every path down has [n] black nodes. *)
Fixpoint balanced t (n : nat) : Prop :=
  match t with
  | Leaf => n = O
  | Node RED l _ r => is_red l = false ∧ is_red r = false ∧ balanced l n ∧ balanced r n
  | Node BLACK l _ r => match n with O => False | S n => balanced l n ∧ balanced r n end
  end.

(** The same, except that a red root may have one red child. *)
Definition balanced_below t (n : nat) : Prop :=
  match t with
  | Node RED l _ r => is_red l && is_red r = false ∧ balanced l n ∧ balanced r n
  | _ => balanced t n
  end.

Lemma balanced_weaken t n : balanced t n → balanced_below t n.
Proof. destruct t as [|[] l x r]; simpl; [done| |done]. by intros (-> & _ & ? & ?). Qed.

Lemma paint_black_balanced t n :
  balanced_below t n → balanced (paint BLACK t) (if is_red t then S n else n).
Proof. destruct t as [|[] l x r]; simpl; tauto. Qed.

(** Case analysis on the colours a rotation looks at; a node is opened only
    when the rotation uses its fields. *)
Ltac split_trees :=
  repeat match goal with
    | H : _ ∧ _ |- _ => destruct H
    | H : False |- _ => destruct H
    | H : is_red ?t = true |- _ => is_var t; destruct t as [|[] ? ? ?]; simpl in H
    | |- context [is_red ?t] => is_var t; destruct (is_red t) eqn:?
    | |- context [fields _ ?t] => is_var t; destruct t as [|[] ? ? ?]
    | H : _ && _ = false |- _ => apply andb_false_iff in H as [H|H]
    | _ => progress simplify_eq/=
    end.
Ltac close_balanced := repeat split; first [done | discriminate | tauto | congruence].

Lemma fix_insertion_balanced s x lt rt n :
  balanced_below lt n → balanced rt n → lt ≠ Leaf →
  ∃ t', fix_insertion s (nd s BLACK lt x rt) = Some t' ∧ balanced t' (S n) ∧ t' ≠ Leaf.
Proof.
  intros Hl Hr Hne. destruct lt as [|cl ll xl lr]; [done|].
  unfold fix_insertion. destruct s, cl; simpl in *; split_trees;
    (eexists; split; [reflexivity|]); close_balanced.
Qed.

Theorem add_recursive_balanced t x n :
  balanced t n →
  ∃ t', add_recursive t x = Some t' ∧ t' ≠ Leaf ∧
    if is_red t then balanced_below t' n else balanced t' n.
Proof.
  revert n. induction t as [|c l IHl y r IHr]; intros n Hb; cbn [add_recursive].
  { eexists. split; [reflexivity|]. split; [done|]. simpl in *. by subst. }
  destruct c; simpl in Hb.
  - destruct Hb as (Hl & Hr & Hbl & Hbr). destruct (before x y).
    + destruct (IHl n Hbl) as (l' & -> & _ & Hb'). rewrite Hl in Hb'. eexists.
      split; [reflexivity|]. split; [done|]. simpl. rewrite Hr, andb_false_r. done.
    + destruct (IHr n Hbr) as (r' & -> & _ & Hb'). rewrite Hr in Hb'. eexists.
      split; [reflexivity|]. split; [done|]. simpl. by rewrite Hl.
  - destruct n as [|n]; [done|]. destruct Hb as (Hbl & Hbr). destruct (before x y).
    + destruct (IHl n Hbl) as (l' & -> & Hne & Hb').
      assert (balanced_below l' n) by (destruct (is_red l); [done|by apply balanced_weaken]).
      destruct (fix_insertion_balanced true y l' r n) as (t' & Ht & ? & ?); [done..|].
      exists t'. by split.
    + destruct (IHr n Hbr) as (r' & -> & Hne & Hb').
      assert (balanced_below r' n) by (destruct (is_red r); [done|by apply balanced_weaken]).
      destruct (fix_insertion_balanced false y r' l n) as (t' & Ht & ? & ?); [done..|].
      exists t'. by split.
Qed.

(** What a deletion leaves of a tree of height [n]. *)
Definition shrunk t t' (n : nat) (dec : bool) : Prop :=
  if dec then is_red t = false ∧ ∃ m, n = S m ∧ balanced t' m
  else balanced t' n ∧ (is_red t = false → is_red t' = false).

Lemma fix_deletion_balanced s c x b ar m n :
  balanced ar m → balanced b (S m) → (c = RED → is_red b = false) →
  n = (if decide (c = BLACK) then S (S m) else S m) →
  ∃ t' d, fix_deletion s (nd s c b x ar) = Some (t', d) ∧ shrunk (nd s c b x ar) t' n d.
Proof.
  intros Ha Hb Hc ->. destruct b as [|cb bl xb br]; [done|].
  unfold fix_deletion. destruct s, c, cb; simpl in *; try (specialize (Hc eq_refl); discriminate);
    split_trees; (eexists _, _; split; [reflexivity|]); unfold shrunk; simpl.
  all: try solve [close_balanced | split; [done|]; eexists; split; [reflexivity|close_balanced]].
Qed.

Lemma shrunk_child s c b x r r' m n d :
  balanced b m → shrunk r r' m d → (c = RED → is_red b = false ∧ is_red r = false) →
  n = (if decide (c = BLACK) then S m else m) →
  ∃ t' d', (if d then fix_deletion s (nd s c b x r') else Some (nd s c b x r', false)) = Some (t', d') ∧
           shrunk (nd s c b x r) t' n d'.
Proof.
  intros Hb Hs Hc Hn. destruct d; cbn [shrunk] in Hs.
  - destruct Hs as (_ & k & -> & Hr').
    destruct (fix_deletion_balanced s c x b r' k n) as (t' & d' & -> & Hs'); [done..| |done|].
    { intros E. by apply Hc. }
    exists t', d'. split; [done|]. by destruct s.
  - destruct Hs as [Hr' Hrr]. exists (nd s c b x r'), false. split; [done|].
    subst n. destruct s, c; simpl; naive_solver.
Qed.

Lemma node_balanced c l x r n :
  balanced (Node c l x r) n ↔
  ∃ m, n = (if decide (c = BLACK) then S m else m) ∧ balanced l m ∧ balanced r m ∧
       (c = RED → is_red l = false ∧ is_red r = false).
Proof.
  destruct c; simpl.
  - split; [intros (? & ? & ? & ?); by exists n|]. intros (m & -> & ? & ? & [? ?]%(λ H, H eq_refl)). done.
  - destruct n as [|n]; split; [done|by intros (m & ? & _)|intros [? ?]; by exists n|].
    intros (m & ? & ? & ? & _). by simplify_eq.
Qed.

Lemma delete_rightmost_balanced t n :
  balanced t n → t ≠ Leaf →
  ∃ t' d y, delete_rightmost_leaf t = Some (t', d, y) ∧ shrunk t t' n d.
Proof.
  revert n. induction t as [|c l IHl x r IHr]; intros n Hb Hne; [done|].
  destruct (leaf_dec r) as [->|Hr].
  - simpl. destruct l as [|cl ll xl lr].
    + eexists _, _, _. split; [reflexivity|]. destruct c; simpl in *; [naive_solver|].
      destruct n; naive_solver.
    + eexists _, _, _. split; [reflexivity|].
      destruct c, cl; simpl in *; try (destruct n; naive_solver).
  - rewrite delete_rightmost_node by done. apply node_balanced in Hb as (m & Hn & Hl & Hbr & Hc).
    destruct (IHr m Hbr Hr) as (r' & d & y & -> & Hs). cbn [mbind option_bind].
    destruct (shrunk_child true c l x r r' m n d Hl Hs Hc Hn) as (t' & d' & Ht & Hs').
    destruct d; [cbn [nd] in Ht; rewrite Ht|]; eexists _, _, _; (split; [reflexivity|]); [done|].
    by simplify_eq.
Qed.

Lemma delete_recursive_balanced `{Hcmp : !CmpLaws} t x n :
  balanced t n → ordered (elems t) → x ∈ elems t →
  ∃ t' d, delete_recursive t x = Some (t', d) ∧ shrunk t t' n d.
Proof.
  revert n. induction t as [|c l IHl y r IHr]; intros n Hb Ho Hx; [by apply elem_of_nil in Hx|].
  pose proof Hb as (m & Hn & Hl & Hr & Hc)%node_balanced. cbn [elems delete_recursive] in *.
  pose proof Ho as (Hol & Hor & Hly & Hyr & _)%ordered_mid. rewrite beyond_before.
  destruct (before x y) eqn:Exy; [|destruct (before y x) eqn:Eyx].
  - assert (Hxl : x ∈ elems l).
    { apply elem_of_app in Hx as [?|[->|Hx]%elem_of_cons]; [done|by rewrite before_irrefl in Exy|].
      apply Hyr, before_asym in Hx. congruence. }
    destruct (IHl m Hl Hol Hxl) as (l' & d & -> & Hs). cbn [mbind option_bind].
    eapply (shrunk_child false c r y l l' m n d) in Hs; [by destruct d|done| |done].
    intros E. by destruct (Hc E).
  - assert (Hxr : x ∈ elems r).
    { apply elem_of_app in Hx as [Hx|[->|Hx]%elem_of_cons]; [|by rewrite before_irrefl in Eyx|done].
      apply Hly in Hx. congruence. }
    destruct (IHr m Hr Hor Hxr) as (r' & d & -> & Hs). cbn [mbind option_bind].
    eapply (shrunk_child true c l y r r' m n d) in Hs; [by destruct d|done..].
  - destruct (leaf_dec l) as [->|Hne].
    + simpl in Hl. subst m. destruct r as [|cr rl z rr].
      * eexists _, _. split; [reflexivity|]. destruct c; simpl in *; subst; [naive_solver|].
        split; [done|]. by exists O.
      * eexists _, _. split; [reflexivity|]. destruct c, cr; simpl in *; subst; naive_solver.
    + destruct (delete_rightmost_balanced l m Hl Hne) as (l' & d & z & Hd & Hs).
      assert (Hgo : match l with
        | Leaf => match r with
            | Leaf => Some (Leaf, bool_decide (c = BLACK))
            | _ => Some (paint BLACK r, bool_decide (c = BLACK) && negb (is_red r))
            end
        | _ => '(l, dec, y) ← delete_rightmost_leaf l;
               if (dec : bool) then fix_deletion false (Node c l y r) else Some (Node c l y r, false)
        end = if d then fix_deletion false (Node c l' z r) else Some (Node c l' z r, false)).
      { rewrite Hd. by destruct l. }
      rewrite Hgo. eapply (shrunk_child false c r z l l' m n d) in Hs; [by destruct d|done| |done].
      intros E. by destruct (Hc E).
Qed.

(** ** Trees as sets of nodes *)

Definition well_formed t : Prop :=
  ordered (elems t) ∧ NoDup (addr <$> elems t) ∧ is_red t = false ∧ ∃ n, balanced t n.

Lemma paint_black_root t : is_red (paint BLACK t) = false.
Proof. by destruct t. Qed.

Lemma leaf_well_formed : well_formed Leaf.
Proof. repeat split; [constructor|constructor|by exists O]. Qed.

Theorem sglib_add_spec `{Hcmp : !CmpLaws} t x :
  well_formed t → addr x ∉ addr <$> elems t →
  ∃ t', sglib_add t x = Some t' ∧ well_formed t' ∧ elems t' ≡ₚ x :: elems t.
Proof.
  intros (Ho & Hnd & Hroot & n & Hb) Hx. unfold sglib_add.
  destruct (add_recursive_balanced t x n Hb) as (t' & Ht & _ & Hb'). rewrite Ht. rewrite Hroot in Hb'.
  destruct (add_recursive_elems t x t' Ho) as [Hp Ho']; [|done|].
  { intros y Hy E. apply Hx. rewrite <- E. by apply list_elem_of_fmap_2. }
  eexists. split; [reflexivity|]. unfold well_formed. rewrite elems_paint, paint_black_root.
  split; [|done]. split; [done|]. split; [|split; [done|]].
  - rewrite Hp. by apply NoDup_cons.
  - eexists. by apply paint_black_balanced, balanced_weaken.
Qed.

Theorem sglib_delete_spec `{Hcmp : !CmpLaws} t x :
  well_formed t → x ∈ elems t →
  ∃ t', sglib_delete t x = Some t' ∧ well_formed t' ∧ elems t ≡ₚ x :: elems t'.
Proof.
  intros (Ho & Hnd & Hroot & n & Hb) Hx. unfold sglib_delete.
  destruct (delete_recursive_balanced t x n Hb Ho Hx) as (t' & d & Hd & Hs). rewrite Hd.
  destruct (delete_recursive_elems t x t' d Ho Hnd Hx Hd) as (xs & ys & E & E').
  eexists. split; [reflexivity|]. unfold well_formed. rewrite elems_paint, paint_black_root, E, E'.
  split; [|by rewrite Permutation_middle]. rewrite E in Ho, Hnd.
  apply ordered_mid in Ho as (Hx1 & Hx2 & _ & _ & Hx3). split; [|split; [|split; [done|]]].
  - clear -Hx1 Hx2 Hx3. induction xs as [|w xs IH]; [done|]. apply StronglySorted_inv in Hx1 as [H1 H2].
    constructor; [apply IH; [done|set_solver]|]. rewrite Forall_forall in *. set_solver.
  - rewrite <- Permutation_middle, fmap_cons in Hnd. by apply NoDup_cons in Hnd as [_ Hnd].
  - destruct d; cbn [shrunk] in Hs.
    + destruct Hs as (_ & m & _ & Hb'). eexists. by apply paint_black_balanced, balanced_weaken.
    + destruct Hs as [Hb' _]. eexists. by apply paint_black_balanced, balanced_weaken.
Qed.

(** The longest way down. *)
Fixpoint height t : nat :=
  match t with Leaf => O | Node _ l _ r => S (Nat.max (height l) (height r)) end.

Lemma balanced_height t n :
  balanced t n → (height t ≤ 2 * n + if is_red t then 1 else 0)%nat.
Proof.
  revert n. induction t as [|[] l IHl x r IHr]; intros n Hb; simpl in *; [lia| |].
  - destruct Hb as (Hl & Hr & Hbl & Hbr). specialize (IHl _ Hbl). specialize (IHr _ Hbr).
    rewrite Hl in IHl. rewrite Hr in IHr. lia.
  - destruct n as [|n]; [done|]. destruct Hb as (Hbl & Hbr).
    specialize (IHl _ Hbl). specialize (IHr _ Hbr). destruct (is_red l), (is_red r); lia.
Qed.

Lemma balanced_size t n : balanced t n → (2 ^ n ≤ S (length (elems t)))%nat.
Proof.
  revert n. induction t as [|[] l IHl x r IHr]; intros n Hb; simpl in *.
  - subst. simpl. lia.
  - destruct Hb as (_ & _ & Hbl & _). specialize (IHl _ Hbl). rewrite length_app. simpl. lia.
  - destruct n as [|n]; [done|]. destruct Hb as (Hbl & Hbr).
    specialize (IHl _ Hbl). specialize (IHr _ Hbr). rewrite length_app. simpl. lia.
Qed.

(** The walk of a search is logarithmic in the number of nodes. *)
Theorem height_bound t :
  well_formed t → (height t ≤ 2 * Nat.log2 (S (length (elems t))))%nat.
Proof.
  intros (_ & _ & Hroot & n & Hb). pose proof (balanced_height t n Hb) as Hh. rewrite Hroot in Hh.
  pose proof (balanced_size t n Hb) as Hs. apply Nat.log2_le_mono in Hs.
  rewrite Nat.log2_pow2 in Hs by lia. lia.
Qed.

(** ** A tree refines a bag of nodes *)

Inductive tree_op := TAdd (x : A) | TDelete (x : A) | TFind (key : A).

Definition tree_do (o : tree_op) t : option (option A * rbtree A) :=
  match o with
  | TAdd x => t ← sglib_add t x; Some (None, t)
  | TDelete x => t ← sglib_delete t x; Some (None, t)
  | TFind k => Some (find_member t k, t)
  end.

(** What the operation promises of a bag [xs] of nodes: the node found is some
    node that compares equal. *)
Definition bag_step (o : tree_op) (xs : list A) (r : option A) (ys : list A) : Prop :=
  match o with
  | TAdd x => r = None ∧ ys ≡ₚ x :: xs
  | TDelete x => r = None ∧ xs ≡ₚ x :: ys
  | TFind k => ys = xs ∧ match r with
                         | Some y => y ∈ xs ∧ comparator k y = 0
                         | None => ∀ y, y ∈ xs → comparator k y ≠ 0
                         end
  end.

Definition tree_allowed (o : tree_op) (xs : list A) : Prop :=
  match o with
  | TAdd x => addr x ∉ addr <$> xs
  | TDelete x => x ∈ xs
  | TFind _ => True
  end.

(** C14: adding, deleting and finding on a red-black tree never fault, keep it
    ordered, balanced and no higher than twice the logarithm of its size, and
    do to the bag of its nodes what their names say. *)
Theorem tree_refines_bag `{Hcmp : !CmpLaws} t o :
  well_formed t → tree_allowed o (elems t) →
  ∃ (a : option A) t', tree_do o t = Some (a, t') ∧ bag_step o (elems t) a (elems t') ∧ well_formed t' ∧
    (height t' ≤ 2 * Nat.log2 (S (length (elems t'))))%nat.
Proof.
  intros Hw Ha.
  enough (∃ (a : option A) t', tree_do o t = Some (a, t') ∧ bag_step o (elems t) a (elems t') ∧ well_formed t')
    as (a & t' & ? & ? & ?) by (exists a, t'; eauto using height_bound).
  destruct o as [x|x|k]; simpl in *.
  - destruct (sglib_add_spec t x Hw Ha) as (t' & -> & ? & ?). by exists None, t'.
  - destruct (sglib_delete_spec t x Hw Ha) as (t' & -> & ? & ?). by exists None, t'.
  - exists (find_member t k), t. split; [done|]. split; [|done]. split; [done|].
    apply find_member_spec, Hw.
Qed.
End tree.

Arguments CmpLaws {A} _.

(** ** A concrete tree

    Nodes are pairs of an address and a key, compared by key. *)
Definition demo_node_cmp (x y : Z * Z) : Z := x.2 - y.2.

#[export] Instance demo_node_laws : CmpLaws demo_node_cmp.
Proof. split; unfold demo_node_cmp; intros; lia. Qed.

Definition demo_nodes : option (rbtree (Z * Z)) :=
  foldr (λ x t, t ← t; sglib_add fst demo_node_cmp t x) (Some Leaf)
    [(1, 50); (2, 20); (3, 80); (4, 20); (5, 10); (6, 60); (7, 70)].

Definition demo_rbtree : rbtree (Z * Z) := default Leaf demo_nodes.

Lemma demo_rbtree_ok : well_formed fst demo_node_cmp demo_rbtree.
Proof.
  split; [|split; [|split]].
  - repeat (constructor; [|by repeat constructor]). constructor.
  - by apply (bool_decide_unpack _).
  - done.
  - exists 2%nat. vm_compute. repeat split.
Qed.

Lemma tree_refines_bag_witness :
  ∃ r t', tree_do fst demo_node_cmp (TDelete (2, 20)) demo_rbtree = Some (r, t') ∧
    bag_step demo_node_cmp (TDelete (2, 20)) (elems demo_rbtree) r (elems t') ∧
    well_formed fst demo_node_cmp t' ∧ (height t' ≤ 2 * Nat.log2 (S (length (elems t'))))%nat.
Proof.
  apply (tree_refines_bag fst demo_node_cmp demo_rbtree (TDelete (2, 20)) demo_rbtree_ok).
  unfold tree_allowed. by apply (bool_decide_unpack _).
Defined.
