(* ===== verification/SgList.v ===== *)
(** * The doubly linked lists of SGLib

    Models the [SGLIB_DL_LIST_*] macros of [SGLib/SGLib.h] at the level of
    their pointers.  The lists end in NULL on both sides and a client holds a
    pointer to {e some} node of a list: [add_before] and [add_after] do not
    move that pointer (unless the list was empty) and [delete] moves it to a
    neighbour of the deleted node.  A node that is not in the store has been
    freed: touching it is a fault. *)

From S2P Require Import Prelude.

Record links := Links {
  lnext : gmap Z (option Z);
  lprev : gmap Z (option Z);
}.

Definition rd_nx (x : Z) : M links (option Z) := mread (λ h, lnext h !! x).
Definition rd_pv (x : Z) : M links (option Z) := mread (λ h, lprev h !! x).
Definition wr_nx (x : Z) (v : option Z) : M links unit := λ h,
  match lnext h !! x with
  | Some _ => Some (tt, Links (<[x := v]> (lnext h)) (lprev h))
  | None => None
  end.
Definition wr_pv (x : Z) (v : option Z) : M links unit := λ h,
  match lprev h !! x with
  | Some _ => Some (tt, Links (lnext h) (<[x := v]> (lprev h)))
  | None => None
  end.

(** [if (p != NULL) p->field = v] *)
Definition on_some (p : option Z) (k : Z → M links unit) : M links unit :=
  match p with Some p => k p | None => mret tt end.

(** ** The macros

    Each answers the new value of the list pointer it is given. *)

Definition create_singleton (elem : Z) : M links (option Z) :=
  wr_pv elem None ;; wr_nx elem None ;; mret (Some elem).

Definition dl_add_after (place : option Z) (elem : Z) : M links (option Z) :=
  match place with
  | None => create_singleton elem
  | Some p =>
      n ← rd_nx p;
      wr_nx elem n ;;
      wr_pv elem (Some p) ;;
      wr_nx p (Some elem) ;;
      n ← rd_nx elem;
      on_some n (λ n, wr_pv n (Some elem)) ;;
      mret (Some p)
  end.

Definition dl_add_before (place : option Z) (elem : Z) : M links (option Z) :=
  match place with
  | None => create_singleton elem
  | Some p =>
      wr_nx elem (Some p) ;;
      v ← rd_pv p;
      wr_pv elem v ;;
      wr_pv p (Some elem) ;;
      v ← rd_pv elem;
      on_some v (λ v, wr_nx v (Some elem)) ;;
      mret (Some p)
  end.

Definition dl_delete (lst : option Z) (elem : Z) : M links (option Z) :=
  l ← (if decide (lst = Some elem) then
         v ← rd_pv elem;
         match v with Some _ => mret v | None => rd_nx elem end
       else mret lst);
  n ← rd_nx elem;
  on_some n (λ n, v ← rd_pv elem; wr_pv n v) ;;
  v ← rd_pv elem;
  on_some v (λ v, n ← rd_nx elem; wr_nx v n) ;;
  mret l.

(** The comparator of a list may fail its own assertion ([None]). *)
Section member.
Context (comparator : Z → Z → option Z).

(** Walks along [next] from [p] to the first node that compares equal. *)
Fixpoint dl_walk (next : Z → M links (option Z)) (fuel : nat) (p : option Z) (elem : Z) : M links (option Z) :=
  match fuel with
  | O => mfault
  | S fuel =>
      match p with
      | None => mret None
      | Some p =>
          match comparator p elem with
          | None => mfault
          | Some c => if decide (c = 0) then mret (Some p)
                      else n ← next p; dl_walk next fuel n elem
          end
      end
  end.

(** Answers the new list pointer and the member found. *)
Definition dl_delete_if_member (lst : option Z) (elem : Z) : M links (option Z * option Z) := λ h,
  (m ← dl_walk rd_pv (S (size (lprev h))) lst elem;
   m ← match m, lst with
       | None, Some p => n ← rd_nx p; dl_walk rd_nx (S (size (lnext h))) n elem
       | _, _ => mret m
       end;
   match m with
   | Some x => l ← dl_delete lst x; mret (l, Some x)
   | None => mret (lst, None)
   end) h.
End member.

(** ** Well-formed lists *)

(** [xs] linked both ways, the node before its first being [p] and the one
    after its last [q]. *)
Fixpoint dseg (h : links) (p : option Z) (xs : list Z) (q : option Z) : Prop :=
  match xs with
  | [] => True
  | x :: xs =>
      lprev h !! x = Some p ∧
      lnext h !! x = Some (match xs with [] => q | y :: _ => Some y end) ∧
      dseg h (Some x) xs q
  end.

Definition dlist (h : links) (xs : list Z) : Prop := NoDup xs ∧ dseg h None xs None.

(** A node that has been allocated. *)
Definition alive (h : links) (x : Z) : Prop := is_Some (lnext h !! x) ∧ is_Some (lprev h !! x).

Definition first_or (xs : list Z) (q : option Z) : option Z :=
  match xs with [] => q | x :: _ => Some x end.
Definition final_or (p : option Z) (xs : list Z) : option Z :=
  match last xs with Some x => Some x | None => p end.

Section seg_facts.
Implicit Types (h : links) (xs ys : list Z) (p q : option Z).

Lemma final_or_cons p x xs : final_or p (x :: xs) = final_or (Some x) xs.
Proof. unfold final_or. rewrite last_cons. by destruct (last xs). Qed.

Lemma dseg_app h p xs ys q :
  dseg h p (xs ++ ys) q ↔ dseg h p xs (first_or ys q) ∧ dseg h (final_or p xs) ys q.
Proof.
  revert p. induction xs as [|x xs IH]; intros p; simpl; [by unfold final_or; simpl; tauto|].
  rewrite IH, final_or_cons. destruct xs as [|y xs]; simpl; [destruct ys; simpl|]; tauto.
Qed.

Lemma dseg_agree h h' p xs q :
  (∀ x, x ∈ xs → lnext h' !! x = lnext h !! x ∧ lprev h' !! x = lprev h !! x) →
  dseg h p xs q → dseg h' p xs q.
Proof.
  revert p. induction xs as [|x xs IH]; intros p Ha; simpl; [done|].
  intros (H1 & H2 & H3). destruct (Ha x) as [-> ->]; [by left|].
  split; [done|split; [done|]]. apply IH; [|done]. intros y Hy. apply Ha. by right.
Qed.

Lemma dseg_alive h p xs q x : dseg h p xs q → x ∈ xs → alive h x.
Proof.
  revert p. induction xs as [|y xs IH]; intros p Hs Hx; [by apply elem_of_nil in Hx|].
  destruct Hs as (H1 & H2 & H3). apply elem_of_cons in Hx as [->|Hx]; [|by eapply IH].
  split; by eexists.
Qed.

Lemma dlist_agree h h' xs :
  (∀ x, x ∈ xs → lnext h' !! x = lnext h !! x ∧ lprev h' !! x = lprev h !! x) →
  dlist h xs → dlist h' xs.
Proof. intros Ha [? ?]. split; [done|]. by eapply dseg_agree. Qed.
End seg_facts.

(** Two stores agree outside [D], and no node was freed or allocated. *)
Definition links_off (D : list Z) (h h' : links) : Prop :=
  (∀ x, x ∉ D → lnext h' !! x = lnext h !! x ∧ lprev h' !! x = lprev h !! x) ∧
  (∀ x, alive h x ↔ alive h' x).

Section relink.
Implicit Types (h : links) (xs ys : list Z) (p q : option Z).

(** Changing what comes before and after a chain. *)
Lemma dseg_relink h h' p p' xs q q' :
  NoDup xs → dseg h p xs q →
  (∀ x, first_or xs None = Some x → lprev h' !! x = Some p') →
  (∀ x, x ∈ xs → first_or xs None ≠ Some x → lprev h' !! x = lprev h !! x) →
  (∀ x, last xs = Some x → lnext h' !! x = Some q') →
  (∀ x, x ∈ xs → last xs ≠ Some x → lnext h' !! x = lnext h !! x) →
  dseg h' p' xs q'.
Proof.
  revert p p'. induction xs as [|x xs IH]; intros p p' Hnd; simpl; [done|].
  intros (H1 & H2 & H3) Hf Hf' Hl Hl'. apply NoDup_cons in Hnd as [Hx Hnd].
  rewrite Hf by done. split; [done|]. split.
  - destruct xs as [|y xs]; [by apply Hl|]. rewrite Hl'; [done|by left|].
    intros E. apply last_Some_elem_of in E as E'.
    rewrite last_cons in E. destruct (last (y :: xs)) eqn:Ey; [|by apply last_None in Ey].
    simplify_eq. by apply last_Some_elem_of in Ey.
  - apply (IH (Some x) (Some x)); [done|done|..].
    + intros y Hy. rewrite Hf'; [| |].
      * destruct xs; simplify_eq/=. by destruct H3.
      * right. destruct xs; simplify_eq/=. by left.
      * intros ?. simplify_eq. destruct xs; simplify_eq/=. apply Hx. by left.
    + intros y Hy _. apply Hf'; [by right|]. by intros [= ->].
    + intros y Hy. apply Hl. rewrite last_cons, Hy. done.
    + intros y Hy Hne. apply Hl'; [by right|]. rewrite last_cons. destruct (last xs) eqn:E; [done|].
      apply last_None in E as ->. by apply elem_of_nil in Hy.
Qed.

Lemma dlist_split h xs x ys :
  dlist h (xs ++ x :: ys) →
  NoDup xs ∧ NoDup ys ∧ x ∉ xs ∧ x ∉ ys ∧ (∀ y, y ∈ xs → y ∉ ys) ∧
  lprev h !! x = Some (final_or None xs) ∧ lnext h !! x = Some (first_or ys None) ∧
  dseg h None xs (Some x) ∧ dseg h (Some x) ys None.
Proof.
  intros [Hnd Hs]. apply NoDup_app in Hnd as (H1 & H2 & H3). apply NoDup_cons in H3 as [H3 H4].
  apply dseg_app in Hs as (Hs1 & Hs2 & Hs3 & Hs4). repeat split; try done.
  - intros Hx. apply (H2 x Hx). by left.
  - intros y Hy Hy'. apply (H2 y Hy). by right.
Qed.

Lemma dseg_last_next h p xs q x : dseg h p xs q → last xs = Some x → lnext h !! x = Some q.
Proof.
  revert p. induction xs as [|y xs IH]; intros p Hs Hx; [done|].
  destruct Hs as (_ & H2 & H3). rewrite last_cons in Hx. destruct (last xs) eqn:E.
  - by eapply IH.
  - apply last_None in E as ->. by simplify_eq.
Qed.

Lemma final_or_elem xs v : final_or None xs = Some v → v ∈ xs.
Proof. unfold final_or. destruct (last xs) eqn:E; [|done]. intros. simplify_eq. by apply last_Some_elem_of. Qed.
Lemma first_or_elem ys v : first_or ys None = Some v → v ∈ ys.
Proof. destruct ys; simpl; intros; simplify_eq. by left. Qed.
Lemma final_or_last xs v : last xs = Some v → final_or None xs = Some v.
Proof. unfold final_or. by intros ->. Qed.

(** Runs one access at the head of a computation. *)
Lemma wr_nx_Some h x v : is_Some (lnext h !! x) → wr_nx x v h = Some (tt, Links (<[x := v]> (lnext h)) (lprev h)).
Proof. unfold wr_nx. by intros [? ->]. Qed.
Lemma wr_pv_Some h x v : is_Some (lprev h !! x) → wr_pv x v h = Some (tt, Links (lnext h) (<[x := v]> (lprev h))).
Proof. unfold wr_pv. by intros [? ->]. Qed.
Lemma alive_links h h' D :
  (∀ x, is_Some (lnext h' !! x) ↔ is_Some (lnext h !! x)) →
  (∀ x, is_Some (lprev h' !! x) ↔ is_Some (lprev h !! x)) →
  (∀ x, x ∉ D → lnext h' !! x = lnext h !! x ∧ lprev h' !! x = lprev h !! x) →
  links_off D h h'.
Proof. intros H1 H2 H3. split; [done|]. intros x. unfold alive. by rewrite H1, H2. Qed.

(** Writing a field of a live node keeps the set of live nodes. *)
Lemma insert_is_Some (m : gmap Z (option Z)) x v y :
  is_Some (m !! x) → is_Some (<[x := v]> m !! y) ↔ is_Some (m !! y).
Proof.
  intros Hx. destruct (decide (x = y)) as [->|Hne].
  - rewrite lookup_insert_eq. split; [done|by eexists].
  - by rewrite lookup_insert_ne.
Qed.

(** [if (p != NULL) p->field = v], on the map of the field. *)
Definition upd (m : gmap Z (option Z)) (p : option Z) (v : option Z) : gmap Z (option Z) :=
  match p with Some p => <[p := v]> m | None => m end.

Lemma upd_ne m p v x : p ≠ Some x → upd m p v !! x = m !! x.
Proof. destruct p as [p|]; simpl; [|done]. intros H. rewrite lookup_insert_ne; congruence. Qed.
Lemma upd_eq m p v x : p = Some x → upd m p v !! x = Some v.
Proof. intros ->. apply lookup_insert_eq. Qed.
Lemma upd_is_Some m p v x :
  (∀ y, p = Some y → is_Some (m !! y)) → is_Some (upd m p v !! x) ↔ is_Some (m !! x).
Proof. destruct p as [p|]; simpl; [|done]. intros H. by apply insert_is_Some, H. Qed.

(** ** Linking a node in and out *)

Section between.
Context (h : links) (xs ys : list Z) (e : Z).
Let v := final_or None xs.
Let w := first_or ys None.

Lemma dlist_insert h' :
  dlist h (xs ++ ys) → alive h e → e ∉ xs ++ ys →
  lnext h' = upd (<[e := w]> (lnext h)) v (Some e) →
  lprev h' = upd (<[e := v]> (lprev h)) w (Some e) →
  dlist h' (xs ++ e :: ys) ∧ links_off (e :: xs ++ ys) h h'.
Proof.
  intros [Hnd Hs] [He1 He2] Hni En Ep. apply dseg_app in Hs as [Hs1 Hs2]. fold v w in Hs1, Hs2.
  pose proof Hnd as (Hn1 & Hxy & Hn2)%NoDup_app.
  rewrite not_elem_of_app in Hni. destruct Hni as [Hex Hey].
  assert (Hv : ∀ y, v = Some y → y ∈ xs ∧ y ≠ e ∧ is_Some (lnext h !! y)).
  { intros y Hy%final_or_elem. destruct (dseg_alive _ _ _ _ _ Hs1 Hy). naive_solver. }
  assert (Hw : ∀ y, w = Some y → y ∈ ys ∧ y ≠ e ∧ is_Some (lprev h !! y)).
  { intros y Hy%first_or_elem. destruct (dseg_alive _ _ _ _ _ Hs2 Hy). naive_solver. }
  assert (Hve : v ≠ Some e) by (intros E; by apply Hv in E as (? & ? & ?)).
  assert (Hwe : w ≠ Some e) by (intros E; by apply Hw in E as (? & ? & ?)).
  assert (Hnx : ∀ y, y ≠ e → v ≠ Some y → lnext h' !! y = lnext h !! y).
  { intros y Hy1 Hy2. by rewrite En, upd_ne, lookup_insert_ne by done. }
  assert (Hpv : ∀ y, y ≠ e → w ≠ Some y → lprev h' !! y = lprev h !! y).
  { intros y Hy1 Hy2. by rewrite Ep, upd_ne, lookup_insert_ne by done. }
  split; [split|].
  - rewrite <- Permutation_middle. apply NoDup_cons. by rewrite not_elem_of_app.
  - apply dseg_app. cbn [first_or dseg]. fold v. split; [|split; [|split]].
    + eapply (dseg_relink h); [done|exact Hs1|..].
      * intros x Hx. pose proof (first_or_elem _ _ Hx). rewrite Hpv; [|by intros ->|].
        { destruct xs; simplify_eq/=. by destruct Hs1. }
        intros E. apply Hw in E as (E & _). by apply (Hxy x).
      * intros x Hx _. apply Hpv; [by intros ->|]. intros E. apply Hw in E as (E & _). by apply (Hxy x).
      * intros x Hx%final_or_last. rewrite En. by apply upd_eq.
      * intros x Hx Hl. apply Hnx; [by intros ->|]. unfold v, final_or. by destruct (last xs).
    + by rewrite Ep, upd_ne, lookup_insert_eq.
    + rewrite En, upd_ne, lookup_insert_eq by done. unfold w. by destruct ys.
    + eapply (dseg_relink h); [done|exact Hs2|..].
      * intros x Hx. rewrite Ep. by apply upd_eq.
      * intros x Hx Hf. apply Hpv; [by intros ->|done].
      * intros x Hx. apply last_Some_elem_of in Hx as Hx'. rewrite Hnx; [|by intros ->|].
        { by eapply dseg_last_next. }
        intros E. apply Hv in E as (E & _). by apply (Hxy x).
      * intros x Hx _. apply Hnx; [by intros ->|]. intros E. apply Hv in E as (E & _). by apply (Hxy x).
  - apply alive_links.
    + intros x. rewrite En, upd_is_Some; [by apply insert_is_Some|].
      intros y Hy. apply Hv in Hy as (_ & ? & ?). by rewrite insert_is_Some.
    + intros x. rewrite Ep, upd_is_Some; [by apply insert_is_Some|].
      intros y Hy. apply Hw in Hy as (_ & ? & ?). by rewrite insert_is_Some.
    + intros x Hx. rewrite not_elem_of_cons, not_elem_of_app in Hx.
      split; [apply Hnx|apply Hpv]; [tauto| |tauto|]; intros E;
        [apply Hv in E|apply Hw in E]; tauto.
Qed.

Lemma dlist_remove h' :
  dlist h (xs ++ e :: ys) →
  lnext h' = upd (lnext h) v w → lprev h' = upd (lprev h) w v →
  dlist h' (xs ++ ys) ∧ links_off (xs ++ ys) h h'.
Proof.
  intros Hd En Ep. pose proof Hd as [Hnd _].
  apply dlist_split in Hd as (Hn1 & Hn2 & Hex & Hey & Hxy & _ & _ & Hs1 & Hs2).
  assert (Hv : ∀ y, v = Some y → y ∈ xs ∧ is_Some (lnext h !! y)).
  { intros y Hy%final_or_elem. by destruct (dseg_alive _ _ _ _ _ Hs1 Hy). }
  assert (Hw : ∀ y, w = Some y → y ∈ ys ∧ is_Some (lprev h !! y)).
  { intros y Hy%first_or_elem. by destruct (dseg_alive _ _ _ _ _ Hs2 Hy). }
  assert (Hnx : ∀ y, v ≠ Some y → lnext h' !! y = lnext h !! y) by (intros; by rewrite En, upd_ne).
  assert (Hpv : ∀ y, w ≠ Some y → lprev h' !! y = lprev h !! y) by (intros; by rewrite Ep, upd_ne).
  split; [split|].
  - rewrite <- Permutation_middle in Hnd. by apply NoDup_cons in Hnd as [_ ?].
  - apply dseg_app. fold v w. split.
    + eapply (dseg_relink h); [done|exact Hs1|..].
      * intros x Hx. pose proof (first_or_elem _ _ Hx). rewrite Hpv.
        { destruct xs; simplify_eq/=. by destruct Hs1. }
        intros E. apply Hw in E as (E & _). by apply (Hxy x).
      * intros x Hx _. apply Hpv. intros E. apply Hw in E as (E & _). by apply (Hxy x).
      * intros x Hx%final_or_last. rewrite En. by apply upd_eq.
      * intros x Hx Hl. apply Hnx. unfold v, final_or. by destruct (last xs).
    + eapply (dseg_relink h); [done|exact Hs2|..].
      * intros x Hx. rewrite Ep. by apply upd_eq.
      * intros x Hx Hf. by apply Hpv.
      * intros x Hx. apply last_Some_elem_of in Hx as Hx'. rewrite Hnx.
        { by eapply dseg_last_next. }
        intros E. apply Hv in E as (E & _). by apply (Hxy x).
      * intros x Hx _. apply Hnx. intros E. apply Hv in E as (E & _). by apply (Hxy x).
  - apply alive_links.
    + intros x. rewrite En. apply upd_is_Some. intros y Hy. by apply Hv.
    + intros x. rewrite Ep. apply upd_is_Some. intros y Hy. by apply Hw.
    + intros x Hx. rewrite not_elem_of_app in Hx.
      split; [apply Hnx|apply Hpv]; intros E; [apply Hv in E|apply Hw in E]; tauto.
Qed.
End between.
End relink.

(** ** The macros on well-formed lists *)

Lemma on_some_nx h p v :
  (∀ y, p = Some y → is_Some (lnext h !! y)) →
  on_some p (λ p, wr_nx p v) h = Some (tt, Links (upd (lnext h) p v) (lprev h)).
Proof. destruct p as [p|]; intros H; [by apply wr_nx_Some, H|by destruct h]. Qed.
Lemma on_some_pv h p v :
  (∀ y, p = Some y → is_Some (lprev h !! y)) →
  on_some p (λ p, wr_pv p v) h = Some (tt, Links (lnext h) (upd (lprev h) p v)).
Proof. destruct p as [p|]; intros H; [by apply wr_pv_Some, H|by destruct h]. Qed.

(** One access of a macro: what it reads or that what it writes is alive is
    left to [tac]. *)
Ltac lrun1 tac :=
  match goal with
  | |- ((mread ?f ≫= ?k) ?s = _) =>
      erewrite (M_bind_Some (mread f) k); [|apply mread_Some; cbn [lnext lprev]; tac]; cbn beta
  | |- ((wr_nx ?x ?v ≫= ?k) ?s = _) =>
      erewrite (M_bind_Some (wr_nx x v) k); [|apply wr_nx_Some; cbn [lnext lprev]; tac]; cbn beta; cbn [lnext lprev]
  | |- ((wr_pv ?x ?v ≫= ?k) ?s = _) =>
      erewrite (M_bind_Some (wr_pv x v) k); [|apply wr_pv_Some; cbn [lnext lprev]; tac]; cbn beta; cbn [lnext lprev]
  end.
Ltac llook := simplify_map_eq; eauto.

Lemma create_singleton_spec h e :
  alive h e → ∃ h', create_singleton e h = Some (Some e, h') ∧ dlist h' [e] ∧ links_off [e] h h'.
Proof.
  intros [He1 He2]. eexists. split; [|apply (dlist_insert h [] [] e _); cbn [lnext lprev upd first_or final_or last]].
  - unfold create_singleton. do 2 lrun1 llook. reflexivity.
  - split; [apply NoDup_nil_2|done].
  - done.
  - apply not_elem_of_nil.
  - done.
  - done.
Qed.

Theorem dl_add_after_spec h xs p ys e :
  dlist h (xs ++ p :: ys) → alive h e → e ∉ xs ++ p :: ys →
  ∃ h', dl_add_after (Some p) e h = Some (Some p, h') ∧ dlist h' (xs ++ p :: e :: ys) ∧
        links_off (e :: xs ++ p :: ys) h h'.
Proof.
  intros Hd [He1 He2] Hni.
  pose proof (dlist_split _ _ _ _ Hd) as (_ & _ & _ & _ & _ & Hp & Hn & _ & Hs2).
  assert (e ≠ p) by (intros ->; apply Hni; set_solver).
  eexists. split.
  - unfold dl_add_after, rd_nx. lrun1 ltac:(exact Hn). lrun1 ltac:(done). lrun1 ltac:(done).
    lrun1 llook. lrun1 ltac:(rewrite lookup_insert_ne, lookup_insert_eq by done; reflexivity).
    erewrite M_bind_Some; [reflexivity|]. apply on_some_pv. cbn [lprev].
    intros y Hy%first_or_elem. destruct (dseg_alive _ _ _ _ _ Hs2 Hy). by apply insert_is_Some.
  - rewrite (cons_middle p xs ys), app_assoc in *.
    pose proof (dlist_insert h (xs ++ [p]) ys e) as Hi. rewrite <- (app_assoc xs [p] (e :: ys)) in Hi.
    apply Hi; [done|by split|done|..]; unfold final_or; by rewrite last_snoc.
Qed.

Theorem dl_add_before_spec h xs p ys e :
  dlist h (xs ++ p :: ys) → alive h e → e ∉ xs ++ p :: ys →
  ∃ h', dl_add_before (Some p) e h = Some (Some p, h') ∧ dlist h' (xs ++ e :: p :: ys) ∧
        links_off (e :: xs ++ p :: ys) h h'.
Proof.
  intros Hd [He1 He2] Hni.
  pose proof (dlist_split _ _ _ _ Hd) as (_ & _ & _ & _ & _ & Hp & Hn & Hs1 & _).
  assert (e ≠ p) by (intros ->; apply Hni; set_solver).
  eexists. split.
  - unfold dl_add_before, rd_pv. lrun1 ltac:(done). lrun1 ltac:(exact Hp). lrun1 ltac:(done).
    lrun1 llook. lrun1 ltac:(rewrite lookup_insert_ne, lookup_insert_eq by done; reflexivity).
    erewrite M_bind_Some; [reflexivity|]. apply on_some_nx. cbn [lnext].
    intros y Hy%final_or_elem. destruct (dseg_alive _ _ _ _ _ Hs1 Hy). by apply insert_is_Some.
  - apply (dlist_insert h xs (p :: ys) e); [done|by split|done..].
Qed.

(** Where the list pointer goes: a deleted node hands it to its neighbour. *)
Definition moved (l : option Z) (xs : list Z) (e : Z) (ys : list Z) : option Z :=
  if decide (l = Some e) then match final_or None xs with Some v => Some v | None => first_or ys None end
  else l.

Theorem dl_delete_spec h l xs e ys :
  dlist h (xs ++ e :: ys) →
  ∃ h', dl_delete l e h = Some (moved l xs e ys, h') ∧ dlist h' (xs ++ ys) ∧
        links_off (xs ++ ys) h h'.
Proof.
  intros Hd. pose proof (dlist_split _ _ _ _ Hd) as (_ & _ & Hex & Hey & _ & Hp & Hn & Hs1 & Hs2).
  exists (Links (upd (lnext h) (final_or None xs) (first_or ys None))
                (upd (lprev h) (first_or ys None) (final_or None xs))).
  split; [|by apply (dlist_remove h xs ys e)].
  unfold dl_delete. erewrite M_bind_Some.
  2:{ instantiate (2 := moved l xs e ys). instantiate (1 := h). unfold moved, rd_pv, rd_nx.
      case_decide; [|done]. lrun1 ltac:(exact Hp).
      destruct (final_or None xs); [done|]. by apply mread_Some. }
  cbn beta. unfold rd_nx, rd_pv. lrun1 ltac:(exact Hn).
  erewrite (M_bind_Some (on_some _ _)).
  2:{ instantiate (2 := tt).
      instantiate (1 := Links (lnext h) (upd (lprev h) (first_or ys None) (final_or None xs))).
      destruct (first_or ys None) as [n|] eqn:En; cbn [on_some upd]; [|by destruct h].
      lrun1 ltac:(exact Hp). apply wr_pv_Some. apply first_or_elem in En.
      by destruct (dseg_alive _ _ _ _ _ Hs2 En). }
  cbn beta. cbn [lnext lprev].
  assert (Hp' : upd (lprev h) (first_or ys None) (final_or None xs) !! e = Some (final_or None xs)).
  { rewrite upd_ne; [done|]. intros E%first_or_elem. done. }
  lrun1 ltac:(exact Hp'). erewrite (M_bind_Some (on_some _ _)); [reflexivity|].
  destruct (final_or None xs) as [v|] eqn:Ev; cbn [on_some upd]; [|reflexivity].
  lrun1 ltac:(exact Hn). apply wr_nx_Some. cbn [lnext]. apply final_or_elem in Ev.
  by destruct (dseg_alive _ _ _ _ _ Hs1 Ev).
Qed.
