(* ===== verification/KeyManager.v ===== *)
(** * The AES keys shared with peers

    Models [BDTCore/History/KeyManager.imp.inl]: the keys of every peer, a
    red-black tree ([SgTree]) from the hashes of the keys to the keys, a tree
    of the peers, and the lists ([SgList]) of the keys whose hashes are
    current and of those whose hashes have to be computed again.  Every key
    has the hash of itself and up to three hashes of itself and a minute.

    Blocks of memory are numbered by the order of their allocation and a block
    is in its map until it is freed: an access to a freed block and an access
    through NULL are faults ([BLOG_CHECK] only logs, and each one that fails is
    followed by the access that faults).  [assert] is a fault
    when [asserts] is set and nothing when it is not ([NDEBUG]).  Every read
    of the clock takes the next value of [clock].  SHA-256 and the storage
    behind [BdtHistory_StorageUpdateAesKey] are parameters.  The operations
    are run one at a time: the read-write lock is not modelled. *)

From S2P Require Import Prelude CInt BufferStream SgTree SgList.

Definition BDT_MIX_HASH_LENGTH : nat := 8.
Definition BDT_AES_KEY_LENGTH : nat := 32.
Definition BDT_PEERID_LENGTH : nat := 32.
Definition BDT_MIX_HASH_4_KEY_LIMIT : Z := 4.
Definition MIX_HASH_WITH_APPEND_COUNT : Z := BDT_MIX_HASH_4_KEY_LIMIT - 1.
Definition MIX_HASH_REDUNDANCY_MINUTES : Z := Z.shiftr (BDT_MIX_HASH_4_KEY_LIMIT - 1) 1.
Definition BFX_RESULT_ALREADY_OPERATION : Z := 41.

Definition BDT_MICRO_SECONDS_2_MINUTES (microS : Z) : Z := u32 (Z.quot microS 60000000).
Definition BDT_MICRO_SECONDS_2_SECONDS (microS : Z) : Z := Z.quot microS 1000000.

(** The sign of the first difference among [n] bytes. *)
Fixpoint memcmp (n : nat) (a b : list Z) : Z :=
  match n with
  | O => 0
  | S n =>
      let x := default 0 (head a) in
      let y := default 0 (head b) in
      if decide (x = y) then memcmp n (tail a) (tail b) else x - y
  end.

(** ** The data *)

(** [MixHashKeyMap]: a node of the tree of hashes. *)
Record MixHashKeyMap := mkHashNode {
  hn_addr : Z; hn_keyNode : Z; hn_hash : list Z; hn_minutes : Z }.

Record BdtHistory_KeyInfo := mkKeyInfo {
  ki_aesKey : list Z; ki_isConfirmed : bool; ki_isStorage : bool;
  ki_expireTime : Z; ki_lastAccessTime : Z; ki_peerid : list Z }.

Record KeyNode := mkKeyNode {
  kn_keyInfo : BdtHistory_KeyInfo;
  kn_originalHashNode : option MixHashKeyMap;
  kn_mixHashNodesWithAppend : list (option MixHashKeyMap);
  kn_nextUpdateHash : Z;
  kn_hashCount : Z }.

(** [mixHashNodes], the same four pointers as one array. *)
Definition kn_mixHashNodes (k : KeyNode) : list (option MixHashKeyMap) :=
  kn_originalHashNode k :: kn_mixHashNodesWithAppend k.

(** [PeeridKeyMap]: a node of the tree of peers; its [keyNodeList] is kept in
    the manager's [km_peerKeys]. *)
Record PeeridKeyMap := mkPeerNode { pn_addr : Z; pn_peerid : list Z }.

(** What the storage is asked to keep. *)
Record StorageCall := mkStorageCall {
  sc_peerid : list Z; sc_aesKey : list Z; sc_expireTime : Z;
  sc_isConfirmed : bool; sc_isStorage : bool; sc_lastAccessTime : Z; sc_isNew : bool }.

Record KeyLists := mkKeyLists {
  kl_header : option Z; kl_tail : option Z; kl_firstHashMinutes : Z;
  kl_rehashKeyList : option Z }.

Record KeyManager := mkKeyManager {
  km_storage : bool;
  km_mixHashKeyMap : rbtree MixHashKeyMap;
  km_peeridKeyMap : rbtree PeeridKeyMap;
  km_lists : KeyLists;
  km_keys : gmap Z KeyNode;
  km_links : links;
  km_peerKeys : gmap Z (list Z);
  km_allocated : Z;
  km_tick : nat;
  km_stored : list StorageCall }.

Definition set_storage (b : bool) (s : KeyManager) : KeyManager :=
  mkKeyManager b (km_mixHashKeyMap s) (km_peeridKeyMap s) (km_lists s) (km_keys s) (km_links s)
    (km_peerKeys s) (km_allocated s) (km_tick s) (km_stored s).
Definition set_hashes (t : rbtree MixHashKeyMap) (s : KeyManager) : KeyManager :=
  mkKeyManager (km_storage s) t (km_peeridKeyMap s) (km_lists s) (km_keys s) (km_links s)
    (km_peerKeys s) (km_allocated s) (km_tick s) (km_stored s).
Definition set_peers (t : rbtree PeeridKeyMap) (s : KeyManager) : KeyManager :=
  mkKeyManager (km_storage s) (km_mixHashKeyMap s) t (km_lists s) (km_keys s) (km_links s)
    (km_peerKeys s) (km_allocated s) (km_tick s) (km_stored s).
Definition set_lists (l : KeyLists) (s : KeyManager) : KeyManager :=
  mkKeyManager (km_storage s) (km_mixHashKeyMap s) (km_peeridKeyMap s) l (km_keys s) (km_links s)
    (km_peerKeys s) (km_allocated s) (km_tick s) (km_stored s).
Definition set_keys (m : gmap Z KeyNode) (s : KeyManager) : KeyManager :=
  mkKeyManager (km_storage s) (km_mixHashKeyMap s) (km_peeridKeyMap s) (km_lists s) m (km_links s)
    (km_peerKeys s) (km_allocated s) (km_tick s) (km_stored s).
Definition set_links (h : links) (s : KeyManager) : KeyManager :=
  mkKeyManager (km_storage s) (km_mixHashKeyMap s) (km_peeridKeyMap s) (km_lists s) (km_keys s) h
    (km_peerKeys s) (km_allocated s) (km_tick s) (km_stored s).
Definition set_peerKeys (m : gmap Z (list Z)) (s : KeyManager) : KeyManager :=
  mkKeyManager (km_storage s) (km_mixHashKeyMap s) (km_peeridKeyMap s) (km_lists s) (km_keys s)
    (km_links s) m (km_allocated s) (km_tick s) (km_stored s).
Definition set_allocated (n : Z) (s : KeyManager) : KeyManager :=
  mkKeyManager (km_storage s) (km_mixHashKeyMap s) (km_peeridKeyMap s) (km_lists s) (km_keys s)
    (km_links s) (km_peerKeys s) n (km_tick s) (km_stored s).
Definition set_tick (n : nat) (s : KeyManager) : KeyManager :=
  mkKeyManager (km_storage s) (km_mixHashKeyMap s) (km_peeridKeyMap s) (km_lists s) (km_keys s)
    (km_links s) (km_peerKeys s) (km_allocated s) n (km_stored s).
Definition set_stored (l : list StorageCall) (s : KeyManager) : KeyManager :=
  mkKeyManager (km_storage s) (km_mixHashKeyMap s) (km_peeridKeyMap s) (km_lists s) (km_keys s)
    (km_links s) (km_peerKeys s) (km_allocated s) (km_tick s) l.

Definition set_info (i : BdtHistory_KeyInfo) (k : KeyNode) : KeyNode :=
  mkKeyNode i (kn_originalHashNode k) (kn_mixHashNodesWithAppend k) (kn_nextUpdateHash k) (kn_hashCount k).

(** ** Accesses *)

Abbreviation KM := (M KeyManager).

Definition get {A} (f : KeyManager → A) : KM A := λ s, Some (f s, s).
Definition modify (f : KeyManager → KeyManager) : KM unit := mwrite f.

(** A fresh block. *)
Definition malloc : KM Z := λ s, Some (km_allocated s, set_allocated (km_allocated s + 1) s).

Definition rd_key (id : Z) : KM KeyNode := mread (λ s, km_keys s !! id).
Definition wr_key (id : Z) (k : KeyNode) : KM unit :=
  _ ← rd_key id; modify (λ s, set_keys (<[id := k]> (km_keys s)) s).
Definition wr_info (id : Z) (i : BdtHistory_KeyInfo) : KM unit :=
  k ← rd_key id; wr_key id (set_info i k).
Definition rd_peerKeys (p : PeeridKeyMap) : KM (list Z) := mread (λ s, km_peerKeys s !! pn_addr p).
Definition wr_peerKeys (p : PeeridKeyMap) (l : list Z) : KM unit :=
  modify (λ s, set_peerKeys (<[pn_addr p := l]> (km_peerKeys s)) s).

(** A list macro, a tree macro. *)
Definition on_links {A} (c : M links A) : KM A := λ s,
  match c (km_links s) with Some (a, h) => Some (a, set_links h s) | None => None end.
Definition on_hashes (f : rbtree MixHashKeyMap → option (rbtree MixHashKeyMap)) : KM unit := λ s,
  match f (km_mixHashKeyMap s) with Some t => Some (tt, set_hashes t s) | None => None end.
Definition on_peers (f : rbtree PeeridKeyMap → option (rbtree PeeridKeyMap)) : KM unit := λ s,
  match f (km_peeridKeyMap s) with Some t => Some (tt, set_peers t s) | None => None end.

Definition set_header (h : option Z) : KM unit :=
  modify (λ s, let l := km_lists s in
    set_lists (mkKeyLists h (kl_tail l) (kl_firstHashMinutes l) (kl_rehashKeyList l)) s).
Definition set_tail (t : option Z) : KM unit :=
  modify (λ s, let l := km_lists s in
    set_lists (mkKeyLists (kl_header l) t (kl_firstHashMinutes l) (kl_rehashKeyList l)) s).
Definition set_firstHashMinutes (m : Z) : KM unit :=
  modify (λ s, let l := km_lists s in
    set_lists (mkKeyLists (kl_header l) (kl_tail l) m (kl_rehashKeyList l)) s).
Definition set_rehashKeyList (r : option Z) : KM unit :=
  modify (λ s, let l := km_lists s in
    set_lists (mkKeyLists (kl_header l) (kl_tail l) (kl_firstHashMinutes l) r) s).

Definition mix_hash_key_map_compare (x y : MixHashKeyMap) : Z :=
  memcmp BDT_MIX_HASH_LENGTH (hn_hash x) (hn_hash y).
Definition peerid_key_map_compare (x y : PeeridKeyMap) : Z :=
  memcmp BDT_PEERID_LENGTH (pn_peerid x) (pn_peerid y).

Section manager.
Context (asserts : bool) (activeTime : Z) (clock : nat → Z).
Context (sha256 : list Z → option (list Z)) (storageUpdate : StorageCall → Z).

(** [assert] *)
Definition cassert (b : bool) : KM unit := massert (b || negb asserts).

(** [BfxTimeGetNow(false)] *)
Definition BfxTimeGetNow : KM Z := λ s, Some (clock (km_tick s), set_tick (S (km_tick s)) s).
Definition BDT_MINUTES_NOW : KM Z := t ← BfxTimeGetNow; mret (BDT_MICRO_SECONDS_2_MINUTES t).

Definition mix_add (n : MixHashKeyMap) : KM unit :=
  on_hashes (λ t, sglib_add hn_addr mix_hash_key_map_compare t n).
Definition mix_delete (n : MixHashKeyMap) : KM unit :=
  on_hashes (λ t, sglib_delete hn_addr mix_hash_key_map_compare t n).
Definition peer_add (p : PeeridKeyMap) : KM unit :=
  on_peers (λ t, sglib_add pn_addr peerid_key_map_compare t p).
Definition peer_delete (p : PeeridKeyMap) : KM unit :=
  on_peers (λ t, sglib_delete pn_addr peerid_key_map_compare t p).

(** ** Creation and destruction *)

Definition KeyManagerInit (tick : nat) : KeyManager :=
  mkKeyManager false Leaf Leaf (mkKeyLists None None 0 None) ∅ (Links ∅ ∅) ∅ 1 tick [].

(** The hashes of a node are freed with it; they are values of its record. *)
Definition KeyNodeDestroy (id : Z) : KM unit :=
  _ ← rd_key id;
  modify (λ s, set_links (Links (delete id (lnext (km_links s))) (delete id (lprev (km_links s))))
                 (set_keys (delete id (km_keys s)) s)).

Fixpoint MixHashKeyMapDestroy (fuel : nat) : KM unit :=
  match fuel with
  | O => mfault
  | S fuel =>
      t ← get km_mixHashKeyMap;
      match t with
      | Leaf => mret tt
      | Node _ _ n _ => mix_delete n ;; MixHashKeyMapDestroy fuel
      end
  end.

Fixpoint PeeridKeyMapDestroy (fuel : nat) : KM unit :=
  match fuel with
  | O => mfault
  | S fuel =>
      t ← get km_peeridKeyMap;
      match t with
      | Leaf => mret tt
      | Node _ _ p _ =>
          peer_delete p ;;
          modify (λ s, set_peerKeys (delete (pn_addr p) (km_peerKeys s)) s) ;;
          PeeridKeyMapDestroy fuel
      end
  end.

Fixpoint KeyNodeListDestroy (fuel : nat) (lst : option Z) : KM unit :=
  match fuel with
  | O => mfault
  | S fuel =>
      match lst with
      | None => mret tt
      | Some node =>
          lst ← on_links (dl_delete lst node);
          KeyNodeDestroy node ;;
          KeyNodeListDestroy fuel lst
      end
  end.

Definition KeyManagerUninit : KM unit :=
  t ← get km_mixHashKeyMap;
  MixHashKeyMapDestroy (S (length (elems t))) ;;
  p ← get km_peeridKeyMap;
  PeeridKeyMapDestroy (S (length (elems p))) ;;
  n ← get (λ s, size (km_keys s));
  l ← get km_lists;
  KeyNodeListDestroy (S n) (kl_header l) ;;
  set_header None ;;
  set_tail None ;;
  l ← get km_lists;
  KeyNodeListDestroy (S n) (kl_rehashKeyList l) ;;
  set_rehashKeyList None.

(** ** Hashes *)

Definition CalcKeyHashImpl (aesKey append : list Z) : option (list Z) :=
  take BDT_MIX_HASH_LENGTH <$> sha256 (aesKey ++ append).
Definition BdtHistory_KeyManagerCalcKeyHash (aesKey : list Z) : option (list Z) :=
  CalcKeyHashImpl aesKey [].

(** The slot whose turn it is, and its successor. *)
Definition next_slot (k : KeyNode) : KM (option MixHashKeyMap) :=
  mread (λ _, kn_mixHashNodesWithAppend k !! Z.to_nat (kn_nextUpdateHash k)).
Definition fill_slot (n : MixHashKeyMap) (k : KeyNode) : KeyNode :=
  mkKeyNode (kn_keyInfo k) (kn_originalHashNode k)
    (<[Z.to_nat (kn_nextUpdateHash k) := Some n]> (kn_mixHashNodesWithAppend k))
    (u32 (kn_nextUpdateHash k + 1) mod MIX_HASH_WITH_APPEND_COUNT) (kn_hashCount k).

(** The loop over the slots; the answer pairs the hash that was in a slot
    ([deadHashNodes]) with the one put there ([newHashNodes]). *)
Fixpoint rehash_slots (n : nat) (id minMinutes minutes : Z) :
    KM (list (option MixHashKeyMap * MixHashKeyMap)) :=
  match n with
  | O => mret []
  | S n =>
      k ← rd_key id;
      old ← next_slot k;
      if (match old with Some o => bool_decide (minMinutes ≤ hn_minutes o) | None => false end)
      then mret []
      else
        a ← malloc;
        match CalcKeyHashImpl (ki_aesKey (kn_keyInfo k)) (le_bytes 4 minutes) with
        | None => cassert false ;; mret []
        | Some h =>
            let new := mkHashNode a id h minutes in
            wr_key id (fill_slot new k) ;;
            rest ← rehash_slots n id minMinutes (u32 (minutes + 1));
            mret ((old, new) :: rest)
        end
  end.

Definition KeyManagerRehashAesKey (id : Z) : KM (list (option MixHashKeyMap * MixHashKeyMap)) :=
  minutes ← BDT_MINUTES_NOW;
  let minMinutes := u32 (minutes - MIX_HASH_REDUNDANCY_MINUTES) in
  let maxMinutes := u32 (minutes + MIX_HASH_REDUNDANCY_MINUTES) in
  let slots := Z.to_nat MIX_HASH_WITH_APPEND_COUNT in
  k ← rd_key id;
  if decide (kn_hashCount k = 0) then
    a ← malloc;
    match CalcKeyHashImpl (ki_aesKey (kn_keyInfo k)) [] with
    | None =>
        wr_key id (mkKeyNode (kn_keyInfo k) (kn_originalHashNode k) (kn_mixHashNodesWithAppend k)
                     (kn_nextUpdateHash k) BDT_MIX_HASH_4_KEY_LIMIT) ;;
        mret []
    | Some h =>
        let new := mkHashNode a id h 0 in
        wr_key id (mkKeyNode (kn_keyInfo k) (Some new) (kn_mixHashNodesWithAppend k) 0
                     BDT_MIX_HASH_4_KEY_LIMIT) ;;
        rest ← rehash_slots slots id minMinutes (u32 (minutes - MIX_HASH_REDUNDANCY_MINUTES));
        mret ((None, new) :: rest)
    end
  else
    let newestHashIndex := u32 (kn_nextUpdateHash k - 1) mod MIX_HASH_WITH_APPEND_COUNT in
    newest ← mread (λ _, mjoin (kn_mixHashNodesWithAppend k !! Z.to_nat newestHashIndex));
    let nextMinutes := u32 (hn_minutes newest + 1) in
    if decide (nextMinutes < minMinutes) then
      rehash_slots slots id minMinutes (u32 (minutes - MIX_HASH_REDUNDANCY_MINUTES))
    else if decide (nextMinutes > maxMinutes) then mret []
    else rehash_slots slots id minMinutes minutes.

Definition KeyManagerDeleteMixHash (n : option MixHashKeyMap) : KM unit :=
  match n with None => mret tt | Some n => mix_delete n end.

(** ** Keys *)

Definition KeyManagerUpdateKey (i : BdtHistory_KeyInfo) (confirmed : bool) (expireTime : Z) :
    bool * BdtHistory_KeyInfo :=
  let confirming := confirmed && negb (ki_isConfirmed i) in
  let extending := bool_decide (expireTime ≠ 0) &&
    (bool_decide (expireTime < ki_expireTime i) || bool_decide (expireTime - ki_expireTime i > 60)) in
  (confirming || extending,
   mkKeyInfo (ki_aesKey i) (confirming || ki_isConfirmed i) (ki_isStorage i)
     (if extending then expireTime else ki_expireTime i) (ki_lastAccessTime i) (ki_peerid i)).

(** Answers whether the key is new to the storage and whether there is one. *)
Definition KeyManagerPrepareForStorage (storage : bool) (i : BdtHistory_KeyInfo) :
    bool * bool * BdtHistory_KeyInfo :=
  if storage then
    (negb (ki_isStorage i), true,
     mkKeyInfo (ki_aesKey i) (ki_isConfirmed i) true (ki_expireTime i) (ki_lastAccessTime i) (ki_peerid i))
  else (false, false, i).

Definition with_access (now : Z) (i : BdtHistory_KeyInfo) : BdtHistory_KeyInfo :=
  mkKeyInfo (ki_aesKey i) (ki_isConfirmed i) (ki_isStorage i) (ki_expireTime i) now (ki_peerid i).

Definition KeyManagerFindKeyByPeeridNoLock (peerid : list Z) : KM (option PeeridKeyMap) :=
  t ← get km_peeridKeyMap;
  mret (find_member peerid_key_map_compare t (mkPeerNode 0 peerid)).

(** The first of the keys [ids] that is [aesKey]. *)
Fixpoint find_aes_key (ids : list Z) (aesKey : list Z) : KM (option Z) :=
  match ids with
  | [] => mret None
  | id :: ids =>
      k ← rd_key id;
      if decide (memcmp BDT_AES_KEY_LENGTH (ki_aesKey (kn_keyInfo k)) aesKey = 0) then mret (Some id)
      else find_aes_key ids aesKey
  end.

(** Answers the key and the peer's node. *)
Definition KeyManagerFindAesKeyNoLock (aesKey peerid : list Z) (exist : option PeeridKeyMap) :
    KM (option Z * option PeeridKeyMap) :=
  p ← match exist with
      | None => KeyManagerFindKeyByPeeridNoLock peerid
      | Some p => cassert (bool_decide (memcmp BDT_PEERID_LENGTH (pn_peerid p) peerid = 0)) ;; mret exist
      end;
  match p with
  | None => mret (None, None)
  | Some p =>
      ids ← rd_peerKeys p;
      cassert (bool_decide (ids ≠ [])) ;;
      id ← find_aes_key ids aesKey;
      mret (id, Some p)
  end.

(** The block is zeroed, its links included. *)
Definition KeyNodeCreate (aesKey : list Z) (peerid : list Z) : KM Z :=
  id ← malloc;
  now ← BfxTimeGetNow;
  modify (λ s, set_links (Links (<[id := None]> (lnext (km_links s))) (<[id := None]> (lprev (km_links s))))
    (set_keys (<[id := mkKeyNode (mkKeyInfo aesKey false false 0 (BDT_MICRO_SECONDS_2_SECONDS now) peerid)
                         None [None; None; None] 0 0]> (km_keys s)) s)) ;;
  mret id.

Fixpoint add_hashes (l : list (option MixHashKeyMap)) : KM unit :=
  match l with
  | [] => mret tt
  | n :: l => n ← mread (λ _, n); mix_add n ;; add_hashes l
  end.

(** The list begins at the new key: [add_before(&header)], and the first key
    of an empty list is its tail too. *)
Definition push_header (id : Z) : KM unit :=
  l ← get km_lists;
  h ← on_links (dl_add_before (kl_header l) id);
  set_header h ;;
  match kl_tail l with
  | None => m ← BDT_MINUTES_NOW; set_firstHashMinutes m ;; set_tail (Some id)
  | Some _ => mret tt
  end.

Definition push_tail (id : Z) : KM unit :=
  l ← get km_lists;
  t ← on_links (dl_add_after (kl_tail l) id);
  set_tail t ;;
  match kl_header l with
  | None => m ← BDT_MINUTES_NOW; set_firstHashMinutes m ;; set_header (Some id)
  | Some _ => mret tt
  end.

(** The part of [AddNewKey] that makes the key, of a peer that is in the tree
    or, when [newPeer] is set, has just been made. *)
Definition create_key (aesKey : list Z) (p : PeeridKeyMap) (newPeer : bool) : KM Z :=
  id ← KeyNodeCreate aesKey (pn_peerid p);
  k ← rd_key id;
  let i := kn_keyInfo k in
  wr_info id (mkKeyInfo (ki_aesKey i) (ki_isConfirmed i) (ki_isStorage i)
                (ki_lastAccessTime i + activeTime) (ki_lastAccessTime i) (ki_peerid i)) ;;
  _ ← KeyManagerRehashAesKey id;
  push_header id ;;
  ids ← rd_peerKeys p;
  wr_peerKeys p (id :: ids) ;;
  (if newPeer then peer_add p else mret tt) ;;
  k ← rd_key id;
  add_hashes (take (Z.to_nat (kn_hashCount k)) (kn_mixHashNodes k)) ;;
  mret id.

Definition KeyManagerAddNewKeyNoLock (aesKey peerid : list Z) (exist : option PeeridKeyMap) : KM (Z * Z) :=
  '(found, exist) ← KeyManagerFindAesKeyNoLock aesKey peerid exist;
  match found with
  | Some id => mret (BFX_RESULT_ALREADY_EXISTS, id)
  | None =>
      id ← match exist with
           | Some p => create_key aesKey p false
           | None => a ← malloc;
                     let p := mkPeerNode a peerid in
                     wr_peerKeys p [] ;;
                     create_key aesKey p true
           end;
      mret (BFX_RESULT_SUCCESS, id)
  end.

(** ** Forgetting keys *)

Definition key_node_compare (left right : Z) : option Z := if asserts then None else Some 0.

Definition forget_tail_of_empty : KM unit :=
  l ← get km_lists;
  match kl_header l with None => set_tail None | Some _ => mret tt end.

Definition KeyManagerRemoveKeyNodeFromList (id minHashMinutes : Z) : KM unit :=
  k ← rd_key id;
  oldest ← mread (λ _, mjoin (kn_mixHashNodesWithAppend k !! Z.to_nat (kn_nextUpdateHash k)));
  l ← get km_lists;
  if decide (hn_minutes oldest < minHashMinutes) then
    '(r, found) ← on_links (dl_delete_if_member key_node_compare (kl_rehashKeyList l) id);
    set_rehashKeyList r ;;
    match found with
    | Some _ => mret tt
    | None => h ← on_links (dl_delete (kl_header l) id); set_header h ;; forget_tail_of_empty
    end
  else
    '(h, found) ← on_links (dl_delete_if_member key_node_compare (kl_header l) id);
    set_header h ;;
    match found with
    | Some _ => forget_tail_of_empty
    | None => r ← on_links (dl_delete (kl_rehashKeyList l) id); set_rehashKeyList r
    end.

Fixpoint delete_hashes (l : list (option MixHashKeyMap)) : KM unit :=
  match l with
  | [] => mret tt
  | n :: l => KeyManagerDeleteMixHash n ;; delete_hashes l
  end.

Definition KeyManagerDeleteKey (id : option Z) (minHashMinutes : Z) : KM unit :=
  match id with
  | None => mret tt
  | Some id =>
      k ← rd_key id;
      delete_hashes (kn_mixHashNodes k) ;;
      KeyManagerRemoveKeyNodeFromList id minHashMinutes ;;
      KeyNodeDestroy id
  end.

Fixpoint delete_keys (ids : list Z) (minHashMinutes : Z) : KM unit :=
  match ids with
  | [] => mret tt
  | id :: ids => KeyManagerDeleteKey (Some id) minHashMinutes ;; delete_keys ids minHashMinutes
  end.

Definition KeyManagerDeletePeer (p : PeeridKeyMap) : KM unit :=
  peer_delete p ;;
  ids ← rd_peerKeys p;
  match ids with
  | [] => mret tt
  | _ => m ← BDT_MINUTES_NOW; delete_keys ids (u32 (m - MIX_HASH_REDUNDANCY_MINUTES))
  end ;;
  modify (λ s, set_peerKeys (delete (pn_addr p) (km_peerKeys s)) s).

(** The loop over the keys of a peer: [before] are those already kept. *)
Fixpoint clear_loop (p : PeeridKeyMap) (nowSeconds minHashMinutes : Z) (before ids : list Z) : KM unit :=
  match ids with
  | [] => mret tt
  | id :: ids =>
      k ← rd_key id;
      if decide (ki_expireTime (kn_keyInfo k) > nowSeconds) then
        clear_loop p nowSeconds minHashMinutes (before ++ [id]) ids
      else
        wr_peerKeys p (before ++ ids) ;;
        KeyManagerDeleteKey (Some id) minHashMinutes ;;
        clear_loop p nowSeconds minHashMinutes before ids
  end.

(** With a key, that key alone is looked at, and is unlinked from its peer
    before [KeyManagerDeleteKey] is called on NULL. *)
Definition KeyManagerClearExpireKeyNoLock (peer : option PeeridKeyMap) (key : option Z) :
    KM (option PeeridKeyMap) :=
  match peer, key with
  | None, None => cassert false ;; mret None
  | _, _ =>
      p ← match peer, key with
          | None, Some id =>
              k ← rd_key id;
              p ← KeyManagerFindKeyByPeeridNoLock (ki_peerid (kn_keyInfo k));
              mread (λ _, p)
          | _, _ => mread (λ _, peer)
          end;
      now ← BfxTimeGetNow;
      let nowSeconds := BDT_MICRO_SECONDS_2_SECONDS now in
      let minHashMinutes := u32 (BDT_MICRO_SECONDS_2_MINUTES now - MIX_HASH_REDUNDANCY_MINUTES) in
      expired ← match key with
                | None =>
                    ids ← rd_peerKeys p;
                    clear_loop p nowSeconds minHashMinutes [] ids ;;
                    mret true
                | Some id =>
                    k ← rd_key id;
                    if decide (ki_expireTime (kn_keyInfo k) > nowSeconds) then mret false
                    else
                      ids ← rd_peerKeys p;
                      massert (bool_decide (id ∈ ids)) ;;
                      wr_peerKeys p (filter (.≠ id) ids) ;;
                      KeyManagerDeleteKey None minHashMinutes ;;
                      mret true
                end;
      if (expired : bool) then
        ids ← rd_peerKeys p;
        match ids with
        | [] => KeyManagerDeletePeer p ;; mret None
        | _ => mret (Some p)
        end
      else mret (Some p)
  end.

(** ** The storage *)

Definition KeyManagerStorageUpdateAesKey (peerid aesKey : list Z) (i : BdtHistory_KeyInfo) (isNew : bool) : KM unit :=
  let c := mkStorageCall peerid aesKey (ki_expireTime i) (ki_isConfirmed i) (ki_isStorage i)
             (ki_lastAccessTime i) isNew in
  modify (λ s, set_stored (km_stored s ++ [c]) s) ;;
  let result := storageUpdate c in
  if bool_decide (result ≠ BFX_RESULT_PENDING) && isNew && bool_decide (result ≠ BFX_RESULT_SUCCESS)
     && bool_decide (result ≠ BFX_RESULT_ALREADY_OPERATION)
  then
    '(found, _) ← KeyManagerFindAesKeyNoLock aesKey peerid None;
    match found with
    | None => mret tt
    | Some id =>
        k ← rd_key id;
        let i := kn_keyInfo k in
        wr_info id (mkKeyInfo (ki_aesKey i) (ki_isConfirmed i) false (ki_expireTime i)
                      (ki_lastAccessTime i) (ki_peerid i))
    end
  else mret tt.

(** ** Finding a key by a hash *)

Definition KeyManagerFindByMixHashNoRehashNoLock (mixHash : list Z) : KM (option Z) :=
  t ← get km_mixHashKeyMap;
  mret (hn_keyNode <$> find_member mix_hash_key_map_compare t (mkHashNode 0 0 mixHash 0)).

(** Puts the new hashes in the tree; the answer is the key of the last one
    that is [mixHash]. *)
Fixpoint replace_hashes (l : list (option MixHashKeyMap * MixHashKeyMap)) (mixHash : list Z)
    (hit : option Z) : KM (option Z) :=
  match l with
  | [] => mret hit
  | (dead, new) :: l =>
      KeyManagerDeleteMixHash dead ;;
      mix_add new ;;
      replace_hashes l mixHash
        (if decide (memcmp BDT_MIX_HASH_LENGTH (hn_hash new) mixHash = 0) then Some (hn_keyNode new) else hit)
  end.

Definition KeyManagerFindByMixHashInNextRehashNodeNoLock (mixHash : list Z) : KM (option Z) :=
  l ← get km_lists;
  match kl_rehashKeyList l with
  | None => mret None
  | Some node =>
      r ← on_links (dl_delete (Some node) node);
      set_rehashKeyList r ;;
      pairs ← KeyManagerRehashAesKey node;
      hit ← replace_hashes pairs mixHash None;
      match hit with Some _ => push_header node | None => push_tail node end ;;
      mret hit
  end.

Definition KeyManagerMoveAllKeyToRehashNoLock : KM unit :=
  l ← get km_lists;
  t ← mread (λ _, kl_tail l);
  on_links (wr_nx t (kl_rehashKeyList l)) ;;
  on_links (on_some (kl_rehashKeyList l) (λ r, wr_pv r (Some t))) ;;
  set_rehashKeyList (kl_header l) ;;
  set_header None ;;
  set_tail None.

(** A key that was found is touched; the answer is whether it has changed,
    whether it is new to the storage, whether there is a storage, and the key. *)
Definition touch_key (id nowSeconds : Z) (confirmed touch prepare : bool) :
    KM (bool * bool * bool * BdtHistory_KeyInfo) :=
  k ← rd_key id;
  let '(changed, i) := KeyManagerUpdateKey (with_access nowSeconds (kn_keyInfo k)) confirmed
                         (if touch then nowSeconds + activeTime else 0) in
  storage ← get km_storage;
  let '(isNew, canStorage, i) :=
    if prepare then KeyManagerPrepareForStorage storage i else (false, false, i) in
  wr_info id i ;;
  mret (changed, isNew, canStorage, i).

Definition store_found (r : bool * bool * bool * BdtHistory_KeyInfo) : KM (Z * option (list Z * list Z)) :=
  let '(changed, isNew, canStorage, i) := r in
  (if changed && canStorage
   then KeyManagerStorageUpdateAesKey (ki_peerid i) (ki_aesKey i) i isNew
   else mret tt) ;;
  mret (BFX_RESULT_SUCCESS, Some (ki_aesKey i, ki_peerid i)).

Fixpoint rehash_loop (fuel : nat) (mixHash : list Z) (nowSeconds : Z) (touch confirmed : bool) :
    KM (option (bool * bool * bool * BdtHistory_KeyInfo)) :=
  match fuel with
  | O => mfault
  | S fuel =>
      l ← get km_lists;
      match kl_rehashKeyList l with
      | None => mret None
      | Some _ =>
          hit ← KeyManagerFindByMixHashInNextRehashNodeNoLock mixHash;
          match hit with
          | Some id => r ← touch_key id nowSeconds confirmed touch false; mret (Some r)
          | None => rehash_loop fuel mixHash nowSeconds touch confirmed
          end
      end
  end.

(** Each turn of the loop takes a key off the rehash list, so that the number
    of keys bounds it. *)
Definition BdtHistory_KeyManagerFindByMixHash (mixHash : list Z) (touch confirmedByRemote : bool) :
    KM (Z * option (list Z * list Z)) :=
  found ← KeyManagerFindByMixHashNoRehashNoLock mixHash;
  match found with
  | Some id =>
      now ← BfxTimeGetNow;
      r ← touch_key id (BDT_MICRO_SECONDS_2_SECONDS now) confirmedByRemote touch true;
      store_found r
  | None =>
      now ← BfxTimeGetNow;
      let nowMinutes := BDT_MICRO_SECONDS_2_MINUTES now in
      let nowSeconds := BDT_MICRO_SECONDS_2_SECONDS now in
      l ← get km_lists;
      (if decide (u32 (nowMinutes - kl_firstHashMinutes l) > 0 ∧ is_Some (kl_tail l))
       then KeyManagerMoveAllKeyToRehashNoLock else mret tt) ;;
      n ← get (λ s, size (km_keys s));
      r ← rehash_loop (S n) mixHash nowSeconds touch confirmedByRemote;
      match r with
      | Some r => store_found r
      | None =>
          found ← KeyManagerFindByMixHashNoRehashNoLock mixHash;
          match found with
          | Some id =>
              r ← touch_key id nowSeconds confirmedByRemote touch true;
              store_found r
          | None => mret (BFX_RESULT_NOT_FOUND, None)
          end
      end
  end.

(** ** The key for a peer *)

(** The key accessed last among [best] and [ids], the first of them on a tie. *)
Fixpoint last_access (best : Z) (ids : list Z) : KM Z :=
  match ids with
  | [] => mret best
  | id :: ids =>
      k ← rd_key id;
      b ← rd_key best;
      last_access (if decide (ki_lastAccessTime (kn_keyInfo k) > ki_lastAccessTime (kn_keyInfo b))
                   then id else best) ids
  end.

Definition KeyManagerFindLastAccessKeyByRemoteNoLock (peerid : list Z) : KM (option Z * option PeeridKeyMap) :=
  now ← BfxTimeGetNow;
  let nowSeconds := BDT_MICRO_SECONDS_2_SECONDS now in
  p ← KeyManagerFindKeyByPeeridNoLock peerid;
  match p with
  | None => mret (None, None)
  | Some p =>
      ids ← rd_peerKeys p;
      first ← mread (λ _, head ids);
      best ← last_access first (tail ids);
      k ← rd_key best;
      if decide (nowSeconds < ki_expireTime (kn_keyInfo k)) then
        wr_info best (with_access nowSeconds (kn_keyInfo k)) ;;
        mret (Some best, Some p)
      else mret (None, Some p)
  end.

(** The answer: the result, the key, the new value of [*inoutNew] and
    [*outIsConfirmByRemote].  [random] is what [BfxRandomBytes] makes. *)
Definition BdtHistory_KeyManagerGetKeyByRemote (peerid : list Z) (inNew touch : bool) (random : list Z) :
    KM (Z * option (list Z) * bool * bool) :=
  '(node, p) ← KeyManagerFindLastAccessKeyByRemoteNoLock peerid;
  match node with
  | Some id =>
      k ← rd_key id;
      let confirmed := ki_isConfirmed (kn_keyInfo k) in
      let '(changed, i) := KeyManagerUpdateKey (kn_keyInfo k) false
        (if touch then ki_lastAccessTime (kn_keyInfo k) + activeTime else 0) in
      storage ← get km_storage;
      let '(isNew, canStorage, i) := KeyManagerPrepareForStorage storage i in
      wr_info id i ;;
      p' ← mread (λ _, p);
      ids ← rd_peerKeys p';
      (if decide (2 ≤ length ids)%nat
       then _ ← KeyManagerClearExpireKeyNoLock p None; mret tt
       else mret tt) ;;
      (if changed && canStorage
       then KeyManagerStorageUpdateAesKey peerid (ki_aesKey i) i isNew
       else mret tt) ;;
      mret (BFX_RESULT_SUCCESS, Some (ki_aesKey i), false, confirmed)
  | None =>
      if negb inNew then mret (BFX_RESULT_NOT_FOUND, None, inNew, false)
      else
        p ← match p with
            | None => mret None
            | Some _ => p ← KeyManagerFindKeyByPeeridNoLock peerid; KeyManagerClearExpireKeyNoLock p None
            end;
        '(result, id) ← KeyManagerAddNewKeyNoLock random peerid p;
        k ← rd_key id;
        storage ← get km_storage;
        let '(_, canStorage, i) := KeyManagerPrepareForStorage storage (kn_keyInfo k) in
        wr_info id i ;;
        (if canStorage && (bool_decide (result = BFX_RESULT_SUCCESS) || bool_decide (result = BFX_RESULT_ALREADY_EXISTS))
         then KeyManagerStorageUpdateAesKey peerid random i true
         else mret tt) ;;
        mret (result, Some random, inNew, false)
  end.

(** ** Adding keys *)

Definition confirm (b : bool) (i : BdtHistory_KeyInfo) : BdtHistory_KeyInfo :=
  mkKeyInfo (ki_aesKey i) (b || ki_isConfirmed i) (ki_isStorage i) (ki_expireTime i)
    (ki_lastAccessTime i) (ki_peerid i).

(** The part of [AddKey] under the write lock. *)
Definition add_under_lock (aesKey peerid : list Z) (confirmedByRemote : bool) : KM Z :=
  '(result, id) ← KeyManagerAddNewKeyNoLock aesKey peerid None;
  k ← rd_key id;
  storage ← get km_storage;
  let '(_, canStorage, i) := KeyManagerPrepareForStorage storage (confirm confirmedByRemote (kn_keyInfo k)) in
  wr_info id i ;;
  (if canStorage then KeyManagerStorageUpdateAesKey peerid aesKey i true else mret tt) ;;
  mret result.

Definition BdtHistory_KeyManagerAddKey (aesKey peerid : list Z) (confirmedByRemote : bool) : KM Z :=
  '(found, _) ← KeyManagerFindAesKeyNoLock aesKey peerid None;
  match found with
  | Some id =>
      now ← BfxTimeGetNow;
      '(_, isNew, canStorage, i) ← touch_key id (BDT_MICRO_SECONDS_2_SECONDS now) confirmedByRemote true true;
      if (canStorage : bool) then
        KeyManagerStorageUpdateAesKey peerid aesKey i isNew ;;
        mret BFX_RESULT_ALREADY_EXISTS
      else add_under_lock aesKey peerid confirmedByRemote
  | None => add_under_lock aesKey peerid confirmedByRemote
  end.

Definition KeyManagerAddOuterKey (outer : BdtHistory_KeyInfo) : KM Z :=
  '(result, id) ← KeyManagerAddNewKeyNoLock (ki_aesKey outer) (ki_peerid outer) None;
  if decide (result = BFX_RESULT_ALREADY_EXISTS) then mret id
  else
    k ← rd_key id;
    let i := kn_keyInfo k in
    wr_info id (mkKeyInfo (ki_aesKey i) (ki_isConfirmed outer) true (ki_expireTime outer)
                  (ki_lastAccessTime outer) (ki_peerid i)) ;;
    mret id.

Fixpoint KeyManagerMergeOuterKeysNoLock (outerKeys : list BdtHistory_KeyInfo) : KM unit :=
  match outerKeys with
  | [] => mret tt
  | outer :: outerKeys => _ ← KeyManagerAddOuterKey outer; KeyManagerMergeOuterKeysNoLock outerKeys
  end.

Definition KeyManagerMergeOuterKeys (outerKeys : list BdtHistory_KeyInfo) : KM unit :=
  modify (set_storage true) ;; KeyManagerMergeOuterKeysNoLock outerKeys.

Definition BdtHistory_KeyManagerOnLoadDone (errorCode : Z) (aesKeys : list BdtHistory_KeyInfo) : KM unit :=
  if decide (errorCode ≠ BFX_RESULT_SUCCESS) then mret tt
  else KeyManagerMergeOuterKeys aesKeys.
End manager.
