(* ===== verification/KeyProofs.v ===== *)
(** * The invariant of the key manager

    [keys_sound]: the tree of hashes holds exactly the hashes of the keys, each
    key has its four hashes, every key is in the list of its peer and the tree
    of peers has one node per peer.  [lists_sound]: the two lists of keys are
    well formed, and the header and the tail of the first are the same node.
    The operations that add keys and find them keep both and never fault. *)

From stdpp Require Import sorting.
From S2P Require Import Prelude CInt BufferStream SgTree SgList KeyManager.

(** ** [memcmp] is a total preorder *)

Lemma memcmp_opp n a b : memcmp n a b < 0 ↔ memcmp n b a > 0.
Proof.
  revert a b. induction n as [|n IH]; intros a b; cbn [memcmp]; [lia|].
  destruct (decide (default 0 (head a) = default 0 (head b))) as [E|E].
  - rewrite (decide_True (P := default 0 (head b) = _)) by done. apply IH.
  - rewrite decide_False by done. lia.
Qed.

Lemma memcmp_trans n a b c : memcmp n a b ≤ 0 → memcmp n b c ≤ 0 → memcmp n a c ≤ 0.
Proof.
  revert a b c. induction n as [|n IH]; intros a b c; cbn [memcmp]; [lia|].
  repeat case_decide; try lia. apply IH.
Qed.

Lemma memcmp_refl n a : memcmp n a a = 0.
Proof. revert a. induction n as [|n IH]; intros a; cbn [memcmp]; [done|]. rewrite decide_True by done. apply IH. Qed.

(** On two blocks of the right length it is equality. *)
Lemma memcmp_equal n a b : length a = n → length b = n → memcmp n a b = 0 → a = b.
Proof.
  revert a b. induction n as [|n IH]; intros [|x a] [|y b]; simpl; try lia; [done|].
  intros Ha Hb. case_decide as E; [|lia]. intros Hm. f_equal; [done|]. apply IH; [lia|lia|done].
Qed.

#[export] Instance mix_hash_laws : CmpLaws mix_hash_key_map_compare.
Proof. split; intros; [apply memcmp_opp|by eapply memcmp_trans]. Qed.
#[export] Instance peerid_laws : CmpLaws peerid_key_map_compare.
Proof. split; intros; [apply memcmp_opp|by eapply memcmp_trans]. Qed.

Lemma memcmp_zero_trans n a b c : memcmp n a b = 0 → memcmp n b c = 0 → memcmp n a c = 0.
Proof.
  intros H1 H2. pose proof (memcmp_trans n a b c). pose proof (memcmp_trans n c b a).
  pose proof (memcmp_opp n a b). pose proof (memcmp_opp n b a). pose proof (memcmp_opp n b c).
  pose proof (memcmp_opp n c b). pose proof (memcmp_opp n a c). pose proof (memcmp_opp n c a). lia.
Qed.
Lemma memcmp_zero_sym n a b : memcmp n a b = 0 → memcmp n b a = 0.
Proof. intros H. pose proof (memcmp_opp n a b). pose proof (memcmp_opp n b a). lia. Qed.

(** ** The hashes of the keys *)

Definition slots (k : KeyNode) : list MixHashKeyMap := omap id (kn_mixHashNodes k).
Definition all_slots (m : gmap Z KeyNode) : list MixHashKeyMap :=
  map_to_list m ≫= λ p, slots p.2.

Lemma all_slots_insert m id k :
  m !! id = None → all_slots (<[id := k]> m) ≡ₚ slots k ++ all_slots m.
Proof. intros H. unfold all_slots. by rewrite map_to_list_insert. Qed.

Lemma all_slots_delete m id k :
  m !! id = Some k → all_slots m ≡ₚ slots k ++ all_slots (delete id m).
Proof.
  intros H. rewrite <- (insert_delete_id m id k) at 1 by done.
  apply all_slots_insert, lookup_delete_eq.
Qed.

Lemma all_slots_update m id k k' :
  m !! id = Some k → all_slots (<[id := k']> m) ++ slots k ≡ₚ all_slots m ++ slots k'.
Proof.
  intros H. rewrite <- insert_delete_eq, all_slots_insert by apply lookup_delete_eq.
  rewrite (all_slots_delete m id k H). solve_Permutation.
Qed.

Lemma elem_of_all_slots m n : n ∈ all_slots m ↔ ∃ id k, m !! id = Some k ∧ n ∈ slots k.
Proof.
  unfold all_slots. rewrite list_elem_of_bind. split.
  - intros ([id k] & Hn & Hk%elem_of_map_to_list). eauto.
  - intros (id & k & Hk & Hn). exists (id, k). split; [done|]. by apply elem_of_map_to_list.
Qed.

Lemma elem_of_slots k n : n ∈ slots k ↔ Some n ∈ kn_mixHashNodes k.
Proof.
  unfold slots. rewrite list_elem_of_omap. split.
  - intros ([n'|] & H & E); simplify_eq/=. done.
  - intros H. by exists (Some n).
Qed.

(** The tree against the slots of the keys: [dead] hashes are still in the
    tree and no longer in a slot, [pend] hashes are in a slot and not yet in the
    tree. *)
Record hashes_sound (t : rbtree MixHashKeyMap) (m : gmap Z KeyNode) (alloc : Z)
    (dead pend : list MixHashKeyMap) : Prop := {
  hs_tree : well_formed hn_addr mix_hash_key_map_compare t;
  hs_perm : elems t ++ pend ≡ₚ all_slots m ++ dead;
  hs_nodup : NoDup (hn_addr <$> elems t ++ pend);
  hs_alloc n : n ∈ elems t ++ pend → hn_addr n < alloc;
  hs_dead n : n ∈ dead → n ∈ elems t;
}.

Lemma hashes_add t m a dead n pend :
  hashes_sound t m a dead (n :: pend) →
  ∃ t', sglib_add hn_addr mix_hash_key_map_compare t n = Some t' ∧ hashes_sound t' m a dead pend.
Proof.
  intros [Ht Hp Hnd Ha Hd].
  assert (Hn : hn_addr n ∉ hn_addr <$> elems t).
  { rewrite fmap_app, fmap_cons in Hnd. apply NoDup_app in Hnd as (_ & Hnd & _).
    intros Hn. apply (Hnd _ Hn). by left. }
  destruct (sglib_add_spec hn_addr mix_hash_key_map_compare t n Ht Hn) as (t' & Hr & Ht' & Hp').
  exists t'. split; [done|].
  assert (Hpp : elems t' ++ pend ≡ₚ elems t ++ n :: pend) by (rewrite Hp'; solve_Permutation).
  split; [done| | | |].
  - by rewrite Hpp.
  - by rewrite Hpp.
  - intros x Hx. apply Ha. by rewrite <- Hpp.
  - intros x Hx. rewrite Hp'. right. by apply Hd.
Qed.

Lemma hashes_delete t m a n dead pend :
  hashes_sound t m a (n :: dead) pend →
  ∃ t', sglib_delete hn_addr mix_hash_key_map_compare t n = Some t' ∧ hashes_sound t' m a dead pend.
Proof.
  intros [Ht Hp Hnd Ha Hd].
  destruct (sglib_delete_spec hn_addr mix_hash_key_map_compare t n Ht) as (t' & Hr & Ht' & Hp').
  { apply Hd. by left. }
  exists t'. split; [done|].
  assert (Hpp : elems t ++ pend ≡ₚ n :: elems t' ++ pend) by (by rewrite Hp').
  assert (Hn : n ∉ dead).
  { assert (Hnd' : NoDup (all_slots m ++ n :: dead)) by (rewrite <- Hp; by eapply NoDup_fmap_1).
    apply NoDup_app in Hnd' as (_ & _ & Hnd'). by apply NoDup_cons in Hnd' as [? _]. }
  split; [done| | | |].
  - apply (Permutation_cons_inv (a := n)). rewrite <- Hpp, Hp. solve_Permutation.
  - rewrite Hpp, fmap_cons in Hnd. by apply NoDup_cons in Hnd as [_ ?].
  - intros x Hx. apply Ha. rewrite Hpp. by right.
  - intros x Hx. specialize (Hd x ltac:(by right)). rewrite Hp' in Hd.
    apply elem_of_cons in Hd as [->|?]; done.
Qed.

(** ** Rehashing a key *)

Section rehash.
Context (asserts : bool) (clock : nat → Z) (sha256 : list Z → option (list Z)).

(** SHA-256 always answers. *)
Context (sha_ok : ∀ bs, is_Some (sha256 bs)).

Definition hash_of (aesKey append : list Z) : list Z := default [] (CalcKeyHashImpl sha256 aesKey append).

Lemma CalcKeyHash_Some aesKey append : CalcKeyHashImpl sha256 aesKey append = Some (hash_of aesKey append).
Proof. unfold hash_of, CalcKeyHashImpl. by destruct (sha_ok (aesKey ++ append)) as [h ->]. Qed.

(** A key with its four hashes. *)
Record key_whole (id : Z) (k : KeyNode) : Prop := {
  kw_count : kn_hashCount k = BDT_MIX_HASH_4_KEY_LIMIT;
  kw_next : kn_nextUpdateHash k = 0 ∨ kn_nextUpdateHash k = 1 ∨ kn_nextUpdateHash k = 2;
  kw_slots : ∃ a b c, kn_mixHashNodesWithAppend k = [Some a; Some b; Some c];
  kw_original : ∃ o, kn_originalHashNode k = Some o ∧ hn_hash o = hash_of (ki_aesKey (kn_keyInfo k)) [];
  kw_owner n : n ∈ slots k → hn_keyNode n = id;
  kw_hashed n : n ∈ slots k → ∃ append, hn_hash n = hash_of (ki_aesKey (kn_keyInfo k)) append;
}.

(** The state with one key written and some blocks allocated. *)
Definition upd_key (s : KeyManager) (id : Z) (k : KeyNode) (a : Z) : KeyManager :=
  set_allocated a (set_keys (<[id := k]> (km_keys s)) s).

Lemma upd_upd_key s id k a k' a' : upd_key (upd_key s id k a) id k' a' = upd_key s id k' a'.
Proof. unfold upd_key, set_allocated, set_keys. simpl. by rewrite insert_insert_eq. Qed.

(** What the loop over the slots computes. *)
Fixpoint rehash_pure (n : nat) (id : Z) (k : KeyNode) (a minMinutes minutes : Z) :
    list (option MixHashKeyMap * MixHashKeyMap) * KeyNode * Z :=
  match n with
  | O => ([], k, a)
  | S n =>
      match kn_mixHashNodesWithAppend k !! Z.to_nat (kn_nextUpdateHash k) with
      | None => ([], k, a)
      | Some old =>
          if (match old with Some o => bool_decide (minMinutes ≤ hn_minutes o) | None => false end)
          then ([], k, a)
          else
            let new := mkHashNode a id (hash_of (ki_aesKey (kn_keyInfo k)) (le_bytes 4 minutes)) minutes in
            let '(ps, k', a') := rehash_pure n id (fill_slot new k) (a + 1) minMinutes (u32 (minutes + 1)) in
            ((old, new) :: ps, k', a')
      end
  end.

Definition slots_ok (k : KeyNode) : Prop :=
  length (kn_mixHashNodesWithAppend k) = 3%nat ∧ 0 ≤ kn_nextUpdateHash k < 3.

Lemma fill_slot_ok n k : slots_ok k → slots_ok (fill_slot n k).
Proof.
  intros [H1 H2]. split; [by simpl; rewrite length_insert|]. cbn [kn_nextUpdateHash fill_slot].
  change MIX_HASH_WITH_APPEND_COUNT with 3. apply Z.mod_pos_bound. lia.
Qed.

Lemma rehash_slots_pure n s id k a minMinutes minutes :
  slots_ok k →
  rehash_slots asserts sha256 n id minMinutes minutes (upd_key s id k a) =
  let '(ps, k', a') := rehash_pure n id k a minMinutes minutes in Some (ps, upd_key s id k' a').
Proof.
  revert k a minutes. induction n as [|n IH]; intros k a minutes Hk; [done|].
  cbn [rehash_slots rehash_pure].
  erewrite M_bind_Some by (apply mread_Some; apply lookup_insert_eq). cbn beta.
  destruct (kn_mixHashNodesWithAppend k !! Z.to_nat (kn_nextUpdateHash k)) as [old|] eqn:Eo.
  2:{ apply lookup_ge_None in Eo. destruct Hk. lia. }
  unfold next_slot. erewrite M_bind_Some by (apply mread_Some; exact Eo). cbn beta.
  destruct (match old with Some o => _ | None => false end); [done|].
  erewrite M_bind_Some by reflexivity. cbn beta. rewrite CalcKeyHash_Some.
  cbn [km_allocated upd_key set_allocated set_keys].
  erewrite M_bind_Some.
  2:{ unfold wr_key, rd_key. erewrite M_bind_Some by (apply mread_Some; apply lookup_insert_eq).
      reflexivity. }
  cbn beta.
  match goal with |- (_ ≫= _) ?st = _ =>
    replace st with (upd_key s id (fill_slot (mkHashNode a id (hash_of (ki_aesKey (kn_keyInfo k))
      (le_bytes 4 minutes)) minutes) k) (a + 1)) end.
  2:{ unfold upd_key, set_allocated, set_keys. simpl. by rewrite insert_insert_eq. }
  unfold mbind at 1, M_bind at 1. rewrite IH by by apply fill_slot_ok.
  by destruct (rehash_pure n id _ _ _ _) as [[ps k'] a'].
Qed.

Definition deads (ps : list (option MixHashKeyMap * MixHashKeyMap)) : list MixHashKeyMap := omap fst ps.

(** What a rehash does to the hashes of a key. *)
Record rehashed (id : Z) (k : KeyNode) (a : Z) (ps : list (option MixHashKeyMap * MixHashKeyMap))
    (k' : KeyNode) (a' : Z) : Prop := {
  rh_whole : key_whole id k';
  rh_info : kn_keyInfo k' = kn_keyInfo k;
  rh_slots : slots k' ++ deads ps ≡ₚ slots k ++ ps.*2;
  rh_deads d : d ∈ deads ps → d ∈ slots k;
  rh_addrs : hn_addr <$> ps.*2 = seqZ a (a' - a);
  rh_owner n : n ∈ ps.*2 → hn_keyNode n = id;
  rh_count : a ≤ a';
}.

(** Membership in an explicit list. *)
Ltac in_list H := rewrite ?elem_of_cons, ?elem_of_nil in H; destruct_or?; subst; try done.

Ltac rehash_case Hw Hhs :=
  split; [split; [done|first [by auto | by left | by right; left | by right; right]
                 |by eexists _, _, _|by eexists| |] | done | | | | |lia];
    unfold slots, deads; simpl;
    [ intros ? Hin; in_list Hin; apply Hw; rewrite !elem_of_cons; tauto
    | intros ? Hin; in_list Hin; first [by eexists | apply Hhs; rewrite !elem_of_cons; tauto]
    | first [done | solve_Permutation]
    | intros ? Hin; in_list Hin; rewrite !elem_of_cons; tauto
    | unfold seqZ; first
        [ match goal with |- context [Z.to_nat ?n] => replace n with 0 by lia end; done
        | match goal with |- context [Z.to_nat ?n] => replace n with 1 by lia end; simpl; repeat (apply (f_equal2 cons); [lia|]); done
        | match goal with |- context [Z.to_nat ?n] => replace n with 2 by lia end; simpl; repeat (apply (f_equal2 cons); [lia|]); done
        | match goal with |- context [Z.to_nat ?n] => replace n with 3 by lia end; simpl; repeat (apply (f_equal2 cons); [lia|]); done ]
    | intros ? Hin; in_list Hin ].

Lemma rehash_pure_whole id k a minMinutes minutes ps k' a' :
  key_whole id k → rehash_pure 3 id k a minMinutes minutes = (ps, k', a') →
  rehashed id k a ps k' a'.
Proof.
  intros [Hc Hn (x & y & z & Hs) (o & Ho & Hh) Hw Hhs] Hr.
  destruct k as [info orig sl nx cnt]; simpl in *. subst sl orig cnt.
  unfold slots in Hw, Hhs; simpl in Hw, Hhs.
  destruct Hn as [-> | [-> | ->]]; simpl in Hr; unfold fill_slot in Hr; simpl in Hr.
  all: repeat (case_bool_decide; simpl in Hr; [simplify_eq; rehash_case Hw Hhs|]).
  all: simplify_eq; rehash_case Hw Hhs.
Qed.

(** A key that has just been created. *)
Definition key_new (k : KeyNode) : Prop :=
  kn_originalHashNode k = None ∧ kn_mixHashNodesWithAppend k = [None; None; None] ∧
  kn_nextUpdateHash k = 0 ∧ kn_hashCount k = 0.

Lemma rehashed_refl id k a : key_whole id k → rehashed id k a [] k a.
Proof.
  intros Hw. split; [done|done|done|..|by rewrite Z.sub_diag| |lia].
  - intros d Hd. by apply elem_of_nil in Hd.
  - intros n Hn. by apply elem_of_nil in Hn.
Qed.

Lemma upd_key_id s id k : km_keys s !! id = Some k → upd_key s id k (km_allocated s) = s.
Proof. intros H. unfold upd_key, set_allocated, set_keys. rewrite insert_id by done. by destruct s. Qed.

Definition minutes_at (s : KeyManager) : Z := BDT_MICRO_SECONDS_2_MINUTES (clock (km_tick s)).

(** The hashes of a new key: itself, and the minutes around now. *)
Lemma rehash_pure_new id k o a minMinutes minutes :
  key_new k → hn_keyNode o = id → hn_hash o = hash_of (ki_aesKey (kn_keyInfo k)) [] → hn_addr o = a →
  let k1 := mkKeyNode (kn_keyInfo k) (Some o) (kn_mixHashNodesWithAppend k) 0 BDT_MIX_HASH_4_KEY_LIMIT in
  ∃ ps k' a', rehash_pure 3 id k1 (a + 1) minMinutes minutes = (ps, k', a') ∧
    rehashed id k a ((None, o) :: ps) k' a' ∧
    hn_minutes <$> slots k' = [hn_minutes o; minutes; u32 (minutes + 1); u32 (u32 (minutes + 1) + 1)] ∧
    kn_nextUpdateHash k' = 0.
Proof.
  intros (H1 & H2 & H3 & H4) Hid Hh Ha. destruct k as [info orig sl nx cnt]; simpl in *. subst.
  eexists _, _, _. split; [reflexivity|]. split; [|by split].
  split; [split; [done|by left|by eexists _, _, _|by eexists| |]|done| | | | |lia];
    unfold slots, deads; simpl.
  - intros n Hn. in_list Hn.
  - intros n Hn. in_list Hn; by eexists.
  - done.
  - intros d Hd. in_list Hd.
  - replace (hn_addr o + 1 + 1 + 1 + 1 - hn_addr o) with 4 by lia. unfold seqZ; simpl.
    repeat (apply (f_equal2 cons); [lia|]). done.
  - intros n Hn. in_list Hn.
Qed.

Lemma KeyManagerRehashAesKey_spec s id k :
  km_keys s !! id = Some k → key_whole id k ∨ key_new k →
  ∃ ps k' a', KeyManagerRehashAesKey asserts clock sha256 id s =
      Some (ps, upd_key (set_tick (S (km_tick s)) s) id k' a') ∧
    rehashed id k (km_allocated s) ps k' a'.
Proof.
  intros Hk Hw. unfold KeyManagerRehashAesKey.
  erewrite M_bind_Some by reflexivity. cbn beta zeta. fold (minutes_at s).
  set (s1 := set_tick (S (km_tick s)) s).
  erewrite M_bind_Some by (apply mread_Some; exact Hk). cbn beta.
  change (Z.to_nat MIX_HASH_WITH_APPEND_COUNT) with 3%nat.
  change MIX_HASH_REDUNDANCY_MINUTES with 1. change MIX_HASH_WITH_APPEND_COUNT with 3.
  destruct Hw as [Hw|Hn].
  - rewrite decide_False by (rewrite (kw_count _ _ Hw); done).
    assert (Hok : slots_ok k).
    { destruct Hw as [_ Hnx (x & y & z & Hsl) _ _ _]. split; [by rewrite Hsl|lia]. }
    assert (Hs1 : s1 = upd_key s1 id k (km_allocated s)) by by rewrite (upd_key_id s1).
    pose proof Hw as [_ Hnx (x & y & z & Hsl) _ _ _].
    assert (∃ n, mjoin (kn_mixHashNodesWithAppend k !! Z.to_nat (u32 (kn_nextUpdateHash k - 1) mod 3)) = Some n)
      as (newest & Hnew).
    { rewrite Hsl. destruct Hnx as [-> | [-> | ->]]; by eexists. }
    erewrite M_bind_Some by (apply mread_Some; exact Hnew). cbn beta.
    assert (Hgo : ∀ mm, ∃ ps k' a', rehash_slots asserts sha256 3 id (u32 (minutes_at s - 1)) mm s1 =
        Some (ps, upd_key s1 id k' a') ∧ rehashed id k (km_allocated s) ps k' a').
    { intros mm.
      pose proof (rehash_slots_pure 3 s1 id k (km_allocated s) (u32 (minutes_at s - 1)) mm Hok) as Hp.
      rewrite <- Hs1 in Hp. rewrite Hp.
      destruct (rehash_pure 3 id k _ _ mm) as [[ps k'] a'] eqn:E.
      exists ps, k', a'. split; [done|]. by eapply rehash_pure_whole. }
    repeat case_decide; [apply Hgo| |apply Hgo].
    exists [], k, (km_allocated s). split; [by rewrite <- Hs1|]. by apply rehashed_refl.
  - pose proof Hn as (_ & _ & _ & Hc). rewrite decide_True by done.
    erewrite M_bind_Some by reflexivity. cbn beta. rewrite CalcKeyHash_Some.
    cbn [km_allocated set_tick]. change (km_allocated s1) with (km_allocated s).
    set (o := mkHashNode (km_allocated s) id (hash_of (ki_aesKey (kn_keyInfo k)) []) 0).
    destruct (rehash_pure_new id k o (km_allocated s) (u32 (minutes_at s - 1)) (u32 (minutes_at s - 1)))
      as (ps & k' & a' & Hp & Hr & _); [done..|].
    exists ((None, o) :: ps), k', a'. split; [|done].
    set (k1 := mkKeyNode (kn_keyInfo k) (Some o) (kn_mixHashNodesWithAppend k) 0 BDT_MIX_HASH_4_KEY_LIMIT) in *.
    erewrite M_bind_Some.
    2:{ unfold wr_key, rd_key. erewrite M_bind_Some by (apply mread_Some; exact Hk). reflexivity. }
    cbn beta. erewrite M_bind_Some.
    2:{ match goal with |- _ ?st = _ => change st with (upd_key s1 id k1 (km_allocated s + 1)) end.
        rewrite rehash_slots_pure; [by rewrite Hp|].
        destruct Hn as (_ & Hsl & _). split; [by simpl; rewrite Hsl|simpl; lia]. }
    reflexivity.
Qed.
End rehash.

(** ** The two lists of keys *)

(** The key list holds [K], the rehash list [R]. *)
Record lists_at (l : KeyLists) (h : links) (m : gmap Z KeyNode) (K R : list Z) : Prop := {
  la_K : dlist h K;
  la_R : dlist h R;
  la_apart x : x ∈ K → x ∉ R;
  la_keys x : x ∈ K ++ R → is_Some (m !! x);
  la_alive x : is_Some (m !! x) → alive h x;
  la_ends : kl_header l = kl_tail l;
  la_header : match kl_header l with None => K = [] | Some f => f ∈ K end;
  la_rehash : match kl_rehashKeyList l with None => R = [] | Some r => r ∈ R end;
}.

Definition put_lists (s : KeyManager) (l : KeyLists) (h : links) (t : nat) : KeyManager :=
  set_tick t (set_lists l (set_links h s)).

Lemma on_links_Some {A} (c : M links A) s a h :
  c (km_links s) = Some (a, h) → on_links c s = Some (a, set_links h s).
Proof. intros H. unfold on_links. by rewrite H. Qed.

Lemma links_off_dlist D h h' xs :
  links_off D h h' → (∀ x, x ∈ xs → x ∉ D) → dlist h xs → dlist h' xs.
Proof. intros [H _] Hd. apply dlist_agree. intros x Hx. by apply H, Hd. Qed.

Lemma put_lists_same s l h :
  l = km_lists s → Some (tt, set_lists l (set_links h s)) = Some (tt, put_lists s (km_lists s) h (km_tick s)).
Proof. by intros ->. Qed.

Section lists.
Context (clock : nat → Z).

(** Both ways of putting a key in the key list. *)
Lemma push_spec (front : bool) s K R id :
  lists_at (km_lists s) (km_links s) (km_keys s) K R → is_Some (km_keys s !! id) → id ∉ K ++ R →
  ∃ l' h' t K', (if front then push_header clock id else push_tail clock id) s
      = Some (tt, put_lists s l' h' t) ∧
    lists_at l' h' (km_keys s) K' R ∧ K' ≡ₚ id :: K.
Proof.
  intros [HK HR Hap Hkeys Hal He Hh Hr] Hid Hni. apply not_elem_of_app in Hni as [HnK HnR].
  pose proof (Hal id Hid) as Haid.
  assert (Hfin : ∀ l' h' K' D, links_off D (km_links s) h' → dlist h' K' → K' ≡ₚ id :: K →
    (∀ x, x ∈ R → x ∉ D) → kl_header l' = kl_tail l' → kl_rehashKeyList l' = kl_rehashKeyList (km_lists s) →
    match kl_header l' with None => K' = [] | Some f => f ∈ K' end →
    lists_at l' h' (km_keys s) K' R).
  { intros l' h' K' D Hoff HK' HKp HD He' Hr' Hf. split; try done.
    - by eapply links_off_dlist.
    - intros x Hx. rewrite HKp in Hx. apply elem_of_cons in Hx as [->|Hx]; [done|by apply Hap].
    - intros x Hx. rewrite HKp in Hx. simpl in Hx. apply elem_of_cons in Hx as [->|Hx]; [done|by apply Hkeys].
    - intros x Hx. apply (proj2 Hoff). by apply Hal.
    - by rewrite Hr'. }
  destruct (kl_header (km_lists s)) as [f|] eqn:Eh.
  - apply list_elem_of_split in Hh as (xs & ys & ->). destruct front.
    + destruct (dl_add_before_spec _ _ _ _ _ HK Haid HnK) as (h' & Hrun & Hd & Hoff).
      exists (km_lists s), h', (km_tick s), (xs ++ id :: f :: ys). split; [|split].
      * unfold push_header. erewrite M_bind_Some by reflexivity. cbn beta. rewrite Eh, <- He.
        erewrite M_bind_Some by (apply on_links_Some; exact Hrun). cbn beta.
        unfold set_header, modify. erewrite M_bind_Some by reflexivity. cbn beta.
        apply put_lists_same. simpl. destruct (km_lists s). simpl in *. congruence.
      * eapply Hfin; [exact Hoff|done|solve_Permutation| |by rewrite Eh|done|rewrite Eh; set_solver].
        intros x Hx [->|Hx']%elem_of_cons; [done|by apply (Hap x)].
      * solve_Permutation.
    + destruct (dl_add_after_spec _ _ _ _ _ HK Haid HnK) as (h' & Hrun & Hd & Hoff).
      exists (km_lists s), h', (km_tick s), (xs ++ f :: id :: ys). split; [|split].
      * unfold push_tail. erewrite M_bind_Some by reflexivity. cbn beta. rewrite Eh, <- He.
        erewrite M_bind_Some by (apply on_links_Some; exact Hrun). cbn beta.
        unfold set_tail, modify. erewrite M_bind_Some by reflexivity. cbn beta.
        apply put_lists_same. simpl. destruct (km_lists s). simpl in *. congruence.
      * eapply Hfin; [exact Hoff|done|solve_Permutation| |by rewrite Eh|done|rewrite Eh; set_solver].
        intros x Hx [->|Hx']%elem_of_cons; [done|by apply (Hap x)].
      * solve_Permutation.
  - subst K. destruct (create_singleton_spec _ _ Haid) as (h' & Hrun & Hd & Hoff).
    exists (mkKeyLists (Some id) (Some id) (BDT_MICRO_SECONDS_2_MINUTES (clock (km_tick s)))
      (kl_rehashKeyList (km_lists s))), h', (S (km_tick s)), [id]. split; [|split; [|done]].
    + destruct front; [unfold push_header|unfold push_tail];
        (erewrite M_bind_Some by reflexivity); cbn beta; rewrite Eh, <- He;
        (erewrite M_bind_Some by (apply on_links_Some; exact Hrun)); reflexivity.
    + eapply Hfin; [exact Hoff|done|done| |done|done|by left].
      intros x Hx [->|[]%elem_of_nil]%elem_of_cons. done.
Qed.
End lists.

(** Taking the next key off the rehash list. *)
Lemma pop_spec l h m K R r :
  lists_at l h m K R → kl_rehashKeyList l = Some r →
  ∃ r' h' R', dl_delete (Some r) r h = Some (r', h') ∧ R ≡ₚ r :: R' ∧
    lists_at (mkKeyLists (kl_header l) (kl_tail l) (kl_firstHashMinutes l) r') h' m K R'.
Proof.
  intros [HK HR Hap Hkeys Hal He Hh Hr] Er. rewrite Er in Hr.
  apply list_elem_of_split in Hr as (xs & ys & ->).
  destruct (dl_delete_spec h (Some r) xs r ys HR) as (h' & Hrun & Hd & Hoff).
  exists (moved (Some r) xs r ys), h', (xs ++ ys).
  split; [done|]. split; [solve_Permutation|].
  split; try done.
  - eapply links_off_dlist; [exact Hoff| |done]. intros x Hx Hx'. apply (Hap x Hx). set_solver.
  - intros x Hx Hx'. apply (Hap x Hx). set_solver.
  - intros x Hx. apply Hkeys. set_solver.
  - intros x Hx. apply (proj2 Hoff). by apply Hal.
  - cbn [kl_rehashKeyList]. unfold moved. rewrite decide_True by done.
    destruct (final_or None xs) as [v|] eqn:Ev; [apply final_or_elem in Ev; set_solver|].
    destruct xs as [|x xs _] using rev_ind; [|unfold final_or in Ev; by rewrite last_snoc in Ev].
    destruct ys; simpl; [done|by left].
Qed.

(** Moving the key list in front of the rehash list: the keys behind its tail
    are in neither list any more. *)
Lemma KeyManagerMoveAllKeyToRehashNoLock_spec s K R f :
  lists_at (km_lists s) (km_links s) (km_keys s) K R → kl_tail (km_lists s) = Some f →
  ∃ h' R', KeyManagerMoveAllKeyToRehashNoLock s =
      Some (tt, put_lists s (mkKeyLists None None (kl_firstHashMinutes (km_lists s)) (Some f)) h' (km_tick s)) ∧
    lists_at (mkKeyLists None None (kl_firstHashMinutes (km_lists s)) (Some f)) h' (km_keys s) [] R'.
Proof.
  intros [HK HR Hap Hkeys Hal He Hh Hr] Ef. rewrite He, Ef in Hh.
  apply list_elem_of_split in Hh as (xs & ys & ->).
  pose proof (dlist_split _ _ _ _ HK) as (Hn1 & _ & Hfx & _ & _ & Hfp & Hfn & Hs1 & _).
  set (q := kl_rehashKeyList (km_lists s)) in *.
  assert (∃ R1 R2, R = R1 ++ R2 ∧ first_or R2 None = q) as (R1 & R2 & -> & Hq).
  { destruct q as [r|]; [|exists R, []; by rewrite app_nil_r].
    apply list_elem_of_split in Hr as (R1 & R2 & ->). by exists R1, (r :: R2). }
  destruct HR as [HndR HsR]. apply dseg_app in HsR as [_ HsR].
  apply NoDup_app in HndR as (_ & _ & HndR).
  assert (Hqa : ∀ y, q = Some y → is_Some (lprev (km_links s) !! y)).
  { intros y Hy. rewrite <- Hq in Hy. apply first_or_elem in Hy.
    by destruct (dseg_alive _ _ _ _ _ HsR Hy). }
  set (h' := Links (<[f := q]> (lnext (km_links s))) (upd (lprev (km_links s)) q (Some f))).
  assert (HfR : ∀ x, x ∈ R2 → x ≠ f ∧ x ∉ xs).
  { intros x Hx. split; [intros ->; apply (Hap f); set_solver|].
    intros Hx'. apply (Hap x); set_solver. }
  assert (Hqx : ∀ x, x ∈ xs ++ [f] → q ≠ Some x).
  { intros x Hx E. rewrite <- Hq in E. apply first_or_elem, HfR in E. set_solver. }
  exists h', (xs ++ f :: R2). split.
  - unfold KeyManagerMoveAllKeyToRehashNoLock. erewrite M_bind_Some by reflexivity. cbn beta.
    rewrite Ef. erewrite M_bind_Some by by apply mread_Some. cbn beta. fold q.
    erewrite M_bind_Some by (apply on_links_Some, wr_nx_Some; by eexists). cbn beta.
    erewrite M_bind_Some.
    2:{ apply on_links_Some, on_some_pv. cbn [km_links set_links lprev]. exact Hqa. }
    cbn beta. rewrite He, Ef. reflexivity.
  - split; cbn [kl_header kl_tail kl_rehashKeyList]; try done.
    + split; [apply NoDup_nil_2|done].
    + split.
      * apply NoDup_app. split; [done|]. split; [|apply NoDup_cons; split; [|done]].
        -- intros x Hx [->|Hx']%elem_of_cons; [done|]. by apply HfR in Hx' as [_ ?].
        -- intros Hf. by apply HfR in Hf as [? _].
      * apply dseg_app. cbn [first_or dseg]. split; [|split; [|split]].
        -- eapply dseg_agree; [|exact Hs1]. intros x Hx. cbn [lnext lprev h'].
           rewrite lookup_insert_ne by (intros ->; done). rewrite upd_ne; [done|]. apply Hqx. set_solver.
        -- cbn [lprev h']. rewrite upd_ne; [done|]. apply Hqx. set_solver.
        -- cbn [lnext h']. rewrite lookup_insert_eq, <- Hq. by destruct R2.
        -- eapply (dseg_relink (km_links s)); [done|exact HsR|..]; cbn [lnext lprev h'].
           ++ intros x Hx. apply upd_eq. congruence.
           ++ intros x Hx Hx'. apply upd_ne. congruence.
           ++ intros x Hx. apply last_Some_elem_of in Hx as Hx'. apply HfR in Hx' as [? _].
              rewrite lookup_insert_ne by done. by eapply dseg_last_next.
           ++ intros x Hx _. apply HfR in Hx as [? _]. by rewrite lookup_insert_ne.
    + intros x Hx. by apply elem_of_nil in Hx.
    + intros x Hx. apply Hkeys. simpl in Hx. set_solver.
    + intros x Hx. destruct (Hal x Hx) as [H1 H2]. split; cbn [lnext lprev h'].
      * by apply insert_is_Some.
      * by apply upd_is_Some.
    + set_solver.
Qed.
