(* ===== verification/KeyTheorems.v ===== *)
(** * What the key manager promises

    The operations that add and find keys never fault on a sound manager,
    keep it sound, and do to the set of (key, peer) pairs what their names say;
    a key of the manager is always found by the hash of itself.  The last
    sections are about what does not hold: keys that were looked at without
    success leave both lists, and a key list whose first key expires keeps a
    pointer to it. *)

From stdpp Require Import sorting.
From S2P Require Import Prelude CInt BufferStream SgTree SgList KeyManager KeyProofs.

(** ** Soundness *)

(** The peers against the keys. *)
Record peers_sound (t : rbtree PeeridKeyMap) (pk : gmap Z (list Z)) (m : gmap Z KeyNode) (alloc : Z) : Prop := {
  ps_tree : well_formed pn_addr peerid_key_map_compare t;
  ps_uniq p q : p ∈ elems t → q ∈ elems t → peerid_key_map_compare p q = 0 → p = q;
  ps_alloc p : p ∈ elems t → pn_addr p < alloc;
  ps_length p : p ∈ elems t → length (pn_peerid p) = BDT_PEERID_LENGTH;
  ps_keys p : p ∈ elems t → ∃ ids, pk !! pn_addr p = Some ids ∧ ids ≠ [] ∧
    ∀ id, id ∈ ids → ∃ k, m !! id = Some k ∧ ki_peerid (kn_keyInfo k) = pn_peerid p;
  ps_listed id k : m !! id = Some k → ∃ p ids, p ∈ elems t ∧ pk !! pn_addr p = Some ids ∧ id ∈ ids;
}.

(** What identifies a key. *)
Definition ident (k : KeyNode) : list Z * list Z := (ki_aesKey (kn_keyInfo k), ki_peerid (kn_keyInfo k)).

Lemma peers_sound_ident t pk m m' alloc alloc' :
  ident <$> m = ident <$> m' → alloc ≤ alloc' → peers_sound t pk m alloc → peers_sound t pk m' alloc'.
Proof.
  intros E Ha [Ht Hu Hal Hlen Hk Hl].
  assert (Hm : ∀ id k, m !! id = Some k → ∃ k', m' !! id = Some k' ∧ ident k' = ident k).
  { intros id k Hid. assert (H : (ident <$> m) !! id = Some (ident k)) by by rewrite lookup_fmap, Hid.
    rewrite E, lookup_fmap in H. destruct (m' !! id) as [k'|]; [|done]. exists k'.
    split; [done|]. by apply (inj Some) in H. }
  assert (Hm' : ∀ id k', m' !! id = Some k' → is_Some (m !! id)).
  { intros id k' Hid. assert (H : (ident <$> m') !! id = Some (ident k')) by by rewrite lookup_fmap, Hid.
    rewrite <- E, lookup_fmap in H. destruct (m !! id) as [k|]; [by eexists|done]. }
  split; [done|done| |done| |].
  - intros p Hp. specialize (Hal p Hp). lia.
  - intros p Hp. destruct (Hk p Hp) as (ids & Hi & Hne & Hids). exists ids. split; [done|].
    split; [done|]. intros id Hid. destruct (Hids id Hid) as (k & Hkk & Hpp).
    destruct (Hm id k Hkk) as (k' & Hk' & E'). exists k'. split; [done|].
    unfold ident in E'. congruence.
  - intros id k' Hid. destruct (Hm' id k' Hid) as [k Hkk]. by apply (Hl id k).
Qed.

(** ** Runs that do not fault *)

Definition runs {A} (c : KM A) (s : KeyManager) (Q : A → KeyManager → Prop) : Prop :=
  ∃ a s', c s = Some (a, s') ∧ Q a s'.

Lemma runs_ret {A} (a : A) s (Q : A → KeyManager → Prop) : Q a s → runs (mret a) s Q.
Proof. intros H. by exists a, s. Qed.

Lemma runs_bind {A B} (c : KM A) (k : A → KM B) s P Q :
  runs c s P → (∀ a s', P a s' → runs (k a) s' Q) → runs (c ≫= k) s Q.
Proof.
  intros (a & s' & Hc & HP) Hk. destruct (Hk a s' HP) as (b & s'' & Hk' & HQ).
  exists b, s''. split; [|done]. by rewrite (M_bind_Some _ _ _ _ _ Hc).
Qed.

Lemma runs_weaken {A} (c : KM A) s P Q : runs c s P → (∀ a s', P a s' → Q a s') → runs c s Q.
Proof. intros (a & s' & Hc & HP) HPQ. exists a, s'. auto. Qed.

Lemma runs_get {A B} (f : KeyManager → A) (k : A → KM B) s Q : runs (k (f s)) s Q → runs (get f ≫= k) s Q.
Proof. intros H. exact H. Qed.

Lemma runs_read {A B} (f : KeyManager → option A) a (k : A → KM B) s Q :
  f s = Some a → runs (k a) s Q → runs (mread f ≫= k) s Q.
Proof.
  intros H Hr. apply (runs_bind _ _ _ (λ x s', x = a ∧ s' = s)); [|by intros ? ? [-> ->]].
  exists a, s. by rewrite (mread_Some f s a H).
Qed.

Lemma runs_step {A B} (c : KM A) (k : A → KM B) s a s' Q :
  c s = Some (a, s') → runs (k a) s' Q → runs (c ≫= k) s Q.
Proof.
  intros Hc Hr. apply (runs_bind _ _ _ (λ x t, x = a ∧ t = s')); [by exists a, s'|by intros ? ? [-> ->]].
Qed.

Section manager.
Context (asserts : bool) (activeTime : Z) (clock : nat → Z).
Context (sha256 : list Z → option (list Z)) (storageUpdate : StorageCall → Z).
Context (sha_ok : ∀ bs, is_Some (sha256 bs)).

Record keys_sound (s : KeyManager) : Prop := {
  ks_hashes : hashes_sound (km_mixHashKeyMap s) (km_keys s) (km_allocated s) [] [];
  ks_whole id k : km_keys s !! id = Some k → key_whole sha256 id k;
  ks_alloc id k : km_keys s !! id = Some k → id < km_allocated s;
  ks_length id k : km_keys s !! id = Some k →
    length (ki_aesKey (kn_keyInfo k)) = BDT_AES_KEY_LENGTH ∧
    length (ki_peerid (kn_keyInfo k)) = BDT_PEERID_LENGTH;
  ks_peers : peers_sound (km_peeridKeyMap s) (km_peerKeys s) (km_keys s) (km_allocated s);
}.

Definition lists_sound (s : KeyManager) : Prop :=
  ∃ K R, lists_at (km_lists s) (km_links s) (km_keys s) K R.

Definition sound (s : KeyManager) : Prop := keys_sound s ∧ lists_sound s.

Definition idents (s : KeyManager) : gmap Z (list Z * list Z) := ident <$> km_keys s.

Lemma KeyManagerInit_sound tick : sound (KeyManagerInit tick).
Proof.
  split.
  - split; cbn [KeyManagerInit km_mixHashKeyMap km_keys km_allocated km_peeridKeyMap km_peerKeys].
    + split; [apply leaf_well_formed|done|constructor|..]; intros n Hn; by apply elem_of_nil in Hn.
    + intros id k H. by rewrite lookup_empty in H.
    + intros id k H. by rewrite lookup_empty in H.
    + intros id k H. by rewrite lookup_empty in H.
    + split; [apply leaf_well_formed|..]; try (intros p Hp; by apply elem_of_nil in Hp).
      * intros p q Hp. by apply elem_of_nil in Hp.
      * intros id k H. by rewrite lookup_empty in H.
  - exists [], []. split; [by split; [constructor|]..| | | |done|done|done].
    + intros x Hx. by apply elem_of_nil in Hx.
    + intros x Hx. by apply elem_of_nil in Hx.
    + intros x [y Hy]. cbn in Hy. by rewrite lookup_empty in Hy.
Qed.

(** ** Writing what the code knows of a key *)

Lemma lists_at_dom l h m m' K R :
  (∀ x, is_Some (m' !! x) ↔ is_Some (m !! x)) → lists_at l h m K R → lists_at l h m' K R.
Proof.
  intros Hd [HK HR Hap Hk Hal He Hh Hr]. split; try done.
  - intros x Hx. by apply Hd, Hk.
  - intros x Hx. by apply Hal, Hd.
Qed.

Lemma insert_dom {A} (m : gmap Z A) id k k' x :
  m !! id = Some k → is_Some (<[id := k']> m !! x) ↔ is_Some (m !! x).
Proof.
  intros H. destruct (decide (id = x)) as [<-|Hne].
  - rewrite lookup_insert_eq, H. split; intros; by eexists.
  - by rewrite lookup_insert_ne.
Qed.

Lemma ident_insert (m : gmap Z KeyNode) id k k' :
  m !! id = Some k → ident k' = ident k → ident <$> <[id := k']> m = ident <$> m.
Proof. intros H E. rewrite fmap_insert, E. apply insert_id. by rewrite lookup_fmap, H. Qed.

Lemma set_info_whole id i k :
  ki_aesKey i = ki_aesKey (kn_keyInfo k) → key_whole sha256 id k → key_whole sha256 id (set_info i k).
Proof.
  intros E [H1 H2 H3 (o & Ho & Hh) H5 H6]. split; try done.
  - exists o. split; [done|]. cbn [kn_keyInfo set_info]. by rewrite E.
  - intros n Hn. cbn [kn_keyInfo set_info]. rewrite E. by apply H6.
Qed.

(** The state after a write of a key's record. *)
Definition put_key (s : KeyManager) (id : Z) (k : KeyNode) : KeyManager := set_keys (<[id := k]> (km_keys s)) s.

Lemma wr_info_sound s id k i :
  sound s → km_keys s !! id = Some k → (ki_aesKey i, ki_peerid i) = ident k →
  wr_info id i s = Some (tt, put_key s id (set_info i k)) ∧
  sound (put_key s id (set_info i k)) ∧ idents (put_key s id (set_info i k)) = idents s.
Proof.
  intros [[Hh Hw Ha Hlen Hp] (K & R & HL)] Hk Ei.
  assert (Eid : ident (set_info i k) = ident k) by by rewrite <- Ei.
  injection Ei as Ei1 Ei2. split; [|split].
  - unfold wr_info, wr_key, rd_key. erewrite M_bind_Some by by apply mread_Some.
    by erewrite M_bind_Some by by apply mread_Some.
  - split; [split|].
    + destruct Hh as [H1 H2 H3 H4 H5]. split; [done| |done|done|done].
      rewrite !app_nil_r in *. change (elems (km_mixHashKeyMap s) ≡ₚ all_slots (<[id := set_info i k]> (km_keys s))).
      rewrite H2. apply (Permutation_app_inv_r (slots k)).
      pose proof (all_slots_update (km_keys s) id k (set_info i k) Hk) as Hu. by rewrite Hu.
    + intros id' k' Hk'. cbn in Hk'. apply lookup_insert_Some in Hk' as [[<- <-]|[_ Hk']]; [|by apply Hw].
      apply set_info_whole; [done|by apply Hw].
    + intros id' k' Hk'. cbn in *. apply lookup_insert_Some in Hk' as [[<- <-]|[_ Hk']]; by eapply Ha.
    + intros id' k' Hk'. cbn in *. apply lookup_insert_Some in Hk' as [[<- <-]|[_ Hk']]; [|by eapply Hlen].
      cbn [kn_keyInfo set_info]. rewrite Ei1, Ei2. by eapply Hlen.
    + eapply peers_sound_ident; [| |exact Hp]; [|done]. symmetry. by apply (ident_insert _ _ k).
    + exists K, R. eapply lists_at_dom; [|exact HL]. intros x. by apply (insert_dom _ id k).
  - by apply (ident_insert _ _ k).
Qed.

Lemma wr_info_runs s id k i :
  sound s → km_keys s !! id = Some k → (ki_aesKey i, ki_peerid i) = ident k →
  runs (wr_info id i) s (λ _ s', sound s' ∧ idents s' = idents s).
Proof.
  intros Hs Hk Ei. destruct (wr_info_sound s id k i Hs Hk Ei) as (Hw & Hs' & Hi).
  by exists tt, (put_key s id (set_info i k)).
Qed.

(** Changes that no part of the invariant looks at. *)
Lemma sound_tick s t : sound s → sound (set_tick t s).
Proof. intros [[H1 H2 H3 H4 H5] H6]. split; [by split|done]. Qed.
Lemma sound_stored s l : sound s → sound (set_stored l s).
Proof. intros [[H1 H2 H3 H4 H5] H6]. split; [by split|done]. Qed.
Lemma sound_storage s b : sound s → sound (set_storage b s).
Proof. intros [[H1 H2 H3 H4 H5] H6]. split; [by split|done]. Qed.
Hint Resolve sound_tick sound_stored sound_storage : core.

(** ** Searching *)

(** The hash [h] is one of the hashes of key [id]. *)
Definition has_hash (s : KeyManager) (h : list Z) (id : Z) (k : KeyNode) : Prop :=
  km_keys s !! id = Some k ∧ ∃ n, n ∈ slots k ∧ memcmp BDT_MIX_HASH_LENGTH h (hn_hash n) = 0.

Lemma find_hash_runs s h :
  keys_sound s →
  KeyManagerFindByMixHashNoRehashNoLock h s =
    Some (hn_keyNode <$> find_member mix_hash_key_map_compare (km_mixHashKeyMap s) (mkHashNode 0 0 h 0), s) ∧
  match hn_keyNode <$> find_member mix_hash_key_map_compare (km_mixHashKeyMap s) (mkHashNode 0 0 h 0) with
  | Some id => ∃ k, has_hash s h id k
  | None => ∀ id k, ¬ has_hash s h id k
  end.
Proof.
  intros [[Ht Hp _ _ _] Hw _ _ _]. split; [done|]. rewrite !app_nil_r in Hp.
  pose proof (find_member_spec hn_addr mix_hash_key_map_compare (km_mixHashKeyMap s)
    (mkHashNode 0 0 h 0) (proj1 Ht)) as Hf.
  destruct (find_member _ _ _) as [n|]; cbn [fmap option_fmap option_map].
  - destruct Hf as [Hn Hc]. rewrite Hp in Hn. apply elem_of_all_slots in Hn as (id & k & Hk & Hn).
    rewrite (kw_owner _ _ _ (Hw _ _ Hk) n Hn). exists k. split; [done|]. by exists n.
  - intros id k [Hk (n & Hn & Hc)]. apply (Hf n); [|done]. rewrite Hp. apply elem_of_all_slots. eauto.
Qed.

Lemma find_peer_spec s peerid (o := find_member peerid_key_map_compare (km_peeridKeyMap s) (mkPeerNode 0 peerid)) :
  keys_sound s →
  KeyManagerFindKeyByPeeridNoLock peerid s = Some (o, s) ∧
  match o with
  | Some p => p ∈ elems (km_peeridKeyMap s) ∧ memcmp BDT_PEERID_LENGTH peerid (pn_peerid p) = 0
  | None => ∀ p, p ∈ elems (km_peeridKeyMap s) → memcmp BDT_PEERID_LENGTH peerid (pn_peerid p) ≠ 0
  end.
Proof.
  intros [_ _ _ _ [Ht _ _ _ _ _]]. split; [done|].
  apply (find_member_spec pn_addr peerid_key_map_compare (km_peeridKeyMap s) (mkPeerNode 0 peerid) (proj1 Ht)).
Qed.

Lemma find_aes_key_runs s ids aesKey :
  (∀ id, id ∈ ids → is_Some (km_keys s !! id)) →
  runs (find_aes_key ids aesKey) s (λ r s', s' = s ∧
    match r with
    | Some id => id ∈ ids ∧ ∃ k, km_keys s !! id = Some k ∧
        memcmp BDT_AES_KEY_LENGTH (ki_aesKey (kn_keyInfo k)) aesKey = 0
    | None => ∀ id k, id ∈ ids → km_keys s !! id = Some k →
        memcmp BDT_AES_KEY_LENGTH (ki_aesKey (kn_keyInfo k)) aesKey ≠ 0
    end).
Proof.
  induction ids as [|id ids IH]; intros Hids; cbn [find_aes_key].
  { apply runs_ret. split; [done|]. intros id k Hid. by apply elem_of_nil in Hid. }
  destruct (Hids id) as [k Hk]; [by left|]. apply (runs_read _ k); [done|].
  case_decide as Hc.
  - apply runs_ret. split; [done|]. split; [by left|]. eauto.
  - eapply runs_weaken; [apply IH; intros; apply Hids; by right|].
    intros [id'|] s' [-> H]; (split; [done|]).
    + destruct H as [Hid H]. split; [by right|done].
    + intros id' k' [->|Hid]%elem_of_cons Hk'; [by simplify_eq|by eapply H].
Qed.

(** The key of a peer, looked for from the tree. *)
Definition owns (s : KeyManager) (aesKey peerid : list Z) (id : Z) : Prop :=
  idents s !! id = Some (aesKey, peerid).

Lemma idents_lookup s id k : km_keys s !! id = Some k → idents s !! id = Some (ident k).
Proof. intros H. unfold idents. by rewrite lookup_fmap, H. Qed.

Lemma FindAesKey_runs s aesKey peerid :
  keys_sound s → length aesKey = BDT_AES_KEY_LENGTH → length peerid = BDT_PEERID_LENGTH →
  runs (KeyManagerFindAesKeyNoLock asserts aesKey peerid None) s (λ r s', s' = s ∧
    match r.1 with
    | Some id => owns s aesKey peerid id
    | None => ∀ id, ¬ owns s aesKey peerid id
    end ∧
    match r.2 with
    | Some p => p ∈ elems (km_peeridKeyMap s) ∧ pn_peerid p = peerid
    | None => ∀ p, p ∈ elems (km_peeridKeyMap s) → pn_peerid p ≠ peerid
    end).
Proof.
  intros Hs Hla Hlp. pose proof Hs as [_ _ _ Hlen [_ Hu _ Hpl Hk Hl]].
  destruct (find_peer_spec s peerid Hs) as [Hfind Hres].
  assert (Howner : ∀ id, owns s aesKey peerid id → ∃ k, km_keys s !! id = Some k ∧ ident k = (aesKey, peerid)).
  { intros id Ho. unfold owns, idents in Ho. rewrite lookup_fmap in Ho.
    destruct (km_keys s !! id) as [k|]; [|done]. exists k. split; [done|]. by apply (inj Some) in Ho. }
  unfold KeyManagerFindAesKeyNoLock. eapply runs_step; [exact Hfind|].
  destruct (find_member _ _ _) as [p|].
  2:{ apply runs_ret. split; [done|]. split; cbn [fst snd].
      - intros id (k & Hk' & Ei)%Howner. destruct (Hl id k Hk') as (p & ids & Hp & Hids & Hin).
        apply (Hres p Hp). destruct (Hk p Hp) as (ids' & Hids' & _ & Hall).
        rewrite Hids in Hids'. simplify_eq. destruct (Hall id Hin) as (k2 & Hk2 & Ep).
        rewrite Hk' in Hk2. simplify_eq. unfold ident in Ei. simplify_eq. rewrite <- Ep.
        apply memcmp_refl.
      - intros p Hp E. apply (Hres p Hp). rewrite E. apply memcmp_refl. }
  destruct Hres as [Hp Hc]. apply memcmp_equal in Hc as Epid; [|done|by apply Hpl].
  destruct (Hk p Hp) as (ids & Hids & Hne & Hall).
  apply (runs_read _ ids); [done|].
  eapply runs_step.
  { apply massert_Some. by rewrite bool_decide_eq_true_2. }
  eapply runs_bind; [apply find_aes_key_runs|].
  { intros id Hid. destruct (Hall id Hid) as (k & Hk' & _). by eexists. }
  intros r s' [-> Hr]. apply runs_ret. split; [done|]. cbn [fst snd]. split; [|by split].
  destruct r as [id|].
  - destruct Hr as (Hin & k & Hk' & Ek). destruct (Hall id Hin) as (k2 & Hk2 & Ep).
    rewrite Hk' in Hk2. simplify_eq. unfold owns. rewrite (idents_lookup s id _ Hk'). unfold ident.
    destruct (Hlen id k2 Hk') as [Hl1 _]. by rewrite (memcmp_equal _ _ _ Hl1 Hla Ek), Ep.
  - intros id (k & Hk' & Ei)%Howner. unfold ident in Ei. simplify_eq.
    destruct (Hl id k Hk') as (q & qids & Hq & Hqids & Hin).
    destruct (Hk q Hq) as (qids' & Hqids' & _ & Hqall). rewrite Hqids in Hqids'. simplify_eq.
    destruct (Hqall id Hin) as (k2 & Hk2 & Ep). rewrite Hk' in Hk2. simplify_eq.
    assert (p = q) as ->.
    { apply Hu; [done|done|]. unfold peerid_key_map_compare.
      replace (pn_peerid q) with (pn_peerid p) by congruence. apply memcmp_refl. }
    rewrite Hqids in Hids. simplify_eq. apply (Hr id k2 Hin Hk'). apply memcmp_refl.
Qed.

(** ** Touching a key that was found *)

Lemma idents_inv s id key peer :
  idents s !! id = Some (key, peer) → ∃ k, km_keys s !! id = Some k ∧ ident k = (key, peer).
Proof.
  unfold idents. rewrite lookup_fmap. destruct (km_keys s !! id) as [k|]; [|done].
  intros H. exists k. split; [done|]. by apply (inj Some) in H.
Qed.

Lemma storage_runs s peerid aesKey i isNew :
  sound s → length aesKey = BDT_AES_KEY_LENGTH → length peerid = BDT_PEERID_LENGTH →
  runs (KeyManagerStorageUpdateAesKey asserts storageUpdate peerid aesKey i isNew) s
    (λ _ s', sound s' ∧ idents s' = idents s).
Proof.
  intros Hs Hl1 Hl2. unfold KeyManagerStorageUpdateAesKey. eapply runs_step; [reflexivity|].
  set (s1 := set_stored _ s). assert (Hs1 : sound s1) by by apply sound_stored.
  destruct (_ && _ && _ && _); [|by apply runs_ret].
  eapply runs_bind; [by apply FindAesKey_runs; [apply Hs1|..]|].
  intros [[id|] p] s' (-> & Hr & _); cbn [fst] in Hr; [|by apply runs_ret].
  apply idents_inv in Hr as (k & Hk & Ek). apply (runs_read _ k); [done|].
  by apply (wr_info_runs s1 id k).
Qed.

Lemma UpdateKey_ident i confirmed e :
  (ki_aesKey (KeyManagerUpdateKey i confirmed e).2, ki_peerid (KeyManagerUpdateKey i confirmed e).2) =
  (ki_aesKey i, ki_peerid i).
Proof. done. Qed.
Lemma Prepare_ident storage i :
  (ki_aesKey (KeyManagerPrepareForStorage storage i).2, ki_peerid (KeyManagerPrepareForStorage storage i).2) =
  (ki_aesKey i, ki_peerid i).
Proof. by destruct storage. Qed.

Lemma touch_key_runs s id k now confirmed touch prepare :
  sound s → km_keys s !! id = Some k →
  runs (touch_key activeTime id now confirmed touch prepare) s (λ r s',
    sound s' ∧ idents s' = idents s ∧ (ki_aesKey r.2, ki_peerid r.2) = ident k).
Proof.
  intros Hs Hk. unfold touch_key. apply (runs_read _ k); [done|].
  pose proof (UpdateKey_ident (with_access now (kn_keyInfo k)) confirmed
    (if touch then now + activeTime else 0)) as Ei.
  destruct (KeyManagerUpdateKey _ _ _) as [changed i]. cbn [snd] in Ei.
  apply runs_get.
  assert (Hgo : ∀ (b1 b2 : bool) i', (ki_aesKey i', ki_peerid i') = ident k →
    runs (wr_info id i' ;; mret (changed, b1, b2, i')) s (λ r s',
      sound s' ∧ idents s' = idents s ∧ (ki_aesKey r.2, ki_peerid r.2) = ident k)).
  { intros b1 b2 i' Ei'. eapply runs_bind; [by apply (wr_info_runs s id k)|].
    intros _ s' [Hs' Hi]. by apply runs_ret. }
  destruct prepare; [|by apply Hgo].
  pose proof (Prepare_ident (km_storage s) i) as Ep.
  destruct (KeyManagerPrepareForStorage _ _) as [[b1 b2] i']. cbn [snd] in Ep.
  apply Hgo. rewrite Ep, Ei. done.
Qed.

Lemma store_found_runs s r :
  sound s → length (ki_aesKey r.2) = BDT_AES_KEY_LENGTH → length (ki_peerid r.2) = BDT_PEERID_LENGTH →
  runs (store_found asserts storageUpdate r) s (λ a s', sound s' ∧ idents s' = idents s ∧
    a = (BFX_RESULT_SUCCESS, Some (ki_aesKey r.2, ki_peerid r.2))).
Proof.
  intros Hs Hl1 Hl2. unfold store_found. destruct r as [[[changed isNew] can] i]. cbn [snd] in *.
  apply (runs_bind _ _ _ (λ _ s', sound s' ∧ idents s' = idents s));
    [|intros _ s' [? ?]; by apply runs_ret].
  destruct (changed && can); [by apply storage_runs|by apply runs_ret].
Qed.

(** ** Rehashing *)

Lemma rehash_hashes s id k ps k' a' :
  keys_sound s → km_keys s !! id = Some k → rehashed sha256 id k (km_allocated s) ps k' a' →
  hashes_sound (km_mixHashKeyMap s) (<[id := k']> (km_keys s)) a' (deads ps) ps.*2.
Proof.
  intros [[Ht Hp Hnd Ha _] _ _ _ _] Hk [_ _ Hsl Hdd Had _ Hle]. rewrite !app_nil_r in *.
  assert (Hnew : ∀ n, n ∈ ps.*2 → km_allocated s ≤ hn_addr n < a').
  { intros n Hn. apply (list_elem_of_fmap_2 hn_addr) in Hn. rewrite Had in Hn.
    apply elem_of_seqZ in Hn. lia. }
  split; [done| | | |].
  - apply (Permutation_app_inv_r (slots k)). rewrite Hp.
    pose proof (all_slots_update (km_keys s) id k k' Hk) as Hu.
    transitivity ((all_slots (km_keys s) ++ slots k') ++ deads ps); [|rewrite <- Hu; solve_Permutation].
    rewrite <- !app_assoc, Hsl. solve_Permutation.
  - rewrite fmap_app. apply NoDup_app. split; [done|]. split; [|rewrite Had; apply NoDup_seqZ].
    intros a (n & -> & Hn)%list_elem_of_fmap (n' & E & Hn')%list_elem_of_fmap.
    specialize (Ha n Hn). specialize (Hnew n' Hn'). lia.
  - intros n [Hn|Hn]%elem_of_app; [specialize (Ha n Hn); lia|by apply Hnew].
  - intros d Hd. rewrite Hp. apply elem_of_all_slots. exists id, k. split; [done|by apply Hdd].
Qed.

Lemma rehash_keys_sound s id k ps k' a' t' :
  keys_sound s → km_keys s !! id = Some k → rehashed sha256 id k (km_allocated s) ps k' a' →
  hashes_sound t' (<[id := k']> (km_keys s)) a' [] [] →
  keys_sound (set_hashes t' (upd_key s id k' a')) ∧ idents (set_hashes t' (upd_key s id k' a')) = idents s.
Proof.
  intros [_ Hw Ha Hlen Hp] Hk [Hw' Hinfo _ _ _ _ Hle] Hh.
  assert (Ei : idents (set_hashes t' (upd_key s id k' a')) = idents s).
  { apply (ident_insert _ _ k); [done|]. unfold ident. by rewrite Hinfo. }
  split; [|done]. split; [done| | | |].
  - intros id' k2 Hk2. cbn in Hk2. apply lookup_insert_Some in Hk2 as [[<- <-]|[_ Hk2]]; [done|by apply Hw].
  - intros id' k2 Hk2. cbn in *. apply lookup_insert_Some in Hk2 as [[<- <-]|[_ Hk2]];
      [specialize (Ha id k Hk)|specialize (Ha _ _ Hk2)]; lia.
  - intros id' k2 Hk2. cbn in Hk2. apply lookup_insert_Some in Hk2 as [[<- <-]|[_ Hk2]].
    + rewrite Hinfo. by apply (Hlen id).
    + by apply (Hlen id').
  - by eapply peers_sound_ident; [symmetry; exact Ei| |exact Hp].
Qed.

Lemma replace_hashes_runs ps s h hit :
  hashes_sound (km_mixHashKeyMap s) (km_keys s) (km_allocated s) (deads ps) ps.*2 →
  runs (replace_hashes ps h hit) s (λ r s', ∃ t', s' = set_hashes t' s ∧
    hashes_sound t' (km_keys s) (km_allocated s) [] [] ∧
    (r = hit ∨ ∃ n, n ∈ ps.*2 ∧ r = Some (hn_keyNode n) ∧ memcmp BDT_MIX_HASH_LENGTH (hn_hash n) h = 0)).
Proof.
  revert s hit. induction ps as [|[d n] ps IH]; intros s hit Hh; cbn [replace_hashes].
  { apply runs_ret. exists (km_mixHashKeyMap s). split; [by destruct s|]. auto. }
  assert (Hdel : runs (KeyManagerDeleteMixHash d) s (λ _ s', ∃ t', s' = set_hashes t' s ∧
    hashes_sound t' (km_keys s) (km_allocated s) (deads ps) (n :: ps.*2))).
  { destruct d as [d|]; cbn [KeyManagerDeleteMixHash].
    - destruct (hashes_delete _ _ _ d (deads ps) (n :: ps.*2) Hh) as (t' & Hr & Hh').
      exists tt, (set_hashes t' s). split; [unfold mix_delete, on_hashes; by rewrite Hr|]. by exists t'.
    - apply runs_ret. exists (km_mixHashKeyMap s). split; [by destruct s|done]. }
  eapply runs_bind; [exact Hdel|]. intros _ s1 (t1 & -> & Hh1).
  destruct (hashes_add _ _ _ _ _ _ Hh1) as (t2 & Hr & Hh2).
  eapply runs_step.
  { unfold mix_add, on_hashes. cbn [km_mixHashKeyMap set_hashes]. rewrite Hr. reflexivity. }
  eapply runs_weaken; [apply (IH (set_hashes t2 (set_hashes t1 s))); exact Hh2|].
  intros r s' (t3 & -> & Hh3 & Hr3). exists t3. split; [done|]. split; [done|].
  destruct Hr3 as [->|(m & Hm & -> & Hc)].
  - case_decide; [|by left]. right. exists n. split; [by left|done].
  - right. exists m. split; [by right|done].
Qed.

Lemma keys_sound_lists s l h t : keys_sound s → keys_sound (put_lists s l h t).
Proof. intros [H1 H2 H3 H4 H5]. by split. Qed.

(** [aesKey] has [h] among the hashes it can have. *)
Definition hashes_to (aesKey h : list Z) : Prop :=
  ∃ append, memcmp BDT_MIX_HASH_LENGTH (hash_of sha256 aesKey append) h = 0.

Lemma next_rehash_runs s h K R node :
  keys_sound s → lists_at (km_lists s) (km_links s) (km_keys s) K R →
  kl_rehashKeyList (km_lists s) = Some node →
  runs (KeyManagerFindByMixHashInNextRehashNodeNoLock asserts clock sha256 h) s (λ r s',
    keys_sound s' ∧ idents s' = idents s ∧
    (∃ K' R', lists_at (km_lists s') (km_links s') (km_keys s') K' R' ∧ R ≡ₚ node :: R') ∧
    (∀ id, r = Some id → ∃ k, km_keys s' !! id = Some k ∧ hashes_to (ki_aesKey (kn_keyInfo k)) h)).
Proof.
  intros Hs HL En. unfold KeyManagerFindByMixHashInNextRehashNodeNoLock.
  apply runs_get. rewrite En.
  destruct (pop_spec _ _ _ _ _ _ HL En) as (r' & h1 & R' & Hdel & HR & HL1).
  eapply runs_step; [apply on_links_Some; exact Hdel|].
  eapply runs_step; [reflexivity|]. cbn beta.
  match goal with |- runs _ ?st _ => set (s1 := st) end.
  change (lists_at (km_lists s1) (km_links s1) (km_keys s1) K R') in HL1.
  assert (Hs1 : keys_sound s1) by (destruct Hs; by split).
  assert (Ei1 : idents s1 = idents s) by done. clearbody s1.
  assert (Hnode : is_Some (km_keys s !! node)).
  { apply (la_keys _ _ _ _ _ HL). rewrite elem_of_app, HR. right. by left. }
  assert (Hnode1 : is_Some (km_keys s1 !! node)).
  { apply (f_equal (.!! node)) in Ei1. unfold idents in Ei1. rewrite !lookup_fmap in Ei1.
    destruct Hnode as [x Hx]. rewrite Hx in Ei1. by destruct (km_keys s1 !! node). }
  destruct Hnode1 as [k Hk].
  destruct (KeyManagerRehashAesKey_spec asserts clock sha256 sha_ok s1 node k Hk)
    as (ps & k' & a' & Hreh & Hr); [left; by apply (ks_whole _ Hs1)|].
  eapply runs_step; [exact Hreh|].
  set (s2 := upd_key (set_tick (S (km_tick s1)) s1) node k' a').
  assert (Hh2 : hashes_sound (km_mixHashKeyMap s2) (km_keys s2) (km_allocated s2) (deads ps) ps.*2)
    by by apply (rehash_hashes s1 node k).
  eapply runs_bind; [by apply replace_hashes_runs|].
  intros hit s3 (t3 & -> & Hh3 & Hhit).
  destruct (rehash_keys_sound (set_tick (S (km_tick s1)) s1) node k ps k' a' t3) as [Hs3 Ei3];
    [by destruct Hs1; split|done|done|done|].
  change (set_hashes t3 (upd_key (set_tick (S (km_tick s1)) s1) node k' a')) with (set_hashes t3 s2) in *.
  assert (HL3 : lists_at (km_lists (set_hashes t3 s2)) (km_links (set_hashes t3 s2))
    (km_keys (set_hashes t3 s2)) K R').
  { eapply (lists_at_dom _ _ (km_keys s1)); [|exact HL1]. intros x. by apply (insert_dom _ node k). }
  assert (Hnk : km_keys (set_hashes t3 s2) !! node = Some k') by apply lookup_insert_eq.
  assert (Hno : node ∉ K ++ R').
  { rewrite not_elem_of_app. destruct (la_R _ _ _ _ _ HL) as [HndR _]. rewrite HR in HndR.
    apply NoDup_cons in HndR as [? _]. split; [|done]. intros HK.
    apply (la_apart _ _ _ _ _ HL node HK). rewrite HR. by left. }
  destruct (push_spec clock (match hit with Some _ => true | None => false end) (set_hashes t3 s2) K R' node)
    as (l' & h' & t' & K' & Hpush & HL' & _); [done|by eexists|done|].
  eapply runs_step; [destruct hit; exact Hpush|]. apply runs_ret.
  split; [by apply keys_sound_lists|]. split; [by rewrite <- Ei1|].
  split; [exists K', R'; by split|].
  intros id Hid. destruct Hhit as [->|(n & Hn & -> & Hc)]; [done|]. simplify_eq.
  rewrite (rh_owner _ _ _ _ _ _ _ Hr n Hn). exists k'. split; [done|].
  assert (∃ append, hn_hash n = hash_of sha256 (ki_aesKey (kn_keyInfo k')) append) as [append E].
  { assert (Hin : n ∈ slots k' ++ deads ps) by (rewrite (rh_slots _ _ _ _ _ _ _ Hr); set_solver).
    apply elem_of_app in Hin as [Hin|Hin].
    - by apply (kw_hashed _ _ _ (rh_whole _ _ _ _ _ _ _ Hr)).
    - apply (rh_deads _ _ _ _ _ _ _ Hr) in Hin. rewrite (rh_info _ _ _ _ _ _ _ Hr).
      by apply (kw_hashed _ _ _ (ks_whole _ Hs1 _ _ Hk)). }
  exists append. by rewrite <- E.
Qed.

Lemma rehash_loop_runs fuel s h now touch confirmed K R :
  keys_sound s → lists_at (km_lists s) (km_links s) (km_keys s) K R → (length R < fuel)%nat →
  runs (rehash_loop asserts activeTime clock sha256 fuel h now touch confirmed) s (λ r s',
    sound s' ∧ idents s' = idents s ∧
    match r with
    | None => True
    | Some r => ∃ id, idents s !! id = Some (ki_aesKey r.2, ki_peerid r.2) ∧ hashes_to (ki_aesKey r.2) h
    end).
Proof.
  revert s K R. induction fuel as [|fuel IH]; intros s K R Hs HL Hf; [lia|].
  cbn [rehash_loop]. apply runs_get.
  destruct (kl_rehashKeyList (km_lists s)) as [node|] eqn:En.
  2:{ apply runs_ret. split; [split; [done|by exists K, R]|done]. }
  eapply runs_bind; [by apply (next_rehash_runs s h K R node)|].
  intros hit s1 (Hs1 & Ei & (K' & R' & HL' & HR) & Hhit). destruct hit as [id|].
  - destruct (Hhit id eq_refl) as (k & Hk & Hh).
    eapply runs_bind; [apply (touch_key_runs s1 id k)|]; [split; [done|by exists K', R']|done|].
    intros r s2 (Hs2 & Ei2 & Er). apply runs_ret. split; [done|]. split; [by rewrite Ei2|].
    exists id. rewrite Er, <- Ei, (idents_lookup _ _ _ Hk). split; [done|].
    apply (f_equal fst) in Er. cbn [fst] in Er. by rewrite Er.
  - eapply runs_weaken; [apply (IH s1 K' R' Hs1 HL'); apply Permutation_length in HR; simpl in HR; lia|].
    intros r s2 (Hs2 & Ei2 & Hr). split; [done|]. split; [by rewrite Ei2|]. by rewrite <- Ei.
Qed.

Lemma lists_at_size l h m K R : lists_at l h m K R → (length R ≤ size m)%nat.
Proof.
  intros [_ [Hnd _] _ Hkeys _ _ _ _]. rewrite <- size_dom, <- (size_list_to_set (C := gset Z) R Hnd).
  apply subseteq_size. intros x Hx%elem_of_list_to_set. apply elem_of_dom, Hkeys. set_solver.
Qed.

(** ** Finding a key by a hash *)

Definition found_by_hash (s : KeyManager) (h : list Z) (r : Z * option (list Z * list Z)) : Prop :=
  match r.2 with
  | Some (key, peer) =>
      r.1 = BFX_RESULT_SUCCESS ∧ ∃ id, idents s !! id = Some (key, peer) ∧ hashes_to key h
  | None =>
      r.1 = BFX_RESULT_NOT_FOUND ∧
      ∀ id key peer, idents s !! id = Some (key, peer) → memcmp BDT_MIX_HASH_LENGTH (hash_of sha256 key []) h ≠ 0
  end.

Lemma ident_length s id key peer :
  keys_sound s → idents s !! id = Some (key, peer) →
  length key = BDT_AES_KEY_LENGTH ∧ length peer = BDT_PEERID_LENGTH.
Proof.
  intros Hs (k & Hk & E)%idents_inv. unfold ident in E. simplify_eq. by apply (ks_length _ Hs id).
Qed.

Lemma has_hash_hashes_to s h id k :
  keys_sound s → has_hash s h id k → hashes_to (ki_aesKey (kn_keyInfo k)) h.
Proof.
  intros Hs [Hk (n & Hn & Hc)].
  destruct (kw_hashed _ _ _ (ks_whole _ Hs _ _ Hk) n Hn) as [append E].
  exists append. rewrite <- E. by apply memcmp_zero_sym.
Qed.

(** A key in hand is touched and stored. *)
Lemma answer_runs s s0 h id k now confirmed touch prepare :
  sound s → idents s = idents s0 → has_hash s h id k →
  runs (touch_key activeTime id now confirmed touch prepare ≫= store_found asserts storageUpdate) s
    (λ r s', sound s' ∧ idents s' = idents s0 ∧ found_by_hash s0 h r).
Proof.
  intros Hs Ei Hh. pose proof (has_hash_hashes_to _ _ _ _ (proj1 Hs) Hh) as Hto.
  destruct Hh as [Hk _]. pose proof (ks_length _ (proj1 Hs) _ _ Hk) as [Hl1 Hl2].
  eapply runs_bind; [by apply (touch_key_runs s id k)|].
  intros r s1 (Hs1 & Ei1 & Er). unfold ident in Er. injection Er as Er1 Er2.
  eapply runs_weaken; [apply store_found_runs; [done|congruence..]|].
  intros a s2 (Hs2 & Ei2 & ->). split; [done|]. split; [by rewrite Ei2, Ei1|].
  unfold found_by_hash; cbn [fst snd]. split; [done|]. exists id. rewrite Er1, Er2. split; [|done].
  rewrite <- Ei. by apply idents_lookup.
Qed.

Lemma move_runs s (P : Prop) `{!Decision P} :
  sound s → (P → is_Some (kl_tail (km_lists s))) →
  runs (if decide P then KeyManagerMoveAllKeyToRehashNoLock else mret tt) s
    (λ _ s', sound s' ∧ km_keys s' = km_keys s).
Proof.
  intros [Hs (K & R & HL)] Hb. case_decide as HP; [|by apply runs_ret; split; [split; [|exists K, R]|]].
  destruct (Hb HP) as [f Hf].
  destruct (KeyManagerMoveAllKeyToRehashNoLock_spec s K R f HL Hf) as (h' & R' & Hr & HL').
  eexists tt, _. split; [exact Hr|]. split; [|done]. split; [by apply keys_sound_lists|].
  by exists [], R'.
Qed.

Lemma FindByMixHash_runs s h touch confirmed :
  sound s →
  runs (BdtHistory_KeyManagerFindByMixHash asserts activeTime clock sha256 storageUpdate h touch confirmed) s
    (λ r s', sound s' ∧ idents s' = idents s ∧ found_by_hash s h r).
Proof.
  intros Hs. unfold BdtHistory_KeyManagerFindByMixHash.
  destruct (find_hash_runs s h (proj1 Hs)) as [Hf Hh].
  eapply runs_step; [exact Hf|]. destruct (hn_keyNode <$> _) as [id|].
  { destruct Hh as [k Hh]. eapply runs_step; [reflexivity|]. cbn beta.
    by apply (answer_runs _ s h id k); [apply sound_tick| |]. }
  eapply runs_step; [reflexivity|]. cbn beta zeta.
  set (s1 := set_tick _ s). assert (Hs1 : sound s1) by by apply sound_tick.
  apply runs_get. set (now := BDT_MICRO_SECONDS_2_SECONDS _).
  eapply runs_bind.
  { apply (move_runs s1); [done|by intros [_ ?]]. }
  intros _ s2 [Hs2 Ek]. assert (Ei2 : idents s2 = idents s) by (unfold idents; by rewrite Ek).
  apply runs_get. destruct Hs2 as [Hk2 (K & R & HL2)].
  eapply runs_bind.
  { apply (rehash_loop_runs _ s2 h now touch confirmed K R Hk2 HL2).
    apply lists_at_size in HL2. lia. }
  intros [r|] s3 (Hs3 & Ei3 & Hr).
  - destruct Hr as (id & Hid & Hto). pose proof (ident_length _ _ _ _ Hk2 Hid) as [Hl1 Hl2].
    eapply runs_weaken; [by apply store_found_runs|].
    intros a s4 (Hs4 & Ei4 & ->). split; [done|]. split; [congruence|].
    split; [done|]. exists id. split; [by rewrite <- Ei2|done].
  - destruct (find_hash_runs s3 h (proj1 Hs3)) as [Hf3 Hh3].
    eapply runs_step; [exact Hf3|]. destruct (hn_keyNode <$> _) as [id|].
    { destruct Hh3 as [k Hh3]. apply (answer_runs _ s h id k); [done|congruence|done]. }
    apply runs_ret. split; [done|]. split; [congruence|]. split; [done|].
    intros id key peer Hid Hc. rewrite <- Ei2, <- Ei3 in Hid. apply idents_inv in Hid as (k & Hk & E).
    apply (Hh3 id k). split; [done|].
    destruct (kw_original _ _ _ (ks_whole _ (proj1 Hs3) _ _ Hk)) as (o & Ho & Eo).
    exists o. split; [apply elem_of_slots; unfold kn_mixHashNodes; rewrite Ho; by left|]. unfold ident in E. simplify_eq.
    rewrite Eo. by apply memcmp_zero_sym.
Qed.
End manager.
