(* ===== verification/KeyAdd.v ===== *)
(** * Adding keys to the key manager

    [AddNewKey] on a sound manager, and the refinement: whatever sequence of
    adding, finding and loading keys is run, the manager answers without a
    fault and acts as a map from its keys to (AES key, peer). *)

From stdpp Require Import sorting.
From S2P Require Import Prelude CInt BufferStream SgTree SgList KeyManager KeyProofs KeyTheorems.

(** ** The peers *)

Lemma NoDup_fmap_inj_elem {A B} (f : A → B) l x y :
  NoDup (f <$> l) → x ∈ l → y ∈ l → f x = f y → x = y.
Proof.
  induction l as [|z l IH]; [intros _ Hx; by apply elem_of_nil in Hx|].
  rewrite fmap_cons. intros [Hz Hnd]%NoDup_cons [->|Hx]%elem_of_cons [->|Hy]%elem_of_cons E; [done|..].
  - destruct Hz. rewrite E. by apply list_elem_of_fmap_2.
  - destruct Hz. rewrite <- E. by apply list_elem_of_fmap_2.
  - by apply IH.
Qed.

Lemma peers_add t t' pk m alloc p ids id k alloc' :
  peers_sound t pk m alloc → well_formed pn_addr peerid_key_map_compare t' →
  (∀ q, q ∈ elems t' ↔ q = p ∨ q ∈ elems t) → pn_addr p < alloc' → alloc ≤ alloc' →
  length (pn_peerid p) = BDT_PEERID_LENGTH →
  (∀ q, q ∈ elems t → pn_peerid q = pn_peerid p ∨ pn_addr q = pn_addr p → q = p) →
  pk !! pn_addr p = Some ids → (p ∈ elems t ∨ ids = []) → m !! id = None →
  ki_peerid (kn_keyInfo k) = pn_peerid p →
  peers_sound t' (<[pn_addr p := id :: ids]> pk) (<[id := k]> m) alloc'.
Proof.
  intros [Ht Hu Hal Hlen Hk Hl] Ht' Hel Hpa Haa Hpl Hpq Hids Hold Hfresh Ekp.
  assert (Hcase : ∀ q, q ∈ elems t' → q = p ∨ (q ∈ elems t ∧ pn_addr p ≠ pn_addr q)).
  { intros q [->|Hq]%Hel; [by left|]. destruct (decide (pn_addr p = pn_addr q)); [|by right].
    left. apply Hpq; [done|by right]. }
  split; [done|..].
  - assert (Hlen' : ∀ q, q ∈ elems t' → length (pn_peerid q) = BDT_PEERID_LENGTH)
      by (intros q [->|Hq]%Hel; auto).
    intros q q' Hq Hq' Hc. apply memcmp_equal in Hc; [|by apply Hlen'..].
    apply Hel in Hq as [->|Hq], Hq' as [->|Hq']; [done| | |].
    + symmetry. apply Hpq; [done|by left].
    + apply Hpq; [done|by left].
    + apply Hu; [done|done|]. unfold peerid_key_map_compare. rewrite Hc. apply memcmp_refl.
  - intros q [->|Hq]%Hel; [done|]. specialize (Hal q Hq). lia.
  - intros q [->|Hq]%Hel; auto.
  - intros q Hq. apply Hcase in Hq as [->|[Hq Hne]].
    + exists (id :: ids). rewrite lookup_insert_eq. split; [done|]. split; [done|].
      intros i [->|Hi]%elem_of_cons; [exists k; by rewrite lookup_insert_eq|].
      destruct Hold as [Hp| ->]; [|by apply elem_of_nil in Hi].
      destruct (Hk p Hp) as (ids' & Hids' & _ & Hall). simplify_eq.
      destruct (Hall i Hi) as (k2 & Hk2 & E2). exists k2. split; [|done].
      rewrite lookup_insert_ne; [done|congruence].
    + destruct (Hk q Hq) as (ids' & Hids' & Hn & Hall).
      exists ids'. rewrite lookup_insert_ne by done.
      split; [done|]. split; [done|]. intros i Hi. destruct (Hall i Hi) as (k2 & Hk2 & E2).
      exists k2. split; [|done]. rewrite lookup_insert_ne; [done|congruence].
  - intros i k2 Hi. destruct (decide (i = id)) as [->|Hne].
    + exists p, (id :: ids). rewrite lookup_insert_eq. split; [apply Hel; by left|]. split; [done|by left].
    + rewrite lookup_insert_ne in Hi by done. destruct (Hl i k2 Hi) as (q & ids' & Hq & Hids' & Hin).
      exists q. destruct (decide (pn_addr q = pn_addr p)) as [E|E].
      * assert (q = p) as -> by (apply Hpq; [done|by right]). exists (id :: ids).
        rewrite lookup_insert_eq. split; [apply Hel; by right|]. split; [done|]. simplify_eq. by right.
      * exists ids'. rewrite lookup_insert_ne by congruence. split; [apply Hel; by right|done].
Qed.

(** ** The lists *)

Definition new_links (h : links) (id : Z) : links :=
  Links (<[id := None]> (lnext h)) (<[id := None]> (lprev h)).

Lemma lists_at_new l h m K R id k :
  lists_at l h m K R → m !! id = None → lists_at l (new_links h id) (<[id := k]> m) K R ∧ id ∉ K ++ R.
Proof.
  intros [[HnK HK] [HnR HR] Hap Hk Hal He Hh Hr] Hid.
  assert (Hni : id ∉ K ++ R) by (intros Hi; destruct (Hk id Hi); congruence).
  assert (Hagree : ∀ x, x ∈ K ++ R → lnext (new_links h id) !! x = lnext h !! x ∧
    lprev (new_links h id) !! x = lprev h !! x).
  { intros x Hx. cbn [new_links lnext lprev]. by rewrite !lookup_insert_ne by congruence. }
  split; [|done]. split; try done.
  - split; [done|]. eapply dseg_agree; [|done]. intros x Hx. apply Hagree. set_solver.
  - split; [done|]. eapply dseg_agree; [|done]. intros x Hx. apply Hagree. set_solver.
  - intros x Hx. rewrite lookup_insert_ne by congruence. by apply Hk.
  - intros x Hx. destruct (decide (x = id)) as [->|Hne].
    + split; cbn [new_links lnext lprev]; by rewrite lookup_insert_eq.
    + rewrite lookup_insert_ne in Hx by done. destruct (Hal x Hx).
      split; cbn [new_links lnext lprev]; by rewrite lookup_insert_ne.
Qed.

(** ** The hashes *)

Lemma add_hashes_runs ns s dead :
  hashes_sound (km_mixHashKeyMap s) (km_keys s) (km_allocated s) dead ns →
  runs (add_hashes (Some <$> ns)) s (λ _ s', ∃ t', s' = set_hashes t' s ∧
    hashes_sound t' (km_keys s) (km_allocated s) dead []).
Proof.
  revert s. induction ns as [|n ns IH]; intros s Hh; cbn [fmap list_fmap add_hashes].
  { apply runs_ret. exists (km_mixHashKeyMap s). split; [by destruct s|done]. }
  apply (runs_read _ n); [done|].
  destruct (hashes_add _ _ _ _ _ _ Hh) as (t1 & Hr & Hh1).
  eapply runs_step; [unfold mix_add, on_hashes; rewrite Hr; reflexivity|].
  eapply runs_weaken; [apply IH; exact Hh1|]. intros _ s' (t' & -> & Hh'). by exists t'.
Qed.

Section add.
Context (asserts : bool) (activeTime : Z) (clock : nat → Z).
Context (sha256 : list Z → option (list Z)) (storageUpdate : StorageCall → Z).
Context (sha_ok : ∀ bs, is_Some (sha256 bs)).

Lemma whole_slots id k :
  key_whole sha256 id k → take (Z.to_nat (kn_hashCount k)) (kn_mixHashNodes k) = Some <$> slots k.
Proof.
  intros [Hc _ (a & b & c & Hs) (o & Ho & _) _ _]. unfold slots, kn_mixHashNodes.
  rewrite Hc, Ho, Hs. done.
Qed.

(** The hashes of a new key wait to be put in the tree. *)
Lemma new_hashes t m a id k k' ps a' :
  hashes_sound t m a [] [] → m !! id = None → slots k = [] →
  rehashed sha256 id k (a + 1) ps k' a' → hashes_sound t (<[id := k']> m) a' [] (slots k').
Proof.
  intros [Ht Hp Hnd Ha _] Hm Hk [_ _ Hsl Hd Had _ Hle]. rewrite !app_nil_r in *.
  assert (E : deads ps = []).
  { destruct (deads ps) as [|d ds]; [done|]. specialize (Hd d ltac:(by left)). rewrite Hk in Hd.
    by apply elem_of_nil in Hd. }
  rewrite E, Hk, app_nil_r in Hsl. simpl in Hsl.
  assert (Hnew : ∀ n, n ∈ ps.*2 → a + 1 ≤ hn_addr n < a').
  { intros n Hn. apply (list_elem_of_fmap_2 hn_addr) in Hn. rewrite Had in Hn.
    apply elem_of_seqZ in Hn. lia. }
  split; [done| | | |].
  - rewrite app_nil_r, all_slots_insert by done. rewrite Hp. solve_Permutation.
  - rewrite Hsl, fmap_app. apply NoDup_app. split; [done|]. split; [|rewrite Had; apply NoDup_seqZ].
    intros x (n & -> & Hn)%list_elem_of_fmap (n' & E' & Hn')%list_elem_of_fmap.
    specialize (Ha n Hn). specialize (Hnew n' Hn'). lia.
  - intros n [Hn|Hn]%elem_of_app; [specialize (Ha n Hn); lia|]. rewrite Hsl in Hn. by apply Hnew.
  - intros d Hdd. by apply elem_of_nil in Hdd.
Qed.

(** What is known of the peer a new key is made for. *)
Record peer_ready (s : KeyManager) (p : PeeridKeyMap) (newPeer : bool) (ids : list Z) : Prop := {
  pr_alloc : pn_addr p < km_allocated s;
  pr_length : length (pn_peerid p) = BDT_PEERID_LENGTH;
  pr_ids : km_peerKeys s !! pn_addr p = Some ids;
  pr_where : if newPeer then ids = [] ∧ (∀ q, q ∈ elems (km_peeridKeyMap s) →
               pn_peerid q ≠ pn_peerid p ∧ pn_addr q ≠ pn_addr p)
             else p ∈ elems (km_peeridKeyMap s);
}.

Lemma peer_add_runs s p newPeer ids m id k a :
  peers_sound (km_peeridKeyMap s) (km_peerKeys s) m (km_allocated s) →
  peer_ready s p newPeer ids → km_allocated s ≤ a → m !! id = None →
  ki_peerid (kn_keyInfo k) = pn_peerid p →
  ∃ t, (∀ s', km_peeridKeyMap s' = km_peeridKeyMap s →
      (if newPeer then peer_add p else mret tt) s' = Some (tt, set_peers t s')) ∧
    peers_sound t (<[pn_addr p := id :: ids]> (km_peerKeys s)) (<[id := k]> m) a.
Proof.
  intros Hp [Ha Hl Hi Hw] Haa Hm Ek. pose proof Hp as [Ht Hu Hal Hlen _ _]. destruct newPeer.
  - destruct Hw as [-> Hw].
    destruct (sglib_add_spec pn_addr peerid_key_map_compare (km_peeridKeyMap s) p Ht) as (t & Hr & Ht' & Hpm).
    { intros (q & E & Hq)%list_elem_of_fmap. by destruct (Hw q Hq). }
    exists t. split.
    + intros s' E. unfold peer_add, on_peers. by rewrite E, Hr.
    + eapply peers_add; [exact Hp|done| |lia|lia|done| |done|by right|done|done].
      * intros q. rewrite Hpm. apply elem_of_cons.
      * intros q Hq [E|E]; by destruct (Hw q Hq).
  - exists (km_peeridKeyMap s). split.
    + intros s' E. by rewrite <- E; destruct s'.
    + eapply peers_add; [exact Hp|done| |lia|lia|done| |done|by left|done|done].
      * intros q. split; [by right|]. by intros [->|?].
      * intros q Hq [E|E].
        -- apply Hu; [done|done|]. unfold peerid_key_map_compare. rewrite E. apply memcmp_refl.
        -- destruct Ht as (_ & Hnd & _). by apply (NoDup_fmap_inj_elem pn_addr (elems (km_peeridKeyMap s))).
Qed.

Lemma create_key_runs s key p newPeer ids :
  sound sha256 s → peer_ready s p newPeer ids → length key = BDT_AES_KEY_LENGTH →
  runs (create_key asserts activeTime clock sha256 key p newPeer) s (λ id s',
    sound sha256 s' ∧ idents s !! id = None ∧ idents s' = <[id := (key, pn_peerid p)]> (idents s)).
Proof.
  intros [Hs (K & R & HL)] Hpr Hlk. pose proof Hs as [Hh Hw Ha Hlen Hp].
  set (id := km_allocated s). set (now := BDT_MICRO_SECONDS_2_SECONDS (clock (km_tick s))).
  assert (Hid : km_keys s !! id = None).
  { destruct (km_keys s !! id) as [k|] eqn:E; [|done]. specialize (Ha id k E). unfold id in Ha. lia. }
  set (k0 := mkKeyNode (mkKeyInfo key false false (now + activeTime) now (pn_peerid p))
    None [None; None; None] 0 0).
  set (s2 := set_keys (<[id := k0]> (km_keys s)) (set_links (new_links (km_links s) id)
    (set_tick (S (km_tick s)) (set_allocated (id + 1) s)))).
  destruct (lists_at_new _ _ _ _ _ id k0 HL Hid) as [HL2 Hni].
  change (lists_at (km_lists s2) (km_links s2) (km_keys s2) K R) in HL2.
  assert (Hk2 : km_keys s2 !! id = Some k0) by apply lookup_insert_eq.
  destruct (KeyManagerRehashAesKey_spec asserts clock sha256 sha_ok s2 id k0 Hk2)
    as (ps & k' & a' & Hreh & Hr); [by right|].
  set (s3 := upd_key (set_tick (S (km_tick s2)) s2) id k' a') in Hreh.
  assert (E3 : km_keys s3 = <[id := k']> (km_keys s)) by apply insert_insert_eq.
  destruct (push_spec clock true s3 K R id) as (l' & h' & t' & K' & Hpush & HL' & _); [|by rewrite E3, lookup_insert_eq|done|].
  { eapply (lists_at_dom _ _ (km_keys s2)); [|exact HL2]. intros x. by apply (insert_dom _ id k0). }
  pose proof (rh_info _ _ _ _ _ _ _ Hr) as Einfo. pose proof (rh_count _ _ _ _ _ _ _ Hr) as Hle.
  cbn [s2 km_allocated set_keys set_links set_tick set_allocated] in Hle.
  destruct (peer_add_runs s p newPeer ids (km_keys s) id k' a' Hp Hpr) as (tp & Hadd & Hp');
    [unfold id in Hle; lia|done|by rewrite Einfo|].
  set (s4 := set_peers tp (set_peerKeys (<[pn_addr p := id :: ids]> (km_peerKeys s)) (put_lists s3 l' h' t'))).
  assert (Hh4 : hashes_sound (km_mixHashKeyMap s4) (km_keys s4) (km_allocated s4) [] (slots k')).
  { cbn [s4 set_peers set_peerKeys put_lists set_tick set_lists set_links km_mixHashKeyMap km_keys km_allocated].
    rewrite E3. by eapply (new_hashes _ _ _ id k0 k' ps a' Hh Hid). }
  destruct (add_hashes_runs (slots k') s4 [] Hh4) as (u & s5 & Hah & th & -> & Hh5). destruct u.
  exists id, (set_hashes th s4). split.
  - unfold create_key. erewrite M_bind_Some by reflexivity. cbn beta.
    erewrite M_bind_Some by (apply mread_Some, lookup_insert_eq). cbn beta zeta.
    erewrite M_bind_Some.
    2:{ unfold wr_info, wr_key. erewrite M_bind_Some by (apply mread_Some, lookup_insert_eq). cbn beta.
        erewrite M_bind_Some by (apply mread_Some, lookup_insert_eq). reflexivity. }
    cbn beta. erewrite M_bind_Some.
    2:{ match goal with |- _ ?st = _ => replace st with s2; [exact Hreh|] end.
        unfold s2, set_keys. cbn. f_equal. symmetry. apply insert_insert_eq. }
    cbn beta. erewrite M_bind_Some by exact Hpush. cbn beta.
    erewrite M_bind_Some by (apply mread_Some; apply (pr_ids _ _ _ _ Hpr)). cbn beta.
    erewrite M_bind_Some by reflexivity. cbn beta.
    erewrite M_bind_Some by (apply Hadd; reflexivity). cbn beta.
    erewrite M_bind_Some by (apply mread_Some, lookup_insert_eq). cbn beta.
    rewrite (whole_slots id k') by apply Hr. erewrite M_bind_Some by exact Hah. reflexivity.
  - assert (E5 : km_keys (set_hashes th s4) = <[id := k']> (km_keys s)) by exact E3.
    assert (Ei : ident k' = (key, pn_peerid p)) by (unfold ident; by rewrite Einfo).
    split; [split|split].
    + split; [exact Hh5|..].
      * intros i k. rewrite E5. intros [[<- <-]|[_ Hi]]%lookup_insert_Some; [apply Hr|by apply Hw].
      * intros i k. rewrite E5. change (km_allocated (set_hashes th s4)) with a'.
        intros [[<- <-]|[_ Hi]]%lookup_insert_Some; [lia|]. specialize (Ha i k Hi). unfold id in Hle. lia.
      * intros i k. rewrite E5. intros [[<- <-]|[_ Hi]]%lookup_insert_Some; [|by apply (Hlen i)].
        rewrite Einfo. split; [done|apply (pr_length _ _ _ _ Hpr)].
      * rewrite E5. exact Hp'.
    + exists K', R. exact HL'.
    + unfold idents. by rewrite lookup_fmap, Hid.
    + unfold idents. rewrite E5, fmap_insert. by rewrite Ei.
Qed.

(** The key set of a manager. *)
Definition pairs (s : KeyManager) : gset (list Z * list Z) := map_img (idents s).

Lemma elem_of_pairs s x : x ∈ pairs s ↔ ∃ id, idents s !! id = Some x.
Proof. apply elem_of_map_img. Qed.

Lemma pairs_insert s s' id x :
  idents s !! id = None → idents s' = <[id := x]> (idents s) → pairs s' = {[x]} ∪ pairs s.
Proof. intros Hi E. unfold pairs. rewrite E. apply set_eq. intros y. rewrite map_img_insert, delete_id by done. set_solver. Qed.

(** Adding [(key, peer)]: the result, and the key of the manager it is. *)
Definition added (s : KeyManager) (key peer : list Z) (result : Z) (s' : KeyManager) : Prop :=
  result = (if decide ((key, peer) ∈ pairs s) then BFX_RESULT_ALREADY_EXISTS else BFX_RESULT_SUCCESS) ∧
  pairs s' = {[(key, peer)]} ∪ pairs s.

Lemma added_same s s' key peer id :
  idents s !! id = Some (key, peer) → idents s' = idents s → added s key peer BFX_RESULT_ALREADY_EXISTS s'.
Proof.
  intros Hi E. assert (Hin : (key, peer) ∈ pairs s) by (apply elem_of_pairs; by exists id).
  split; [by rewrite decide_True|]. unfold pairs in *. rewrite E. set_solver.
Qed.

Lemma added_ext s s1 s2 key peer r :
  added s key peer r s1 → idents s2 = idents s1 → added s key peer r s2.
Proof. intros [-> E] Ei. split; [done|]. unfold pairs in *. by rewrite Ei. Qed.

Lemma AddNewKey_runs s key peer :
  sound sha256 s → length key = BDT_AES_KEY_LENGTH → length peer = BDT_PEERID_LENGTH →
  runs (KeyManagerAddNewKeyNoLock asserts activeTime clock sha256 key peer None) s (λ r s',
    sound sha256 s' ∧ added s key peer r.1 s' ∧ idents s' !! r.2 = Some (key, peer)).
Proof.
  intros Hs Hl1 Hl2. unfold KeyManagerAddNewKeyNoLock.
  eapply runs_bind; [by apply (FindAesKey_runs asserts sha256); [apply Hs|..]|].
  intros [[id|] o] s1 (-> & Hr & Ho); cbn [fst snd] in *.
  { apply runs_ret. split; [done|]. split; [by apply (added_same s s key peer id)|done]. }
  assert (Hnew : ∀ id s', idents s !! id = None → idents s' = <[id := (key, peer)]> (idents s) →
    added s key peer BFX_RESULT_SUCCESS s' ∧ idents s' !! id = Some (key, peer)).
  { intros id s' Hid E. split; [split|by rewrite E, lookup_insert_eq].
    - rewrite decide_False; [done|]. rewrite elem_of_pairs. intros [i Hi]. by apply (Hr i).
    - by apply (pairs_insert s s' id). }
  pose proof Hs as [[Hh Hw Ha Hlen Hp] HL]. destruct o as [p|].
  - destruct Ho as [Hpe Epid]. pose proof Hp as [_ _ Hal _ Hk _].
    destruct (Hk p Hpe) as (ids & Hids & _ & _).
    eapply runs_bind; [apply (create_key_runs s key p false ids); [done|split; [auto|congruence|done|done]|done]|].
    intros id s' (Hs' & Hid & Ei). apply runs_ret. split; [done|]. rewrite Epid in Ei. by apply Hnew.
  - cbv zeta. eapply runs_bind.
    + eapply runs_step; [reflexivity|]. cbn beta. eapply runs_step; [reflexivity|].
      set (p := mkPeerNode (km_allocated s) peer). cbn beta.
      match goal with |- runs _ ?st _ => set (s2 := st) end.
      assert (Hp2 : peers_sound (km_peeridKeyMap s2) (km_peerKeys s2) (km_keys s2) (km_allocated s2)).
      { destruct Hp as [Ht Hu Hal Hpl Hk Hll]. split; [done|done| |done| |].
        - intros q Hq. specialize (Hal q Hq). cbn. lia.
        - intros q Hq. destruct (Hk q Hq) as (ids & Hids & Hrest). exists ids. split; [|done].
          cbn. rewrite lookup_insert_ne; [done|]. specialize (Hal q Hq). lia.
        - intros i k Hi. destruct (Hll i k Hi) as (q & ids & Hq & Hids & Hin). exists q, ids.
          split; [done|]. split; [|done]. cbn. rewrite lookup_insert_ne; [done|]. specialize (Hal q Hq). lia. }
      apply (create_key_runs s2 key p true []); [|split|done].
      * split; [|done]. split; [|done| |done|done].
        -- destruct Hh as [H1 H2 H3 H4 H5]. split; [done|done|done| |done].
           intros n Hn. specialize (H4 n Hn). cbn. lia.
        -- intros i k Hi. specialize (Ha i k Hi). cbn. lia.
      * cbn. lia.
      * done.
      * apply lookup_insert_eq.
      * split; [done|]. intros q Hq. split; [by apply Ho|]. pose proof (ps_alloc _ _ _ _ Hp q Hq). cbn. lia.
    + intros id s' (Hs' & Hid & Ei). apply runs_ret. split; [done|]. by apply Hnew.
Qed.

Lemma add_under_lock_runs s key peer confirmed :
  sound sha256 s → length key = BDT_AES_KEY_LENGTH → length peer = BDT_PEERID_LENGTH →
  runs (add_under_lock asserts activeTime clock sha256 storageUpdate key peer confirmed) s (λ r s',
    sound sha256 s' ∧ added s key peer r s').
Proof.
  intros Hs Hl1 Hl2. unfold add_under_lock. eapply runs_bind; [by apply AddNewKey_runs|].
  intros [r id] s1 (Hs1 & Had & Hid); cbn [fst snd] in *.
  destruct (idents_inv _ _ _ _ Hid) as (k & Hk & Ek). apply (runs_read _ k); [done|].
  apply runs_get. pose proof (Prepare_ident (km_storage s1) (confirm confirmed (kn_keyInfo k))) as Ep.
  destruct (KeyManagerPrepareForStorage _ _) as [[b1 can] i]. cbn [snd] in Ep.
  eapply runs_bind; [by apply (wr_info_runs sha256 s1 id k)|].
  intros _ s2 [Hs2 Ei2].
  apply (runs_bind _ _ _ (λ _ s', sound sha256 s' ∧ idents s' = idents s2)).
  - destruct can; [by apply storage_runs|by apply runs_ret].
  - intros _ s3 [Hs3 Ei3]. apply runs_ret. split; [done|]. eapply added_ext; [exact Had|congruence].
Qed.

Lemma AddKey_runs s key peer confirmed :
  sound sha256 s → length key = BDT_AES_KEY_LENGTH → length peer = BDT_PEERID_LENGTH →
  runs (BdtHistory_KeyManagerAddKey asserts activeTime clock sha256 storageUpdate key peer confirmed) s
    (λ r s', sound sha256 s' ∧ added s key peer r s').
Proof.
  intros Hs Hl1 Hl2. unfold BdtHistory_KeyManagerAddKey.
  eapply runs_bind; [by apply (FindAesKey_runs asserts sha256); [apply Hs|..]|].
  intros [[id|] o] s1 (-> & Hr & _); cbn [fst] in Hr; [|by apply add_under_lock_runs].
  eapply runs_step; [reflexivity|]. cbn beta. destruct (idents_inv _ _ _ _ Hr) as (k & Hk & Ek).
  eapply runs_bind; [by apply (touch_key_runs activeTime sha256 _ id k); [apply sound_tick|]|].
  intros [[[c n] can] i] s2 (Hs2 & Ei2 & _).
  change (idents s2 = idents s) in Ei2. destruct can.
  - eapply runs_bind; [by apply (storage_runs asserts sha256)|]. intros _ s3 [Hs3 Ei3].
    apply runs_ret. split; [done|]. apply (added_same s s3 key peer id); [done|congruence].
  - eapply runs_weaken; [by apply add_under_lock_runs|].
    intros r s3 [Hs3 Had]. split; [done|]. unfold added, pairs in *. by rewrite Ei2 in Had.
Qed.

Definition info_ok (i : BdtHistory_KeyInfo) : Prop :=
  length (ki_aesKey i) = BDT_AES_KEY_LENGTH ∧ length (ki_peerid i) = BDT_PEERID_LENGTH.
Definition info_pair (i : BdtHistory_KeyInfo) : list Z * list Z := (ki_aesKey i, ki_peerid i).

Lemma AddOuterKey_runs s i :
  sound sha256 s → info_ok i →
  runs (KeyManagerAddOuterKey asserts activeTime clock sha256 i) s (λ _ s',
    sound sha256 s' ∧ pairs s' = {[info_pair i]} ∪ pairs s).
Proof.
  intros Hs [Hl1 Hl2]. unfold KeyManagerAddOuterKey. eapply runs_bind; [by apply AddNewKey_runs|].
  intros [r id] s1 (Hs1 & [_ Hp] & Hid); cbn [fst snd] in *.
  case_decide; [by apply runs_ret|].
  destruct (idents_inv _ _ _ _ Hid) as (k & Hk & Ek). apply (runs_read _ k); [done|].
  eapply runs_bind; [apply (wr_info_runs sha256 s1 id k); [done|done|]|].
  { unfold ident in *. simpl. congruence. }
  intros _ s2 [Hs2 Ei2]. apply runs_ret. split; [done|]. unfold pairs in *. by rewrite Ei2.
Qed.

Lemma MergeOuterKeys_runs l s :
  sound sha256 s → Forall info_ok l →
  runs (KeyManagerMergeOuterKeysNoLock asserts activeTime clock sha256 l) s (λ _ s',
    sound sha256 s' ∧ pairs s' = list_to_set (info_pair <$> l) ∪ pairs s).
Proof.
  revert s. induction l as [|i l IH]; intros s Hs Hl; cbn [KeyManagerMergeOuterKeysNoLock fmap list_fmap].
  { apply runs_ret. split; [done|]. set_solver. }
  apply Forall_cons in Hl as [Hi Hl].
  eapply runs_bind; [by apply AddOuterKey_runs|]. intros _ s1 [Hs1 E1].
  eapply runs_weaken; [by apply IH|]. intros _ s2 [Hs2 E2]. split; [done|].
  rewrite E2, E1. simpl. set_solver.
Qed.

Lemma OnLoadDone_runs s code l :
  sound sha256 s → Forall info_ok l →
  runs (BdtHistory_KeyManagerOnLoadDone asserts activeTime clock sha256 code l) s (λ _ s',
    sound sha256 s' ∧
    pairs s' = (if decide (code = BFX_RESULT_SUCCESS) then list_to_set (info_pair <$> l) else ∅) ∪ pairs s).
Proof.
  intros Hs Hl. unfold BdtHistory_KeyManagerOnLoadDone. destruct (decide (code = BFX_RESULT_SUCCESS)) as [E|E].
  - rewrite decide_False by tauto. eapply runs_step; [reflexivity|].
    by apply (MergeOuterKeys_runs l (set_storage true s)); [apply sound_storage|].
  - rewrite decide_True by done. apply runs_ret. split; [done|]. set_solver.
Qed.

(** ** Sequences of operations *)

Inductive key_op :=
  | OpAdd (aesKey peerid : list Z) (confirmed : bool)
  | OpFind (mixHash : list Z) (touch confirmed : bool)
  | OpLoad (errorCode : Z) (keys : list BdtHistory_KeyInfo).

Inductive key_reply :=
  | ReplyAdd (result : Z)
  | ReplyFind (answer : Z * option (list Z * list Z))
  | ReplyLoad.

Definition run_op (op : key_op) : KM key_reply :=
  match op with
  | OpAdd k p c =>
      r ← BdtHistory_KeyManagerAddKey asserts activeTime clock sha256 storageUpdate k p c;
      mret (ReplyAdd r)
  | OpFind h t c =>
      r ← BdtHistory_KeyManagerFindByMixHash asserts activeTime clock sha256 storageUpdate h t c;
      mret (ReplyFind r)
  | OpLoad e l => BdtHistory_KeyManagerOnLoadDone asserts activeTime clock sha256 e l ;; mret ReplyLoad
  end.

Fixpoint run_ops (ops : list key_op) : KM (list key_reply) :=
  match ops with
  | [] => mret []
  | op :: ops => r ← run_op op; rs ← run_ops ops; mret (r :: rs)
  end.

(** The arrays have the sizes the types give them. *)
Definition op_ok (op : key_op) : Prop :=
  match op with
  | OpAdd k p _ => length k = BDT_AES_KEY_LENGTH ∧ length p = BDT_PEERID_LENGTH
  | OpFind _ _ _ => True
  | OpLoad _ l => Forall info_ok l
  end.
#[export] Instance op_ok_dec op : Decision (op_ok op).
Proof. destruct op; unfold op_ok, info_ok; apply _. Defined.

(** What the operations are to a set of (key, peer) pairs. *)
Inductive key_step (S : gset (list Z * list Z)) : key_op → key_reply → gset (list Z * list Z) → Prop :=
  | step_add k p c :
      key_step S (OpAdd k p c)
        (ReplyAdd (if decide ((k, p) ∈ S) then BFX_RESULT_ALREADY_EXISTS else BFX_RESULT_SUCCESS))
        ({[(k, p)]} ∪ S)
  | step_find h t c k p :
      (k, p) ∈ S → hashes_to sha256 k h →
      key_step S (OpFind h t c) (ReplyFind (BFX_RESULT_SUCCESS, Some (k, p))) S
  | step_not_found h t c :
      (∀ k p, (k, p) ∈ S → memcmp BDT_MIX_HASH_LENGTH (hash_of sha256 k []) h ≠ 0) →
      key_step S (OpFind h t c) (ReplyFind (BFX_RESULT_NOT_FOUND, None)) S
  | step_load e l :
      key_step S (OpLoad e l) ReplyLoad
        ((if decide (e = BFX_RESULT_SUCCESS) then list_to_set (info_pair <$> l) else ∅) ∪ S).

Inductive key_steps (S : gset (list Z * list Z)) :
    list key_op → list key_reply → gset (list Z * list Z) → Prop :=
  | steps_nil : key_steps S [] [] S
  | steps_cons op r S' ops rs S'' :
      key_step S op r S' → key_steps S' ops rs S'' → key_steps S (op :: ops) (r :: rs) S''.

Lemma run_op_runs s op :
  sound sha256 s → op_ok op →
  runs (run_op op) s (λ r s', sound sha256 s' ∧ key_step (pairs s) op r (pairs s')).
Proof.
  intros Hs Hop. destruct op as [k p c|h t c|e l]; cbn [run_op op_ok] in *.
  - destruct Hop. eapply runs_bind; [by apply AddKey_runs|].
    intros r s' (Hs' & -> & E). apply runs_ret. split; [done|]. rewrite E. constructor.
  - eapply runs_bind; [by apply (FindByMixHash_runs asserts activeTime clock sha256)|].
    intros [r o] s' (Hs' & E & Hf). apply runs_ret. split; [done|].
    assert (pairs s' = pairs s) as -> by (unfold pairs; by rewrite E).
    unfold found_by_hash in Hf; cbn [fst snd] in Hf. destruct o as [[k p]|], Hf as [-> Hf].
    + destruct Hf as (id & Hid & Hto). constructor; [|done]. apply elem_of_pairs. by exists id.
    + constructor. intros k p (id & Hid)%elem_of_pairs. by apply (Hf id k p).
  - eapply runs_bind; [by apply OnLoadDone_runs|]. intros _ s' [Hs' E]. apply runs_ret.
    split; [done|]. rewrite E. constructor.
Qed.

Lemma run_ops_runs ops s :
  sound sha256 s → Forall op_ok ops →
  runs (run_ops ops) s (λ rs s', sound sha256 s' ∧ key_steps (pairs s) ops rs (pairs s')).
Proof.
  revert s. induction ops as [|op ops IH]; intros s Hs Hok; cbn [run_ops].
  { apply runs_ret. split; [done|constructor]. }
  apply Forall_cons in Hok as [Hop Hok].
  eapply runs_bind; [by apply run_op_runs|]. intros r s1 [Hs1 H1].
  eapply runs_bind; [by apply IH|]. intros rs s2 [Hs2 H2].
  apply runs_ret. split; [done|]. by econstructor.
Qed.
End add.

(** C2: The key manager is a set of (AES key, peer) pairs.  Whatever sequence
    of adding keys, finding keys by a hash and loading stored keys is run from
    a new manager — with or without assertions, whatever the clock reads and
    whatever the storage answers — no operation faults or runs on; an add
    answers whether the pair was there and puts it in; a find answers a pair
    of the set whose key has the hash, and answers "not found" only when no
    pair's key hashes to it by itself; a load adds the keys it is given. *)
Theorem keys_refine_set asserts activeTime clock sha256 storageUpdate tick ops :
  (∀ bs, is_Some (sha256 bs)) → Forall op_ok ops →
  ∃ rs s', run_ops asserts activeTime clock sha256 storageUpdate ops (KeyManagerInit tick) = Some (rs, s') ∧
    key_steps sha256 ∅ ops rs (pairs s').
Proof.
  intros Hsha Hok.
  destruct (run_ops_runs asserts activeTime clock sha256 storageUpdate Hsha ops (KeyManagerInit tick))
    as (rs & s' & Hr & _ & Hst); [apply KeyManagerInit_sound|done|].
  exists rs, s'. split; [done|]. unfold pairs in Hst at 1. unfold idents in Hst at 1.
  cbn [KeyManagerInit km_keys] in Hst. by rewrite fmap_empty, map_img_empty_L in Hst.
Qed.

(** A hash function to run the model with: the first 32 bytes. *)
Definition first_bytes (bs : list Z) : option (list Z) := Some (take 32 (reverse bs ++ replicate 32 0)).
Definition demo_key (n : Z) : list Z := replicate 31 0 ++ [n].

Definition demo_ops : list key_op :=
  [OpAdd (demo_key 1) (demo_key 7) true; OpAdd (demo_key 2) (demo_key 7) false;
   OpAdd (demo_key 1) (demo_key 7) true; OpFind (take 8 (2 :: replicate 31 0)) true true;
   OpFind (take 8 (9 :: replicate 31 0)) true true;
   OpLoad 0 [mkKeyInfo (demo_key 3) true true 100 90 (demo_key 8)]].

Lemma keys_refine_set_witness :
  ∃ rs s', run_ops true 600 (λ t, 6000000000 + 30000000 * Z.of_nat t) first_bytes (λ _, 0) demo_ops
      (KeyManagerInit 0) = Some (rs, s') ∧ key_steps first_bytes ∅ demo_ops rs (pairs s').
Proof.
  apply keys_refine_set; [intros bs; by eexists|]. by apply (bool_decide_unpack _); vm_compute.
Defined.
