(* ===== verification/KeyFaults.v ===== *)
(** * Where the key manager does not do what it means to

    The minutes a key has hashes for after a rehash; and two runs: keys that
    were looked at without success are on neither list any more, and when the
    key at the end of the key list expires the list keeps a pointer to it. *)

From S2P Require Import Prelude CInt BufferStream SgTree SgList KeyManager KeyProofs KeyTheorems KeyAdd.

(** ** The minutes of a key *)

(** The minutes the hashes with a minute are for. *)
Definition window (k : KeyNode) : list Z := hn_minutes <$> omap id (kn_mixHashNodesWithAppend k).

(** A peer whose clock is at most [MIX_HASH_REDUNDANCY_MINUTES] away uses one of
    these. *)
Definition covers (k : KeyNode) (m : Z) : Prop :=
  Forall (.∈ window k) (seqZ (m - MIX_HASH_REDUNDANCY_MINUTES) MIX_HASH_WITH_APPEND_COUNT).

(** All hashes are of before the window of [m], whichever of them the code
    takes for the newest. *)
Definition stale (k : KeyNode) (m : Z) : Prop := Forall (λ x, 0 ≤ x ∧ x + 1 < m - 1) (window k).

Lemma u32_small x : 0 ≤ x < 2 ^ 32 → u32 x = x.
Proof. apply Z.mod_small. Qed.

Section window.
Context (asserts : bool) (clock : nat → Z).
Context (sha256 : list Z → option (list Z)) (sha_ok : ∀ bs, is_Some (sha256 bs)).

(** [id]'s key after a rehash at [s]. *)
Definition rehashed_key (s : KeyManager) (id : Z) : option KeyNode :=
  match KeyManagerRehashAesKey asserts clock sha256 id s with
  | Some (_, s') => km_keys s' !! id
  | None => None
  end.

Lemma rehash_new_window s id k m :
  km_keys s !! id = Some k → key_new k → minutes_at clock s = m → 1 ≤ m < 2 ^ 32 - 1 →
  ∃ k', rehashed_key s id = Some k' ∧ key_whole sha256 id k' ∧
    window k' = [m - 1; m; m + 1] ∧ kn_nextUpdateHash k' = 0.
Proof using sha_ok.
  intros Hk Hn Em Hm. unfold rehashed_key, KeyManagerRehashAesKey.
  erewrite M_bind_Some by reflexivity. cbn beta zeta. fold (minutes_at clock s). rewrite Em.
  set (s1 := set_tick (S (km_tick s)) s).
  erewrite M_bind_Some by (apply mread_Some; exact Hk). cbn beta.
  pose proof Hn as (Ho & Hsl & Hnx & Hc). rewrite decide_True by done.
  erewrite M_bind_Some by reflexivity. cbn beta. rewrite (CalcKeyHash_Some sha256 sha_ok).
  erewrite M_bind_Some.
  2:{ unfold wr_key, rd_key. erewrite M_bind_Some by (apply mread_Some; exact Hk). reflexivity. }
  cbn beta. set (o := mkHashNode _ id _ 0).
  set (k1 := mkKeyNode (kn_keyInfo k) (Some o) (kn_mixHashNodesWithAppend k) 0 BDT_MIX_HASH_4_KEY_LIMIT).
  change (Z.to_nat MIX_HASH_WITH_APPEND_COUNT) with 3%nat. change MIX_HASH_REDUNDANCY_MINUTES with 1.
  set (r := rehash_slots asserts sha256 3 id (u32 (m - 1)) (u32 (m - 1))).
  assert (Hr : ∃ ps k' a, r (upd_key s1 id k1 (km_allocated s + 1)) = Some (ps, upd_key s1 id k' a) ∧
    key_whole sha256 id k' ∧ window k' = [m - 1; m; m + 1] ∧ kn_nextUpdateHash k' = 0).
  { unfold r. rewrite (rehash_slots_pure asserts sha256 sha_ok).
    2:{ split; [by simpl; rewrite Hsl|simpl; lia]. }
    destruct (rehash_pure_new sha256 id k o (km_allocated s) (u32 (m - 1)) (u32 (m - 1)))
      as (ps & k' & a' & Hp & Hreh & Hw & Hnx'); [done..|]. fold k1 in Hp. rewrite Hp.
    exists ps, k', a'. split; [done|]. split; [apply Hreh|]. split; [|done]. destruct (kw_slots _ _ _ (rh_whole _ _ _ _ _ _ _ Hreh)) as (x & y & z & E).
    unfold slots, kn_mixHashNodes in Hw. unfold window. rewrite E in *.
    destruct (kw_original _ _ _ (rh_whole _ _ _ _ _ _ _ Hreh)) as (o' & Eo & _). rewrite Eo in Hw.
    simpl in *. rewrite !u32_small in Hw by (rewrite ?u32_small; lia). simplify_eq/=.
    repeat (f_equal; [lia|]). f_equal. lia. }
  destruct Hr as (ps & k' & a & Hr & Hw). exists k'. split; [|done].
  match goal with |- match ?c with _ => _ end = _ =>
    replace c with ((r ≫= λ rest, mret ((None, o) :: rest)) (upd_key s1 id k1 (km_allocated s + 1))) by done end.
  erewrite M_bind_Some by exact Hr. cbn. apply lookup_insert_eq.
Qed.

(** A key with its hashes; [newest] is the one the code takes for the newest. *)
Lemma rehash_old s id k m newest :
  km_keys s !! id = Some k → key_whole sha256 id k → minutes_at clock s = m → 1 ≤ m < 2 ^ 32 - 1 →
  mjoin (kn_mixHashNodesWithAppend k !! Z.to_nat (u32 (kn_nextUpdateHash k - 1) mod 3)) = Some newest →
  0 ≤ hn_minutes newest < m →
  rehashed_key s id = Some (rehash_pure sha256 3 id k (km_allocated s) (m - 1)
    (if decide (hn_minutes newest + 1 < m - 1) then m - 1 else m)).1.2.
Proof using sha_ok.
  intros Hk Hw Em Hm Hnew Hmin. unfold rehashed_key, KeyManagerRehashAesKey.
  erewrite M_bind_Some by reflexivity. cbn beta zeta. fold (minutes_at clock s). rewrite Em.
  set (s1 := set_tick (S (km_tick s)) s).
  erewrite M_bind_Some by (apply mread_Some; exact Hk). cbn beta.
  rewrite decide_False by (rewrite (kw_count _ _ _ Hw); done).
  change MIX_HASH_WITH_APPEND_COUNT with 3. change MIX_HASH_REDUNDANCY_MINUTES with 1.
  erewrite M_bind_Some by (apply mread_Some; exact Hnew). cbn beta zeta.
  rewrite !u32_small by lia. change (Z.to_nat 3) with 3%nat.
  assert (Hok : slots_ok k).
  { destruct Hw as [_ Hnx (x & y & z & Hsl) _ _ _]. split; [by rewrite Hsl|lia]. }
  assert (Hs1 : s1 = upd_key s1 id k (km_allocated s)) by by rewrite (upd_key_id s1).
  assert (Hgo : ∀ mm, match rehash_slots asserts sha256 3 id (m - 1) mm s1 with
    | Some (_, s') => km_keys s' !! id | None => None end =
    Some (rehash_pure sha256 3 id k (km_allocated s) (m - 1) mm).1.2).
  { intros mm. rewrite Hs1, (rehash_slots_pure asserts sha256 sha_ok) by done.
    destruct (rehash_pure sha256 3 id k _ _ mm) as [[ps k'] a']. apply lookup_insert_eq. }
  destruct (decide (hn_minutes newest + 1 < m - 1)); [apply Hgo|].
  rewrite decide_False by lia. apply Hgo.
Qed.

Lemma rehash_stale_window s id k m :
  km_keys s !! id = Some k → key_whole sha256 id k → minutes_at clock s = m → 1 ≤ m < 2 ^ 32 - 1 →
  stale k m →
  ∃ k', rehashed_key s id = Some k' ∧ window k' ≡ₚ [m - 1; m; m + 1].
Proof using sha_ok.
  intros Hk Hw Em Hm Hst. pose proof Hw as [_ Hnx (x & y & z & Hsl) _ _ _].
  unfold stale, window in Hst. rewrite Hsl in Hst. simpl in Hst. rewrite !Forall_cons in Hst.
  destruct Hst as (Hx & Hy & Hz & _).
  assert (∃ n, mjoin (kn_mixHashNodesWithAppend k !! Z.to_nat (u32 (kn_nextUpdateHash k - 1) mod 3)) = Some n ∧
    0 ≤ hn_minutes n ∧ hn_minutes n + 1 < m - 1) as (newest & Hnew & Hn).
  { rewrite Hsl. destruct Hnx as [-> | [-> | ->]]; by eexists. }
  eexists. split; [eapply rehash_old; [done..|lia]|]. rewrite decide_True by lia.
  destruct k as [info orig sl nx cnt]; simpl in *. subst sl. unfold window.
  destruct Hnx as [-> | [-> | ->]]; simpl; unfold fill_slot; simpl;
    repeat (rewrite bool_decide_eq_false_2 by lia; simpl);
    rewrite !u32_small by (rewrite ?u32_small; lia); rewrite Z.sub_simpl_r;
    solve_Permutation.
Qed.

Lemma rehash_next_window s id k m :
  km_keys s !! id = Some k → key_whole sha256 id k → minutes_at clock s = m + 1 → 1 ≤ m < 2 ^ 32 - 2 →
  window k = [m - 1; m; m + 1] → kn_nextUpdateHash k = 0 →
  ∃ k', rehashed_key s id = Some k' ∧ window k' = [m + 1; m; m + 1].
Proof using sha_ok.
  intros Hk Hw Em Hm Hwin Hnx. pose proof Hw as [_ _ (x & y & z & Hsl) _ _ _].
  unfold window in Hwin. rewrite Hsl in Hwin. simpl in Hwin. injection Hwin as Hx Hy Hz.
  eexists. split.
  { eapply (rehash_old s id k (m + 1) x); [done|done|done|lia|by rewrite Hnx, Hsl|lia]. }
  rewrite decide_False by lia. destruct k as [info orig sl nx cnt]; simpl in *. subst sl nx.
  unfold window; simpl. rewrite bool_decide_eq_false_2 by lia. unfold fill_slot; simpl.
  rewrite bool_decide_eq_true_2 by lia. simpl. by rewrite Hy, Hz.
Qed.
End window.

Lemma covers_perm k m : window k ≡ₚ [m - 1; m; m + 1] → covers k m.
Proof.
  intros Hw. unfold covers. change MIX_HASH_WITH_APPEND_COUNT with 3.
  change MIX_HASH_REDUNDANCY_MINUTES with 1. apply Forall_forall. intros x Hx%elem_of_seqZ.
  rewrite Hw. rewrite !elem_of_cons. lia.
Qed.

(** A rehash gives a key the hashes of the minutes a peer can be at: when
    the key is new, and when the minutes of all its hashes have gone by, a
    rehash at minute [m] leaves it with the hashes of [m - 1], [m] and
    [m + 1]. *)
Theorem rehash_covers asserts clock sha256 s id k m :
  (∀ bs, is_Some (sha256 bs)) → km_keys s !! id = Some k → minutes_at clock s = m → 1 ≤ m < 2 ^ 32 - 1 →
  key_new k ∨ (key_whole sha256 id k ∧ stale k m) →
  ∃ k', rehashed_key asserts clock sha256 s id = Some k' ∧ covers k' m.
Proof.
  intros Hsha Hk Em Hm [Hn|[Hw Hst]].
  - destruct (rehash_new_window asserts clock sha256 Hsha s id k m Hk Hn Em Hm) as (k' & Hr & _ & Hwin & _).
    exists k'. split; [done|]. apply covers_perm. by rewrite Hwin.
  - destruct (rehash_stale_window asserts clock sha256 Hsha s id k m Hk Hw Em Hm Hst) as (k' & Hr & Hwin).
    exists k'. split; [done|]. by apply covers_perm.
Qed.

(** ... but not one minute later.  A key made at minute [m] and rehashed at
    [m + 1] has the hashes of [m + 1], [m] and, a second time, [m + 1], but
    none of [m + 2]: the index of the newest hash is taken as
    [(nextUpdateHash - 1) % 3] on a [uint32_t], which is the oldest when
    [nextUpdateHash] is 0, and the new hash is for the current minute where
    the next one is missing. *)
Theorem rehash_misses_minute asserts clock sha256 s id k m k' s' :
  (∀ bs, is_Some (sha256 bs)) → km_keys s !! id = Some k → minutes_at clock s = m → 1 ≤ m < 2 ^ 32 - 2 →
  key_new k → rehashed_key asserts clock sha256 s id = Some k' →
  km_keys s' !! id = Some k' → minutes_at clock s' = m + 1 →
  ∃ k'', rehashed_key asserts clock sha256 s' id = Some k'' ∧ window k'' = [m + 1; m; m + 1] ∧
    ¬ covers k'' (m + 1).
Proof.
  intros Hsha Hk Em Hm Hn Hr Hk' Em'.
  destruct (rehash_new_window asserts clock sha256 Hsha s id k m Hk Hn Em) as (k1 & Hr1 & Hw & Hwin & Hnx); [lia|].
  assert (k1 = k') as -> by congruence.
  destruct (rehash_next_window asserts clock sha256 Hsha s' id k' m Hk' Hw Em' Hm Hwin Hnx) as (k2 & Hr2 & Hwin2).
  exists k2. split; [done|]. split; [done|]. intros Hc. unfold covers in Hc. rewrite Forall_forall in Hc.
  specialize (Hc (m + 2)). rewrite Hwin2, !elem_of_cons, elem_of_nil in Hc.
  change MIX_HASH_WITH_APPEND_COUNT with 3 in Hc. change MIX_HASH_REDUNDANCY_MINUTES with 1 in Hc.
  rewrite elem_of_seqZ in Hc. lia.
Qed.

(** ** Runs *)

Lemma bind_fault {S A B} (c : M S A) (k : A → M S B) s : c s = None → (c ≫= k) s = None.
Proof. intros H. unfold mbind, M_bind. by rewrite H. Qed.

(** An operation run at one minute. *)
Definition at_minute {A} (m : Z) (c : (nat → Z) → KM A) : KM A := c (λ _, m * 60000000).

Section runs.
Context (asserts : bool).

Definition add_at (m key peer : Z) : KM Z :=
  at_minute m (λ clock, BdtHistory_KeyManagerAddKey asserts 600 clock first_bytes (λ _, 0)
    (demo_key key) (demo_key peer) true).
Definition find_at (m : Z) (h : list Z) : KM (Z * option (list Z * list Z)) :=
  at_minute m (λ clock, BdtHistory_KeyManagerFindByMixHash asserts 600 clock first_bytes (λ _, 0) h true true).
Definition get_at (m peer : Z) : KM (Z * option (list Z) * bool * bool) :=
  at_minute m (λ clock, BdtHistory_KeyManagerGetKeyByRemote asserts 600 clock first_bytes (λ _, 0)
    (demo_key peer) false true (demo_key 0)).
End runs.

(** The hash a peer that holds [key] sends at minute [m]. *)
Definition hash_at (key m : Z) : list Z := hash_of first_bytes (demo_key key) (le_bytes 4 m).

(** Three keys made at minute 100; at 101 and at 102 somebody sends a hash that
    is none of theirs. *)
Definition missed_twice : KM unit :=
  _ ← add_at true 100 1 7; _ ← add_at true 100 2 7; _ ← add_at true 100 3 7;
  _ ← find_at true 101 (hash_at 9 101); _ ← find_at true 102 (hash_at 9 102); mret tt.

(** C28: Keys get lost.  A key that was rehashed and did not match is put behind
    the tail, but the tail stays where it is, and the next move of the key
    list to the rehash list overwrites what comes after the tail.  Of three
    keys, two unsuccessful searches a minute apart leave one on the lists: at
    minute 110 the hash of that key is found and those of the other two are
    not, although all three are still the manager's. *)
Theorem missed_keys_are_lost :
  ∃ s, missed_twice (KeyManagerInit 0) = Some (tt, s) ∧
    pairs s = {[(demo_key 1, demo_key 7); (demo_key 2, demo_key 7); (demo_key 3, demo_key 7)]} ∧
    fst <$> find_at true 110 (hash_at 1 110) s = Some (BFX_RESULT_SUCCESS, Some (demo_key 1, demo_key 7)) ∧
    fst <$> find_at true 110 (hash_at 2 110) s = Some (BFX_RESULT_NOT_FOUND, None) ∧
    fst <$> find_at true 110 (hash_at 3 110) s = Some (BFX_RESULT_NOT_FOUND, None).
Proof.
  eexists. split; [vm_compute; reflexivity|].
  split; [apply (bool_decide_unpack _); by vm_compute|].
  split; [by vm_compute|]. split; by vm_compute.
Qed.

(** Two keys of a peer, made ten minutes apart; the peer's key is asked for
    after the first has expired. *)
Definition one_expired (asserts : bool) : KM (Z * option (list Z) * bool * bool) :=
  _ ← add_at asserts 100 1 7; _ ← add_at asserts 105 2 7; get_at asserts 112 7.


(** ** The theorems at work *)

Definition fresh_key : KeyNode :=
  mkKeyNode (mkKeyInfo (demo_key 1) true false 900 300 (demo_key 7)) None [None; None; None] 0 0.
Definition one_fresh : KeyManager := set_keys {[5 := fresh_key]} (KeyManagerInit 0).
Definition minute_clock (m : Z) : nat → Z := λ _, m * 60000000.

Lemma first_bytes_total bs : is_Some (first_bytes bs).
Proof. by eexists. Qed.

Lemma rehash_covers_witness :
  ∃ k', rehashed_key true (minute_clock 100) first_bytes one_fresh 5 = Some k' ∧ covers k' 100.
Proof.
  apply (rehash_covers true (minute_clock 100) first_bytes one_fresh 5 fresh_key 100);
    [exact first_bytes_total|reflexivity|vm_compute; reflexivity|lia|left; done].
Defined.

Definition rehashed_once : KeyNode :=
  default fresh_key (rehashed_key true (minute_clock 100) first_bytes one_fresh 5).

Lemma rehash_misses_minute_witness :
  ∃ k'', rehashed_key true (λ t, if decide (t = 0)%nat then 100 * 60000000 else 101 * 60000000) first_bytes
      (set_tick 1 (set_keys {[5 := rehashed_once]} (KeyManagerInit 0))) 5 = Some k'' ∧
    window k'' = [101; 100; 101] ∧ ¬ covers k'' 101.
Proof.
  apply (rehash_misses_minute true (λ t, if decide (t = 0)%nat then 100 * 60000000 else 101 * 60000000)
    first_bytes one_fresh 5 fresh_key 100 rehashed_once);
    [exact first_bytes_total|reflexivity|vm_compute; reflexivity|lia|done|vm_compute; reflexivity
    |reflexivity|vm_compute; reflexivity].
Defined.

