(* ===== verification/Codec.v ===== *)
(** * Encoders and decoders

    What the functions of [BDTCore/Protocol/PackageEncoder.imp.inl],
    [PackageDecoder.imp.inl] and [PackageImp.imp.inl] have in common: an encoder
    writes fields one after the other, counts the bytes, changes the package's
    flags and stops at the first result code that is not success; a decoder
    reads fields, counts the bytes and stops at the first field that is
    missing.  [emits] and [parses] state which bytes a step writes and reads;
    they compose along the sequence of the steps. *)

From S2P Require Import Prelude CInt RecvQueue Package BufferStream.

(** ** Flags *)

(** [cmdflags | b] and [cmdflags & (~b)] on [uint16_t]. *)
Definition put_flag (flags b : Z) (on : bool) : Z :=
  u16 (if on then Z.lor flags b else Z.land flags (Z.lnot b)).

Lemma has_flag_bit f k : 0 ≤ k → has_flag f (Z.shiftl 1 k) = Z.testbit f k.
Proof.
  intros Hk. unfold has_flag. rewrite Z.shiftl_1_l.
  assert (Hl : Z.land f (2 ^ k) = if Z.testbit f k then 2 ^ k else 0).
  { apply Z.bits_inj'. intros j Hj. rewrite Z.land_spec, Z.pow2_bits_eqb by done.
    destruct (Z.eqb_spec k j) as [->|Hne].
    - destruct (Z.testbit f j); [by rewrite Z.pow2_bits_true|by rewrite Z.bits_0].
    - rewrite andb_false_r. destruct (Z.testbit f k); [|by rewrite Z.bits_0]. by rewrite Z.pow2_bits_false. }
  rewrite Hl. destruct (Z.testbit f k); [|done]. destruct (Z.eqb_spec (2 ^ k) 0); [lia|done].
Qed.

Lemma put_flag_bit f k on j :
  0 ≤ k → 0 ≤ j < 16 →
  Z.testbit (put_flag f (Z.shiftl 1 k) on) j = if j =? k then on else Z.testbit f j.
Proof.
  intros Hk Hj. unfold put_flag, u16. rewrite Z.mod_pow2_bits_low, Z.shiftl_1_l by lia.
  destruct on; rewrite ?Z.lor_spec, ?Z.land_spec, ?Z.lnot_spec, Z.pow2_bits_eqb by lia;
    rewrite (Z.eqb_sym k j); destruct (j =? k), (Z.testbit f j); done.
Qed.

Lemma has_put_flag f k on j :
  0 ≤ k → 0 ≤ j < 16 →
  has_flag (put_flag f (Z.shiftl 1 k) on) (Z.shiftl 1 j) = if j =? k then on else has_flag f (Z.shiftl 1 j).
Proof. intros Hk Hj. rewrite !has_flag_bit by lia. by apply put_flag_bit. Qed.

Lemma put_flag_range f b on : 0 ≤ put_flag f b on < 2 ^ 16.
Proof. apply u16_range. Qed.

(** ** Encoders *)

Record EncState := mkEnc { en_stream : BfxBufferStream; en_total : nat; en_flags : Z }.

Definition Enc : Type := EncState → option (Z * EncState).

Definition enc_skip : Enc := λ e, Some (BFX_RESULT_SUCCESS, e).
Definition enc_then (m k : Enc) : Enc := λ e,
  '(r, e) ← m e;
  if r =? BFX_RESULT_SUCCESS then k e else Some (r, e).
Notation "m >>> k" := (enc_then m k) (at level 55, right associativity) : bdt_scope.

Definition enc_write (w : Write) : Enc := λ e,
  '(r, writeBytes, s) ← w (en_stream e);
  Some (r, mkEnc s (if r =? BFX_RESULT_SUCCESS then (en_total e + writeBytes)%nat else en_total e) (en_flags e)).
Definition enc_flag (b : Z) (on : bool) : Enc := λ e,
  Some (BFX_RESULT_SUCCESS, mkEnc (en_stream e) (en_total e) (put_flag (en_flags e) b on)).
Definition enc_if (b : Z) (m : Enc) : Enc := λ e,
  if has_flag (en_flags e) b then m e else enc_skip e.

(** The header of a package, written last. *)
Definition put_header (total cmdtype flags : Z) (s : BfxBufferStream) : option BfxBufferStream :=
  '(_, _, s) ← BfxBufferWriteUInt16 (u16 total) s;
  '(_, _, s) ← BfxBufferWriteUInt8 cmdtype s;
  '(_, _, s) ← BfxBufferWriteUInt16 flags s;
  Some s.

(** The frame of every encoder but the key exchange: room for the header, the
    fields, then the header.  The answer is the result code, the package's new
    flags, [*pWriteBytes] and the stream. *)
Definition enc_package (cmdtype flags : Z) (fields : Enc) (s : BfxBufferStream) :
    option (Z * Z * nat * BfxBufferStream) :=
  let headerPos := BfxBufferStreamGetPos s in
  s ← BfxBufferStreamSetPos s (headerPos + 1 + 2 + 2);
  '(r, e) ← fields (mkEnc s 5 flags);
  if negb (r =? BFX_RESULT_SUCCESS) then Some (r, en_flags e, 0%nat, en_stream e) else
  let tailPos := BfxBufferStreamGetPos (en_stream e) in
  s ← BfxBufferStreamSetPos (en_stream e) headerPos;
  s ← put_header (Z.of_nat (en_total e)) cmdtype (en_flags e) s;
  s ← BfxBufferStreamSetPos s tailPos;
  Some (BFX_RESULT_SUCCESS, en_flags e, en_total e, s).

(** ** What an encoder writes *)

Definition room (bs : list Z) (s : BfxBufferStream) : Prop :=
  (bs_pos s + length bs ≤ bs_length s)%nat ∧ (bs_length s ≤ length (bs_buffer s))%nat.

Definition emits (m : Enc) (f : Z) (bs : list Z) (f' : Z) : Prop :=
  ∀ s n, room bs s →
  m (mkEnc s n f) = Some (BFX_RESULT_SUCCESS, mkEnc (written bs s) (n + length bs) f').

Lemma written_nil s : written [] s = s.
Proof. destruct s. unfold written. simpl. by rewrite Nat.add_0_r, take_drop. Qed.

Lemma emits_skip f : emits enc_skip f [] f.
Proof. intros s n _. unfold enc_skip. by rewrite written_nil, Nat.add_0_r. Qed.

Lemma emits_flag f b on : emits (enc_flag b on) f [] (put_flag f b on).
Proof. intros s n _. unfold enc_flag. simpl. by rewrite written_nil, Nat.add_0_r. Qed.

Lemma emits_then m k f a g b h : emits m f a g → emits k g b h → emits (m >>> k) f (a ++ b) h.
Proof.
  intros Hm Hk s n [Hr Hl]. rewrite length_app in Hr. unfold enc_then.
  rewrite Hm by (split; lia). simpl. rewrite Hk.
  - rewrite written_app, length_app, Nat.add_assoc by lia. done.
  - split; [simpl; lia|]. rewrite length_written by lia. done.
Qed.

Lemma emits_if f b m bs g :
  emits m f bs g → (has_flag f b = false → g = f) →
  emits (enc_if b m) f (if has_flag f b then bs else []) g.
Proof.
  intros Hm Hg s n Hr. unfold enc_if. simpl. destruct (has_flag f b).
  - by apply Hm.
  - rewrite (Hg eq_refl). by apply emits_skip.
Qed.

(** A field whose flag is decided first. *)
Lemma emits_field f k on m bs :
  0 ≤ k < 16 → (on = true → ∀ g, emits m g bs g) →
  emits (enc_flag (Z.shiftl 1 k) on >>> enc_if (Z.shiftl 1 k) m) f (if on then bs else [])
    (put_flag f (Z.shiftl 1 k) on).
Proof.
  intros Hk Hm. rewrite <- (app_nil_l (if on then _ else _)).
  eapply emits_then; [apply emits_flag|]. intros s n Hr. unfold enc_if. cbn [en_flags].
  rewrite has_put_flag, Z.eqb_refl by lia. destruct on; [by apply Hm|by apply emits_skip].
Qed.

(** A write that stores the bytes [bs] and counts them. *)
Definition writes (w : Write) (bs : list Z) : Prop :=
  ∀ s, room bs s → w s = Some (BFX_RESULT_SUCCESS, length bs, written bs s).

Lemma emits_write w bs f : writes w bs → emits (enc_write w) f bs f.
Proof. intros Hw s n Hr. unfold enc_write. simpl. by rewrite (Hw s Hr). Qed.

Ltac write_tac := intros s [Hr Hl]; rewrite ?length_le_bytes in Hr; rewrite assert_room_ok by done;
  cbn [mbind option_bind]; rewrite store_ok by (rewrite ?length_le_bytes; lia); cbn [mbind option_bind];
  by rewrite ?length_le_bytes.

Lemma writes_u8 v : writes (BfxBufferWriteUInt8 v) (le_bytes 1 v).
Proof. unfold BfxBufferWriteUInt8. write_tac. Qed.
Lemma writes_u16 v : writes (BfxBufferWriteUInt16 v) (le_bytes 2 v).
Proof. unfold BfxBufferWriteUInt16. write_tac. Qed.
Lemma writes_u32 v : writes (BfxBufferWriteUInt32 v) (le_bytes 4 v).
Proof. unfold BfxBufferWriteUInt32. write_tac. Qed.
Lemma writes_u64 v : writes (BfxBufferWriteUInt64 v) (le_bytes 8 v).
Proof. unfold BfxBufferWriteUInt64. write_tac. Qed.
Lemma writes_i64 v : writes (BfxBufferWriteInt64 v) (le_bytes 8 v).
Proof. unfold BfxBufferWriteInt64. write_tac. Qed.
Lemma writes_bytes bs : writes (BfxBufferWriteByteArray bs) bs.
Proof. unfold BfxBufferWriteByteArray. write_tac. Qed.

Lemma writes_u48 v : writes (BfxBufferWriteUInt48 v) (le_bytes 6 v).
Proof.
  intros s [Hr Hl]. rewrite length_le_bytes in *. unfold BfxBufferWriteUInt48.
  rewrite assert_room_ok by done. cbn [mbind option_bind].
  assert (E4 : le_bytes 4 (Z.land v (2 ^ 32 - 1)) = le_bytes 4 v).
  { change (2 ^ 32 - 1) with (Z.ones 32). rewrite Z.land_ones by lia. apply (le_bytes_mod 4). }
  assert (E2 : le_bytes 2 (Z.land (Z.shiftr v 32) (2 ^ 16 - 1)) = le_bytes 2 (v / 2 ^ (8 * Z.of_nat 4))).
  { change (2 ^ 16 - 1) with (Z.ones 16). rewrite Z.land_ones, Z.shiftr_div_pow2 by lia.
    apply (le_bytes_mod 2). }
  pose proof (le_bytes_app 4 2 v) as E. cbn [Nat.add] in E. rewrite E, <- E4, <- E2. clear E.
  rewrite store_ok by (rewrite length_le_bytes; lia). cbn [mbind option_bind].
  rewrite store_ok by (rewrite length_le_bytes, length_written by (rewrite length_le_bytes; lia);
                       unfold written at 1; cbn [bs_pos]; rewrite length_le_bytes; lia).
  rewrite written_app by (rewrite !length_le_bytes; lia). done.
Qed.

(** ** Decoders *)

Record DecState := mkDec { de_stream : BfxBufferStream; de_read : Z }.

(** [None] inside is a [goto END] with the result -1. *)
Definition Dec (A : Type) : Type := DecState → option (option A * DecState).

#[export] Instance Dec_ret : MRet Dec := λ A a d, Some (Some a, d).
#[export] Instance Dec_bind : MBind Dec := λ A B k m d,
  match m d with
  | Some (Some a, d) => k a d
  | Some (None, d) => Some (None, d)
  | None => None
  end.

Definition dec_fail {A} : Dec A := λ d, Some (None, d).
(** [r = Read(...); if (r <= 0) goto END; readlen += r;] *)
Definition dec_read {A} (rd : Read A) : Dec A := λ d,
  '(r, a, s) ← rd (de_stream d);
  if r <=? 0 then Some (None, mkDec s (de_read d)) else Some (Some a, mkDec s (de_read d + r)).
Definition dec_if {A} (b : bool) (m : Dec A) (default : A) : Dec A := if b then m else mret default.

(** ** What a decoder reads *)

(** Two more bytes of memory follow: [BfxBufferReadUInt48] looks at them. *)
Definition ready (s : BfxBufferStream) (bs rest : list Z) : Prop :=
  reads s bs rest ∧ (bs_pos s + length bs ≤ bs_length s)%nat ∧ (2 ≤ length rest)%nat.

Definition parses_at {A} (n : Z) (m : Dec A) (bs : list Z) (a : A) : Prop :=
  ∀ s rest, ready s bs rest →
  m (mkDec s n) = Some (Some a, mkDec (advance (length bs) s) (n + Z.of_nat (length bs))).
Definition parses {A} (m : Dec A) (bs : list Z) (a : A) : Prop := ∀ n, parses_at n m bs a.

Lemma advance_add n k s : advance k (advance n s) = advance (n + k) s.
Proof. unfold advance. simpl. by rewrite Nat.add_assoc. Qed.
Lemma advance_0 s : advance 0 s = s.
Proof. destruct s. unfold advance. simpl. by rewrite Nat.add_0_r. Qed.

Lemma ready_split s a b rest : ready s (a ++ b) rest → ready s a (b ++ rest) ∧ ready (advance (length a) s) b rest.
Proof.
  intros (Hr & Hl & H2). rewrite length_app in Hl. split.
  - split; [by apply reads_weaken|]. rewrite length_app. lia.
  - split; [by apply reads_advance|]. simpl. lia.
Qed.

Lemma parses_ret {A} (a : A) : parses (mret a) [] a.
Proof. intros n s rest _. unfold mret, Dec_ret. by rewrite advance_0, Z.add_0_r. Qed.

Lemma parses_at_bind {A B} n (m : Dec A) (k : A → Dec B) a x b y :
  parses_at n m a x → parses_at (n + Z.of_nat (length a)) (k x) b y → parses_at n (m ≫= k) (a ++ b) y.
Proof.
  intros Hm Hk s rest Hr. apply ready_split in Hr as [H1 H2].
  unfold mbind, Dec_bind. rewrite (Hm _ _ H1), (Hk _ _ H2), advance_add, length_app.
  do 3 f_equal. lia.
Qed.

Lemma parses_bind {A B} (m : Dec A) (k : A → Dec B) a x b y :
  parses m a x → parses (k x) b y → parses (m ≫= k) (a ++ b) y.
Proof. intros Hm Hk n. by eapply parses_at_bind. Qed.

Lemma parses_if {A} (b : bool) (m : Dec A) bs (a d : A) :
  (b = true → parses m bs a) → (b = false → a = d) → parses (dec_if b m d) (if b then bs else []) a.
Proof. unfold dec_if. destruct b; intros H1 H2; [by apply H1|]. rewrite H2 by done. apply parses_ret. Qed.

Lemma parses_map {A B} (m : Dec A) (g : A → B) bs a :
  parses m bs a → parses (x ← m; mret (g x)) bs (g a).
Proof. intros Hm. rewrite <- (app_nil_r bs). eapply parses_bind; [exact Hm|apply parses_ret]. Qed.

Ltac read_tac := intros n s rest (Hr & Hl & H2); rewrite ?length_le_bytes in *; unfold dec_read; cbn [de_stream de_read];
  rewrite assert_room_ok by done; cbn [mbind option_bind];
  (erewrite load_reads_n; [|exact Hr|by rewrite ?length_le_bytes]); cbn [mbind option_bind];
  rewrite le_val_bytes.

Lemma parses_u8 v : 0 ≤ v < 2 ^ 8 → parses (dec_read BfxBufferReadUInt8) (le_bytes 1 v) v.
Proof. intros Hv. unfold BfxBufferReadUInt8. read_tac. rewrite Z.mod_small; [done|lia]. Qed.
Lemma parses_u16 v : 0 ≤ v < 2 ^ 16 → parses (dec_read BfxBufferReadUInt16) (le_bytes 2 v) v.
Proof. intros Hv. unfold BfxBufferReadUInt16. read_tac. rewrite Z.mod_small; [done|lia]. Qed.
Lemma parses_u32 v : 0 ≤ v < 2 ^ 32 → parses (dec_read BfxBufferReadUInt32) (le_bytes 4 v) v.
Proof. intros Hv. unfold BfxBufferReadUInt32. read_tac. rewrite Z.mod_small; [done|lia]. Qed.
Lemma parses_u64 v : 0 ≤ v < 2 ^ 64 → parses (dec_read BfxBufferReadUInt64) (le_bytes 8 v) v.
Proof. intros Hv. unfold BfxBufferReadUInt64. read_tac. rewrite Z.mod_small; [done|lia]. Qed.

Lemma parses_u48 v : 0 ≤ v < 2 ^ 48 → parses (dec_read BfxBufferReadUInt48) (le_bytes 6 v) v.
Proof.
  intros Hv n s rest (Hr & Hl & H2). rewrite length_le_bytes in *. unfold dec_read. cbn [de_stream de_read].
  unfold BfxBufferReadUInt48. rewrite assert_room_ok by done. cbn [mbind option_bind].
  assert (Hr' : reads s (le_bytes 6 v ++ take 2 rest) (drop 2 rest)).
  { destruct Hr as [Hp Hd]. split; [done|]. by rewrite <- app_assoc, take_drop. }
  erewrite load_reads_n; [|exact Hr'|rewrite length_app, length_le_bytes, length_take; lia].
  cbn [mbind option_bind]. rewrite le_val_app, le_val_bytes, length_le_bytes.
  change (8 * Z.of_nat 6) with 48. rewrite (Z.mod_small v) by lia.
  change (2 ^ 48 - 1) with (Z.ones 48). rewrite Z.land_ones by lia.
  rewrite (Z.mul_comm (2 ^ 48)), Z.mod_add, Z.mod_small by lia. done.
Qed.

Lemma parses_bytes bs :
  0 < Z.of_nat (length bs) < 2 ^ 31 → parses (dec_read (BfxBufferReadByteArray (length bs))) bs bs.
Proof.
  intros Hb n s rest (Hr & Hl & H2). unfold dec_read. cbn [de_stream de_read].
  unfold BfxBufferReadByteArray. rewrite assert_room_ok by done. cbn [mbind option_bind].
  rewrite (load_reads _ _ _ Hr). cbn [mbind option_bind]. rewrite i32_id by lia.
  destruct (Z.leb_spec (Z.of_nat (length bs)) 0); [lia|]. done.
Qed.

(** The frame of every decoder but the key exchange: [created] is the package
    the decoder was given to fill, the answer the package when the result is
    success.  A package too short for its flags leaves with result 0 and
    nothing read. *)
Definition dec_package {A} (minsize totallen : Z) (created : A) (fields : Dec A) (s : BfxBufferStream) :
    option (option A * BfxBufferStream) :=
  if totallen <? minsize
  then Some (if totallen =? 0 then Some created else None, s)
  else
    '(o, d) ← fields (mkDec s 0);
    Some (match o with
          | Some a => if totallen =? de_read d then Some a else None
          | None => None
          end, de_stream d).

(** ** Whole packages *)

Definition header_bytes (total cmdtype flags : Z) : list Z :=
  le_bytes 2 total ++ le_bytes 1 cmdtype ++ le_bytes 2 flags.

Lemma length_header_bytes total cmdtype flags : length (header_bytes total cmdtype flags) = 5%nat.
Proof. unfold header_bytes. by rewrite !length_app, !length_le_bytes. Qed.

(** What the frame writes: the header and the fields from the cursor on, and
    nothing else. *)
Definition written_at (s : BfxBufferStream) (bs : list Z) (s' : BfxBufferStream) : Prop :=
  s' = mkStream (bs_buffer (written bs s)) (bs_length s) (bs_pos s + length bs).

Lemma SetPos_ok s n : (n ≤ bs_length s)%nat → BfxBufferStreamSetPos s n = Some (mkStream (bs_buffer s) (bs_length s) n).
Proof. intros H. unfold BfxBufferStreamSetPos. by rewrite option_guard_True. Qed.

Lemma put_header_ok total cmdtype flags s :
  0 ≤ total < 2 ^ 16 → room (header_bytes total cmdtype flags) s →
  put_header total cmdtype flags s = Some (written (header_bytes total cmdtype flags) s).
Proof.
  intros Ht [Hr Hl]. rewrite length_header_bytes in Hr. unfold put_header. rewrite u16_id by done.
  rewrite writes_u16 by (split; rewrite ?length_le_bytes; lia). cbn [mbind option_bind].
  assert (Hw : ∀ l, (length l ≤ 5)%nat → length (bs_buffer (written l s)) = length (bs_buffer s)).
  { intros l Hll. apply length_written. lia. }
  rewrite writes_u8 by (split; [cbn; lia|rewrite Hw by (rewrite length_le_bytes; lia); cbn; lia]).
  cbn [mbind option_bind]. rewrite written_app by (rewrite !length_le_bytes; lia).
  rewrite writes_u16 by (split; [cbn; lia|rewrite Hw by (rewrite length_app, !length_le_bytes; lia); cbn; lia]).
  cbn [mbind option_bind]. rewrite written_app by (rewrite length_app, !length_le_bytes; lia).
  unfold header_bytes. by rewrite <- app_assoc.
Qed.

Lemma enc_package_emits cmdtype f m bs f' s :
  emits m f bs f' → room (header_bytes 0 0 0 ++ bs) s → Z.of_nat (5 + length bs) < 2 ^ 16 →
  ∃ s', enc_package cmdtype f m s = Some (BFX_RESULT_SUCCESS, f', (5 + length bs)%nat, s') ∧
        written_at s (header_bytes (Z.of_nat (5 + length bs)) cmdtype f' ++ bs) s'.
Proof.
  intros Hm [Hr Hl] Hlen. rewrite length_app, length_header_bytes in Hr.
  unfold enc_package, BfxBufferStreamGetPos.
  rewrite SetPos_ok by lia. cbn [mbind option_bind].
  rewrite Hm by (split; cbn [bs_pos bs_length bs_buffer]; lia). cbn [mbind option_bind en_stream en_flags en_total].
  cbn [negb Z.eqb BFX_RESULT_SUCCESS].
  set (s5 := mkStream (bs_buffer s) (bs_length s) (bs_pos s + 1 + 2 + 2)).
  assert (H5 : bs_length (written bs s5) = bs_length s ∧ bs_pos (written bs s5) = (bs_pos s + 5 + length bs)%nat)
    by (cbn; split; lia). destruct H5 as [H5l H5p].
  assert (Hb5 : length (bs_buffer (written bs s5)) = length (bs_buffer s)).
  { rewrite length_written; [done|]. cbn. lia. }
  rewrite SetPos_ok by lia. cbn [mbind option_bind].
  set (hd := header_bytes (Z.of_nat (5 + length bs)) cmdtype f').
  assert (Hhd : length hd = 5%nat) by apply length_header_bytes.
  rewrite put_header_ok by (split; cbn [bs_pos bs_length bs_buffer]; rewrite ?length_header_bytes; lia).
  fold hd. cbn [mbind option_bind].
  rewrite SetPos_ok by (cbn; lia). cbn [mbind option_bind]. eexists. split; [reflexivity|].
  unfold written_at. rewrite length_app, Hhd. f_equal; [|lia].
  pose proof (written_before hd bs s5 (bs_pos s)) as Hw. rewrite Hhd in Hw. cbn [s5 bs_pos bs_buffer bs_length] in Hw.
  destruct s as [b l p]. apply Hw; cbn in *; lia.
Qed.

(** Reading back what was written at a position. *)
Definition at_pos (s : BfxBufferStream) (p : nat) : BfxBufferStream :=
  mkStream (bs_buffer s) (bs_length s) p.

Lemma written_at_ready s bs s' :
  room bs s → (bs_length s + 2 ≤ length (bs_buffer s))%nat → written_at s bs s' →
  ∃ rest, ready (at_pos s' (bs_pos s)) bs rest.
Proof.
  intros [Hr Hl] H2 ->. exists (drop (bs_pos s + length bs) (bs_buffer s)).
  split; [|split].
  - apply (written_reads bs s). lia.
  - cbn. lia.
  - rewrite length_drop. lia.
Qed.

(** A step of a decoder that reads all of its fields. *)
Lemma dec_package_parses {A} minsize totallen (created : A) m bs a s rest :
  parses_at 0 m bs a → ready s bs rest → minsize ≤ totallen → totallen = Z.of_nat (length bs) →
  dec_package minsize totallen created m s = Some (Some a, advance (length bs) s).
Proof.
  intros Hm Hr Hmin ->. unfold dec_package. destruct (Z.ltb_spec (Z.of_nat (length bs)) minsize); [lia|].
  rewrite (Hm _ _ Hr). cbn [mbind option_bind de_read de_stream]. by rewrite Z.add_0_l, Z.eqb_refl.
Qed.

(** The memory outside of the bytes written is as it was. *)
Lemma written_at_frame s bs s' i :
  room bs s → written_at s bs s' → (i < bs_pos s ∨ bs_pos s + length bs ≤ i)%nat →
  bs_buffer s' !! i = bs_buffer s !! i.
Proof.
  intros [Hr Hl] -> Hi. unfold written. cbn [bs_buffer]. destruct Hi as [Hi|Hi].
  - rewrite lookup_app_l by (rewrite length_take; lia). by rewrite lookup_take_lt.
  - rewrite lookup_app_r by (rewrite length_take; lia). rewrite length_take, Nat.min_l by lia.
    rewrite lookup_app_r by lia. rewrite lookup_drop. f_equal. lia.
Qed.

(** [Bdt_GetPackageMinSize] *)
Definition BDT_EXCHANGEKEY_PACKAGE : Z := 0.
Definition Bdt_GetPackageMinSize (cmdtype : Z) : Z :=
  if cmdtype =? BDT_EXCHANGEKEY_PACKAGE then 94 else 2.

(** The head of a package in [Bdt_DecodePackage]: its type and the length of
    what follows, [None] when the length is refused.  [totallen - 3] is an
    [int] that is compared as a [size_t]. *)
Definition package_head (s : BfxBufferStream) : option (option (Z * Z) * BfxBufferStream) :=
  '(_, totallen, s) ← BfxBufferReadUInt16 s;
  '(_, cmdtype, s) ← BfxBufferReadUInt8 s;
  tail ← BfxBufferStreamGetTailLength s;
  if (totallen <? Bdt_GetPackageMinSize cmdtype) || (Z.of_nat tail <? u64 (totallen - 3))
  then Some (None, s) else Some (Some (cmdtype, u16 (totallen - 3)), s).

(** What is encoded is decoded again: the encoder leaves the stream behind the
    package and the rest of the memory alone; from where the encoder began, the
    head is the package's and the decoder returns [a] and stops where the
    encoder stopped. *)
Definition delivers {A} (enc : BfxBufferStream → option (Z * Z * nat * BfxBufferStream))
    (dec : Z → BfxBufferStream → option (option A * BfxBufferStream)) (cmdtype f' : Z) (total : nat) (a : A)
    (s : BfxBufferStream) : Prop :=
  ∃ s', enc s = Some (BFX_RESULT_SUCCESS, f', total, s') ∧
    bs_length s' = bs_length s ∧ bs_pos s' = (bs_pos s + total)%nat ∧
    (∀ i, (i < bs_pos s ∨ bs_pos s + total ≤ i)%nat → bs_buffer s' !! i = bs_buffer s !! i) ∧
    ∃ s1, package_head (at_pos s' (bs_pos s)) = Some (Some (cmdtype, Z.of_nat total - 3), s1) ∧
          dec (Z.of_nat total - 3) s1 = Some (Some a, s').

(** The memory an encoder of [n] bytes needs. *)
Definition fits (n : nat) (s : BfxBufferStream) : Prop :=
  (bs_pos s + n ≤ bs_length s)%nat ∧ (bs_length s + 2 ≤ length (bs_buffer s))%nat.

Lemma dec_read_done {A} (rd : Read A) s n a s' k :
  dec_read rd (mkDec s n) = Some (Some a, mkDec s' k) → rd s = Some (k - n, a, s').
Proof.
  unfold dec_read. cbn [de_stream de_read]. destruct (rd s) as [[[r v] t]|]; [|done]. cbn [mbind option_bind].
  destruct (r <=? 0); [done|]. intros [= -> -> <-]. do 3 f_equal. lia.
Qed.

Lemma package_head_ready s total cmdtype bs rest :
  ready s (le_bytes 2 total ++ le_bytes 1 cmdtype ++ bs) rest →
  3 ≤ total < 2 ^ 16 → Z.of_nat (length bs) = total - 3 → 0 ≤ cmdtype < 2 ^ 8 → Bdt_GetPackageMinSize cmdtype ≤ total →
  package_head s = Some (Some (cmdtype, total - 3), advance 3 s) ∧ ready (advance 3 s) bs rest.
Proof.
  intros Hr Ht Hb Hc Hm. apply ready_split in Hr as [H1 Hr]. rewrite length_le_bytes in Hr.
  apply ready_split in Hr as [H2 Hr]. rewrite length_le_bytes, advance_add in Hr. cbn [Nat.add] in Hr.
  split; [|done]. unfold package_head.
  pose proof (dec_read_done _ _ _ _ _ _ (parses_u16 total ltac:(lia) 0 _ _ H1)) as E1.
  rewrite E1, length_le_bytes. cbn [mbind option_bind].
  pose proof (dec_read_done _ _ _ _ _ _ (parses_u8 cmdtype ltac:(lia) 0 _ _ H2)) as E2.
  rewrite E2, length_le_bytes, advance_add. cbn [mbind option_bind Nat.add].
  destruct Hr as (_ & Hr & _). unfold BfxBufferStreamGetTailLength. rewrite option_guard_True by lia.
  cbn [mbind option_bind]. destruct (Z.ltb_spec total (Bdt_GetPackageMinSize cmdtype)); [lia|].
  unfold u64. rewrite Z.mod_small by lia. cbn [orb].
  destruct (Z.ltb_spec (Z.of_nat (bs_length (advance 3 s) - bs_pos (advance 3 s))) (total - 3)); [lia|].
  rewrite u16_id by lia. done.
Qed.

(** A decoder that reads the bytes as a value with a property, which may depend
    on where it runs. *)
Definition parses_to {A} (m : Dec A) (bs : list Z) (P : A → Prop) : Prop :=
  ∀ n s rest, ready s bs rest →
  ∃ a, P a ∧ m (mkDec s n) = Some (Some a, mkDec (advance (length bs) s) (n + Z.of_nat (length bs))).

Lemma parses_to_intro {A} (m : Dec A) bs a (P : A → Prop) : parses m bs a → P a → parses_to m bs P.
Proof. intros Hm Ha n s rest Hr. exists a. split; [done|]. by apply (Hm n s rest). Qed.

Lemma parses_to_bind {A B} (m : Dec A) (k : A → Dec B) a P b Q :
  parses_to m a P → (∀ x, P x → parses_to (k x) b Q) → parses_to (m ≫= k) (a ++ b) Q.
Proof.
  intros Hm Hk n s rest Hr. apply ready_split in Hr as [H1 H2].
  destruct (Hm n _ _ H1) as (x & Hx & E). destruct (Hk x Hx (n + Z.of_nat (length a)) _ _ H2) as (y & Hy & E2).
  exists y. split; [done|]. unfold mbind, Dec_bind. rewrite E, E2, advance_add, length_app. do 3 f_equal. lia.
Qed.

Lemma parses_to_weaken {A} (m : Dec A) bs (P Q : A → Prop) :
  parses_to m bs P → (∀ a, P a → Q a) → parses_to m bs Q.
Proof. intros Hm HPQ n s rest Hr. destruct (Hm n s rest Hr) as (a & ? & ?). eauto. Qed.

(** The bytes of a package, for its encoder and for its decoder, which gets a
    value with the property [P]. *)
Record wire {A} (enc : BfxBufferStream → option (Z * Z * nat * BfxBufferStream))
    (dec : Z → BfxBufferStream → option (option A * BfxBufferStream)) (cmdtype f' : Z) (bytes : list Z)
    (P : A → Prop) : Prop := {
  wi_length : (5 ≤ length bytes)%nat;
  wi_enc s : room bytes s → enc s = Some (BFX_RESULT_SUCCESS, f', length bytes, written bytes s);
  wi_head s rest : ready s bytes rest →
    package_head s = Some (Some (cmdtype, Z.of_nat (length bytes) - 3), advance 3 s);
  wi_dec s rest : ready s bytes rest →
    ∃ a, P a ∧ dec (Z.of_nat (length bytes) - 3) (advance 3 s) = Some (Some a, advance (length bytes) s) }.

Definition package_bytes (cmdtype f' : Z) (bs : list Z) : list Z :=
  header_bytes (Z.of_nat (5 + length bs)) cmdtype f' ++ bs.

Lemma length_package_bytes cmdtype f' bs : length (package_bytes cmdtype f' bs) = (5 + length bs)%nat.
Proof. unfold package_bytes. rewrite length_app, length_header_bytes. done. Qed.

Lemma package_wire {A} cmdtype minsize (created : A) f m bs f' dec (P : A → Prop) :
  emits m f bs f' →
  (∀ s rest, ready s (le_bytes 2 f' ++ bs) rest →
     ∃ a, P a ∧ dec (Z.of_nat (2 + length bs)) (mkDec s 0) =
                Some (Some a, mkDec (advance (2 + length bs) s) (Z.of_nat (2 + length bs)))) →
  Z.of_nat (5 + length bs) < 2 ^ 16 → 0 ≤ cmdtype < 2 ^ 8 → minsize ≤ 2 → Bdt_GetPackageMinSize cmdtype ≤ 5 →
  wire (enc_package cmdtype f m) (λ totallen, dec_package minsize totallen created (dec totallen)) cmdtype f'
    (package_bytes cmdtype f' bs) P.
Proof.
  intros Hm Hd Hsz Hc Hmin Hmin'.
  assert (Hhead : ∀ s rest, ready s (package_bytes cmdtype f' bs) rest →
    package_head s = Some (Some (cmdtype, Z.of_nat (5 + length bs) - 3), advance 3 s) ∧
    ready (advance 3 s) (le_bytes 2 f' ++ bs) rest).
  { intros s rest Hr. unfold package_bytes, header_bytes in Hr. rewrite <- !app_assoc in Hr.
    apply package_head_ready in Hr; [done|lia|rewrite length_app, length_le_bytes; lia|done|lia]. }
  split; rewrite ?length_package_bytes.
  - lia.
  - intros s [Hr Hl]. rewrite length_package_bytes in Hr.
    destruct (enc_package_emits cmdtype f m bs f' s Hm) as (s' & He & Hw);
      [split; rewrite ?length_app, ?length_header_bytes; lia|done|].
    rewrite He. by rewrite Hw.
  - intros s rest Hr. by apply (Hhead s rest).
  - intros s rest [_ Hr]%Hhead. destruct (Hd _ _ Hr) as (a & Ha & Ed). exists a. split; [done|].
    replace (Z.of_nat (5 + length bs) - 3) with (Z.of_nat (2 + length bs)) by lia.
    unfold dec_package. destruct (Z.ltb_spec (Z.of_nat (2 + length bs)) minsize); [lia|].
    rewrite Ed. cbn [mbind option_bind de_read de_stream]. by rewrite Z.eqb_refl, advance_add.
Qed.

Lemma wire_delivers {A} enc dec cmdtype f' bytes (P : A → Prop) s :
  wire enc dec cmdtype f' bytes P → fits (length bytes) s →
  ∃ a, P a ∧ delivers enc dec cmdtype f' (length bytes) a s.
Proof.
  intros Hw [Hr Hl]. assert (Hroom : room bytes s) by (split; lia).
  pose proof (wi_enc _ _ _ _ _ _ Hw s Hroom) as He.
  assert (Hwr : written_at s bytes (written bytes s)) by done.
  destruct (written_at_ready _ _ _ Hroom Hl Hwr) as [rest Hready].
  destruct (wi_dec _ _ _ _ _ _ Hw _ _ Hready) as (a & Ha & Ed). exists a. split; [done|].
  exists (written bytes s). repeat split; [done| |].
  - intros i Hi. by apply (written_at_frame s bytes).
  - eexists. split; [by eapply (wi_head _ _ _ _ _ _ Hw)|]. by rewrite Ed.
Qed.

Lemma parses_at_to {A} n (m : Dec A) bs a s rest :
  parses_at n m bs a → ready s bs rest →
  ∃ x, a = x ∧ m (mkDec s n) = Some (Some x, mkDec (advance (length bs) s) (n + Z.of_nat (length bs))).
Proof. intros Hp Hr. exists a. split; [done|]. by apply (Hp s rest). Qed.
