(* ===== verification/Forward.v ===== *)
(** * Decoders move forward

    No read of a stream and no step of a decoder moves the cursor back, past
    the length of the stream, or changes the memory: [steps].  The hints of
    [forward] show it of any decoder along its text. *)

From S2P Require Import Prelude CInt BufferStream Codec.

Record steps (s s' : BfxBufferStream) : Prop := {
  st_buffer : bs_buffer s' = bs_buffer s;
  st_length : bs_length s' = bs_length s;
  st_pos : (bs_pos s ≤ bs_pos s')%nat;
  st_bound : (bs_pos s ≤ bs_length s → bs_pos s' ≤ bs_length s)%nat }.

#[export] Instance steps_preorder : PreOrder steps.
Proof.
  split; [by split|]. intros a b c [H1 H2 H3 H4] [H5 H6 H7 H8]. split; [congruence|congruence|lia|]. rewrite H2 in H8. auto.
Qed.

Definition forward_read {A} (rd : Read A) : Prop := ∀ s r a s', rd s = Some (r, a, s') → steps s s'.
Definition forward {A} (m : Dec A) : Prop := ∀ d o d', m d = Some (o, d') → steps (de_stream d) (de_stream d').

Lemma steps_advance s n : (bs_pos s + n ≤ bs_length s)%nat → steps s (advance n s).
Proof. intros H. split; cbn; [done|done|lia|lia]. Qed.

Lemma forward_fixed {A} n r (f : list Z → A) :
  forward_read (λ s, assert_room s n;; b ← load n s; Some (r, f b, advance n s)).
Proof.
  intros s r' a s'. unfold assert_room. case_guard as Hr; [|done]. cbn [mbind option_bind mret option_ret].
  destruct (load n s); [|done]. intros [= _ _ <-]. by apply steps_advance.
Qed.

Lemma forward_u8 : forward_read BfxBufferReadUInt8.
Proof. apply forward_fixed. Qed.
Lemma forward_u16 : forward_read BfxBufferReadUInt16.
Proof. apply forward_fixed. Qed.
Lemma forward_u32 : forward_read BfxBufferReadUInt32.
Proof. apply forward_fixed. Qed.
Lemma forward_u64 : forward_read BfxBufferReadUInt64.
Proof. apply forward_fixed. Qed.
Lemma forward_bytes n : forward_read (BfxBufferReadByteArray n).
Proof. apply (forward_fixed n _ id). Qed.

Lemma forward_u48 : forward_read BfxBufferReadUInt48.
Proof.
  intros s r a s'. unfold BfxBufferReadUInt48, assert_room. case_guard as Hr; [|done]. cbn [mbind option_bind mret option_ret].
  destruct (load 8 s); [|done]. intros [= _ _ <-]. by apply steps_advance.
Qed.

Lemma forward_sized : forward_read BfxBufferReadByteArrayBeginWithU16Length.
Proof.
  intros s r a s'. unfold BfxBufferReadByteArrayBeginWithU16Length, assert_room. case_guard as Hr; [|done].
  cbn [mbind option_bind mret option_ret]. destruct (load 2 s) as [b|]; [|done]. cbn [mbind option_bind mret option_ret].
  pose proof (steps_advance s 2 Hr) as H2. set (s2 := advance 2 s) in *. set (n := Z.to_nat (le_val b)).
  destruct (n =? 0)%nat; [by intros [= _ _ <-]|]. destruct (Nat.ltb_spec (bs_length s2) (bs_pos s2 + n)) as [|H]; [by intros [= _ _ <-]|].
  destruct (load n s2); [|done]. intros [= _ _ <-]. etransitivity; [exact H2|]. by apply steps_advance.
Qed.

Lemma forward_dec_read {A} (rd : Read A) : forward_read rd → forward (dec_read rd).
Proof.
  intros H [s n] o d'. unfold dec_read. cbn [de_stream de_read]. destruct (rd s) as [[[r a] s']|] eqn:E; [|done].
  cbn [mbind option_bind mret option_ret]. apply H in E. by destruct (r <=? 0); intros [= _ <-].
Qed.

Lemma forward_bind {A B} (m : Dec A) (k : A → Dec B) : forward m → (∀ a, forward (k a)) → forward (m ≫= k).
Proof.
  intros Hm Hk d o d'. unfold mbind, Dec_bind. destruct (m d) as [[[a|] d1]|] eqn:E; [| |done]; apply Hm in E.
  - intros H%Hk. by etransitivity.
  - by intros [= _ <-].
Qed.

Lemma forward_ret {A} (a : A) : forward (mret a).
Proof. by intros d o d' [= _ <-]. Qed.
Lemma forward_fail {A} : forward (dec_fail (A := A)).
Proof. by intros d o d' [= _ <-]. Qed.
Lemma forward_if {A} (b : bool) (m : Dec A) a : forward m → forward (dec_if b m a).
Proof. intros H. destruct b; [done|apply forward_ret]. Qed.

Create HintDb forward.
#[export] Hint Resolve forward_u8 forward_u16 forward_u32 forward_u64 forward_u48 forward_bytes forward_sized
  forward_dec_read forward_bind forward_ret forward_fail forward_if : forward.
#[export] Hint Extern 1 (forward (if ?b then _ else _)) => destruct b : forward.
#[export] Hint Extern 1 (forward (match ?o with Some _ => _ | None => _ end)) => destruct o : forward.
#[export] Hint Extern 1 (forward (let '(_, _) := ?x in _)) => destruct x : forward.

(** The frames of the packages. *)
Definition forward_decoder {A} (dec : BfxBufferStream → option (option A * BfxBufferStream)) : Prop :=
  ∀ s o s', dec s = Some (o, s') → steps s s'.

Lemma forward_package {A} minsize totallen (created : A) (fields : Dec A) :
  forward fields → forward_decoder (dec_package minsize totallen created fields).
Proof.
  intros H s o s'. unfold dec_package. destruct (totallen <? minsize); [by intros [= _ <-]|].
  destruct (fields (mkDec s 0)) as [[o' d]|] eqn:E; [|done]. apply H in E. cbn [mbind option_bind mret option_ret]. by intros [= _ <-].
Qed.

(** A head is three bytes. *)
Lemma forward_head s o s' : package_head s = Some (o, s') → steps s s' ∧ bs_pos s' = (bs_pos s + 3)%nat.
Proof.
  unfold package_head, BfxBufferReadUInt16, BfxBufferReadUInt8, assert_room, BfxBufferStreamGetTailLength.
  case_guard as H1; [|done]. cbn [mbind option_bind mret option_ret]. destruct (load 2 s); [|done]. cbn [mbind option_bind mret option_ret].
  case_guard as H2; [|done]. cbn [mbind option_bind mret option_ret]. destruct (load 1 _); [|done]. cbn [mbind option_bind mret option_ret].
  case_guard as H3; [|done]. cbn [mbind option_bind mret option_ret]. rewrite advance_add. cbn [bs_pos bs_length advance] in *.
  destruct (_ || _); intros [= _ <-]; (split; [apply steps_advance; lia|cbn; lia]).
Qed.
