(* ===== verification/StreamInts.v ===== *)
(** * Integers in a stream

    The reads and writes of [BuckyBase/Buffer/buffer_stream.c] for integers are
    inverse to each other, at every width and signedness. *)

From S2P Require Import Prelude CInt BufferStream Codec.

Inductive IntType := U8 | I8 | U16 | I16 | U32 | I32 | U48 | U64 | I64.

Definition int_bytes (t : IntType) : nat :=
  match t with U8 | I8 => 1 | U16 | I16 => 2 | U32 | I32 => 4 | U48 => 6 | U64 | I64 => 8 end.
Definition int_is_signed (t : IntType) : bool :=
  match t with I8 | I16 | I32 | I64 => true | _ => false end.

(** The values of the C type, 48 bits of them for [U48]. *)
Definition int_range (t : IntType) (v : Z) : Prop :=
  let bits := 8 * Z.of_nat (int_bytes t) in
  if int_is_signed t then - 2 ^ (bits - 1) ≤ v < 2 ^ (bits - 1) else 0 ≤ v < 2 ^ bits.

Definition int_write (t : IntType) : Z → Write :=
  match t with
  | U8 => BfxBufferWriteUInt8 | I8 => BfxBufferWriteInt8 | U16 => BfxBufferWriteUInt16
  | I16 => BfxBufferWriteInt16 | U32 => BfxBufferWriteUInt32 | I32 => BfxBufferWriteInt32
  | U48 => BfxBufferWriteUInt48 | U64 => BfxBufferWriteUInt64 | I64 => BfxBufferWriteInt64
  end.
Definition int_read (t : IntType) : Read Z :=
  match t with
  | U8 => BfxBufferReadUInt8 | I8 => BfxBufferReadInt8 | U16 => BfxBufferReadUInt16
  | I16 => BfxBufferReadInt16 | U32 => BfxBufferReadUInt32 | I32 => BfxBufferReadInt32
  | U48 => BfxBufferReadUInt48 | U64 => BfxBufferReadUInt64 | I64 => BfxBufferReadInt64
  end.

Lemma int_write_writes t v : writes (int_write t v) (le_bytes (int_bytes t) v).
Proof.
  destruct t; cbn [int_write int_bytes]; auto using writes_u8, writes_u16, writes_u32, writes_u48, writes_u64, writes_i64.
Qed.

Lemma signed_mod bits v :
  0 < bits → - 2 ^ (bits - 1) ≤ v < 2 ^ (bits - 1) → signed bits (v mod 2 ^ bits) = v.
Proof.
  intros Hb Hv. unfold signed. assert (E : 2 ^ bits = 2 * 2 ^ (bits - 1)).
  { rewrite <- Z.pow_succ_r by lia. f_equal. lia. }
  assert (0 < 2 ^ (bits - 1)) by (apply Z.pow_pos_nonneg; lia).
  destruct (Z.le_gt_cases 0 v).
  - rewrite Z.mod_small by lia. destruct (Z.ltb_spec v (2 ^ (bits - 1))); lia.
  - assert (Em : v mod 2 ^ bits = v + 2 ^ bits).
    { rewrite <- (Z.mod_add v 1), Z.mul_1_l by lia. apply Z.mod_small. lia. }
    rewrite Em. destruct (Z.ltb_spec (v + 2 ^ bits) (2 ^ (bits - 1))); lia.
Qed.

Lemma int_read_parses t v : int_range t v → parses (dec_read (int_read t)) (le_bytes (int_bytes t) v) v.
Proof.
  destruct t; cbn [int_read int_bytes int_range int_is_signed]; intros Hv;
    auto using parses_u8, parses_u16, parses_u32, parses_u48, parses_u64.
  - unfold BfxBufferReadInt8. read_tac. by rewrite (signed_mod 8).
  - unfold BfxBufferReadInt16. read_tac. by rewrite (signed_mod 16).
  - unfold BfxBufferReadInt32. read_tac. by rewrite (signed_mod 32).
  - unfold BfxBufferReadInt64. read_tac. by rewrite (signed_mod 64).
Qed.

(** Every integer written to a stream is read back from the same position
    with its value, the read ends where the write ended, and no other byte
    changes: for all unsigned and signed widths, two more bytes of memory
    being behind the stream's length. *)
Theorem stream_int_roundtrip t v s :
  int_range t v → fits (int_bytes t) s →
  ∃ s', int_write t v s = Some (BFX_RESULT_SUCCESS, int_bytes t, s') ∧
    int_read t (at_pos s' (bs_pos s)) = Some (Z.of_nat (int_bytes t), v, s') ∧
    ∀ i, (i < bs_pos s ∨ bs_pos s + int_bytes t ≤ i)%nat → bs_buffer s' !! i = bs_buffer s !! i.
Proof.
  intros Hv [Hr Hl]. set (bs := le_bytes (int_bytes t) v).
  assert (Hb : length bs = int_bytes t) by apply length_le_bytes.
  assert (Hroom : room bs s) by (split; lia).
  exists (written bs s). split; [rewrite <- Hb; by apply int_write_writes|].
  assert (Hw : written_at s bs (written bs s)) by done.
  destruct (written_at_ready _ _ _ Hroom Hl Hw) as [rest Hready].
  pose proof (dec_read_done _ _ _ _ _ _ (int_read_parses t v Hv 0 _ _ Hready)) as E. fold bs in E.
  rewrite Hb in E. rewrite E. split.
  - do 2 f_equal; [f_equal; lia|]. unfold advance, at_pos, written. cbn [bs_buffer bs_length bs_pos]. by rewrite Hb.
  - intros i Hi. apply (written_at_frame s bs); [done|done|]. by rewrite Hb.
Qed.

Lemma stream_int_roundtrip_witness :
  let s := mkStream (replicate 14 255) 10 3 in
  ∃ s', BfxBufferWriteInt32 (-70000) s = Some (BFX_RESULT_SUCCESS, 4%nat, s') ∧
    BfxBufferReadInt32 (at_pos s' 3) = Some (4, -70000, s') ∧
    ∀ i, (i < 3 ∨ 7 ≤ i)%nat → bs_buffer s' !! i = bs_buffer s !! i.
Proof.
  intros s. apply (stream_int_roundtrip I32 (-70000) s).
  - vm_compute. by split.
  - vm_compute. split; repeat constructor.
Defined.
