(* ===== verification/SessionCodec.v ===== *)
(** * Session data packages on the wire

    [EncodeSessionDataPackage] ([BDTCore/Protocol/PackageEncoder.imp.inl]) and
    [DecodeSessionDataPackage] ([PackageDecoder.imp.inl]): the format in which
    the packages of a connection travel. *)

From S2P Require Import Prelude CInt RecvQueue Package BufferStream Codec.

Definition BFX_RESULT_INVALID_FORMAT : Z := 23.
Definition BDT_SESSION_DATA_PACKAGE : Z := 64.
Definition BDT_SESSIONDATA_PACKAGE_FLAG_PACKAGEID : Z := Z.shiftl 1 0.
Definition BDT_SESSIONDATA_PACKAGE_FLAG_ACK_PACKAGEID : Z := Z.shiftl 1 1.
Definition BDT_SESSIONDATA_PACKAGE_FLAG_SACK : Z := Z.shiftl 1 4.
Definition BDT_SESSIONDATA_PACKAGE_FLAG_SPEEDLIMIT : Z := Z.shiftl 1 5.
Definition BDT_SESSIONDATA_PACKAGE_FLAG_SENDTIME : Z := Z.shiftl 1 6.
Definition BDT_SESSIONDATA_PACKAGE_FLAG_PAYLOAD : Z := Z.shiftl 1 7.

(** [Bdt_GetPackageMinSize] of everything but a key exchange. *)
Definition PACKAGE_MIN_SIZE : Z := 2.

Record SynPart := mkSyn {
  sy_synSeq : Z; sy_synControl : Z; sy_ccType : Z; sy_toVPort : Z; sy_fromSessionId : Z }.

(** [sp_payload] are the [payloadLength] bytes at [payload], [sp_sackArray] the
    entries of the array up to the end of its allocation; [None] is a null
    pointer. *)
Record SessionPackage := mkSessionPackage {
  sp_cmdflags : Z; sp_sessionId : Z; sp_streamPos : Z; sp_ackStreamPos : Z; sp_toSessionId : Z;
  sp_sackArray : option (list BdtStreamRange); sp_recvSpeedlimit : Z; sp_sendTime : Z;
  sp_payload : option (list Z); sp_synPart : option SynPart; sp_packageIDPart : option PackageIdPart }.

(** [Bdt_SessionDataPackageInit] *)
Definition Bdt_SessionDataPackageCreate : SessionPackage :=
  mkSessionPackage 0 0 0 0 0 None 0 0 None None None.

(** ** Encoding *)

Definition enc_syn (syn : option SynPart) : Enc :=
  match syn with
  | Some y =>
      enc_flag BDT_SESSIONDATA_PACKAGE_FLAG_SYN true >>>
      enc_write (BfxBufferWriteUInt32 (sy_synSeq y)) >>>
      enc_write (BfxBufferWriteUInt8 (sy_synControl y)) >>>
      enc_write (BfxBufferWriteUInt8 (sy_ccType y)) >>>
      enc_write (BfxBufferWriteUInt16 (sy_toVPort y)) >>>
      enc_write (BfxBufferWriteUInt32 (sy_fromSessionId y))
  | None => enc_flag BDT_SESSIONDATA_PACKAGE_FLAG_SYN false
  end.

Definition enc_package_id (part : option PackageIdPart) : Enc :=
  match part with
  | Some i =>
      enc_flag BDT_SESSIONDATA_PACKAGE_FLAG_PACKAGEID true >>>
      enc_write (BfxBufferWriteUInt32 (ip_packageId i)) >>>
      enc_write (BfxBufferWriteUInt48 (ip_totalRecv i))
  | None => enc_flag BDT_SESSIONDATA_PACKAGE_FLAG_PACKAGEID false
  end.

(** The ranges up to the first of length 0; [None] when there is none in the
    array.  More than ten are an error. *)
Fixpoint enc_sack_loop (ranges : list BdtStreamRange) (count : nat) (e : EncState) :
    option (Z * nat * EncState) :=
  match ranges with
  | [] => None
  | r :: ranges =>
      if sr_length r =? 0 then Some (BFX_RESULT_SUCCESS, count, e) else
      '(c, e) ← (enc_write (BfxBufferWriteUInt48 (sr_pos r)) >>>
                 enc_write (BfxBufferWriteUInt32 (sr_length r))) e;
      if negb (c =? BFX_RESULT_SUCCESS) then Some (c, count, e) else
      if (PACKAGE_SESSIONDATA_SACK_RANGE_MAX_COUNT <? S count)%nat
      then Some (BFX_RESULT_INVALID_FORMAT, S count, e)
      else enc_sack_loop ranges (S count) e
  end.

Definition enc_sack (ranges : list BdtStreamRange) : Enc := λ e,
  let countpos := BfxBufferStreamGetPos (en_stream e) in
  s ← BfxBufferStreamSetPos (en_stream e) (countpos + 1);
  '(r, count, e) ← enc_sack_loop ranges 0 (mkEnc s (en_total e) (en_flags e));
  if negb (r =? BFX_RESULT_SUCCESS) then Some (r, e) else
  let endpos := BfxBufferStreamGetPos (en_stream e) in
  s ← BfxBufferStreamSetPos (en_stream e) countpos;
  '(_, writeBytes, s) ← BfxBufferWriteUInt8 (u8 (Z.of_nat count)) s;
  s ← BfxBufferStreamSetPos s endpos;
  Some (BFX_RESULT_SUCCESS, mkEnc s (en_total e + writeBytes) (en_flags e)).

Definition enc_sacks (sackArray : option (list BdtStreamRange)) : Enc :=
  match sackArray with
  | Some ranges => enc_flag BDT_SESSIONDATA_PACKAGE_FLAG_SACK true >>> enc_sack ranges
  | None => enc_flag BDT_SESSIONDATA_PACKAGE_FLAG_SACK false
  end.

Definition enc_ack (p : SessionPackage) : Enc :=
  (if sp_ackStreamPos p =? 0 then enc_skip else enc_flag BDT_SESSIONDATA_PACKAGE_FLAG_ACK true) >>>
  enc_if BDT_SESSIONDATA_PACKAGE_FLAG_ACK (enc_write (BfxBufferWriteUInt48 (sp_ackStreamPos p))).

(** A field that is left out when it is zero. *)
Definition enc_nonzero (flag v : Z) (w : Write) : Enc :=
  enc_flag flag (negb (v =? 0)) >>> enc_if flag (enc_write w).

Definition enc_payload (payload : option (list Z)) : Enc :=
  enc_flag BDT_SESSIONDATA_PACKAGE_FLAG_PAYLOAD (bool_decide (payload ≠ None)) >>>
  enc_if BDT_SESSIONDATA_PACKAGE_FLAG_PAYLOAD (enc_write (BfxBufferWriteByteArray (default [] payload))).

Definition session_fields (p : SessionPackage) : Enc :=
  enc_write (BfxBufferWriteUInt32 (sp_sessionId p)) >>>
  enc_write (BfxBufferWriteUInt48 (sp_streamPos p)) >>>
  enc_syn (sp_synPart p) >>>
  enc_package_id (sp_packageIDPart p) >>>
  enc_ack p >>>
  enc_if BDT_SESSIONDATA_PACKAGE_FLAG_SYN
    (enc_if BDT_SESSIONDATA_PACKAGE_FLAG_ACK (enc_write (BfxBufferWriteUInt32 (sp_toSessionId p)))) >>>
  enc_sacks (sp_sackArray p) >>>
  enc_nonzero BDT_SESSIONDATA_PACKAGE_FLAG_SPEEDLIMIT (sp_recvSpeedlimit p)
    (BfxBufferWriteUInt32 (sp_recvSpeedlimit p)) >>>
  enc_nonzero BDT_SESSIONDATA_PACKAGE_FLAG_SENDTIME (sp_sendTime p) (BfxBufferWriteUInt64 (sp_sendTime p)) >>>
  enc_payload (sp_payload p).

(** The reference package is not used. *)
Definition EncodeSessionDataPackage (p : SessionPackage) (s : BfxBufferStream) :
    option (Z * Z * nat * BfxBufferStream) :=
  enc_package BDT_SESSION_DATA_PACKAGE (sp_cmdflags p) (session_fields p) s.

(** ** Decoding *)

Definition dec_syn : Dec (option SynPart) :=
  synSeq ← dec_read BfxBufferReadUInt32;
  synControl ← dec_read BfxBufferReadUInt8;
  ccType ← dec_read BfxBufferReadUInt8;
  toVPort ← dec_read BfxBufferReadUInt16;
  fromSessionId ← dec_read BfxBufferReadUInt32;
  mret (Some (mkSyn synSeq synControl ccType toVPort fromSessionId)).

Definition dec_package_id : Dec (option PackageIdPart) :=
  packageId ← dec_read BfxBufferReadUInt32;
  totalRecv ← dec_read BfxBufferReadUInt48;
  mret (Some (mkIdPart packageId totalRecv)).

Fixpoint dec_sack_loop (count : nat) : Dec (list BdtStreamRange) :=
  match count with
  | O => mret []
  | S count =>
      pos ← dec_read BfxBufferReadUInt48;
      length ← dec_read BfxBufferReadUInt32;
      ranges ← dec_sack_loop count;
      mret (mkRange pos length :: ranges)
  end.

(** The array has one entry more than was read, all zero. *)
Definition dec_sack : Dec (option (list BdtStreamRange)) :=
  count ← dec_read BfxBufferReadUInt8;
  if (Z.of_nat PACKAGE_SESSIONDATA_SACK_RANGE_MAX_COUNT <? count) || (count =? 0) then dec_fail else
  ranges ← dec_sack_loop (Z.to_nat count);
  mret (Some (ranges ++ [mkRange 0 0])).

(** All the rest of the package; the payload stays where it is. *)
Definition dec_payload (totallen : Z) : Dec (option (list Z)) := λ d,
  let datalen := u16 (totallen - u16 (de_read d)) in
  guard (0 < datalen);;
  let s := de_stream d in
  let payload := take (Z.to_nat datalen) (drop (bs_pos s) (bs_buffer s)) in
  s ← BfxBufferStreamSetPos s (BfxBufferStreamGetPos s + Z.to_nat datalen);
  Some (Some (Some payload), mkDec s (de_read d + datalen)).

Definition dec_session_fields (totallen : Z) : Dec SessionPackage :=
  cmdflags ← dec_read BfxBufferReadUInt16;
  sessionId ← dec_read BfxBufferReadUInt32;
  streamPos ← dec_read BfxBufferReadUInt48;
  synPart ← dec_if (has_flag cmdflags BDT_SESSIONDATA_PACKAGE_FLAG_SYN) dec_syn None;
  idPart ← dec_if (has_flag cmdflags BDT_SESSIONDATA_PACKAGE_FLAG_PACKAGEID ||
                   has_flag cmdflags BDT_SESSIONDATA_PACKAGE_FLAG_ACK_PACKAGEID) dec_package_id None;
  ackStreamPos ← dec_if (has_flag cmdflags BDT_SESSIONDATA_PACKAGE_FLAG_ACK) (dec_read BfxBufferReadUInt48) 0;
  sackArray ← dec_if (has_flag cmdflags BDT_SESSIONDATA_PACKAGE_FLAG_SACK) dec_sack None;
  toSessionId ← dec_if (has_flag cmdflags BDT_SESSIONDATA_PACKAGE_FLAG_SYN &&
                        has_flag cmdflags BDT_SESSIONDATA_PACKAGE_FLAG_ACK) (dec_read BfxBufferReadUInt32) 0;
  recvSpeedlimit ← dec_if (has_flag cmdflags BDT_SESSIONDATA_PACKAGE_FLAG_SPEEDLIMIT) (dec_read BfxBufferReadUInt32) 0;
  sendTime ← dec_if (has_flag cmdflags BDT_SESSIONDATA_PACKAGE_FLAG_SENDTIME) (dec_read BfxBufferReadUInt64) 0;
  payload ← dec_if (has_flag cmdflags BDT_SESSIONDATA_PACKAGE_FLAG_PAYLOAD) (dec_payload totallen) None;
  mret (mkSessionPackage cmdflags sessionId streamPos ackStreamPos toSessionId sackArray recvSpeedlimit
          sendTime payload synPart idPart).

Definition DecodeSessionDataPackage (totallen : Z) (s : BfxBufferStream) :
    option (option SessionPackage * BfxBufferStream) :=
  dec_package PACKAGE_MIN_SIZE totallen Bdt_SessionDataPackageCreate (dec_session_fields totallen) s.

(** ** The format *)

Definition syn_bytes (syn : option SynPart) : list Z :=
  match syn with
  | Some y => le_bytes 4 (sy_synSeq y) ++ le_bytes 1 (sy_synControl y) ++ le_bytes 1 (sy_ccType y) ++
              le_bytes 2 (sy_toVPort y) ++ le_bytes 4 (sy_fromSessionId y)
  | None => []
  end.

Definition id_bytes (part : option PackageIdPart) : list Z :=
  match part with
  | Some i => le_bytes 4 (ip_packageId i) ++ le_bytes 6 (ip_totalRecv i)
  | None => []
  end.

Definition range_bytes (r : BdtStreamRange) : list Z := le_bytes 6 (sr_pos r) ++ le_bytes 4 (sr_length r).

(** The ranges in front of the terminating one. *)
Fixpoint sack_ranges (l : list BdtStreamRange) : list BdtStreamRange :=
  match l with
  | [] => []
  | r :: l => if sr_length r =? 0 then [] else r :: sack_ranges l
  end.

Definition sack_bytes (sack : option (list BdtStreamRange)) : list Z :=
  match sack with
  | Some l => le_bytes 1 (Z.of_nat (length (sack_ranges l))) ++ concat (range_bytes <$> sack_ranges l)
  | None => []
  end.

Definition has {A} (o : option A) : bool := match o with Some _ => true | None => false end.

Definition ack_present (p : SessionPackage) : bool :=
  has_flag (sp_cmdflags p) BDT_SESSIONDATA_PACKAGE_FLAG_ACK || negb (sp_ackStreamPos p =? 0).
Definition to_session_present (p : SessionPackage) : bool := has (sp_synPart p) && ack_present p.

Definition session_body (p : SessionPackage) : list Z :=
  le_bytes 4 (sp_sessionId p) ++ le_bytes 6 (sp_streamPos p) ++ syn_bytes (sp_synPart p) ++
  id_bytes (sp_packageIDPart p) ++
  (if ack_present p then le_bytes 6 (sp_ackStreamPos p) else []) ++
  (if to_session_present p then le_bytes 4 (sp_toSessionId p) else []) ++
  sack_bytes (sp_sackArray p) ++
  (if negb (sp_recvSpeedlimit p =? 0) then le_bytes 4 (sp_recvSpeedlimit p) else []) ++
  (if negb (sp_sendTime p =? 0) then le_bytes 8 (sp_sendTime p) else []) ++
  default [] (sp_payload p).

(** The flags after encoding. *)
Definition wire_flags (p : SessionPackage) : Z :=
  let f := put_flag (sp_cmdflags p) BDT_SESSIONDATA_PACKAGE_FLAG_SYN (has (sp_synPart p)) in
  let f := put_flag f BDT_SESSIONDATA_PACKAGE_FLAG_PACKAGEID (has (sp_packageIDPart p)) in
  let f := if sp_ackStreamPos p =? 0 then f else put_flag f BDT_SESSIONDATA_PACKAGE_FLAG_ACK true in
  let f := put_flag f BDT_SESSIONDATA_PACKAGE_FLAG_SACK (has (sp_sackArray p)) in
  let f := put_flag f BDT_SESSIONDATA_PACKAGE_FLAG_SPEEDLIMIT (negb (sp_recvSpeedlimit p =? 0)) in
  let f := put_flag f BDT_SESSIONDATA_PACKAGE_FLAG_SENDTIME (negb (sp_sendTime p =? 0)) in
  put_flag f BDT_SESSIONDATA_PACKAGE_FLAG_PAYLOAD (has (sp_payload p)).

(** What the receiver gets: the session it answers to is only sent in the
    handshake, and the array ends behind its last range. *)
Definition received (p : SessionPackage) : SessionPackage :=
  mkSessionPackage (wire_flags p) (sp_sessionId p) (sp_streamPos p) (sp_ackStreamPos p)
    (if to_session_present p then sp_toSessionId p else 0)
    ((λ l, sack_ranges l ++ [mkRange 0 0]) <$> sp_sackArray p)
    (sp_recvSpeedlimit p) (sp_sendTime p) (sp_payload p) (sp_synPart p) (sp_packageIDPart p).

(** ** Well-formed packages *)

Definition syn_ok (y : SynPart) : Prop :=
  0 ≤ sy_synSeq y < 2 ^ 32 ∧ 0 ≤ sy_synControl y < 2 ^ 8 ∧ 0 ≤ sy_ccType y < 2 ^ 8 ∧
  0 ≤ sy_toVPort y < 2 ^ 16 ∧ 0 ≤ sy_fromSessionId y < 2 ^ 32.
Definition id_ok (i : PackageIdPart) : Prop := 0 ≤ ip_packageId i < 2 ^ 32 ∧ 0 ≤ ip_totalRecv i < 2 ^ 48.
Definition range_ok (r : BdtStreamRange) : Prop := 0 ≤ sr_pos r < 2 ^ 48 ∧ 0 ≤ sr_length r < 2 ^ 32.
Definition sack_ok (l : list BdtStreamRange) : Prop :=
  Exists (λ r, sr_length r = 0) l ∧ (1 ≤ length (sack_ranges l) ≤ PACKAGE_SESSIONDATA_SACK_RANGE_MAX_COUNT)%nat ∧
  Forall range_ok (sack_ranges l).
Definition opt_ok {A} (P : A → Prop) (o : option A) : Prop := match o with Some a => P a | None => True end.

Record session_ok (p : SessionPackage) : Prop := {
  so_sessionId : 0 ≤ sp_sessionId p < 2 ^ 32;
  so_streamPos : 0 ≤ sp_streamPos p < 2 ^ 48;
  so_ackStreamPos : 0 ≤ sp_ackStreamPos p < 2 ^ 48;
  so_toSessionId : 0 ≤ sp_toSessionId p < 2 ^ 32;
  so_speed : 0 ≤ sp_recvSpeedlimit p < 2 ^ 32;
  so_time : 0 ≤ sp_sendTime p < 2 ^ 64;
  so_syn : opt_ok syn_ok (sp_synPart p);
  so_id : opt_ok id_ok (sp_packageIDPart p);
  so_sack : opt_ok sack_ok (sp_sackArray p);
  so_payload : sp_payload p ≠ Some [];
  so_ack_id : has_flag (sp_cmdflags p) BDT_SESSIONDATA_PACKAGE_FLAG_ACK_PACKAGEID = true → sp_packageIDPart p ≠ None;
  so_size : Z.of_nat (5 + length (session_body p)) < 2 ^ 16 }.

(** ** The flags of an encoded package *)

Lemma wire_flag p k :
  0 ≤ k < 16 →
  has_flag (wire_flags p) (Z.shiftl 1 k) =
  if k =? 7 then has (sp_payload p) else if k =? 6 then negb (sp_sendTime p =? 0)
  else if k =? 5 then negb (sp_recvSpeedlimit p =? 0) else if k =? 4 then has (sp_sackArray p)
  else if k =? 3 then ack_present p else if k =? 0 then has (sp_packageIDPart p)
  else if k =? 2 then has (sp_synPart p) else has_flag (sp_cmdflags p) (Z.shiftl 1 k).
Proof.
  intros Hk. unfold wire_flags, BDT_SESSIONDATA_PACKAGE_FLAG_PAYLOAD, BDT_SESSIONDATA_PACKAGE_FLAG_SENDTIME,
    BDT_SESSIONDATA_PACKAGE_FLAG_SPEEDLIMIT, BDT_SESSIONDATA_PACKAGE_FLAG_SACK.
  do 4 (rewrite has_put_flag by lia; destruct (k =? _); [done|]).
  unfold BDT_SESSIONDATA_PACKAGE_FLAG_ACK, BDT_SESSIONDATA_PACKAGE_FLAG_PACKAGEID, BDT_SESSIONDATA_PACKAGE_FLAG_SYN,
    ack_present.
  destruct (Z.eqb_spec (sp_ackStreamPos p) 0) as [E|E].
  - do 2 rewrite has_put_flag by lia. destruct (Z.eqb_spec k 3) as [->|]; [|done]. simpl. by rewrite orb_false_r.
  - do 3 rewrite has_put_flag by lia. destruct (Z.eqb_spec k 3) as [->|]; [|done]. simpl. by rewrite orb_true_r.
Qed.

(** ** What the encoder writes *)

Lemma emits_syn f y : emits (enc_syn y) f (syn_bytes y) (put_flag f BDT_SESSIONDATA_PACKAGE_FLAG_SYN (has y)).
Proof.
  destruct y as [y|]; [|apply emits_flag]. unfold enc_syn, syn_bytes. rewrite <- (app_nil_l (_ ++ _)).
  eapply emits_then; [apply emits_flag|].
  repeat (eapply emits_then; [apply emits_write|]); try apply emits_write;
    auto using writes_u32, writes_u16, writes_u8.
Qed.

Lemma emits_package_id f i :
  emits (enc_package_id i) f (id_bytes i) (put_flag f BDT_SESSIONDATA_PACKAGE_FLAG_PACKAGEID (has i)).
Proof.
  destruct i as [i|]; [|apply emits_flag]. unfold enc_package_id, id_bytes. rewrite <- (app_nil_l (_ ++ _)).
  repeat (eapply emits_then; [first [apply emits_flag|apply emits_write]|]); try apply emits_write;
    auto using writes_u32, writes_u48.
Qed.

Lemma emits_range f r :
  emits (enc_write (BfxBufferWriteUInt48 (sr_pos r)) >>> enc_write (BfxBufferWriteUInt32 (sr_length r)))
    f (range_bytes r) f.
Proof. eapply emits_then; apply emits_write; auto using writes_u32, writes_u48. Qed.

Lemma length_range_bytes r : length (range_bytes r) = 10%nat.
Proof. unfold range_bytes. by rewrite length_app, !length_le_bytes. Qed.

Lemma sack_loop_emits f l count :
  Exists (λ r, sr_length r = 0) l → (count + length (sack_ranges l) ≤ PACKAGE_SESSIONDATA_SACK_RANGE_MAX_COUNT)%nat →
  ∀ s n, room (concat (range_bytes <$> sack_ranges l)) s →
  enc_sack_loop l count (mkEnc s n f) =
  Some (BFX_RESULT_SUCCESS, (count + length (sack_ranges l))%nat,
        mkEnc (written (concat (range_bytes <$> sack_ranges l)) s)
          (n + length (concat (range_bytes <$> sack_ranges l))) f).
Proof.
  intros Hex. revert count. induction l as [|r l IH]; intros count Hc s n Hr; [by apply Exists_nil in Hex|].
  cbn [enc_sack_loop]. cbn [sack_ranges] in *. destruct (Z.eqb_spec (sr_length r) 0) as [E|E].
  { cbn. by rewrite written_nil, !Nat.add_0_r. }
  apply Exists_cons in Hex as [?|Hex]; [done|]. rewrite fmap_cons in *. cbn [length concat] in *.
  destruct Hr as [Hr Hl]. rewrite length_app in Hr.
  rewrite (emits_range f r) by (split; lia). cbn [mbind option_bind].
  cbn [negb Z.eqb BFX_RESULT_SUCCESS]. destruct (Nat.ltb_spec PACKAGE_SESSIONDATA_SACK_RANGE_MAX_COUNT (S count)); [lia|].
  rewrite IH; [|done|lia|].
  - rewrite written_app, length_app, Nat.add_assoc by lia. by rewrite Nat.add_succ_r.
  - split; [cbn [written bs_pos bs_length]; lia|]. rewrite length_written by lia. done.
Qed.

Lemma emits_sack f l :
  sack_ok l → emits (enc_sack l) f (sack_bytes (Some l)) f.
Proof.
  intros (Hex & Hc & _) s n [Hr Hl]. unfold sack_bytes in *. rewrite length_app, length_le_bytes in Hr.
  set (rs := concat (range_bytes <$> sack_ranges l)) in *.
  unfold enc_sack, BfxBufferStreamGetPos. cbn [en_stream en_total en_flags].
  rewrite SetPos_ok by lia. cbn [mbind option_bind].
  set (s1 := mkStream (bs_buffer s) (bs_length s) (bs_pos s + 1)).
  rewrite (sack_loop_emits f l 0 Hex) by (try split; cbn [s1 bs_pos bs_length bs_buffer]; fold rs; lia).
  fold rs. cbn [mbind option_bind negb Z.eqb BFX_RESULT_SUCCESS en_stream en_total en_flags].
  assert (Hb : length (bs_buffer (written rs s1)) = length (bs_buffer s))
    by (apply (length_written rs s1); cbn; lia).
  assert (H1 : bs_length (written rs s1) = bs_length s ∧ bs_pos (written rs s1) = (bs_pos s + 1 + length rs)%nat)
    by done. destruct H1 as [H1l H1p].
  rewrite SetPos_ok by lia. cbn [mbind option_bind].
  rewrite writes_u8 by (split; cbn [bs_pos bs_length bs_buffer]; rewrite ?length_le_bytes; lia).
  cbn [mbind option_bind]. rewrite SetPos_ok by (cbn; lia). cbn [mbind option_bind].
  unfold PACKAGE_SESSIONDATA_SACK_RANGE_MAX_COUNT in Hc.
  assert (Hu : u8 (Z.of_nat (0 + length (sack_ranges l))) = Z.of_nat (length (sack_ranges l)))
    by (unfold u8; rewrite Z.mod_small; lia).
  rewrite Hu. set (b := le_bytes 1 _). assert (Hlb : length b = 1%nat) by apply length_le_bytes.
  pose proof (written_before b rs s1 (bs_pos s)) as Hw. rewrite Hlb in Hw. cbn [s1 bs_pos bs_length bs_buffer] in Hw.
  rewrite length_app, Hlb. rewrite <- Nat.add_assoc, (Nat.add_comm (length rs)).
  do 3 f_equal. rewrite H1p, H1l. fold s1 in Hw. destruct s as [sb sl sp]. cbn in *.
  rewrite Hw by lia. unfold written. cbn. f_equal. lia.
Qed.

Lemma emits_sacks f o :
  opt_ok sack_ok o → emits (enc_sacks o) f (sack_bytes o) (put_flag f BDT_SESSIONDATA_PACKAGE_FLAG_SACK (has o)).
Proof.
  intros Ho. destruct o as [l|]; [|apply emits_flag]. unfold enc_sacks. rewrite <- (app_nil_l (sack_bytes _)).
  eapply emits_then; [apply emits_flag|]. by apply emits_sack.
Qed.

Lemma emits_nonzero f k v n w :
  0 ≤ k < 16 → writes w (le_bytes n v) →
  emits (enc_nonzero (Z.shiftl 1 k) v w) f (if negb (v =? 0) then le_bytes n v else [])
    (put_flag f (Z.shiftl 1 k) (negb (v =? 0))).
Proof. intros Hk Hw. apply emits_field; [done|]. intros _ g. by apply emits_write. Qed.

Lemma emits_ack f p :
  emits (enc_ack p) f
    (if has_flag f BDT_SESSIONDATA_PACKAGE_FLAG_ACK || negb (sp_ackStreamPos p =? 0)
     then le_bytes 6 (sp_ackStreamPos p) else [])
    (if sp_ackStreamPos p =? 0 then f else put_flag f BDT_SESSIONDATA_PACKAGE_FLAG_ACK true).
Proof.
  unfold enc_ack. set (w := enc_write _).
  assert (Hw : ∀ g, emits w g (le_bytes 6 (sp_ackStreamPos p)) g) by (intros g; apply emits_write, writes_u48).
  rewrite <- (app_nil_l (if _ || _ then _ else _)). destruct (sp_ackStreamPos p =? 0) eqn:E; cbn [negb].
  - eapply emits_then; [apply emits_skip|]. rewrite orb_false_r. by apply emits_if.
  - eapply emits_then; [apply emits_flag|]. rewrite orb_true_r.
    pose proof (emits_if (put_flag f BDT_SESSIONDATA_PACKAGE_FLAG_ACK true) BDT_SESSIONDATA_PACKAGE_FLAG_ACK w _ _
      (Hw _) (λ _, eq_refl)) as Hi.
    assert (Hf : has_flag (put_flag f BDT_SESSIONDATA_PACKAGE_FLAG_ACK true) BDT_SESSIONDATA_PACKAGE_FLAG_ACK = true)
      by (apply (has_put_flag f 3 true 3); lia).
    by rewrite Hf in Hi.
Qed.

Lemma emits_payload f o :
  emits (enc_payload o) f (default [] o) (put_flag f BDT_SESSIONDATA_PACKAGE_FLAG_PAYLOAD (has o)).
Proof.
  unfold enc_payload. assert (E : bool_decide (o ≠ None) = has o) by (by destruct o).
  rewrite E. assert (Eb : default [] o = if has o then default [] o else []) by (by destruct o).
  rewrite Eb at 2. apply emits_field; [lia|]. intros _ g. apply emits_write, writes_bytes.
Qed.

Lemma emits_to_session f p b c :
  has_flag f BDT_SESSIONDATA_PACKAGE_FLAG_SYN = b → has_flag f BDT_SESSIONDATA_PACKAGE_FLAG_ACK = c →
  emits (enc_if BDT_SESSIONDATA_PACKAGE_FLAG_SYN
           (enc_if BDT_SESSIONDATA_PACKAGE_FLAG_ACK (enc_write (BfxBufferWriteUInt32 (sp_toSessionId p))))) f
    (if b && c then le_bytes 4 (sp_toSessionId p) else []) f.
Proof.
  intros <- <-.
  assert (Hw : emits (enc_write (BfxBufferWriteUInt32 (sp_toSessionId p))) f (le_bytes 4 (sp_toSessionId p)) f)
    by apply emits_write, writes_u32.
  pose proof (emits_if f BDT_SESSIONDATA_PACKAGE_FLAG_ACK _ _ _ Hw (λ _, eq_refl)) as Hi.
  pose proof (emits_if f BDT_SESSIONDATA_PACKAGE_FLAG_SYN _ _ _ Hi (λ _, eq_refl)) as Hj.
  by destruct (has_flag f BDT_SESSIONDATA_PACKAGE_FLAG_SYN).
Qed.

Lemma session_fields_emits p :
  opt_ok sack_ok (sp_sackArray p) →
  emits (session_fields p) (sp_cmdflags p) (session_body p) (wire_flags p).
Proof.
  intros Hs. unfold session_fields, session_body, wire_flags.
  set (f1 := put_flag (sp_cmdflags p) BDT_SESSIONDATA_PACKAGE_FLAG_SYN (has (sp_synPart p))).
  set (f2 := put_flag f1 BDT_SESSIONDATA_PACKAGE_FLAG_PACKAGEID (has (sp_packageIDPart p))).
  set (f3 := if sp_ackStreamPos p =? 0 then f2 else put_flag f2 BDT_SESSIONDATA_PACKAGE_FLAG_ACK true).
  assert (H2 : has_flag f2 BDT_SESSIONDATA_PACKAGE_FLAG_ACK = has_flag (sp_cmdflags p) BDT_SESSIONDATA_PACKAGE_FLAG_ACK).
  { unfold f2, f1, BDT_SESSIONDATA_PACKAGE_FLAG_ACK, BDT_SESSIONDATA_PACKAGE_FLAG_PACKAGEID,
      BDT_SESSIONDATA_PACKAGE_FLAG_SYN. by do 2 rewrite has_put_flag by lia. }
  assert (H3 : has_flag f3 BDT_SESSIONDATA_PACKAGE_FLAG_ACK = ack_present p).
  { unfold f3, ack_present. rewrite <- H2. destruct (sp_ackStreamPos p =? 0); [by rewrite orb_false_r|].
    rewrite orb_true_r. apply (has_put_flag f2 3 true 3); lia. }
  assert (H3s : has_flag f3 BDT_SESSIONDATA_PACKAGE_FLAG_SYN = has (sp_synPart p)).
  { unfold f3, f2, f1, BDT_SESSIONDATA_PACKAGE_FLAG_ACK, BDT_SESSIONDATA_PACKAGE_FLAG_PACKAGEID,
      BDT_SESSIONDATA_PACKAGE_FLAG_SYN. destruct (sp_ackStreamPos p =? 0); by repeat rewrite has_put_flag by lia. }
  eapply emits_then; [apply emits_write, writes_u32|].
  eapply emits_then; [apply emits_write, writes_u48|].
  eapply emits_then; [apply emits_syn|]. fold f1.
  eapply emits_then; [apply emits_package_id|]. fold f2.
  eapply emits_then.
  { pose proof (emits_ack f2 p) as Ha. rewrite H2 in Ha. fold (ack_present p) f3 in Ha. exact Ha. }
  eapply emits_then; [by apply emits_to_session|].
  eapply emits_then; [by apply emits_sacks|].
  eapply emits_then; [apply emits_nonzero; [lia|apply writes_u32]|].
  eapply emits_then; [apply emits_nonzero; [lia|apply writes_u64]|].
  apply emits_payload.
Qed.

(** ** What the decoder reads *)

Lemma parses_syn y : syn_ok y → parses dec_syn (syn_bytes (Some y)) (Some y).
Proof.
  intros (H1 & H2 & H3 & H4 & H5). unfold dec_syn, syn_bytes.
  eapply parses_bind; [by apply parses_u32|]. eapply parses_bind; [by apply parses_u8|].
  eapply parses_bind; [by apply parses_u8|]. eapply parses_bind; [by apply parses_u16|].
  destruct y. eapply (parses_map _ (λ x, Some (mkSyn _ _ _ _ x))). by apply parses_u32.
Qed.

Lemma parses_package_id i : id_ok i → parses dec_package_id (id_bytes (Some i)) (Some i).
Proof.
  intros (H1 & H2). unfold dec_package_id, id_bytes.
  eapply parses_bind; [by apply parses_u32|].
  destruct i. eapply (parses_map _ (λ x, Some (mkIdPart _ x))). by apply parses_u48.
Qed.

Lemma parses_sack_loop rs :
  Forall range_ok rs → parses (dec_sack_loop (length rs)) (concat (range_bytes <$> rs)) rs.
Proof.
  induction 1 as [|r rs [Hp Hl] _ IH]; [apply parses_ret|]. rewrite fmap_cons. cbn [concat dec_sack_loop length].
  unfold range_bytes at 1. rewrite <- app_assoc.
  eapply parses_bind; [by apply parses_u48|]. eapply parses_bind; [by apply parses_u32|].
  destruct r. by apply (parses_map _ (λ x, mkRange _ _ :: x)).
Qed.

Lemma parses_sack l :
  sack_ok l → parses dec_sack (sack_bytes (Some l)) (Some (sack_ranges l ++ [mkRange 0 0])).
Proof.
  intros (_ & Hc & Hr). unfold PACKAGE_SESSIONDATA_SACK_RANGE_MAX_COUNT in Hc. unfold dec_sack, sack_bytes.
  eapply parses_bind; [apply parses_u8; lia|].
  unfold PACKAGE_SESSIONDATA_SACK_RANGE_MAX_COUNT.
  destruct (Z.ltb_spec (Z.of_nat 10) (Z.of_nat (length (sack_ranges l)))); [lia|].
  destruct (Z.eqb_spec (Z.of_nat (length (sack_ranges l))) 0); [lia|]. cbn [orb]. rewrite Nat2Z.id.
  apply (parses_map _ (λ x, Some (x ++ [mkRange 0 0]))). by apply parses_sack_loop.
Qed.

Lemma parses_payload n totallen bs :
  bs ≠ [] → totallen < 2 ^ 16 → 0 ≤ n → totallen = n + Z.of_nat (length bs) →
  parses_at n (dec_payload totallen) bs (Some bs).
Proof.
  intros Hne Ht Hn -> s rest (Hr & Hl & _).
  assert (0 < length bs)%nat by (destruct bs; [done|simpl; lia]).
  unfold dec_payload. cbn [de_stream de_read]. rewrite (u16_id n) by lia.
  replace (n + Z.of_nat (length bs) - n) with (Z.of_nat (length bs)) by lia. rewrite u16_id by lia.
  rewrite option_guard_True by lia. cbn [mbind option_bind]. rewrite Nat2Z.id.
  unfold BfxBufferStreamGetPos. rewrite SetPos_ok by done. cbn [mbind option_bind].
  destruct Hr as [_ ->]. by rewrite take_app_length.
Qed.

(** A field that is absent has its default. *)
Lemma parses_opt {A} b (m : Dec (option A)) bs (o : option A) :
  b = has o → (∀ a, o = Some a → parses m bs (Some a)) → (o = None → bs = []) →
  parses (dec_if b m None) bs o.
Proof.
  intros -> Hm Hn. destruct o as [a|]; [by apply Hm|]. rewrite Hn by done. apply parses_ret.
Qed.

Lemma parses_nonzero v m bs :
  (v ≠ 0 → parses m bs v) → parses (dec_if (negb (v =? 0)) m 0) (if negb (v =? 0) then bs else []) v.
Proof.
  intros Hm. apply parses_if; [|]; intros H; destruct (Z.eqb_spec v 0); try done. by apply Hm.
Qed.

Lemma length_session_body p : (10 ≤ length (session_body p))%nat.
Proof. unfold session_body. rewrite app_assoc, length_app. rewrite length_app, !length_le_bytes. lia. Qed.

(** The two fields whose order differs. *)
Definition handshake_has_no_sack (p : SessionPackage) : Prop :=
  to_session_present p = true → sp_sackArray p = None.

Lemma session_body_swap p :
  handshake_has_no_sack p →
  (if to_session_present p then le_bytes 4 (sp_toSessionId p) else []) ++ sack_bytes (sp_sackArray p) =
  sack_bytes (sp_sackArray p) ++ (if to_session_present p then le_bytes 4 (sp_toSessionId p) else []).
Proof.
  unfold handshake_has_no_sack. destruct (to_session_present p); intros H.
  - rewrite H by done. cbn [sack_bytes app]. by rewrite app_nil_r.
  - cbn [app]. by rewrite app_nil_r.
Qed.

Lemma session_parses p :
  session_ok p → handshake_has_no_sack p →
  parses_at 0 (dec_session_fields (Z.of_nat (2 + length (session_body p))))
    (le_bytes 2 (wire_flags p) ++ session_body p) (received p).
Proof.
  intros Hok Hh. set (T := Z.of_nat _).
  assert (HT : T < 2 ^ 16) by (pose proof (so_size _ Hok); lia).
  assert (Hlen : Z.of_nat (length (le_bytes 2 (wire_flags p) ++ session_body p)) = T)
    by (rewrite length_app, length_le_bytes; lia).
  revert Hlen. unfold session_body at 1 2. rewrite (app_assoc _ (sack_bytes _)), session_body_swap, <- app_assoc by done.
  intros Hlen. rewrite !length_app in Hlen.
  set (F := wire_flags p) in *.
  assert (Hf0 : has_flag F BDT_SESSIONDATA_PACKAGE_FLAG_PACKAGEID = has (sp_packageIDPart p)) by (apply (wire_flag p 0); lia).
  assert (Hf1 : has_flag F BDT_SESSIONDATA_PACKAGE_FLAG_ACK_PACKAGEID =
                has_flag (sp_cmdflags p) BDT_SESSIONDATA_PACKAGE_FLAG_ACK_PACKAGEID) by (apply (wire_flag p 1); lia).
  assert (Hf2 : has_flag F BDT_SESSIONDATA_PACKAGE_FLAG_SYN = has (sp_synPart p)) by (apply (wire_flag p 2); lia).
  assert (Hf3 : has_flag F BDT_SESSIONDATA_PACKAGE_FLAG_ACK = ack_present p) by (apply (wire_flag p 3); lia).
  assert (Hf4 : has_flag F BDT_SESSIONDATA_PACKAGE_FLAG_SACK = has (sp_sackArray p)) by (apply (wire_flag p 4); lia).
  assert (Hf5 : has_flag F BDT_SESSIONDATA_PACKAGE_FLAG_SPEEDLIMIT = negb (sp_recvSpeedlimit p =? 0))
    by (apply (wire_flag p 5); lia).
  assert (Hf6 : has_flag F BDT_SESSIONDATA_PACKAGE_FLAG_SENDTIME = negb (sp_sendTime p =? 0)) by (apply (wire_flag p 6); lia).
  assert (Hf7 : has_flag F BDT_SESSIONDATA_PACKAGE_FLAG_PAYLOAD = has (sp_payload p)) by (apply (wire_flag p 7); lia).
  unfold dec_session_fields.
  eapply parses_at_bind; [apply parses_u16; apply put_flag_range|].
  eapply parses_at_bind; [apply parses_u32, (so_sessionId _ Hok)|].
  eapply parses_at_bind; [apply parses_u48, (so_streamPos _ Hok)|].
  eapply parses_at_bind.
  { rewrite Hf2. apply (parses_opt _ _ _ (sp_synPart p)); [done| |by intros ->].
    intros y E. pose proof (so_syn _ Hok) as Hy. rewrite E in *. by apply parses_syn. }
  eapply parses_at_bind.
  { apply (parses_opt _ _ _ (sp_packageIDPart p)).
    - rewrite Hf0, Hf1. pose proof (so_ack_id _ Hok) as Hi. destruct (sp_packageIDPart p); [done|].
      cbn [has orb]. destruct (has_flag (sp_cmdflags p) _); [by destruct Hi|done].
    - intros i E. pose proof (so_id _ Hok) as Hi. rewrite E in *. by apply parses_package_id.
    - by intros ->. }
  eapply parses_at_bind.
  { rewrite Hf3.
    apply (parses_if _ _ _ (sp_ackStreamPos p)); [intros _; apply parses_u48, (so_ackStreamPos _ Hok)|].
    unfold ack_present. intros [_ H]%orb_false_iff. by apply negb_false_iff, Z.eqb_eq in H. }
  eapply parses_at_bind.
  { apply (parses_opt _ _ _ ((λ l, sack_ranges l ++ [mkRange 0 0]) <$> sp_sackArray p)).
    - rewrite Hf4. by destruct (sp_sackArray p).
    - intros l E. pose proof (so_sack _ Hok) as Hs. destruct (sp_sackArray p) as [l0|]; [|done].
      injection E as <-. by apply parses_sack.
    - by destruct (sp_sackArray p). }
  eapply parses_at_bind.
  { rewrite Hf2, Hf3. fold (to_session_present p).
    apply (parses_if _ _ _ (if to_session_present p then sp_toSessionId p else 0)); intros ->; [|done].
    apply parses_u32, (so_toSessionId _ Hok). }
  eapply parses_at_bind.
  { rewrite Hf5. apply parses_nonzero. intros _. apply parses_u32, (so_speed _ Hok). }
  eapply parses_at_bind.
  { rewrite Hf6. apply parses_nonzero. intros _. apply parses_u64, (so_time _ Hok). }
  rewrite <- (app_nil_r (default [] _)).
  eapply parses_at_bind; [|apply parses_ret].
  rewrite Hf7.
  pose proof (so_payload _ Hok) as Hp. destruct (sp_payload p) as [bs|]; [|apply parses_ret].
  apply parses_payload; [congruence|done|lia|]. change (default [] (Some bs)) with bs in Hlen. lia.
Qed.

(** ** The round trip *)

Lemma session_wire p :
  session_ok p → handshake_has_no_sack p →
  wire (EncodeSessionDataPackage p) DecodeSessionDataPackage BDT_SESSION_DATA_PACKAGE (wire_flags p)
    (package_bytes BDT_SESSION_DATA_PACKAGE (wire_flags p) (session_body p)) (eq (received p)).
Proof.
  intros Hok Hh. apply package_wire; try done.
  - apply session_fields_emits, (so_sack _ Hok).
  - intros s rest Hr. destruct (parses_at_to _ _ _ _ _ _ (session_parses p Hok Hh) Hr) as (a & Ha & E).
    exists a. split; [done|]. rewrite E, length_app, length_le_bytes. done.
  - apply (so_size _ Hok).
Qed.


(** A connection's first package with data, and room for it in the middle of a
    buffer. *)
Definition demo_session : SessionPackage :=
  mkSessionPackage BDT_SESSIONDATA_PACKAGE_FLAG_FIN 7 4096 0 9 None 0 1234567890123 (Some [1; 2; 3])
    (Some (mkSyn 5 0 0 80 7)) (Some (mkIdPart 3 100)).
Definition demo_stream : BfxBufferStream := mkStream (replicate 80 0) 70 4.

Lemma demo_session_ok : session_ok demo_session.
Proof. constructor; vm_compute; try done; intuition congruence. Defined.


(** ** What the decoder does not survive *)

(** A read behind the end of the stream is a failed [assert]. *)
Lemma read_behind_end {A} (rd : Read A) n s k :
  (∀ s, (bs_length s < bs_pos s + n)%nat → rd s = None) → (bs_length s < bs_pos s + n)%nat →
  dec_read rd (mkDec s k) = None.
Proof. intros H Hn. unfold dec_read. cbn [de_stream]. by rewrite H. Qed.

Lemma u32_behind_end s : (bs_length s < bs_pos s + 4)%nat → BfxBufferReadUInt32 s = None.
Proof. intros H. unfold BfxBufferReadUInt32. by rewrite assert_room_fail. Qed.
Lemma u48_behind_end s : (bs_length s < bs_pos s + 6)%nat → BfxBufferReadUInt48 s = None.
Proof. intros H. unfold BfxBufferReadUInt48. by rewrite assert_room_fail. Qed.

Lemma dec_read_advances {A} (rd : Read A) n s k :
  (∀ s r a s', rd s = Some (r, a, s') → s' = advance n s ∧ r = Z.of_nat n) → (0 < n)%nat →
  dec_read rd (mkDec s k) = None ∨ ∃ a k', dec_read rd (mkDec s k) = Some (Some a, mkDec (advance n s) k').
Proof.
  intros H Hn. unfold dec_read. cbn [de_stream de_read]. destruct (rd s) as [[[r a] s']|] eqn:E; [|by left].
  apply H in E as [-> ->]. right. cbn [mbind option_bind]. destruct (Z.leb_spec (Z.of_nat n) 0); [lia|]. eauto.
Qed.

Ltac advances_tac rd := intros s r a s'; unfold rd; destruct (assert_room s _); [|done]; cbn [mbind option_bind];
  destruct (load _ s); [|done]; cbn [mbind option_bind]; by intros [= <- _ <-].

Lemma u16_advances s r a s' : BfxBufferReadUInt16 s = Some (r, a, s') → s' = advance 2 s ∧ r = Z.of_nat 2.
Proof. revert s r a s'. advances_tac BfxBufferReadUInt16. Qed.
Lemma u32_advances s r a s' : BfxBufferReadUInt32 s = Some (r, a, s') → s' = advance 4 s ∧ r = Z.of_nat 4.
Proof. revert s r a s'. advances_tac BfxBufferReadUInt32. Qed.

Lemma Dec_bind_None {A B} (m : Dec A) (k : A → Dec B) d : m d = None → (m ≫= k) d = None.
Proof. intros H. unfold mbind, Dec_bind. by rewrite H. Qed.
Lemma Dec_bind_Some {A B} (m : Dec A) (k : A → Dec B) d a d' : m d = Some (Some a, d') → (m ≫= k) d = k a d'.
Proof. intros H. unfold mbind, Dec_bind. by rewrite H. Qed.

(** Every datagram that ends with a session data package whose announced
    length ends inside of the flags, the session's id or the position aborts
    [DecodeSessionDataPackage]: the decoder returns no error, the [assert]s of
    the buffer stream are its only check. *)
Theorem session_truncated_aborts totallen s :
  2 ≤ totallen < 12 → Z.of_nat (bs_length s) = Z.of_nat (bs_pos s) + totallen →
  DecodeSessionDataPackage totallen s = None.
Proof.
  intros Ht Hl. unfold DecodeSessionDataPackage, dec_package, PACKAGE_MIN_SIZE.
  destruct (Z.ltb_spec totallen 2); [lia|].
  enough (dec_session_fields totallen (mkDec s 0) = None) as -> by done. unfold dec_session_fields.
  destruct (dec_read_advances BfxBufferReadUInt16 2 s 0 u16_advances) as [E|(v & k & E)]; [lia|by apply Dec_bind_None|].
  rewrite (Dec_bind_Some _ _ _ _ _ E). clear E.
  destruct (dec_read_advances BfxBufferReadUInt32 4 (advance 2 s) k u32_advances) as [E|(v' & k' & E)];
    [lia|by apply Dec_bind_None|].
  rewrite (Dec_bind_Some _ _ _ _ _ E). clear E. rewrite advance_add.
  apply Dec_bind_None, (read_behind_end _ 6); [apply u48_behind_end|]. cbn [advance bs_length bs_pos]. lia.
Qed.

Lemma session_truncated_aborts_witness :
  DecodeSessionDataPackage 2 (mkStream [5; 0; 64; 0; 0; 0; 0; 0] 5 3) = None.
Proof. apply session_truncated_aborts; cbn; [split; done|done]. Defined.

(** ** Handshakes with acknowledged ranges *)

(** The encoder writes [toSessionId] in front of the ranges, the decoder reads
    it behind them: the session the answer is for arrives as the length of the
    range, and the range somewhere else. *)
Definition demo_handshake : SessionPackage :=
  mkSessionPackage 0 7 4096 1 1 (Some [mkRange 5000 1400; mkRange 0 0]) 0 0 None
    (Some (mkSyn 5 0 0 80 7)) None.

Example handshake_sack_misread :
  (session_ok demo_handshake ∧ ¬ handshake_has_no_sack demo_handshake) ∧
  ('(_, _, total, s) ← EncodeSessionDataPackage demo_handshake demo_stream;
   '(h, s) ← package_head (at_pos s 4);
   '(_, totallen) ← h;
   '(o, _) ← DecodeSessionDataPackage totallen s; q ← o; Some (sp_sackArray q, sp_toSessionId q)) =
  Some (Some [mkRange 21474853257216 0; mkRange 0 0], 1400).
Proof.
  split; [split|].
  - constructor; [by vm_compute..|by vm_compute; intuition|done| |done|done|done].
    split; [|split; [vm_compute; lia|]].
    + right. by left.
    + constructor; [done|constructor].
  - by intros H; specialize (H eq_refl).
  - by vm_compute.
Qed.

(** A 48-bit integer in the last bytes of the memory: six bytes are there, the
    load of eight is outside. *)
Example u48_overread :
  BfxBufferReadUInt48 (mkStream [1; 0; 0; 0; 0; 0] 6 0) = None ∧
  assert_room (mkStream [1; 0; 0; 0; 0; 0] 6 0) 6 = Some tt.
Proof. done. Qed.
