(* ===== verification/Endpoint.v ===== *)
(** * Endpoints

    Addresses of peers ([BDTCore/Global/Endpoint.imp.inl]), arrays of them, and
    how such an array travels ([Bdt_BufferReadEndpointArray] and
    [Bdt_BufferWriteEndpointArray] of [BDTCore/Protocol/Package.imp.inl]). *)

From S2P Require Import Prelude CInt Package BufferStream Codec.

Definition BDT_ENDPOINT_PROTOCOL_UNK : Z := Z.shiftl 1 0.
Definition BDT_ENDPOINT_PROTOCOL_TCP : Z := Z.shiftl 1 1.
Definition BDT_ENDPOINT_PROTOCOL_UDP : Z := Z.shiftl 1 2.
Definition BDT_ENDPOINT_IP_VERSION_UNK : Z := Z.shiftl 1 0.
Definition BDT_ENDPOINT_IP_VERSION_4 : Z := Z.shiftl 1 3.
Definition BDT_ENDPOINT_IP_VERSION_6 : Z := Z.shiftl 1 4.
Definition BDT_ENDPOINT_FLAG_STATIC_WAN : Z := Z.shiftl 1 6.
Definition BDT_ENDPOINT_FLAG_SIGNED : Z := Z.shiftl 1 7.

(** [ep_address] are the 16 bytes of the union. *)
Record BdtEndpoint := mkEndpoint { ep_flag : Z; ep_port : Z; ep_address : list Z }.

Definition BdtEndpointIsSameIpVersion (l r : BdtEndpoint) : bool :=
  (has_flag (ep_flag l) BDT_ENDPOINT_IP_VERSION_4 && has_flag (ep_flag r) BDT_ENDPOINT_IP_VERSION_4) ||
  (has_flag (ep_flag l) BDT_ENDPOINT_IP_VERSION_6 && has_flag (ep_flag r) BDT_ENDPOINT_IP_VERSION_6).

Definition BDT_ENDPOINT_COMPARE_FLAG : Z :=
  Z.lor (Z.lor (Z.lor (Z.lor (Z.lor BDT_ENDPOINT_IP_VERSION_4 BDT_ENDPOINT_IP_VERSION_6) BDT_ENDPOINT_IP_VERSION_UNK)
    BDT_ENDPOINT_PROTOCOL_TCP) BDT_ENDPOINT_PROTOCOL_UDP) BDT_ENDPOINT_PROTOCOL_UNK.

(** The sign of [memcmp] on arrays of the same length. *)
Fixpoint memcmp (a b : list Z) : Z :=
  match a, b with
  | x :: a, y :: b => if x <? y then -1 else if y <? x then 1 else memcmp a b
  | _, _ => 0
  end.

Definition BdtEndpointCompare (l r : BdtEndpoint) (ignorePort : bool) : Z :=
  let leftFlag := Z.land (ep_flag l) BDT_ENDPOINT_COMPARE_FLAG in
  let rightFlag := Z.land (ep_flag r) BDT_ENDPOINT_COMPARE_FLAG in
  if leftFlag <? rightFlag then -1 else
  if rightFlag <? leftFlag then 1 else
  let result :=
    if has_flag leftFlag BDT_ENDPOINT_IP_VERSION_4
    then memcmp (take 4 (ep_address l)) (take 4 (ep_address r))
    else memcmp (ep_address l) (ep_address r) in
  if negb (result =? 0) then result else
  if ignorePort then result else
  if ep_port l =? ep_port r then 0 else if ep_port r <? ep_port l then 1 else -1.

Fixpoint BdtEndpointArrayIsEqual (lefts rights : list BdtEndpoint) : bool :=
  match lefts, rights with
  | [], [] => true
  | l :: lefts, r :: rights =>
      if negb (BdtEndpointCompare l r false =? 0) then false else BdtEndpointArrayIsEqual lefts rights
  | _, _ => false
  end.

(** ** On the wire *)

Definition enc_endpoint (ep : BdtEndpoint) : Enc :=
  enc_write (BfxBufferWriteUInt8 (ep_flag ep)) >>>
  enc_write (BfxBufferWriteUInt16 (ep_port ep)) >>>
  (if has_flag (ep_flag ep) BDT_ENDPOINT_IP_VERSION_4
   then enc_write (BfxBufferWriteByteArray (take 4 (ep_address ep)))
   else enc_write (BfxBufferWriteByteArray (take 16 (ep_address ep)))).

Fixpoint enc_endpoints (list : list BdtEndpoint) : Enc :=
  match list with [] => enc_skip | ep :: list => enc_endpoint ep >>> enc_endpoints list end.

(** A function that writes several fields and reports their total. *)
Definition enc_run (m : Enc) : Write := λ s,
  '(r, e) ← m (mkEnc s 0 0);
  Some (r, if r =? BFX_RESULT_SUCCESS then en_total e else 0%nat, en_stream e).

Definition Bdt_BufferWriteEndpointArray (list : list BdtEndpoint) : Write :=
  enc_run (enc_write (BfxBufferWriteUInt16 (u16 (Z.of_nat (length list)))) >>> enc_endpoints list).

Section Read.

(** What is on the stack where [BdtEndpoint ep] lies: the bytes of the union
    behind an address of four bytes. *)
Context (uninit : list Z).

Definition dec_endpoint : Dec BdtEndpoint :=
  flag ← dec_read BfxBufferReadUInt8;
  port ← dec_read BfxBufferReadUInt16;
  address ← (if has_flag flag BDT_ENDPOINT_IP_VERSION_4
             then (a ← dec_read (BfxBufferReadByteArray 4); mret (a ++ uninit))
             else dec_read (BfxBufferReadByteArray 16));
  mret (mkEndpoint flag port address).

Fixpoint dec_endpoints (n : nat) : Dec (list BdtEndpoint) :=
  match n with
  | O => mret []
  | S n => ep ← dec_endpoint; list ← dec_endpoints n; mret (ep :: list)
  end.

(** The array's entries, when the rest of the stream can hold them. *)
Definition dec_sized (arraySize : Z) : Dec (list BdtEndpoint) := λ d,
  tail ← BfxBufferStreamGetTailLength (de_stream d);
  if Z.of_nat tail <? arraySize * 6 then Some (None, d) else dec_endpoints (Z.to_nat arraySize) d.

Definition dec_endpoint_array : Dec (list BdtEndpoint) :=
  arraySize ← dec_read BfxBufferReadUInt16;
  dec_sized arraySize.

(** A function that reads several fields: 0 when one is missing, whose array
    nobody looks at. *)
Definition dec_run {A} (m : Dec A) (failed : A) : Read A := λ s,
  '(o, d) ← m (mkDec s 0);
  Some (match o with Some a => (de_read d, a) | None => (0, failed) end, de_stream d).

Definition Bdt_BufferReadEndpointArray : Read (list BdtEndpoint) := dec_run dec_endpoint_array [].

End Read.

(** ** Endpoints that compare as equal *)

Lemma memcmp_eq a b : length a = length b → memcmp a b = 0 ↔ a = b.
Proof.
  revert b. induction a as [|x a IH]; intros [|y b]; cbn [length memcmp]; try done.
  intros Hl. destruct (Z.ltb_spec x y); [split; [done|intros [=]; lia]|].
  destruct (Z.ltb_spec y x); [split; [done|intros [=]; lia]|].
  rewrite IH by lia. assert (x = y) as -> by lia. split; [by intros ->|by intros [= ->]].
Qed.

Definition endpoint_ok (ep : BdtEndpoint) : Prop :=
  0 ≤ ep_flag ep < 2 ^ 8 ∧ 0 ≤ ep_port ep < 2 ^ 16 ∧ length (ep_address ep) = 16%nat.

(** What [BdtEndpointCompare] looks at. *)
Definition compared (ep : BdtEndpoint) : Z * Z * list Z :=
  let flag := Z.land (ep_flag ep) BDT_ENDPOINT_COMPARE_FLAG in
  (flag, ep_port ep, if has_flag flag BDT_ENDPOINT_IP_VERSION_4 then take 4 (ep_address ep) else ep_address ep).

Definition same_endpoint (a b : BdtEndpoint) : Prop := compared a = compared b.

#[export] Instance same_endpoint_equivalence : Equivalence same_endpoint.
Proof. unfold same_endpoint. split; [by intros ?|by intros ? ?|by intros ? ? ? -> ->]. Qed.

(** Equality of the results of a comparison. *)
Lemma BdtEndpointCompare_same a b :
  length (ep_address a) = 16%nat → length (ep_address b) = 16%nat →
  BdtEndpointCompare a b false = 0 ↔ same_endpoint a b.
Proof.
  intros Ha Hb. unfold BdtEndpointCompare, same_endpoint, compared.
  set (fa := Z.land (ep_flag a) _). set (fb := Z.land (ep_flag b) _).
  destruct (Z.ltb_spec fa fb); [split; [done|intros [=]; lia]|].
  destruct (Z.ltb_spec fb fa); [split; [done|intros [=]; lia]|].
  assert (fa = fb) as <- by lia.
  set (ra := if has_flag fa _ then take 4 (ep_address a) else ep_address a).
  set (rb := if has_flag fa _ then take 4 (ep_address b) else ep_address b).
  assert (Hr : (if has_flag fa BDT_ENDPOINT_IP_VERSION_4 then memcmp (take 4 (ep_address a)) (take 4 (ep_address b))
                else memcmp (ep_address a) (ep_address b)) = 0 ↔ ra = rb).
  { unfold ra, rb. destruct (has_flag fa _); apply memcmp_eq; rewrite ?length_take; lia. }
  set (c := if has_flag fa _ then memcmp _ _ else memcmp _ _) in *.
  destruct (Z.eqb_spec c 0) as [E|E]; cbn [negb].
  - apply Hr in E as ->. destruct (Z.eqb_spec (ep_port a) (ep_port b)) as [->|Hp]; [done|].
    split; [destruct (_ <? _); lia|intros [=]; lia].
  - split; [done|]. intros [= _ E']. by apply Hr in E'.
Qed.

Lemma BdtEndpointArrayIsEqual_same a b :
  Forall endpoint_ok a → Forall endpoint_ok b → BdtEndpointArrayIsEqual a b = true ↔ Forall2 same_endpoint a b.
Proof.
  intros Ha. revert b. induction Ha as [|x a Hx Ha IH]; intros [|y b] Hb; cbn [BdtEndpointArrayIsEqual].
  - by split.
  - by split; [done|intros ?%Forall2_nil_cons_inv].
  - by split; [done|intros ?%Forall2_cons_nil_inv].
  - apply Forall_cons in Hb as [Hy Hb]. rewrite Forall2_cons, <- IH by done.
    rewrite <- (BdtEndpointCompare_same x y) by (apply Hx || apply Hy).
    destruct (Z.eqb_spec (BdtEndpointCompare x y false) 0) as [E|E]; cbn [negb]; tauto || (split; [done|]).
    by intros [? _].
Qed.

(** ** The format of an array *)

Definition endpoint_bytes (ep : BdtEndpoint) : list Z :=
  le_bytes 1 (ep_flag ep) ++ le_bytes 2 (ep_port ep) ++
  (if has_flag (ep_flag ep) BDT_ENDPOINT_IP_VERSION_4 then take 4 (ep_address ep) else take 16 (ep_address ep)).

Definition endpoints_bytes (l : list BdtEndpoint) : list Z :=
  le_bytes 2 (Z.of_nat (length l)) ++ concat (endpoint_bytes <$> l).

Lemma emits_endpoint f ep : emits (enc_endpoint ep) f (endpoint_bytes ep) f.
Proof.
  unfold enc_endpoint, endpoint_bytes. eapply emits_then; [apply emits_write, writes_u8|].
  eapply emits_then; [apply emits_write, writes_u16|]. destruct (has_flag _ _); apply emits_write, writes_bytes.
Qed.

Lemma emits_endpoints f l : emits (enc_endpoints l) f (concat (endpoint_bytes <$> l)) f.
Proof.
  induction l as [|ep l IH]; [apply emits_skip|]. rewrite fmap_cons. cbn [concat enc_endpoints].
  eapply emits_then; [apply emits_endpoint|done].
Qed.

Lemma writes_run m bs f : emits m 0 bs f → writes (enc_run m) bs.
Proof. intros Hm s Hr. unfold enc_run. rewrite Hm by done. done. Qed.

Lemma writes_endpoints l :
  Z.of_nat (length l) < 2 ^ 16 → writes (Bdt_BufferWriteEndpointArray l) (endpoints_bytes l).
Proof.
  intros Hl. unfold Bdt_BufferWriteEndpointArray. apply (writes_run _ _ 0). rewrite u16_id by lia.
  eapply emits_then; [apply emits_write, writes_u16|apply emits_endpoints].
Qed.

Definition received_endpoint (uninit : list Z) (ep : BdtEndpoint) : BdtEndpoint :=
  mkEndpoint (ep_flag ep) (ep_port ep)
    (if has_flag (ep_flag ep) BDT_ENDPOINT_IP_VERSION_4 then take 4 (ep_address ep) ++ uninit else ep_address ep).

Lemma parses_endpoint uninit ep :
  endpoint_ok ep → parses (dec_endpoint uninit) (endpoint_bytes ep) (received_endpoint uninit ep).
Proof.
  intros (Hf & Hp & Ha). unfold dec_endpoint, endpoint_bytes, received_endpoint.
  eapply parses_bind; [by apply parses_u8|]. eapply parses_bind; [by apply parses_u16|].
  eapply (parses_map _ (mkEndpoint _ _)). destruct (has_flag _ _).
  - eapply (parses_map _ (λ a, a ++ uninit)).
    assert (Hl : length (take 4 (ep_address ep)) = 4%nat) by (rewrite length_take; lia).
    pose proof (parses_bytes (take 4 (ep_address ep))) as Hb. rewrite Hl in Hb. apply Hb. lia.
  - rewrite take_ge by lia. pose proof (parses_bytes (ep_address ep)) as Hb. rewrite Ha in Hb. apply Hb. lia.
Qed.

Lemma parses_endpoints uninit l :
  Forall endpoint_ok l →
  parses (dec_endpoints uninit (length l)) (concat (endpoint_bytes <$> l)) (received_endpoint uninit <$> l).
Proof.
  induction 1 as [|ep l He _ IH]; [apply parses_ret|]. rewrite !fmap_cons. cbn [concat dec_endpoints length].
  eapply parses_bind; [by apply parses_endpoint|]. by eapply (parses_map _ (cons _)).
Qed.

Lemma parses_run {A} (m : Dec A) failed bs a :
  parses m bs a → (0 < length bs)%nat → parses (dec_read (dec_run m failed)) bs a.
Proof.
  intros Hm Hb n s rest Hr. unfold dec_read, dec_run. cbn [de_stream de_read].
  rewrite (Hm 0 _ _ Hr). cbn [mbind option_bind de_read de_stream]. destruct (Z.leb_spec (0 + Z.of_nat (length bs)) 0); [lia|].
  by rewrite Z.add_0_l.
Qed.

Lemma length_endpoint_bytes ep : endpoint_ok ep → (7 ≤ length (endpoint_bytes ep))%nat.
Proof.
  intros (_ & _ & Ha). unfold endpoint_bytes. rewrite !length_app, !length_le_bytes.
  destruct (has_flag _ _); rewrite length_take; lia.
Qed.

Lemma length_endpoints_bytes l :
  Forall endpoint_ok l → (6 * length l ≤ length (concat (endpoint_bytes <$> l)))%nat.
Proof.
  induction 1 as [|ep l He _ IH]; [done|]. rewrite fmap_cons. cbn [concat length].
  rewrite length_app. pose proof (length_endpoint_bytes ep He). lia.
Qed.

Lemma parses_endpoint_array uninit l :
  Forall endpoint_ok l → Z.of_nat (length l) < 2 ^ 16 →
  parses (dec_read (Bdt_BufferReadEndpointArray uninit)) (endpoints_bytes l) (received_endpoint uninit <$> l).
Proof.
  intros Hok Hl. apply parses_run; [|unfold endpoints_bytes; rewrite length_app, length_le_bytes; lia].
  unfold dec_endpoint_array, endpoints_bytes. eapply parses_bind; [apply parses_u16; lia|].
  intros n s rest Hr. unfold dec_sized. cbn [de_stream]. pose proof Hr as (Hr1 & Hr2 & Hr3). unfold BfxBufferStreamGetTailLength.
  rewrite option_guard_True by lia. cbn [mbind option_bind]. pose proof (length_endpoints_bytes l Hok).
  destruct (Z.ltb_spec (Z.of_nat (bs_length s - bs_pos s)) (Z.of_nat (length l) * 6)); [lia|].
  rewrite Nat2Z.id. by apply (parses_endpoints uninit l Hok n s rest).
Qed.

Lemma received_endpoint_same uninit ep : endpoint_ok ep → same_endpoint ep (received_endpoint uninit ep).
Proof.
  intros (_ & _ & Ha). unfold same_endpoint, compared, received_endpoint. cbn [ep_flag ep_port ep_address].
  assert (E : has_flag (Z.land (ep_flag ep) BDT_ENDPOINT_COMPARE_FLAG) BDT_ENDPOINT_IP_VERSION_4 =
              has_flag (ep_flag ep) BDT_ENDPOINT_IP_VERSION_4).
  { unfold BDT_ENDPOINT_IP_VERSION_4. rewrite !has_flag_bit, Z.land_spec by lia.
    change (Z.testbit BDT_ENDPOINT_COMPARE_FLAG 3) with true. apply andb_true_r. }
  rewrite E. destruct (has_flag (ep_flag ep) BDT_ENDPOINT_IP_VERSION_4); [|reflexivity]. f_equal.
  rewrite take_app_le, take_take by (rewrite length_take; lia).
  done.
Qed.
