(* ===== verification/EndpointString.v ===== *)
(** * Endpoints as strings and as socket addresses

    [BdtEndpointToString], [BdtEndpointFromString] and the conversions from and
    to [struct sockaddr] of [BDTCore/Global/Endpoint.imp.inl].  A string is the
    memory from its first character on, with the NUL and what lies behind it:
    reading behind the end of that memory is a fault ([None]).  Characters are
    bytes; a character that is not ASCII is no letter and no digit.  [sprintf]
    of [%u] and [%x] and [atoi] are those of the C library for numbers that fit
    an [int]. *)

From S2P Require Import Prelude CInt Package BufferStream Codec Endpoint.

(** ** The C library *)

Definition is_digit (c : Z) : bool := (48 <=? c) && (c <=? 57).
Definition isupper (c : Z) : bool := (65 <=? c) && (c <=? 90).
Definition isalpha (c : Z) : bool := isupper c || ((97 <=? c) && (c <=? 122)).
Definition isalnum (c : Z) : bool := isalpha c || is_digit c.
Definition isspace (c : Z) : bool := (c =? 32) || ((9 <=? c) && (c <=? 13)).

Fixpoint atoi_digits (acc : Z) (s : list Z) : option Z :=
  match s with
  | [] => None
  | c :: s => if is_digit c then atoi_digits (10 * acc + (c - 48)) s else Some acc
  end.

Fixpoint atoi (s : list Z) : option Z :=
  match s with
  | [] => None
  | c :: s' =>
      if isspace c then atoi s'
      else if c =? 45 then Z.opp <$> atoi_digits 0 s'
      else if c =? 43 then atoi_digits 0 s'
      else atoi_digits 0 s
  end.

(** The character of a digit, of which letters are small. *)
Definition digit (d : Z) : Z := if d <? 10 then 48 + d else 87 + d.

(** A number in a base, most significant digit first. *)
Fixpoint number (fuel : nat) (base n : Z) : list Z :=
  match fuel with
  | O => []
  | S fuel => if n <? base then [digit n] else number fuel base (n / base) ++ [digit (n mod base)]
  end.

(** [%u] and [%x] of a number of 32 bits: at most 10 digits. *)
Definition print_u (n : Z) : list Z := number 10 10 n.
Definition print_x (n : Z) : list Z := number 10 16 n.

(** Some bytes of a memory. *)
Definition bytes_at (str : list Z) (offset n : nat) : option (list Z) :=
  if decide (offset + n ≤ length str)%nat then Some (take n (drop offset str)) else None.

(** ** To a string *)

Definition bdtEndpointStrIpv4 : list Z := [118; 52].
Definition bdtEndpointStrIpv6 : list Z := [118; 54].
Definition bdtEndpointStrPtlUnk : list Z := [117; 110; 107].
Definition bdtEndpointStrPtlTcp : list Z := [116; 99; 112].
Definition bdtEndpointStrPtlUdp : list Z := [117; 100; 112].
Definition BDT_ENDPOINT_STRING_MAX_LENGTH : nat := 53.

Definition dot : Z := 46.
Definition colon : Z := 58.
Definition open_bracket : Z := 91.
Definition close_bracket : Z := 93.

Definition protocol_name (flag : Z) : list Z :=
  if has_flag flag BDT_ENDPOINT_PROTOCOL_TCP then bdtEndpointStrPtlTcp
  else if has_flag flag BDT_ENDPOINT_PROTOCOL_UDP then bdtEndpointStrPtlUdp
  else bdtEndpointStrPtlUnk.

Definition byte_at (l : list Z) (i : nat) : Z := default 0 (l !! i).

(** The eight parts of an address. *)
Definition address_parts (addressV6 : list Z) : list Z :=
  (λ ix, u16 (Z.shiftl (byte_at addressV6 (2 * ix)) 8 + byte_at addressV6 (2 * ix + 1))) <$> seq 0 8.

(** How many parts are zero from here on. *)
Fixpoint zero_run (address : list Z) : nat :=
  match address with x :: address => if x =? 0 then S (zero_run address) else 0%nat | [] => 0%nat end.

(** Where the first zeros begin and end. *)
Fixpoint zero_parts (ix : nat) (address : list Z) : option (nat * nat) :=
  match address with
  | [] => None
  | x :: rest => if x =? 0 then Some (ix, ix + zero_run address)%nat else zero_parts (S ix) rest
  end.

Definition print_parts_after (parts : list Z) : list Z := mjoin ((λ x, print_x x ++ [colon]) <$> parts).
Definition print_parts_before (parts : list Z) : list Z := mjoin ((λ x, colon :: print_x x) <$> parts).

Definition print_v6 (address : list Z) : list Z :=
  match zero_parts 0 address with
  | None => print_parts_after (take 7 address) ++ print_x (byte_at address 7)
  | Some (zeroStart, zeroEnd) =>
      (if decide (zeroStart = 0%nat) then [colon] else print_parts_after (take zeroStart address)) ++
      (if decide (zeroEnd = 8%nat) then [colon] else print_parts_before (drop zeroEnd address))
  end.

(** The characters in front of the NUL; [name] has room for 53. *)
Definition BdtEndpointToString (ep : BdtEndpoint) : option (list Z) :=
  let ptl := protocol_name (ep_flag ep) in
  let name :=
    if has_flag (ep_flag ep) BDT_ENDPOINT_IP_VERSION_4 then
      bdtEndpointStrIpv4 ++ ptl ++ print_u (byte_at (ep_address ep) 0) ++ [dot] ++ print_u (byte_at (ep_address ep) 1) ++ [dot] ++
      print_u (byte_at (ep_address ep) 2) ++ [dot] ++ print_u (byte_at (ep_address ep) 3) ++ [colon] ++ print_u (ep_port ep)
    else if has_flag (ep_flag ep) BDT_ENDPOINT_IP_VERSION_6 then
      bdtEndpointStrIpv6 ++ ptl ++ [open_bracket] ++ print_v6 (address_parts (ep_address ep)) ++ [close_bracket; colon] ++ print_u (ep_port ep)
    else [] in
  if decide (length name ≤ BDT_ENDPOINT_STRING_MAX_LENGTH)%nat then Some name else None.

(** ** From a string *)

(** The result and the endpoint. *)
Definition Parsed : Type := Z * BdtEndpoint.
Definition BFX_RESULT_INVALID_FORMAT : Z := 23.

(** The characters up to [split]: at most three. *)
Fixpoint v4_part (room : nat) (split : Z) (u8 s : list Z) : option (option (list Z)) :=
  match s with
  | [] => None
  | c :: s => if c =? split then Some (Some u8) else match room with O => Some None | S room => v4_part room split (u8 ++ [c]) s end
  end.

Fixpoint v4_parts (splits : list Z) (ix : nat) (str : list Z) (endpoint : BdtEndpoint) : option Parsed :=
  match splits with
  | [] => Some (BFX_RESULT_SUCCESS, endpoint)
  | split :: splits =>
      part ← v4_part 3 split [] str;
      match part with
      | None | Some [] => Some (BFX_RESULT_INVALID_FORMAT, endpoint)
      | Some part =>
          value ← atoi (part ++ [0]);
          let str := drop (length part + 1) str in
          port ← atoi str;
          v4_parts splits (S ix) str (mkEndpoint (ep_flag endpoint) (u16 port) (<[ix := u8 value]> (ep_address endpoint)))
      end
  end.

(** Up to four digits; a letter behind [f] is one as well. *)
Fixpoint v6_digits (room : nat) (s : list Z) : option (list Z) :=
  match room with
  | O => Some []
  | S room =>
      match s with
      | [] => None
      | c :: s =>
          if isalpha c then digits ← v6_digits room s; Some (u8 (10 + (c - (if isupper c then 65 else 97))) :: digits)
          else if isalnum c then digits ← v6_digits room s; Some (c - 48 :: digits)
          else Some []
      end
  end.

Definition v6_value (digits : list Z) (old : Z) : Z :=
  foldl (λ address ix, u16 (address + Z.shiftl (byte_at digits ix) (4 * Z.of_nat (length digits - 1 - ix)))) old (seq 0 (length digits)).

(** The state of the loop over the parts: the offset, [zeroStart], the number
    of parts and the parts; [inl] is a return. *)
Definition V6State : Type := nat * option nat * nat * list Z.

(** The answer [None] is a fault or the end of the fuel. *)
Fixpoint v6_parts (fuel : nat) (str : list Z) (s : V6State) : option (unit + V6State) :=
  match fuel with
  | O => None
  | S fuel =>
      let '(offset, zeroStart, parts, address) := s in
      c ← str !! offset;
      if c =? colon then
        match zeroStart with
        | None => v6_parts fuel str (S offset, Some parts, parts, address)
        | Some _ => Some (inl tt)
        end
      else if c =? close_bracket then Some (inr (S offset, zeroStart, parts, address))
      else
        digits ← v6_digits 4 (drop offset str);
        let offset := (offset + length digits)%nat in
        c ← str !! offset;
        if (c =? colon) || (c =? close_bracket) then
          match digits with
          | [] => match zeroStart with Some _ => Some (inl tt) | None => v6_parts fuel str (offset, Some parts, parts, address) end
          | _ =>
              old ← address !! parts;
              let address := <[parts := v6_value digits old]> address in
              let offset := S offset in
              let parts := S parts in
              if c =? close_bracket then Some (inr (offset, zeroStart, parts, address))
              else if decide (parts = 8%nat) then Some (inl tt)
              else v6_parts fuel str (offset, zeroStart, parts, address)
          end
        else Some (inl tt)
  end.

(** A part in the order of the network. *)
Definition part_bytes (x : Z) : list Z := [u8 (Z.shiftr x 8); u8 x].

(** The parts with the zeros where [::] was; [None]: too few or too many. *)
Definition expand_parts (zeroStart : option nat) (parts : nat) (address : list Z) : option (list Z) :=
  match zeroStart with
  | None => if decide (parts < 8)%nat then None else Some (mjoin (part_bytes <$> address))
  | Some z =>
      if decide (parts = 8%nat) then None
      else Some (mjoin (part_bytes <$> take z address) ++ replicate (2 * (8 - parts)) 0 ++ mjoin (part_bytes <$> take (parts - z) (drop z address)))
  end.

(** Where [parse_v6] starts to read parts: one colon alone is refused. *)
Definition v6_start (str : list Z) (offset : nat) : option (option nat) :=
  c ← str !! offset;
  if c =? colon then c' ← str !! S offset; Some (if c' =? colon then Some (S offset) else None) else Some (Some offset).

Definition parse_v6 (str : list Z) (offset : nat) (endpoint : BdtEndpoint) : option Parsed :=
  let invalid := Some (BFX_RESULT_INVALID_FORMAT, endpoint) in
  c ← str !! offset;
  if negb (c =? open_bracket) then invalid else
  let offset := S offset in
  start ← v6_start str offset;
  match start with
  | None => invalid
  | Some offset =>
      parsed ← v6_parts (S (length str)) str (offset, None, 0%nat, replicate 8 0);
      match parsed with
      | inl _ => invalid
      | inr (offset, zeroStart, parts, address) =>
          match expand_parts zeroStart parts address with
          | None => invalid
          | Some addressV6 =>
              let endpoint := mkEndpoint (ep_flag endpoint) (ep_port endpoint) addressV6 in
              c ← str !! offset;
              if negb (c =? colon) then Some (BFX_RESULT_INVALID_FORMAT, endpoint) else
              port ← atoi (drop (S offset) str);
              Some (BFX_RESULT_SUCCESS, mkEndpoint (ep_flag endpoint) (u16 port) addressV6)
          end
      end
  end.

Definition BdtEndpointFromString (str : list Z) : option Parsed :=
  ipv ← bytes_at str 0 2;
  let version :=
    if decide (ipv = bdtEndpointStrIpv4) then BDT_ENDPOINT_IP_VERSION_4
    else if decide (ipv = bdtEndpointStrIpv6) then BDT_ENDPOINT_IP_VERSION_6 else 0 in
  ptl ← bytes_at str 2 3;
  let protocol :=
    if decide (ptl = bdtEndpointStrPtlTcp) then BDT_ENDPOINT_PROTOCOL_TCP
    else if decide (ptl = bdtEndpointStrPtlUdp) then BDT_ENDPOINT_PROTOCOL_UDP else 0 in
  let endpoint := mkEndpoint (Z.lor version protocol) 0 (replicate 16 0) in
  if has_flag (ep_flag endpoint) BDT_ENDPOINT_IP_VERSION_4 then v4_parts [dot; dot; dot; colon] 0 (drop 5 str) endpoint
  else if has_flag (ep_flag endpoint) BDT_ENDPOINT_IP_VERSION_6 then parse_v6 str 5 endpoint
  else Some (BFX_RESULT_SUCCESS, endpoint).

(** ** Socket addresses *)

Section sockaddr.
(** The families differ between systems. *)
Context (AF_INET AF_INET6 : Z).

(** The fields that [sockaddr_in] and [sockaddr_in6] have in common, the port
    as a number of the host. *)
Record sockaddr := mkSockaddr { sa_family : Z; sa_port : Z; sa_addr : list Z }.

Definition htons (x : Z) : Z := Z.lor (Z.shiftl (Z.land x 255) 8) (Z.shiftr x 8).

(** [addr] is what it was when the endpoint has no version. *)
Definition BdtEndpointToSockAddr (ep : BdtEndpoint) (addr : sockaddr) : Z * sockaddr :=
  if has_flag (ep_flag ep) BDT_ENDPOINT_IP_VERSION_4 then (0, mkSockaddr AF_INET (htons (ep_port ep)) (take 4 (ep_address ep)))
  else if has_flag (ep_flag ep) BDT_ENDPOINT_IP_VERSION_6 then (0, mkSockaddr AF_INET6 (htons (ep_port ep)) (take 16 (ep_address ep)))
  else (BFX_RESULT_INVALID_PARAM, addr).

(** The result is 0 in any case. *)
Definition SockAddrToBdtEndpoint (addr : sockaddr) (protocol : Z) : Z * BdtEndpoint :=
  let '(flag, port, address) :=
    if decide (sa_family addr = AF_INET) then (BDT_ENDPOINT_IP_VERSION_4, htons (sa_port addr), take 4 (sa_addr addr) ++ replicate 12 0)
    else if decide (sa_family addr = AF_INET6) then (BDT_ENDPOINT_IP_VERSION_6, htons (sa_port addr), take 16 (sa_addr addr))
    else (0, 0, replicate 16 0) in
  (0, mkEndpoint (u8 (Z.lor flag (Z.land protocol (Z.lor (Z.lor BDT_ENDPOINT_PROTOCOL_UNK BDT_ENDPOINT_PROTOCOL_TCP) BDT_ENDPOINT_PROTOCOL_UDP)))) port address).

Definition BdtEndpointGetFamily (AF_UNSPEC : Z) (ep : BdtEndpoint) : Z :=
  if has_flag (ep_flag ep) BDT_ENDPOINT_IP_VERSION_4 then AF_INET
  else if has_flag (ep_flag ep) BDT_ENDPOINT_IP_VERSION_6 then AF_INET6 else AF_UNSPEC.
End sockaddr.
