(* ===== verification/EndpointProofs.v ===== *)
(** * Endpoints as strings and as socket addresses: the round trips

    What [BdtEndpointToString] prints [BdtEndpointFromString] reads: numbers in
    a base, the four numbers of version 4, and the parts of version 6 with the
    first zeros left out; and the conversions from and to socket addresses. *)

From S2P Require Import Prelude CInt Package BufferStream Codec Endpoint EndpointString.

(** ** Numbers that are printed and read *)

(** The digits of a number. *)
Fixpoint digits_of (fuel : nat) (base n : Z) : list Z :=
  match fuel with
  | O => []
  | S fuel => if n <? base then [n] else digits_of fuel base (n / base) ++ [n mod base]
  end.

Lemma number_digits fuel base n : number fuel base n = digit <$> digits_of fuel base n.
Proof.
  revert n. induction fuel as [|fuel IH]; intros n; [done|]. cbn. case_match; [done|]. by rewrite IH, fmap_app.
Qed.

Lemma digits_of_ok fuel base n :
  2 ≤ base → 0 ≤ n < base ^ Z.of_nat fuel → (0 < fuel)%nat →
  Forall (λ d, 0 ≤ d < base) (digits_of fuel base n) ∧ foldl (λ a d, base * a + d) 0 (digits_of fuel base n) = n ∧ digits_of fuel base n ≠ [].
Proof.
  intros Hb. revert n. induction fuel as [|fuel IH]; intros n Hn Hf; [lia|]. cbn [digits_of].
  destruct (Z.ltb_spec n base) as [Hlt|Hge]; [split_and!; [by repeat constructor; lia|cbn; lia|done]|].
  assert (Hp : base ^ Z.of_nat (S fuel) = base * base ^ Z.of_nat fuel) by (rewrite Nat2Z.inj_succ, Z.pow_succ_r; lia).
  pose proof (Z.div_mod n base ltac:(lia)) as Hd. pose proof (Z.mod_pos_bound n base ltac:(lia)) as Hm.
  assert (Hq : 0 ≤ n / base < base ^ Z.of_nat fuel).
  { split; [apply Z.div_pos; lia|]. apply Z.div_lt_upper_bound; lia. }
  destruct (decide (fuel = 0%nat)) as [->|Hf0]; [cbn in Hp; lia|].
  destruct (IH (n / base) Hq ltac:(lia)) as (H1 & H2 & H3). split; [|split].
  - apply Forall_app. split; [done|]. by constructor.
  - rewrite foldl_app, H2. cbn. lia.
  - by destruct (digits_of fuel base (n / base)).
Qed.

Lemma digits_of_length fuel base n k :
  2 ≤ base → 0 ≤ n < base ^ Z.of_nat k → (0 < k)%nat → (length (digits_of fuel base n) ≤ k)%nat.
Proof.
  intros Hb. revert n k. induction fuel as [|fuel IH]; intros n k Hn Hk; [cbn; lia|]. cbn [digits_of].
  destruct (Z.ltb_spec n base) as [Hlt|Hge]; [cbn; lia|]. rewrite length_app. cbn.
  destruct k as [|[|k]]; [lia|cbn in Hn; lia|].
  assert (Hp : base ^ Z.of_nat (S (S k)) = base * base ^ Z.of_nat (S k)) by (rewrite (Nat2Z.inj_succ (S k)), Z.pow_succ_r; lia).
  specialize (IH (n / base) (S k)). assert (Hq : 0 ≤ n / base < base ^ Z.of_nat (S k)).
  { split; [apply Z.div_pos; lia|]. apply Z.div_lt_upper_bound; lia. }
  specialize (IH Hq ltac:(lia)). lia.
Qed.

Lemma digit_is_digit d : 0 ≤ d < 10 → is_digit (digit d) = true ∧ digit d - 48 = d.
Proof. intros Hd. unfold digit, is_digit. destruct (Z.ltb_spec d 10); [|lia]. split; [|lia]. apply andb_true_iff. split; apply Z.leb_le; lia. Qed.

Lemma atoi_digits_read ds acc c rest :
  Forall (λ d, 0 ≤ d < 10) ds → is_digit c = false →
  atoi_digits acc ((digit <$> ds) ++ c :: rest) = Some (foldl (λ a d, 10 * a + d) acc ds).
Proof.
  intros Hds Hc. revert acc. induction Hds as [|d ds Hd _ IH]; intros acc; cbn; [by rewrite Hc|].
  destruct (digit_is_digit d Hd) as [-> ->]. apply IH.
Qed.

Lemma atoi_digit ds c rest : ds ≠ [] → Forall (λ d, 0 ≤ d < 10) ds → is_digit c = false →
  atoi ((digit <$> ds) ++ c :: rest) = Some (foldl (λ a d, 10 * a + d) 0 ds).
Proof.
  intros Hne Hds Hc. rewrite <- (atoi_digits_read ds 0 c rest Hds Hc). destruct Hds as [|d ds Hd Hds]; [done|].
  cbn [fmap list_fmap app atoi]. destruct (digit_is_digit d Hd) as [H1 H2]. unfold is_digit in H1.
  apply andb_true_iff in H1 as [H3%Z.leb_le H4%Z.leb_le]. unfold isspace.
  destruct (Z.eqb_spec (digit d) 32), (Z.leb_spec 9 (digit d)), (Z.leb_spec (digit d) 13), (Z.eqb_spec (digit d) 45), (Z.eqb_spec (digit d) 43); done || lia.
Qed.

(** A printed number is read, whatever is behind it that is no digit. *)
Lemma atoi_print n c rest : 0 ≤ n < 10 ^ 10 → is_digit c = false → atoi (print_u n ++ c :: rest) = Some n.
Proof.
  intros Hn Hc. destruct (digits_of_ok 10 10 n) as (H1 & H2 & H3); [lia|exact Hn|lia|].
  unfold print_u. rewrite number_digits. rewrite atoi_digit; [by rewrite H2|done..].
Qed.

Lemma print_u_chars n : 0 ≤ n < 10 ^ 10 → Forall (λ c, is_digit c = true) (print_u n) ∧ print_u n ≠ [].
Proof.
  intros Hn. destruct (digits_of_ok 10 10 n) as (H1 & _ & H3); [lia|exact Hn|lia|]. unfold print_u. rewrite number_digits. split.
  - apply Forall_fmap. eapply Forall_impl; [exact H1|]. intros d Hd. by apply digit_is_digit.
  - by destruct (digits_of 10 10 n).
Qed.

Lemma print_u_length n k : 0 ≤ n < 10 ^ Z.of_nat k → (0 < k)%nat → (length (print_u n) ≤ k)%nat.
Proof. intros Hn Hk. unfold print_u. rewrite number_digits, length_fmap. by apply digits_of_length. Qed.

(** ** IP version 4 *)

Lemma v4_part_read room split a u8 rest :
  (length a ≤ room)%nat → Forall (λ c, c ≠ split) a → v4_part room split u8 (a ++ split :: rest) = Some (Some (u8 ++ a)).
Proof.
  intros Hlen Ha. revert room u8 Hlen. induction Ha as [|c a Hc _ IH]; intros room u8 Hlen; cbn [app].
  - destruct room; cbn [v4_part]; by rewrite Z.eqb_refl, app_nil_r.
  - destruct room as [|room]; [cbn in Hlen; lia|]. cbn [v4_part]. destruct (Z.eqb_spec c split) as [->|_]; [done|].
    rewrite IH by (cbn in Hlen; lia). by rewrite <- app_assoc.
Qed.

(** One number of the address and what is behind it. *)
Lemma v4_parts_step n split splits ix rest endpoint port :
  0 ≤ n < 256 → split = dot ∨ split = colon → atoi rest = Some port →
  v4_parts (split :: splits) ix (print_u n ++ split :: rest) endpoint =
  v4_parts splits (S ix) rest (mkEndpoint (ep_flag endpoint) (u16 port) (<[ix := n]> (ep_address endpoint))).
Proof.
  intros Hn Hsplit Hport. cbn [v4_parts]. destruct (print_u_chars n ltac:(lia)) as [Hchars Hne].
  rewrite v4_part_read; [|apply (print_u_length n 3); cbn; lia|].
  2: { eapply Forall_impl; [exact Hchars|]. intros c Hc ->. by destruct Hsplit as [-> | ->]. }
  cbn [mbind option_bind app]. rewrite (atoi_print n 0 []) by (done || lia). cbn [mbind option_bind].
  assert (Hdrop : drop (length (print_u n) + 1) (print_u n ++ split :: rest) = rest).
  { rewrite drop_app_ge by lia. by replace (length (print_u n) + 1 - length (print_u n))%nat with 1%nat by lia. }
  rewrite Hdrop. clear Hdrop. destruct (print_u n) as [|d ds]; [done|]. rewrite Hport. cbn [mbind option_bind].
  unfold u8. rewrite Z.mod_small by lia. done.
Qed.

Definition byte (b : Z) : Prop := 0 ≤ b < 256.

Lemma v4_read a b c d port endpoint rest :
  byte a → byte b → byte c → byte d → 0 ≤ port < 65536 → ep_address endpoint = replicate 16 0 →
  v4_parts [dot; dot; dot; colon] 0
    (print_u a ++ [dot] ++ print_u b ++ [dot] ++ print_u c ++ [dot] ++ print_u d ++ [colon] ++ print_u port ++ 0 :: rest) endpoint =
  Some (BFX_RESULT_SUCCESS, mkEndpoint (ep_flag endpoint) port ([a; b; c; d] ++ replicate 12 0)).
Proof.
  intros Ha Hb Hc Hd Hport Haddr. cbn [app]. unfold byte in *.
  rewrite (v4_parts_step a dot _ _ _ _ b) by (first [by apply atoi_print; (done || lia) | done | by left]).
  rewrite (v4_parts_step b dot _ _ _ _ c) by (first [by apply atoi_print; (done || lia) | done | by left]).
  rewrite (v4_parts_step c dot _ _ _ _ d) by (first [by apply atoi_print; (done || lia) | done | by left]).
  rewrite (v4_parts_step d colon _ _ _ _ port) by (first [by apply atoi_print; (done || lia) | done | by right]).
  cbn [v4_parts ep_flag ep_address]. rewrite Haddr. cbn. unfold u16. by rewrite Z.mod_small by lia.
Qed.

(** ** IP version 6 *)

Lemma hex_digit d : 0 ≤ d < 16 →
  isalnum (digit d) = true ∧ digit d ≠ colon ∧ digit d ≠ close_bracket ∧
  (if isalpha (digit d) then u8 (10 + (digit d - (if isupper (digit d) then 65 else 97))) else digit d - 48) = d.
Proof.
  intros Hd. assert (Hn : ∃ n, (n < 16)%nat ∧ d = Z.of_nat n) by (exists (Z.to_nat d); lia). destruct Hn as (n & Hn & ->).
  do 16 (destruct n as [|n]; [by vm_compute|]). lia.
Qed.

Lemma v6_digits_read room ds c rest :
  Forall (λ d, 0 ≤ d < 16) ds → (length ds ≤ room)%nat → isalnum c = false → v6_digits room ((digit <$> ds) ++ c :: rest) = Some ds.
Proof.
  intros Hds. revert room. induction Hds as [|d ds Hd _ IH]; intros room Hlen Hc; cbn [fmap list_fmap app].
  - destruct room; [done|]. cbn [v6_digits]. unfold isalnum in Hc. apply orb_false_iff in Hc as [H1 H2].
    unfold isalnum. by rewrite H1, H2.
  - destruct room as [|room]; [cbn in Hlen; lia|]. cbn [v6_digits]. destruct (hex_digit d Hd) as (H1 & _ & _ & H2).
    rewrite IH by (cbn in Hlen; lia || done). destruct (isalpha (digit d)); [|rewrite H1]; cbn [mbind option_bind]; by rewrite H2.
Qed.

Lemma v6_value_digits ds :
  Forall (λ d, 0 ≤ d < 16) ds → (length ds ≤ 4)%nat → v6_value ds 0 = foldl (λ a d, 16 * a + d) 0 ds.
Proof.
  intros Hds Hlen. unfold v6_value, byte_at, u16. rewrite !Forall_forall in Hds.
  assert (Hin : ∀ i d, ds !! i = Some d → 0 ≤ d < 16) by (intros i d Hd; by eapply Hds, list_elem_of_lookup_2).
  destruct ds as [|a [|b [|c [|d [|e ds]]]]]; [done|..|cbn in Hlen; lia].
  all: try pose proof (Hin 0%nat _ eq_refl); try pose proof (Hin 1%nat _ eq_refl); try pose proof (Hin 2%nat _ eq_refl); try pose proof (Hin 3%nat _ eq_refl).
  all: cbn -[Z.shiftl Z.modulo Z.pow Z.of_nat]; rewrite ?Z.shiftl_mul_pow2 by lia.
  all: change (2 ^ 16) with 65536; change (2 ^ (4 * Z.of_nat 0)) with 1; change (2 ^ (4 * Z.of_nat 1)) with 16;
    change (2 ^ (4 * Z.of_nat 2)) with 256; change (2 ^ (4 * Z.of_nat 3)) with 4096.
  all: Z.to_euclidean_division_equations; lia.
Qed.

Definition part (x : Z) : Prop := 0 ≤ x < 65536.

(** The parts that were read, and zeros for the others. *)
Definition filled (done : list Z) : list Z := done ++ replicate (8 - length done) 0.

Lemma filled_next done x : (length done < 8)%nat →
  filled done !! length done = Some 0 ∧ <[length done := x]> (filled done) = filled (done ++ [x]).
Proof.
  intros Hlen. unfold filled. rewrite length_app. cbn. replace (8 - length done)%nat with (S (8 - (length done + 1)))%nat by lia. split.
  - rewrite lookup_app_r by lia. by rewrite Nat.sub_diag.
  - rewrite insert_app_r_alt by lia. rewrite Nat.sub_diag. cbn. by rewrite <- app_assoc.
Qed.

(** What a part that is printed does to the loop. *)
Lemma v6_part_read fuel str offset zs done x c rest :
  drop offset str = print_x x ++ c :: rest → part x → (length done < 8)%nat → c = colon ∨ c = close_bracket →
  v6_parts (S fuel) str (offset, zs, length done, filled done) =
    (if c =? close_bracket then Some (inr ((offset + length (print_x x) + 1)%nat, zs, S (length done), filled (done ++ [x])))
     else if decide (S (length done) = 8%nat) then Some (inl tt)
     else v6_parts fuel str ((offset + length (print_x x) + 1)%nat, zs, S (length done), filled (done ++ [x]))).
Proof.
  intros Hdrop Hx Hlen Hc. unfold part in Hx.
  destruct (digits_of_ok 10 16 x) as (Hd & Hval & Hne); [lia|lia|lia|].
  pose proof (digits_of_length 10 16 x 4 ltac:(lia) ltac:(lia) ltac:(lia)) as Hlen4.
  unfold print_x in *. rewrite number_digits in *. set (ds := digits_of 10 16 x) in *.
  assert (Hat : ∀ i, str !! (offset + i)%nat = ((digit <$> ds) ++ c :: rest) !! i) by (intros i; by rewrite <- lookup_drop, Hdrop).
  assert (Hend : str !! (offset + length ds)%nat = Some c).
  { rewrite Hat, lookup_app_r, length_fmap, Nat.sub_diag by (by rewrite length_fmap). done. }
  destruct (filled_next done (v6_value ds 0) Hlen) as [Hold Hins]. rewrite (v6_value_digits ds Hd Hlen4), Hval in Hins.
  cbn [v6_parts]. rewrite <- (Nat.add_0_r offset) at 1. rewrite Hat. clearbody ds. destruct ds as [|d ds]; [done|].
  apply Forall_cons in Hd as Hd'. destruct Hd' as [Hd1 _]. destruct (hex_digit d Hd1) as (_ & Hcolon & Hclose & _).
  cbn [fmap list_fmap app lookup list_lookup mbind option_bind].
  destruct (Z.eqb_spec (digit d) colon) as [?|_]; [done|]. destruct (Z.eqb_spec (digit d) close_bracket) as [?|_]; [done|].
  rewrite Hdrop, (v6_digits_read 4 (d :: ds) c rest); [|done|done|by destruct Hc as [-> | ->]].
  cbn [mbind option_bind]. rewrite Hend. cbn [mbind option_bind]. rewrite Hold. cbn [mbind option_bind].
  rewrite (v6_value_digits (d :: ds) Hd Hlen4), Hval, Hins.
  replace ((c =? colon) || (c =? close_bracket)) with true by (by destruct Hc as [-> | ->]).
  assert (E : (offset + length (digit d :: (digit <$> ds)) + 1)%nat = S (offset + length (d :: ds))) by (cbn [length]; rewrite length_fmap; lia).
  by rewrite E.
Qed.

Lemma drop_more {A} (l a rest : list A) i : drop i l = a ++ rest → drop (i + length a) l = rest.
Proof. intros E. rewrite <- drop_drop, E. apply drop_app_length. Qed.

Lemma lookup_head {A} (l rest : list A) i c : drop i l = c :: rest → l !! i = Some c.
Proof. intros E. rewrite <- (Nat.add_0_r i), <- lookup_drop, E. done. Qed.

Lemma v6_fuel fuel fuel' str s r : v6_parts fuel str s = Some r → (fuel ≤ fuel')%nat → v6_parts fuel' str s = Some r.
Proof.
  revert fuel' s. induction fuel as [|fuel IH]; intros [|fuel'] s E Hle; try done; [lia|].
  destruct s as [[[offset zs] parts] address]. cbn [v6_parts] in *. destruct (str !! offset) as [c|]; [|done]. cbn [mbind option_bind] in *.
  destruct (c =? colon); [destruct zs; [done|by apply IH; [|lia]]|]. destruct (c =? close_bracket); [done|].
  destruct (v6_digits 4 (drop offset str)) as [ds|]; [|done]. cbn [mbind option_bind] in *.
  destruct (str !! (offset + length ds)%nat) as [c'|]; [|done]. cbn [mbind option_bind] in *.
  destruct ((c' =? colon) || (c' =? close_bracket)); [|done]. destruct ds as [|d ds].
  - destruct zs; [done|]. by apply IH; [|lia].
  - destruct (address !! parts) as [old|]; [|done]. cbn [mbind option_bind] in *. destruct (c' =? close_bracket); [done|].
    case_decide; [done|]. by apply IH; [|lia].
Qed.

Lemma v6_after str xs : ∀ done offset fuel zs rest,
  drop offset str = print_parts_after xs ++ rest → Forall part xs → (length done + length xs < 8)%nat →
  v6_parts (length xs + fuel) str (offset, zs, length done, filled done) =
  v6_parts fuel str ((offset + length (print_parts_after xs))%nat, zs, length (done ++ xs), filled (done ++ xs)).
Proof.
  induction xs as [|x xs IH]; intros done offset fuel zs rest Hdrop Hxs Hlen; [by rewrite app_nil_r, Nat.add_0_r|].
  apply Forall_cons in Hxs as [Hx Hxs]. cbn [length] in *. unfold print_parts_after in *. cbn [fmap list_fmap mjoin list_join] in *.
  rewrite <- !app_assoc in Hdrop. cbn [app] in Hdrop.
  cbn [Nat.add]. rewrite (v6_part_read (length xs + fuel) str offset zs done x colon _ Hdrop Hx); [|lia|by left].
  replace (colon =? close_bracket) with false by done. rewrite decide_False by lia.
  replace (S (length done)) with (length (done ++ [x])) by (rewrite length_app; cbn; lia).
  pose proof (drop_more str (print_x x ++ [colon]) (mjoin ((λ x, print_x x ++ [colon]) <$> xs) ++ rest) offset) as Hnext.
  rewrite <- app_assoc, length_app in Hnext. specialize (Hnext Hdrop). cbn [length] in Hnext. rewrite Nat.add_assoc in Hnext.
  rewrite (IH (done ++ [x]) _ fuel zs rest Hnext Hxs) by (rewrite length_app; cbn; lia).
  rewrite <- app_assoc. cbn [app]. rewrite !length_app. cbn [length]. by rewrite !Nat.add_assoc.
Qed.

(** Parts up to the bracket. *)
Lemma v6_last str xs y done offset zs rest :
  drop offset str = print_parts_after xs ++ print_x y ++ close_bracket :: rest → Forall part xs → part y → (length done + length xs < 8)%nat →
  ∃ end_, v6_parts (S (length xs)) str (offset, zs, length done, filled done) =
    Some (inr (end_, zs, length (done ++ xs ++ [y]), filled (done ++ xs ++ [y]))) ∧ drop end_ str = rest.
Proof.
  intros Hdrop Hxs Hy Hlen. replace (S (length xs)) with (length xs + 1)%nat by lia.
  rewrite (v6_after str xs done offset 1 zs _ Hdrop Hxs Hlen). pose proof (drop_more _ _ _ _ Hdrop) as Hd.
  rewrite (v6_part_read 0 str _ zs (done ++ xs) y close_bracket rest Hd Hy); [|rewrite length_app; lia|by right].
  rewrite Z.eqb_refl. eexists. split.
  - replace (S (length (done ++ xs))) with (length (done ++ xs ++ [y])) by (rewrite !length_app; cbn; lia). by rewrite <- app_assoc.
  - pose proof (drop_more str (print_x y ++ [close_bracket]) rest (offset + length (print_parts_after xs))) as Hn. rewrite <- app_assoc, length_app, Nat.add_assoc in Hn. by apply Hn.
Qed.

Lemma parts_before_after ys : ys ≠ [] →
  print_parts_before ys = colon :: print_parts_after (removelast ys) ++ print_x (List.last ys 0).
Proof.
  assert (Hb : ∀ x xs, print_parts_before (x :: xs) = colon :: print_x x ++ print_parts_before xs) by done.
  assert (Ha : ∀ x xs, print_parts_after (x :: xs) = (print_x x ++ [colon]) ++ print_parts_after xs) by done.
  induction ys as [|y ys IH]; [done|]. intros _. destruct ys as [|y2 ys]; [rewrite Hb; cbn [removelast List.last]; by rewrite app_nil_r|].
  rewrite Hb, IH by done. change (removelast (y :: y2 :: ys)) with (y :: removelast (y2 :: ys)).
  change (List.last (y :: y2 :: ys) 0) with (List.last (y2 :: ys) 0). rewrite Ha, <- !app_assoc. done.
Qed.

(** [::] and what is behind it. *)
Lemma v6_zeros str xs ys offset rest :
  drop offset str = (if decide (ys = []) then [colon] else print_parts_before ys) ++ close_bracket :: rest →
  Forall part ys → (length xs + length ys < 8)%nat →
  ∃ fuel end_, (fuel ≤ 2 + length ys)%nat ∧ v6_parts fuel str (offset, None, length xs, filled xs) =
    Some (inr (end_, Some (length xs), length (xs ++ ys), filled (xs ++ ys))) ∧ drop end_ str = rest.
Proof.
  intros Hdrop Hys Hlen. destruct (decide (ys = [])) as [->|Hne].
  - exists 2%nat, (S (S offset)). split; [cbn; lia|]. cbn [app] in Hdrop. rewrite app_nil_r.
    pose proof (drop_more str [colon] _ _ Hdrop) as Hd. cbn [length] in Hd. rewrite Nat.add_1_r in Hd. split.
    + cbn [v6_parts]. rewrite (lookup_head _ _ _ _ Hdrop). cbn [mbind option_bind]. rewrite Z.eqb_refl.
      rewrite (lookup_head _ _ _ _ Hd). cbn [mbind option_bind]. rewrite Z.eqb_refl. by replace (close_bracket =? colon) with false by done.
    + pose proof (drop_more str [close_bracket] _ _ Hd) as He. cbn [length] in He. by rewrite Nat.add_1_r in He.
  - assert (Hp : print_parts_before ys ++ close_bracket :: rest = colon :: print_parts_after (removelast ys) ++ print_x (List.last ys 0) ++ close_bracket :: rest).
    { rewrite parts_before_after by done. cbn [app]. by rewrite <- app_assoc. }
    rewrite Hp in Hdrop. pose proof (drop_more str [colon] _ _ Hdrop) as Hd. cbn [length] in Hd. rewrite Nat.add_1_r in Hd.
    pose proof (app_removelast_last 0 Hne) as Esplit. assert (Hys' : Forall part (removelast ys) ∧ part (List.last ys 0)).
    { rewrite Esplit in Hys at 1. apply Forall_app in Hys as [H1 H2]. split; [done|]. by apply Forall_singleton. }
    assert (Hl : length ys = S (length (removelast ys))) by (rewrite Esplit at 1; rewrite length_app; cbn; lia).
    destruct (v6_last str (removelast ys) (List.last ys 0) xs (S offset) (Some (length xs)) rest Hd) as (end_ & E & He); [apply Hys'|apply Hys'|lia|].
    exists (S (S (length (removelast ys)))), end_. split; [lia|]. split; [|done]. rewrite <- Esplit in E. rewrite <- E.
    cbn [v6_parts]. rewrite (lookup_head _ _ _ _ Hdrop). cbn [mbind option_bind]. by rewrite Z.eqb_refl.
Qed.

Lemma zero_run_split l : l = replicate (zero_run l) 0 ++ drop (zero_run l) l.
Proof.
  induction l as [|x l IH]; [done|]. cbn [zero_run]. destruct (Z.eqb_spec x 0) as [->|_]; [|done]. cbn [replicate app drop]. by rewrite <- IH.
Qed.

Lemma zero_parts_split ix address zs ze :
  zero_parts ix address = Some (zs, ze) →
  ∃ xs n ys, address = xs ++ replicate n 0 ++ ys ∧ (0 < n)%nat ∧ zs = (ix + length xs)%nat ∧ ze = (zs + n)%nat.
Proof.
  revert ix. induction address as [|x address IH]; intros ix E; [done|]. cbn [zero_parts] in E. destruct (Z.eqb_spec x 0) as [->|_].
  - injection E as <- <-. exists [], (zero_run (0 :: address)), (drop (zero_run (0 :: address)) (0 :: address)). cbn [length app].
    split; [apply zero_run_split|]. cbn [zero_run]. split_and!; cbn; lia.
  - destruct (IH (S ix) E) as (xs & n & ys & -> & Hn & -> & ->). exists (x :: xs), n, ys. cbn [length app]. split_and!; [done|done|lia|lia].
Qed.

Lemma print_x_head x : part x → ∃ c s, print_x x = c :: s ∧ c ≠ colon.
Proof.
  intros Hx. unfold part in Hx. destruct (digits_of_ok 10 16 x) as (Hd & _ & Hne); [lia|lia|lia|]. unfold print_x. rewrite number_digits.
  destruct (digits_of 10 16 x) as [|d ds]; [done|]. apply Forall_cons in Hd as [Hd _]. exists (digit d), (digit <$> ds). split; [done|]. by apply hex_digit.
Qed.

Lemma v6_start_part str offset x rest : drop offset str = print_x x ++ rest → part x → v6_start str offset = Some (Some offset).
Proof.
  intros Hdrop Hx. destruct (print_x_head x Hx) as (c & s & E & Hc). rewrite E in Hdrop. unfold v6_start.
  rewrite (lookup_head _ _ _ _ Hdrop). cbn [mbind option_bind]. by destruct (Z.eqb_spec c colon).
Qed.

Lemma v6_start_zeros str offset rest : drop offset str = colon :: colon :: rest → v6_start str offset = Some (Some (S offset)).
Proof.
  intros Hdrop. unfold v6_start. rewrite (lookup_head _ _ _ _ Hdrop). cbn [mbind option_bind]. rewrite Z.eqb_refl.
  pose proof (drop_more str [colon] _ _ Hdrop) as Hd. cbn [length] in Hd. rewrite Nat.add_1_r in Hd. by rewrite (lookup_head _ _ _ _ Hd).
Qed.

Lemma expand_zeros xs n ys : length (xs ++ replicate n 0 ++ ys) = 8%nat → (0 < n)%nat →
  expand_parts (Some (length xs)) (length (xs ++ ys)) (filled (xs ++ ys)) = Some (mjoin (part_bytes <$> xs ++ replicate n 0 ++ ys)).
Proof.
  rewrite !length_app, length_replicate. intros Hlen Hn. unfold expand_parts, filled. rewrite decide_False by lia.
  rewrite length_app, <- app_assoc, take_app_length, drop_app_length. replace (length xs + length ys - length xs)%nat with (length ys) by lia.
  rewrite take_app_length, !fmap_app. f_equal. rewrite !join_app. f_equal. f_equal.
  replace (8 - (length xs + length ys))%nat with n by lia. clear. induction n as [|n IH]; [done|].
  replace (2 * S n)%nat with (S (S (2 * n)))%nat by lia. cbn [replicate fmap list_fmap mjoin list_join]. unfold part_bytes at 1. cbn [app]. by rewrite IH.
Qed.

Lemma print_v6_read str offset address rest :
  length address = 8%nat → Forall part address → drop offset str = print_v6 address ++ close_bracket :: rest →
  ∃ start fuel end_ zs parts read, v6_start str offset = Some (Some start) ∧ (fuel ≤ 9)%nat ∧
    v6_parts fuel str (start, None, 0%nat, replicate 8 0) = Some (inr (end_, zs, parts, read)) ∧ drop end_ str = rest ∧
    expand_parts zs parts read = Some (mjoin (part_bytes <$> address)).
Proof.
  intros Hlen Hparts Hdrop. unfold print_v6 in Hdrop. destruct (zero_parts 0 address) as [[zs ze]|] eqn:Ez.
  - destruct (zero_parts_split _ _ _ _ Ez) as (xs & n & ys & -> & Hn & -> & ->). cbn [Nat.add] in Hdrop.
    pose proof Hlen as Hlen'. rewrite !length_app, length_replicate in Hlen'. apply Forall_app in Hparts as [Hxs [_ Hys]%Forall_app].
    assert (Hskip : drop (length xs + n) (xs ++ replicate n 0 ++ ys) = ys).
    { rewrite app_assoc. apply drop_app_length'. by rewrite length_app, length_replicate. }
    rewrite take_app_length, Hskip in Hdrop.
    rewrite <- app_assoc in Hdrop.
    assert (Htail : ∀ o, drop o str = (if decide (length xs + n = 8)%nat then [colon] else print_parts_before ys) ++ close_bracket :: rest →
      ∃ fuel end_, (fuel ≤ 2 + length ys)%nat ∧ v6_parts fuel str (o, None, length xs, filled xs) =
        Some (inr (end_, Some (length xs), length (xs ++ ys), filled (xs ++ ys))) ∧ drop end_ str = rest).
    { intros o Ho. apply v6_zeros; [|done|lia]. rewrite Ho. f_equal. destruct (decide (ys = [])) as [->|Hy].
      - by rewrite decide_True by (cbn in Hlen'; lia).
      - rewrite decide_False; [done|]. destruct ys; [done|]. cbn in Hlen'. lia. }
    destruct (decide (length xs = 0%nat)) as [Hx|Hx].
    + apply nil_length_inv in Hx as ->. cbn [app length] in *.
      assert (Hhead : ∃ r, drop offset str = colon :: colon :: r).
      { rewrite Hdrop. case_decide; [by eexists|]. destruct ys as [|y ys]; [cbn in Hlen'; lia|]. by eexists. }
      destruct Hhead as [r Hr]. pose proof (drop_more str [colon] _ _ Hdrop) as Hd. cbn [length] in Hd. rewrite Nat.add_1_r in Hd.
      destruct (Htail (S offset) Hd) as (fuel & end_ & Hf & E & He). exists (S offset), fuel, end_, (Some 0%nat), (length ys), (filled ys).
      split; [by eapply v6_start_zeros|]. split; [lia|]. split; [exact E|]. split; [done|]. by apply (expand_zeros [] n ys).
    + destruct xs as [|x xs]; [done|]. pose proof (drop_more _ _ _ _ Hdrop) as Hd. destruct (Htail _ Hd) as (fuel & end_ & Hf & E & He).
      exists offset, (length (x :: xs) + fuel)%nat, end_, (Some (length (x :: xs))), (length ((x :: xs) ++ ys)), (filled ((x :: xs) ++ ys)).
      split; [|split; [cbn in Hlen' |- *; lia|split; [|split; [done|by apply expand_zeros]]]].
      * apply Forall_cons in Hxs as [Hpx _]. unfold print_parts_after in Hdrop. cbn [fmap list_fmap mjoin list_join] in Hdrop.
        rewrite <- !app_assoc in Hdrop. by eapply v6_start_part.
      * rewrite <- E. apply (v6_after str (x :: xs) [] offset fuel None _ Hdrop Hxs). cbn in Hlen' |- *. lia.
  - assert (Esplit : address = take 7 address ++ [byte_at address 7]).
    { clear -Hlen. do 8 (destruct address as [|? address]; [done|]). by destruct address. }
    assert (Hl7 : length (take 7 address) = 7%nat) by (rewrite length_take; lia).
    assert (Hp : Forall part (take 7 address) ∧ part (byte_at address 7)).
    { rewrite Esplit in Hparts at 1. apply Forall_app in Hparts as [H1 H2]. split; [done|]. by apply Forall_singleton. }
    rewrite <- app_assoc in Hdrop.
    destruct (v6_last str (take 7 address) (byte_at address 7) [] offset None rest Hdrop) as (end_ & E & He); [apply Hp|apply Hp|cbn; lia|].
    cbn [app] in E. rewrite <- Esplit in E. rewrite Hl7, Hlen in E.
    exists offset, 8%nat, end_, None, 8%nat, address. split; [|split; [lia|split; [|split; [done|done]]]].
    + destruct address as [|x address]; [done|]. apply Forall_cons in Hparts as [Hx _]. unfold print_parts_after in Hdrop.
      cbn [take fmap list_fmap mjoin list_join] in Hdrop. rewrite <- !app_assoc in Hdrop. by eapply v6_start_part.
    + etransitivity; [exact E|]. unfold filled. by rewrite Hlen, app_nil_r.
Qed.

(** ** Round trips *)

(** What a string says of the flags. *)
Definition string_flag (flag : Z) : Z :=
  Z.lor (if has_flag flag BDT_ENDPOINT_IP_VERSION_4 then BDT_ENDPOINT_IP_VERSION_4 else BDT_ENDPOINT_IP_VERSION_6)
    (if has_flag flag BDT_ENDPOINT_PROTOCOL_TCP then BDT_ENDPOINT_PROTOCOL_TCP
     else if has_flag flag BDT_ENDPOINT_PROTOCOL_UDP then BDT_ENDPOINT_PROTOCOL_UDP else 0).

(** The bytes of the union that an address of the version has. *)
Definition string_address (flag : Z) (address : list Z) : list Z :=
  if has_flag flag BDT_ENDPOINT_IP_VERSION_4 then take 4 address ++ replicate 12 0 else address.

Definition endpoint_ok (ep : BdtEndpoint) : Prop :=
  length (ep_address ep) = 16%nat ∧ Forall byte (ep_address ep) ∧ 0 ≤ ep_port ep < 65536 ∧
  (has_flag (ep_flag ep) BDT_ENDPOINT_IP_VERSION_4 = true ∨ has_flag (ep_flag ep) BDT_ENDPOINT_IP_VERSION_6 = true).

Lemma address_parts_bytes l : length l = 16%nat → Forall byte l →
  mjoin (part_bytes <$> address_parts l) = l ∧ Forall part (address_parts l).
Proof.
  intros Hlen Hb. assert (Hpair : ∀ a b, byte a → byte b →
    part_bytes (u16 (Z.shiftl a 8 + b)) = [a; b] ∧ part (u16 (Z.shiftl a 8 + b))).
  { intros a b Ha Hc. unfold byte, part, part_bytes, u16, u8 in *. rewrite Z.shiftl_mul_pow2, Z.shiftr_div_pow2 by lia.
    change (2 ^ 8) with 256. change (2 ^ 16) with 65536. rewrite (Z.mod_small (a * 256 + b)) by lia. split; [|lia].
    f_equal; [|f_equal]; Z.to_euclidean_division_equations; lia. }
  do 16 (destruct l as [|? l]; [done|]). destruct l; [|done]. rewrite !Forall_cons in Hb. destruct_and! Hb.
  unfold address_parts. cbn [seq fmap list_fmap Nat.mul Nat.add byte_at]. split.
  - cbn [mjoin list_join]. unfold byte_at. cbn [lookup list_lookup default Nat.mul Nat.add from_option id]. 
    repeat match goal with |- context [part_bytes (u16 (Z.shiftl ?a 8 + ?b))] => rewrite (proj1 (Hpair a b ltac:(done) ltac:(done))) end. done.
  - unfold byte_at. cbn [lookup list_lookup default Nat.mul Nat.add from_option id]. repeat constructor; by apply Hpair.
Qed.

(** The length of a name and its characters. *)
Definition name_ok (k : nat) (s : list Z) : Prop := (length s ≤ k)%nat ∧ Forall (λ c, 0 < c < 128) s.

Lemma name_app k l a b : name_ok k a → name_ok l b → name_ok (k + l) (a ++ b).
Proof. intros [H1 H2] [H3 H4]. split; [rewrite length_app; lia|by apply Forall_app]. Qed.

Lemma name_number fuel base n k :
  2 ≤ base ≤ 16 → 0 ≤ n < base ^ Z.of_nat fuel → 0 ≤ n < base ^ Z.of_nat k → (0 < fuel)%nat → (0 < k)%nat → name_ok k (number fuel base n).
Proof.
  intros Hb Hn Hn' Hf Hk. destruct (digits_of_ok fuel base n) as (H1 & _); [lia|lia|done|]. rewrite number_digits. split.
  - rewrite length_fmap. by apply digits_of_length; [lia|..].
  - apply Forall_fmap. eapply Forall_impl; [exact H1|]. intros d Hd. cbv beta in Hd. unfold compose, digit. destruct (Z.ltb_spec d 10); lia.
Qed.

Lemma name_byte n : byte n → name_ok 3 (print_u n).
Proof. intros Hn. unfold byte in Hn. apply name_number; cbn; lia. Qed.
Lemma name_port n : 0 ≤ n < 65536 → name_ok 5 (print_u n).
Proof. intros Hn. apply name_number; cbn; lia. Qed.
Lemma name_part n : part n → name_ok 4 (print_x n).
Proof. intros Hn. unfold part in Hn. apply name_number; cbn; lia. Qed.
Lemma name_char c : 0 < c < 128 → name_ok 1 [c].
Proof. intros Hc. split; [done|by repeat constructor; lia]. Qed.

Lemma name_parts_after xs : Forall part xs → name_ok (5 * length xs) (print_parts_after xs).
Proof.
  induction 1 as [|x xs Hx _ IH]; [by split; [|constructor]|]. replace (5 * length (x :: xs))%nat with ((4 + 1) + 5 * length xs)%nat by (cbn; lia).
  apply name_app; [|exact IH]. apply name_app; [by apply name_part|by apply name_char].
Qed.
Lemma name_parts_before xs : Forall part xs → name_ok (5 * length xs) (print_parts_before xs).
Proof.
  induction 1 as [|x xs Hx _ IH]; [by split; [|constructor]|]. replace (5 * length (x :: xs))%nat with ((1 + 4) + 5 * length xs)%nat by (cbn; lia).
  apply name_app; [|exact IH]. apply (name_app 1 4 [colon]); [by apply name_char|by apply name_part].
Qed.

Lemma name_weaken k l s : name_ok k s → (k ≤ l)%nat → name_ok l s.
Proof. intros [H1 H2] H. split; [lia|done]. Qed.

Lemma name_v6 address : length address = 8%nat → Forall part address → name_ok 39 (print_v6 address).
Proof.
  intros Hlen Hparts. unfold print_v6. destruct (zero_parts 0 address) as [[zs ze]|] eqn:Ez.
  - destruct (zero_parts_split _ _ _ _ Ez) as (xs & n & ys & -> & Hn & -> & ->). cbn [Nat.add].
    rewrite !length_app, length_replicate in Hlen. apply Forall_app in Hparts as [Hxs [_ Hys]%Forall_app].
    assert (Hskip : drop (length xs + n) (xs ++ replicate n 0 ++ ys) = ys).
    { rewrite app_assoc. apply drop_app_length'. by rewrite length_app, length_replicate. }
    rewrite take_app_length, Hskip. apply (name_weaken ((1 + 5 * length xs) + (1 + 5 * length ys))); [|lia].
    apply name_app; case_decide; try (eapply name_weaken; [by apply name_char|lia]).
    + eapply name_weaken; [by apply name_parts_after|lia].
    + eapply name_weaken; [by apply name_parts_before|lia].
  - replace 39%nat with (5 * 7 + 4)%nat by done. apply name_app.
    + eapply name_weaken; [apply name_parts_after; by apply Forall_take|]. rewrite length_take. lia.
    + apply name_part. unfold byte_at. destruct (address !! 7%nat) as [x|] eqn:Ex; [|by split]. by eapply Forall_lookup_1.
Qed.

Lemma name_protocol flag : name_ok 3 (protocol_name flag) ∧ length (protocol_name flag) = 3%nat.
Proof. unfold protocol_name. repeat case_match; by repeat constructor. Qed.

(** The version and the protocol are read first. *)
Lemma from_string_head version flag t :
  version = bdtEndpointStrIpv4 ∧ has_flag flag BDT_ENDPOINT_IP_VERSION_4 = true ∨
  version = bdtEndpointStrIpv6 ∧ has_flag flag BDT_ENDPOINT_IP_VERSION_4 = false →
  BdtEndpointFromString (version ++ protocol_name flag ++ t) =
    let endpoint := mkEndpoint (string_flag flag) 0 (replicate 16 0) in
    if has_flag flag BDT_ENDPOINT_IP_VERSION_4 then v4_parts [dot; dot; dot; colon] 0 t endpoint
    else parse_v6 (version ++ protocol_name flag ++ t) 5 endpoint.
Proof.
  intros Hv. unfold BdtEndpointFromString, bytes_at, string_flag, protocol_name.
  destruct Hv as [[-> Hf] | [-> Hf]]; rewrite Hf;
    destruct (has_flag flag BDT_ENDPOINT_PROTOCOL_TCP), (has_flag flag BDT_ENDPOINT_PROTOCOL_UDP);
    (rewrite !decide_True by (rewrite ?length_app; cbn; lia)); reflexivity.
Qed.

Lemma v4_name ep : endpoint_ok ep → has_flag (ep_flag ep) BDT_ENDPOINT_IP_VERSION_4 = true →
  ∃ t, BdtEndpointToString ep = Some (bdtEndpointStrIpv4 ++ protocol_name (ep_flag ep) ++ t) ∧ name_ok 21 t ∧
    ∀ rest endpoint, ep_address endpoint = replicate 16 0 → v4_parts [dot; dot; dot; colon] 0 (t ++ 0 :: rest) endpoint =
      Some (BFX_RESULT_SUCCESS, mkEndpoint (ep_flag endpoint) (ep_port ep) (string_address (ep_flag ep) (ep_address ep))).
Proof.
  intros (Hlen & Hb & Hport & _) Hf. unfold BdtEndpointToString, string_address. rewrite Hf.
  destruct (ep_address ep) as [|a [|b [|c [|d l]]]]; [done..|]. apply Forall_cons in Hb as [Ha Hb]. apply Forall_cons in Hb as [Hb Hc].
  apply Forall_cons in Hc as [Hc Hd]. apply Forall_cons in Hd as [Hd _]. unfold byte_at. cbn [lookup list_lookup default from_option id].
  set (t := print_u a ++ _). assert (Ht : name_ok 21 t).
  { unfold t. apply (name_app 3 18); [by apply name_byte|]. apply (name_app 1 17); [by apply name_char|].
    apply (name_app 3 14); [by apply name_byte|]. apply (name_app 1 13); [by apply name_char|].
    apply (name_app 3 10); [by apply name_byte|]. apply (name_app 1 9); [by apply name_char|].
    apply (name_app 3 6); [by apply name_byte|]. apply (name_app 1 5); [by apply name_char|by apply name_port]. }
  exists t. split; [|split; [done|]].
  - rewrite decide_True; [done|]. destruct Ht as [Ht _]. unfold BDT_ENDPOINT_STRING_MAX_LENGTH.
    rewrite length_app, (length_app (protocol_name _) t), (proj2 (name_protocol _)). change (length bdtEndpointStrIpv4) with 2%nat. lia.
  - intros rest endpoint Haddr. unfold t. rewrite <- !app_assoc. by apply v4_read.
Qed.

Lemma v6_name ep : endpoint_ok ep → has_flag (ep_flag ep) BDT_ENDPOINT_IP_VERSION_4 = false →
  ∃ t, BdtEndpointToString ep = Some (bdtEndpointStrIpv6 ++ protocol_name (ep_flag ep) ++ t) ∧ name_ok 47 t ∧
    ∀ rest endpoint, parse_v6 (bdtEndpointStrIpv6 ++ protocol_name (ep_flag ep) ++ t ++ 0 :: rest) 5 endpoint =
      Some (BFX_RESULT_SUCCESS, mkEndpoint (ep_flag endpoint) (ep_port ep) (string_address (ep_flag ep) (ep_address ep))).
Proof.
  intros (Hlen & Hb & Hport & Hv) Hf. unfold BdtEndpointToString, string_address. rewrite Hf in *. destruct Hv as [|Hv]; [done|]. rewrite Hv.
  destruct (address_parts_bytes _ Hlen Hb) as [Hbytes Hparts]. set (parts := address_parts (ep_address ep)) in *.
  set (t := [open_bracket] ++ _). assert (Ht : name_ok 47 t).
  { unfold t. apply (name_app 1 46); [by apply name_char|]. apply (name_app 39 7); [by apply name_v6|].
    apply (name_app 2 5 [close_bracket; colon]); [by repeat constructor|by apply name_port]. }
  exists t. split; [|split; [done|]].
  - rewrite decide_True; [done|]. destruct Ht as [Ht _]. unfold BDT_ENDPOINT_STRING_MAX_LENGTH.
    rewrite length_app, (length_app (protocol_name _) t), (proj2 (name_protocol _)). change (length bdtEndpointStrIpv6) with 2%nat. lia.
  - intros rest endpoint. set (str := bdtEndpointStrIpv6 ++ _).
    assert (H5 : drop 5 str = t ++ 0 :: rest).
    { unfold str. rewrite app_assoc. apply drop_app_length'. rewrite length_app, (proj2 (name_protocol _)). done. }
    unfold t in H5. cbn [app] in H5. rewrite <- app_assoc in H5. cbn [app] in H5.
    pose proof (drop_more str [open_bracket] _ _ H5) as H6. cbn [length Nat.add] in H6.
    destruct (print_v6_read str 6 parts _ eq_refl Hparts H6) as (start & fuel & end_ & zs & n & read & E1 & E2 & E3 & E4 & E5).
    pose proof (lookup_head _ _ _ _ E4) as Hcolon. pose proof (drop_more str [colon] _ _ E4) as E7. cbn [length] in E7. rewrite Nat.add_1_r in E7.
    unfold parse_v6. rewrite (lookup_head _ _ _ _ H5). cbn [mbind option_bind]. rewrite Z.eqb_refl. cbn [negb].
    rewrite E1. cbn [mbind option_bind].
    assert (Hfuel : (fuel ≤ S (length str))%nat).
    { apply (f_equal length) in H5. rewrite length_drop in H5. cbn [length] in H5. rewrite length_app in H5. cbn [length] in H5. lia. }
    rewrite (v6_fuel _ _ _ _ _ E3 Hfuel). cbn [mbind option_bind]. rewrite E5, Hbytes. rewrite Hcolon. cbn [mbind option_bind].
    rewrite Z.eqb_refl. cbn [negb]. rewrite E7, atoi_print by (done || lia). cbn [mbind option_bind ep_flag]. unfold u16. by rewrite Z.mod_small by lia.
Qed.

Lemma lor_bytes a b : 0 ≤ b < 256 → Z.lor (a * 256) b = a * 256 + b.
Proof.
  intros Hb. assert (Hand : Z.land (a * 256) b = 0).
  { apply Z.bits_inj'. intros n Hn. rewrite Z.land_spec, Z.bits_0. change 256 with (2 ^ 8). destruct (decide (n < 8)).
    - by rewrite Z.mul_pow2_bits_low by lia.
    - rewrite <- (Z.mod_small b (2 ^ 8)) by lia. rewrite Z.mod_pow2_bits_high by lia. apply andb_false_r. }
  rewrite <- Z.lxor_lor by done. symmetry. by apply Z.add_nocarry_lxor.
Qed.

Lemma htons_twice p : 0 ≤ p < 65536 → htons (htons p) = p.
Proof.
  intros Hp. assert (Hh : ∀ x, 0 ≤ x < 65536 → htons x = x mod 256 * 256 + x / 256).
  { intros x Hx. unfold htons. change 255 with (Z.ones 8). rewrite Z.land_ones, Z.shiftl_mul_pow2, Z.shiftr_div_pow2 by lia.
    apply lor_bytes. change (2 ^ 8) with 256. split; [apply Z.div_pos; lia|apply Z.div_lt_upper_bound; lia]. }
  pose proof (Z.mod_pos_bound p 256 ltac:(lia)).
  assert (0 ≤ p / 256 < 256) by (split; [apply Z.div_pos; lia|apply Z.div_lt_upper_bound; lia]).
  rewrite (Hh p Hp), Hh by lia. rewrite (Z.add_comm (p mod 256 * 256) (p / 256)), Z.mod_add, Z.div_add by lia. rewrite (Z.mod_small (p / 256)) by lia.
  rewrite (Z.div_small (p / 256)) by lia. pose proof (Z.div_mod p 256 ltac:(lia)). lia.
Qed.

(** C20: Endpoints survive their conversions.  The string of an endpoint of
    version 4 or 6 fits the buffer, has no NUL in it, and is read, whatever lies
    behind it in memory, as an endpoint with the same address and port and the
    version and protocol of the string; so is its socket address. *)
Theorem endpoint_conversions AF_INET AF_INET6 ep rest addr :
  endpoint_ok ep → AF_INET ≠ AF_INET6 →
  (∃ name, BdtEndpointToString ep = Some name ∧ (length name ≤ BDT_ENDPOINT_STRING_MAX_LENGTH)%nat ∧ Forall (λ c, c ≠ 0) name ∧
    BdtEndpointFromString (name ++ 0 :: rest) =
      Some (BFX_RESULT_SUCCESS, mkEndpoint (string_flag (ep_flag ep)) (ep_port ep) (string_address (ep_flag ep) (ep_address ep)))) ∧
  (let '(result, sa) := BdtEndpointToSockAddr AF_INET AF_INET6 ep addr in
   result = 0 ∧
   SockAddrToBdtEndpoint AF_INET AF_INET6 sa (string_flag (ep_flag ep)) =
     (0, mkEndpoint (string_flag (ep_flag ep)) (ep_port ep) (string_address (ep_flag ep) (ep_address ep)))).
Proof.
  intros Hok Hne. pose proof Hok as (Hlen & Hb & Hport & Hv). split.
  - assert (Hname : ∃ version t, BdtEndpointToString ep = Some (version ++ protocol_name (ep_flag ep) ++ t) ∧ name_ok 2 version ∧ name_ok 48 t ∧
      ∀ rest, BdtEndpointFromString (version ++ protocol_name (ep_flag ep) ++ t ++ 0 :: rest) =
        Some (BFX_RESULT_SUCCESS, mkEndpoint (string_flag (ep_flag ep)) (ep_port ep) (string_address (ep_flag ep) (ep_address ep)))).
    { destruct (has_flag (ep_flag ep) BDT_ENDPOINT_IP_VERSION_4) eqn:Hf.
      - destruct (v4_name ep Hok Hf) as (t & E & Ht & Hr). exists bdtEndpointStrIpv4, t. split; [done|]. split; [by repeat constructor|].
        split; [by eapply name_weaken; [exact Ht|lia]|]. intros r. rewrite from_string_head by by left. rewrite Hf. by apply Hr.
      - destruct (v6_name ep Hok Hf) as (t & E & Ht & Hr). exists bdtEndpointStrIpv6, t. split; [done|]. split; [by repeat constructor|].
        split; [by eapply name_weaken; [exact Ht|lia]|]. intros r. rewrite from_string_head by by right. rewrite Hf. apply Hr. }
    destruct Hname as (version & t & E & Hver & Ht & Hr). exists (version ++ protocol_name (ep_flag ep) ++ t). split; [done|].
    pose proof (name_app 2 51 _ _ Hver (name_app 3 48 _ _ (proj1 (name_protocol (ep_flag ep))) Ht)) as [H1 H2].
    split; [exact H1|]. split; [eapply Forall_impl; [exact H2|]; intros c Hc; cbv beta in Hc; lia|]. rewrite <- !app_assoc. apply Hr.
  - unfold BdtEndpointToSockAddr, SockAddrToBdtEndpoint, string_flag, string_address.
    destruct (has_flag (ep_flag ep) BDT_ENDPOINT_IP_VERSION_4) eqn:Hf.
    + split; [done|]. cbn [sa_family sa_port sa_addr]. rewrite decide_True, htons_twice by done. rewrite take_take. do 2 f_equal. by repeat case_match.
    + destruct Hv as [|Hv]; [done|]. rewrite Hv. split; [done|]. cbn [sa_family sa_port sa_addr].
      rewrite decide_False, decide_True, htons_twice by done. rewrite !take_ge by (rewrite ?length_take; lia). do 2 f_equal. by repeat case_match.
Qed.

(** A peer's address in both versions, with the flag of a static address,
    which a string does not have. *)
Definition demo_endpoint : BdtEndpoint :=
  mkEndpoint (Z.lor (Z.lor BDT_ENDPOINT_IP_VERSION_6 BDT_ENDPOINT_PROTOCOL_UDP) BDT_ENDPOINT_FLAG_STATIC_WAN) 8080
    [32; 1; 13; 184; 0; 0; 0; 0; 0; 0; 0; 0; 0; 0; 1; 171].

Example demo_string :
  option_map (λ s, Stdlib.Strings.String.string_of_list_ascii ((λ c, Stdlib.Strings.Ascii.ascii_of_N (Z.to_N c)) <$> s)) (BdtEndpointToString demo_endpoint) = Some "v6udp[2001:db8::1ab]:8080"%string.
Proof. reflexivity. Qed.

Lemma endpoint_conversions_witness : endpoint_ok demo_endpoint ∧ ∃ name,
  BdtEndpointToString demo_endpoint = Some name ∧
  BdtEndpointFromString (name ++ 0 :: [255; 255]) = Some (BFX_RESULT_SUCCESS, mkEndpoint 20 8080 (ep_address demo_endpoint)).
Proof.
  assert (Hok : endpoint_ok demo_endpoint) by (split; [done|split; [by repeat constructor|split; [cbn; lia|by right]]]).
  split; [exact Hok|].
  destruct (endpoint_conversions 2 10 demo_endpoint [255; 255] (mkSockaddr 0 0 []) Hok ltac:(lia)) as [(name & E1 & _ & _ & E2) _].
  exists name. split; [exact E1|exact E2].
Defined.
