(* ===== verification/PackageFields.v ===== *)
(** * Fields of packages

    The tables of [BDTCore/Protocol/PackageImp.imp.inl]: the packages' members
    by name, so that a field of one package can be left out when another
    package, the reference, has the same value under the same name.  A struct
    is its type, its flags and its members; [Package.h] declares which members
    a type has.  Pointers to [BdtPeerInfo] are an interface, [PeerInfoOps] and
    [PeerInfoLaws]. *)

From S2P Require Import Prelude CInt BufferStream Codec Forward Endpoint.

(** ** Package types and flags *)

Definition BDT_SYN_TUNNEL_PACKAGE : Z := 1.
Definition BDT_ACK_TUNNEL_PACKAGE : Z := 2.
Definition BDT_ACKACK_TUNNEL_PACKAGE : Z := 3.
Definition BDT_PING_TUNNEL_PACKAGE : Z := 4.
Definition BDT_PING_TUNNEL_RESP_PACKAGE : Z := 5.
Definition BDT_SN_CALL_PACKAGE : Z := 32.
Definition BDT_SN_CALL_RESP_PACKAGE : Z := 33.
Definition BDT_SN_CALLED_PACKAGE : Z := 34.
Definition BDT_SN_CALLED_RESP_PACKAGE : Z := 35.
Definition BDT_SN_PING_PACKAGE : Z := 36.
Definition BDT_SN_PING_RESP_PACKAGE : Z := 37.
Definition BDT_DATA_GRAM_PACKAGE : Z := 48.
Definition BDT_TCP_SYN_CONNECTION_PACKAGE : Z := 65.
Definition BDT_TCP_ACK_CONNECTION_PACKAGE : Z := 66.
Definition BDT_TCP_ACKACK_CONNECTION_PACKAGE : Z := 67.

Definition BDT_PACKAGE_FLAG_DISABLE_REF : Z := Z.shiftl 1 15.
Definition BDT_PACKAGE_FLAG_DEFAULT : Z := 0.

Definition BDT_EXCHANGEKEY_PACKAGE_FLAG_SEQ : Z := Z.shiftl 1 0.
Definition BDT_EXCHANGEKEY_PACKAGE_FLAG_SEQANDKEYSIGN : Z := Z.shiftl 1 1.
Definition BDT_EXCHANGEKEY_PACKAGE_FLAG_FROMPEERID : Z := Z.shiftl 1 2.
Definition BDT_EXCHANGEKEY_PACKAGE_FLAG_PEERINFO : Z := Z.shiftl 1 3.
Definition BDT_EXCHANGEKEY_PACKAGE_FLAG_SENDTIME : Z := Z.shiftl 1 4.
Definition BDT_SYN_TUNNEL_PACKAGE_FLAG_FROMPEERID : Z := Z.shiftl 1 0.
Definition BDT_SYN_TUNNEL_PACKAGE_FLAG_TOPEERID : Z := Z.shiftl 1 1.
Definition BDT_SYN_TUNNEL_PACKAGE_FLAG_PROXYPEERID : Z := Z.shiftl 1 2.
Definition BDT_SYN_TUNNEL_PACKAGE_FLAG_PROXYPEERINFO : Z := Z.shiftl 1 3.
Definition BDT_SYN_TUNNEL_PACKAGE_FLAG_SEQ : Z := Z.shiftl 1 4.
Definition BDT_SYN_TUNNEL_PACKAGE_FLAG_FROMCONTAINERID : Z := Z.shiftl 1 5.
Definition BDT_SYN_TUNNEL_PACKAGE_FLAG_PEERINFO : Z := Z.shiftl 1 6.
Definition BDT_SYN_TUNNEL_PACKAGE_FLAG_SENDTIME : Z := Z.shiftl 1 7.
Definition BDT_ACK_TUNNEL_PACKAGE_FLAG_AESKEYHASH : Z := Z.shiftl 1 0.
Definition BDT_ACK_TUNNEL_PACKAGE_FLAG_SEQ : Z := Z.shiftl 1 1.
Definition BDT_ACK_TUNNEL_PACKAGE_FLAG_FROMCONTAINERID : Z := Z.shiftl 1 2.
Definition BDT_ACK_TUNNEL_PACKAGE_FLAG_TOCONTAINERID : Z := Z.shiftl 1 3.
Definition BDT_ACK_TUNNEL_PACKAGE_FLAG_RESULT : Z := Z.shiftl 1 4.
Definition BDT_ACK_TUNNEL_PACKAGE_FLAG_PEERINFO : Z := Z.shiftl 1 5.
Definition BDT_ACK_TUNNEL_PACKAGE_FLAG_SENDTIME : Z := Z.shiftl 1 6.
Definition BDT_ACK_TUNNEL_PACKAGE_FLAG_MTU : Z := Z.shiftl 1 7.
Definition BDT_ACKACK_TUNNEL_PACKAGE_FLAG_SEQ : Z := Z.shiftl 1 0.
Definition BDT_ACKACK_TUNNEL_PACKAGE_FLAG_TOCONTAINERID : Z := Z.shiftl 1 1.
Definition BDT_PING_TUNNEL_PACKAGE_FLAG_PACKAGEID : Z := Z.shiftl 1 0.
Definition BDT_PING_TUNNEL_PACKAGE_FLAG_SENDTIME : Z := Z.shiftl 1 1.
Definition BDT_PING_TUNNEL_PACKAGE_FLAG_RECVDATA : Z := Z.shiftl 1 2.
Definition BDT_PING_TUNNEL_PACKAGE_FLAG_TOCONTAINERID : Z := Z.shiftl 1 3.
Definition BDT_PING_TUNNEL_RESP_PACKAGE_FLAG_ACKPACKAGEID : Z := Z.shiftl 1 0.
Definition BDT_PING_TUNNEL_RESP_PACKAGE_FLAG_SENDTIME : Z := Z.shiftl 1 1.
Definition BDT_PING_TUNNEL_RESP_PACKAGE_FLAG_RECVDATA : Z := Z.shiftl 1 2.
Definition BDT_PING_TUNNEL_RESP_PACKAGE_FLAG_TOCONTAINERID : Z := Z.shiftl 1 3.
Definition BDT_SN_CALL_PACKAGE_FLAG_SEQ : Z := Z.shiftl 1 0.
Definition BDT_SN_CALL_PACKAGE_FLAG_TOPEERID : Z := Z.shiftl 1 1.
Definition BDT_SN_CALL_PACKAGE_FLAG_FROMPEERID : Z := Z.shiftl 1 2.
Definition BDT_SN_CALL_PACKAGE_FLAG_SNPEERID : Z := Z.shiftl 1 3.
Definition BDT_SN_CALL_PACKAGE_FLAG_REVERSEENDPOINTARRAY : Z := Z.shiftl 1 4.
Definition BDT_SN_CALL_PACKAGE_FLAG_PEERINFO : Z := Z.shiftl 1 5.
Definition BDT_SN_CALL_PACKAGE_FLAG_PAYLOAD : Z := Z.shiftl 1 6.
Definition BDT_SN_CALL_PACKAGE_FLAG_ALWAYSCALL : Z := Z.shiftl 1 14.
Definition BDT_SN_CALL_RESP_PACKAGE_FLAG_SEQ : Z := Z.shiftl 1 0.
Definition BDT_SN_CALL_RESP_PACKAGE_FLAG_SNPEERID : Z := Z.shiftl 1 1.
Definition BDT_SN_CALL_RESP_PACKAGE_FLAG_RESULT : Z := Z.shiftl 1 2.
Definition BDT_SN_CALL_RESP_PACKAGE_FLAG_TOPEERINFO : Z := Z.shiftl 1 3.
Definition BDT_SN_CALLED_PACKAGE_FLAG_SEQ : Z := Z.shiftl 1 0.
Definition BDT_SN_CALLED_PACKAGE_FLAG_TOPEERID : Z := Z.shiftl 1 1.
Definition BDT_SN_CALLED_PACKAGE_FLAG_FROMPEERID : Z := Z.shiftl 1 2.
Definition BDT_SN_CALLED_PACKAGE_FLAG_SNPEERID : Z := Z.shiftl 1 3.
Definition BDT_SN_CALLED_PACKAGE_FLAG_REVERSEENDPOINTARRAY : Z := Z.shiftl 1 4.
Definition BDT_SN_CALLED_PACKAGE_FLAG_PEERINFO : Z := Z.shiftl 1 5.
Definition BDT_SN_CALLED_PACKAGE_FLAG_PAYLOAD : Z := Z.shiftl 1 6.
Definition BDT_SN_CALLED_RESP_PACKAGE_FLAG_SEQ : Z := Z.shiftl 1 0.
Definition BDT_SN_CALLED_RESP_PACKAGE_FLAG_RESULT : Z := Z.shiftl 1 1.
Definition BDT_SN_CALLED_RESP_PACKAGE_FLAG_SNPEERID : Z := Z.shiftl 1 2.
Definition BDT_SN_PING_PACKAGE_FLAG_SEQ : Z := Z.shiftl 1 0.
Definition BDT_SN_PING_PACKAGE_FLAG_FROMPEERID : Z := Z.shiftl 1 1.
Definition BDT_SN_PING_PACKAGE_FLAG_SNPEERID : Z := Z.shiftl 1 2.
Definition BDT_SN_PING_PACKAGE_FLAG_PEERINFO : Z := Z.shiftl 1 3.
Definition BDT_SN_PING_RESP_PACKAGE_FLAG_SEQ : Z := Z.shiftl 1 0.
Definition BDT_SN_PING_RESP_PACKAGE_FLAG_SNPEERID : Z := Z.shiftl 1 1.
Definition BDT_SN_PING_RESP_PACKAGE_FLAG_RESULT : Z := Z.shiftl 1 2.
Definition BDT_SN_PING_RESP_PACKAGE_FLAG_PEERINFO : Z := Z.shiftl 1 3.
Definition BDT_SN_PING_RESP_PACKAGE_FLAG_ENDPOINTARRAY : Z := Z.shiftl 1 4.
Definition BDT_DATA_GRAM_PACKAGE_FLAG_SEQ : Z := Z.shiftl 1 0.
Definition BDT_DATA_GRAM_PACKAGE_FLAG_DESTZONE : Z := Z.shiftl 1 1.
Definition BDT_DATA_GRAM_PACKAGE_FLAG_HOPLIMIT : Z := Z.shiftl 1 2.
Definition BDT_DATA_GRAM_PACKAGE_FLAG_PIECE : Z := Z.shiftl 1 3.
Definition BDT_DATA_GRAM_PACKAGE_FLAG_ACKSEQ : Z := Z.shiftl 1 4.
Definition BDT_DATA_GRAM_PACKAGE_FLAG_SENDTIME : Z := Z.shiftl 1 5.
Definition BDT_DATA_GRAM_PACKAGE_FLAG_AUTHORPEERID : Z := Z.shiftl 1 6.
Definition BDT_DATA_GRAM_PACKAGE_FLAG_AUTHORPEERINFO : Z := Z.shiftl 1 7.
Definition BDT_DATA_GRAM_PACKAGE_FLAG_DATASIGN : Z := Z.shiftl 1 8.
Definition BDT_DATA_GRAM_PACKAGE_FLAG_INNERCMDTYPE : Z := Z.shiftl 1 9.
Definition BDT_DATA_GRAM_PACKAGE_FLAG_DATA : Z := Z.shiftl 1 10.
Definition BDT_TCP_SYN_CONNECTION_PACKAGE_FLAG_SEQ : Z := Z.shiftl 1 0.
Definition BDT_TCP_SYN_CONNECTION_PACKAGE_FLAG_RESULT : Z := Z.shiftl 1 1.
Definition BDT_TCP_SYN_CONNECTION_PACKAGE_FLAG_TOVPORT : Z := Z.shiftl 1 2.
Definition BDT_TCP_SYN_CONNECTION_PACKAGE_FLAG_FROMSESSIONID : Z := Z.shiftl 1 3.
Definition BDT_TCP_SYN_CONNECTION_PACKAGE_FLAG_FROMPEERID : Z := Z.shiftl 1 4.
Definition BDT_TCP_SYN_CONNECTION_PACKAGE_FLAG_TOPEERID : Z := Z.shiftl 1 5.
Definition BDT_TCP_SYN_CONNECTION_PACKAGE_FLAG_PROXYPEERID : Z := Z.shiftl 1 6.
Definition BDT_TCP_SYN_CONNECTION_PACKAGE_FLAG_PEERINFO : Z := Z.shiftl 1 7.
Definition BDT_TCP_SYN_CONNECTION_PACKAGE_FLAG_PAYLOAD : Z := Z.shiftl 1 8.
Definition BDT_TCP_SYN_CONNECTION_PACKAGE_FLAG_REVERSEENDPOINTARRAY : Z := Z.shiftl 1 9.
Definition BDT_TCP_SYN_CONNECTION_PACKAGE_FLAG_REVERSE : Z := Z.shiftl 1 10.
Definition BDT_TCP_ACK_CONNECTION_PACKAGE_FLAG_SEQ : Z := Z.shiftl 1 0.
Definition BDT_TCP_ACK_CONNECTION_PACKAGE_FLAG_TOSESSIONID : Z := Z.shiftl 1 1.
Definition BDT_TCP_ACK_CONNECTION_PACKAGE_FLAG_RESULT : Z := Z.shiftl 1 2.
Definition BDT_TCP_ACK_CONNECTION_PACKAGE_FLAG_PEERINFO : Z := Z.shiftl 1 3.
Definition BDT_TCP_ACK_CONNECTION_PACKAGE_FLAG_PAYLOAD : Z := Z.shiftl 1 4.
Definition BDT_TCP_ACKACK_CONNECTION_PACKAGE_FLAG_SEQ : Z := Z.shiftl 1 0.
Definition BDT_TCP_ACKACK_CONNECTION_PACKAGE_FLAG_RESULT : Z := Z.shiftl 1 1.

(** ** Field names *)

(** The names are compared as pointers. *)
Inductive FieldName :=
| s_fieldName_seq
| s_fieldName_seqAndKeySign
| s_fieldName_fromPeerid
| s_fieldName_peerInfo
| s_fieldName_sendTime
| s_fieldName_toPeerid
| s_fieldName_proxyPeerid
| s_fieldName_proxyPeerInfo
| s_fieldName_fromContainerId
| s_fieldName_aesKeyHash
| s_fieldName_toContainerId
| s_fieldName_result
| s_fieldName_mtu
| s_fieldName_packageId
| s_fieldName_recvData
| s_fieldName_ackPackageId
| s_fieldName_snPeerid
| s_fieldName_reverseEndpointArray
| s_fieldName_payload
| s_fieldName_toPeerInfo
| s_fieldName_endpointArray
| s_fieldName_destZone
| s_fieldName_hopLimit
| s_fieldName_piece
| s_fieldName_ackSeq
| s_fieldName_authorPeerid
| s_fieldName_authorPeerInfo
| s_fieldName_dataSign
| s_fieldName_innerCmdType
| s_fieldName_data
| s_fieldName_toVPort
| s_fieldName_fromSessionId
| s_fieldName_toSessionId.

#[export] Instance FieldName_eq_dec : EqDecision FieldName.
Proof. solve_decision. Defined.

(** ** Values *)

(** What [BDTCore/Global/PeerInfo.imp.inl] offers: [PeerInfo] is a pointer that
    is not null. *)
Class PeerInfoOps := {
  PeerInfo : Type;
  BdtPeerInfoIsEqual : option PeerInfo → option PeerInfo → bool;
  BufferWritePeerInfo : option PeerInfo → Write;
  BufferReadPeerInfo : Read (option PeerInfo) }.

(** What it promises: a peer that is written is read as one with the same
    content, and equal pointers to objects in memory have the same content. *)
Class PeerInfoLaws (P : PeerInfoOps) := {
  peer_info_live : option PeerInfo → Prop;
  peer_info_live_null : peer_info_live None;
  forward_peer_info : forward_read BufferReadPeerInfo;
  peer_info_ok : option PeerInfo → Prop;
  peer_info_bytes : option PeerInfo → list Z;
  same_peer_info : option PeerInfo → option PeerInfo → Prop;
  same_peer_info_equivalence :: Equivalence same_peer_info;
  BdtPeerInfoIsEqual_same o o' :
    peer_info_live o → peer_info_live o' → BdtPeerInfoIsEqual o o' = true → same_peer_info o o';
  writes_peer_info o : peer_info_ok o → writes (BufferWritePeerInfo o) (peer_info_bytes o);
  parses_peer_info o :
    peer_info_ok o → parses_to (dec_read BufferReadPeerInfo) (peer_info_bytes o) (same_peer_info o) }.

(** The types of the members. *)
Inductive FieldKind :=
  KUInt8 | KUInt16 | KUInt32 | KUInt64 | KPeerid | KSign | KTinySign | KPeerInfo | KEndpoints | KBuffer.

#[export] Instance FieldKind_eq_dec : EqDecision FieldKind.
Proof. solve_decision. Defined.

(** The members of the structs behind [cmdtype] and [cmdflags]. *)
Definition ExchangeKey_members : list (FieldName * FieldKind) :=
  [(s_fieldName_seq, KUInt32); (s_fieldName_seqAndKeySign, KSign); (s_fieldName_fromPeerid, KPeerid);
   (s_fieldName_sendTime, KUInt64); (s_fieldName_peerInfo, KPeerInfo)].
Definition SynTunnel_members : list (FieldName * FieldKind) :=
  [(s_fieldName_fromPeerid, KPeerid); (s_fieldName_toPeerid, KPeerid); (s_fieldName_proxyPeerid, KPeerid);
   (s_fieldName_seq, KUInt32); (s_fieldName_fromContainerId, KUInt32); (s_fieldName_sendTime, KUInt64);
   (s_fieldName_proxyPeerInfo, KPeerInfo); (s_fieldName_peerInfo, KPeerInfo)].
Definition AckTunnel_members : list (FieldName * FieldKind) :=
  [(s_fieldName_aesKeyHash, KUInt64); (s_fieldName_seq, KUInt32); (s_fieldName_fromContainerId, KUInt32);
   (s_fieldName_toContainerId, KUInt32); (s_fieldName_result, KUInt8); (s_fieldName_sendTime, KUInt64);
   (s_fieldName_mtu, KUInt16); (s_fieldName_peerInfo, KPeerInfo)].
Definition AckAckTunnel_members : list (FieldName * FieldKind) :=
  [(s_fieldName_seq, KUInt32); (s_fieldName_toContainerId, KUInt32)].
Definition PingTunnel_members : list (FieldName * FieldKind) :=
  [(s_fieldName_packageId, KUInt32); (s_fieldName_toContainerId, KUInt32); (s_fieldName_sendTime, KUInt64);
   (s_fieldName_recvData, KUInt64)].
Definition PingTunnelResp_members : list (FieldName * FieldKind) :=
  [(s_fieldName_ackPackageId, KUInt32); (s_fieldName_toContainerId, KUInt32); (s_fieldName_sendTime, KUInt64);
   (s_fieldName_recvData, KUInt64)].
Definition SnCall_members : list (FieldName * FieldKind) :=
  [(s_fieldName_seq, KUInt32); (s_fieldName_toPeerid, KPeerid); (s_fieldName_fromPeerid, KPeerid);
   (s_fieldName_snPeerid, KPeerid); (s_fieldName_reverseEndpointArray, KEndpoints);
   (s_fieldName_peerInfo, KPeerInfo); (s_fieldName_payload, KBuffer)].
Definition SnCallResp_members : list (FieldName * FieldKind) :=
  [(s_fieldName_seq, KUInt32); (s_fieldName_snPeerid, KPeerid); (s_fieldName_result, KUInt8);
   (s_fieldName_toPeerInfo, KPeerInfo)].
Definition SnCalled_members : list (FieldName * FieldKind) :=
  [(s_fieldName_seq, KUInt32); (s_fieldName_toPeerid, KPeerid); (s_fieldName_fromPeerid, KPeerid);
   (s_fieldName_snPeerid, KPeerid); (s_fieldName_reverseEndpointArray, KEndpoints);
   (s_fieldName_peerInfo, KPeerInfo); (s_fieldName_payload, KBuffer)].
Definition SnCalledResp_members : list (FieldName * FieldKind) :=
  [(s_fieldName_seq, KUInt32); (s_fieldName_result, KUInt8); (s_fieldName_snPeerid, KPeerid)].
Definition SnPing_members : list (FieldName * FieldKind) :=
  [(s_fieldName_seq, KUInt32); (s_fieldName_fromPeerid, KPeerid); (s_fieldName_snPeerid, KPeerid);
   (s_fieldName_peerInfo, KPeerInfo)].
Definition SnPingResp_members : list (FieldName * FieldKind) :=
  [(s_fieldName_seq, KUInt32); (s_fieldName_snPeerid, KPeerid); (s_fieldName_result, KUInt8);
   (s_fieldName_endpointArray, KEndpoints); (s_fieldName_peerInfo, KPeerInfo)].
Definition DataGram_members : list (FieldName * FieldKind) :=
  [(s_fieldName_seq, KUInt32); (s_fieldName_destZone, KUInt32); (s_fieldName_hopLimit, KUInt8);
   (s_fieldName_piece, KUInt16); (s_fieldName_ackSeq, KUInt32); (s_fieldName_sendTime, KUInt64);
   (s_fieldName_authorPeerid, KPeerid); (s_fieldName_dataSign, KTinySign); (s_fieldName_innerCmdType, KUInt8);
   (s_fieldName_authorPeerInfo, KPeerInfo); (s_fieldName_data, KBuffer)].
Definition TcpSynConnection_members : list (FieldName * FieldKind) :=
  [(s_fieldName_seq, KUInt32); (s_fieldName_result, KUInt8); (s_fieldName_toVPort, KUInt16);
   (s_fieldName_fromSessionId, KUInt32); (s_fieldName_fromPeerid, KPeerid); (s_fieldName_toPeerid, KPeerid);
   (s_fieldName_proxyPeerid, KPeerid); (s_fieldName_peerInfo, KPeerInfo);
   (s_fieldName_reverseEndpointArray, KEndpoints); (s_fieldName_payload, KBuffer)].
Definition TcpAckConnection_members : list (FieldName * FieldKind) :=
  [(s_fieldName_seq, KUInt32); (s_fieldName_toSessionId, KUInt32); (s_fieldName_result, KUInt8);
   (s_fieldName_peerInfo, KPeerInfo); (s_fieldName_payload, KBuffer)].
Definition TcpAckAckConnection_members : list (FieldName * FieldKind) :=
  [(s_fieldName_seq, KUInt32); (s_fieldName_result, KUInt8)].

Definition struct_members (cmdtype : Z) : list (FieldName * FieldKind) :=
  if cmdtype =? BDT_EXCHANGEKEY_PACKAGE then ExchangeKey_members else
  if cmdtype =? BDT_SYN_TUNNEL_PACKAGE then SynTunnel_members else
  if cmdtype =? BDT_ACK_TUNNEL_PACKAGE then AckTunnel_members else
  if cmdtype =? BDT_ACKACK_TUNNEL_PACKAGE then AckAckTunnel_members else
  if cmdtype =? BDT_PING_TUNNEL_PACKAGE then PingTunnel_members else
  if cmdtype =? BDT_PING_TUNNEL_RESP_PACKAGE then PingTunnelResp_members else
  if cmdtype =? BDT_SN_CALL_PACKAGE then SnCall_members else
  if cmdtype =? BDT_SN_CALL_RESP_PACKAGE then SnCallResp_members else
  if cmdtype =? BDT_SN_CALLED_PACKAGE then SnCalled_members else
  if cmdtype =? BDT_SN_CALLED_RESP_PACKAGE then SnCalledResp_members else
  if cmdtype =? BDT_SN_PING_PACKAGE then SnPing_members else
  if cmdtype =? BDT_SN_PING_RESP_PACKAGE then SnPingResp_members else
  if cmdtype =? BDT_DATA_GRAM_PACKAGE then DataGram_members else
  if cmdtype =? BDT_TCP_SYN_CONNECTION_PACKAGE then TcpSynConnection_members else
  if cmdtype =? BDT_TCP_ACK_CONNECTION_PACKAGE then TcpAckConnection_members else
  if cmdtype =? BDT_TCP_ACKACK_CONNECTION_PACKAGE then TcpAckAckConnection_members else
  [].
Section Packages.
Context {P : PeerInfoOps}.

(** [None] is a null pointer or handle. *)
Inductive FieldValue :=
| VInt (v : Z)
| VBytes (bytes : list Z)
| VPeerInfo (o : option PeerInfo)
| VEndpoints (list : list BdtEndpoint)
| VBuffer (o : option (list Z)).

Record Package := mkPackage { pk_cmdtype : Z; pk_cmdflags : Z; pk_member : FieldName → FieldValue }.

Definition BDT_PEERID_LENGTH : nat := 32.
Definition BDT_SEQ_AND_KEY_SIGN_LENGTH : nat := 128.

(** A member after [memset], and after [BdtEndpointArrayInit]. *)
Definition zero_value (kind : FieldKind) : FieldValue :=
  match kind with
  | KUInt8 | KUInt16 | KUInt32 | KUInt64 => VInt 0
  | KPeerid => VBytes (replicate BDT_PEERID_LENGTH 0)
  | KSign => VBytes (replicate BDT_SEQ_AND_KEY_SIGN_LENGTH 0)
  | KTinySign => VBytes (replicate 16 0)
  | KPeerInfo => VPeerInfo None
  | KEndpoints => VEndpoints []
  | KBuffer => VBuffer None
  end.

Fixpoint member_kind (members : list (FieldName * FieldKind)) (n : FieldName) : option FieldKind :=
  match members with
  | [] => None
  | (m, kind) :: members => if decide (n = m) then Some kind else member_kind members n
  end.

(** [memset] and the type; a name that is no member of the struct has no
    meaning. *)
Definition package_init (cmdtype : Z) : Package :=
  mkPackage cmdtype BDT_PACKAGE_FLAG_DEFAULT
    (λ n, default (VInt 0) (zero_value <$> member_kind (struct_members cmdtype) n)).

(** [== 0], [== NULL], [.size == 0] and [memcmp] with zeros. *)
Definition is_zero (v : FieldValue) : bool :=
  match v with
  | VInt v => v =? 0
  | VBytes bytes => forallb (λ b, b =? 0) bytes
  | VPeerInfo o => bool_decide (o = None)
  | VEndpoints list => bool_decide (list = [])
  | VBuffer o => bool_decide (o = None)
  end.

(** [None] is the [assert(0)] behind the [switch]. *)
Definition GetPackageFieldName (cmdtype fieldFlags : Z) : option FieldName :=
  if cmdtype =? BDT_EXCHANGEKEY_PACKAGE then
    if fieldFlags =? BDT_EXCHANGEKEY_PACKAGE_FLAG_SEQ then Some s_fieldName_seq else
    if fieldFlags =? BDT_EXCHANGEKEY_PACKAGE_FLAG_SEQANDKEYSIGN then Some s_fieldName_seqAndKeySign else
    if fieldFlags =? BDT_EXCHANGEKEY_PACKAGE_FLAG_FROMPEERID then Some s_fieldName_fromPeerid else
    if fieldFlags =? BDT_EXCHANGEKEY_PACKAGE_FLAG_PEERINFO then Some s_fieldName_peerInfo else
    if fieldFlags =? BDT_EXCHANGEKEY_PACKAGE_FLAG_SENDTIME then Some s_fieldName_sendTime else
    None else
  if cmdtype =? BDT_SYN_TUNNEL_PACKAGE then
    if fieldFlags =? BDT_SYN_TUNNEL_PACKAGE_FLAG_FROMPEERID then Some s_fieldName_fromPeerid else
    if fieldFlags =? BDT_SYN_TUNNEL_PACKAGE_FLAG_TOPEERID then Some s_fieldName_toPeerid else
    if fieldFlags =? BDT_SYN_TUNNEL_PACKAGE_FLAG_PROXYPEERID then Some s_fieldName_proxyPeerid else
    if fieldFlags =? BDT_SYN_TUNNEL_PACKAGE_FLAG_PROXYPEERINFO then Some s_fieldName_proxyPeerInfo else
    if fieldFlags =? BDT_SYN_TUNNEL_PACKAGE_FLAG_SEQ then Some s_fieldName_seq else
    if fieldFlags =? BDT_SYN_TUNNEL_PACKAGE_FLAG_FROMCONTAINERID then Some s_fieldName_fromContainerId else
    if fieldFlags =? BDT_SYN_TUNNEL_PACKAGE_FLAG_PEERINFO then Some s_fieldName_peerInfo else
    if fieldFlags =? BDT_SYN_TUNNEL_PACKAGE_FLAG_SENDTIME then Some s_fieldName_sendTime else
    None else
  if cmdtype =? BDT_ACK_TUNNEL_PACKAGE then
    if fieldFlags =? BDT_ACK_TUNNEL_PACKAGE_FLAG_AESKEYHASH then Some s_fieldName_aesKeyHash else
    if fieldFlags =? BDT_ACK_TUNNEL_PACKAGE_FLAG_SEQ then Some s_fieldName_seq else
    if fieldFlags =? BDT_ACK_TUNNEL_PACKAGE_FLAG_FROMCONTAINERID then Some s_fieldName_fromContainerId else
    if fieldFlags =? BDT_ACK_TUNNEL_PACKAGE_FLAG_TOCONTAINERID then Some s_fieldName_toContainerId else
    if fieldFlags =? BDT_ACK_TUNNEL_PACKAGE_FLAG_RESULT then Some s_fieldName_result else
    if fieldFlags =? BDT_ACK_TUNNEL_PACKAGE_FLAG_PEERINFO then Some s_fieldName_peerInfo else
    if fieldFlags =? BDT_ACK_TUNNEL_PACKAGE_FLAG_SENDTIME then Some s_fieldName_sendTime else
    if fieldFlags =? BDT_ACK_TUNNEL_PACKAGE_FLAG_MTU then Some s_fieldName_mtu else
    None else
  if cmdtype =? BDT_ACKACK_TUNNEL_PACKAGE then
    if fieldFlags =? BDT_ACKACK_TUNNEL_PACKAGE_FLAG_SEQ then Some s_fieldName_seq else
    if fieldFlags =? BDT_ACKACK_TUNNEL_PACKAGE_FLAG_TOCONTAINERID then Some s_fieldName_toContainerId else
    None else
  if cmdtype =? BDT_PING_TUNNEL_PACKAGE then
    if fieldFlags =? BDT_PING_TUNNEL_PACKAGE_FLAG_TOCONTAINERID then Some s_fieldName_toContainerId else
    if fieldFlags =? BDT_PING_TUNNEL_PACKAGE_FLAG_PACKAGEID then Some s_fieldName_packageId else
    if fieldFlags =? BDT_PING_TUNNEL_PACKAGE_FLAG_SENDTIME then Some s_fieldName_sendTime else
    if fieldFlags =? BDT_PING_TUNNEL_PACKAGE_FLAG_RECVDATA then Some s_fieldName_recvData else
    None else
  if cmdtype =? BDT_PING_TUNNEL_RESP_PACKAGE then
    if fieldFlags =? BDT_PING_TUNNEL_RESP_PACKAGE_FLAG_TOCONTAINERID then Some s_fieldName_toContainerId else
    if fieldFlags =? BDT_PING_TUNNEL_RESP_PACKAGE_FLAG_ACKPACKAGEID then Some s_fieldName_ackPackageId else
    if fieldFlags =? BDT_PING_TUNNEL_RESP_PACKAGE_FLAG_SENDTIME then Some s_fieldName_sendTime else
    if fieldFlags =? BDT_PING_TUNNEL_RESP_PACKAGE_FLAG_RECVDATA then Some s_fieldName_recvData else
    None else
  if cmdtype =? BDT_SN_CALL_PACKAGE then
    if fieldFlags =? BDT_SN_CALL_PACKAGE_FLAG_SEQ then Some s_fieldName_seq else
    if fieldFlags =? BDT_SN_CALL_PACKAGE_FLAG_SNPEERID then Some s_fieldName_snPeerid else
    if fieldFlags =? BDT_SN_CALL_PACKAGE_FLAG_TOPEERID then Some s_fieldName_toPeerid else
    if fieldFlags =? BDT_SN_CALL_PACKAGE_FLAG_FROMPEERID then Some s_fieldName_fromPeerid else
    if fieldFlags =? BDT_SN_CALL_PACKAGE_FLAG_REVERSEENDPOINTARRAY then Some s_fieldName_reverseEndpointArray else
    if fieldFlags =? BDT_SN_CALL_PACKAGE_FLAG_PEERINFO then Some s_fieldName_peerInfo else
    if fieldFlags =? BDT_SN_CALL_PACKAGE_FLAG_PAYLOAD then Some s_fieldName_payload else
    None else
  if cmdtype =? BDT_SN_CALL_RESP_PACKAGE then
    if fieldFlags =? BDT_SN_CALL_RESP_PACKAGE_FLAG_SEQ then Some s_fieldName_seq else
    if fieldFlags =? BDT_SN_CALL_RESP_PACKAGE_FLAG_SNPEERID then Some s_fieldName_snPeerid else
    if fieldFlags =? BDT_SN_CALL_RESP_PACKAGE_FLAG_RESULT then Some s_fieldName_result else
    if fieldFlags =? BDT_SN_CALL_RESP_PACKAGE_FLAG_TOPEERINFO then Some s_fieldName_toPeerInfo else
    None else
  if cmdtype =? BDT_SN_CALLED_PACKAGE then
    if fieldFlags =? BDT_SN_CALLED_PACKAGE_FLAG_SEQ then Some s_fieldName_seq else
    if fieldFlags =? BDT_SN_CALLED_PACKAGE_FLAG_SNPEERID then Some s_fieldName_snPeerid else
    if fieldFlags =? BDT_SN_CALLED_PACKAGE_FLAG_TOPEERID then Some s_fieldName_toPeerid else
    if fieldFlags =? BDT_SN_CALLED_PACKAGE_FLAG_FROMPEERID then Some s_fieldName_fromPeerid else
    if fieldFlags =? BDT_SN_CALLED_PACKAGE_FLAG_REVERSEENDPOINTARRAY then Some s_fieldName_reverseEndpointArray else
    if fieldFlags =? BDT_SN_CALLED_PACKAGE_FLAG_PEERINFO then Some s_fieldName_peerInfo else
    if fieldFlags =? BDT_SN_CALLED_PACKAGE_FLAG_PAYLOAD then Some s_fieldName_payload else
    None else
  if cmdtype =? BDT_SN_CALLED_RESP_PACKAGE then
    if fieldFlags =? BDT_SN_CALLED_RESP_PACKAGE_FLAG_SEQ then Some s_fieldName_seq else
    if fieldFlags =? BDT_SN_CALLED_RESP_PACKAGE_FLAG_SNPEERID then Some s_fieldName_snPeerid else
    if fieldFlags =? BDT_SN_CALLED_RESP_PACKAGE_FLAG_RESULT then Some s_fieldName_result else
    None else
  if cmdtype =? BDT_SN_PING_PACKAGE then
    if fieldFlags =? BDT_SN_PING_PACKAGE_FLAG_SEQ then Some s_fieldName_seq else
    if fieldFlags =? BDT_SN_PING_PACKAGE_FLAG_SNPEERID then Some s_fieldName_snPeerid else
    if fieldFlags =? BDT_SN_PING_PACKAGE_FLAG_FROMPEERID then Some s_fieldName_fromPeerid else
    if fieldFlags =? BDT_SN_PING_PACKAGE_FLAG_PEERINFO then Some s_fieldName_peerInfo else
    None else
  if cmdtype =? BDT_SN_PING_RESP_PACKAGE then
    if fieldFlags =? BDT_SN_PING_RESP_PACKAGE_FLAG_SEQ then Some s_fieldName_seq else
    if fieldFlags =? BDT_SN_PING_RESP_PACKAGE_FLAG_SNPEERID then Some s_fieldName_snPeerid else
    if fieldFlags =? BDT_SN_PING_RESP_PACKAGE_FLAG_RESULT then Some s_fieldName_result else
    if fieldFlags =? BDT_SN_PING_RESP_PACKAGE_FLAG_PEERINFO then Some s_fieldName_peerInfo else
    if fieldFlags =? BDT_SN_PING_RESP_PACKAGE_FLAG_ENDPOINTARRAY then Some s_fieldName_endpointArray else
    None else
  if cmdtype =? BDT_DATA_GRAM_PACKAGE then
    if fieldFlags =? BDT_DATA_GRAM_PACKAGE_FLAG_SEQ then Some s_fieldName_seq else
    if fieldFlags =? BDT_DATA_GRAM_PACKAGE_FLAG_DESTZONE then Some s_fieldName_destZone else
    if fieldFlags =? BDT_DATA_GRAM_PACKAGE_FLAG_HOPLIMIT then Some s_fieldName_hopLimit else
    if fieldFlags =? BDT_DATA_GRAM_PACKAGE_FLAG_PIECE then Some s_fieldName_piece else
    if fieldFlags =? BDT_DATA_GRAM_PACKAGE_FLAG_ACKSEQ then Some s_fieldName_ackSeq else
    if fieldFlags =? BDT_DATA_GRAM_PACKAGE_FLAG_SENDTIME then Some s_fieldName_sendTime else
    if fieldFlags =? BDT_DATA_GRAM_PACKAGE_FLAG_AUTHORPEERID then Some s_fieldName_authorPeerid else
    if fieldFlags =? BDT_DATA_GRAM_PACKAGE_FLAG_AUTHORPEERINFO then Some s_fieldName_authorPeerInfo else
    if fieldFlags =? BDT_DATA_GRAM_PACKAGE_FLAG_DATASIGN then Some s_fieldName_dataSign else
    if fieldFlags =? BDT_DATA_GRAM_PACKAGE_FLAG_INNERCMDTYPE then Some s_fieldName_innerCmdType else
    if fieldFlags =? BDT_DATA_GRAM_PACKAGE_FLAG_DATA then Some s_fieldName_data else
    None else
  if cmdtype =? BDT_TCP_SYN_CONNECTION_PACKAGE then
    if fieldFlags =? BDT_TCP_SYN_CONNECTION_PACKAGE_FLAG_SEQ then Some s_fieldName_seq else
    if fieldFlags =? BDT_TCP_SYN_CONNECTION_PACKAGE_FLAG_RESULT then Some s_fieldName_result else
    if fieldFlags =? BDT_TCP_SYN_CONNECTION_PACKAGE_FLAG_TOVPORT then Some s_fieldName_toVPort else
    if fieldFlags =? BDT_TCP_SYN_CONNECTION_PACKAGE_FLAG_FROMSESSIONID then Some s_fieldName_fromSessionId else
    if fieldFlags =? BDT_TCP_SYN_CONNECTION_PACKAGE_FLAG_FROMPEERID then Some s_fieldName_fromPeerid else
    if fieldFlags =? BDT_TCP_SYN_CONNECTION_PACKAGE_FLAG_TOPEERID then Some s_fieldName_toPeerid else
    if fieldFlags =? BDT_TCP_SYN_CONNECTION_PACKAGE_FLAG_PROXYPEERID then Some s_fieldName_proxyPeerid else
    if fieldFlags =? BDT_TCP_SYN_CONNECTION_PACKAGE_FLAG_PEERINFO then Some s_fieldName_peerInfo else
    if fieldFlags =? BDT_TCP_SYN_CONNECTION_PACKAGE_FLAG_REVERSEENDPOINTARRAY then Some s_fieldName_reverseEndpointArray else
    if fieldFlags =? BDT_TCP_SYN_CONNECTION_PACKAGE_FLAG_PAYLOAD then Some s_fieldName_payload else
    None else
  if cmdtype =? BDT_TCP_ACK_CONNECTION_PACKAGE then
    if fieldFlags =? BDT_TCP_ACK_CONNECTION_PACKAGE_FLAG_SEQ then Some s_fieldName_seq else
    if fieldFlags =? BDT_TCP_ACK_CONNECTION_PACKAGE_FLAG_TOSESSIONID then Some s_fieldName_toSessionId else
    if fieldFlags =? BDT_TCP_ACK_CONNECTION_PACKAGE_FLAG_RESULT then Some s_fieldName_result else
    if fieldFlags =? BDT_TCP_ACK_CONNECTION_PACKAGE_FLAG_PEERINFO then Some s_fieldName_peerInfo else
    if fieldFlags =? BDT_TCP_ACK_CONNECTION_PACKAGE_FLAG_PAYLOAD then Some s_fieldName_payload else
    None else
  if cmdtype =? BDT_TCP_ACKACK_CONNECTION_PACKAGE then
    if fieldFlags =? BDT_TCP_ACKACK_CONNECTION_PACKAGE_FLAG_SEQ then Some s_fieldName_seq else
    if fieldFlags =? BDT_TCP_ACKACK_CONNECTION_PACKAGE_FLAG_RESULT then Some s_fieldName_result else
    None else
  None.

Definition IsEqualPackageFieldDefaultValue (package : Package) (fieldFlags : Z) : bool :=
  let member := pk_member package in
  if pk_cmdtype package =? BDT_SYN_TUNNEL_PACKAGE then
    if fieldFlags =? BDT_SYN_TUNNEL_PACKAGE_FLAG_FROMPEERID then is_zero (member s_fieldName_fromPeerid) else
    if fieldFlags =? BDT_SYN_TUNNEL_PACKAGE_FLAG_TOPEERID then is_zero (member s_fieldName_toPeerid) else
    if fieldFlags =? BDT_SYN_TUNNEL_PACKAGE_FLAG_PROXYPEERID then is_zero (member s_fieldName_proxyPeerid) else
    if fieldFlags =? BDT_SYN_TUNNEL_PACKAGE_FLAG_PROXYPEERINFO then is_zero (member s_fieldName_proxyPeerInfo) else
    if fieldFlags =? BDT_SYN_TUNNEL_PACKAGE_FLAG_SEQ then is_zero (member s_fieldName_seq) else
    if fieldFlags =? BDT_SYN_TUNNEL_PACKAGE_FLAG_FROMCONTAINERID then is_zero (member s_fieldName_fromContainerId) else
    if fieldFlags =? BDT_SYN_TUNNEL_PACKAGE_FLAG_PEERINFO then is_zero (member s_fieldName_peerInfo) else
    if fieldFlags =? BDT_SYN_TUNNEL_PACKAGE_FLAG_SENDTIME then is_zero (member s_fieldName_sendTime) else
    false else
  if pk_cmdtype package =? BDT_ACK_TUNNEL_PACKAGE then
    if fieldFlags =? BDT_ACK_TUNNEL_PACKAGE_FLAG_AESKEYHASH then is_zero (member s_fieldName_aesKeyHash) else
    if fieldFlags =? BDT_ACK_TUNNEL_PACKAGE_FLAG_SEQ then is_zero (member s_fieldName_seq) else
    if fieldFlags =? BDT_ACK_TUNNEL_PACKAGE_FLAG_FROMCONTAINERID then is_zero (member s_fieldName_fromContainerId) else
    if fieldFlags =? BDT_ACK_TUNNEL_PACKAGE_FLAG_TOCONTAINERID then is_zero (member s_fieldName_toContainerId) else
    if fieldFlags =? BDT_ACK_TUNNEL_PACKAGE_FLAG_RESULT then is_zero (member s_fieldName_result) else
    if fieldFlags =? BDT_ACK_TUNNEL_PACKAGE_FLAG_PEERINFO then is_zero (member s_fieldName_peerInfo) else
    if fieldFlags =? BDT_ACK_TUNNEL_PACKAGE_FLAG_SENDTIME then is_zero (member s_fieldName_sendTime) else
    if fieldFlags =? BDT_ACK_TUNNEL_PACKAGE_FLAG_MTU then is_zero (member s_fieldName_mtu) else
    false else
  if pk_cmdtype package =? BDT_ACKACK_TUNNEL_PACKAGE then
    if fieldFlags =? BDT_ACKACK_TUNNEL_PACKAGE_FLAG_SEQ then is_zero (member s_fieldName_seq) else
    if fieldFlags =? BDT_ACKACK_TUNNEL_PACKAGE_FLAG_TOCONTAINERID then is_zero (member s_fieldName_toContainerId) else
    false else
  if pk_cmdtype package =? BDT_PING_TUNNEL_PACKAGE then
    if fieldFlags =? BDT_PING_TUNNEL_PACKAGE_FLAG_TOCONTAINERID then is_zero (member s_fieldName_toContainerId) else
    if fieldFlags =? BDT_PING_TUNNEL_PACKAGE_FLAG_PACKAGEID then is_zero (member s_fieldName_packageId) else
    if fieldFlags =? BDT_PING_TUNNEL_PACKAGE_FLAG_SENDTIME then is_zero (member s_fieldName_sendTime) else
    if fieldFlags =? BDT_PING_TUNNEL_PACKAGE_FLAG_RECVDATA then is_zero (member s_fieldName_recvData) else
    false else
  if pk_cmdtype package =? BDT_PING_TUNNEL_RESP_PACKAGE then
    if fieldFlags =? BDT_PING_TUNNEL_RESP_PACKAGE_FLAG_TOCONTAINERID then is_zero (member s_fieldName_toContainerId) else
    if fieldFlags =? BDT_PING_TUNNEL_RESP_PACKAGE_FLAG_ACKPACKAGEID then is_zero (member s_fieldName_ackPackageId) else
    if fieldFlags =? BDT_PING_TUNNEL_RESP_PACKAGE_FLAG_SENDTIME then is_zero (member s_fieldName_sendTime) else
    if fieldFlags =? BDT_PING_TUNNEL_RESP_PACKAGE_FLAG_RECVDATA then is_zero (member s_fieldName_recvData) else
    false else
  if pk_cmdtype package =? BDT_SN_CALL_PACKAGE then
    if fieldFlags =? BDT_SN_CALL_PACKAGE_FLAG_SEQ then is_zero (member s_fieldName_seq) else
    if fieldFlags =? BDT_SN_CALL_PACKAGE_FLAG_SNPEERID then is_zero (member s_fieldName_snPeerid) else
    if fieldFlags =? BDT_SN_CALL_PACKAGE_FLAG_TOPEERID then is_zero (member s_fieldName_toPeerid) else
    if fieldFlags =? BDT_SN_CALL_PACKAGE_FLAG_FROMPEERID then is_zero (member s_fieldName_fromPeerid) else
    if fieldFlags =? BDT_SN_CALL_PACKAGE_FLAG_REVERSEENDPOINTARRAY then is_zero (member s_fieldName_reverseEndpointArray) else
    if fieldFlags =? BDT_SN_CALL_PACKAGE_FLAG_PEERINFO then is_zero (member s_fieldName_peerInfo) else
    if fieldFlags =? BDT_SN_CALL_PACKAGE_FLAG_PAYLOAD then is_zero (member s_fieldName_payload) else
    false else
  if pk_cmdtype package =? BDT_SN_CALL_RESP_PACKAGE then
    if fieldFlags =? BDT_SN_CALL_RESP_PACKAGE_FLAG_SEQ then is_zero (member s_fieldName_seq) else
    if fieldFlags =? BDT_SN_CALL_RESP_PACKAGE_FLAG_SNPEERID then is_zero (member s_fieldName_snPeerid) else
    if fieldFlags =? BDT_SN_CALL_RESP_PACKAGE_FLAG_RESULT then is_zero (member s_fieldName_result) else
    if fieldFlags =? BDT_SN_CALL_RESP_PACKAGE_FLAG_TOPEERINFO then is_zero (member s_fieldName_toPeerInfo) else
    false else
  if pk_cmdtype package =? BDT_SN_CALLED_PACKAGE then
    if fieldFlags =? BDT_SN_CALLED_PACKAGE_FLAG_SEQ then is_zero (member s_fieldName_seq) else
    if fieldFlags =? BDT_SN_CALLED_PACKAGE_FLAG_SNPEERID then is_zero (member s_fieldName_snPeerid) else
    if fieldFlags =? BDT_SN_CALLED_PACKAGE_FLAG_TOPEERID then is_zero (member s_fieldName_toPeerid) else
    if fieldFlags =? BDT_SN_CALLED_PACKAGE_FLAG_FROMPEERID then is_zero (member s_fieldName_fromPeerid) else
    if fieldFlags =? BDT_SN_CALLED_PACKAGE_FLAG_REVERSEENDPOINTARRAY then is_zero (member s_fieldName_reverseEndpointArray) else
    if fieldFlags =? BDT_SN_CALLED_PACKAGE_FLAG_PEERINFO then is_zero (member s_fieldName_peerInfo) else
    if fieldFlags =? BDT_SN_CALLED_PACKAGE_FLAG_PAYLOAD then is_zero (member s_fieldName_payload) else
    false else
  if pk_cmdtype package =? BDT_SN_CALLED_RESP_PACKAGE then
    if fieldFlags =? BDT_SN_CALLED_RESP_PACKAGE_FLAG_SEQ then is_zero (member s_fieldName_seq) else
    if fieldFlags =? BDT_SN_CALLED_RESP_PACKAGE_FLAG_SNPEERID then is_zero (member s_fieldName_snPeerid) else
    if fieldFlags =? BDT_SN_CALLED_RESP_PACKAGE_FLAG_RESULT then is_zero (member s_fieldName_result) else
    false else
  if pk_cmdtype package =? BDT_SN_PING_PACKAGE then
    if fieldFlags =? BDT_SN_PING_PACKAGE_FLAG_SEQ then is_zero (member s_fieldName_seq) else
    if fieldFlags =? BDT_SN_PING_PACKAGE_FLAG_SNPEERID then is_zero (member s_fieldName_snPeerid) else
    if fieldFlags =? BDT_SN_PING_PACKAGE_FLAG_FROMPEERID then is_zero (member s_fieldName_fromPeerid) else
    if fieldFlags =? BDT_SN_PING_PACKAGE_FLAG_PEERINFO then is_zero (member s_fieldName_peerInfo) else
    false else
  if pk_cmdtype package =? BDT_SN_PING_RESP_PACKAGE then
    if fieldFlags =? BDT_SN_PING_RESP_PACKAGE_FLAG_SEQ then is_zero (member s_fieldName_seq) else
    if fieldFlags =? BDT_SN_PING_RESP_PACKAGE_FLAG_SNPEERID then is_zero (member s_fieldName_snPeerid) else
    if fieldFlags =? BDT_SN_PING_RESP_PACKAGE_FLAG_RESULT then is_zero (member s_fieldName_result) else
    if fieldFlags =? BDT_SN_PING_RESP_PACKAGE_FLAG_PEERINFO then is_zero (member s_fieldName_peerInfo) else
    if fieldFlags =? BDT_SN_PING_RESP_PACKAGE_FLAG_ENDPOINTARRAY then is_zero (member s_fieldName_endpointArray) else
    false else
  if pk_cmdtype package =? BDT_DATA_GRAM_PACKAGE then
    if fieldFlags =? BDT_DATA_GRAM_PACKAGE_FLAG_SEQ then is_zero (member s_fieldName_seq) else
    if fieldFlags =? BDT_DATA_GRAM_PACKAGE_FLAG_DESTZONE then is_zero (member s_fieldName_destZone) else
    if fieldFlags =? BDT_DATA_GRAM_PACKAGE_FLAG_HOPLIMIT then is_zero (member s_fieldName_hopLimit) else
    if fieldFlags =? BDT_DATA_GRAM_PACKAGE_FLAG_PIECE then is_zero (member s_fieldName_piece) else
    if fieldFlags =? BDT_DATA_GRAM_PACKAGE_FLAG_ACKSEQ then is_zero (member s_fieldName_ackSeq) else
    if fieldFlags =? BDT_DATA_GRAM_PACKAGE_FLAG_SENDTIME then is_zero (member s_fieldName_sendTime) else
    if fieldFlags =? BDT_DATA_GRAM_PACKAGE_FLAG_AUTHORPEERID then is_zero (member s_fieldName_authorPeerid) else
    if fieldFlags =? BDT_DATA_GRAM_PACKAGE_FLAG_AUTHORPEERINFO then is_zero (member s_fieldName_authorPeerInfo) else
    if fieldFlags =? BDT_DATA_GRAM_PACKAGE_FLAG_DATASIGN then is_zero (member s_fieldName_dataSign) else
    if fieldFlags =? BDT_DATA_GRAM_PACKAGE_FLAG_INNERCMDTYPE then is_zero (member s_fieldName_innerCmdType) else
    if fieldFlags =? BDT_DATA_GRAM_PACKAGE_FLAG_DATA then is_zero (member s_fieldName_data) else
    false else
  if pk_cmdtype package =? BDT_TCP_SYN_CONNECTION_PACKAGE then
    if fieldFlags =? BDT_TCP_SYN_CONNECTION_PACKAGE_FLAG_SEQ then is_zero (member s_fieldName_seq) else
    if fieldFlags =? BDT_TCP_SYN_CONNECTION_PACKAGE_FLAG_RESULT then is_zero (member s_fieldName_result) else
    if fieldFlags =? BDT_TCP_SYN_CONNECTION_PACKAGE_FLAG_TOVPORT then is_zero (member s_fieldName_toVPort) else
    if fieldFlags =? BDT_TCP_SYN_CONNECTION_PACKAGE_FLAG_FROMSESSIONID then is_zero (member s_fieldName_fromSessionId) else
    if fieldFlags =? BDT_TCP_SYN_CONNECTION_PACKAGE_FLAG_FROMPEERID then is_zero (member s_fieldName_fromPeerid) else
    if fieldFlags =? BDT_TCP_SYN_CONNECTION_PACKAGE_FLAG_TOPEERID then is_zero (member s_fieldName_toPeerid) else
    if fieldFlags =? BDT_TCP_SYN_CONNECTION_PACKAGE_FLAG_PROXYPEERID then is_zero (member s_fieldName_proxyPeerid) else
    if fieldFlags =? BDT_TCP_SYN_CONNECTION_PACKAGE_FLAG_PEERINFO then is_zero (member s_fieldName_peerInfo) else
    if fieldFlags =? BDT_TCP_SYN_CONNECTION_PACKAGE_FLAG_REVERSEENDPOINTARRAY then is_zero (member s_fieldName_reverseEndpointArray) else
    if fieldFlags =? BDT_TCP_SYN_CONNECTION_PACKAGE_FLAG_PAYLOAD then is_zero (member s_fieldName_payload) else
    false else
  if pk_cmdtype package =? BDT_TCP_ACK_CONNECTION_PACKAGE then
    if fieldFlags =? BDT_TCP_ACK_CONNECTION_PACKAGE_FLAG_SEQ then is_zero (member s_fieldName_seq) else
    if fieldFlags =? BDT_TCP_ACK_CONNECTION_PACKAGE_FLAG_TOSESSIONID then is_zero (member s_fieldName_toSessionId) else
    if fieldFlags =? BDT_TCP_ACK_CONNECTION_PACKAGE_FLAG_RESULT then is_zero (member s_fieldName_result) else
    if fieldFlags =? BDT_TCP_ACK_CONNECTION_PACKAGE_FLAG_PEERINFO then is_zero (member s_fieldName_peerInfo) else
    if fieldFlags =? BDT_TCP_ACK_CONNECTION_PACKAGE_FLAG_PAYLOAD then is_zero (member s_fieldName_payload) else
    false else
  if pk_cmdtype package =? BDT_TCP_ACKACK_CONNECTION_PACKAGE then
    if fieldFlags =? BDT_TCP_ACKACK_CONNECTION_PACKAGE_FLAG_SEQ then is_zero (member s_fieldName_seq) else
    if fieldFlags =? BDT_TCP_ACKACK_CONNECTION_PACKAGE_FLAG_RESULT then is_zero (member s_fieldName_result) else
    false else
  false.

(** [None] is the [assert(0)] for payloads, [Some None] is [BFX_RESULT_NOT_FOUND]. *)
Definition GetPackageFieldValueByName (pPackage : Package) (fieldName : FieldName) : option (option FieldValue) :=
  let member := pk_member pPackage in
  if pk_cmdtype pPackage =? BDT_EXCHANGEKEY_PACKAGE then
    if decide (fieldName = s_fieldName_seq) then Some (Some (member s_fieldName_seq)) else
    if decide (fieldName = s_fieldName_seqAndKeySign) then Some (Some (member s_fieldName_seqAndKeySign)) else
    if decide (fieldName = s_fieldName_fromPeerid) then Some (Some (member s_fieldName_fromPeerid)) else
    if decide (fieldName = s_fieldName_peerInfo) then Some (Some (member s_fieldName_peerInfo)) else
    if decide (fieldName = s_fieldName_sendTime) then Some (Some (member s_fieldName_sendTime)) else
    Some None else
  if pk_cmdtype pPackage =? BDT_SYN_TUNNEL_PACKAGE then
    if decide (fieldName = s_fieldName_fromPeerid) then Some (Some (member s_fieldName_fromPeerid)) else
    if decide (fieldName = s_fieldName_toPeerid) then Some (Some (member s_fieldName_toPeerid)) else
    if decide (fieldName = s_fieldName_proxyPeerid) then Some (Some (member s_fieldName_proxyPeerid)) else
    if decide (fieldName = s_fieldName_proxyPeerInfo) then Some (Some (member s_fieldName_proxyPeerInfo)) else
    if decide (fieldName = s_fieldName_seq) then Some (Some (member s_fieldName_seq)) else
    if decide (fieldName = s_fieldName_fromContainerId) then Some (Some (member s_fieldName_fromContainerId)) else
    if decide (fieldName = s_fieldName_peerInfo) then Some (Some (member s_fieldName_peerInfo)) else
    if decide (fieldName = s_fieldName_sendTime) then Some (Some (member s_fieldName_sendTime)) else
    Some None else
  if pk_cmdtype pPackage =? BDT_ACK_TUNNEL_PACKAGE then
    if decide (fieldName = s_fieldName_aesKeyHash) then Some (Some (member s_fieldName_aesKeyHash)) else
    if decide (fieldName = s_fieldName_seq) then Some (Some (member s_fieldName_seq)) else
    if decide (fieldName = s_fieldName_fromContainerId) then Some (Some (member s_fieldName_fromContainerId)) else
    if decide (fieldName = s_fieldName_toContainerId) then Some (Some (member s_fieldName_toContainerId)) else
    if decide (fieldName = s_fieldName_result) then Some (Some (member s_fieldName_result)) else
    if decide (fieldName = s_fieldName_peerInfo) then Some (Some (member s_fieldName_peerInfo)) else
    if decide (fieldName = s_fieldName_sendTime) then Some (Some (member s_fieldName_sendTime)) else
    if decide (fieldName = s_fieldName_mtu) then Some (Some (member s_fieldName_mtu)) else
    Some None else
  if pk_cmdtype pPackage =? BDT_ACKACK_TUNNEL_PACKAGE then
    if decide (fieldName = s_fieldName_seq) then Some (Some (member s_fieldName_seq)) else
    if decide (fieldName = s_fieldName_toContainerId) then Some (Some (member s_fieldName_toContainerId)) else
    Some None else
  if pk_cmdtype pPackage =? BDT_PING_TUNNEL_PACKAGE then
    if decide (fieldName = s_fieldName_toContainerId) then Some (Some (member s_fieldName_toContainerId)) else
    if decide (fieldName = s_fieldName_packageId) then Some (Some (member s_fieldName_packageId)) else
    if decide (fieldName = s_fieldName_sendTime) then Some (Some (member s_fieldName_sendTime)) else
    if decide (fieldName = s_fieldName_recvData) then Some (Some (member s_fieldName_recvData)) else
    Some None else
  if pk_cmdtype pPackage =? BDT_PING_TUNNEL_RESP_PACKAGE then
    if decide (fieldName = s_fieldName_toContainerId) then Some (Some (member s_fieldName_toContainerId)) else
    if decide (fieldName = s_fieldName_ackPackageId) then Some (Some (member s_fieldName_ackPackageId)) else
    if decide (fieldName = s_fieldName_sendTime) then Some (Some (member s_fieldName_sendTime)) else
    if decide (fieldName = s_fieldName_recvData) then Some (Some (member s_fieldName_recvData)) else
    Some None else
  if pk_cmdtype pPackage =? BDT_SN_CALL_PACKAGE then
    if decide (fieldName = s_fieldName_seq) then Some (Some (member s_fieldName_seq)) else
    if decide (fieldName = s_fieldName_snPeerid) then Some (Some (member s_fieldName_snPeerid)) else
    if decide (fieldName = s_fieldName_toPeerid) then Some (Some (member s_fieldName_toPeerid)) else
    if decide (fieldName = s_fieldName_fromPeerid) then Some (Some (member s_fieldName_fromPeerid)) else
    if decide (fieldName = s_fieldName_reverseEndpointArray) then Some (Some (member s_fieldName_reverseEndpointArray)) else
    if decide (fieldName = s_fieldName_peerInfo) then Some (Some (member s_fieldName_peerInfo)) else
    if decide (fieldName = s_fieldName_payload) then None else
    Some None else
  if pk_cmdtype pPackage =? BDT_SN_CALL_RESP_PACKAGE then
    if decide (fieldName = s_fieldName_seq) then Some (Some (member s_fieldName_seq)) else
    if decide (fieldName = s_fieldName_snPeerid) then Some (Some (member s_fieldName_snPeerid)) else
    if decide (fieldName = s_fieldName_result) then Some (Some (member s_fieldName_result)) else
    if decide (fieldName = s_fieldName_toPeerInfo) then Some (Some (member s_fieldName_toPeerInfo)) else
    Some None else
  if pk_cmdtype pPackage =? BDT_SN_CALLED_PACKAGE then
    if decide (fieldName = s_fieldName_seq) then Some (Some (member s_fieldName_seq)) else
    if decide (fieldName = s_fieldName_snPeerid) then Some (Some (member s_fieldName_snPeerid)) else
    if decide (fieldName = s_fieldName_toPeerid) then Some (Some (member s_fieldName_toPeerid)) else
    if decide (fieldName = s_fieldName_fromPeerid) then Some (Some (member s_fieldName_fromPeerid)) else
    if decide (fieldName = s_fieldName_reverseEndpointArray) then Some (Some (member s_fieldName_reverseEndpointArray)) else
    if decide (fieldName = s_fieldName_peerInfo) then Some (Some (member s_fieldName_peerInfo)) else
    if decide (fieldName = s_fieldName_payload) then None else
    Some None else
  if pk_cmdtype pPackage =? BDT_SN_CALLED_RESP_PACKAGE then
    if decide (fieldName = s_fieldName_seq) then Some (Some (member s_fieldName_seq)) else
    if decide (fieldName = s_fieldName_snPeerid) then Some (Some (member s_fieldName_snPeerid)) else
    if decide (fieldName = s_fieldName_result) then Some (Some (member s_fieldName_result)) else
    Some None else
  if pk_cmdtype pPackage =? BDT_SN_PING_PACKAGE then
    if decide (fieldName = s_fieldName_seq) then Some (Some (member s_fieldName_seq)) else
    if decide (fieldName = s_fieldName_snPeerid) then Some (Some (member s_fieldName_snPeerid)) else
    if decide (fieldName = s_fieldName_fromPeerid) then Some (Some (member s_fieldName_fromPeerid)) else
    if decide (fieldName = s_fieldName_peerInfo) then Some (Some (member s_fieldName_peerInfo)) else
    Some None else
  if pk_cmdtype pPackage =? BDT_SN_PING_RESP_PACKAGE then
    if decide (fieldName = s_fieldName_seq) then Some (Some (member s_fieldName_seq)) else
    if decide (fieldName = s_fieldName_snPeerid) then Some (Some (member s_fieldName_snPeerid)) else
    if decide (fieldName = s_fieldName_result) then Some (Some (member s_fieldName_result)) else
    if decide (fieldName = s_fieldName_peerInfo) then Some (Some (member s_fieldName_peerInfo)) else
    if decide (fieldName = s_fieldName_endpointArray) then Some (Some (member s_fieldName_endpointArray)) else
    Some None else
  if pk_cmdtype pPackage =? BDT_DATA_GRAM_PACKAGE then
    if decide (fieldName = s_fieldName_seq) then Some (Some (member s_fieldName_seq)) else
    if decide (fieldName = s_fieldName_destZone) then Some (Some (member s_fieldName_destZone)) else
    if decide (fieldName = s_fieldName_hopLimit) then Some (Some (member s_fieldName_hopLimit)) else
    if decide (fieldName = s_fieldName_piece) then Some (Some (member s_fieldName_piece)) else
    if decide (fieldName = s_fieldName_ackSeq) then Some (Some (member s_fieldName_ackSeq)) else
    if decide (fieldName = s_fieldName_sendTime) then Some (Some (member s_fieldName_sendTime)) else
    if decide (fieldName = s_fieldName_authorPeerid) then Some (Some (member s_fieldName_authorPeerid)) else
    if decide (fieldName = s_fieldName_authorPeerInfo) then Some (Some (member s_fieldName_authorPeerInfo)) else
    if decide (fieldName = s_fieldName_dataSign) then Some (Some (member s_fieldName_dataSign)) else
    if decide (fieldName = s_fieldName_innerCmdType) then Some (Some (member s_fieldName_innerCmdType)) else
    if decide (fieldName = s_fieldName_data) then None else
    Some None else
  if pk_cmdtype pPackage =? BDT_TCP_SYN_CONNECTION_PACKAGE then
    if decide (fieldName = s_fieldName_seq) then Some (Some (member s_fieldName_seq)) else
    if decide (fieldName = s_fieldName_result) then Some (Some (member s_fieldName_result)) else
    if decide (fieldName = s_fieldName_toVPort) then Some (Some (member s_fieldName_toVPort)) else
    if decide (fieldName = s_fieldName_fromSessionId) then Some (Some (member s_fieldName_fromSessionId)) else
    if decide (fieldName = s_fieldName_fromPeerid) then Some (Some (member s_fieldName_fromPeerid)) else
    if decide (fieldName = s_fieldName_toPeerid) then Some (Some (member s_fieldName_toPeerid)) else
    if decide (fieldName = s_fieldName_proxyPeerid) then Some (Some (member s_fieldName_proxyPeerid)) else
    if decide (fieldName = s_fieldName_peerInfo) then Some (Some (member s_fieldName_peerInfo)) else
    if decide (fieldName = s_fieldName_reverseEndpointArray) then Some (Some (member s_fieldName_reverseEndpointArray)) else
    if decide (fieldName = s_fieldName_payload) then None else
    Some None else
  if pk_cmdtype pPackage =? BDT_TCP_ACK_CONNECTION_PACKAGE then
    if decide (fieldName = s_fieldName_seq) then Some (Some (member s_fieldName_seq)) else
    if decide (fieldName = s_fieldName_toSessionId) then Some (Some (member s_fieldName_toSessionId)) else
    if decide (fieldName = s_fieldName_result) then Some (Some (member s_fieldName_result)) else
    if decide (fieldName = s_fieldName_peerInfo) then Some (Some (member s_fieldName_peerInfo)) else
    if decide (fieldName = s_fieldName_payload) then None else
    Some None else
  if pk_cmdtype pPackage =? BDT_TCP_ACKACK_CONNECTION_PACKAGE then
    if decide (fieldName = s_fieldName_seq) then Some (Some (member s_fieldName_seq)) else
    if decide (fieldName = s_fieldName_result) then Some (Some (member s_fieldName_result)) else
    Some None else
  Some None.

(** What the pointer points to. *)
Definition GetPackageFieldPointByName (pPackage : Package) (fieldName : FieldName) : option FieldValue :=
  let member := pk_member pPackage in
  if pk_cmdtype pPackage =? BDT_EXCHANGEKEY_PACKAGE then
    if decide (fieldName = s_fieldName_seq) then Some (member s_fieldName_seq) else
    if decide (fieldName = s_fieldName_seqAndKeySign) then Some (member s_fieldName_seqAndKeySign) else
    if decide (fieldName = s_fieldName_fromPeerid) then Some (member s_fieldName_fromPeerid) else
    if decide (fieldName = s_fieldName_peerInfo) then Some (member s_fieldName_peerInfo) else
    if decide (fieldName = s_fieldName_sendTime) then Some (member s_fieldName_sendTime) else
    None else
  if pk_cmdtype pPackage =? BDT_SYN_TUNNEL_PACKAGE then
    if decide (fieldName = s_fieldName_fromPeerid) then Some (member s_fieldName_fromPeerid) else
    if decide (fieldName = s_fieldName_toPeerid) then Some (member s_fieldName_toPeerid) else
    if decide (fieldName = s_fieldName_proxyPeerid) then Some (member s_fieldName_proxyPeerid) else
    if decide (fieldName = s_fieldName_proxyPeerInfo) then Some (member s_fieldName_proxyPeerInfo) else
    if decide (fieldName = s_fieldName_seq) then Some (member s_fieldName_seq) else
    if decide (fieldName = s_fieldName_fromContainerId) then Some (member s_fieldName_fromContainerId) else
    if decide (fieldName = s_fieldName_peerInfo) then Some (member s_fieldName_peerInfo) else
    if decide (fieldName = s_fieldName_sendTime) then Some (member s_fieldName_sendTime) else
    None else
  if pk_cmdtype pPackage =? BDT_ACK_TUNNEL_PACKAGE then
    if decide (fieldName = s_fieldName_aesKeyHash) then Some (member s_fieldName_aesKeyHash) else
    if decide (fieldName = s_fieldName_seq) then Some (member s_fieldName_seq) else
    if decide (fieldName = s_fieldName_fromContainerId) then Some (member s_fieldName_fromContainerId) else
    if decide (fieldName = s_fieldName_toContainerId) then Some (member s_fieldName_toContainerId) else
    if decide (fieldName = s_fieldName_result) then Some (member s_fieldName_result) else
    if decide (fieldName = s_fieldName_peerInfo) then Some (member s_fieldName_peerInfo) else
    if decide (fieldName = s_fieldName_sendTime) then Some (member s_fieldName_sendTime) else
    if decide (fieldName = s_fieldName_mtu) then Some (member s_fieldName_mtu) else
    None else
  if pk_cmdtype pPackage =? BDT_ACKACK_TUNNEL_PACKAGE then
    if decide (fieldName = s_fieldName_seq) then Some (member s_fieldName_seq) else
    if decide (fieldName = s_fieldName_toContainerId) then Some (member s_fieldName_toContainerId) else
    None else
  if pk_cmdtype pPackage =? BDT_PING_TUNNEL_PACKAGE then
    if decide (fieldName = s_fieldName_toContainerId) then Some (member s_fieldName_toContainerId) else
    if decide (fieldName = s_fieldName_packageId) then Some (member s_fieldName_packageId) else
    if decide (fieldName = s_fieldName_sendTime) then Some (member s_fieldName_sendTime) else
    if decide (fieldName = s_fieldName_recvData) then Some (member s_fieldName_recvData) else
    None else
  if pk_cmdtype pPackage =? BDT_PING_TUNNEL_RESP_PACKAGE then
    if decide (fieldName = s_fieldName_toContainerId) then Some (member s_fieldName_toContainerId) else
    if decide (fieldName = s_fieldName_ackPackageId) then Some (member s_fieldName_ackPackageId) else
    if decide (fieldName = s_fieldName_sendTime) then Some (member s_fieldName_sendTime) else
    if decide (fieldName = s_fieldName_recvData) then Some (member s_fieldName_recvData) else
    None else
  if pk_cmdtype pPackage =? BDT_SN_CALL_PACKAGE then
    if decide (fieldName = s_fieldName_seq) then Some (member s_fieldName_seq) else
    if decide (fieldName = s_fieldName_snPeerid) then Some (member s_fieldName_snPeerid) else
    if decide (fieldName = s_fieldName_toPeerid) then Some (member s_fieldName_toPeerid) else
    if decide (fieldName = s_fieldName_fromPeerid) then Some (member s_fieldName_fromPeerid) else
    if decide (fieldName = s_fieldName_reverseEndpointArray) then Some (member s_fieldName_reverseEndpointArray) else
    if decide (fieldName = s_fieldName_peerInfo) then Some (member s_fieldName_peerInfo) else
    if decide (fieldName = s_fieldName_payload) then Some (member s_fieldName_payload) else
    None else
  if pk_cmdtype pPackage =? BDT_SN_CALL_RESP_PACKAGE then
    if decide (fieldName = s_fieldName_seq) then Some (member s_fieldName_seq) else
    if decide (fieldName = s_fieldName_snPeerid) then Some (member s_fieldName_snPeerid) else
    if decide (fieldName = s_fieldName_result) then Some (member s_fieldName_result) else
    if decide (fieldName = s_fieldName_toPeerInfo) then Some (member s_fieldName_toPeerInfo) else
    None else
  if pk_cmdtype pPackage =? BDT_SN_CALLED_PACKAGE then
    if decide (fieldName = s_fieldName_seq) then Some (member s_fieldName_seq) else
    if decide (fieldName = s_fieldName_snPeerid) then Some (member s_fieldName_snPeerid) else
    if decide (fieldName = s_fieldName_toPeerid) then Some (member s_fieldName_toPeerid) else
    if decide (fieldName = s_fieldName_fromPeerid) then Some (member s_fieldName_fromPeerid) else
    if decide (fieldName = s_fieldName_reverseEndpointArray) then Some (member s_fieldName_reverseEndpointArray) else
    if decide (fieldName = s_fieldName_peerInfo) then Some (member s_fieldName_peerInfo) else
    if decide (fieldName = s_fieldName_payload) then Some (member s_fieldName_payload) else
    None else
  if pk_cmdtype pPackage =? BDT_SN_CALLED_RESP_PACKAGE then
    if decide (fieldName = s_fieldName_seq) then Some (member s_fieldName_seq) else
    if decide (fieldName = s_fieldName_snPeerid) then Some (member s_fieldName_snPeerid) else
    if decide (fieldName = s_fieldName_result) then Some (member s_fieldName_result) else
    None else
  if pk_cmdtype pPackage =? BDT_SN_PING_PACKAGE then
    if decide (fieldName = s_fieldName_seq) then Some (member s_fieldName_seq) else
    if decide (fieldName = s_fieldName_snPeerid) then Some (member s_fieldName_snPeerid) else
    if decide (fieldName = s_fieldName_fromPeerid) then Some (member s_fieldName_fromPeerid) else
    if decide (fieldName = s_fieldName_peerInfo) then Some (member s_fieldName_peerInfo) else
    None else
  if pk_cmdtype pPackage =? BDT_SN_PING_RESP_PACKAGE then
    if decide (fieldName = s_fieldName_seq) then Some (member s_fieldName_seq) else
    if decide (fieldName = s_fieldName_snPeerid) then Some (member s_fieldName_snPeerid) else
    if decide (fieldName = s_fieldName_result) then Some (member s_fieldName_result) else
    if decide (fieldName = s_fieldName_peerInfo) then Some (member s_fieldName_peerInfo) else
    if decide (fieldName = s_fieldName_endpointArray) then Some (member s_fieldName_endpointArray) else
    None else
  if pk_cmdtype pPackage =? BDT_DATA_GRAM_PACKAGE then
    if decide (fieldName = s_fieldName_seq) then Some (member s_fieldName_seq) else
    if decide (fieldName = s_fieldName_destZone) then Some (member s_fieldName_destZone) else
    if decide (fieldName = s_fieldName_hopLimit) then Some (member s_fieldName_hopLimit) else
    if decide (fieldName = s_fieldName_piece) then Some (member s_fieldName_piece) else
    if decide (fieldName = s_fieldName_ackSeq) then Some (member s_fieldName_ackSeq) else
    if decide (fieldName = s_fieldName_sendTime) then Some (member s_fieldName_sendTime) else
    if decide (fieldName = s_fieldName_authorPeerid) then Some (member s_fieldName_authorPeerid) else
    if decide (fieldName = s_fieldName_authorPeerInfo) then Some (member s_fieldName_authorPeerInfo) else
    if decide (fieldName = s_fieldName_dataSign) then Some (member s_fieldName_dataSign) else
    if decide (fieldName = s_fieldName_innerCmdType) then Some (member s_fieldName_innerCmdType) else
    if decide (fieldName = s_fieldName_data) then Some (member s_fieldName_data) else
    None else
  if pk_cmdtype pPackage =? BDT_TCP_SYN_CONNECTION_PACKAGE then
    if decide (fieldName = s_fieldName_seq) then Some (member s_fieldName_seq) else
    if decide (fieldName = s_fieldName_result) then Some (member s_fieldName_result) else
    if decide (fieldName = s_fieldName_toVPort) then Some (member s_fieldName_toVPort) else
    if decide (fieldName = s_fieldName_fromSessionId) then Some (member s_fieldName_fromSessionId) else
    if decide (fieldName = s_fieldName_fromPeerid) then Some (member s_fieldName_fromPeerid) else
    if decide (fieldName = s_fieldName_toPeerid) then Some (member s_fieldName_toPeerid) else
    if decide (fieldName = s_fieldName_proxyPeerid) then Some (member s_fieldName_proxyPeerid) else
    if decide (fieldName = s_fieldName_peerInfo) then Some (member s_fieldName_peerInfo) else
    if decide (fieldName = s_fieldName_reverseEndpointArray) then Some (member s_fieldName_reverseEndpointArray) else
    if decide (fieldName = s_fieldName_payload) then Some (member s_fieldName_payload) else
    None else
  if pk_cmdtype pPackage =? BDT_TCP_ACK_CONNECTION_PACKAGE then
    if decide (fieldName = s_fieldName_seq) then Some (member s_fieldName_seq) else
    if decide (fieldName = s_fieldName_toSessionId) then Some (member s_fieldName_toSessionId) else
    if decide (fieldName = s_fieldName_result) then Some (member s_fieldName_result) else
    if decide (fieldName = s_fieldName_peerInfo) then Some (member s_fieldName_peerInfo) else
    if decide (fieldName = s_fieldName_payload) then Some (member s_fieldName_payload) else
    None else
  if pk_cmdtype pPackage =? BDT_TCP_ACKACK_CONNECTION_PACKAGE then
    if decide (fieldName = s_fieldName_seq) then Some (member s_fieldName_seq) else
    if decide (fieldName = s_fieldName_result) then Some (member s_fieldName_result) else
    None else
  None.

Definition Bdt_ExchangeKeyPackageCreate : Package := package_init BDT_EXCHANGEKEY_PACKAGE.
Definition Bdt_SynTunnelPackageCreate : Package := package_init BDT_SYN_TUNNEL_PACKAGE.
Definition Bdt_AckTunnelPackageCreate : Package := package_init BDT_ACK_TUNNEL_PACKAGE.
Definition Bdt_AckAckTunnelPackageCreate : Package := package_init BDT_ACKACK_TUNNEL_PACKAGE.
Definition Bdt_PingTunnelPackageCreate : Package := package_init BDT_PING_TUNNEL_PACKAGE.
Definition Bdt_PingTunnelRespPackageCreate : Package := package_init BDT_PING_TUNNEL_RESP_PACKAGE.
Definition Bdt_SnCallPackageCreate : Package := package_init BDT_SN_CALL_PACKAGE.
Definition Bdt_SnCallRespPackageCreate : Package := package_init BDT_SN_CALL_RESP_PACKAGE.
Definition Bdt_SnCalledPackageCreate : Package := package_init BDT_SN_CALLED_PACKAGE.
Definition Bdt_SnCalledRespPackageCreate : Package := package_init BDT_SN_CALLED_RESP_PACKAGE.
Definition Bdt_SnPingPackageCreate : Package := package_init BDT_SN_PING_PACKAGE.
Definition Bdt_SnPingRespPackageCreate : Package := package_init BDT_SN_PING_RESP_PACKAGE.
Definition Bdt_DataGramPackageCreate : Package := package_init BDT_DATA_GRAM_PACKAGE.
Definition Bdt_TcpSynConnectionPackageCreate : Package := package_init BDT_TCP_SYN_CONNECTION_PACKAGE.
Definition Bdt_TcpAckConnectionPackageCreate : Package := package_init BDT_TCP_ACK_CONNECTION_PACKAGE.
Definition Bdt_TcpAckAckConnectionPackageCreate : Package := package_init BDT_TCP_ACKACK_CONNECTION_PACKAGE.

Definition ReadPackageFieldValueFromReference (cmdtype fieldFlags : Z) (refPackage : Package) :
    option (option FieldValue) :=
  fieldName ← GetPackageFieldName cmdtype fieldFlags;
  GetPackageFieldValueByName refPackage fieldName.

End Packages.
