(* ===== verification/PackageCodec.v ===== *)
(** * Encoders and decoders of the packages

    The functions of [BDTCore/Protocol/PackageImp.imp.inl] that write and read
    one package.  Each is the list of its fields in the order of the code,
    [encode_field] and [decode_field] are what the code does for a field: it is
    left out when the reference package has an equal value under its name, or,
    without such a value, when it is zero; the flags tell what is there. *)

From S2P Require Import Prelude CInt Package BufferStream Codec Endpoint PackageFields.

Section Codec.
Context {P : PeerInfoOps}.
(** See [Endpoint]. *)
Context (uninit : list Z).

(** ** A field *)

Record Field := mkField { fd_flag : Z; fd_name : FieldName; fd_kind : FieldKind }.

(** The reference: none, the package itself, another one. *)
Inductive RefPackage := NoRef | SameRef | Ref (r : Package).

Definition Bdt_BufferWritePeerid (pid : list Z) : Write := λ s,
  '(r, _, s) ← BfxBufferWriteByteArray (take BDT_PEERID_LENGTH pid) s;
  Some (r, BDT_PEERID_LENGTH, s).
Definition Bdt_BufferReadPeerid : Read (list Z) := BfxBufferReadByteArray BDT_PEERID_LENGTH.

(** [None] here is a member that has another type than the code says. *)
Definition write_field (kind : FieldKind) (v : FieldValue) : Write :=
  match kind, v with
  | KUInt8, VInt v => BfxBufferWriteUInt8 v
  | KUInt16, VInt v => BfxBufferWriteUInt16 v
  | KUInt32, VInt v => BfxBufferWriteUInt32 v
  | KUInt64, VInt v => BfxBufferWriteUInt64 v
  | KPeerid, VBytes pid => Bdt_BufferWritePeerid pid
  | KPeerInfo, VPeerInfo o => BufferWritePeerInfo o
  | KEndpoints, VEndpoints list => Bdt_BufferWriteEndpointArray list
  | KBuffer, VBuffer o => BfxBufferWriteByteArrayBeginWithU16Length o
  | _, _ => λ _, None
  end.

(** [isEqual] of [*rParam] and the package's member; buffers are never equal. *)
Definition is_equal (kind : FieldKind) (r v : FieldValue) : option bool :=
  match kind, r, v with
  | (KUInt8 | KUInt16 | KUInt32 | KUInt64), VInt r, VInt v => Some (v =? r)
  | KPeerid, VBytes r, VBytes v => Some (memcmp r v =? 0)
  | KPeerInfo, VPeerInfo r, VPeerInfo v => Some (BdtPeerInfoIsEqual v r)
  | KEndpoints, VEndpoints r, VEndpoints v => Some (BdtEndpointArrayIsEqual r v)
  | KBuffer, VBuffer _, VBuffer _ => Some false
  | _, _, _ => None
  end.

(** Whether the field is sent; [equal] compares [*rParam] with the member. *)
Definition field_present_by (equal : FieldKind → FieldValue → FieldValue → option bool) (package : Package)
    (refPackage : option Package) (fd : Field) : option bool :=
  let default := negb (IsEqualPackageFieldDefaultValue package (fd_flag fd)) in
  match refPackage with
  | None => Some default
  | Some refPackage =>
      fieldName ← GetPackageFieldName (pk_cmdtype package) (fd_flag fd);
      match GetPackageFieldPointByName refPackage fieldName with
      | Some rParam => negb <$> equal (fd_kind fd) rParam (pk_member package (fd_name fd))
      | None => Some default
      end
  end.

Definition encode_field_by (equal : FieldKind → FieldValue → FieldValue → option bool)
    (write : FieldKind → FieldValue → Write) (package : Package) (refPackage : option Package) (fd : Field) : Enc := λ e,
  present ← field_present_by equal package refPackage fd;
  (enc_flag (fd_flag fd) present >>>
   enc_if (fd_flag fd) (enc_write (write (fd_kind fd) (pk_member package (fd_name fd))))) e.

Definition field_present : Package → option Package → Field → option bool := field_present_by is_equal.
Definition encode_field : Package → option Package → Field → Enc := encode_field_by is_equal write_field.

Fixpoint encode_fields (package : Package) (refPackage : option Package) (fields : list Field) : Enc :=
  match fields with
  | [] => enc_skip
  | fd :: fields => encode_field package refPackage fd >>> encode_fields package refPackage fields
  end.

Definition read_field (kind : FieldKind) : Dec FieldValue :=
  match kind with
  | KUInt8 => v ← dec_read BfxBufferReadUInt8; mret (VInt v)
  | KUInt16 => v ← dec_read BfxBufferReadUInt16; mret (VInt v)
  | KUInt32 => v ← dec_read BfxBufferReadUInt32; mret (VInt v)
  | KUInt64 => v ← dec_read BfxBufferReadUInt64; mret (VInt v)
  | KPeerid => v ← dec_read Bdt_BufferReadPeerid; mret (VBytes v)
  | KPeerInfo => v ← dec_read BufferReadPeerInfo; mret (VPeerInfo v)
  | KEndpoints => v ← dec_read (Bdt_BufferReadEndpointArray uninit); mret (VEndpoints v)
  | KBuffer => v ← dec_read BfxBufferReadByteArrayBeginWithU16Length; mret (VBuffer v)
  | KSign | KTinySign => dec_fail
  end.

Definition set_member (p : Package) (n : FieldName) (v : FieldValue) : Package :=
  mkPackage (pk_cmdtype p) (pk_cmdflags p) (λ m, if decide (m = n) then v else pk_member p m).
Definition set_cmdflags (p : Package) (cmdflags : Z) : Package :=
  mkPackage (pk_cmdtype p) cmdflags (pk_member p).

(** A field that was not sent is copied from the reference, if that has it. *)
Definition from_reference (pResult : Package) (fd : Field) (pRefPackage : Package) : Dec Package := λ d,
  r ← ReadPackageFieldValueFromReference (pk_cmdtype pResult) (fd_flag fd) pRefPackage;
  Some (Some (match r with Some v => set_member pResult (fd_name fd) v | None => pResult end), d).

Definition decode_field (cmdflags : Z) (pRefPackage : option Package) (fd : Field) (pResult : Package) : Dec Package :=
  if has_flag cmdflags (fd_flag fd)
  then (v ← read_field (fd_kind fd); mret (set_member pResult (fd_name fd) v))
  else match pRefPackage with
       | Some pRefPackage => from_reference pResult fd pRefPackage
       | None => mret pResult
       end.

Fixpoint decode_fields (cmdflags : Z) (pRefPackage : option Package) (fields : list Field) (pResult : Package) :
    Dec Package :=
  match fields with
  | [] => mret pResult
  | fd :: fields =>
      pResult ← decode_field cmdflags pRefPackage fd pResult;
      decode_fields cmdflags pRefPackage fields pResult
  end.

(** ** A package *)

Definition Encoder : Type := BfxBufferStream → option (Z * Z * nat * BfxBufferStream).
Definition Decoder (A : Type) : Type := BfxBufferStream → option (option A * BfxBufferStream).

Definition usable_reference (package : Package) (refPackage : RefPackage) : option Package :=
  match refPackage with
  | Ref r => if has_flag (pk_cmdflags package) BDT_PACKAGE_FLAG_DISABLE_REF then None else Some r
  | NoRef | SameRef => None
  end.

Definition encode_package (package : Package) (refPackage : RefPackage) (fields : list Field) : Encoder :=
  enc_package (pk_cmdtype package) (pk_cmdflags package)
    (encode_fields package (usable_reference package refPackage) fields).

Definition decode_body (pResult : Package) (pRefPackage : option Package) (fields : list Field) : Dec Package :=
  cmdflags ← dec_read BfxBufferReadUInt16;
  decode_fields cmdflags (if has_flag cmdflags BDT_PACKAGE_FLAG_DISABLE_REF then None else pRefPackage) fields
    (set_cmdflags pResult cmdflags).

Definition decode_package (cmdtype totallen : Z) (pResult : Package) (pRefPackage : option Package)
    (fields : list Field) : Decoder Package :=
  dec_package (Bdt_GetPackageMinSize cmdtype) totallen pResult (decode_body pResult pRefPackage fields).

(** ** The fields of each type, as its encoder and as its decoder list them *)

Definition EncodeSynTunnel_fields : list Field :=
  [mkField BDT_SYN_TUNNEL_PACKAGE_FLAG_FROMPEERID s_fieldName_fromPeerid KPeerid;
   mkField BDT_SYN_TUNNEL_PACKAGE_FLAG_TOPEERID s_fieldName_toPeerid KPeerid;
   mkField BDT_SYN_TUNNEL_PACKAGE_FLAG_PROXYPEERID s_fieldName_proxyPeerid KPeerid;
   mkField BDT_SYN_TUNNEL_PACKAGE_FLAG_PROXYPEERINFO s_fieldName_proxyPeerInfo KPeerInfo;
   mkField BDT_SYN_TUNNEL_PACKAGE_FLAG_SEQ s_fieldName_seq KUInt32;
   mkField BDT_SYN_TUNNEL_PACKAGE_FLAG_FROMCONTAINERID s_fieldName_fromContainerId KUInt32;
   mkField BDT_SYN_TUNNEL_PACKAGE_FLAG_PEERINFO s_fieldName_peerInfo KPeerInfo;
   mkField BDT_SYN_TUNNEL_PACKAGE_FLAG_SENDTIME s_fieldName_sendTime KUInt64].
Definition DecodeSynTunnel_fields : list Field :=
  [mkField BDT_SYN_TUNNEL_PACKAGE_FLAG_FROMPEERID s_fieldName_fromPeerid KPeerid;
   mkField BDT_SYN_TUNNEL_PACKAGE_FLAG_TOPEERID s_fieldName_toPeerid KPeerid;
   mkField BDT_SYN_TUNNEL_PACKAGE_FLAG_PROXYPEERID s_fieldName_proxyPeerid KPeerid;
   mkField BDT_SYN_TUNNEL_PACKAGE_FLAG_PROXYPEERINFO s_fieldName_proxyPeerInfo KPeerInfo;
   mkField BDT_SYN_TUNNEL_PACKAGE_FLAG_SEQ s_fieldName_seq KUInt32;
   mkField BDT_SYN_TUNNEL_PACKAGE_FLAG_FROMCONTAINERID s_fieldName_fromContainerId KUInt32;
   mkField BDT_SYN_TUNNEL_PACKAGE_FLAG_PEERINFO s_fieldName_peerInfo KPeerInfo;
   mkField BDT_SYN_TUNNEL_PACKAGE_FLAG_SENDTIME s_fieldName_sendTime KUInt64].
Definition EncodeAckTunnel_fields : list Field :=
  [mkField BDT_ACK_TUNNEL_PACKAGE_FLAG_AESKEYHASH s_fieldName_aesKeyHash KUInt64;
   mkField BDT_ACK_TUNNEL_PACKAGE_FLAG_SEQ s_fieldName_seq KUInt32;
   mkField BDT_ACK_TUNNEL_PACKAGE_FLAG_FROMCONTAINERID s_fieldName_fromContainerId KUInt32;
   mkField BDT_ACK_TUNNEL_PACKAGE_FLAG_TOCONTAINERID s_fieldName_toContainerId KUInt32;
   mkField BDT_ACK_TUNNEL_PACKAGE_FLAG_RESULT s_fieldName_result KUInt8;
   mkField BDT_ACK_TUNNEL_PACKAGE_FLAG_PEERINFO s_fieldName_peerInfo KPeerInfo;
   mkField BDT_ACK_TUNNEL_PACKAGE_FLAG_SENDTIME s_fieldName_sendTime KUInt64;
   mkField BDT_ACK_TUNNEL_PACKAGE_FLAG_MTU s_fieldName_mtu KUInt16].
Definition DecodeAckTunnel_fields : list Field :=
  [mkField BDT_ACK_TUNNEL_PACKAGE_FLAG_AESKEYHASH s_fieldName_aesKeyHash KUInt64;
   mkField BDT_ACK_TUNNEL_PACKAGE_FLAG_SEQ s_fieldName_seq KUInt32;
   mkField BDT_ACK_TUNNEL_PACKAGE_FLAG_FROMCONTAINERID s_fieldName_fromContainerId KUInt32;
   mkField BDT_ACK_TUNNEL_PACKAGE_FLAG_TOCONTAINERID s_fieldName_toContainerId KUInt32;
   mkField BDT_ACK_TUNNEL_PACKAGE_FLAG_RESULT s_fieldName_result KUInt8;
   mkField BDT_ACK_TUNNEL_PACKAGE_FLAG_PEERINFO s_fieldName_peerInfo KPeerInfo;
   mkField BDT_ACK_TUNNEL_PACKAGE_FLAG_SENDTIME s_fieldName_sendTime KUInt64;
   mkField BDT_ACK_TUNNEL_PACKAGE_FLAG_MTU s_fieldName_mtu KUInt16].
Definition EncodeAckAckTunnel_fields : list Field :=
  [mkField BDT_ACKACK_TUNNEL_PACKAGE_FLAG_SEQ s_fieldName_seq KUInt32;
   mkField BDT_ACKACK_TUNNEL_PACKAGE_FLAG_TOCONTAINERID s_fieldName_toContainerId KUInt32].
Definition DecodeAckAckTunnel_fields : list Field :=
  [mkField BDT_ACKACK_TUNNEL_PACKAGE_FLAG_SEQ s_fieldName_seq KUInt32;
   mkField BDT_ACKACK_TUNNEL_PACKAGE_FLAG_TOCONTAINERID s_fieldName_toContainerId KUInt32].
Definition EncodePingTunnel_fields : list Field :=
  [mkField BDT_PING_TUNNEL_PACKAGE_FLAG_TOCONTAINERID s_fieldName_toContainerId KUInt32;
   mkField BDT_PING_TUNNEL_PACKAGE_FLAG_PACKAGEID s_fieldName_packageId KUInt32;
   mkField BDT_PING_TUNNEL_PACKAGE_FLAG_SENDTIME s_fieldName_sendTime KUInt64;
   mkField BDT_PING_TUNNEL_PACKAGE_FLAG_RECVDATA s_fieldName_recvData KUInt64].
Definition DecodePingTunnel_fields : list Field :=
  [mkField BDT_PING_TUNNEL_PACKAGE_FLAG_TOCONTAINERID s_fieldName_toContainerId KUInt32;
   mkField BDT_PING_TUNNEL_PACKAGE_FLAG_PACKAGEID s_fieldName_packageId KUInt32;
   mkField BDT_PING_TUNNEL_PACKAGE_FLAG_SENDTIME s_fieldName_sendTime KUInt64;
   mkField BDT_PING_TUNNEL_PACKAGE_FLAG_RECVDATA s_fieldName_recvData KUInt64].
Definition EncodePingTunnelResp_fields : list Field :=
  [mkField BDT_PING_TUNNEL_RESP_PACKAGE_FLAG_TOCONTAINERID s_fieldName_toContainerId KUInt32;
   mkField BDT_PING_TUNNEL_RESP_PACKAGE_FLAG_ACKPACKAGEID s_fieldName_ackPackageId KUInt32;
   mkField BDT_PING_TUNNEL_RESP_PACKAGE_FLAG_SENDTIME s_fieldName_sendTime KUInt64;
   mkField BDT_PING_TUNNEL_RESP_PACKAGE_FLAG_RECVDATA s_fieldName_recvData KUInt64].
Definition DecodePingTunnelResp_fields : list Field :=
  [mkField BDT_PING_TUNNEL_RESP_PACKAGE_FLAG_TOCONTAINERID s_fieldName_toContainerId KUInt32;
   mkField BDT_PING_TUNNEL_RESP_PACKAGE_FLAG_ACKPACKAGEID s_fieldName_ackPackageId KUInt32;
   mkField BDT_PING_TUNNEL_RESP_PACKAGE_FLAG_SENDTIME s_fieldName_sendTime KUInt64;
   mkField BDT_PING_TUNNEL_RESP_PACKAGE_FLAG_RECVDATA s_fieldName_recvData KUInt64].
Definition EncodeSnCall_fields : list Field :=
  [mkField BDT_SN_CALL_PACKAGE_FLAG_SEQ s_fieldName_seq KUInt32;
   mkField BDT_SN_CALL_PACKAGE_FLAG_SNPEERID s_fieldName_snPeerid KPeerid;
   mkField BDT_SN_CALL_PACKAGE_FLAG_TOPEERID s_fieldName_toPeerid KPeerid;
   mkField BDT_SN_CALL_PACKAGE_FLAG_FROMPEERID s_fieldName_fromPeerid KPeerid;
   mkField BDT_SN_CALL_PACKAGE_FLAG_REVERSEENDPOINTARRAY s_fieldName_reverseEndpointArray KEndpoints;
   mkField BDT_SN_CALL_PACKAGE_FLAG_PEERINFO s_fieldName_peerInfo KPeerInfo;
   mkField BDT_SN_CALL_PACKAGE_FLAG_PAYLOAD s_fieldName_payload KBuffer].
Definition DecodeSnCall_fields : list Field :=
  [mkField BDT_SN_CALL_PACKAGE_FLAG_SEQ s_fieldName_seq KUInt32;
   mkField BDT_SN_CALL_PACKAGE_FLAG_SNPEERID s_fieldName_snPeerid KPeerid;
   mkField BDT_SN_CALL_PACKAGE_FLAG_TOPEERID s_fieldName_toPeerid KPeerid;
   mkField BDT_SN_CALL_PACKAGE_FLAG_FROMPEERID s_fieldName_fromPeerid KPeerid;
   mkField BDT_SN_CALL_PACKAGE_FLAG_REVERSEENDPOINTARRAY s_fieldName_reverseEndpointArray KEndpoints;
   mkField BDT_SN_CALL_PACKAGE_FLAG_PEERINFO s_fieldName_peerInfo KPeerInfo;
   mkField BDT_SN_CALL_PACKAGE_FLAG_PAYLOAD s_fieldName_payload KBuffer].
Definition EncodeSnCallResp_fields : list Field :=
  [mkField BDT_SN_CALL_RESP_PACKAGE_FLAG_SEQ s_fieldName_seq KUInt32;
   mkField BDT_SN_CALL_RESP_PACKAGE_FLAG_SNPEERID s_fieldName_snPeerid KPeerid;
   mkField BDT_SN_CALL_RESP_PACKAGE_FLAG_RESULT s_fieldName_result KUInt8;
   mkField BDT_SN_CALL_RESP_PACKAGE_FLAG_TOPEERINFO s_fieldName_toPeerInfo KPeerInfo].
Definition DecodeSnCallResp_fields : list Field :=
  [mkField BDT_SN_CALL_RESP_PACKAGE_FLAG_SEQ s_fieldName_seq KUInt32;
   mkField BDT_SN_CALL_RESP_PACKAGE_FLAG_SNPEERID s_fieldName_snPeerid KPeerid;
   mkField BDT_SN_CALL_RESP_PACKAGE_FLAG_RESULT s_fieldName_result KUInt8;
   mkField BDT_SN_CALL_RESP_PACKAGE_FLAG_TOPEERINFO s_fieldName_toPeerInfo KPeerInfo].
Definition EncodeSnCalled_fields : list Field :=
  [mkField BDT_SN_CALLED_PACKAGE_FLAG_SEQ s_fieldName_seq KUInt32;
   mkField BDT_SN_CALLED_PACKAGE_FLAG_SNPEERID s_fieldName_snPeerid KPeerid;
   mkField BDT_SN_CALLED_PACKAGE_FLAG_TOPEERID s_fieldName_toPeerid KPeerid;
   mkField BDT_SN_CALLED_PACKAGE_FLAG_FROMPEERID s_fieldName_fromPeerid KPeerid;
   mkField BDT_SN_CALLED_PACKAGE_FLAG_REVERSEENDPOINTARRAY s_fieldName_reverseEndpointArray KEndpoints;
   mkField BDT_SN_CALLED_PACKAGE_FLAG_PEERINFO s_fieldName_peerInfo KPeerInfo;
   mkField BDT_SN_CALLED_PACKAGE_FLAG_PAYLOAD s_fieldName_payload KBuffer].
Definition DecodeSnCalled_fields : list Field :=
  [mkField BDT_SN_CALLED_PACKAGE_FLAG_SEQ s_fieldName_seq KUInt32;
   mkField BDT_SN_CALLED_PACKAGE_FLAG_SNPEERID s_fieldName_snPeerid KPeerid;
   mkField BDT_SN_CALLED_PACKAGE_FLAG_TOPEERID s_fieldName_toPeerid KPeerid;
   mkField BDT_SN_CALLED_PACKAGE_FLAG_FROMPEERID s_fieldName_fromPeerid KPeerid;
   mkField BDT_SN_CALLED_PACKAGE_FLAG_REVERSEENDPOINTARRAY s_fieldName_reverseEndpointArray KEndpoints;
   mkField BDT_SN_CALLED_PACKAGE_FLAG_PEERINFO s_fieldName_peerInfo KPeerInfo;
   mkField BDT_SN_CALLED_PACKAGE_FLAG_PAYLOAD s_fieldName_payload KBuffer].
Definition EncodeSnCalledResp_fields : list Field :=
  [mkField BDT_SN_CALLED_RESP_PACKAGE_FLAG_SEQ s_fieldName_seq KUInt32;
   mkField BDT_SN_CALLED_RESP_PACKAGE_FLAG_SNPEERID s_fieldName_snPeerid KPeerid;
   mkField BDT_SN_CALLED_RESP_PACKAGE_FLAG_RESULT s_fieldName_result KUInt8].
Definition DecodeSnCalledResp_fields : list Field :=
  [mkField BDT_SN_CALLED_RESP_PACKAGE_FLAG_SEQ s_fieldName_seq KUInt32;
   mkField BDT_SN_CALLED_RESP_PACKAGE_FLAG_SNPEERID s_fieldName_snPeerid KPeerid;
   mkField BDT_SN_CALLED_RESP_PACKAGE_FLAG_RESULT s_fieldName_result KUInt8].
Definition EncodeSnPing_fields : list Field :=
  [mkField BDT_SN_PING_PACKAGE_FLAG_SEQ s_fieldName_seq KUInt32;
   mkField BDT_SN_PING_PACKAGE_FLAG_SNPEERID s_fieldName_snPeerid KPeerid;
   mkField BDT_SN_PING_PACKAGE_FLAG_FROMPEERID s_fieldName_fromPeerid KPeerid;
   mkField BDT_SN_PING_PACKAGE_FLAG_PEERINFO s_fieldName_peerInfo KPeerInfo].
Definition DecodeSnPing_fields : list Field :=
  [mkField BDT_SN_PING_PACKAGE_FLAG_SEQ s_fieldName_seq KUInt32;
   mkField BDT_SN_PING_PACKAGE_FLAG_SNPEERID s_fieldName_snPeerid KPeerid;
   mkField BDT_SN_PING_PACKAGE_FLAG_FROMPEERID s_fieldName_fromPeerid KPeerid;
   mkField BDT_SN_PING_PACKAGE_FLAG_PEERINFO s_fieldName_peerInfo KPeerInfo].
Definition EncodeSnPingResp_fields : list Field :=
  [mkField BDT_SN_PING_RESP_PACKAGE_FLAG_SEQ s_fieldName_seq KUInt32;
   mkField BDT_SN_PING_RESP_PACKAGE_FLAG_SNPEERID s_fieldName_snPeerid KPeerid;
   mkField BDT_SN_PING_RESP_PACKAGE_FLAG_RESULT s_fieldName_result KUInt8;
   mkField BDT_SN_PING_RESP_PACKAGE_FLAG_PEERINFO s_fieldName_peerInfo KPeerInfo;
   mkField BDT_SN_PING_RESP_PACKAGE_FLAG_ENDPOINTARRAY s_fieldName_endpointArray KEndpoints].
Definition DecodeSnPingResp_fields : list Field :=
  [mkField BDT_SN_PING_RESP_PACKAGE_FLAG_SEQ s_fieldName_seq KUInt32;
   mkField BDT_SN_PING_RESP_PACKAGE_FLAG_SNPEERID s_fieldName_snPeerid KPeerid;
   mkField BDT_SN_PING_RESP_PACKAGE_FLAG_RESULT s_fieldName_result KUInt8;
   mkField BDT_SN_PING_RESP_PACKAGE_FLAG_PEERINFO s_fieldName_peerInfo KPeerInfo;
   mkField BDT_SN_PING_RESP_PACKAGE_FLAG_ENDPOINTARRAY s_fieldName_endpointArray KEndpoints].
Definition EncodeTcpSynConnection_fields : list Field :=
  [mkField BDT_TCP_SYN_CONNECTION_PACKAGE_FLAG_SEQ s_fieldName_seq KUInt32;
   mkField BDT_TCP_SYN_CONNECTION_PACKAGE_FLAG_RESULT s_fieldName_result KUInt8;
   mkField BDT_TCP_SYN_CONNECTION_PACKAGE_FLAG_TOVPORT s_fieldName_toVPort KUInt16;
   mkField BDT_TCP_SYN_CONNECTION_PACKAGE_FLAG_FROMSESSIONID s_fieldName_fromSessionId KUInt32;
   mkField BDT_TCP_SYN_CONNECTION_PACKAGE_FLAG_FROMPEERID s_fieldName_fromPeerid KPeerid;
   mkField BDT_TCP_SYN_CONNECTION_PACKAGE_FLAG_TOPEERID s_fieldName_toPeerid KPeerid;
   mkField BDT_TCP_SYN_CONNECTION_PACKAGE_FLAG_PROXYPEERID s_fieldName_proxyPeerid KPeerid;
   mkField BDT_TCP_SYN_CONNECTION_PACKAGE_FLAG_PEERINFO s_fieldName_peerInfo KPeerInfo;
   mkField BDT_TCP_SYN_CONNECTION_PACKAGE_FLAG_REVERSEENDPOINTARRAY s_fieldName_reverseEndpointArray KEndpoints;
   mkField BDT_TCP_SYN_CONNECTION_PACKAGE_FLAG_PAYLOAD s_fieldName_payload KBuffer].
Definition DecodeTcpSynConnection_fields : list Field :=
  [mkField BDT_TCP_SYN_CONNECTION_PACKAGE_FLAG_SEQ s_fieldName_seq KUInt32;
   mkField BDT_TCP_SYN_CONNECTION_PACKAGE_FLAG_RESULT s_fieldName_result KUInt8;
   mkField BDT_TCP_SYN_CONNECTION_PACKAGE_FLAG_TOVPORT s_fieldName_toVPort KUInt16;
   mkField BDT_TCP_SYN_CONNECTION_PACKAGE_FLAG_FROMSESSIONID s_fieldName_fromSessionId KUInt32;
   mkField BDT_TCP_SYN_CONNECTION_PACKAGE_FLAG_FROMPEERID s_fieldName_fromPeerid KPeerid;
   mkField BDT_TCP_SYN_CONNECTION_PACKAGE_FLAG_TOPEERID s_fieldName_toPeerid KPeerid;
   mkField BDT_TCP_SYN_CONNECTION_PACKAGE_FLAG_PROXYPEERID s_fieldName_proxyPeerid KPeerid;
   mkField BDT_TCP_SYN_CONNECTION_PACKAGE_FLAG_PEERINFO s_fieldName_peerInfo KPeerInfo;
   mkField BDT_TCP_SYN_CONNECTION_PACKAGE_FLAG_REVERSEENDPOINTARRAY s_fieldName_reverseEndpointArray KEndpoints;
   mkField BDT_TCP_SYN_CONNECTION_PACKAGE_FLAG_PAYLOAD s_fieldName_payload KBuffer].
Definition EncodeTcpAckConnection_fields : list Field :=
  [mkField BDT_TCP_ACK_CONNECTION_PACKAGE_FLAG_SEQ s_fieldName_seq KUInt32;
   mkField BDT_TCP_ACK_CONNECTION_PACKAGE_FLAG_TOSESSIONID s_fieldName_toSessionId KUInt32;
   mkField BDT_TCP_ACK_CONNECTION_PACKAGE_FLAG_RESULT s_fieldName_result KUInt8;
   mkField BDT_TCP_ACK_CONNECTION_PACKAGE_FLAG_PEERINFO s_fieldName_peerInfo KPeerInfo;
   mkField BDT_TCP_ACK_CONNECTION_PACKAGE_FLAG_PAYLOAD s_fieldName_payload KBuffer].
Definition DecodeTcpAckConnection_fields : list Field :=
  [mkField BDT_TCP_ACK_CONNECTION_PACKAGE_FLAG_SEQ s_fieldName_seq KUInt32;
   mkField BDT_TCP_ACK_CONNECTION_PACKAGE_FLAG_TOSESSIONID s_fieldName_toSessionId KUInt32;
   mkField BDT_TCP_ACK_CONNECTION_PACKAGE_FLAG_RESULT s_fieldName_result KUInt8;
   mkField BDT_TCP_ACK_CONNECTION_PACKAGE_FLAG_PEERINFO s_fieldName_peerInfo KPeerInfo;
   mkField BDT_TCP_ACK_CONNECTION_PACKAGE_FLAG_PAYLOAD s_fieldName_payload KBuffer].
Definition EncodeTcpAckAckConnection_fields : list Field :=
  [mkField BDT_TCP_ACKACK_CONNECTION_PACKAGE_FLAG_SEQ s_fieldName_seq KUInt32;
   mkField BDT_TCP_ACKACK_CONNECTION_PACKAGE_FLAG_RESULT s_fieldName_result KUInt8].
Definition DecodeTcpAckAckConnection_fields : list Field :=
  [mkField BDT_TCP_ACKACK_CONNECTION_PACKAGE_FLAG_SEQ s_fieldName_seq KUInt32;
   mkField BDT_TCP_ACKACK_CONNECTION_PACKAGE_FLAG_RESULT s_fieldName_result KUInt8].

(** ** The encoders *)

Definition EncodeSynTunnelPackage (package : Package) (refPackage : RefPackage) : Encoder :=
  encode_package package refPackage EncodeSynTunnel_fields.
Definition EncodeAckTunnelPackage (package : Package) (refPackage : RefPackage) : Encoder :=
  encode_package package refPackage EncodeAckTunnel_fields.
Definition EncodeAckAckTunnelPackage (package : Package) (refPackage : RefPackage) : Encoder :=
  encode_package package refPackage EncodeAckAckTunnel_fields.
Definition EncodePingTunnelPackage (package : Package) (refPackage : RefPackage) : Encoder :=
  encode_package package refPackage EncodePingTunnel_fields.
Definition EncodePingTunnelRespPackage (package : Package) (refPackage : RefPackage) : Encoder :=
  encode_package package refPackage EncodePingTunnelResp_fields.
Definition EncodeSnCallPackage (package : Package) (refPackage : RefPackage) : Encoder :=
  encode_package package refPackage EncodeSnCall_fields.
Definition EncodeSnCallRespPackage (package : Package) (refPackage : RefPackage) : Encoder :=
  encode_package package refPackage EncodeSnCallResp_fields.
Definition EncodeSnCalledPackage (package : Package) (refPackage : RefPackage) : Encoder :=
  encode_package package refPackage EncodeSnCalled_fields.
Definition EncodeSnCalledRespPackage (package : Package) (refPackage : RefPackage) : Encoder :=
  encode_package package refPackage EncodeSnCalledResp_fields.
Definition EncodeSnPingPackage (package : Package) (refPackage : RefPackage) : Encoder :=
  encode_package package refPackage EncodeSnPing_fields.
Definition EncodeSnPingRespPackage (package : Package) (refPackage : RefPackage) : Encoder :=
  encode_package package refPackage EncodeSnPingResp_fields.
Definition EncodeTcpSynConnectionPackage (package : Package) (refPackage : RefPackage) : Encoder :=
  encode_package package refPackage EncodeTcpSynConnection_fields.
Definition EncodeTcpAckConnectionPackage (package : Package) (refPackage : RefPackage) : Encoder :=
  encode_package package refPackage EncodeTcpAckConnection_fields.
Definition EncodeTcpAckAckConnectionPackage (package : Package) (refPackage : RefPackage) : Encoder :=
  encode_package package refPackage EncodeTcpAckAckConnection_fields.

(** ** The decoders *)

Definition DecodeSynTunnelPackage (totallen : Z) (pRefPackage : option Package) : Decoder Package :=
  decode_package BDT_SYN_TUNNEL_PACKAGE totallen Bdt_SynTunnelPackageCreate pRefPackage DecodeSynTunnel_fields.
Definition DecodeAckTunnelPackage (totallen : Z) (pRefPackage : option Package) : Decoder Package :=
  decode_package BDT_ACK_TUNNEL_PACKAGE totallen Bdt_AckTunnelPackageCreate pRefPackage DecodeAckTunnel_fields.
Definition DecodeAckAckTunnelPackage (totallen : Z) (pRefPackage : option Package) : Decoder Package :=
  decode_package BDT_ACKACK_TUNNEL_PACKAGE totallen Bdt_AckAckTunnelPackageCreate pRefPackage DecodeAckAckTunnel_fields.
Definition DecodePingTunnelPackage (totallen : Z) (pRefPackage : option Package) : Decoder Package :=
  decode_package BDT_PING_TUNNEL_PACKAGE totallen Bdt_PingTunnelPackageCreate pRefPackage DecodePingTunnel_fields.
Definition DecodePingTunnelRespPackage (totallen : Z) (pRefPackage : option Package) : Decoder Package :=
  decode_package BDT_PING_TUNNEL_RESP_PACKAGE totallen Bdt_PingTunnelRespPackageCreate pRefPackage DecodePingTunnelResp_fields.
Definition DecodeSnCallPackage (totallen : Z) (pRefPackage : option Package) : Decoder Package :=
  decode_package BDT_SN_CALL_PACKAGE totallen Bdt_SnCallPackageCreate pRefPackage DecodeSnCall_fields.
Definition DecodeSnCallRespPackage (totallen : Z) (pRefPackage : option Package) : Decoder Package :=
  decode_package BDT_SN_CALL_RESP_PACKAGE totallen Bdt_SnCallRespPackageCreate pRefPackage DecodeSnCallResp_fields.
Definition DecodeSnCalledPackage (totallen : Z) (pRefPackage : option Package) : Decoder Package :=
  decode_package BDT_SN_CALLED_PACKAGE totallen Bdt_SnCalledPackageCreate pRefPackage DecodeSnCalled_fields.
Definition DecodeSnCalledRespPackage (totallen : Z) (pRefPackage : option Package) : Decoder Package :=
  decode_package BDT_SN_CALLED_RESP_PACKAGE totallen Bdt_SnCalledRespPackageCreate pRefPackage DecodeSnCalledResp_fields.
Definition DecodeSnPingPackage (totallen : Z) (pRefPackage : option Package) : Decoder Package :=
  decode_package BDT_SN_PING_PACKAGE totallen Bdt_SnPingPackageCreate pRefPackage DecodeSnPing_fields.
Definition DecodeSnPingRespPackage (totallen : Z) (pRefPackage : option Package) : Decoder Package :=
  decode_package BDT_SN_PING_RESP_PACKAGE totallen Bdt_SnPingRespPackageCreate pRefPackage DecodeSnPingResp_fields.
Definition DecodeTcpSynConnectionPackage (totallen : Z) (pRefPackage : option Package) : Decoder Package :=
  decode_package BDT_TCP_SYN_CONNECTION_PACKAGE totallen Bdt_TcpSynConnectionPackageCreate pRefPackage DecodeTcpSynConnection_fields.
Definition DecodeTcpAckConnectionPackage (totallen : Z) (pRefPackage : option Package) : Decoder Package :=
  decode_package BDT_TCP_ACK_CONNECTION_PACKAGE totallen Bdt_TcpAckConnectionPackageCreate pRefPackage DecodeTcpAckConnection_fields.
Definition DecodeTcpAckAckConnectionPackage (totallen : Z) (pRefPackage : option Package) : Decoder Package :=
  decode_package BDT_TCP_ACKACK_CONNECTION_PACKAGE totallen Bdt_TcpAckAckConnectionPackageCreate pRefPackage DecodeTcpAckAckConnection_fields.

End Codec.
