(* ===== verification/PackageProofs.v ===== *)
(** * What the encoders of the packages write and the decoders read

    The tables of [PackageFields] agree with each other and with the lists of
    [PackageCodec]; from that alone follows that the fields a package's encoder
    leaves out are those its decoder completes. *)

From S2P Require Import Prelude CInt Package BufferStream Codec Endpoint PackageFields PackageCodec.

Section Proofs.
Context {P : PeerInfoOps} {L : PeerInfoLaws P}.
Context (uninit : list Z).

(** ** Typed values *)

Definition typed_value (kind : FieldKind) (v : FieldValue) : Prop :=
  match kind, v with
  | KUInt8, VInt v => 0 ≤ v < 2 ^ 8
  | KUInt16, VInt v => 0 ≤ v < 2 ^ 16
  | KUInt32, VInt v => 0 ≤ v < 2 ^ 32
  | KUInt64, VInt v => 0 ≤ v < 2 ^ 64
  | KPeerid, VBytes bytes => length bytes = BDT_PEERID_LENGTH
  | KSign, VBytes bytes => length bytes = BDT_SEQ_AND_KEY_SIGN_LENGTH
  | KTinySign, VBytes bytes => length bytes = 16%nat
  | KEndpoints, VEndpoints list => Forall endpoint_ok list
  | KPeerInfo, VPeerInfo o => peer_info_live o
  | KBuffer, VBuffer _ => True
  | _, _ => False
  end.

Definition typed (p : Package) : Prop :=
  ∀ n kind, member_kind (struct_members (pk_cmdtype p)) n = Some kind → typed_value kind (pk_member p n).

(** Values with the same meaning: the same endpoints for [BdtEndpointCompare],
    the same content behind a pointer. *)
Definition same_value (v w : FieldValue) : Prop :=
  match v, w with
  | VInt v, VInt w => v = w
  | VBytes v, VBytes w => v = w
  | VPeerInfo v, VPeerInfo w => same_peer_info v w
  | VEndpoints v, VEndpoints w => Forall2 same_endpoint v w
  | VBuffer v, VBuffer w => v = w
  | _, _ => False
  end.

#[export] Instance same_value_equivalence : Equivalence same_value.
Proof.
  split.
  - intros [| | | |]; cbn; reflexivity.
  - intros [| | | |] [| | | |]; cbn; try done; by symmetry.
  - intros [| | | |] [| | | |] [| | | |]; cbn; try done; by etransitivity.
Qed.

Definition same_package (p q : Package) : Prop :=
  pk_cmdtype p = pk_cmdtype q ∧
  ∀ n kind, member_kind (struct_members (pk_cmdtype p)) n = Some kind → same_value (pk_member p n) (pk_member q n).

#[export] Instance same_package_equivalence : Equivalence same_package.
Proof.
  split.
  - by intros p.
  - intros p q [E H]. split; [done|]. rewrite <- E. intros n k Hn. symmetry. by eapply H.
  - intros p q r [E1 H1] [E2 H2]. split; [congruence|]. intros n k Hn.
    etransitivity; [by eapply H1|]. rewrite E1 in Hn. by eapply H2.
Qed.

(** ** The lookups by name *)

Ltac by_cmdtype n := repeat (match goal with |- context [?c =? ?k] => destruct (Z.eqb_spec c k) as [->|] end;
  [destruct n; reflexivity|]); try reflexivity.

Lemma PointByName_spec r n :
  GetPackageFieldPointByName r n = (λ _, pk_member r n) <$> member_kind (struct_members (pk_cmdtype r)) n.
Proof.
  unfold GetPackageFieldPointByName, struct_members.
  destruct r as [c f m]. cbn [pk_cmdtype pk_member]. by_cmdtype n.
Qed.

Lemma ValueByName_spec r n :
  GetPackageFieldValueByName r n =
  match member_kind (struct_members (pk_cmdtype r)) n with
  | Some KBuffer => None
  | Some _ => Some (Some (pk_member r n))
  | None => Some None
  end.
Proof.
  unfold GetPackageFieldValueByName, struct_members.
  destruct r as [c f m]. cbn [pk_cmdtype pk_member]. by_cmdtype n.
Qed.

(** Every name stands for members of one type. *)
Definition all_members : list (FieldName * FieldKind) :=
  ExchangeKey_members ++ SynTunnel_members ++ AckTunnel_members ++ PingTunnel_members ++ PingTunnelResp_members ++
  SnCall_members ++ SnCallResp_members ++ SnPingResp_members ++ DataGram_members ++ TcpSynConnection_members ++
  TcpAckConnection_members.

Lemma kind_by_name cmdtype n kind :
  member_kind (struct_members cmdtype) n = Some kind → member_kind all_members n = Some kind.
Proof.
  unfold struct_members.
  repeat (match goal with |- context [?c =? ?k] => destruct (Z.eqb_spec c k) as [->|] end;
    [destruct n; vm_compute; congruence|]). done.
Qed.

Lemma kinds_agree cmdtype cmdtype' n kind kind' :
  member_kind (struct_members cmdtype) n = Some kind → member_kind (struct_members cmdtype') n = Some kind' →
  kind = kind'.
Proof. intros H1%kind_by_name H2%kind_by_name. congruence. Qed.

(** ** The lists of fields *)

Record field_ok (cmdtype : Z) (fd : Field) : Prop := {
  fo_bit : ∃ j, 0 ≤ j < 15 ∧ fd_flag fd = Z.shiftl 1 j;
  fo_name : GetPackageFieldName cmdtype (fd_flag fd) = Some (fd_name fd);
  fo_kind : member_kind (struct_members cmdtype) (fd_name fd) = Some (fd_kind fd);
  fo_wire : fd_kind fd ≠ KSign ∧ fd_kind fd ≠ KTinySign;
  fo_default p : pk_cmdtype p = cmdtype →
    IsEqualPackageFieldDefaultValue p (fd_flag fd) = is_zero (pk_member p (fd_name fd)) }.

Record fields_ok (cmdtype : Z) (fields : list Field) : Prop := {
  fs_ok : Forall (field_ok cmdtype) fields;
  fs_flags : NoDup (fd_flag <$> fields);
  fs_names : NoDup (fd_name <$> fields);
  fs_all n kind : member_kind (struct_members cmdtype) n = Some kind → n ∈ fd_name <$> fields }.

(** The types whose encoders and decoders are generated. *)
Definition generated_fields (cmdtype : Z) : option (list Field) :=
  if cmdtype =? BDT_SYN_TUNNEL_PACKAGE then Some EncodeSynTunnel_fields else
  if cmdtype =? BDT_ACK_TUNNEL_PACKAGE then Some EncodeAckTunnel_fields else
  if cmdtype =? BDT_ACKACK_TUNNEL_PACKAGE then Some EncodeAckAckTunnel_fields else
  if cmdtype =? BDT_PING_TUNNEL_PACKAGE then Some EncodePingTunnel_fields else
  if cmdtype =? BDT_PING_TUNNEL_RESP_PACKAGE then Some EncodePingTunnelResp_fields else
  if cmdtype =? BDT_SN_CALL_PACKAGE then Some EncodeSnCall_fields else
  if cmdtype =? BDT_SN_CALL_RESP_PACKAGE then Some EncodeSnCallResp_fields else
  if cmdtype =? BDT_SN_CALLED_PACKAGE then Some EncodeSnCalled_fields else
  if cmdtype =? BDT_SN_CALLED_RESP_PACKAGE then Some EncodeSnCalledResp_fields else
  if cmdtype =? BDT_SN_PING_PACKAGE then Some EncodeSnPing_fields else
  if cmdtype =? BDT_SN_PING_RESP_PACKAGE then Some EncodeSnPingResp_fields else
  if cmdtype =? BDT_TCP_SYN_CONNECTION_PACKAGE then Some EncodeTcpSynConnection_fields else
  if cmdtype =? BDT_TCP_ACK_CONNECTION_PACKAGE then Some EncodeTcpAckConnection_fields else
  if cmdtype =? BDT_TCP_ACKACK_CONNECTION_PACKAGE then Some EncodeTcpAckAckConnection_fields else
  None.

Ltac field_tac := split; [eexists; split; [|reflexivity]; lia|reflexivity|reflexivity|done|
  let p := fresh in let E := fresh in intros p E; unfold IsEqualPackageFieldDefaultValue; rewrite E; reflexivity].
Ltac fields_tac := split;
  [repeat (apply Forall_cons; split; [field_tac|]); apply Forall_nil; done
  |apply (bool_decide_unpack _); reflexivity
  |apply (bool_decide_unpack _); reflexivity
  |let n := fresh in intros n ?; destruct n; try discriminate; intros _; apply (bool_decide_unpack _); reflexivity].

Lemma generated_fields_ok cmdtype fields : generated_fields cmdtype = Some fields → fields_ok cmdtype fields.
Proof.
  unfold generated_fields.
  repeat (match goal with |- context [?c =? ?k] => destruct (Z.eqb_spec c k) as [->|] end;
    [intros [= <-]; fields_tac|]). done.
Qed.

(** ** What is sent of a field *)

(** Values the encoder can write and the decoder can read. *)
Definition sendable (v : FieldValue) : Prop :=
  match v with
  | VPeerInfo o => peer_info_ok o
  | VEndpoints list => Z.of_nat (length list) < 2 ^ 16
  | VBuffer (Some bytes) => 0 < Z.of_nat (length bytes) < 65535
  | VBuffer None => False
  | VInt _ | VBytes _ => True
  end.

Definition field_bytes (kind : FieldKind) (v : FieldValue) : list Z :=
  match kind, v with
  | KUInt8, VInt v => le_bytes 1 v
  | KUInt16, VInt v => le_bytes 2 v
  | KUInt32, VInt v => le_bytes 4 v
  | KUInt64, VInt v => le_bytes 8 v
  | _, VBytes bytes => bytes
  | _, VPeerInfo o => peer_info_bytes o
  | _, VEndpoints list => endpoints_bytes list
  | _, VBuffer (Some bytes) => le_bytes 2 (Z.of_nat (length bytes)) ++ bytes
  | _, _ => []
  end.

Lemma writes_buffer bytes :
  Z.of_nat (length bytes) < 65535 →
  writes (BfxBufferWriteByteArrayBeginWithU16Length (Some bytes)) (le_bytes 2 (Z.of_nat (length bytes)) ++ bytes).
Proof.
  intros Hb s [Hr Hl]. rewrite length_app, length_le_bytes in *. unfold BfxBufferWriteByteArrayBeginWithU16Length.
  cbn [mbind option_bind]. rewrite option_guard_True by done. cbn [mbind option_bind].
  rewrite assert_room_ok by lia. cbn [mbind option_bind].
  rewrite store_ok by (rewrite length_le_bytes; lia). cbn [mbind option_bind].
  rewrite store_ok.
  - cbn [mbind option_bind]. rewrite written_app by (rewrite length_le_bytes; lia). done.
  - rewrite length_written by (rewrite length_le_bytes; lia). unfold written. cbn [bs_pos]. rewrite length_le_bytes. lia.
Qed.

Lemma writes_field kind v :
  typed_value kind v → sendable v → kind ≠ KSign ∧ kind ≠ KTinySign → writes (write_field kind v) (field_bytes kind v).
Proof.
  intros Ht Hs [Hk1 Hk2]. destruct kind, v; cbn [typed_value sendable write_field field_bytes] in *; try done.
  - apply writes_u8.
  - apply writes_u16.
  - apply writes_u32.
  - apply writes_u64.
  - intros s Hr. unfold Bdt_BufferWritePeerid. rewrite take_ge by lia. rewrite writes_bytes by done.
    cbn [mbind option_bind]. by rewrite Ht.
  - by apply writes_peer_info.
  - by apply writes_endpoints.
  - destruct o as [bytes|]; [|done]. apply writes_buffer. lia.
Qed.

Lemma parses_buffer bytes :
  0 < Z.of_nat (length bytes) < 65535 →
  parses (dec_read BfxBufferReadByteArrayBeginWithU16Length) (le_bytes 2 (Z.of_nat (length bytes)) ++ bytes) (Some bytes).
Proof.
  intros Hb n s rest Hr. pose proof Hr as (_ & Hl & _). rewrite length_app, length_le_bytes in Hl.
  apply ready_split in Hr as [(Hr1 & Hl1 & _) (Hr2 & Hl2 & _)]. rewrite length_le_bytes in *.
  unfold dec_read, BfxBufferReadByteArrayBeginWithU16Length. cbn [de_stream de_read].
  rewrite assert_room_ok by lia. cbn [mbind option_bind].
  erewrite load_reads_n; [|exact Hr1|by rewrite length_le_bytes]. cbn [mbind option_bind].
  rewrite le_val_bytes, Z.mod_small, Nat2Z.id by lia. destruct (Nat.eqb_spec (length bytes) 0); [lia|].
  destruct (Nat.ltb_spec (bs_length (advance 2 s)) (bs_pos (advance 2 s) + length bytes)); [cbn in *; lia|].
  rewrite (load_reads _ _ _ Hr2). cbn [mbind option_bind].
  destruct (Z.leb_spec (2 + Z.of_nat (length bytes)) 0); [lia|].
  rewrite advance_add, length_app, length_le_bytes. do 3 f_equal. lia.
Qed.

Lemma parses_value {A} (rd : Dec A) (g : A → FieldValue) bs (v : A) w :
  parses rd bs v → same_value w (g v) → parses_to (x ← rd; mret (g x)) bs (same_value w).
Proof. intros Hp Hs. eapply parses_to_intro; [by apply (parses_map _ g)|done]. Qed.

Lemma received_endpoints_same list : Forall endpoint_ok list → Forall2 same_endpoint list (received_endpoint uninit <$> list).
Proof.
  induction 1 as [|ep list He _ IH]; [constructor|]. rewrite fmap_cons. constructor; [|done].
  by apply received_endpoint_same.
Qed.

Lemma parses_field kind v :
  typed_value kind v → sendable v → kind ≠ KSign ∧ kind ≠ KTinySign →
  parses_to (read_field uninit kind) (field_bytes kind v) (same_value v).
Proof.
  intros Ht Hs [Hk1 Hk2]. destruct kind, v; cbn [typed_value sendable read_field field_bytes] in *; try done.
  - by eapply parses_value; [apply parses_u8|].
  - by eapply parses_value; [apply parses_u16|].
  - by eapply parses_value; [apply parses_u32|].
  - by eapply parses_value; [apply parses_u64|].
  - eapply parses_value; [|reflexivity]. unfold Bdt_BufferReadPeerid. rewrite <- Ht. apply parses_bytes.
    rewrite Ht. by vm_compute.
  - rewrite <- (app_nil_r (peer_info_bytes _)). eapply parses_to_bind; [by apply parses_peer_info|].
    intros o' Ho. eapply parses_to_intro; [apply parses_ret|done].
  - eapply parses_value; [by apply parses_endpoint_array|]. by apply received_endpoints_same.
  - destruct o as [bytes|]; [|done]. eapply parses_value; [by apply parses_buffer|reflexivity].
Qed.

(** ** Which fields are sent *)

Lemma is_equal_spec kind r v :
  typed_value kind r → typed_value kind v → kind ≠ KSign ∧ kind ≠ KTinySign →
  ∃ b, is_equal kind r v = Some b ∧ (b = true → kind ≠ KBuffer ∧ same_value v r).
Proof.
  intros Hr Hv [H1 H2]. destruct kind, r, v; cbn [typed_value is_equal] in *; try done;
    (eexists; split; [reflexivity|]); try done; intros Hb; (split; [done|]); cbn [same_value].
  - by apply Z.eqb_eq.
  - by apply Z.eqb_eq.
  - by apply Z.eqb_eq.
  - by apply Z.eqb_eq.
  - apply Z.eqb_eq, memcmp_eq in Hb; [done|congruence].
  - by apply BdtPeerInfoIsEqual_same.
  - apply BdtEndpointArrayIsEqual_same in Hb; [by symmetry|done..].
Qed.

Lemma is_zero_bytes bytes : is_zero (VBytes bytes) = true → bytes = replicate (length bytes) 0.
Proof.
  cbn [is_zero]. induction bytes as [|b bytes IH]; [done|]. cbn [forallb length replicate].
  intros [->%Z.eqb_eq H%IH]%andb_true_iff. congruence.
Qed.

Lemma is_zero_same kind v : typed_value kind v → is_zero v = true → same_value v (zero_value kind).
Proof.
  intros Ht Hz. destruct kind, v; cbn [typed_value zero_value same_value] in *; try done;
    try (by apply Z.eqb_eq); try (apply is_zero_bytes in Hz; congruence); cbn [is_zero] in Hz;
    apply bool_decide_eq_true in Hz as ->; reflexivity.
Qed.

(** The reference's value of a field. *)
Definition reference_kind (refPackage : option Package) (n : FieldName) : option FieldKind :=
  r ← refPackage; member_kind (struct_members (pk_cmdtype r)) n.

Definition typed_ref (refPackage : option Package) : Prop := ∀ r, refPackage = Some r → typed r.

Lemma field_present_spec p ref fd :
  field_ok (pk_cmdtype p) fd → typed p → typed_ref ref →
  ∃ b, field_present p ref fd = Some b ∧
  (b = false →
   match ref ≫= λ r, (λ k, (k, r)) <$> member_kind (struct_members (pk_cmdtype r)) (fd_name fd) with
   | Some (k, r) => k ≠ KBuffer ∧ same_value (pk_member p (fd_name fd)) (pk_member r (fd_name fd))
   | None => same_value (pk_member p (fd_name fd)) (zero_value (fd_kind fd))
   end).
Proof.
  intros Hf Hp Hr. pose proof (fo_kind _ _ Hf) as Hk. pose proof (Hp _ _ Hk) as Ht.
  assert (Hz : negb (IsEqualPackageFieldDefaultValue p (fd_flag fd)) = false →
               same_value (pk_member p (fd_name fd)) (zero_value (fd_kind fd))).
  { rewrite (fo_default _ _ Hf p eq_refl). intros Hn%negb_false_iff. by apply is_zero_same. }
  unfold field_present, field_present_by. destruct ref as [r|]; cbn [mbind option_bind]; [|by eexists].
  rewrite (fo_name _ _ Hf). cbn [mbind option_bind]. rewrite PointByName_spec.
  destruct (member_kind (struct_members (pk_cmdtype r)) (fd_name fd)) as [k|] eqn:Ek; cbn [fmap option_fmap option_map];
    [|by eexists].
  pose proof (kinds_agree _ _ _ _ _ Ek Hk) as ->.
  destruct (is_equal_spec (fd_kind fd) (pk_member r (fd_name fd)) (pk_member p (fd_name fd))) as (b & -> & Hb).
  - by apply (Hr r).
  - done.
  - apply (fo_wire _ _ Hf).
  - eexists. split; [reflexivity|]. intros Hn%negb_false_iff. by apply Hb.
Qed.

Definition sent (p : Package) (ref : option Package) (fd : Field) : bool := default false (field_present p ref fd).

(** ** What the encoder writes *)

Definition sent_bytes (p : Package) (ref : option Package) (fd : Field) : list Z :=
  if sent p ref fd then field_bytes (fd_kind fd) (pk_member p (fd_name fd)) else [].

Definition package_body (p : Package) (ref : option Package) (fields : list Field) : list Z :=
  concat (sent_bytes p ref <$> fields).

Definition package_flags (p : Package) (ref : option Package) (fields : list Field) (f : Z) : Z :=
  foldl (λ f fd, put_flag f (fd_flag fd) (sent p ref fd)) f fields.

(** The values that are sent can be. *)
Definition all_sendable (p : Package) (ref : option Package) (fields : list Field) : Prop :=
  ∀ fd, fd ∈ fields → sent p ref fd = true → sendable (pk_member p (fd_name fd)).

Lemma emits_encode_field p ref fd f :
  field_ok (pk_cmdtype p) fd → typed p → typed_ref ref →
  (sent p ref fd = true → sendable (pk_member p (fd_name fd))) →
  emits (encode_field p ref fd) f (sent_bytes p ref fd) (put_flag f (fd_flag fd) (sent p ref fd)).
Proof.
  intros Hf Hp Hr Hs. destruct (field_present_spec p ref fd Hf Hp Hr) as (b & E & _).
  unfold sent_bytes, sent in *. rewrite E in *. cbn [default] in *.
  intros s n Hroom. unfold encode_field, encode_field_by. fold (field_present p ref fd). rewrite E. cbn [mbind option_bind].
  destruct (fo_bit _ _ Hf) as (j & Hj & Ej). rewrite Ej in *.
  apply (emits_field f j b); [lia| |done]. intros Hb g. apply emits_write, writes_field.
  - apply Hp, (fo_kind _ _ Hf).
  - by apply Hs.
  - apply (fo_wire _ _ Hf).
Qed.

Lemma emits_encode_fields p ref fields f :
  Forall (field_ok (pk_cmdtype p)) fields → typed p → typed_ref ref → all_sendable p ref fields →
  emits (encode_fields p ref fields) f (package_body p ref fields) (package_flags p ref fields f).
Proof.
  intros Hok Hp Hr. revert f. induction Hok as [|fd fields Hf Hok IH]; intros f Hs; [apply emits_skip|].
  unfold package_body. rewrite fmap_cons. cbn [concat encode_fields package_flags foldl].
  eapply emits_then; [apply emits_encode_field; [done..|]|apply IH].
  - apply Hs. by left.
  - intros fd' H'. apply Hs. by right.
Qed.

(** The flags tell what was sent. *)
Lemma package_flags_other p ref fields f j :
  Forall (field_ok (pk_cmdtype p)) fields → 0 ≤ j < 16 → Z.shiftl 1 j ∉ fd_flag <$> fields →
  has_flag (package_flags p ref fields f) (Z.shiftl 1 j) = has_flag f (Z.shiftl 1 j).
Proof.
  intros Hok Hj. revert f. induction Hok as [|fd fields Hf Hok IH]; intros f Hn; [done|].
  rewrite fmap_cons, not_elem_of_cons in Hn. destruct Hn as [Hn1 Hn2].
  cbn [package_flags foldl]. fold (package_flags p ref fields (put_flag f (fd_flag fd) (sent p ref fd))).
  rewrite IH by done. destruct (fo_bit _ _ Hf) as (i & Hi & Ei). rewrite Ei in *.
  rewrite has_put_flag by lia. destruct (Z.eqb_spec j i) as [->|]; [done|done].
Qed.

Lemma package_flags_sent p ref fields f fd :
  Forall (field_ok (pk_cmdtype p)) fields → NoDup (fd_flag <$> fields) → fd ∈ fields →
  has_flag (package_flags p ref fields f) (fd_flag fd) = sent p ref fd.
Proof.
  intros Hok. revert f. induction Hok as [|fd' fields Hf Hok IH]; intros f Hnd Hin; [by apply elem_of_nil in Hin|].
  rewrite fmap_cons in Hnd. apply NoDup_cons in Hnd as [Hn Hnd]. cbn [package_flags foldl].
  fold (package_flags p ref fields (put_flag f (fd_flag fd') (sent p ref fd'))).
  apply elem_of_cons in Hin as [->|Hin]; [|by apply IH].
  destruct (fo_bit _ _ Hf) as (i & Hi & Ei). rewrite Ei in *. rewrite package_flags_other by (done || lia).
  by rewrite has_put_flag, Z.eqb_refl by lia.
Qed.

(** ** What the decoder reads *)

(** The references of the two sides. *)
Definition same_ref (ref ref' : option Package) : Prop :=
  match ref, ref' with
  | None, None => True
  | Some r, Some r' => same_package r r'
  | _, _ => False
  end.

Lemma parses_to_pure {A} (m : Dec A) a (Q : A → Prop) : (∀ d, m d = Some (Some a, d)) → Q a → parses_to m [] Q.
Proof. intros Hm Ha n s rest _. exists a. split; [done|]. rewrite Hm, advance_0. do 2 f_equal. cbn. f_equal. lia. Qed.

(** A field of the result, the others as they were. *)
Definition decoded (p q : Package) (n : FieldName) (q' : Package) : Prop :=
  pk_cmdtype q' = pk_cmdtype q ∧ pk_cmdflags q' = pk_cmdflags q ∧
  same_value (pk_member p n) (pk_member q' n) ∧ ∀ m, m ≠ n → pk_member q' m = pk_member q m.

Lemma decoded_set p q n v : same_value (pk_member p n) v → decoded p q n (set_member q n v).
Proof.
  intros Hv. split_and!; [done|done| |]; cbn [set_member pk_member].
  - by rewrite decide_True.
  - intros m Hm. by rewrite decide_False.
Qed.

Lemma decoded_default p q n : same_value (pk_member p n) (pk_member q n) → decoded p q n q.
Proof. by intros. Qed.

Lemma parses_decode_field p ref ref' fd cmdflags q :
  field_ok (pk_cmdtype p) fd → typed p → typed_ref ref → same_ref ref ref' →
  (sent p ref fd = true → sendable (pk_member p (fd_name fd))) →
  has_flag cmdflags (fd_flag fd) = sent p ref fd → pk_cmdtype q = pk_cmdtype p →
  pk_member q (fd_name fd) = zero_value (fd_kind fd) →
  parses_to (decode_field uninit cmdflags ref' fd q) (sent_bytes p ref fd) (decoded p q (fd_name fd)).
Proof.
  intros Hf Hp Hr Hrr Hs Hfl Hq Hz. destruct (field_present_spec p ref fd Hf Hp Hr) as (b & E & Hb).
  unfold decode_field, sent_bytes. rewrite Hfl. unfold sent in *. rewrite E in *. cbn [default] in *. destruct b.
  { rewrite <- (app_nil_r (field_bytes _ _)). eapply parses_to_bind.
    - apply parses_field; [apply Hp, (fo_kind _ _ Hf)|by apply Hs|apply (fo_wire _ _ Hf)].
    - intros v Hv. eapply parses_to_intro; [apply parses_ret|]. by apply decoded_set. }
  specialize (Hb eq_refl). destruct ref as [r|], ref' as [r'|]; try done; cbn [mbind option_bind] in Hb.
  - destruct Hrr as [Hct Hmem].
    set (v := ReadPackageFieldValueFromReference (pk_cmdtype q) (fd_flag fd) r').
    assert (Hv : v = match member_kind (struct_members (pk_cmdtype r)) (fd_name fd) with
                     | Some KBuffer => None | Some _ => Some (Some (pk_member r' (fd_name fd))) | None => Some None end).
    { unfold v, ReadPackageFieldValueFromReference. rewrite Hq, (fo_name _ _ Hf). cbn [mbind option_bind].
      by rewrite ValueByName_spec, Hct. }
    specialize (Hmem (fd_name fd)). unfold from_reference. fold v. rewrite Hv.
    destruct (member_kind (struct_members (pk_cmdtype r)) (fd_name fd)) as [k|]; cbn [fmap option_fmap option_map] in Hb.
    + destruct Hb as [Hk Hb]. apply (parses_to_pure _ (set_member q (fd_name fd) (pk_member r' (fd_name fd)))).
      * intros d. by destruct k.
      * apply decoded_set. etransitivity; [done|]. by eapply Hmem.
    + apply (parses_to_pure _ q); [done|]. apply decoded_default. by rewrite Hz.
  - eapply parses_to_intro; [apply parses_ret|]. apply decoded_default. by rewrite Hz.
Qed.

Lemma parses_decode_fields p ref ref' cmdflags fields q :
  Forall (field_ok (pk_cmdtype p)) fields → NoDup (fd_name <$> fields) → typed p → typed_ref ref → same_ref ref ref' →
  all_sendable p ref fields →
  (∀ fd, fd ∈ fields → has_flag cmdflags (fd_flag fd) = sent p ref fd) → pk_cmdtype q = pk_cmdtype p →
  (∀ fd, fd ∈ fields → pk_member q (fd_name fd) = zero_value (fd_kind fd)) →
  parses_to (decode_fields uninit cmdflags ref' fields q) (package_body p ref fields) (λ q',
    pk_cmdtype q' = pk_cmdtype p ∧ pk_cmdflags q' = pk_cmdflags q ∧
    (∀ n, n ∈ fd_name <$> fields → same_value (pk_member p n) (pk_member q' n)) ∧
    ∀ m, m ∉ fd_name <$> fields → pk_member q' m = pk_member q m).
Proof.
  intros Hok Hnd Hp Hr Hrr. revert q Hnd. induction Hok as [|fd fields Hf Hok IH]; intros q Hnd Hs Hfl Hq Hz.
  { eapply parses_to_intro; [apply parses_ret|]. split_and!; [done..|by intros ? ?%elem_of_nil|done]. }
  rewrite fmap_cons in *. apply NoDup_cons in Hnd as [Hn Hnd]. unfold package_body. rewrite fmap_cons.
  cbn [concat decode_fields]. eapply parses_to_bind.
  { apply (parses_decode_field p ref ref' fd cmdflags q); try done.
    - apply Hs. by left.
    - apply Hfl. by left.
    - apply Hz. by left. }
  intros q1 (H1 & H2 & H3 & H4). eapply parses_to_weaken.
  { apply (IH q1); [done|by intros ? ?; apply Hs; right|by intros ? ?; apply Hfl; right|congruence|].
    intros fd' Hin. rewrite H4; [apply Hz; by right|]. intros E. apply Hn. rewrite <- E.
    by apply list_elem_of_fmap_2. }
  intros q' (G1 & G2 & G3 & G4). split_and!; [done|congruence| |].
  - intros n [->|Hin]%elem_of_cons; [|by apply G3]. by rewrite G4.
  - intros m [Hm1 Hm2]%not_elem_of_cons. by rewrite G4, H4.
Qed.

(** ** A package and its copy *)

Lemma package_init_member cmdtype n kind :
  member_kind (struct_members cmdtype) n = Some kind → pk_member (package_init cmdtype) n = zero_value kind.
Proof. intros H. cbn [package_init pk_member]. by rewrite H. Qed.

Lemma package_flags_range p ref fields f :
  0 ≤ f < 2 ^ 16 → 0 ≤ package_flags p ref fields f < 2 ^ 16.
Proof.
  revert f. induction fields as [|fd fields IH]; intros f Hf; [done|]. cbn [package_flags foldl].
  apply IH, put_flag_range.
Qed.

(** The reference the encoder is given, for a package that is not itself the
    reference. *)
Definition given_reference (ref : RefPackage) : option Package :=
  match ref with Ref r => Some r | _ => None end.

Lemma parses_decode_body p ref ref' fields :
  fields_ok (pk_cmdtype p) fields → typed p → typed_ref (given_reference ref) → 0 ≤ pk_cmdflags p < 2 ^ 16 →
  same_ref (given_reference ref) ref' → all_sendable p (usable_reference p ref) fields →
  let flags := package_flags p (usable_reference p ref) fields (pk_cmdflags p) in
  parses_to (decode_body uninit (package_init (pk_cmdtype p)) ref' fields)
    (le_bytes 2 flags ++ package_body p (usable_reference p ref) fields)
    (λ q, same_package p q ∧ pk_cmdflags q = flags).
Proof.
  intros Hok Hp Hr Hfl Hrr Hs flags. set (u := usable_reference p ref) in *.
  assert (Hu : typed_ref u).
  { intros r E. apply Hr. unfold u, usable_reference in E. destruct ref; [done|done|].
    by destruct (has_flag _ _). }
  assert (Hrange : 0 ≤ flags < 2 ^ 16) by (by apply package_flags_range).
  assert (Hdis : has_flag flags BDT_PACKAGE_FLAG_DISABLE_REF = has_flag (pk_cmdflags p) BDT_PACKAGE_FLAG_DISABLE_REF).
  { apply (package_flags_other p u fields (pk_cmdflags p) 15 (fs_ok _ _ Hok)); [lia|].
    intros (fd & E & Hin)%list_elem_of_fmap. pose proof (fs_ok _ _ Hok) as Hall. rewrite Forall_forall in Hall.
    destruct (fo_bit _ _ (Hall _ Hin)) as (j & Hj & Ej). rewrite Ej, !Z.shiftl_1_l in E.
    apply Z.pow_inj_r in E; lia. }
  eapply parses_to_bind.
  { apply (parses_to_intro _ _ flags (eq flags)); [by apply parses_u16|done]. }
  intros ? <-. rewrite Hdis. eapply parses_to_weaken.
  { apply (parses_decode_fields p u); [apply (fs_ok _ _ Hok)|apply (fs_names _ _ Hok)|done|done| |done| |done|].
    - unfold u, usable_reference, given_reference in *. destruct ref, ref'; try done; by destruct (has_flag (pk_cmdflags p) BDT_PACKAGE_FLAG_DISABLE_REF).
    - intros fd Hin. apply package_flags_sent; [apply (fs_ok _ _ Hok)|apply (fs_flags _ _ Hok)|done].
    - intros fd Hin. apply package_init_member. pose proof (fs_ok _ _ Hok) as Hall. rewrite Forall_forall in Hall.
      apply (fo_kind _ _ (Hall _ Hin)). }
  intros q (H1 & H2 & H3 & _). split; [|by rewrite H2]. split; [done|]. intros n k Hk.
  by apply H3, (fs_all _ _ Hok _ _ Hk).
Qed.

(** [encode_package] and [decode_package] with the same list of fields. *)
Lemma fields_wire p ref ref' fields :
  fields_ok (pk_cmdtype p) fields → typed p → typed_ref (given_reference ref) → 0 ≤ pk_cmdflags p < 2 ^ 16 →
  same_ref (given_reference ref) ref' → all_sendable p (usable_reference p ref) fields →
  0 ≤ pk_cmdtype p < 2 ^ 8 → pk_cmdtype p ≠ BDT_EXCHANGEKEY_PACKAGE →
  let body := package_body p (usable_reference p ref) fields in
  let flags := package_flags p (usable_reference p ref) fields (pk_cmdflags p) in
  Z.of_nat (5 + length body) < 2 ^ 16 →
  wire (encode_package p ref fields)
    (λ totallen, decode_package uninit (pk_cmdtype p) totallen (package_init (pk_cmdtype p)) ref' fields)
    (pk_cmdtype p) flags (package_bytes (pk_cmdtype p) flags body) (λ q, same_package p q ∧ pk_cmdflags q = flags).
Proof.
  intros Hok Hp Hr Hfl Hrr Hs Hc Hne body flags Hsz.
  assert (Hu : typed_ref (usable_reference p ref)).
  { intros r E. apply Hr. unfold usable_reference in E. destruct ref; [done|done|]. by destruct (has_flag _ _). }
  assert (Hm : Bdt_GetPackageMinSize (pk_cmdtype p) = 2).
  { unfold Bdt_GetPackageMinSize. by destruct (Z.eqb_spec (pk_cmdtype p) BDT_EXCHANGEKEY_PACKAGE). }
  apply (package_wire _ _ _ _ _ _ _ (λ _, decode_body uninit (package_init (pk_cmdtype p)) ref' fields));
    try done; try (rewrite Hm; lia).
  - by apply emits_encode_fields, Hs; [apply (fs_ok _ _ Hok)| |].
  - intros s1 rest Hready. destruct (parses_decode_body p ref ref' fields Hok Hp Hr Hfl Hrr Hs 0 s1 rest Hready) as (q & Hq & E).
    exists q. split; [done|]. rewrite E, length_app, length_le_bytes. done.
Qed.

End Proofs.
