(* ===== verification/HandCodec.v ===== *)
(** * The packages coded by hand

    [EncodeExchangeKeyPackage] and [EncodeDataGramPackage] of
    [BDTCore/Protocol/PackageEncoder.imp.inl] and their decoders in
    [PackageDecoder.imp.inl].  They treat most fields as the generated code
    does; a key exchange has no type on the wire and fields that are always
    there, a datagram compares its time with 32 bits of the reference's, has a
    signature that is never written, and data up to the package's end. *)

From S2P Require Import Prelude CInt Package BufferStream Codec SessionCodec Endpoint PackageFields PackageCodec.

Section HandCodec.
Context {P : PeerInfoOps}.
Context (uninit : list Z).

(** ** Key exchange *)

Definition write_sign (v : FieldValue) : Write :=
  match v with VBytes bytes => BfxBufferWriteByteArray (take BDT_SEQ_AND_KEY_SIGN_LENGTH bytes) | _ => λ _, None end.
Definition write_time (v : FieldValue) : Write :=
  match v with VInt v => BfxBufferWriteInt64 (i64 v) | _ => λ _, None end.

Definition exchange_fromPeerid : Field := mkField BDT_EXCHANGEKEY_PACKAGE_FLAG_FROMPEERID s_fieldName_fromPeerid KPeerid.
Definition exchange_peerInfo : Field := mkField BDT_EXCHANGEKEY_PACKAGE_FLAG_PEERINFO s_fieldName_peerInfo KPeerInfo.

Definition exchange_fields (package : Package) (refPackage : option Package) : Enc :=
  enc_write (write_field KUInt32 (pk_member package s_fieldName_seq)) >>>
  enc_write (write_sign (pk_member package s_fieldName_seqAndKeySign)) >>>
  encode_field package refPackage exchange_fromPeerid >>>
  encode_field package refPackage exchange_peerInfo >>>
  enc_write (write_time (pk_member package s_fieldName_sendTime)).

Definition EncodeExchangeKeyPackage (package : Package) (refPackage : RefPackage) : Encoder := λ s,
  let headerPos := BfxBufferStreamGetPos s in
  s ← BfxBufferStreamSetPos s (headerPos + 2 + 2);
  '(r, e) ← exchange_fields package (usable_reference package refPackage) (mkEnc s 4 (pk_cmdflags package));
  if negb (r =? BFX_RESULT_SUCCESS) then Some (r, en_flags e, 0%nat, en_stream e) else
  let tailPos := BfxBufferStreamGetPos (en_stream e) in
  s ← BfxBufferStreamSetPos (en_stream e) headerPos;
  '(_, _, s) ← BfxBufferWriteUInt16 (u16 (Z.of_nat (en_total e))) s;
  '(_, _, s) ← BfxBufferWriteUInt16 (en_flags e) s;
  s ← BfxBufferStreamSetPos s tailPos;
  Some (BFX_RESULT_SUCCESS, en_flags e, en_total e, s).

Definition decode_exchange (pPackage : Package) (pRefPackage : option Package) : Dec Package :=
  cmdflags ← dec_read BfxBufferReadUInt16;
  let pRefPackage := if has_flag cmdflags BDT_PACKAGE_FLAG_DISABLE_REF then None else pRefPackage in
  seq ← dec_read BfxBufferReadUInt32;
  sign ← dec_read (BfxBufferReadByteArray BDT_SEQ_AND_KEY_SIGN_LENGTH);
  let pPackage := set_member (set_member (set_cmdflags pPackage cmdflags) s_fieldName_seq (VInt seq))
                    s_fieldName_seqAndKeySign (VBytes sign) in
  pPackage ← decode_field uninit cmdflags pRefPackage exchange_fromPeerid pPackage;
  pPackage ← decode_field uninit cmdflags pRefPackage exchange_peerInfo pPackage;
  sendTime ← dec_read BfxBufferReadUInt64;
  mret (set_member pPackage s_fieldName_sendTime (VInt sendTime)).

(** [None] inside is a result that is not positive: the length is compared with
    what is left behind it, although it counts itself. *)
Definition DecodeExchangeKeyPackage (pPackage : Package) (pRefPackage : option Package) : Decoder Package := λ s,
  '(r, totallen, s) ← BfxBufferReadUInt16 s;
  tail ← BfxBufferStreamGetTailLength s;
  if Z.of_nat tail <? totallen then Some (None, s) else
  if totallen <? Bdt_GetPackageMinSize BDT_EXCHANGEKEY_PACKAGE then Some (None, s) else
  '(o, d) ← decode_exchange pPackage pRefPackage (mkDec s r);
  Some (match o with Some p => if totallen =? de_read d then Some p else None | None => None end, de_stream d).

(** ** Datagrams *)

(** [*rParam] is read as [uint32_t] for the time; the signature is not compared. *)
Definition datagram_equal (kind : FieldKind) (r v : FieldValue) : option bool :=
  match kind, r, v with
  | KUInt64, VInt r, VInt v => Some (v =? u32 r)
  | KTinySign, VBytes _, VBytes _ => Some false
  | _, _, _ => is_equal kind r v
  end.

(** Nothing is written for the signature. *)
Definition datagram_write (kind : FieldKind) (v : FieldValue) : Write :=
  match kind with
  | KTinySign => λ s, Some (BFX_RESULT_SUCCESS, 0%nat, s)
  | _ => write_field kind v
  end.

Definition DataGram_fields : list Field :=
  [mkField BDT_DATA_GRAM_PACKAGE_FLAG_SEQ s_fieldName_seq KUInt32;
   mkField BDT_DATA_GRAM_PACKAGE_FLAG_DESTZONE s_fieldName_destZone KUInt32;
   mkField BDT_DATA_GRAM_PACKAGE_FLAG_HOPLIMIT s_fieldName_hopLimit KUInt8;
   mkField BDT_DATA_GRAM_PACKAGE_FLAG_PIECE s_fieldName_piece KUInt16;
   mkField BDT_DATA_GRAM_PACKAGE_FLAG_ACKSEQ s_fieldName_ackSeq KUInt32;
   mkField BDT_DATA_GRAM_PACKAGE_FLAG_SENDTIME s_fieldName_sendTime KUInt64;
   mkField BDT_DATA_GRAM_PACKAGE_FLAG_AUTHORPEERID s_fieldName_authorPeerid KPeerid;
   mkField BDT_DATA_GRAM_PACKAGE_FLAG_AUTHORPEERINFO s_fieldName_authorPeerInfo KPeerInfo;
   mkField BDT_DATA_GRAM_PACKAGE_FLAG_DATASIGN s_fieldName_dataSign KTinySign;
   mkField BDT_DATA_GRAM_PACKAGE_FLAG_INNERCMDTYPE s_fieldName_innerCmdType KUInt8].

Fixpoint encode_datagram_fields (package : Package) (refPackage : option Package) (fields : list Field) : Enc :=
  match fields with
  | [] => enc_skip
  | fd :: fields =>
      encode_field_by datagram_equal datagram_write package refPackage fd >>>
      encode_datagram_fields package refPackage fields
  end.

Definition encode_data (package : Package) : Enc :=
  let data := match pk_member package s_fieldName_data with VBuffer data => data | _ => None end in
  enc_flag BDT_DATA_GRAM_PACKAGE_FLAG_DATA (bool_decide (data ≠ None)) >>>
  enc_if BDT_DATA_GRAM_PACKAGE_FLAG_DATA (enc_write (BfxBufferWriteByteArray (default [] data))).

Definition EncodeDataGramPackage (package : Package) (refPackage : RefPackage) : Encoder :=
  enc_package (pk_cmdtype package) (pk_cmdflags package)
    (encode_datagram_fields package (usable_reference package refPackage) DataGram_fields >>> encode_data package).

Definition decode_datagram (totallen : Z) (pResult : Package) (pRefPackage : option Package) : Dec Package :=
  pResult ← decode_body uninit pResult pRefPackage DataGram_fields;
  dec_if (has_flag (pk_cmdflags pResult) BDT_DATA_GRAM_PACKAGE_FLAG_DATA)
    (data ← dec_payload totallen; mret (set_member pResult s_fieldName_data (VBuffer data))) pResult.

Definition DecodeDataGramPackage (totallen : Z) (pRefPackage : option Package) : Decoder Package :=
  dec_package (Bdt_GetPackageMinSize BDT_DATA_GRAM_PACKAGE) totallen Bdt_DataGramPackageCreate
    (decode_datagram totallen Bdt_DataGramPackageCreate pRefPackage).

End HandCodec.
