(* ===== verification/MergedPackages.v ===== *)
(** * Merged packages

    A datagram holds one package or several, the later ones relative to the
    first: [Bdt_EncodeSinglePackage] and [DecodeSinglePackage] of
    [BDTCore/Protocol/PackageImp.imp.inl], [Bdt_EncodePackage]
    ([PackageEncoder.imp.inl]) and [Bdt_DecodePackage] ([PackageDecoder.imp.inl]). *)

From S2P Require Import Prelude CInt Package BufferStream Codec SessionCodec Endpoint PackageFields PackageCodec HandCodec.

Definition BFX_RESULT_INVALID_ENCODE : Z := 104.

Section Packages.
Context {P : PeerInfoOps}.
Context (uninit : list Z).

Inductive AnyPackage := Fields (p : Package) | Session (p : SessionPackage).

Definition package_type (p : AnyPackage) : Z :=
  match p with Fields p => pk_cmdtype p | Session _ => BDT_SESSION_DATA_PACKAGE end.

(** The package as the reference of another one: of a session data package only
    the type matters, no member is ever looked up in it. *)
Definition as_reference (p : AnyPackage) : Package :=
  match p with
  | Fields p => p
  | Session p => mkPackage BDT_SESSION_DATA_PACKAGE (sp_cmdflags p) (λ _, VInt 0)
  end.

Definition Bdt_EncodeSinglePackage (package : AnyPackage) (refPackage : RefPackage) : Encoder := λ pStream,
  match package with
  | Session p => EncodeSessionDataPackage p pStream
  | Fields p =>
      if pk_cmdtype p =? BDT_EXCHANGEKEY_PACKAGE then EncodeExchangeKeyPackage p refPackage pStream else
      if pk_cmdtype p =? BDT_SYN_TUNNEL_PACKAGE then EncodeSynTunnelPackage p refPackage pStream else
      if pk_cmdtype p =? BDT_ACK_TUNNEL_PACKAGE then EncodeAckTunnelPackage p refPackage pStream else
      if pk_cmdtype p =? BDT_ACKACK_TUNNEL_PACKAGE then EncodeAckAckTunnelPackage p refPackage pStream else
      if pk_cmdtype p =? BDT_PING_TUNNEL_PACKAGE then EncodePingTunnelPackage p refPackage pStream else
      if pk_cmdtype p =? BDT_PING_TUNNEL_RESP_PACKAGE then EncodePingTunnelRespPackage p refPackage pStream else
      if pk_cmdtype p =? BDT_SN_CALL_PACKAGE then EncodeSnCallPackage p refPackage pStream else
      if pk_cmdtype p =? BDT_SN_CALL_RESP_PACKAGE then EncodeSnCallRespPackage p refPackage pStream else
      if pk_cmdtype p =? BDT_SN_CALLED_PACKAGE then EncodeSnCalledPackage p refPackage pStream else
      if pk_cmdtype p =? BDT_SN_CALLED_RESP_PACKAGE then EncodeSnCalledRespPackage p refPackage pStream else
      if pk_cmdtype p =? BDT_SN_PING_PACKAGE then EncodeSnPingPackage p refPackage pStream else
      if pk_cmdtype p =? BDT_SN_PING_RESP_PACKAGE then EncodeSnPingRespPackage p refPackage pStream else
      if pk_cmdtype p =? BDT_DATA_GRAM_PACKAGE then EncodeDataGramPackage p refPackage pStream else
      if pk_cmdtype p =? BDT_TCP_SYN_CONNECTION_PACKAGE then EncodeTcpSynConnectionPackage p refPackage pStream else
      if pk_cmdtype p =? BDT_TCP_ACK_CONNECTION_PACKAGE then EncodeTcpAckConnectionPackage p refPackage pStream else
      if pk_cmdtype p =? BDT_TCP_ACKACK_CONNECTION_PACKAGE then EncodeTcpAckAckConnectionPackage p refPackage pStream else
      Some (BFX_RESULT_UNKNOWN_TYPE, pk_cmdflags p, 0%nat, pStream)
  end.

(** The packages are distinct objects; each later one refers to the first,
    unless the caller brings a reference. *)
Fixpoint encode_loop (packages : list AnyPackage) (first refPackage : option AnyPackage) (totalwrite : nat)
    (stream : BfxBufferStream) : option (Z * nat * BfxBufferStream) :=
  match packages with
  | [] => Some (BFX_RESULT_SUCCESS, totalwrite, stream)
  | pPackage :: packages =>
      let pRefPackage := match refPackage with
                         | Some r => Ref (as_reference r)
                         | None => match first with Some p => Ref (as_reference p) | None => NoRef end
                         end in
      if (package_type pPackage =? BDT_EXCHANGEKEY_PACKAGE) && bool_decide (is_Some first)
      then Some (BFX_RESULT_INVALID_PARAM, 0%nat, stream) else
      '(r, _, thisWrite, stream) ← Bdt_EncodeSinglePackage pPackage pRefPackage stream;
      if negb (r =? BFX_RESULT_SUCCESS) then Some (r, 0%nat, stream) else
      encode_loop packages (Some (default pPackage first)) refPackage (totalwrite + thisWrite) stream
  end.

(** The result code, [*pWriteBytes] and the buffer. *)
Definition Bdt_EncodePackage (packages : list AnyPackage) (refPackage : option AnyPackage) (buffer : list Z)
    (length : nat) : option (Z * nat * list Z) :=
  '(r, pWriteBytes, stream) ← encode_loop packages None refPackage 0 (BfxBufferStreamInit buffer length);
  Some (r, pWriteBytes, bs_buffer stream).

Definition wrap {A} (f : A → AnyPackage) (r : option (option A * BfxBufferStream)) :
    option (option AnyPackage * BfxBufferStream) :=
  '(o, s) ← r; Some (match o with Some a => Some (f a) | None => None end, s).

(** The answer [None] inside is a null pointer. *)
Definition DecodeSinglePackage (cmdtype totallen : Z) (pRefPackage : option Package) : Decoder AnyPackage :=
  λ bufferStream,
  if cmdtype =? BDT_SYN_TUNNEL_PACKAGE then wrap Fields (DecodeSynTunnelPackage uninit totallen pRefPackage bufferStream) else
  if cmdtype =? BDT_ACK_TUNNEL_PACKAGE then wrap Fields (DecodeAckTunnelPackage uninit totallen pRefPackage bufferStream) else
  if cmdtype =? BDT_ACKACK_TUNNEL_PACKAGE then wrap Fields (DecodeAckAckTunnelPackage uninit totallen pRefPackage bufferStream) else
  if cmdtype =? BDT_PING_TUNNEL_PACKAGE then wrap Fields (DecodePingTunnelPackage uninit totallen pRefPackage bufferStream) else
  if cmdtype =? BDT_PING_TUNNEL_RESP_PACKAGE then wrap Fields (DecodePingTunnelRespPackage uninit totallen pRefPackage bufferStream) else
  if cmdtype =? BDT_SN_CALL_PACKAGE then wrap Fields (DecodeSnCallPackage uninit totallen pRefPackage bufferStream) else
  if cmdtype =? BDT_SN_CALL_RESP_PACKAGE then wrap Fields (DecodeSnCallRespPackage uninit totallen pRefPackage bufferStream) else
  if cmdtype =? BDT_SN_CALLED_PACKAGE then wrap Fields (DecodeSnCalledPackage uninit totallen pRefPackage bufferStream) else
  if cmdtype =? BDT_SN_CALLED_RESP_PACKAGE then wrap Fields (DecodeSnCalledRespPackage uninit totallen pRefPackage bufferStream) else
  if cmdtype =? BDT_SN_PING_PACKAGE then wrap Fields (DecodeSnPingPackage uninit totallen pRefPackage bufferStream) else
  if cmdtype =? BDT_SN_PING_RESP_PACKAGE then wrap Fields (DecodeSnPingRespPackage uninit totallen pRefPackage bufferStream) else
  if cmdtype =? BDT_DATA_GRAM_PACKAGE then wrap Fields (DecodeDataGramPackage uninit totallen pRefPackage bufferStream) else
  if cmdtype =? BDT_TCP_SYN_CONNECTION_PACKAGE then wrap Fields (DecodeTcpSynConnectionPackage uninit totallen pRefPackage bufferStream) else
  if cmdtype =? BDT_TCP_ACK_CONNECTION_PACKAGE then wrap Fields (DecodeTcpAckConnectionPackage uninit totallen pRefPackage bufferStream) else
  if cmdtype =? BDT_TCP_ACKACK_CONNECTION_PACKAGE then wrap Fields (DecodeTcpAckAckConnectionPackage uninit totallen pRefPackage bufferStream) else
  if cmdtype =? BDT_SESSION_DATA_PACKAGE then wrap Session (DecodeSessionDataPackage totallen bufferStream) else
  Some (None, bufferStream).

(** [result[result_pos]] for an array of [capacity] entries. *)
Definition store_result (capacity : nat) (result : list AnyPackage) (p : AnyPackage) : option (list AnyPackage) :=
  guard (length result < capacity)%nat;; Some (result ++ [p]).

(** Each round consumes at least the head of a package: with more fuel than
    bytes the loop ends. *)
Fixpoint decode_loop (fuel capacity : nat) (refPackage : option Package) (result : list AnyPackage)
    (bufferStream : BfxBufferStream) : option (Z * list AnyPackage) :=
  match fuel with
  | O => None
  | S fuel =>
      tail ← BfxBufferStreamGetTailLength bufferStream;
      if (tail <=? 3)%nat then Some (0, result) else
      '(head, bufferStream) ← package_head bufferStream;
      match head with
      | None => Some (BFX_RESULT_INVALID_ENCODE, result)
      | Some (cmdtype, totallen) =>
          let ref := match refPackage with
                     | Some r => Some r
                     | None => as_reference <$> result !! 0%nat
                     end in
          '(pThisResult, bufferStream) ← DecodeSinglePackage cmdtype totallen ref bufferStream;
          match pThisResult with
          | None => Some (BFX_RESULT_INVALID_ENCODE, result)
          | Some p =>
              result ← store_result capacity result p;
              decode_loop fuel capacity refPackage result bufferStream
          end
      end
  end.

Definition Bdt_DecodePackage (buffer : list Z) (length : nat) (refPackage : option AnyPackage) (capacity : nat)
    (isStartWithExchangeKey : bool) : option (Z * list AnyPackage) :=
  let bufferStream := BfxBufferStreamInit buffer length in
  guard (0 < capacity)%nat;;
  if isStartWithExchangeKey then
    '(o, bufferStream) ← DecodeExchangeKeyPackage uninit Bdt_ExchangeKeyPackageCreate (as_reference <$> refPackage)
                           bufferStream;
    match o with
    | None => Some (BFX_RESULT_INVALID_ENCODE, [])
    | Some p =>
        result ← store_result capacity [] (Fields p);
        decode_loop (S length) capacity (as_reference <$> refPackage) result bufferStream
    end
  else decode_loop (S length) capacity (as_reference <$> refPackage) [] bufferStream.

End Packages.
