(* ===== verification/MergedProofs.v ===== *)
(** * What merged packages promise

    A datagram is decoded to the packages it was made of; what an encoder looks
    up in the reference has the type it expects; and the bound the decoder
    does not check. *)

From S2P Require Import Prelude CInt RecvQueue Package BufferStream Codec SessionCodec Endpoint PackageFields PackageCodec PackageProofs HandCodec MergedPackages.

Section Merged.
Context {P : PeerInfoOps} {L : PeerInfoLaws P}.
Context (uninit : list Z).

(** ** One package *)

(** The copy of a package; a session data package arrives as [received] says. *)
Definition same_any (p q : AnyPackage) : Prop :=
  match p, q with
  | Fields p, Fields q => same_package p q
  | Session p, Session q => q = received p
  | _, _ => False
  end.

Lemma same_any_reference p q : same_any p q → same_package (as_reference p) (as_reference q).
Proof. destruct p, q; cbn; done. Qed.

Definition package_fields (p : Package) : list Field := default [] (generated_fields (pk_cmdtype p)).

Definition fields_bytes (p : Package) (ref : RefPackage) : list Z :=
  package_bytes (pk_cmdtype p) (package_flags p (usable_reference p ref) (package_fields p) (pk_cmdflags p))
    (package_body p (usable_reference p ref) (package_fields p)).

Definition wire_bytes (p : AnyPackage) (ref : RefPackage) : list Z :=
  match p with
  | Fields p => fields_bytes p ref
  | Session p => package_bytes BDT_SESSION_DATA_PACKAGE (wire_flags p) (session_body p)
  end.

(** A package of one of the generated types or a session data package, whose
    members have their types and whose fields fit into the format. *)
Definition package_ok (p : AnyPackage) (ref : RefPackage) : Prop :=
  match p with
  | Fields p =>
      is_Some (generated_fields (pk_cmdtype p)) ∧ typed p ∧ 0 ≤ pk_cmdflags p < 2 ^ 16 ∧
      all_sendable p (usable_reference p ref) (package_fields p) ∧ Z.of_nat (length (fields_bytes p ref)) < 2 ^ 16
  | Session p => session_ok p ∧ handshake_has_no_sack p
  end.

Lemma generated_type cmdtype :
  is_Some (generated_fields cmdtype) → 0 ≤ cmdtype < 2 ^ 8 ∧ cmdtype ≠ BDT_EXCHANGEKEY_PACKAGE.
Proof.
  unfold generated_fields. intros [fs H]. revert H.
  repeat (match goal with |- context [?c =? ?k] => destruct (Z.eqb_spec c k) as [->|] end; [done|]). done.
Qed.

(** The dispatch on the type. *)
Lemma single_generated p ref :
  is_Some (generated_fields (pk_cmdtype p)) →
  (∀ s, Bdt_EncodeSinglePackage (Fields p) ref s = encode_package p ref (package_fields p) s) ∧
  (∀ t r s, DecodeSinglePackage uninit (pk_cmdtype p) t r s =
            wrap Fields (decode_package uninit (pk_cmdtype p) t (package_init (pk_cmdtype p)) r (package_fields p) s)).
Proof.
  unfold Bdt_EncodeSinglePackage, DecodeSinglePackage, package_fields. intros [fs H]. revert H. unfold generated_fields.
  repeat (match goal with |- context [?c =? ?k] => destruct (Z.eqb_spec c k) as [->|] end;
    [intros _; split; intros; reflexivity|]). done.
Qed.

Lemma single_wire p ref ref' :
  package_ok p ref → typed_ref (given_reference ref) → same_ref (given_reference ref) ref' →
  ∃ f', wire (Bdt_EncodeSinglePackage p ref) (λ t, DecodeSinglePackage uninit (package_type p) t ref') (package_type p)
    f' (wire_bytes p ref) (same_any p).
Proof.
  destruct p as [p|p]; cbn [package_ok package_type wire_bytes].
  - intros (Hg & Hp & Hfl & Hs & Hsz) Hr Hrr. unfold fields_bytes in *.
    destruct (generated_type _ Hg) as [Hc Hne]. destruct (single_generated p ref Hg) as [He Hd].
    assert (Hok : fields_ok (pk_cmdtype p) (package_fields p)).
    { unfold package_fields. destruct Hg as [fs E]. rewrite E. by apply generated_fields_ok. }
    rewrite length_package_bytes in Hsz.
    pose proof (fields_wire uninit p ref ref' (package_fields p) Hok Hp Hr Hfl Hrr Hs Hc Hne Hsz) as [H1 H2 H3 H4].
    eexists. split; [done|intros s; rewrite He; apply H2|done|].
    intros s rest Hready. destruct (H4 s rest Hready) as (q & [Hq _] & E). exists (Fields q). split; [done|].
    rewrite Hd, E. done.
  - intros [Hok Hh] _ _. destruct (session_wire p Hok Hh) as [H1 H2 H3 H4]. eexists. split; [done|done|done|].
    intros s rest Hready. destruct (H4 s rest Hready) as (q & <- & E). exists (Session (received p)). split; [done|].
    unfold DecodeSinglePackage. cbn [Z.eqb]. rewrite E. done.
Qed.

(** ** Several packages *)

Definition reference_of (first refPackage : option AnyPackage) : RefPackage :=
  match refPackage with
  | Some r => Ref (as_reference r)
  | None => match first with Some p => Ref (as_reference p) | None => NoRef end
  end.

Fixpoint datagram_ok (packages : list AnyPackage) (first refPackage : option AnyPackage) : Prop :=
  match packages with
  | [] => True
  | p :: packages =>
      package_ok p (reference_of first refPackage) ∧ datagram_ok packages (Some (default p first)) refPackage
  end.

Fixpoint datagram_bytes (packages : list AnyPackage) (first refPackage : option AnyPackage) : list Z :=
  match packages with
  | [] => []
  | p :: packages =>
      wire_bytes p (reference_of first refPackage) ++ datagram_bytes packages (Some (default p first)) refPackage
  end.

Definition typed_any (o : option AnyPackage) : Prop := ∀ p, o = Some p → typed (as_reference p).

Definition same_option (o o' : option AnyPackage) : Prop := option_Forall2 same_any o o'.

Lemma reference_typed first ref : typed_any first → typed_any ref → typed_ref (given_reference (reference_of first ref)).
Proof.
  intros Hf Hr r E. destruct ref as [r'|]; cbn in E; [injection E as <-; by apply Hr|].
  destruct first as [p|]; [|done]. injection E as <-. by apply Hf.
Qed.

Lemma package_ok_typed p ref : package_ok p ref → typed (as_reference p).
Proof. destruct p; [by intros (_ & H & _)|]. intros _ n k Hk. by cbn in Hk. Qed.

Lemma default_typed p first ref :
  package_ok p ref → typed_any first → typed_any (Some (default p first)).
Proof. intros Hp Hf q [= <-]. destruct first as [f|]; [by apply Hf|]. by eapply package_ok_typed. Qed.

Lemma package_ok_type p ref : package_ok p ref → package_type p ≠ BDT_EXCHANGEKEY_PACKAGE.
Proof. destruct p; [|done]. intros [Hg _]. by apply generated_type in Hg as [_ H]. Qed.

Lemma same_ref_refl r : same_ref r r.
Proof. by destruct r. Qed.

Lemma encode_loop_spec packages first ref n s :
  datagram_ok packages first ref → typed_any first → typed_any ref → room (datagram_bytes packages first ref) s →
  encode_loop packages first ref n s =
  Some (BFX_RESULT_SUCCESS, (n + length (datagram_bytes packages first ref))%nat,
        written (datagram_bytes packages first ref) s).
Proof.
  revert first n s. induction packages as [|p packages IH]; intros first n s Hok Hf Hr Hroom;
    cbn [datagram_bytes encode_loop] in *.
  { by rewrite written_nil, Nat.add_0_r. }
  destruct Hok as [Hp Hok]. fold (reference_of first ref).
  destruct (Z.eqb_spec (package_type p) BDT_EXCHANGEKEY_PACKAGE) as [E|_]; [by apply package_ok_type in Hp|].
  cbn [andb]. destruct (single_wire p _ (given_reference (reference_of first ref)) Hp) as (f' & Hw).
  { by apply reference_typed. }
  { apply same_ref_refl. }
  destruct Hroom as [Hro Hl]. rewrite length_app in Hro.
  rewrite (wi_enc _ _ _ _ _ _ Hw) by (split; lia). cbn [mbind option_bind]. cbn [negb Z.eqb BFX_RESULT_SUCCESS].
  rewrite IH; [|done|by eapply default_typed|done|].
  - rewrite written_app, length_app, Nat.add_assoc by lia. done.
  - split; [cbn; lia|]. rewrite length_written by lia. done.
Qed.

Lemma decode_loop_spec capacity packages first ref ref' result fuel s rest :
  datagram_ok packages first ref → typed_any first → typed_any ref →
  same_option first (result !! 0%nat) → same_option ref ref' →
  ready s (datagram_bytes packages first ref) rest →
  bs_length s = (bs_pos s + length (datagram_bytes packages first ref))%nat →
  (length (datagram_bytes packages first ref) < fuel)%nat → (length result + length packages ≤ capacity)%nat →
  ∃ qs, Forall2 same_any packages qs ∧
    decode_loop uninit fuel capacity (as_reference <$> ref') result s = Some (0, result ++ qs).
Proof.
  revert first result fuel s. induction packages as [|p packages IH];
    intros first result fuel s Hok Hf Hr Hfirst Href Hready Hlen Hfuel Hcap;
    cbn [datagram_bytes] in *; (destruct fuel as [|fuel]; [lia|]); cbn [decode_loop];
    unfold BfxBufferStreamGetTailLength.
  { exists []. split; [done|]. cbn [length] in Hlen. rewrite option_guard_True by lia. cbn [mbind option_bind].
    rewrite Hlen, Nat.add_0_r, Nat.sub_diag. cbn [Nat.leb]. by rewrite app_nil_r. }
  destruct Hok as [Hp Hok].
  set (r := match as_reference <$> ref' with Some r => Some r | None => as_reference <$> result !! 0%nat end).
  assert (Hrr : same_ref (given_reference (reference_of first ref)) r).
  { unfold r. destruct Href as [a b Hab|]; cbn; [by apply same_any_reference|].
    destruct Hfirst as [a b Hab|]; cbn; [by apply same_any_reference|done]. }
  destruct (single_wire p _ r Hp) as (f' & Hw); [by apply reference_typed|done|].
  pose proof (wi_length _ _ _ _ _ _ Hw) as H5. rewrite length_app in *.
  rewrite option_guard_True by lia. cbn [mbind option_bind].
  destruct (Nat.leb_spec (bs_length s - bs_pos s) 3); [lia|].
  pose proof (ready_split _ _ _ _ Hready) as [Hr1 Hr2].
  rewrite (wi_head _ _ _ _ _ _ Hw _ _ Hr1). cbn [mbind option_bind].
  destruct (wi_dec _ _ _ _ _ _ Hw _ _ Hr1) as (q & Hq & Ed). fold r. rewrite Ed. cbn [mbind option_bind length] in *.
  unfold store_result. rewrite option_guard_True by lia. cbn [mbind option_bind].
  destruct (IH (Some (default p first)) (result ++ [q]) fuel (advance (length (wire_bytes p (reference_of first ref))) s))
    as (qs & Hqs & E); try done.
  - by eapply default_typed.
  - destruct first, result; inversion Hfirst; subst; by constructor.
  - cbn. lia.
  - lia.
  - rewrite length_app. cbn [length]. lia.
  - exists (q :: qs). split; [by constructor|]. rewrite E, <- app_assoc. done.
Qed.

End Merged.
