(* ===== verification/PeerInfo.v ===== *)
(** * Peers

    [BDTCore/Global/PeerInfo.imp.inl]: what is known of a peer, its format in a
    package ([BufferWritePeerInfo], [BufferReadPeerInfo]) with the signature of
    the part that is signed, and the instance of the interface the packages
    use.  The RSA check of [CryptoToolKit] and the hash that makes a peer's id
    are parameters. *)

From S2P Require Import Prelude CInt Package BufferStream Codec SessionCodec Endpoint PackageFields PackageCodec.

Definition BDT_PEER_PUBLIC_KEY_TYPE_RSA1024 : Z := 0.
Definition BDT_PEER_PUBLIC_KEY_TYPE_RSA2048 : Z := 1.
Definition BDT_PEER_PUBLIC_KEY_TYPE_RSA3072 : Z := 2.
Definition BDT_PEER_LENGTH_SIGNATRUE : nat := 128.
Definition BDT_MAX_DEVICE_ID_LENGTH : nat := 128.
Definition BDT_PEER_INFO_BUILD_FLAG_NULL : Z := Z.shiftl 1 0.
Definition BDT_PEER_INFO_BUILD_FLAG_HAS_SN_LIST : Z := Z.shiftl 1 2.
Definition BDT_PEER_INFO_BUILD_FLAG_HAS_SN_INFO : Z := Z.shiftl 1 3.
Definition BDT_PEER_INFO_FLAG_SIGNED : Z := Z.shiftl 1 4.

(** [ci_publicKey] are the bytes of the union. *)
Record BdtPeerConstInfo := mkConstInfo {
  ci_continent : Z; ci_country : Z; ci_carrier : Z; ci_city : Z; ci_inner : Z;
  ci_deviceId : list Z; ci_publicKeyType : Z; ci_publicKey : list Z }.

(** [s_bdtKeyLengthMap]; the types are the indices 0, 1 and 2. *)
Definition BdtGetPublicKeyLength (keyType : Z) : option nat :=
  if keyType =? BDT_PEER_PUBLIC_KEY_TYPE_RSA1024 then Some 162%nat else
  if keyType =? BDT_PEER_PUBLIC_KEY_TYPE_RSA2048 then Some 294%nat else
  if keyType =? BDT_PEER_PUBLIC_KEY_TYPE_RSA3072 then Some 422%nat else None.

(** [pi_address] is where the object lies, [pi_secret] whether its secret is
    there; [None] is a null pointer. *)
Inductive BdtPeerInfo := mkPeerInfo {
  pi_address : Z; pi_flags : Z; pi_peerid : list Z; pi_constInfo : BdtPeerConstInfo;
  pi_endpoints : list BdtEndpoint; pi_snList : option (list (list Z)); pi_snInfoList : option (list BdtPeerInfo);
  pi_secret : bool; pi_signature : list Z; pi_createTime : Z }.

(** Pointers are compared. *)
Definition PeerInfoIsEqual (l r : option BdtPeerInfo) : bool :=
  match l, r with
  | Some l, Some r => pi_address l =? pi_address r
  | None, None => true
  | _, _ => false
  end.

(** ** Writing *)

Definition BdtPeerInfoWriteEndpoint (endpoint : BdtEndpoint) (flag : Z) : Enc :=
  enc_write (BfxBufferWriteUInt8 (u8 flag)) >>>
  enc_write (BfxBufferWriteUInt16 (ep_port endpoint)) >>>
  (if has_flag (ep_flag endpoint) BDT_ENDPOINT_IP_VERSION_4
   then enc_write (BfxBufferWriteByteArray (take 4 (ep_address endpoint)))
   else if has_flag (ep_flag endpoint) BDT_ENDPOINT_IP_VERSION_6
   then enc_write (BfxBufferWriteByteArray (take 16 (ep_address endpoint)))
   else enc_skip).

Fixpoint BdtPeerInfoWriteEndpointsWithoutFlag (endpoints : list BdtEndpoint) (flag : Z) : Enc :=
  match endpoints with
  | [] => enc_skip
  | ep :: endpoints =>
      (if has_flag (ep_flag ep) flag then enc_skip else BdtPeerInfoWriteEndpoint ep (ep_flag ep)) >>>
      BdtPeerInfoWriteEndpointsWithoutFlag endpoints flag
  end.

Fixpoint write_signed_endpoints (endpoints : list BdtEndpoint) (isWillResign : bool) : Enc :=
  match endpoints with
  | [] => enc_skip
  | ep :: endpoints =>
      (if isWillResign || has_flag (ep_flag ep) BDT_ENDPOINT_FLAG_SIGNED
       then BdtPeerInfoWriteEndpoint ep (Z.lor (ep_flag ep) BDT_ENDPOINT_FLAG_SIGNED) else enc_skip) >>>
      write_signed_endpoints endpoints isWillResign
  end.

Fixpoint write_peerids (snList : list (list Z)) : Enc :=
  match snList with [] => enc_skip | pid :: snList => enc_write (Bdt_BufferWritePeerid pid) >>> write_peerids snList end.

Fixpoint enc_all (l : list Enc) : Enc :=
  match l with [] => enc_skip | m :: l => m >>> enc_all l end.

(** [BdtPeerInfoWriteSignFieldToBuffer]; [snInfos] writes the peers of
    [snInfoList], the counts are cut to 8 bits. *)
Definition write_sign_fields (endpoints : list BdtEndpoint) (snList : option (list (list Z)))
    (snInfos : option (list Enc)) (createTime : Z) (isWillResign : bool) : Enc :=
  let writeEndpointCount := u8 (Z.of_nat (length endpoints)) in
  let written_endpoints := take (Z.to_nat writeEndpointCount) endpoints in
  enc_write (BfxBufferWriteUInt8 writeEndpointCount) >>>
  (if isWillResign then enc_skip else BdtPeerInfoWriteEndpointsWithoutFlag written_endpoints BDT_ENDPOINT_FLAG_SIGNED) >>>
  write_signed_endpoints written_endpoints isWillResign >>>
  match snInfos, snList with
  | Some snInfos, _ =>
      let writeSnInfoCount := u8 (Z.of_nat (length snInfos)) in
      enc_write (BfxBufferWriteUInt8 writeSnInfoCount) >>> enc_all (take (Z.to_nat writeSnInfoCount) snInfos)
  | None, Some snList =>
      let writeSnListCount := u8 (Z.of_nat (length snList)) in
      enc_write (BfxBufferWriteUInt8 writeSnListCount) >>> write_peerids (take (Z.to_nat writeSnListCount) snList)
  | None, None => enc_skip
  end >>>
  enc_write (BfxBufferWriteUInt64 createTime).

Definition is_signed (p : BdtPeerInfo) : bool := has_flag (pi_flags p) BDT_PEER_INFO_FLAG_SIGNED || pi_secret p.

Definition build_flags (p : BdtPeerInfo) : Z :=
  Z.lor (match pi_snInfoList p, pi_snList p with
         | Some _, _ => BDT_PEER_INFO_BUILD_FLAG_HAS_SN_INFO
         | None, Some _ => BDT_PEER_INFO_BUILD_FLAG_HAS_SN_LIST
         | None, None => 0
         end) (if is_signed p then BDT_PEER_INFO_FLAG_SIGNED else 0).

Definition enc_fail (r : Z) : Enc := λ e, Some (r, e).

Definition write_const_info (c : BdtPeerConstInfo) : Enc :=
  enc_write (BfxBufferWriteUInt8 (ci_continent c)) >>>
  enc_write (BfxBufferWriteUInt8 (ci_country c)) >>>
  enc_write (BfxBufferWriteUInt8 (ci_carrier c)) >>>
  enc_write (BfxBufferWriteUInt16 (ci_city c)) >>>
  enc_write (BfxBufferWriteUInt8 (ci_inner c)) >>>
  enc_write (BfxBufferWriteByteArray (take BDT_MAX_DEVICE_ID_LENGTH (ci_deviceId c))) >>>
  enc_write (BfxBufferWriteUInt8 (ci_publicKeyType c)) >>>
  match BdtGetPublicKeyLength (ci_publicKeyType c) with
  | Some n => enc_write (BfxBufferWriteByteArray (take n (ci_publicKey c)))
  | None => enc_fail BFX_RESULT_UNKNOWN_TYPE
  end.

(** A peer that is not null, and the peers in its list of supernodes. *)
Fixpoint write_peer (p : BdtPeerInfo) : Enc :=
  match p with
  | mkPeerInfo _ _ _ constInfo endpoints snList snInfoList _ signature createTime =>
      let snInfos := match snInfoList with Some l => Some (map write_peer l) | None => None end in
      enc_write (BfxBufferWriteUInt8 (build_flags p)) >>>
      write_const_info constInfo >>>
      write_sign_fields endpoints snList snInfos createTime false >>>
      (if is_signed p then enc_write (BfxBufferWriteByteArray (take BDT_PEER_LENGTH_SIGNATRUE signature)) else enc_skip)
  end.

Definition WritePeerInfo (o : option BdtPeerInfo) : Write := λ s,
  match o with
  | None => '(r, _, s) ← BfxBufferWriteUInt8 BDT_PEER_INFO_BUILD_FLAG_NULL s; Some (r, 1%nat, s)
  | Some p =>
      '(r, e) ← write_peer p (mkEnc s 0 0);
      Some (r, if r =? BFX_RESULT_SUCCESS then (bs_pos (en_stream e) - bs_pos s)%nat else 0%nat, en_stream e)
  end.

(** ** The id of a peer ([Global/Peerid.imp.inl]) *)

Section Peers.

(** [Bdt_Sha256Hash], and whether [Bdt_RsaVerifyMd5] answers 0 for a signature,
    a public key and the bytes that are signed. *)
Context (sha256 : list Z → list Z) (rsa_verify : list Z → list Z → list Z → bool).

(** The address of the object made for the peer at a position of the stream,
    and what the bytes of an endpoint hold that are not read. *)
Context (malloc : nat → Z) (uninit : nat → list Z).

Definition _encode (c : BdtPeerConstInfo) (hash : list Z) : list Z :=
  [u8 (Z.lor (Z.shiftl (ci_continent c) 2) (Z.shiftr (ci_country c) 6));
   u8 (Z.lor (Z.shiftl (ci_country c) 2) (Z.shiftr (ci_carrier c) 2));
   u8 (Z.lor (Z.shiftl (ci_carrier c) 6) (Z.shiftr (ci_city c) 8));
   u8 (Z.shiftr (Z.shiftl (ci_city c) 8) 8);
   ci_inner c] ++ take 27 hash.

Definition BdtGetPeeridFromConstInfo (c : BdtPeerConstInfo) : list Z :=
  _encode c (sha256 (take (default 0%nat (BdtGetPublicKeyLength (ci_publicKeyType c))) (ci_publicKey c))).

(** ** Reading *)

Definition dec_pos : Dec nat := λ d, Some (Some (BfxBufferStreamGetPos (de_stream d)), d).

(** [BdtPeerInfoReadEndpoint]; the object is not initialised. *)
Definition BdtPeerInfoReadEndpoint : Dec BdtEndpoint :=
  pos ← dec_pos;
  flag ← dec_read BfxBufferReadUInt8;
  port ← dec_read BfxBufferReadUInt16;
  address ← (if has_flag flag BDT_ENDPOINT_IP_VERSION_4 then dec_read (BfxBufferReadByteArray 4)
             else if has_flag flag BDT_ENDPOINT_IP_VERSION_6 then dec_read (BfxBufferReadByteArray 16)
             else mret []);
  mret (mkEndpoint flag port (address ++ drop (length address) (uninit pos))).

(** The endpoints, and [*signStartPos]: 0 until the first signed one. *)
Fixpoint read_endpoints (n : nat) (signStartPos : nat) : Dec (list BdtEndpoint * nat) :=
  match n with
  | O => mret ([], signStartPos)
  | S n =>
      pos ← dec_pos;
      ep ← BdtPeerInfoReadEndpoint;
      let start := if (signStartPos =? 0)%nat && has_flag (ep_flag ep) BDT_ENDPOINT_FLAG_SIGNED then pos else signStartPos in
      '(eps, start) ← read_endpoints n start;
      mret (ep :: eps, start)
  end.

Fixpoint dec_repeat {A} (n : nat) (m : Dec A) : Dec (list A) :=
  match n with O => mret [] | S n => a ← m; l ← dec_repeat n m; mret (a :: l) end.

(** [if (snCount > 0) list = malloc...]: no list for no entries. *)
Definition dec_list {A} (m : Dec A) : Dec (option (list A)) :=
  snCount ← dec_read BfxBufferReadUInt8;
  l ← dec_repeat (Z.to_nat snCount) m;
  mret (if snCount =? 0 then None else Some l).

(** [BdtPeerInfoReadSignFieldFromBuffer]; [read] reads one peer. *)
Definition read_sign_fields (read : Dec (option BdtPeerInfo)) (flags : Z) :
    Dec (list BdtEndpoint * option (list (list Z)) * option (list BdtPeerInfo) * Z * nat) :=
  epCount ← dec_read BfxBufferReadUInt8;
  '(endpoints, start) ← read_endpoints (Z.to_nat epCount) 0;
  pos ← dec_pos;
  let signStartPos := if (start =? 0)%nat then pos else start in
  '(snList, snInfoList) ←
    (if has_flag flags BDT_PEER_INFO_BUILD_FLAG_HAS_SN_INFO
     then l ← dec_list (o ← read; match o with Some p => mret p | None => dec_fail end); mret (None, l)
     else if has_flag flags BDT_PEER_INFO_BUILD_FLAG_HAS_SN_LIST
     then l ← dec_list (dec_read Bdt_BufferReadPeerid); mret (l, None)
     else mret (None, None));
  createTime ← dec_read BfxBufferReadUInt64;
  mret (endpoints, snList, snInfoList, createTime, signStartPos).

(** The rest of the union behind the key is 0. *)
Definition read_const_info : Dec BdtPeerConstInfo :=
  continent ← dec_read BfxBufferReadUInt8;
  country ← dec_read BfxBufferReadUInt8;
  carrier ← dec_read BfxBufferReadUInt8;
  city ← dec_read BfxBufferReadUInt16;
  inner ← dec_read BfxBufferReadUInt8;
  deviceId ← dec_read (BfxBufferReadByteArray BDT_MAX_DEVICE_ID_LENGTH);
  keyType ← dec_read BfxBufferReadUInt8;
  match BdtGetPublicKeyLength keyType with
  | Some n =>
      key ← dec_read (BfxBufferReadByteArray n);
      mret (mkConstInfo continent country carrier city inner deviceId keyType (key ++ replicate (422 - n) 0))
  | None => dec_fail
  end.

Definition BdtPeerInfoVerify (signature : list Z) (c : BdtPeerConstInfo) (buffer : list Z) : bool :=
  rsa_verify signature (take (default 0%nat (BdtGetPublicKeyLength (ci_publicKeyType c))) (ci_publicKey c)) buffer.

(** The bytes of the stream's memory from a position to the cursor. *)
Definition dec_bytes_from (pos : nat) : Dec (list Z) := λ d,
  let s := de_stream d in Some (Some (take (bs_pos s - pos) (drop pos (bs_buffer s))), d).

Definition read_signature (flags : Z) (c : BdtPeerConstInfo) (signStartPos : nat) : Dec (list Z) :=
  if has_flag flags BDT_PEER_INFO_FLAG_SIGNED then
    buffer ← dec_bytes_from signStartPos;
    signature ← dec_read (BfxBufferReadByteArray BDT_PEER_LENGTH_SIGNATRUE);
    if BdtPeerInfoVerify signature c buffer then mret signature else dec_fail
  else mret (replicate BDT_PEER_LENGTH_SIGNATRUE 0).

(** A peer, which may be null; each level of supernodes consumes a byte, so
    that more fuel than bytes is enough. *)
Fixpoint read_peer (fuel : nat) : Dec (option BdtPeerInfo) :=
  match fuel with
  | O => λ _, None
  | S fuel =>
      pos ← dec_pos;
      flags ← dec_read BfxBufferReadUInt8;
      if flags =? BDT_PEER_INFO_BUILD_FLAG_NULL then mret None else
      constInfo ← read_const_info;
      '(endpoints, snList, snInfoList, createTime, signStartPos) ← read_sign_fields (read_peer fuel) flags;
      signature ← read_signature flags constInfo signStartPos;
      mret (Some (mkPeerInfo (malloc pos) 0 (BdtGetPeeridFromConstInfo constInfo) constInfo endpoints snList snInfoList
                    false signature createTime))
  end.

(** [BufferReadPeerInfo]: -1 and a null pointer when a field is missing. *)
Definition ReadPeerInfo : Read (option BdtPeerInfo) := λ s,
  '(o, d) ← read_peer (S (bs_length s)) (mkDec s 0);
  Some (match o with
        | Some p => (i32 (Z.of_nat (bs_pos (de_stream d) - bs_pos s)), p)
        | None => (-1, None)
        end, de_stream d).

#[export] Instance peer_info_ops : PeerInfoOps := {|
  PeerInfo := BdtPeerInfo;
  BdtPeerInfoIsEqual := PeerInfoIsEqual;
  BufferWritePeerInfo := WritePeerInfo;
  BufferReadPeerInfo := ReadPeerInfo |}.

End Peers.
