(* ===== verification/PeerProofs.v ===== *)
(** * What a peer's format promises

    A peer that is written is read as one with the same content: the same id,
    the same description, the same endpoints (those that are not signed first),
    the same supernodes and time; its signature covers the bytes the reader
    gives to the check.  This is the law of [PeerInfoLaws]. *)

From S2P Require Import Prelude CInt Package BufferStream Codec Forward Endpoint PackageFields PackageCodec PeerInfo.

(** ** Steps whose result depends on where they run *)

Definition parses_from {A} (m : Dec A) (bs : list Z) (P : nat → A → Prop) : Prop :=
  ∀ n s rest, ready s bs rest →
  ∃ a, P (bs_pos s) a ∧ m (mkDec s n) = Some (Some a, mkDec (advance (length bs) s) (n + Z.of_nat (length bs))).

Lemma parses_from_intro {A} (m : Dec A) bs a (P : nat → A → Prop) :
  parses m bs a → (∀ pos, P pos a) → parses_from m bs P.
Proof. intros Hm Ha n s rest Hr. exists a. split; [done|]. by apply (Hm n s rest). Qed.

Lemma parses_from_to {A} (m : Dec A) bs (P : A → Prop) : parses_from m bs (λ _, P) ↔ parses_to m bs P.
Proof. done. Qed.

Lemma parses_from_bind {A B} (m : Dec A) (k : A → Dec B) a (P : nat → A → Prop) b (Q : nat → B → Prop) :
  parses_from m a P →
  (∀ pos x, P pos x → parses_from (k x) b (λ pos' y, pos' = (pos + length a)%nat → Q pos y)) →
  parses_from (m ≫= k) (a ++ b) Q.
Proof.
  intros Hm Hk n s rest Hr. apply ready_split in Hr as [H1 H2].
  destruct (Hm n _ _ H1) as (x & Hx & E).
  destruct (Hk _ x Hx (n + Z.of_nat (length a)) _ _ H2) as (y & Hy & E2).
  exists y. split; [by apply Hy|]. unfold mbind, Dec_bind. rewrite E, E2, advance_add, length_app. do 3 f_equal. lia.
Qed.

Lemma parses_from_weaken {A} (m : Dec A) bs (P Q : nat → A → Prop) :
  parses_from m bs P → (∀ pos a, P pos a → Q pos a) → parses_from m bs Q.
Proof. intros Hm HPQ n s rest Hr. destruct (Hm n s rest Hr) as (a & ? & ?). eauto. Qed.

Lemma parses_from_pos {B} (k : nat → Dec B) bs (Q : nat → B → Prop) :
  (∀ pos, parses_from (k pos) bs (λ pos' y, pos' = pos → Q pos y)) → parses_from (dec_pos ≫= k) bs Q.
Proof. intros Hk n s rest Hr. destruct (Hk (bs_pos s) n s rest Hr) as (y & Hy & E). exists y. split; [by apply Hy|done]. Qed.

(** A step first, then one that reads the rest. *)
Lemma parses_from_step {A B} (m : Dec A) (k : A → Dec B) a x b (Q : nat → B → Prop) :
  parses m a x → parses_from (k x) b (λ pos', λ y, ∀ pos, pos' = (pos + length a)%nat → Q pos y) →
  parses_from (m ≫= k) (a ++ b) Q.
Proof.
  intros Hm Hk. eapply (parses_from_bind _ _ _ (λ _ y, y = x)).
  - by apply (parses_from_intro _ _ x).
  - intros pos y ->. eapply parses_from_weaken; [exact Hk|]. cbn. intros pos' z H E. by apply H.
Qed.

Lemma parses_from_last {A B} (m : Dec A) (k : A → Dec B) bs (P : nat → A → Prop) (Q : nat → B → Prop) :
  parses_from m bs P → (∀ pos a, P pos a → ∃ b, k a = mret b ∧ Q pos b) → parses_from (m ≫= k) bs Q.
Proof.
  intros Hm Hg. rewrite <- (app_nil_r bs). eapply parses_from_bind; [exact Hm|].
  intros pos a (b & -> & Hb)%Hg. apply (parses_from_intro _ _ b); [apply parses_ret|done].
Qed.

(** ** Content *)

Definition wire_address (ep : BdtEndpoint) : list Z :=
  if has_flag (ep_flag ep) BDT_ENDPOINT_IP_VERSION_4 then take 4 (ep_address ep)
  else if has_flag (ep_flag ep) BDT_ENDPOINT_IP_VERSION_6 then take 16 (ep_address ep) else [].

Definition endpoint_content (ep : BdtEndpoint) : Z * Z * list Z := (ep_flag ep, ep_port ep, wire_address ep).

Definition content_signed (c : Z * Z * list Z) : bool := has_flag c.1.1 BDT_ENDPOINT_FLAG_SIGNED.

Definition const_content (c : BdtPeerConstInfo) : BdtPeerConstInfo :=
  mkConstInfo (ci_continent c) (ci_country c) (ci_carrier c) (ci_city c) (ci_inner c) (ci_deviceId c)
    (ci_publicKeyType c) (take (default 0%nat (BdtGetPublicKeyLength (ci_publicKeyType c))) (ci_publicKey c)).

(** What a peer tells: not where it lies nor its signature; [snInfos] and
    [sns] are empty when there is no list. *)
Inductive Content := mkContent {
  ct_peerid : list Z; ct_const : BdtPeerConstInfo; ct_unsigned : list (Z * Z * list Z);
  ct_signed : list (Z * Z * list Z); ct_sns : list (list Z); ct_snInfos : list Content; ct_createTime : Z }.

Fixpoint content (p : BdtPeerInfo) : Content :=
  match p with
  | mkPeerInfo _ _ peerid constInfo endpoints snList snInfoList _ _ createTime =>
      mkContent peerid (const_content constInfo)
        (List.filter (λ c, negb (content_signed c)) (endpoint_content <$> endpoints))
        (List.filter content_signed (endpoint_content <$> endpoints))
        (match snInfoList with Some _ => [] | None => default [] snList end)
        (match snInfoList with Some l => map content l | None => [] end) createTime
  end.

(** ** Format *)

Definition content_bytes (c : Z * Z * list Z) : list Z := le_bytes 1 c.1.1 ++ le_bytes 2 c.1.2 ++ c.2.

Definition key_of (c : BdtPeerConstInfo) : list Z :=
  take (default 0%nat (BdtGetPublicKeyLength (ci_publicKeyType c))) (ci_publicKey c).

Definition const_bytes (c : BdtPeerConstInfo) : list Z :=
  le_bytes 1 (ci_continent c) ++ le_bytes 1 (ci_country c) ++ le_bytes 1 (ci_carrier c) ++ le_bytes 2 (ci_city c) ++
  le_bytes 1 (ci_inner c) ++ ci_deviceId c ++ le_bytes 1 (ci_publicKeyType c) ++ key_of c.

Definition counted {A} (f : A → list Z) (l : list A) : list Z :=
  le_bytes 1 (Z.of_nat (length l)) ++ concat (map f l).

(** The part that is not signed, and the part that is. *)
Definition head_bytes (endpoints : list BdtEndpoint) : list Z :=
  le_bytes 1 (Z.of_nat (length endpoints)) ++
  concat (content_bytes <$> List.filter (λ c, negb (content_signed c)) (endpoint_content <$> endpoints)).

Definition tail_bytes (endpoints : list BdtEndpoint) (snList : option (list (list Z))) (snInfos : option (list (list Z)))
    (createTime : Z) : list Z :=
  concat (content_bytes <$> List.filter content_signed (endpoint_content <$> endpoints)) ++
  match snInfos, snList with
  | Some l, _ => counted id l
  | None, Some l => counted id l
  | None, None => []
  end ++ le_bytes 8 createTime.

Fixpoint peer_bytes (p : BdtPeerInfo) : list Z :=
  match p with
  | mkPeerInfo _ _ _ constInfo endpoints snList snInfoList _ signature createTime =>
      le_bytes 1 (build_flags p) ++ const_bytes constInfo ++ head_bytes endpoints ++
      tail_bytes endpoints snList (match snInfoList with Some l => Some (map peer_bytes l) | None => None end) createTime ++
      (if is_signed p then signature else [])
  end.

(** The bytes a signature covers. *)
Definition signed_bytes (p : BdtPeerInfo) : list Z :=
  tail_bytes (pi_endpoints p) (pi_snList p) (map peer_bytes <$> pi_snInfoList p) (pi_createTime p).

(** ** Peers that can be sent *)

Record const_ok (c : BdtPeerConstInfo) : Prop := {
  co_continent : 0 ≤ ci_continent c < 2 ^ 8; co_country : 0 ≤ ci_country c < 2 ^ 8;
  co_carrier : 0 ≤ ci_carrier c < 2 ^ 8; co_city : 0 ≤ ci_city c < 2 ^ 16; co_inner : 0 ≤ ci_inner c < 2 ^ 8;
  co_deviceId : length (ci_deviceId c) = BDT_MAX_DEVICE_ID_LENGTH;
  co_type : 0 ≤ ci_publicKeyType c ≤ 2; co_key : length (ci_publicKey c) = 422%nat }.

Section Peers.
Context (sha256 : list Z → list Z) (rsa_verify : list Z → list Z → list Z → bool).
Context (malloc : nat → Z) (uninit : nat → list Z).

(** The id is the one of the description and the counts fit into 8 bits; [Q]
    holds of the peers in the list. *)
Record peer_fields_ok (Q : BdtPeerInfo → Prop) (p : BdtPeerInfo) : Prop := {
  pf_const : const_ok (pi_constInfo p);
  pf_peerid : pi_peerid p = BdtGetPeeridFromConstInfo sha256 (pi_constInfo p);
  pf_endpoints : Forall endpoint_ok (pi_endpoints p);
  pf_count : Z.of_nat (length (pi_endpoints p)) < 2 ^ 8;
  pf_snList l : pi_snList p = Some l → Z.of_nat (length l) < 2 ^ 8 ∧ Forall (λ pid, length pid = BDT_PEERID_LENGTH) l;
  pf_snInfoList l : pi_snInfoList p = Some l → Z.of_nat (length l) < 2 ^ 8 ∧ Forall Q l;
  pf_createTime : 0 ≤ pi_createTime p < 2 ^ 64;
  pf_signature : is_signed p = true → length (pi_signature p) = BDT_PEER_LENGTH_SIGNATRUE }.

Definition signature_valid (p : BdtPeerInfo) : Prop :=
  is_signed p = true → rsa_verify (pi_signature p) (key_of (pi_constInfo p)) (signed_bytes p) = true.

(** Peers whose signatures are valid, down to the supernodes of supernodes. *)
Inductive peer_ok (p : BdtPeerInfo) : Prop :=
  peer_ok_intro (_ : peer_fields_ok peer_ok p) (_ : signature_valid p).

Lemma peer_nested_ind (Q : BdtPeerInfo → Prop) :
  (∀ p, (∀ l, pi_snInfoList p = Some l → Forall Q l) → Q p) → ∀ p, Q p.
Proof.
  intros H. fix IH 1. intros [a f pid c eps sn [l|] sec sig t]; apply H; cbn [pi_snInfoList]; intros l' E; [|done].
  injection E as <-. induction l as [|q l IHl]; constructor; [apply IH|apply IHl].
Qed.

(** ** What is written *)

Lemma lor_signed f : has_flag f BDT_ENDPOINT_FLAG_SIGNED = true → Z.lor f BDT_ENDPOINT_FLAG_SIGNED = f.
Proof.
  unfold BDT_ENDPOINT_FLAG_SIGNED. rewrite has_flag_bit by lia. intros Hb. apply Z.bits_inj'. intros j Hj.
  rewrite Z.lor_spec, Z.shiftl_1_l, Z.pow2_bits_eqb by lia. destruct (Z.eqb_spec 7 j) as [<-|]; [by rewrite Hb|].
  by rewrite orb_false_r.
Qed.

Lemma emits_peer_endpoint f ep :
  endpoint_ok ep → emits (BdtPeerInfoWriteEndpoint ep (ep_flag ep)) f (content_bytes (endpoint_content ep)) f.
Proof.
  intros (Hf & _ & _). unfold BdtPeerInfoWriteEndpoint, content_bytes, endpoint_content, wire_address. cbn [fst snd].
  rewrite (Z.mod_small _ _ Hf : u8 (ep_flag ep) = ep_flag ep).
  eapply emits_then; [apply emits_write, writes_u8|]. eapply emits_then; [apply emits_write, writes_u16|].
  destruct (has_flag _ BDT_ENDPOINT_IP_VERSION_4); [apply emits_write, writes_bytes|].
  destruct (has_flag _ BDT_ENDPOINT_IP_VERSION_6); [apply emits_write, writes_bytes|apply emits_skip].
Qed.

Lemma emits_unsigned f l :
  Forall endpoint_ok l →
  emits (BdtPeerInfoWriteEndpointsWithoutFlag l BDT_ENDPOINT_FLAG_SIGNED) f
    (concat (content_bytes <$> List.filter (λ c, negb (content_signed c)) (endpoint_content <$> l))) f.
Proof.
  induction 1 as [|ep l He _ IH]; [apply emits_skip|]. rewrite fmap_cons.
  cbn [BdtPeerInfoWriteEndpointsWithoutFlag List.filter].
  change (content_signed (endpoint_content ep)) with (has_flag (ep_flag ep) BDT_ENDPOINT_FLAG_SIGNED).
  destruct (has_flag (ep_flag ep) BDT_ENDPOINT_FLAG_SIGNED); cbn [negb].
  - eapply (emits_then _ _ _ []); [apply emits_skip|done].
  - rewrite fmap_cons. cbn [concat]. eapply emits_then; [by apply emits_peer_endpoint|done].
Qed.

Lemma emits_signed f l :
  Forall endpoint_ok l →
  emits (write_signed_endpoints l false) f
    (concat (content_bytes <$> List.filter content_signed (endpoint_content <$> l))) f.
Proof.
  induction 1 as [|ep l He _ IH]; [apply emits_skip|]. rewrite fmap_cons. cbn [write_signed_endpoints List.filter orb].
  change (content_signed (endpoint_content ep)) with (has_flag (ep_flag ep) BDT_ENDPOINT_FLAG_SIGNED).
  destruct (has_flag (ep_flag ep) BDT_ENDPOINT_FLAG_SIGNED) eqn:E.
  - rewrite fmap_cons. cbn [concat]. rewrite lor_signed by done. eapply emits_then; [by apply emits_peer_endpoint|done].
  - eapply (emits_then _ _ _ []); [apply emits_skip|done].
Qed.

Lemma emits_peerids f l :
  Forall (λ pid, length pid = BDT_PEERID_LENGTH) l → emits (write_peerids l) f (concat (map id l)) f.
Proof.
  induction 1 as [|pid l Hp _ IH]; [apply emits_skip|]. cbn [write_peerids map concat].
  eapply emits_then; [|done]. apply emits_write. intros s Hr. unfold Bdt_BufferWritePeerid.
  rewrite take_ge by (rewrite Hp; done). rewrite writes_bytes by done. cbn [mbind option_bind]. unfold id. by rewrite Hp.
Qed.

Lemma emits_all {A} f (m : A → Enc) (b : A → list Z) l :
  Forall (λ x, emits (m x) f (b x) f) l → emits (enc_all (map m l)) f (concat (map b l)) f.
Proof.
  induction 1 as [|x l Hx _ IH]; [apply emits_skip|]. cbn [map enc_all concat]. by eapply emits_then.
Qed.

Lemma key_length c : const_ok c → ∃ n, BdtGetPublicKeyLength (ci_publicKeyType c) = Some n ∧ (0 < n ≤ 422)%nat.
Proof.
  intros Hc. pose proof (co_type _ Hc). unfold BdtGetPublicKeyLength.
  assert (ci_publicKeyType c = 0 ∨ ci_publicKeyType c = 1 ∨ ci_publicKeyType c = 2) as [->|[->| ->]] by lia;
    eexists; (split; [reflexivity|lia]).
Qed.

Lemma emits_const f c : const_ok c → emits (write_const_info c) f (const_bytes c) f.
Proof.
  intros Hc. unfold write_const_info, const_bytes, key_of. destruct (key_length c Hc) as (n & -> & _). cbn [default].
  do 4 (eapply emits_then; [apply emits_write; first [apply writes_u8|apply writes_u16]|]).
  eapply emits_then; [apply emits_write, writes_u8|]. eapply emits_then.
  { rewrite take_ge by (rewrite (co_deviceId _ Hc); done). apply emits_write, writes_bytes. }
  eapply emits_then; [apply emits_write, writes_u8|]. apply emits_write, writes_bytes.
Qed.

Lemma u8_count {A} (l : list A) : Z.of_nat (length l) < 2 ^ 8 → u8 (Z.of_nat (length l)) = Z.of_nat (length l).
Proof. intros H. unfold u8. rewrite Z.mod_small; lia. Qed.

Lemma emits_fields f p :
  peer_fields_ok (λ q, emits (write_peer q) f (peer_bytes q) f) p → emits (write_peer p) f (peer_bytes p) f.
Proof.
  intros [Hc Hpid He Hel Hsn Hin Ht Hsig]. destruct p as [a fl pid c eps sn infos sec sig t].
  cbn [pi_constInfo pi_endpoints pi_snList pi_snInfoList pi_createTime pi_signature pi_peerid] in *.
  cbn [write_peer peer_bytes]. eapply emits_then; [apply emits_write, writes_u8|].
  eapply emits_then; [by apply emits_const|]. rewrite app_assoc. eapply emits_then.
  - unfold write_sign_fields, head_bytes, tail_bytes. rewrite u8_count, Nat2Z.id, take_ge, <- !app_assoc by done.
    eapply emits_then; [apply emits_write, writes_u8|]. eapply emits_then; [by apply emits_unsigned|].
    eapply emits_then; [by apply emits_signed|]. eapply emits_then; [|apply emits_write, writes_u64].
    destruct infos as [l|]; [|destruct sn as [l|]; [|apply emits_skip]].
    + destruct (Hin l eq_refl) as [Hl Hall]. rewrite length_map, u8_count, Nat2Z.id, take_ge by (rewrite ?length_map; done).
      unfold counted. rewrite length_map, map_map. eapply emits_then; [apply emits_write, writes_u8|]. by apply emits_all.
    + destruct (Hsn l eq_refl) as [Hl Hall]. rewrite u8_count, Nat2Z.id, take_ge by done.
      eapply emits_then; [apply emits_write, writes_u8|]. by apply emits_peerids.
  - destruct (is_signed _) eqn:E; [|apply emits_skip]. rewrite take_ge by (rewrite (Hsig eq_refl); done).
    apply emits_write, writes_bytes.
Qed.

Lemma peer_fields_impl (Q R : BdtPeerInfo → Prop) p :
  peer_fields_ok Q p → (∀ l, pi_snInfoList p = Some l → ∀ q, q ∈ l → Q q → R q) → peer_fields_ok R p.
Proof.
  intros [Hc Hpid He Hel Hsn Hin Ht Hsig] H. split; try done. intros l E. destruct (Hin l E) as [Hl Hall]. split; [done|].
  rewrite Forall_forall in *. intros q Hq. by apply (H l E), Hall.
Qed.

Lemma emits_peer f p : peer_ok p → emits (write_peer p) f (peer_bytes p) f.
Proof.
  induction p as [p IH] using peer_nested_ind. intros [Hok _]. apply emits_fields.
  eapply peer_fields_impl; [done|]. intros l E q Hq. specialize (IH l E). rewrite Forall_forall in IH. by apply IH.
Qed.


(** ** What is read *)

Lemma parses_n n bs :
  length bs = n → 0 < Z.of_nat n < 2 ^ 31 → parses (dec_read (BfxBufferReadByteArray n)) bs bs.
Proof. intros <- H. by apply parses_bytes. Qed.

Lemma content_flag ep : (endpoint_content ep).1.1 = ep_flag ep.
Proof. done. Qed.

Lemma parses_peer_endpoint ep :
  endpoint_ok ep →
  parses_from (BdtPeerInfoReadEndpoint uninit) (content_bytes (endpoint_content ep))
    (λ _ ep', endpoint_content ep' = endpoint_content ep).
Proof.
  intros (Hf & Hp & Ha). unfold BdtPeerInfoReadEndpoint, content_bytes, endpoint_content. cbn [fst snd].
  apply parses_from_pos. intros pos.
  eapply parses_from_step; [by apply parses_u8|]. eapply parses_from_step; [by apply parses_u16|].
  set (v4 := has_flag _ BDT_ENDPOINT_IP_VERSION_4). set (v6 := has_flag _ BDT_ENDPOINT_IP_VERSION_6).
  assert (Hr : parses (if v4 then dec_read (BfxBufferReadByteArray 4)
                       else if v6 then dec_read (BfxBufferReadByteArray 16) else mret []) (wire_address ep) (wire_address ep)).
  { unfold wire_address. fold v4 v6. destruct v4; [apply parses_n; [rewrite length_take; lia|by vm_compute]|].
    destruct v6; [apply parses_n; [rewrite length_take; lia|by vm_compute]|apply parses_ret]. }
  eapply parses_from_last; [by apply (parses_from_intro _ _ _ (λ _ a, a = wire_address ep) Hr)|].
  intros pos' x ->. eexists. split; [reflexivity|]. intros ? _ ? _ _. f_equal. unfold wire_address at 1. cbn [ep_flag ep_address]. fold v4 v6.
  unfold wire_address. fold v4 v6. destruct v4; [|destruct v6; [|done]].
  - rewrite take_app_le, take_take by (rewrite length_take; lia). done.
  - rewrite take_app_le, take_take by (rewrite length_take; lia). done.
Qed.

(** Where the first signed endpoint begins, 0 when there is none. *)
Fixpoint first_signed (pos : nat) (l : list BdtEndpoint) : nat :=
  match l with
  | [] => 0%nat
  | ep :: l =>
      if has_flag (ep_flag ep) BDT_ENDPOINT_FLAG_SIGNED then pos
      else first_signed (pos + length (content_bytes (endpoint_content ep))) l
  end.

Lemma parses_read_endpoints l start :
  Forall endpoint_ok l →
  parses_from (read_endpoints uninit (length l) start) (concat (content_bytes <$> (endpoint_content <$> l)))
    (λ pos r, (0 < pos)%nat → endpoint_content <$> r.1 = endpoint_content <$> l ∧
              r.2 = if (start =? 0)%nat then first_signed pos l else start).
Proof.
  intros Hok. revert start. induction Hok as [|ep l He _ IH]; intros start.
  { apply (parses_from_intro _ _ ([], start)); [apply parses_ret|]. intros pos _. cbn.
    by destruct (Nat.eqb_spec start 0). }
  rewrite !fmap_cons. cbn [read_endpoints length concat].
  apply parses_from_pos. intros pos.
  eapply parses_from_bind; [by apply parses_peer_endpoint|]. intros pos' ep' E'.
  assert (Ef : ep_flag ep' = ep_flag ep) by (rewrite <- !content_flag; congruence).
  eapply parses_from_last; [apply (IH _)|]. intros pos2 [eps st] H. eexists. split; [reflexivity|].
  intros Epos -> Hpos. destruct (H ltac:(lia)) as [H1 H2]. cbn [fst snd] in *.
  rewrite fmap_cons, H1, E'. split; [done|]. rewrite H2, Ef, Epos. cbn [first_signed].
  destruct (Nat.eqb_spec start 0) as [->|]; cbn [andb Nat.eqb].
  - destruct (has_flag (ep_flag ep) BDT_ENDPOINT_FLAG_SIGNED); [|reflexivity]. by destruct (Nat.eqb_spec pos 0); [lia|].
  - by destruct (Nat.eqb_spec start 0).
Qed.

(** The order of the endpoints on the wire. *)
Definition ep_signed (ep : BdtEndpoint) : bool := has_flag (ep_flag ep) BDT_ENDPOINT_FLAG_SIGNED.
Definition wire_order (l : list BdtEndpoint) : list BdtEndpoint :=
  List.filter (λ ep, negb (ep_signed ep)) l ++ List.filter ep_signed l.

Lemma filter_content (g : bool → bool) l :
  endpoint_content <$> List.filter (λ ep, g (ep_signed ep)) l =
  List.filter (λ c, g (content_signed c)) (endpoint_content <$> l).
Proof.
  induction l as [|ep l IH]; [done|]. rewrite fmap_cons. cbn [List.filter].
  change (content_signed (endpoint_content ep)) with (ep_signed ep).
  destruct (g (ep_signed ep)); [by rewrite fmap_cons, IH|done].
Qed.

Lemma length_wire_order l : length (wire_order l) = length l.
Proof.
  unfold wire_order. rewrite length_app. induction l as [|ep l IH]; [done|]. cbn [List.filter].
  destruct (ep_signed ep); cbn [negb length]; lia.
Qed.

Lemma wire_order_ok l : Forall endpoint_ok l → Forall endpoint_ok (wire_order l).
Proof.
  rewrite !Forall_forall. intros H ep. unfold wire_order. rewrite elem_of_app, !list_elem_of_In, !filter_In, <- list_elem_of_In.
  intros [[? _]|[? _]]; by apply H.
Qed.

Lemma first_signed_order pos us ss :
  Forall (λ ep, ep_signed ep = false) us → Forall (λ ep, ep_signed ep = true) ss →
  first_signed pos (us ++ ss) =
  if decide (ss = []) then 0%nat else (pos + length (concat (content_bytes <$> (endpoint_content <$> us))))%nat.
Proof.
  intros Hu Hs. revert pos. induction Hu as [|ep us He _ IH]; intros pos.
  - cbn [app]. destruct Hs as [|ep ss He _]; [done|]. rewrite decide_False by done. cbn [first_signed].
    unfold ep_signed in He. rewrite He. cbn. lia.
  - cbn [app first_signed]. unfold ep_signed in He. rewrite He, IH, !fmap_cons. cbn [concat]. rewrite length_app.
    destruct (decide _); [done|]. lia.
Qed.

Lemma filter_all_bool {A} (g : A → bool) l : Forall (λ x, g x = true) (List.filter g l).
Proof. apply Forall_forall. intros x. rewrite list_elem_of_In, filter_In. by intros []. Qed.

(** Filtering the contents that arrive, in their order on the wire. *)
Lemma filter_wire_order l c :
  c = endpoint_content <$> wire_order l →
  List.filter (λ c, negb (content_signed c)) c = List.filter (λ c, negb (content_signed c)) (endpoint_content <$> l) ∧
  List.filter content_signed c = List.filter content_signed (endpoint_content <$> l).
Proof.
  intros ->. unfold wire_order. rewrite fmap_app, (filter_content negb), (filter_content id), !List.filter_app.
  change (λ c, id (content_signed c)) with content_signed. set (c := endpoint_content <$> l). clearbody c. clear l.
  assert (H : ∀ g : Z * Z * list Z → bool, List.filter g (List.filter g c) = List.filter g c ∧
    List.filter g (List.filter (λ x, negb (g x)) c) = []).
  { intros g. induction c as [|x c [IH1 IH2]]; [done|]. cbn [List.filter].
    destruct (g x) eqn:E; cbn [negb List.filter]; rewrite ?E; split; congruence. }
  destruct (H content_signed) as [H1 H2]. destruct (H (λ x, negb (content_signed x))) as [H3 H4].
  rewrite H1, H2, H3. split; [|done]. rewrite (List.filter_ext content_signed (λ x, negb (negb (content_signed x)))).
  - by rewrite H4, app_nil_r.
  - intros x. by rewrite negb_involutive.
Qed.

(** Lists behind a count. *)
Lemma parses_repeat {A B} (m : Dec A) (b : B → list Z) (R : B → A → Prop) l :
  Forall (λ x, parses_to m (b x) (R x)) l →
  parses_to (dec_repeat (length l) m) (concat (map b l)) (λ l', Forall2 R l l').
Proof.
  induction 1 as [|x l Hx _ IH]; [eapply parses_to_intro; [apply parses_ret|constructor]|].
  cbn [dec_repeat length map concat]. eapply parses_to_bind; [exact Hx|]. intros y Hy.
  rewrite <- (app_nil_r (concat _)). eapply parses_to_bind; [exact IH|]. intros l' Hl'.
  eapply parses_to_intro; [apply parses_ret|]. by constructor.
Qed.

Lemma parses_list {A B} (m : Dec A) (b : B → list Z) (R : B → A → Prop) l :
  Z.of_nat (length l) < 2 ^ 8 → Forall (λ x, parses_to m (b x) (R x)) l →
  parses_to (dec_list m) (counted b l) (λ o, Forall2 R l (default [] o)).
Proof.
  intros Hl Hall. unfold dec_list, counted. eapply (parses_to_bind _ _ _ (eq _)).
  { eapply parses_to_intro; [apply parses_u8; lia|reflexivity]. }
  intros ? <-. rewrite Nat2Z.id, <- (app_nil_r (concat _)).
  eapply parses_to_bind; [by apply parses_repeat|]. intros l' Hl'. eapply parses_to_intro; [apply parses_ret|].
  destruct (Z.eqb_spec (Z.of_nat (length l)) 0); [|done]. destruct l; [by inversion Hl'|done].
Qed.

Lemma parses_const c :
  const_ok c →
  parses_from read_const_info (const_bytes c)
    (λ _ c', const_content c' = const_content c ∧ key_of c' = key_of c ∧
             BdtGetPeeridFromConstInfo sha256 c' = BdtGetPeeridFromConstInfo sha256 c).
Proof.
  intros Hc. unfold read_const_info, const_bytes.
  do 3 (eapply parses_from_step; [apply parses_u8, Hc|]). eapply parses_from_step; [apply parses_u16, Hc|].
  eapply parses_from_step; [apply parses_u8, Hc|].
  eapply parses_from_step; [apply (parses_n _ _ (co_deviceId _ Hc)); by vm_compute|].
  eapply parses_from_step; [apply parses_u8; pose proof (co_type _ Hc); lia|].
  destruct (key_length c Hc) as (n & En & Hn). rewrite En. unfold key_of. rewrite En. change (default 0%nat (Some n)) with n.
  assert (Hl : length (take n (ci_publicKey c)) = n) by (rewrite length_take, (co_key _ Hc); lia).
  assert (Hb : 0 < Z.of_nat n < 2 ^ 31) by lia.
  eapply parses_from_last; [apply (parses_from_intro _ _ _ (λ _ a, a = take n (ci_publicKey c)) (parses_n n _ Hl Hb)); done|].
  intros pos ? ->. eexists. split; [reflexivity|]. intros. unfold const_content, BdtGetPeeridFromConstInfo.
  cbn [ci_publicKeyType ci_publicKey ci_continent ci_country ci_carrier ci_city ci_inner ci_deviceId]. rewrite En.
  change (default 0%nat (Some n)) with n. rewrite take_app_le, take_take, Nat.min_id by (rewrite ?Hl; lia). done.
Qed.

(** ** Fields that are signed *)

Definition sn_flags {A B} (snInfoList : option A) (snList : option B) : Z :=
  match snInfoList, snList with
  | Some _, _ => BDT_PEER_INFO_BUILD_FLAG_HAS_SN_INFO
  | None, Some _ => BDT_PEER_INFO_BUILD_FLAG_HAS_SN_LIST
  | None, None => 0
  end.

Lemma build_flags_has p :
  has_flag (build_flags p) BDT_PEER_INFO_BUILD_FLAG_HAS_SN_INFO = bool_decide (is_Some (pi_snInfoList p)) ∧
  (pi_snInfoList p = None →
   has_flag (build_flags p) BDT_PEER_INFO_BUILD_FLAG_HAS_SN_LIST = bool_decide (is_Some (pi_snList p))) ∧
  has_flag (build_flags p) BDT_PEER_INFO_FLAG_SIGNED = is_signed p ∧
  0 ≤ build_flags p < 2 ^ 8 ∧ build_flags p ≠ BDT_PEER_INFO_BUILD_FLAG_NULL.
Proof.
  unfold build_flags. destruct (pi_snInfoList p), (pi_snList p), (is_signed p); vm_compute; repeat split; done.
Qed.

(** What is read of the lists, relative to the lists that were sent. *)
Definition lists_match (sn : option (list (list Z))) (infos : option (list BdtPeerInfo))
    (sn' : option (list (list Z))) (infos' : option (list BdtPeerInfo)) : Prop :=
  match infos' with Some _ => [] | None => default [] sn' end = match infos with Some _ => [] | None => default [] sn end ∧
  map content (default [] infos') = map content (default [] infos).

Lemma map_same l l' : Forall2 (λ q q', content q' = content q) l l' → map content l' = map content l.
Proof. induction 1 as [|x y l l' E _ IH]; [done|]. cbn [map]. by rewrite E, IH. Qed.

Lemma parses_lists read p :
  (∀ l, pi_snList p = Some l → Z.of_nat (length l) < 2 ^ 8 ∧ Forall (λ pid, length pid = BDT_PEERID_LENGTH) l) →
  (∀ l, pi_snInfoList p = Some l → Z.of_nat (length l) < 2 ^ 8 ∧
     Forall (λ q, parses_to read (peer_bytes q) (λ o, ∃ q', o = Some q' ∧ content q' = content q)) l) →
  parses_to
    (if has_flag (build_flags p) BDT_PEER_INFO_BUILD_FLAG_HAS_SN_INFO
     then l ← dec_list (o ← read; match o with Some p => mret p | None => dec_fail end); mret (None, l)
     else if has_flag (build_flags p) BDT_PEER_INFO_BUILD_FLAG_HAS_SN_LIST
     then l ← dec_list (dec_read Bdt_BufferReadPeerid); mret (l, None)
     else mret (None, None))
    match map peer_bytes <$> pi_snInfoList p, pi_snList p with
    | Some l, _ => counted id l
    | None, Some l => counted id l
    | None, None => []
    end
    (λ '(sn', infos'), lists_match (pi_snList p) (pi_snInfoList p) sn' infos').
Proof.
  intros Hsn Hin. destruct (build_flags_has p) as (H1 & H2 & _). rewrite H1.
  destruct (pi_snInfoList p) as [l|]; cbn [fmap option_fmap option_map].
  - destruct (Hin l eq_refl) as [Hl Hall]. rewrite bool_decide_true by (by eexists).
    unfold counted. rewrite length_map, map_map, <- (app_nil_r (_ ++ _)).
    eapply parses_to_bind; [apply (parses_list _ peer_bytes (λ q q', content q' = content q)); [done|]|].
    + eapply Forall_impl; [exact Hall|]. intros q Hq. rewrite <- (app_nil_r (peer_bytes q)).
      eapply parses_to_bind; [exact Hq|]. intros ? (q' & -> & E). eapply parses_to_intro; [apply parses_ret|done].
    + intros o Ho. eapply parses_to_intro; [apply parses_ret|]. split; [by destruct o|]. cbn [default].
      by apply map_same in Ho.
  - rewrite H2 by done. rewrite bool_decide_false by (by intros []).
    destruct (pi_snList p) as [l|]; [|rewrite bool_decide_false by (by intros []); by eapply parses_to_intro; [apply parses_ret|]].
    rewrite bool_decide_true by (by eexists). destruct (Hsn l eq_refl) as [Hl Hall].
    rewrite <- (app_nil_r (counted _ _)). eapply parses_to_bind; [apply (parses_list _ id eq); [done|]|].
    + eapply Forall_impl; [exact Hall|]. intros pid Hp. eapply parses_to_intro; [|reflexivity].
      apply (parses_n _ _ Hp). by vm_compute.
    + intros o Ho. eapply parses_to_intro; [apply parses_ret|]. split; [|done]. cbn [default].
      by apply list_eq_Forall2 in Ho.
Qed.

Lemma parses_sign_fields read p :
  Forall endpoint_ok (pi_endpoints p) → Z.of_nat (length (pi_endpoints p)) < 2 ^ 8 → 0 ≤ pi_createTime p < 2 ^ 64 →
  (∀ l, pi_snList p = Some l → Z.of_nat (length l) < 2 ^ 8 ∧ Forall (λ pid, length pid = BDT_PEERID_LENGTH) l) →
  (∀ l, pi_snInfoList p = Some l → Z.of_nat (length l) < 2 ^ 8 ∧
     Forall (λ q, parses_to read (peer_bytes q) (λ o, ∃ q', o = Some q' ∧ content q' = content q)) l) →
  parses_from (read_sign_fields uninit read (build_flags p)) (head_bytes (pi_endpoints p) ++ signed_bytes p)
    (λ pos '(endpoints, snList, snInfoList, createTime, signStartPos),
      endpoint_content <$> endpoints = endpoint_content <$> wire_order (pi_endpoints p) ∧
      lists_match (pi_snList p) (pi_snInfoList p) snList snInfoList ∧
      createTime = pi_createTime p ∧ signStartPos = (pos + length (head_bytes (pi_endpoints p)))%nat).
Proof.
  intros He Hel Ht Hsn Hin. unfold read_sign_fields.
  set (us := List.filter (λ ep, negb (ep_signed ep)) (pi_endpoints p)). set (ss := List.filter ep_signed (pi_endpoints p)).
  assert (Eb : head_bytes (pi_endpoints p) ++ signed_bytes p =
    le_bytes 1 (Z.of_nat (length (pi_endpoints p))) ++
    concat (content_bytes <$> (endpoint_content <$> wire_order (pi_endpoints p))) ++
    match map peer_bytes <$> pi_snInfoList p, pi_snList p with
    | Some l, _ => counted id l | None, Some l => counted id l | None, None => [] end ++ le_bytes 8 (pi_createTime p)).
  { unfold head_bytes, signed_bytes, tail_bytes, wire_order. rewrite !fmap_app, concat_app, <- !app_assoc.
    rewrite (filter_content negb), (filter_content id). done. }
  rewrite Eb. eapply parses_from_step; [apply parses_u8; lia|]. rewrite Nat2Z.id.
  eapply parses_from_bind.
  { rewrite <- (length_wire_order (pi_endpoints p)). by apply parses_read_endpoints, wire_order_ok. }
  intros pos [eps start] H. apply parses_from_pos. intros pos2.
  eapply parses_from_bind; [by apply parses_from_to, parses_lists|]. intros pos3 [sn' infos'] Hm.
  eapply parses_from_last; [apply (parses_from_intro _ _ _ (λ _ a, a = pi_createTime p) (parses_u64 _ Ht)); done|].
  intros pos4 ? ->. eexists. split; [reflexivity|]. intros _ -> E2 pos0 E0. rewrite length_le_bytes in E0. destruct (H ltac:(lia)) as [H1 H2].
  cbn [fst snd Nat.eqb] in *. split; [done|]. split; [done|]. split; [done|].
  assert (Eh : head_bytes (pi_endpoints p) =
    le_bytes 1 (Z.of_nat (length (pi_endpoints p))) ++ concat (content_bytes <$> (endpoint_content <$> us))).
  { unfold head_bytes, us. by rewrite (filter_content negb). }
  rewrite Eh, length_app, length_le_bytes. unfold wire_order in H2, E2. fold us ss in H2, E2.
  rewrite first_signed_order in H2.
  - destruct (decide (ss = [])) as [E|E].
    + rewrite H2. cbn [Nat.eqb]. rewrite E, app_nil_r in E2. lia.
    + rewrite H2. destruct (Nat.eqb_spec (pos + length (concat (content_bytes <$> (endpoint_content <$> us)))) 0); lia.
  - eapply Forall_impl; [apply (filter_all_bool (λ ep, negb (ep_signed ep)))|]. intros ep Hs. by apply negb_true_iff in Hs.
  - apply filter_all_bool.
Qed.

(** ** A whole peer *)

(** A step that may look back at the bytes that were read. *)
Lemma parses_from_back {A B} (m : Dec A) (k : A → Dec B) a (P : nat → A → Prop) b (Q : nat → B → Prop) :
  parses_from m a P →
  (∀ x n s rest, P (bs_pos s) x → ready s (a ++ b) rest →
     ∃ y, Q (bs_pos s) y ∧ k x (mkDec (advance (length a) s) n) =
          Some (Some y, mkDec (advance (length a + length b) s) (n + Z.of_nat (length b)))) →
  parses_from (m ≫= k) (a ++ b) Q.
Proof.
  intros Hm Hk n s rest Hr. pose proof (ready_split _ _ _ _ Hr) as [H1 _].
  destruct (Hm n _ _ H1) as (x & Hx & E). destruct (Hk x (n + Z.of_nat (length a)) s rest Hx Hr) as (y & Hy & E2).
  exists y. split; [done|]. unfold mbind, Dec_bind. rewrite E, E2, length_app. do 3 f_equal. lia.
Qed.

(** The step behind the fields, at the position [pos] of the peer: the
    signature is checked against the bytes in the stream. *)
Lemma read_signature_spec p c n s h rest :
  let sig := if is_signed p then pi_signature p else [] in
  (is_signed p = true → length (pi_signature p) = BDT_PEER_LENGTH_SIGNATRUE) →
  ready s ((h ++ signed_bytes p) ++ sig) rest →
  let d := mkDec (advance (length (h ++ signed_bytes p) + length sig) s) (n + Z.of_nat (length sig)) in
  ∃ r, read_signature rsa_verify (build_flags p) c (bs_pos s + length h) (mkDec (advance (length (h ++ signed_bytes p)) s) n) =
       Some (if is_signed p && negb (rsa_verify (pi_signature p) (key_of c) (signed_bytes p)) then None else Some r, d).
Proof.
  intros sig Hsig Hr d. destruct (build_flags_has p) as (_ & _ & H3 & _). unfold read_signature. rewrite H3.
  unfold sig, d in *. destruct (is_signed p); cbn [andb].
  - specialize (Hsig eq_refl). eexists. unfold mbind at 1, Dec_bind at 1, dec_bytes_from.
    cbn [de_stream bs_pos bs_buffer advance].
    assert (Eb : take (bs_pos s + length (h ++ signed_bytes p) - (bs_pos s + length h))
                   (drop (bs_pos s + length h) (bs_buffer s)) = signed_bytes p).
    { rewrite <- app_assoc in Hr. apply ready_split in Hr as [_ [[_ Hd] _]]. cbn [bs_pos bs_buffer advance] in Hd.
      rewrite Hd, length_app. replace (_ - _)%nat with (length (signed_bytes p)) by lia.
      rewrite <- app_assoc. by rewrite take_app_length. }
    rewrite Eb. apply ready_split in Hr as [_ Hr]. pose proof (parses_n _ _ Hsig ltac:(by vm_compute) n _ _ Hr) as E.
    unfold mbind, Dec_bind. rewrite E. unfold BdtPeerInfoVerify. fold (key_of c). rewrite advance_add.
    by destruct (rsa_verify _ _ _).
  - eexists. cbn [length]. rewrite Nat.add_0_r, Z.add_0_r. done.
Qed.

Lemma content_received p a sig c' eps sn' infos' :
  const_content c' = const_content (pi_constInfo p) →
  endpoint_content <$> eps = endpoint_content <$> wire_order (pi_endpoints p) →
  lists_match (pi_snList p) (pi_snInfoList p) sn' infos' →
  content (mkPeerInfo a 0 (pi_peerid p) c' eps sn' infos' false sig (pi_createTime p)) = content p.
Proof.
  intros Hc He [H1 H2]. destruct p as [? ? pid c e sn infos ? ? t]. cbn [pi_constInfo pi_endpoints pi_snList
    pi_snInfoList pi_createTime pi_peerid content] in *. rewrite Hc. destruct (filter_wire_order _ _ He) as [-> ->].
  f_equal; [done|]. by destruct infos, infos'.
Qed.

Lemma length_peer_nested p l q :
  pi_snInfoList p = Some l → q ∈ l → (length (peer_bytes q) < length (peer_bytes p))%nat.
Proof.
  intros E Hq. destruct p as [? ? pid c e sn infos ? ? t]. cbn [pi_snInfoList] in E. subst. cbn [peer_bytes].
  unfold tail_bytes, counted. rewrite !length_app, !length_le_bytes, map_map.
  assert (H : (length (peer_bytes q) ≤ length (concat (map (λ x, id (peer_bytes x)) l)))%nat).
  { clear -Hq. induction Hq as [|q r l _ IH]; cbn [map concat]; rewrite length_app; unfold id in *; lia. }
  lia.
Qed.

Lemma bind_parses {A B} (m : Dec A) (k : A → Dec B) a (P : nat → A → Prop) b n s rest :
  parses_from m a P → ready s (a ++ b) rest →
  ∃ x, P (bs_pos s) x ∧ (m ≫= k) (mkDec s n) = k x (mkDec (advance (length a) s) (n + Z.of_nat (length a))).
Proof.
  intros Hm [H1 _]%ready_split. destruct (Hm n _ _ H1) as (x & Hx & E). exists x. split; [done|].
  unfold mbind, Dec_bind. by rewrite E.
Qed.

Lemma peer_bytes_split p :
  peer_bytes p = le_bytes 1 (build_flags p) ++ const_bytes (pi_constInfo p) ++
    (head_bytes (pi_endpoints p) ++ signed_bytes p) ++ (if is_signed p then pi_signature p else []).
Proof. destruct p. cbn [peer_bytes]. rewrite <- !app_assoc. done. Qed.

Definition reads_content (fuel : nat) (q : BdtPeerInfo) : Prop :=
  parses_to (read_peer sha256 rsa_verify malloc uninit fuel) (peer_bytes q) (λ o, ∃ q', o = Some q' ∧ content q' = content q).

(** What is read of a peer whose fields are fine: its content, or nothing when
    the signature is not valid. *)
Lemma read_peer_fields p fuel n s rest :
  peer_fields_ok (reads_content fuel) p → ready s (peer_bytes p) rest →
  ∃ q, content q = content p ∧
    read_peer sha256 rsa_verify malloc uninit (S fuel) (mkDec s n) =
    Some (if is_signed p && negb (rsa_verify (pi_signature p) (key_of (pi_constInfo p)) (signed_bytes p))
          then None else Some (Some q),
          mkDec (advance (length (peer_bytes p)) s) (n + Z.of_nat (length (peer_bytes p)))).
Proof.
  intros [Hc Hpid He Hel Hsn Hin Ht Hsig] Hr. pose proof (peer_bytes_split p) as Eb. rewrite Eb in Hr.
  destruct (build_flags_has p) as (_ & _ & _ & Hf & Hnull). cbn [read_peer].
  unfold mbind at 1, Dec_bind at 1, dec_pos. cbn [de_stream].
  match goal with |- context [(dec_read BfxBufferReadUInt8 ≫= ?k) _] =>
    destruct (bind_parses _ k _ (λ _ x, x = build_flags p) _ n s rest (parses_from_intro _ _ _ _ (parses_u8 _ Hf) (λ _, eq_refl)) Hr)
      as (? & -> & ->) end.
  destruct (Z.eqb_spec (build_flags p) BDT_PEER_INFO_BUILD_FLAG_NULL) as [E|_]; [done|].
  apply ready_split in Hr as [_ Hr].
  match goal with |- context [(read_const_info ≫= ?k) (mkDec ?s ?n)] =>
    destruct (bind_parses _ k _ _ _ n s rest (parses_const _ Hc) Hr) as (c' & (Ec & Ek & Ep) & ->) end.
  apply ready_split in Hr as [_ Hr].
  match goal with |- context [(read_sign_fields _ _ _ ≫= ?k) (mkDec ?s ?n)] =>
    destruct (bind_parses _ k _ _ _ n s rest (parses_sign_fields _ p He Hel Ht Hsn Hin) Hr)
      as ([[[[eps sn'] infos'] t] start] & (Heps & Hlists & -> & ->) & ->) end.
  match goal with |- context [mkDec (advance _ ?s) ?n] =>
    destruct (read_signature_spec p c' n s (head_bytes (pi_endpoints p)) rest Hsig Hr) as (sig & Es) end.
  exists (mkPeerInfo (malloc (bs_pos s)) 0 (pi_peerid p) c' eps sn' infos' false sig (pi_createTime p)).
  split; [by apply content_received|]. unfold mbind at 1, Dec_bind at 1. rewrite Es, Ek. rewrite Ep, <- Hpid.
  assert (Ed : ∀ a b c k : nat, length (peer_bytes p) = (a + (b + (c + k)))%nat →
    mkDec (advance (c + k) (advance b (advance a s))) (n + Z.of_nat a + Z.of_nat b + Z.of_nat c + Z.of_nat k) =
    mkDec (advance (length (peer_bytes p)) s) (n + Z.of_nat (length (peer_bytes p)))).
  { intros a b c k El. rewrite !advance_add. f_equal; [f_equal; lia|lia]. }
  rewrite Ed by (rewrite Eb, !length_app; lia). destruct (is_signed p && negb (rsa_verify (pi_signature p) (key_of (pi_constInfo p)) (signed_bytes p))); reflexivity.
Qed.

Lemma parses_peer p fuel : peer_ok p → (length (peer_bytes p) ≤ fuel)%nat → reads_content fuel p.
Proof.
  revert fuel. induction p as [p IH] using peer_nested_ind. intros fuel [Hok Hv] Hfuel n s rest Hr.
  destruct fuel as [|fuel]; [rewrite peer_bytes_split, !length_app, length_le_bytes in Hfuel; lia|].
  destruct (read_peer_fields p fuel n s rest) as (q & Hq & E); [|done|].
  - eapply peer_fields_impl; [done|]. intros l El q Hq Hqo. specialize (IH l El). rewrite Forall_forall in IH.
    apply IH; [done|done|]. pose proof (length_peer_nested p l q El Hq). lia.
  - exists (Some q). split; [by eexists|]. rewrite E. unfold signature_valid in Hv.
    destruct (is_signed p); [|done]. by rewrite (Hv eq_refl).
Qed.

(** ** The interface of the packages *)

(** The objects that exist, by their addresses. *)
Context (heap : gmap Z BdtPeerInfo).

Definition same_content (o o' : option BdtPeerInfo) : Prop := content <$> o = content <$> o'.

Lemma same_content_equivalence : Equivalence same_content.
Proof. unfold same_content. split; [by intros ?|by intros ? ?|by intros ? ? ? -> ->]. Qed.

Definition pointer_ok (o : option BdtPeerInfo) : Prop :=
  ∀ p, o = Some p → peer_ok p ∧ Z.of_nat (length (peer_bytes p)) < 2 ^ 31.

Definition pointer_bytes (o : option BdtPeerInfo) : list Z :=
  match o with Some p => peer_bytes p | None => le_bytes 1 BDT_PEER_INFO_BUILD_FLAG_NULL end.

Definition pointer_live (o : option BdtPeerInfo) : Prop := ∀ p, o = Some p → heap !! pi_address p = Some p.

Lemma pointer_live_null : pointer_live None.
Proof. done. Qed.

Lemma PeerInfoIsEqual_same o o' : pointer_live o → pointer_live o' → PeerInfoIsEqual o o' = true → same_content o o'.
Proof.
  intros Ho Ho' E. unfold same_content. destruct o as [p|], o' as [p'|]; try done. apply Z.eqb_eq in E.
  pose proof (Ho p eq_refl). pose proof (Ho' p' eq_refl). congruence.
Qed.

Lemma writes_pointer o : pointer_ok o → writes (WritePeerInfo o) (pointer_bytes o).
Proof.
  intros Ho s Hr. unfold WritePeerInfo. destruct o as [p|]; cbn [pointer_bytes] in *.
  - destruct (Ho p eq_refl) as [Hp _]. rewrite (emits_peer 0 p Hp s 0%nat Hr). cbn [mbind option_bind en_stream].
    cbn [Z.eqb BFX_RESULT_SUCCESS]. do 3 f_equal. unfold written. cbn [bs_pos]. lia.
  - rewrite writes_u8 by done. cbn [mbind option_bind]. done.
Qed.

Lemma parses_pointer o :
  pointer_ok o →
  parses_to (dec_read (ReadPeerInfo sha256 rsa_verify malloc uninit)) (pointer_bytes o) (same_content o).
Proof.
  intros Ho n s rest Hr. unfold dec_read, ReadPeerInfo. cbn [de_stream de_read].
  assert (H : ∃ o', same_content o o' ∧
    read_peer sha256 rsa_verify malloc uninit (S (bs_length s)) (mkDec s 0) =
    Some (Some o', mkDec (advance (length (pointer_bytes o)) s) (0 + Z.of_nat (length (pointer_bytes o)))) ∧
    (0 < length (pointer_bytes o))%nat ∧ Z.of_nat (length (pointer_bytes o)) < 2 ^ 31).
  { pose proof Hr as (_ & Hl & _). destruct o as [p|]; cbn [pointer_bytes] in *.
    - destruct (Ho p eq_refl) as [Hp Hb]. destruct (parses_peer p (S (bs_length s)) Hp ltac:(lia) 0 s rest Hr) as (? & (q & -> & E) & Hrun).
      exists (Some q). split; [unfold same_content; cbn; by rewrite E|]. split; [done|]. split; [|done].
      destruct p. cbn [peer_bytes]. rewrite length_app, length_le_bytes. lia.
    - exists None. split; [done|]. split; [|split; [cbn; lia|done]]. cbn [read_peer].
      unfold mbind at 1, Dec_bind at 1, dec_pos. unfold mbind, Dec_bind.
      rewrite (parses_u8 BDT_PEER_INFO_BUILD_FLAG_NULL ltac:(done) 0 _ _ Hr). done. }
  destruct H as (o' & Hs & -> & Hpos & Hb). exists o'. split; [done|]. cbn [mbind option_bind de_stream].
  replace (bs_pos (advance (length (pointer_bytes o)) s) - bs_pos s)%nat with (length (pointer_bytes o)) by (cbn; lia).
  rewrite i32_id by lia. destruct (Z.leb_spec (Z.of_nat (length (pointer_bytes o))) 0); [lia|]. done.
Qed.

(** ** The reader moves forward *)

Lemma forward_look {A} (f : DecState → A) : forward (λ d, Some (Some (f d), d)).
Proof. by intros d o d' [= _ <-]. Qed.

Lemma forward_repeat {A} n (m : Dec A) : forward m → forward (dec_repeat n m).
Proof. intros H. induction n as [|n IH]; cbn [dec_repeat]; auto with forward. Qed.

#[local] Hint Resolve forward_repeat : forward.
#[local] Hint Extern 1 (forward dec_pos) => apply forward_look : forward.
#[local] Hint Extern 1 (forward (dec_bytes_from _)) => apply forward_look : forward.
#[local] Hint Extern 1 (forward (match ?l with [] => _ | _ :: _ => _ end)) => destruct l : forward.

Lemma forward_peer_endpoint : forward (BdtPeerInfoReadEndpoint uninit).
Proof. unfold BdtPeerInfoReadEndpoint. auto 12 with forward. Qed.
#[local] Hint Resolve forward_peer_endpoint : forward.

Lemma forward_endpoints n start : forward (read_endpoints uninit n start).
Proof. revert start. induction n as [|n IH]; intros start; cbn [read_endpoints]; auto 12 with forward. Qed.
#[local] Hint Resolve forward_endpoints : forward.

Lemma forward_list {A} (m : Dec A) : forward m → forward (dec_list m).
Proof. intros H. unfold dec_list. auto 12 with forward. Qed.
#[local] Hint Resolve forward_list : forward.

Lemma forward_const : forward read_const_info.
Proof. unfold read_const_info. auto 20 with forward. Qed.

Lemma forward_peerid : forward_read Bdt_BufferReadPeerid.
Proof. apply forward_bytes. Qed.
#[local] Hint Resolve forward_const forward_peerid : forward.

Lemma forward_sign_fields read flags : forward read → forward (read_sign_fields uninit read flags).
Proof. intros H. unfold read_sign_fields. auto 30 with forward. Qed.
#[local] Hint Resolve forward_sign_fields : forward.

Lemma forward_peer fuel : forward (read_peer sha256 rsa_verify malloc uninit fuel).
Proof. induction fuel as [|fuel IH]; [done|]. cbn [read_peer]. unfold read_signature. auto 30 with forward. Qed.

Lemma forward_pointer : forward_read (ReadPeerInfo sha256 rsa_verify malloc uninit).
Proof.
  intros s r a s'. unfold ReadPeerInfo. destruct (read_peer _ _ _ _ _ _) as [[o d]|] eqn:E; [|done].
  apply forward_peer in E. cbn [mbind option_bind de_stream] in *. by destruct o as [o|]; intros [= _ _ <-].
Qed.

#[export] Instance peer_info_laws : PeerInfoLaws (peer_info_ops sha256 rsa_verify malloc uninit) := {|
  peer_info_live := pointer_live : option (@PeerInfo (peer_info_ops sha256 rsa_verify malloc uninit)) → Prop;
  peer_info_live_null := pointer_live_null;
  forward_peer_info := forward_pointer;
  peer_info_ok := pointer_ok;
  peer_info_bytes := pointer_bytes;
  same_peer_info := same_content;
  same_peer_info_equivalence := same_content_equivalence;
  BdtPeerInfoIsEqual_same := PeerInfoIsEqual_same;
  writes_peer_info := writes_pointer;
  parses_peer_info := parses_pointer |}.

End Peers.
