(* ===== verification/MergedTheorems.v ===== *)
(** * Datagrams of packages: the theorems

    A datagram is decoded to the packages it was made of, whatever the later
    packages leave out because the first, or the caller's reference, has the
    same value; a member that is taken from another package has the type it is
    read with; and what the decoder does not check.  The witnesses use the
    peers of [PeerInfo]. *)

From S2P Require Import Prelude CInt Package BufferStream Codec SessionCodec Endpoint PackageFields PackageCodec PackageProofs HandCodec MergedPackages MergedProofs PeerInfo PeerProofs.

(** ** A small example *)

Module Demo.

Definition sha256 (_ : list Z) : list Z := replicate 32 7.
Definition rsa_verify (signature _ buffer : list Z) : bool := bool_decide (take 1 signature = take 1 buffer).
Definition malloc (pos : nat) : Z := Z.of_nat pos.
Definition uninit (_ : nat) : list Z := replicate 16 170.

Definition const_info : BdtPeerConstInfo := mkConstInfo 1 2 3 500 4 (replicate 128 65) 0 (replicate 422 9).
Definition sn : BdtPeerInfo :=
  mkPeerInfo 4096 0 (BdtGetPeeridFromConstInfo sha256 const_info) const_info
    [mkEndpoint 12 8050 (replicate 16 10)] None None false (replicate 128 0) 77.
(** A signed peer with an endpoint its supernode added. *)
Definition peer : BdtPeerInfo :=
  mkPeerInfo 8192 BDT_PEER_INFO_FLAG_SIGNED (BdtGetPeeridFromConstInfo sha256 const_info) const_info
    [mkEndpoint 140 8060 (replicate 16 11); mkEndpoint 12 8061 (replicate 16 12)] None (Some [sn]) false
    (replicate 128 140) 1234.
Definition heap : gmap Z BdtPeerInfo := {[4096 := sn; 8192 := peer]}.

#[global] Instance ops : PeerInfoOps := peer_info_ops sha256 rsa_verify malloc uninit.
#[global] Instance laws : PeerInfoLaws ops := peer_info_laws sha256 rsa_verify malloc uninit heap.

Definition with_members (cmdtype : Z) (l : list (FieldName * FieldValue)) : Package :=
  foldl (λ p '(n, v), set_member p n v) (package_init cmdtype) l.

Definition from_id : FieldValue := VBytes (replicate 32 1).
Definition syn : AnyPackage := Fields (with_members BDT_SYN_TUNNEL_PACKAGE
  [(s_fieldName_fromPeerid, from_id); (s_fieldName_seq, VInt 5); (s_fieldName_peerInfo, VPeerInfo (Some peer))]).
(** The same [seq], [fromPeerid] and peer are not sent again. *)
Definition call : AnyPackage := Fields (with_members BDT_SN_CALL_PACKAGE
  [(s_fieldName_fromPeerid, from_id); (s_fieldName_seq, VInt 5); (s_fieldName_peerInfo, VPeerInfo (Some peer));
   (s_fieldName_reverseEndpointArray, VEndpoints [mkEndpoint 12 9 (replicate 16 3)]);
   (s_fieldName_payload, VBuffer (Some [1; 2; 3]))]).

Lemma const_info_ok : const_ok const_info.
Proof. split; by vm_compute. Qed.

Lemma endpoint_check ep : bool_decide (0 ≤ ep_flag ep < 2 ^ 8 ∧ 0 ≤ ep_port ep < 2 ^ 16 ∧ length (ep_address ep) = 16%nat) = true →
  endpoint_ok ep.
Proof. by intros ?%bool_decide_eq_true. Qed.

Lemma sn_ok : peer_ok sha256 rsa_verify sn.
Proof.
  constructor; [|done]. split; [apply const_info_ok|try done..]. repeat constructor; by apply endpoint_check.
Qed.

Lemma peer_is_ok : peer_ok sha256 rsa_verify peer.
Proof.
  constructor; [|intros _; by vm_compute]. split; [apply const_info_ok|try done..].
  - repeat constructor; by apply endpoint_check.
  - intros l [= <-]. split; [done|]. constructor; [apply sn_ok|constructor].
Qed.

Lemma peer_pointer_ok : peer_info_ok (Some peer).
Proof. intros p [= <-]. split; [apply peer_is_ok|]. by vm_compute. Qed.

Ltac typed_tac := let n := fresh in let k := fresh in intros n k; destruct n; intros [= <-]; try done;
  first [by vm_compute | intros ? [= <-]; done | by apply Forall_singleton].
Lemma all_sendable_list p ref fields :
  Forall (λ fd, sent p ref fd = true → sendable (pk_member p (fd_name fd))) fields → all_sendable p ref fields.
Proof. by rewrite Forall_forall. Qed.

Lemma null_pointer_ok : peer_info_ok None.
Proof. by intros p [=]. Qed.

Ltac sendable_value := intros _;
  lazymatch goal with |- sendable ?v => let w := eval hnf in v in change (sendable w) end;
  lazymatch goal with
  | |- sendable (VPeerInfo None) => exact null_pointer_ok
  | |- sendable (VPeerInfo _) => exact peer_pointer_ok
  | |- sendable (VInt _) => exact I
  | |- sendable (VBytes _) => exact I
  | |- _ => cbn; lia
  end.
Ltac sendable_tac := apply all_sendable_list;
  lazymatch goal with |- Forall _ ?l => unfold l end;
  repeat lazymatch goal with |- Forall _ (_ :: _) => apply Forall_cons; split; [sendable_value|] end; by apply Forall_nil.

Lemma syn_typed : typed (as_reference syn).
Proof. typed_tac. Qed.
Lemma call_typed : typed (as_reference call).
Proof. typed_tac. Qed.

Lemma packages_ok : datagram_ok [syn; call] None None.
Proof.
  split; [|split; [|done]]; (split; [by eexists|]).
  - split; [apply syn_typed|]. split; [done|]. split; [|by vm_compute].
    change (package_fields _) with EncodeSynTunnel_fields. sendable_tac.
  - split; [apply call_typed|]. split; [done|]. split; [|by vm_compute].
    change (package_fields _) with EncodeSnCall_fields. sendable_tac.
Qed.

End Demo.

Section Merged.
Context {P : PeerInfoOps} {L : PeerInfoLaws P}.
Context (uninit : list Z).


End Merged.


(** ** Peers *)

Section Peers.
Context (sha256 : list Z → list Z) (rsa_verify : list Z → list Z → list Z → bool).
Context (malloc : nat → Z) (uninit : nat → list Z).

(** C19: what [BufferWritePeerInfo] writes of a peer, [BufferReadPeerInfo] reads
    as a peer with the same content, its supernodes included, when the
    signature is valid for the bytes from the first signed endpoint on; when it
    is not, the peer is refused.  No other memory changes. *)
Theorem peer_roundtrip p s :
  peer_fields_ok sha256 (peer_ok sha256 rsa_verify) p → Z.of_nat (length (peer_bytes p)) < 2 ^ 31 →
  fits (length (peer_bytes p)) s →
  let n := length (peer_bytes p) in
  ∃ s', WritePeerInfo (Some p) s = Some (BFX_RESULT_SUCCESS, n, s') ∧
    (∀ i, (i < bs_pos s ∨ bs_pos s + n ≤ i)%nat → bs_buffer s' !! i = bs_buffer s !! i) ∧
    (signature_valid rsa_verify p →
     ∃ q, ReadPeerInfo sha256 rsa_verify malloc uninit (at_pos s' (bs_pos s)) = Some (Z.of_nat n, Some q, s') ∧
          content q = content p) ∧
    (¬ signature_valid rsa_verify p →
     ReadPeerInfo sha256 rsa_verify malloc uninit (at_pos s' (bs_pos s)) = Some (-1, None, s')).
Proof.
  intros Hp Hb [Hl H2] n. unfold n. assert (Hroom : room (peer_bytes p) s) by (split; lia).
  set (s' := written (peer_bytes p) s).
  destruct (written_at_ready s (peer_bytes p) s' Hroom H2 eq_refl) as [rest Hready].
  assert (Ea : advance (length (peer_bytes p)) (at_pos s' (bs_pos s)) = s') by done.
  destruct (read_peer_fields sha256 rsa_verify malloc uninit p (bs_length s) 0 (at_pos s' (bs_pos s)) rest) as (q & Hq & E);
    [|done|].
  { eapply peer_fields_impl; [done|]. intros l El q Hq Hqo. apply parses_peer; [done|].
    pose proof (length_peer_nested p l q El Hq). lia. }
  rewrite Ea in E. exists s'. split; [|split; [intros i; by apply (written_at_frame s (peer_bytes p))|split]].
  - unfold WritePeerInfo. assert (He : emits (write_peer p) 0 (peer_bytes p) 0).
    { apply (emits_fields sha256). eapply peer_fields_impl; [done|]. intros l El q' _. by apply emits_peer. }
    rewrite (He s 0%nat Hroom). cbn [mbind option_bind en_stream Z.eqb BFX_RESULT_SUCCESS]. do 3 f_equal.
    unfold s', written. cbn [bs_pos]. lia.
  - intros Hv. exists q. split; [|done]. unfold ReadPeerInfo. change (bs_length (at_pos s' (bs_pos s))) with (bs_length s).
    rewrite E. assert (Eb : is_signed p && negb (rsa_verify (pi_signature p) (key_of (pi_constInfo p)) (signed_bytes p)) = false).
    { unfold signature_valid in Hv. destruct (is_signed p); [|done]. by rewrite Hv. }
    rewrite Eb. cbn [mbind option_bind de_stream]. unfold s'. cbn [bs_pos written at_pos].
    rewrite i32_id by lia. do 3 f_equal. lia.
  - intros Hv. unfold ReadPeerInfo. change (bs_length (at_pos s' (bs_pos s))) with (bs_length s). rewrite E.
    assert (Eb : is_signed p && negb (rsa_verify (pi_signature p) (key_of (pi_constInfo p)) (signed_bytes p)) = true).
    { unfold signature_valid in Hv. destruct (is_signed p); [|by destruct Hv]. cbn [andb].
      destruct (rsa_verify _ _ _); [by destruct Hv|done]. }
    by rewrite Eb.
Qed.

End Peers.

(** A peer that is signed is read from where it was written. *)
Lemma peer_roundtrip_witness :
  ∃ n s', WritePeerInfo (Some Demo.peer) (mkStream (replicate 2000 0) 1998 7) = Some (BFX_RESULT_SUCCESS, n, s') ∧
    ∃ q, ReadPeerInfo Demo.sha256 Demo.rsa_verify Demo.malloc Demo.uninit (at_pos s' 7) = Some (Z.of_nat n, Some q, s') ∧
         content q = content Demo.peer.
Proof.
  destruct Demo.peer_is_ok as [Hf Hv].
  destruct (peer_roundtrip Demo.sha256 Demo.rsa_verify Demo.malloc Demo.uninit Demo.peer (mkStream (replicate 2000 0) 1998 7))
    as (s' & Hw & _ & Hr & _); [exact Hf|by vm_compute| |].
  { split; apply Nat.leb_le; by vm_compute. }
  eexists _, s'. split; [exact Hw|]. exact (Hr Hv).
Defined.

(** ** Types of members *)

Section Types.
Context {P : PeerInfoOps} {L : PeerInfoLaws P}.

(** The fields an encoder looks up in a reference, of the types that do. *)
Definition referenced_fields (cmdtype : Z) : option (list Field) :=
  if cmdtype =? BDT_EXCHANGEKEY_PACKAGE then Some [exchange_fromPeerid; exchange_peerInfo] else
  if cmdtype =? BDT_DATA_GRAM_PACKAGE then Some DataGram_fields else generated_fields cmdtype.

Lemma referenced_ok cmdtype fields fd :
  referenced_fields cmdtype = Some fields → fd ∈ fields →
  GetPackageFieldName cmdtype (fd_flag fd) = Some (fd_name fd) ∧
  member_kind (struct_members cmdtype) (fd_name fd) = Some (fd_kind fd).
Proof.
  unfold referenced_fields. intros Hf Hfd.
  destruct (Z.eqb_spec cmdtype BDT_EXCHANGEKEY_PACKAGE) as [->|].
  { injection Hf as <-. revert fd Hfd. apply (proj1 (Forall_forall _ _)). by repeat constructor. }
  destruct (Z.eqb_spec cmdtype BDT_DATA_GRAM_PACKAGE) as [->|].
  { injection Hf as <-. revert fd Hfd. apply (proj1 (Forall_forall _ _)). by repeat constructor. }
  apply generated_fields_ok in Hf as [Hok _ _ _]. rewrite Forall_forall in Hok. by destruct (Hok fd Hfd).
Qed.


End Types.


(** ** What the decoder does not check *)

Section Hostile.
Context {P : PeerInfoOps}.
Context (uninit : list Z).

(** A head that announces nothing behind it. *)
Definition empty_head (cmdtype : Z) : list Z := [3; 0; cmdtype].

Fixpoint empty_heads (n : nat) (cmdtype : Z) : list Z :=
  match n with O => [] | S n => empty_head cmdtype ++ empty_heads n cmdtype end.

Lemma length_empty_heads n cmdtype : length (empty_heads n cmdtype) = (3 * n)%nat.
Proof. induction n as [|n IH]; [done|]. cbn [empty_heads]. rewrite length_app, IH. cbn. lia. Qed.

Lemma empty_head_decodes cmdtype r s rest :
  is_Some (generated_fields cmdtype) → reads s (empty_head cmdtype) rest → (bs_pos s + 3 ≤ bs_length s)%nat →
  package_head s = Some (Some (cmdtype, 0), advance 3 s) ∧
  DecodeSinglePackage uninit cmdtype 0 r (advance 3 s) = Some (Some (Fields (package_init cmdtype)), advance 3 s).
Proof.
  intros Hg Hr Hl. destruct (generated_type _ Hg) as [Hc Hne]. split.
  - change (empty_head cmdtype) with ([3; 0] ++ [cmdtype]) in Hr.
    pose proof (reads_weaken _ _ _ _ Hr) as H1. apply reads_advance in Hr.
    unfold package_head, BfxBufferReadUInt16, BfxBufferReadUInt8.
    rewrite assert_room_ok by lia. cbn [mbind option_bind]. rewrite (load_reads_n 2 _ _ _ H1 eq_refl). cbn [mbind option_bind].
    rewrite assert_room_ok by (cbn; lia). cbn [mbind option_bind]. cbn [length] in Hr. rewrite (load_reads_n 1 _ _ _ Hr eq_refl).
    cbn [mbind option_bind]. rewrite advance_add. unfold BfxBufferStreamGetTailLength.
    rewrite option_guard_True by (cbn; lia). cbn [mbind option_bind].
    change (le_val [3; 0]) with 3. replace (le_val [cmdtype]) with cmdtype by (cbn; lia).
    unfold Bdt_GetPackageMinSize. destruct (Z.eqb_spec cmdtype BDT_EXCHANGEKEY_PACKAGE); [done|].
    change (3 - 3) with 0. change (3 <? 2) with false. cbn [orb]. change (advance (2 + 1) s) with (advance 3 s).
    change (u64 0) with 0. destruct (Z.ltb_spec (Z.of_nat (bs_length (advance 3 s) - bs_pos (advance 3 s))) 0); [lia|]. done.
  - set (p := package_init cmdtype). destruct (single_generated uninit p NoRef) as [_ Hd]; [done|].
    change cmdtype with (pk_cmdtype p) at 1. rewrite Hd. unfold decode_package, dec_package.
    change (pk_cmdtype p) with cmdtype. unfold Bdt_GetPackageMinSize.
    destruct (Z.eqb_spec cmdtype BDT_EXCHANGEKEY_PACKAGE); done.
Qed.


Lemma decode_heads n cmdtype capacity ref fuel result s rest :
  is_Some (generated_fields cmdtype) → reads s (empty_heads (S n) cmdtype) rest →
  bs_length s = (bs_pos s + 3 * S n)%nat → (n < fuel)%nat → (length result ≤ capacity)%nat →
  decode_loop uninit fuel capacity ref result s =
  if (length result + n <=? capacity)%nat
  then Some (0, result ++ replicate n (Fields (package_init cmdtype))) else None.
Proof.
  intros Hg. revert fuel result s. induction n as [|n IH]; intros fuel result s Hr Hl Hf Hc;
    (destruct fuel as [|fuel]; [lia|]); cbn [decode_loop]; unfold BfxBufferStreamGetTailLength;
    rewrite option_guard_True by lia; cbn [mbind option_bind];
    destruct (Nat.leb_spec (bs_length s - bs_pos s) 3); try lia.
  { rewrite Nat.add_0_r. destruct (Nat.leb_spec (length result) capacity); [|lia]. cbn [replicate]. by rewrite app_nil_r. }
  change (empty_heads (S (S n)) cmdtype) with (empty_head cmdtype ++ empty_heads (S n) cmdtype) in Hr.
  destruct (empty_head_decodes cmdtype (match ref with Some r => Some r | None => as_reference <$> result !! 0%nat end)
              s _ Hg (reads_weaken _ _ _ _ Hr) ltac:(lia)) as [-> Hd].
  apply reads_advance in Hr. cbn [length empty_head] in Hr. cbn [mbind option_bind]. rewrite Hd. cbn [mbind option_bind].
  unfold store_result. destruct (decide (length result < capacity)%nat).
  - rewrite option_guard_True by done. cbn [mbind option_bind]. rewrite IH; [|done|cbn; lia|lia|rewrite length_app; cbn; lia].
    rewrite length_app. cbn [length]. replace (length result + 1 + n)%nat with (length result + S n)%nat by lia.
    destruct (_ <=? _)%nat; [|done]. by rewrite <- app_assoc.
  - rewrite option_guard_False by done. cbn [mbind option_bind]. by destruct (Nat.leb_spec (length result + S n) capacity); [lia|].
Qed.

(** C33: the decoder does not know how long the caller's array is: a datagram of
    [n + 1] heads that announce no content, three bytes each, makes [n]
    packages when the array has that many entries; with fewer,
    [Bdt_DecodePackage] writes behind the array. *)
Theorem decode_overflows cmdtype n capacity ref :
  is_Some (generated_fields cmdtype) → (0 < capacity)%nat →
  Bdt_DecodePackage uninit (empty_heads (S n) cmdtype) (3 * S n) ref capacity false =
  if (n <=? capacity)%nat then Some (0, replicate n (Fields (package_init cmdtype))) else None.
Proof.
  intros Hg Hc. unfold Bdt_DecodePackage. rewrite option_guard_True by done. cbn [mbind option_bind].
  apply (decode_heads n cmdtype capacity _ _ [] _ []); [done| |done|lia|cbn; lia].
  split; [cbn; lia|]. cbn [bs_pos bs_buffer BfxBufferStreamInit]. by rewrite drop_0, app_nil_r.
Qed.

(** A package without content and without flags. *)
Definition bare (cmdtype : Z) : list Z := [5; 0; cmdtype; 0; 0].

Definition carries_payload (cmdtype : Z) : Prop :=
  member_kind (struct_members cmdtype) s_fieldName_payload = Some KBuffer.

Lemma payload_types cmdtype :
  carries_payload cmdtype →
  cmdtype = BDT_SN_CALL_PACKAGE ∨ cmdtype = BDT_SN_CALLED_PACKAGE ∨ cmdtype = BDT_TCP_SYN_CONNECTION_PACKAGE ∨
  cmdtype = BDT_TCP_ACK_CONNECTION_PACKAGE.
Proof.
  unfold carries_payload, struct_members.
  repeat (match goal with |- context [?c =? ?k] => destruct (Z.eqb_spec c k) as [->|] end;
    [first [discriminate|intros _; tauto]|]). done.
Qed.


End Hostile.

(** [BDT_MAX_PACKAGE_MERGE_LENGTH] is 32: 102 bytes are too many. *)
Lemma decode_overflows_witness :
  Bdt_DecodePackage [] (empty_heads 34 BDT_ACKACK_TUNNEL_PACKAGE) 102 None 32 false = None.
Proof. apply (decode_overflows [] BDT_ACKACK_TUNNEL_PACKAGE 33 32 None); [by eexists|lia]. Defined.

