(* ===== verification/Termination.v ===== *)
(** * Decoding ends

    Every decoder moves forward along the stream, for any bytes; so the loop
    over the packages of a datagram, and the recursion over the supernodes of a
    peer, end, and the fuel their definitions take is enough. *)

From S2P Require Import Prelude CInt RecvQueue Package BufferStream Codec Forward SessionCodec Endpoint PackageFields PackageCodec HandCodec MergedPackages PeerInfo PeerProofs.

(** ** The decoders *)

Lemma forward_run {A} (m : Dec A) failed : forward m → forward_read (dec_run m failed).
Proof.
  intros H s r a s'. unfold dec_run. destruct (m (mkDec s 0)) as [[o d]|] eqn:E; [|done]. apply H in E.
  cbn [mbind option_bind]. by destruct o; intros [= _ _ <-].
Qed.

Lemma forward_endpoint_array uninit : forward_read (Bdt_BufferReadEndpointArray uninit).
Proof.
  apply forward_run. unfold dec_endpoint_array. apply forward_bind; [auto with forward|]. intros n.
  assert (H : ∀ k, forward (dec_endpoints uninit k)).
  { induction k; cbn [dec_endpoints]; [auto with forward|]. unfold dec_endpoint. auto 20 with forward. }
  intros d o d'. unfold dec_sized. destruct (BfxBufferStreamGetTailLength _); [|done]. cbn [mbind option_bind].
  destruct (_ <? _); [by intros [= _ <-]|]. apply H.
Qed.

Section Packages.
Context {P : PeerInfoOps} {L : PeerInfoLaws P}.
Context (uninit : list Z).

Lemma forward_field kind : forward (read_field uninit kind).
Proof.
  pose proof forward_endpoint_array uninit. pose proof forward_peer_info. pose proof forward_peerid.
  destruct kind; cbn [read_field]; auto with forward.
Qed.

Lemma forward_from_reference p fd r : forward (from_reference p fd r).
Proof.
  intros d o d'. unfold from_reference. destruct (ReadPackageFieldValueFromReference _ _ _); [|done].
  by intros [= _ <-].
Qed.
#[local] Hint Resolve forward_field forward_from_reference : forward.

Lemma forward_decode_field f ref fd p : forward (decode_field uninit f ref fd p).
Proof. unfold decode_field. auto with forward. Qed.
#[local] Hint Resolve forward_decode_field : forward.

Lemma forward_fields f ref fields p : forward (decode_fields uninit f ref fields p).
Proof. revert p. induction fields as [|fd fields IH]; intros p; cbn [decode_fields]; auto with forward. Qed.
#[local] Hint Resolve forward_fields : forward.

Lemma forward_body p ref fields : forward (decode_body uninit p ref fields).
Proof. unfold decode_body. auto with forward. Qed.
#[local] Hint Resolve forward_body : forward.

Lemma forward_payload totallen : forward (dec_payload totallen).
Proof.
  intros d o d'. unfold dec_payload, BfxBufferStreamSetPos, BfxBufferStreamGetPos. cbn zeta.
  set (n := u16 (totallen - u16 (de_read d))). destruct (guard (0 < n)) as [h|]; [|discriminate].
  cbn [mbind option_bind].
  case_guard; [|discriminate].
  cbn [mbind option_bind mret option_ret]. intros [= _ <-]. split; cbn; [done|done|lia|lia].
Qed.
#[local] Hint Resolve forward_payload : forward.

Lemma forward_sack_loop n : forward (dec_sack_loop n).
Proof. induction n as [|n IH]; cbn [dec_sack_loop]; auto 12 with forward. Qed.
#[local] Hint Resolve forward_sack_loop : forward.

Lemma forward_session totallen : forward (dec_session_fields totallen).
Proof. unfold dec_session_fields, dec_syn, dec_package_id, dec_sack. auto 60 with forward. Qed.

Lemma forward_datagram totallen p ref : forward (decode_datagram uninit totallen p ref).
Proof. unfold decode_datagram. auto 12 with forward. Qed.

Lemma forward_wrap {A} (f : A → AnyPackage) dec s o s' :
  forward_decoder dec → wrap f (dec s) = Some (o, s') → steps s s'.
Proof.
  intros H. unfold wrap. destruct (dec s) as [[o' s1]|] eqn:E; [|done]. apply H in E. cbn [mbind option_bind].
  by intros [= _ <-].
Qed.

Lemma forward_single cmdtype totallen ref : forward_decoder (DecodeSinglePackage uninit cmdtype totallen ref).
Proof.
  intros s o s'. unfold DecodeSinglePackage.
  repeat (match goal with |- context [?c =? ?k] => destruct (c =? k) end;
    [intros H; eapply forward_wrap, H; apply forward_package;
     first [apply forward_body|apply forward_datagram|apply forward_session]|]).
  by intros [= _ <-].
Qed.

(** ** The loop *)

Lemma decode_loop_fuel fuel fuel' capacity ref result s :
  (bs_length s - bs_pos s < fuel)%nat → (bs_length s - bs_pos s < fuel')%nat →
  decode_loop uninit fuel capacity ref result s = decode_loop uninit fuel' capacity ref result s.
Proof.
  revert fuel' result s. induction fuel as [|fuel IH]; intros fuel' result s Hf Hf'; [lia|].
  destruct fuel' as [|fuel']; [lia|]. cbn [decode_loop]. unfold BfxBufferStreamGetTailLength.
  case_guard as Hp; [|done]. cbn [mbind option_bind mret option_ret].
  destruct (Nat.leb_spec (bs_length s - bs_pos s) 3); [done|].
  destruct (package_head s) as [[head s1]|] eqn:Eh; [|done]. apply forward_head in Eh as [[_ Hl1 _ Hb1] Hp1].
  cbn [mbind option_bind]. destruct head as [[cmdtype totallen]|]; [|done].
  destruct (DecodeSinglePackage _ _ _ _ _) as [[o s2]|] eqn:Ed; [|done]. apply forward_single in Ed as [_ Hl2 Hp2 Hb2].
  cbn [mbind option_bind]. destruct o as [p|]; [|done]. destruct (store_result _ _ _); [|done].
  cbn [mbind option_bind]. apply IH; lia.
Qed.

(** C24: decoding a datagram ends, whatever its bytes are: each round of the
    loop leaves the cursor at least three bytes further and inside of the
    datagram, so that a number of rounds above the datagram's length is never
    exceeded and what [Bdt_DecodePackage] answers does not depend on it. *)
Theorem decoding_ends buffer length ref capacity :
  (0 < capacity)%nat →
  (∀ fuel, (length < fuel)%nat →
     decode_loop uninit fuel capacity (as_reference <$> ref) [] (BfxBufferStreamInit buffer length) =
     Bdt_DecodePackage uninit buffer length ref capacity false) ∧
  (∀ s s1 s2 cmdtype totallen r o,
     (bs_pos s ≤ bs_length s)%nat → package_head s = Some (Some (cmdtype, totallen), s1) →
     DecodeSinglePackage uninit cmdtype totallen r s1 = Some (o, s2) →
     (bs_pos s + 3 ≤ bs_pos s2 ≤ bs_length s2)%nat ∧ bs_length s2 = bs_length s ∧ bs_buffer s2 = bs_buffer s).
Proof.
  intros Hc. split.
  - intros fuel Hf. unfold Bdt_DecodePackage. rewrite option_guard_True by done. cbn [mbind option_bind].
    apply decode_loop_fuel; cbn; lia.
  - intros s s1 s2 cmdtype totallen r o Hs Eh Ed. apply forward_head in Eh as [[Hb1 Hl1 _ Hx1] Hp1].
    apply forward_single in Ed as [Hb2 Hl2 Hp2 Hx2]. split; [lia|]. split; congruence.
Qed.

End Packages.

Lemma decoding_ends_witness :
  decode_loop (P := peer_info_ops (λ _, []) (λ _ _ _, true) Z.of_nat (λ _, [])) [] 100 4 None []
    (BfxBufferStreamInit [5; 0; 3; 1; 0; 255; 255] 7) =
  Bdt_DecodePackage (P := peer_info_ops (λ _, []) (λ _ _ _, true) Z.of_nat (λ _, [])) [] [5; 0; 3; 1; 0; 255; 255] 7 None 4 false.
Proof.
  apply (decoding_ends (L := peer_info_laws (λ _, []) (λ _ _ _, true) Z.of_nat (λ _, []) ∅) [] _ 7 None 4); lia.
Defined.

(** ** The recursion over the supernodes of a peer *)

(** Two decoders that do the same from a position on, in a stream of length [l]. *)
Definition agree {A} (p l : nat) (m m' : Dec A) : Prop :=
  ∀ d, (p ≤ bs_pos (de_stream d))%nat → bs_length (de_stream d) = l → m d = m' d.

Lemma agree_refl {A} p l (m : Dec A) : agree p l m m.
Proof. by intros d. Qed.

Lemma agree_bind {A B} p l (m m' : Dec A) (k k' : A → Dec B) :
  forward m → agree p l m m' → (∀ a, agree p l (k a) (k' a)) → agree p l (m ≫= k) (m' ≫= k').
Proof.
  intros Hf Hm Hk d Hp Hl. unfold mbind, Dec_bind. rewrite <- (Hm d Hp Hl).
  destruct (m d) as [[[a|] d1]|] eqn:E; [|done..]. apply Hf in E as [_ Hl1 Hp1 _]. apply Hk; [lia|congruence].
Qed.

Section Peers.
Context (sha256 : list Z → list Z) (rsa_verify : list Z → list Z → list Z → bool).
Context (malloc : nat → Z) (uninit : nat → list Z).

Lemma agree_repeat {A} p l n (m m' : Dec A) :
  forward m → agree p l m m' → agree p l (dec_repeat n m) (dec_repeat n m').
Proof.
  intros Hf Hm. induction n as [|n IH]; cbn [dec_repeat]; [apply agree_refl|].
  apply agree_bind; [done|done|]. intros a. apply agree_bind; [by apply forward_repeat|done|].
  intros ?. apply agree_refl.
Qed.

Lemma agree_sign_fields p l read read' flags :
  forward read → agree p l read read' → agree p l (read_sign_fields uninit read flags) (read_sign_fields uninit read' flags).
Proof.
  intros Hf Hm. unfold read_sign_fields. apply agree_bind; [auto with forward|apply agree_refl|]. intros n.
  apply agree_bind; [apply forward_endpoints|apply agree_refl|]. intros [eps start].
  apply agree_bind; [apply forward_look|apply agree_refl|]. intros pos.
  assert (Hs : forward (o ← read; match o with Some p => mret p | None => dec_fail (A := BdtPeerInfo) end))
    by auto with forward.
  assert (Ha : agree p l (o ← read; match o with Some p => mret p | None => dec_fail (A := BdtPeerInfo) end)
                 (o ← read'; match o with Some p => mret p | None => dec_fail end)).
  { apply agree_bind; [done|done|]. intros ?. apply agree_refl. }
  apply agree_bind; [| |intros ?; apply agree_refl].
  - pose proof @forward_list. pose proof forward_peerid. auto 12 with forward.
  - destruct (has_flag _ BDT_PEER_INFO_BUILD_FLAG_HAS_SN_INFO); [|apply agree_refl].
    apply agree_bind; [by apply forward_list| |intros ?; apply agree_refl].
    unfold dec_list. apply agree_bind; [auto with forward|apply agree_refl|]. intros c.
    apply agree_bind; [by apply forward_repeat|by apply agree_repeat|]. intros ?. apply agree_refl.
Qed.

Lemma read_peer_agree fuel fuel' p l :
  (l - p < fuel)%nat → (l - p < fuel')%nat →
  agree p l (read_peer sha256 rsa_verify malloc uninit fuel) (read_peer sha256 rsa_verify malloc uninit fuel').
Proof.
  revert fuel' p. induction fuel as [|fuel IH]; intros fuel' p Hf Hf' d Hp Hl; [lia|].
  destruct fuel' as [|fuel']; [lia|]. cbn [read_peer]. unfold mbind at 1 6, Dec_bind at 1 6, dec_pos.
  unfold mbind at 1 5, Dec_bind at 1 5. destruct (dec_read BfxBufferReadUInt8 d) as [[[flags|] d1]|] eqn:E; [|done..].
  assert (Hs : bs_length (de_stream d1) = l ∧ (S (bs_pos (de_stream d)) ≤ bs_pos (de_stream d1) ≤ l)%nat).
  { revert E. unfold dec_read, BfxBufferReadUInt8, assert_room. case_guard; [|done]. cbn [mbind option_bind mret option_ret].
    destruct (load 1 _); [|done]. cbn [mbind option_bind]. cbn [Z.leb Z.compare]. intros [= _ <-]. cbn. lia. }
  destruct Hs as [Hl1 Hp1]. destruct (flags =? BDT_PEER_INFO_BUILD_FLAG_NULL); [done|].
  apply (agree_bind (S p) l); [apply forward_const|apply agree_refl| |lia|done]. intros c.
  apply agree_bind; [apply forward_sign_fields, forward_peer| |intros ?; apply agree_refl].
  apply agree_sign_fields; [apply forward_peer|]. apply IH; lia.
Qed.

(** Reading a peer ends, for any bytes. *)
Lemma read_peer_ends fuel s :
  (bs_length s < fuel)%nat →
  read_peer sha256 rsa_verify malloc uninit fuel (mkDec s 0) =
  read_peer sha256 rsa_verify malloc uninit (S (bs_length s)) (mkDec s 0).
Proof. intros H. by apply (read_peer_agree _ _ 0 (bs_length s)); [lia|lia|cbn; lia|]. Qed.

End Peers.
