(* ===== verification/AesPadding.v ===== *)
(** * AES with padding

    Models [BDTCore/Global/Aes/AesMbedtls.imp.inl]: both directions over the
    CBC transformation of the library, which is a parameter.  A region of
    memory is the list of its bytes from a pointer on; reading or writing
    behind its end, or in front of it, is a fault.  [AesOps] and [AesLaws] are
    what the boxing of packages uses; [mbedtls_laws] shows that the code
    provides it.  [padding_overreads] is about the bytes a receiver reads in
    front of its buffer. *)

From S2P Require Import Prelude CInt.

(** ** Regions of memory *)

Definition get_bytes (buf : list Z) (pos n : nat) : option (list Z) :=
  guard (pos + n ≤ length buf)%nat;; Some (take n (drop pos buf)).
Definition put_bytes (buf : list Z) (pos : nat) (bs : list Z) : option (list Z) :=
  guard (pos + length bs ≤ length buf)%nat;; Some (take pos buf ++ bs ++ drop (pos + length bs) buf).

Lemma get_bytes_app a b c : get_bytes (a ++ b ++ c) (length a) (length b) = Some b.
Proof.
  unfold get_bytes. rewrite option_guard_True by (rewrite !length_app; lia). cbn [mbind option_bind].
  by rewrite drop_app_length, take_app_length.
Qed.

Lemma get_bytes_front b c : get_bytes (b ++ c) 0 (length b) = Some b.
Proof. apply (get_bytes_app []). Qed.

Lemma put_bytes_app a b b' c :
  length b' = length b → put_bytes (a ++ b ++ c) (length a) b' = Some (a ++ b' ++ c).
Proof.
  intros E. unfold put_bytes. rewrite option_guard_True by (rewrite !length_app; lia). cbn [mbind option_bind].
  rewrite take_app_length, E. rewrite (app_assoc a b c), <- length_app, drop_app_length. done.
Qed.

Lemma put_bytes_front b b' c : length b' = length b → put_bytes (b ++ c) 0 b' = Some (b' ++ c).
Proof. intros E. by apply (put_bytes_app [] b b' c). Qed.

(** The bytes in front of a place, those at it and the rest. *)
Lemma split_at (buf : list Z) n : (n ≤ length buf)%nat → ∃ a b, buf = a ++ b ∧ length a = n.
Proof.
  intros H. exists (take n buf), (drop n buf). rewrite take_drop. split; [done|].
  rewrite length_take. lia.
Qed.

(** ** The code *)

Definition MBEDTLS_ERR_AES_INVALID_INPUT_LENGTH : Z := -34.

Section mbedtls.
(** [mbedtls_aes_crypt_cbc] with a zero [iv] on whole blocks. *)
Context (cbc_encrypt cbc_decrypt : list Z → list Z → list Z).

(** The library refuses data that is not whole blocks. *)
Definition aes_crypt_cbc (crypt : list Z → list Z → list Z) (key input : list Z) : Z * list Z :=
  if decide (length input `mod` 16 = 0)%nat then (0, crypt key input)
  else (MBEDTLS_ERR_AES_INVALID_INPUT_LENGTH, []).

(** In place: [input] and [output] are one region, as in every call. *)
Definition Bdt_AesEncryptDataWithPadding (aesKey buf : list Z) (dataLen : nat) (iLen oLen : Z) :
    option (Z * list Z) :=
  let targetLen := ((dataLen / 16 + 1) * 16)%nat in
  if bool_decide (oLen < Z.of_nat targetLen) || bool_decide (iLen < Z.of_nat targetLen) then Some (-1, buf)
  else
    let padding := u8 (Z.of_nat targetLen - Z.of_nat dataLen) in
    buf ← put_bytes buf dataLen (replicate (Z.to_nat padding) padding);
    input ← get_bytes buf 0 targetLen;
    let '(ret, out) := aes_crypt_cbc cbc_encrypt aesKey input in
    buf ← put_bytes buf 0 out;
    if decide (ret ≠ 0) then Some (ret, buf) else Some (Z.of_nat targetLen, buf).

(** [n] rounds of the loop over the padding are left, the next one reads
    [output[last - i]]. *)
Fixpoint check_padding (n : nat) (output : list Z) (last : nat) (i : nat) (padding : Z) : option bool :=
  match n with
  | O => Some true
  | S n =>
      b ← guard (i ≤ last)%nat;; output !! (last - i)%nat;
      if decide (b ≠ padding) then Some false else check_padding n output last (S i) padding
  end.

Definition Bdt_AesDecryptDataWithPadding (aesKey input : list Z) (iLen : Z) (output : list Z) :
    option (Z * list Z) :=
  if decide (Z.of_nat (length output) < iLen) then Some (-1, output)
  else
    data ← get_bytes input 0 (Z.to_nat iLen);
    let '(ret, out) := aes_crypt_cbc cbc_decrypt aesKey data in
    output ← put_bytes output 0 out;
    if decide (ret ≠ 0) then Some (ret, output)
    else
      padding ← guard (0 < Z.to_nat iLen)%nat;; output !! (Z.to_nat iLen - 1)%nat;
      ok ← check_padding (Z.to_nat padding) output (Z.to_nat iLen - 1) 0 padding;
      Some (if (ok : bool) then iLen - padding else -1, output).
End mbedtls.

(** ** What boxing uses *)

Class AesOps := {
  AesEncrypt (aesKey buf : list Z) (dataLen : nat) (iLen oLen : Z) : option (Z * list Z);
  AesDecrypt (aesKey input : list Z) (iLen : Z) (output : list Z) : option (Z * list Z) }.

(** The length of the encrypted data. *)
Definition aes_length (n : nat) : nat := ((n / 16 + 1) * 16)%nat.

Lemma aes_length_bounds n : (n < aes_length n ≤ n + 16)%nat.
Proof.
  unfold aes_length. pose proof (Nat.div_mod n 16 ltac:(lia)). pose proof (Nat.mod_upper_bound n 16 ltac:(lia)). lia.
Qed.

Class AesLaws (A : AesOps) := {
  aes_cipher : list Z → list Z → list Z;
  aes_cipher_length key d : length (aes_cipher key d) = aes_length (length d);
  aes_encrypts key d rest tail n :
    length rest = (aes_length (length d) - length d)%nat → Z.of_nat (aes_length (length d)) ≤ n →
    AesEncrypt key (d ++ rest ++ tail) (length d) n n =
      Some (Z.of_nat (aes_length (length d)), aes_cipher key d ++ tail);
  aes_decrypts key d more output :
    (aes_length (length d) ≤ length output)%nat →
    ∃ output', AesDecrypt key (aes_cipher key d ++ more) (Z.of_nat (aes_length (length d))) output =
        Some (Z.of_nat (length d), d ++ output') ∧ length (d ++ output') = length output }.

(** What the documentation of the library says of the transformation. *)
Class CbcLaws (enc dec : list Z → list Z → list Z) : Prop := {
  cbc_enc_length key x : length (enc key x) = length x;
  cbc_dec_length key x : length (dec key x) = length x;
  cbc_inverse key x : (length x `mod` 16 = 0)%nat → dec key (enc key x) = x }.

(** ** The code provides it *)

Section laws.
Context (enc dec : list Z → list Z → list Z) {Hcbc : CbcLaws enc dec}.

Definition mbedtls_ops : AesOps := {|
  AesEncrypt := Bdt_AesEncryptDataWithPadding enc;
  AesDecrypt := Bdt_AesDecryptDataWithPadding dec |}.

(** The padded data. *)
Definition padded (d : list Z) : list Z :=
  let p := (aes_length (length d) - length d)%nat in d ++ replicate p (Z.of_nat p).

Lemma length_padded d : length (padded d) = aes_length (length d).
Proof. unfold padded. rewrite length_app, length_replicate. pose proof (aes_length_bounds (length d)). lia. Qed.

Lemma aes_length_blocks n : (aes_length n `mod` 16 = 0)%nat.
Proof. unfold aes_length. apply Nat.Div0.mod_mul. Qed.

Lemma enc_length key x : length (enc key x) = length x.
Proof. apply (cbc_enc_length (dec := dec)). Qed.

Lemma check_padding_ok m d p t i :
  (i + m = p)%nat →
  check_padding m (d ++ replicate p (Z.of_nat p) ++ t) (length d + p - 1) i (Z.of_nat p) = Some true.
Proof.
  revert i. induction m as [|m IH]; intros i Hi; [done|]. cbn [check_padding].
  rewrite option_guard_True by lia. cbn [mbind option_bind].
  assert (E : (d ++ replicate p (Z.of_nat p) ++ t) !! (length d + p - 1 - i)%nat = Some (Z.of_nat p)).
  { rewrite lookup_app_r by lia. rewrite lookup_app_l by (rewrite length_replicate; lia).
    apply lookup_replicate. split; [done|lia]. }
  rewrite E. cbn [mbind option_bind]. rewrite decide_False by tauto. apply IH. lia.
Qed.

#[export] Program Instance mbedtls_laws : AesLaws mbedtls_ops := {|
  aes_cipher key d := enc key (padded d) |}.
Next Obligation. intros key d. cbn. by rewrite enc_length, length_padded. Qed.
Next Obligation.
  intros key d rest tail n Hrest Hn. cbn [AesEncrypt mbedtls_ops]. unfold Bdt_AesEncryptDataWithPadding.
  fold (aes_length (length d)). pose proof (aes_length_bounds (length d)) as Hb.
  rewrite !bool_decide_eq_false_2 by lia. cbn [orb].
  assert (Ep : u8 (Z.of_nat (aes_length (length d)) - Z.of_nat (length d)) =
    Z.of_nat (aes_length (length d) - length d)).
  { unfold u8. rewrite Z.mod_small by lia. lia. }
  rewrite Ep, Nat2Z.id.
  rewrite put_bytes_app by by rewrite length_replicate. cbn [mbind option_bind].
  rewrite app_assoc. fold (padded d).
  assert (Eg : get_bytes (padded d ++ tail) 0 (aes_length (length d)) = Some (padded d))
    by (rewrite <- length_padded; apply get_bytes_front).
  rewrite Eg. cbn [mbind option_bind]. unfold aes_crypt_cbc.
  rewrite decide_True by (rewrite length_padded; apply aes_length_blocks).
  rewrite put_bytes_front by apply enc_length. cbn [mbind option_bind]. done.
Qed.
Next Obligation.
  intros key d more output Ho. cbn [AesDecrypt mbedtls_ops]. unfold Bdt_AesDecryptDataWithPadding.
  pose proof (aes_length_bounds (length d)) as Hb. set (n := aes_length (length d)) in *.
  rewrite decide_False by lia. rewrite Nat2Z.id.
  assert (El : length (enc key (padded d)) = n) by by rewrite enc_length, length_padded.
  assert (Eg : get_bytes (enc key (padded d) ++ more) 0 n = Some (enc key (padded d)))
    by (rewrite <- El; apply get_bytes_front).
  rewrite Eg. cbn [mbind option_bind]. unfold aes_crypt_cbc.
  rewrite decide_True by (rewrite El; apply aes_length_blocks).
  rewrite cbc_inverse by (rewrite length_padded; apply aes_length_blocks).
  destruct (split_at output n Ho) as (a & b & -> & Ha).
  rewrite put_bytes_front by (rewrite length_padded; unfold n in Ha; lia). cbn [mbind option_bind].
  rewrite decide_False by tauto. rewrite option_guard_True by lia. cbn [mbind option_bind].
  set (p := (n - length d)%nat). unfold padded. fold n. fold p.
  assert (En : (n - 1)%nat = (length d + p - 1)%nat) by lia. rewrite En, <- app_assoc.
  assert (Elast : (d ++ replicate p (Z.of_nat p) ++ b) !! (length d + p - 1)%nat = Some (Z.of_nat p)).
  { rewrite lookup_app_r by lia. rewrite lookup_app_l by (rewrite length_replicate; lia).
    apply lookup_replicate. split; [done|lia]. }
  rewrite Elast. cbn [mbind option_bind]. rewrite Nat2Z.id, check_padding_ok by lia. cbn [mbind option_bind].
  exists (replicate p (Z.of_nat p) ++ b). split; [repeat f_equal; lia|].
  rewrite !length_app, length_replicate. lia.
Qed.
End laws.

(** ** Theorems *)

(** Data of any length that is padded and encrypted is decrypted to itself:
    in a region with room for the padding the code answers the length of the
    whole blocks, and from these, in a buffer that is large enough, the length
    and the bytes of the data; with less room it answers -1 and leaves the
    region alone. *)
Theorem padding_roundtrip enc dec `{Hcbc : !CbcLaws enc dec} key d rest limit output :
  (aes_length (length d) ≤ length output)%nat →
  (Z.of_nat (aes_length (length d)) ≤ limit ≤ Z.of_nat (length (d ++ rest)) →
   ∃ buf n output',
     Bdt_AesEncryptDataWithPadding enc key (d ++ rest) (length d) limit limit = Some (Z.of_nat n, buf) ∧
     n = aes_length (length d) ∧
     Bdt_AesDecryptDataWithPadding dec key (take n buf) (Z.of_nat n) output = Some (Z.of_nat (length d), output') ∧
     take (length d) output' = d) ∧
  (limit < Z.of_nat (aes_length (length d)) →
   Bdt_AesEncryptDataWithPadding enc key (d ++ rest) (length d) limit limit = Some (-1, d ++ rest)).
Proof.
  intros Hout. split.
  - intros [Hlim Hroom]. rewrite length_app in Hroom. pose proof (aes_length_bounds (length d)) as Hb.
    destruct (split_at rest (aes_length (length d) - length d)) as (r & t & -> & Hr); [lia|].
    pose proof (@aes_encrypts _ (mbedtls_laws enc dec) key d r t limit Hr Hlim) as He.
    destruct (@aes_decrypts _ (mbedtls_laws enc dec) key d [] output Hout) as (output' & Hd & _).
    rewrite app_nil_r in Hd. eexists _, _, _. split; [exact He|]. split; [done|].
    rewrite <- (@aes_cipher_length _ (mbedtls_laws enc dec) key d) at 1.
    rewrite take_app_length. split; [exact Hd|]. by rewrite take_app_length.
  - intros Hlim. unfold Bdt_AesEncryptDataWithPadding. fold (aes_length (length d)).
    by rewrite (bool_decide_eq_true_2 (limit < _)).
Qed.

(** The loop that goes on in front of the region. *)
Lemma check_padding_runs_out n i m p t :
  (0 < m)%nat → (i ≤ m)%nat → (m < i + n)%nat → check_padding n (replicate m p ++ t) (m - 1) i p = None.
Proof.
  intros Hm. revert i. induction n as [|n IH]; intros i Hi Hn; [lia|]. cbn [check_padding].
  destruct (decide (i ≤ m - 1)%nat) as [Hle|Hle]; [|by rewrite option_guard_False].
  rewrite option_guard_True by done. cbn [mbind option_bind].
  assert (E : (replicate m p ++ t) !! (m - 1 - i)%nat = Some p).
  { rewrite lookup_app_l by (rewrite length_replicate; lia). apply lookup_replicate. split; [done|lia]. }
  rewrite E. cbn [mbind option_bind]. rewrite decide_False by tauto. apply IH; lia.
Qed.

(** C40: The receiver does not check the padding it takes from a datagram: when
    the bytes decrypt to [p] throughout, and [p] is more than there are, the
    loop that checks the padding reads in front of the buffer.  With no data at
    all, the padding itself is read there. *)
Theorem padding_overreads enc dec `{Hcbc : !CbcLaws enc dec} key input output n p :
  length input = n → (n `mod` 16 = 0)%nat → dec key input = replicate n p → (n ≤ length output)%nat →
  n = 0%nat ∨ Z.of_nat n < p →
  Bdt_AesDecryptDataWithPadding dec key input (Z.of_nat n) output = None.
Proof.
  intros Hn Hm Hd Ho Hp. unfold Bdt_AesDecryptDataWithPadding. rewrite decide_False by lia. rewrite Nat2Z.id.
  assert (Eg : get_bytes input 0 n = Some input).
  { unfold get_bytes. rewrite option_guard_True by lia. cbn [mbind option_bind].
    by rewrite drop_0, take_ge by lia. }
  rewrite Eg. cbn [mbind option_bind]. unfold aes_crypt_cbc. rewrite Hn, decide_True by done. rewrite Hd.
  destruct (split_at output n Ho) as (a & b & -> & Ha).
  rewrite put_bytes_front by by rewrite length_replicate. cbn [mbind option_bind].
  destruct (decide (0 < n)%nat) as [Hpos|Hz]; [|by rewrite option_guard_False].
  destruct Hp as [->|Hp]; [lia|]. rewrite option_guard_True by done. cbn [mbind option_bind].
  assert (E : (replicate n p ++ b) !! (n - 1)%nat = Some p).
  { rewrite lookup_app_l by (rewrite length_replicate; lia). apply lookup_replicate. split; [done|lia]. }
  rewrite E. cbn [mbind option_bind]. by rewrite check_padding_runs_out by lia.
Qed.

(** ** The theorems at work *)

(** A transformation that is its own inverse. *)
Definition demo_cbc (key x : list Z) : list Z := (λ b, Z.lxor b (default 0 (head key))) <$> x.

#[export] Instance demo_cbc_laws : CbcLaws demo_cbc demo_cbc.
Proof.
  split; intros key x; unfold demo_cbc; rewrite ?length_fmap; [done|done|]. intros _.
  rewrite <- list_fmap_compose. rewrite <- (list_fmap_id x) at 2. apply list_fmap_ext. intros i b _. cbn.
  by rewrite Z.lxor_assoc, Z.lxor_nilpotent, Z.lxor_0_r.
Qed.

Lemma padding_roundtrip_witness :
  ∃ buf n output',
    Bdt_AesEncryptDataWithPadding demo_cbc [90] ([1; 2; 3] ++ replicate 20 0) 3 20 20 = Some (Z.of_nat n, buf) ∧
    n = 16%nat ∧
    Bdt_AesDecryptDataWithPadding demo_cbc [90] (take n buf) (Z.of_nat n) (replicate 1600 0) = Some (3, output') ∧
    take 3 output' = [1; 2; 3].
Proof.
  apply (padding_roundtrip demo_cbc demo_cbc [90] [1; 2; 3] (replicate 20 0) 20 (replicate 1600 0));
    [apply Nat.leb_le; by vm_compute|cbn; lia].
Defined.

Lemma padding_overreads_witness :
  Bdt_AesDecryptDataWithPadding demo_cbc [90] (replicate 16 (Z.lxor 200 90)) 16 (replicate 1600 0) = None.
Proof.
  apply (padding_overreads demo_cbc demo_cbc [90] (replicate 16 (Z.lxor 200 90)) (replicate 1600 0) 16 200);
    [reflexivity|reflexivity|by vm_compute|apply Nat.leb_le; by vm_compute|right; lia].
Defined.
