(* ===== verification/Crypto.v ===== *)
(** * The crypto toolkit

    Models [BDTCore/Global/CryptoToolkit.imp.inl] over the functions of the
    library it calls, which are the members of [Mbedtls]: each answers an error
    code ([inl]) or what it makes ([inr]).  Entropy and the contexts the
    functions allocate are not modelled. *)

From S2P Require Import Prelude CInt AesPadding.

Class Mbedtls := {
  sha256_ret (data : list Z) : Z + list Z;
  md5_ret (data : list Z) : Z + list Z;
  mbedtls_public : Type;
  mbedtls_secret : Type;
  pk_parse_public_key (der : list Z) : Z + mbedtls_public;
  pk_parse_key (der : list Z) : Z + mbedtls_secret;
  (** [mbedtls_pk_rsa(spk)->len] *)
  pk_rsa_len (sk : mbedtls_secret) : nat;
  pk_encrypt (pk : mbedtls_public) (data : list Z) (osize : Z) : Z + list Z;
  pk_decrypt (sk : mbedtls_secret) (input : list Z) (osize : nat) : Z + list Z;
  pk_sign (sk : mbedtls_secret) (md : list Z) : Z + list Z;
  (** 0 for a valid signature *)
  pk_verify (pk : mbedtls_public) (md sign : list Z) : Z }.

Section toolkit.
Context {B : Mbedtls}.

(** The code and the 32 bytes of [hash], which had the bytes [before]. *)
Definition Bdt_Sha256Hash (data before : list Z) : Z * list Z :=
  match sha256_ret data with inl ret => (ret, before) | inr hash => (0, hash) end.

(** [junk] is what the array on the stack holds before. *)
Definition Bdt_HashAesKey (junk aesKey : list Z) : list Z := take 8 (Bdt_Sha256Hash aesKey junk).2.
Definition Bdt_CheckAesKeyHash (junk aesKey keyHash : list Z) : bool :=
  bool_decide (take 8 (Bdt_Sha256Hash aesKey junk).2 = take 8 keyHash).

Definition Bdt_RsaEncrypt (data publicKey : list Z) (osize : Z) : Z + list Z :=
  match pk_parse_public_key publicKey with
  | inl ret => inl ret
  | inr pk => pk_encrypt pk data osize
  end.

(** The decrypted data and [*outKeyBytes].  As many bytes as the key has are
    read, however long [data] is. *)
Definition Bdt_RsaDecrypt (data secret : list Z) (osize : nat) : option (Z + list Z * nat) :=
  match pk_parse_key secret with
  | inl ret => Some (inl ret)
  | inr spk =>
      input ← get_bytes data 0 (pk_rsa_len spk);
      Some match pk_decrypt spk input osize with
           | inl ret => inl ret
           | inr output => inr (output, pk_rsa_len spk)
           end
  end.

Definition Bdt_RsaSignMd5 (data secret : list Z) : Z + list Z :=
  match md5_ret data with
  | inl ret => inl ret
  | inr md =>
      match pk_parse_key secret with
      | inl ret => inl ret
      | inr spk => pk_sign spk md
      end
  end.

(** The parsing of the key is not checked: a key that cannot be parsed is the
    library's empty context, for which it answers [noKey]. *)
Definition Bdt_RsaVerifyMd5 (noKey : Z) (sign publicKey data : list Z) : Z :=
  match md5_ret data with
  | inl ret => ret
  | inr md =>
      match pk_parse_public_key publicKey with
      | inl _ => noKey
      | inr pk => pk_verify pk md sign
      end
  end.
End toolkit.
