(* ===== verification/UdpBox.v ===== *)
(** * Boxing packages into UDP datagrams

    Models [BDTCore/Interface/UdpInterface.imp.inl]: a datagram is two magic
    bytes and packages in the clear, or the hash of a key and packages
    encrypted with it, or a new key encrypted for the receiver, its hash and
    packages encrypted with it that begin with the exchange of the key.  The
    receiver tries them in this order.  The key manager is reached through
    [KeyService], packages are coded by [MergedPackages], data is encrypted by
    [AesOps], and what the dispatch of packages calls is [UdpEnv]. *)

From S2P Require Import Prelude CInt Package BufferStream Codec SessionCodec Endpoint PackageFields PackageCodec HandCodec MergedPackages AesPadding Crypto.

Definition BDT_PROTOCOL_UDP_MAGIC_LENGTH : nat := 2.
Definition BDT_PROTOCOL_UDP_MAGIC_NUM_0 : Z := 0.
Definition BDT_PROTOCOL_UDP_MAGIC_NUM_1 : Z := 128.
Definition BDT_PROTOCOL_MIN_CRYPTO_PACKAGE_LENGTH : nat := 16.
Definition BDT_PROTOCOL_MIN_PACKAGE_LENGTH : nat := 8.
Definition BDT_PROTOCOL_MAX_UDP_DATA_SIZE : nat := 1600.
Definition BDT_MAX_PACKAGE_MERGE_LENGTH : nat := 32.
Definition MIX_HASH_BYTES : nat := 8.
Definition AES_KEY_BYTES : nat := 32.

(** What the interface uses of the key manager: the answer and, with
    success, the key and its peer. *)
Class KeyService (St : Type) := {
  FindByMixHash (mixHash : list Z) (touch confirmedByRemote : bool) : M St (Z * option (list Z * list Z));
  AddKey (aesKey peerid : list Z) (confirmedByRemote : bool) : M St Z }.

(** A step that keeps the state. *)
Definition lift {St A} (o : option A) : M St A := mread (λ _, o).

(** [n - k] on [size_t]. *)
Definition size_sub (n k : Z) : Z := (n - k) mod 2 ^ 64.

Section udp.
Context {P : PeerInfoOps} (peerid_of : PeerInfo → list Z).
Context {A : AesOps} {B : Mbedtls}.
(** What uninitialised arrays hold: a decoded member, a hash, the buffer the
    receiver decrypts to. *)
Context (uninit junk udpDecryptBuffer : list Z).

(** ** Boxing

    The answer is the result code, the buffer and [*inoutLength]. *)

Definition Bdt_BoxUdpPackage (packages : list AnyPackage) (refPackage : option AnyPackage) (buffer : list Z)
    (inoutLength : Z) : option (Z * list Z * Z) :=
  '(result, outLen, rest) ← Bdt_EncodePackage packages refPackage (drop 2 buffer) (Z.to_nat (size_sub inoutLength 2));
  let buffer := take 2 buffer ++ rest in
  if decide (result ≠ BFX_RESULT_SUCCESS) then Some (result, buffer, inoutLength)
  else
    buffer ← put_bytes buffer 0 [BDT_PROTOCOL_UDP_MAGIC_NUM_0; BDT_PROTOCOL_UDP_MAGIC_NUM_1];
    Some (BFX_RESULT_SUCCESS, buffer, Z.of_nat outLen + 2).

(** [BdtHistory_KeyManagerCalcKeyHash], which leaves [hash] alone when it fails. *)
Definition CalcKeyHash (aesKey buffer : list Z) : option (list Z) :=
  match sha256_ret aesKey with
  | inr h => put_bytes buffer 0 (take MIX_HASH_BYTES h)
  | inl _ => Some buffer
  end.

(** Packages encoded and encrypted behind a head of [headlen] bytes. *)
Definition box_encrypted (packages : list AnyPackage) (refPackage : option AnyPackage) (aesKey : list Z)
    (headlen : nat) (buffer : list Z) (inoutLength : Z) : option (Z * list Z * Z) :=
  let remainLen := size_sub inoutLength (Z.of_nat headlen) in
  '(result, dataLen, rest) ← Bdt_EncodePackage packages refPackage (drop headlen buffer) (Z.to_nat remainLen);
  if decide (result ≠ BFX_RESULT_SUCCESS) then Some (result, take headlen buffer ++ rest, inoutLength)
  else
    '(targetLen, rest) ← AesEncrypt aesKey rest dataLen remainLen remainLen;
    let buffer := take headlen buffer ++ rest in
    Some (if decide (targetLen < 0) then (BFX_RESULT_FAILED, buffer, inoutLength)
          else (BFX_RESULT_SUCCESS, buffer, Z.of_nat headlen + targetLen)).

Definition Bdt_BoxEncryptedUdpPackage (packages : list AnyPackage) (refPackage : option AnyPackage)
    (aesKey buffer : list Z) (inoutLength : Z) : option (Z * list Z * Z) :=
  buffer ← CalcKeyHash aesKey buffer;
  box_encrypted packages refPackage aesKey MIX_HASH_BYTES buffer inoutLength.

(** The exchange with the signature of its [seq] and the key; [sign] is copied
    from an array of [BDT_MAX_SIGN_LENGTH] bytes. *)
Definition sign_exchange (pkg : Package) (aesKey secret : list Z) : option (Z + Package) :=
  match pk_member pkg s_fieldName_seq with
  | VInt seq =>
      Some match Bdt_RsaSignMd5 (le_bytes 4 seq ++ aesKey) secret with
           | inl ret => inl ret
           | inr sign =>
               inr (set_member pkg s_fieldName_seqAndKeySign
                      (VBytes (take BDT_SEQ_AND_KEY_SIGN_LENGTH (sign ++ replicate BDT_SEQ_AND_KEY_SIGN_LENGTH 0))))
           end
  | _ => None
  end.

(** Answers the packages too: the first is changed. *)
Definition Bdt_BoxEncryptedUdpPackageStartWithExchange (packages : list AnyPackage)
    (refPackage : option AnyPackage) (aesKey remotePublic secret buffer : list Z) (inoutLength : Z) :
    option (Z * list Z * Z * list AnyPackage) :=
  match Bdt_RsaEncrypt aesKey remotePublic inoutLength with
  | inl ret => Some (ret, buffer, inoutLength, packages)
  | inr head =>
      buffer ← put_bytes buffer 0 head;
      let used := length head in
      buffer ← put_bytes buffer used (Bdt_HashAesKey junk aesKey);
      let headlen := (used + 8)%nat in
      match packages with
      | Fields pkg :: others =>
          signed ← sign_exchange pkg aesKey secret;
          match signed with
          | inl ret => Some (ret, buffer, inoutLength, packages)
          | inr pkg =>
              let packages := Fields pkg :: others in
              '(result, buffer, inoutLength) ← box_encrypted packages refPackage aesKey headlen buffer inoutLength;
              Some (result, buffer, inoutLength, packages)
          end
      | _ => None
      end
  end.

(** ** Unboxing

    A datagram is [bytes] bytes at the start of the memory [data]. *)

(** [resultPackages]: an array of pointers. *)
Definition Packages : Type := list (option AnyPackage).

(** [Bdt_DecodePackage] clears the first entry and fills the array from there:
    the entries behind what it decodes keep what they had.  An exchange that
    fails to decode stays in the first entry there; here the entry is empty,
    for the array of a datagram that is refused is not looked at. *)
Definition fill_packages (l : list AnyPackage) (packages : Packages) : Packages :=
  match l with
  | [] => None :: tail packages
  | _ => (Some <$> l) ++ drop (length l) packages
  end.

Definition decode_into (data : list Z) (bytes : nat) (refPackage : option AnyPackage) (packages : Packages)
    (start : bool) : option (bool * Packages) :=
  '(r, l) ← Bdt_DecodePackage uninit data bytes refPackage (length packages) start;
  Some (bool_decide (r = 0), fill_packages l packages).

Definition UnboxUdpPackage (data : list Z) (bytes : nat) (refPackage : option AnyPackage) (packages : Packages) :
    option (bool * Packages) :=
  head ← get_bytes data 0 2;
  if decide (head = [BDT_PROTOCOL_UDP_MAGIC_NUM_0; BDT_PROTOCOL_UDP_MAGIC_NUM_1])
  then decode_into (drop 2 data) (bytes - 2) refPackage packages false
  else Some (false, packages).

Definition decrypt_and_decode (aesKey data : list Z) (bytes headerPos : nat) (refPackage : option AnyPackage)
    (packages : Packages) (start : bool) : option (bool * Packages) :=
  '(datalen, output) ← AesDecrypt aesKey (drop headerPos data)
                         (size_sub (Z.of_nat bytes) (Z.of_nat headerPos)) udpDecryptBuffer;
  if decide (0 < datalen) then decode_into output (Z.to_nat datalen) refPackage packages start
  else Some (false, packages).

(** With a key that is known. *)
Definition UnboxEncryptedUdpPackage (data : list Z) (bytes : nat) (aesKey : list Z)
    (refPackage : option AnyPackage) (packages : Packages) : option (bool * Packages) :=
  decrypt_and_decode aesKey data bytes MIX_HASH_BYTES refPackage packages false.

(** With [isStartWithExchangeKey]: answers the key the datagram brings. *)
Definition UnboxExchangeUdpPackage (data : list Z) (bytes : nat) (secret : list Z)
    (refPackage : option AnyPackage) (packages : Packages) : option (option (list Z) * Packages) :=
  r ← Bdt_RsaDecrypt data secret AES_KEY_BYTES;
  match r with
  | inl _ => Some (None, packages)
  | inr (aesKey, inLen) =>
      keyHash ← get_bytes data inLen 8;
      if Bdt_CheckAesKeyHash junk aesKey keyHash then
        '(ok, packages) ← decrypt_and_decode aesKey data bytes (inLen + 8) refPackage packages true;
        Some (if (ok : bool) then Some aesKey else None, packages)
      else Some (None, packages)
  end.

(** The out parameters; a key or a peer that was not written is [None]. *)
Record Unboxed := mkUnboxed {
  ub_packages : Packages;
  ub_key : option (list Z);
  ub_keyPeerid : option (list Z);
  ub_isEncrypto : bool;
  ub_hasExchange : bool }.

Context {St : Type} {K : KeyService St}.

(** The peer of the exchange in the first package; a NULL [peerInfo] is a fault. *)
Definition exchange_peerid (packages : Packages) : option (option (list Z)) :=
  match packages with
  | Some (Fields p) :: _ =>
      if decide (pk_cmdtype p = BDT_EXCHANGEKEY_PACKAGE) then
        match pk_member p s_fieldName_peerInfo with
        | VPeerInfo (Some info) => Some (Some (peerid_of info))
        | _ => None
        end
      else Some None
  | Some (Session _) :: _ => Some None
  | _ => None
  end.

Definition unbox_exchange (data : list Z) (bytes : nat) (secret : list Z) (refPackage : option AnyPackage)
    (u : Unboxed) : M St (Z * Unboxed) :=
  '(key, packages) ← lift (UnboxExchangeUdpPackage data bytes secret refPackage (ub_packages u));
  match key with
  | None => mret (BFX_RESULT_FAILED, mkUnboxed packages (ub_key u) (ub_keyPeerid u) true false)
  | Some aesKey =>
      peerid ← lift (exchange_peerid packages);
      match peerid with
      | None => mret (BFX_RESULT_FAILED, mkUnboxed packages (Some aesKey) (ub_keyPeerid u) true false)
      | Some peerid =>
          _ ← AddKey aesKey peerid true;
          mret (BFX_RESULT_SUCCESS, mkUnboxed packages (Some aesKey) (Some peerid) true true)
      end
  end.

Definition Bdt_UnboxUdpPackage (data : list Z) (bytes : nat) (packages : Packages) (refPackage : option AnyPackage)
    (secret : list Z) : M St (Z * Unboxed) :=
  massert (bool_decide (BDT_MAX_PACKAGE_MERGE_LENGTH ≤ length packages)%nat) ;;
  let u := mkUnboxed packages None None true false in
  if decide (bytes < BDT_PROTOCOL_MIN_PACKAGE_LENGTH)%nat then mret (BFX_RESULT_FAILED, u)
  else
    '(clear, packages) ← lift (UnboxUdpPackage data bytes refPackage packages);
    if (clear : bool) then mret (BFX_RESULT_SUCCESS, mkUnboxed packages None None false false)
    else
      let u := mkUnboxed packages None None true false in
      if decide (bytes < BDT_PROTOCOL_MIN_CRYPTO_PACKAGE_LENGTH)%nat then mret (BFX_RESULT_FAILED, u)
      else
        mixHash ← lift (get_bytes data 0 MIX_HASH_BYTES);
        '(result, found) ← FindByMixHash mixHash true true;
        match (if decide (result = BFX_RESULT_SUCCESS) then found else None) with
        | Some (key, peerid) =>
            '(ok, packages) ← lift (UnboxEncryptedUdpPackage data bytes key refPackage packages);
            let u := mkUnboxed packages (Some key) (Some peerid) true false in
            if (ok : bool) then mret (BFX_RESULT_SUCCESS, u)
            else unbox_exchange data bytes secret refPackage u
        | None => unbox_exchange data bytes secret refPackage u
        end.
End udp.

(** ** Dispatch *)

Section dispatch.
Context {P : PeerInfoOps} {A : AesOps} {B : Mbedtls}.

Definition Bdt_IsSnPackage (p : AnyPackage) : bool :=
  bool_decide (BDT_SN_CALL_PACKAGE ≤ package_type p) && bool_decide (package_type p ≤ BDT_SN_PING_RESP_PACKAGE).

(** What [BdtPushUdpSocketData] asks of the other parts of the stack. *)
Inductive UdpAction :=
  | PushToSnClient (p : AnyPackage) (key : option (list Z))
  | GetContainerByRemotePeerid (peerid : list Z)
  | CreateContainer (peerid : list Z)
  | PushToTunnel (p : AnyPackage)
  | PushSessionPackage (p : AnyPackage)
  | ContainerRelease
  | PackageFree (p : AnyPackage).

(** What they answer: whether there is a container for a peer, and the result
    and [*handled] of a push to the tunnel. *)
Class UdpEnv := {
  has_container (peerid : list Z) : bool;
  tunnel_push (p : AnyPackage) : Z * bool }.
Context {E : UdpEnv}.

(** The loops run while [n] entries of the array are left to look at. *)
Fixpoint sn_loop (n : nat) (packages : Packages) (key : option (list Z)) : option (list UdpAction) :=
  match n with
  | O => Some []
  | S n =>
      match packages with
      | [] => None
      | None :: _ => Some []
      | Some p :: packages => rest ← sn_loop n packages key; Some (PushToSnClient p key :: rest)
      end
  end.

Fixpoint tunnel_loop (n : nat) (packages : Packages) : option (list UdpAction) :=
  match n with
  | O => Some []
  | S n =>
      match packages with
      | [] => None
      | None :: _ => Some []
      | Some p :: packages =>
          let '(result, handled) := tunnel_push p in
          if bool_decide (result ≠ BFX_RESULT_SUCCESS) || (handled : bool) then Some [PushToTunnel p]
          else
            rest ← tunnel_loop n packages;
            Some (PushToTunnel p :: PushSessionPackage p :: rest)
      end
  end.

Fixpoint free_loop (n : nat) (packages : Packages) : option (list UdpAction) :=
  match n with
  | O => Some []
  | S n =>
      match packages with
      | [] => None
      | None :: _ => Some []
      | Some p :: packages => rest ← free_loop n packages; Some (PackageFree p :: rest)
      end
  end.

(** What is done with the packages of a datagram.  The loops end at
    [BDT_PROTOCOL_MIN_PACKAGE_LENGTH].  [keyPeerid] is an array on the stack: to
    look for its container when nothing was written to it is a fault. *)
Definition dispatch (u : Unboxed) : option (list UdpAction) :=
  let firstIndex := if ub_hasExchange u then 1%nat else 0%nat in
  firstPackage ← ub_packages u !! firstIndex;
  match firstPackage with
  | None => Some []
  | Some firstPackage =>
      let n := (BDT_PROTOCOL_MIN_PACKAGE_LENGTH - firstIndex)%nat in
      let packages := drop firstIndex (ub_packages u) in
      pushed ←
        (if Bdt_IsSnPackage firstPackage
         then sn_loop n packages (if ub_isEncrypto u then ub_key u else None)
         else
           peerid ← ub_keyPeerid u;
           created ← (if has_container peerid then Some []
                      else if decide (package_type firstPackage = BDT_SYN_TUNNEL_PACKAGE)
                           then Some [CreateContainer peerid] else None);
           acts ← tunnel_loop n packages;
           Some (GetContainerByRemotePeerid peerid :: created ++ acts ++ [ContainerRelease]));
      freed ← free_loop BDT_PROTOCOL_MIN_PACKAGE_LENGTH (ub_packages u);
      Some (pushed ++ freed)
  end.

Context (peerid_of : PeerInfo → list Z) (uninit junk udpDecryptBuffer : list Z).
Context {St : Type} {K : KeyService St}.

(** A datagram that is refused leaves what was decoded of it. *)
Definition BdtPushUdpSocketData (data : list Z) (bytes : nat) (secret : list Z) : M St (list UdpAction) :=
  '(result, u) ← Bdt_UnboxUdpPackage peerid_of uninit junk udpDecryptBuffer data bytes
                   (replicate BDT_MAX_PACKAGE_MERGE_LENGTH None) None secret;
  if decide (result ≠ BFX_RESULT_SUCCESS) then mret []
  else lift (dispatch u).
End dispatch.
