(* ===== verification/ExchangeProofs.v ===== *)
(** * The exchange of a key and the packages behind it

    What [EncodeExchangeKeyPackage] writes and [DecodeExchangeKeyPackage]
    reads: the same package, when at least two bytes follow it. *)

From S2P Require Import Prelude CInt Package BufferStream Codec SessionCodec Endpoint PackageFields PackageCodec PackageProofs HandCodec MergedPackages MergedProofs.

Section exchange.
Context {P : PeerInfoOps} {L : PeerInfoLaws P}.
Context (uninit : list Z).

Definition int_of (v : FieldValue) : Z := match v with VInt v => v | _ => 0 end.
Definition bytes_of (v : FieldValue) : list Z := match v with VBytes v => v | _ => [] end.

(** The bytes behind the header.  Nothing says that the peer's id or the peer
    of an exchange is a default value, so both are always sent. *)
Definition exchange_body (p : Package) : list Z :=
  le_bytes 4 (int_of (pk_member p s_fieldName_seq)) ++ bytes_of (pk_member p s_fieldName_seqAndKeySign) ++
  field_bytes KPeerid (pk_member p s_fieldName_fromPeerid) ++ field_bytes KPeerInfo (pk_member p s_fieldName_peerInfo) ++
  le_bytes 8 (int_of (pk_member p s_fieldName_sendTime)).
Definition exchange_flags (p : Package) : Z :=
  put_flag (put_flag (pk_cmdflags p) BDT_EXCHANGEKEY_PACKAGE_FLAG_FROMPEERID true)
    BDT_EXCHANGEKEY_PACKAGE_FLAG_PEERINFO true.
Definition exchange_bytes (p : Package) : list Z :=
  le_bytes 2 (Z.of_nat (4 + length (exchange_body p))) ++ le_bytes 2 (exchange_flags p) ++ exchange_body p.

Record exchange_ok (p : Package) : Prop := {
  ex_type : pk_cmdtype p = BDT_EXCHANGEKEY_PACKAGE;
  ex_typed : typed p;
  ex_flags : 0 ≤ pk_cmdflags p < 2 ^ 16;
  ex_sendable : sendable (pk_member p s_fieldName_peerInfo);
  ex_length : Z.of_nat (4 + length (exchange_body p)) < 2 ^ 16 }.

Lemma length_exchange_bytes p : length (exchange_bytes p) = (4 + length (exchange_body p))%nat.
Proof. unfold exchange_bytes. rewrite !length_app, !length_le_bytes. lia. Qed.

(** The members that are always there. *)
Lemma exchange_members p :
  exchange_ok p →
  (∃ seq, pk_member p s_fieldName_seq = VInt seq ∧ 0 ≤ seq < 2 ^ 32) ∧
  (∃ sign, pk_member p s_fieldName_seqAndKeySign = VBytes sign ∧ length sign = BDT_SEQ_AND_KEY_SIGN_LENGTH) ∧
  (∃ t, pk_member p s_fieldName_sendTime = VInt t ∧ 0 ≤ t < 2 ^ 64) ∧
  typed_value KPeerid (pk_member p s_fieldName_fromPeerid) ∧ typed_value KPeerInfo (pk_member p s_fieldName_peerInfo).
Proof.
  intros [Hc Ht _ _ _]. unfold typed in Ht. rewrite Hc in Ht.
  pose proof (Ht s_fieldName_seq KUInt32 eq_refl) as H1.
  pose proof (Ht s_fieldName_seqAndKeySign KSign eq_refl) as H2.
  pose proof (Ht s_fieldName_sendTime KUInt64 eq_refl) as H3.
  pose proof (Ht s_fieldName_fromPeerid KPeerid eq_refl) as H4.
  pose proof (Ht s_fieldName_peerInfo KPeerInfo eq_refl) as H5. unfold typed_value in H1, H2, H3.
  split; [|split; [|split; [|by split]]].
  - destruct (pk_member p s_fieldName_seq); try done. by eexists.
  - destruct (pk_member p s_fieldName_seqAndKeySign); try done. by eexists.
  - destruct (pk_member p s_fieldName_sendTime); try done. by eexists.
Qed.

Lemma le_bytes_i64 v : le_bytes 8 (i64 v) = le_bytes 8 v.
Proof.
  rewrite <- (le_bytes_mod 8 (i64 v)), <- (le_bytes_mod 8 v). f_equal. unfold i64.
  change (8 * Z.of_nat 8) with 64. rewrite Zminus_mod_idemp_l. f_equal. lia.
Qed.

Lemma exchange_body_length p : exchange_ok p → (140 ≤ length (exchange_body p))%nat.
Proof.
  intros Hp. destruct (exchange_members p Hp) as ((seq & E1 & _) & (sign & E2 & Hl) & _ & _).
  unfold exchange_body. rewrite !length_app, !length_le_bytes, E2. cbn [bytes_of]. rewrite Hl.
  change BDT_SEQ_AND_KEY_SIGN_LENGTH with 128%nat. lia.
Qed.

Lemma emits_exchange_field p fd f :
  pk_cmdtype p = BDT_EXCHANGEKEY_PACKAGE → fd = exchange_fromPeerid ∨ fd = exchange_peerInfo →
  typed_value (fd_kind fd) (pk_member p (fd_name fd)) → sendable (pk_member p (fd_name fd)) →
  emits (encode_field p None fd) f (field_bytes (fd_kind fd) (pk_member p (fd_name fd))) (put_flag f (fd_flag fd) true).
Proof.
  intros Hc Hfd Ht Hs s n Hroom. unfold encode_field, encode_field_by.
  assert (Ep : field_present_by is_equal p None fd = Some true).
  { unfold field_present_by. cbn [mbind option_bind]. unfold IsEqualPackageFieldDefaultValue. by rewrite Hc. }
  rewrite Ep. cbn [mbind option_bind].
  assert (∃ j, 0 ≤ j < 16 ∧ fd_flag fd = Z.shiftl 1 j) as (j & Hj & Ej).
  { destruct Hfd as [->| ->]; [by exists 2|by exists 3]. }
  rewrite Ej. apply (emits_field f j true); [lia| |done]. intros _ g. apply emits_write, writes_field; [done|done|].
  by destruct Hfd as [->| ->].
Qed.

Lemma emits_exchange p :
  exchange_ok p → emits (exchange_fields p None) (pk_cmdflags p) (exchange_body p) (exchange_flags p).
Proof.
  intros Hp. destruct (exchange_members p Hp) as ((seq & E1 & Hseq) & (sign & E2 & Hl) & (t & E3 & Ht) & H4 & H5).
  destruct Hp as [Hc Hty _ Hs _].
  unfold exchange_fields, exchange_body, exchange_flags. rewrite E1, E2, E3. cbn [int_of bytes_of].
  eapply emits_then; [apply emits_write; apply writes_u32|].
  eapply emits_then.
  { apply emits_write. cbn [write_sign]. rewrite take_ge by (rewrite Hl; done). apply writes_bytes. }
  eapply emits_then.
  { apply (emits_exchange_field p exchange_fromPeerid); [done|by left|done|].
    cbn [exchange_fromPeerid fd_name]. unfold typed_value in H4. by destruct (pk_member p s_fieldName_fromPeerid). }
  eapply emits_then.
  { apply (emits_exchange_field p exchange_peerInfo); [done|by right|done|done]. }
  apply emits_write. cbn [write_time]. rewrite <- le_bytes_i64. apply writes_i64.
Qed.

Lemma encode_exchange p s :
  exchange_ok p → room (exchange_bytes p) s →
  EncodeExchangeKeyPackage p NoRef s =
    Some (BFX_RESULT_SUCCESS, exchange_flags p, length (exchange_bytes p), written (exchange_bytes p) s).
Proof.
  intros Hp Hroom. pose proof (emits_exchange p Hp) as He. pose proof (ex_length p Hp) as Hlen.
  pose proof Hroom as [Hr Hl]. rewrite length_exchange_bytes in Hr. unfold EncodeExchangeKeyPackage.
  unfold BfxBufferStreamGetPos. rewrite SetPos_ok by lia. cbn [mbind option_bind usable_reference].
  rewrite He by (split; cbn [bs_pos bs_length bs_buffer]; lia). cbn [mbind option_bind en_stream en_flags en_total].
  cbn [negb Z.eqb BFX_RESULT_SUCCESS].
  rewrite length_exchange_bytes. unfold exchange_bytes. remember (exchange_body p) as bs eqn:Ebs. clear Ebs.
  set (s4 := mkStream (bs_buffer s) (bs_length s) (bs_pos s + 2 + 2)).
  assert (Hb4 : length (bs_buffer (written bs s4)) = length (bs_buffer s)).
  { rewrite length_written; [done|]. cbn. lia. }
  assert (Hl4 : bs_length (written bs s4) = bs_length s) by done.
  rewrite SetPos_ok by (cbn; lia). cbn [mbind option_bind].
  rewrite u16_id by lia. set (total := Z.of_nat (4 + length bs)).
  rewrite writes_u16 by (split;
    [change (bs_pos s + 2 ≤ bs_length s)%nat|change (bs_length s ≤ length (bs_buffer (written bs s4)))%nat; rewrite Hb4]; lia).
  cbn [mbind option_bind].
  set (sh := mkStream (bs_buffer (written bs s4)) (bs_length (written bs s4)) (bs_pos s)).
  assert (Hbh : length (bs_buffer (written (le_bytes 2 total) sh)) = length (bs_buffer s)).
  { rewrite length_written; [exact Hb4|].
    change (bs_pos s + 2 ≤ length (bs_buffer (written bs s4)))%nat. rewrite Hb4. lia. }
  rewrite writes_u16 by (split;
    [change (bs_pos s + 2 + 2 ≤ bs_length s)%nat|rewrite Hbh; change (bs_length s ≤ length (bs_buffer s))%nat]; lia).
  cbn [mbind option_bind]. rewrite written_app
    by (rewrite !length_le_bytes; change (bs_pos s + 2 + 2 ≤ length (bs_buffer (written bs s4)))%nat; rewrite Hb4; lia).
  set (hd := le_bytes 2 total ++ le_bytes 2 (exchange_flags p)).
  assert (Hhd : length hd = 4%nat) by (unfold hd; by rewrite length_app, !length_le_bytes).
  assert (Hp4 : bs_pos (written bs s4) = (bs_pos s + (4 + length bs))%nat).
  { unfold written, s4. cbn [bs_pos]. lia. }
  assert (Hlh : bs_length (written hd sh) = bs_length s) by done.
  rewrite SetPos_ok by (rewrite Hlh, Hp4; lia). cbn [mbind option_bind]. rewrite Hlh, Hp4.
  do 2 f_equal. rewrite (app_assoc (le_bytes 2 total)). fold hd.
  assert (Hbuf : bs_buffer (written hd sh) = bs_buffer (written (hd ++ bs) s)).
  { pose proof (written_before hd bs s4 (bs_pos s)) as Hw. cbn [s4 bs_pos bs_buffer bs_length] in Hw.
    unfold sh. rewrite Hl4, Hw by (rewrite ?Hhd; lia). by destruct s. }
  rewrite Hbuf. unfold written at 2. cbn [bs_buffer bs_length bs_pos]. by f_equal; rewrite length_app, Hhd.
Qed.

(** What is read of a field that was sent. *)
Lemma parses_sent_field fd v cmdflags ref q :
  has_flag cmdflags (fd_flag fd) = true → typed_value (fd_kind fd) v → sendable v →
  fd_kind fd ≠ KSign ∧ fd_kind fd ≠ KTinySign →
  parses_to (decode_field uninit cmdflags ref fd q) (field_bytes (fd_kind fd) v)
    (λ q', ∃ w, same_value v w ∧ q' = set_member q (fd_name fd) w).
Proof.
  intros Hf Ht Hs Hk. unfold decode_field. rewrite Hf. rewrite <- (app_nil_r (field_bytes _ _)).
  eapply parses_to_bind; [by apply parses_field|]. intros w Hw. eapply parses_to_intro; [apply parses_ret|by exists w].
Qed.

Lemma exchange_flags_set p fd :
  fd = exchange_fromPeerid ∨ fd = exchange_peerInfo → has_flag (exchange_flags p) (fd_flag fd) = true.
Proof.
  unfold exchange_flags, BDT_EXCHANGEKEY_PACKAGE_FLAG_FROMPEERID, BDT_EXCHANGEKEY_PACKAGE_FLAG_PEERINFO.
  intros [-> | ->]; cbn [fd_flag exchange_fromPeerid exchange_peerInfo];
    unfold BDT_EXCHANGEKEY_PACKAGE_FLAG_FROMPEERID, BDT_EXCHANGEKEY_PACKAGE_FLAG_PEERINFO;
    rewrite !has_put_flag by lia; done.
Qed.

Lemma parses_exchange p ref q :
  exchange_ok p → pk_cmdtype q = BDT_EXCHANGEKEY_PACKAGE →
  parses_to (decode_exchange uninit q ref) (le_bytes 2 (exchange_flags p) ++ exchange_body p) (same_package p).
Proof.
  intros Hp Hq. destruct (exchange_members p Hp) as ((seq & E1 & Hseq) & (sign & E2 & Hl) & (t & E3 & Ht) & H4 & H5).
  unfold decode_exchange, exchange_body. rewrite E1, E2, E3. cbn [int_of bytes_of].
  eapply parses_to_bind; [by eapply (parses_to_intro _ _ _ (eq (exchange_flags p))); [apply parses_u16, put_flag_range|]|].
  intros cmdflags <-.
  eapply parses_to_bind; [by eapply (parses_to_intro _ _ _ (eq seq)); [apply parses_u32|]|]. intros seq' <-.
  eapply parses_to_bind.
  { eapply (parses_to_intro _ _ _ (eq sign)); [|done]. rewrite <- Hl. apply parses_bytes. rewrite Hl. by vm_compute. }
  intros sign' <-.
  eapply parses_to_bind.
  { apply (parses_sent_field exchange_fromPeerid); [by apply exchange_flags_set; left|done| |done].
    unfold typed_value in H4. cbn [fd_name exchange_fromPeerid]. by destruct (pk_member p s_fieldName_fromPeerid). }
  intros q1 (from & Hfrom & ->).
  eapply parses_to_bind.
  { apply (parses_sent_field exchange_peerInfo); [by apply exchange_flags_set; right|done|by apply ex_sendable|done]. }
  intros q2 (info & Hinfo & ->).
  eapply parses_to_intro; [by apply (parses_map _ (λ v, set_member _ _ (VInt v))); apply parses_u64|].
  split; [by rewrite (ex_type p Hp)|]. intros n kind Hn. rewrite (ex_type p Hp) in Hn.
  destruct n; try discriminate Hn; cbn [set_member set_cmdflags pk_member exchange_fromPeerid exchange_peerInfo fd_name];
    repeat (rewrite decide_True by done || rewrite decide_False by done); rewrite ?E1, ?E2, ?E3; done.
Qed.

Lemma decode_exchange_package p ref s rest :
  exchange_ok p → ready s (exchange_bytes p) rest → (bs_pos s + length (exchange_bytes p) + 2 ≤ bs_length s)%nat →
  ∃ q, same_package p q ∧
    DecodeExchangeKeyPackage uninit Bdt_ExchangeKeyPackageCreate ref s =
    Some (Some q, advance (length (exchange_bytes p)) s).
Proof.
  intros Hp Hready Htail. pose proof (ex_length p Hp) as Hlen. pose proof (exchange_body_length p Hp) as Hmin.
  rewrite length_exchange_bytes in *. unfold exchange_bytes in Hready. apply ready_split in Hready as [Hr1 Hr2].
  rewrite length_le_bytes in Hr2. unfold DecodeExchangeKeyPackage.
  set (total := Z.of_nat (4 + length (exchange_body p))) in *.
  assert (Ht : 144 ≤ total) by (unfold total; lia).
  rewrite (dec_read_done _ _ _ _ _ _ (parses_u16 total ltac:(lia) 0 _ _ Hr1)), length_le_bytes.
  cbn [mbind option_bind]. unfold BfxBufferStreamGetTailLength.
  rewrite option_guard_True by (cbn; lia). cbn [mbind option_bind].
  destruct (Z.ltb_spec (Z.of_nat (bs_length (advance 2 s) - bs_pos (advance 2 s))) total).
  { exfalso. cbn in *. unfold total in *. lia. }
  destruct (Z.ltb_spec total (Bdt_GetPackageMinSize BDT_EXCHANGEKEY_PACKAGE)).
  { exfalso. revert H0. change (Bdt_GetPackageMinSize BDT_EXCHANGEKEY_PACKAGE) with
      (ltac:(let x := eval vm_compute in (Bdt_GetPackageMinSize BDT_EXCHANGEKEY_PACKAGE) in exact x)). lia. }
  destruct (parses_exchange p ref Bdt_ExchangeKeyPackageCreate Hp eq_refl (0 + Z.of_nat 2 - 0) _ _ Hr2) as (q & Hq & ->).
  cbn [mbind option_bind de_stream de_read]. exists q. split; [done|].
  rewrite length_app, length_le_bytes, advance_add.
  destruct (Z.eqb_spec total (0 + Z.of_nat 2 - 0 + Z.of_nat (2 + length (exchange_body p)))) as [_|Hne];
    [done|unfold total in Hne; lia].
Qed.

(** ** The packages of a datagram

    With [start] the first one is the exchange of a key: it is read with
    [isStartWithExchangeKey], and at least one package must follow it. *)

Definition body_ok (start : bool) (packages : list AnyPackage) : Prop :=
  if start then
    match packages with
    | Fields p :: others => exchange_ok p ∧ others ≠ [] ∧ datagram_ok others (Some (Fields p)) None
    | _ => False
    end
  else datagram_ok packages None None.

Definition body_bytes (start : bool) (packages : list AnyPackage) : list Z :=
  match start, packages with
  | true, Fields p :: others => exchange_bytes p ++ datagram_bytes others (Some (Fields p)) None
  | _, _ => datagram_bytes packages None None
  end.

Lemma exchange_typed_any p : exchange_ok p → typed_any (Some (Fields p)).
Proof. intros Hp q [= <-]. by apply ex_typed. Qed.

Lemma encode_body start packages buffer n :
  body_ok start packages → (length (body_bytes start packages) ≤ n)%nat → (n ≤ length buffer)%nat →
  Bdt_EncodePackage packages None buffer n =
  Some (BFX_RESULT_SUCCESS, length (body_bytes start packages),
        body_bytes start packages ++ drop (length (body_bytes start packages)) buffer).
Proof.
  intros Hok Hn Hb. unfold Bdt_EncodePackage. set (s := BfxBufferStreamInit buffer n).
  destruct start; cbn [body_ok body_bytes] in *; [destruct packages as [|[p|p] others]; try done|].
  - destruct Hok as (Hp & _ & Hok). rewrite length_app in *. cbn [encode_loop].
    rewrite bool_decide_eq_false_2 by (by intros [? ?]). rewrite andb_false_r.
    unfold Bdt_EncodeSinglePackage. rewrite (ex_type p Hp). cbn [Z.eqb BDT_EXCHANGEKEY_PACKAGE].
    assert (Hroom : room (exchange_bytes p) s).
    { split; [change (0 + length (exchange_bytes p) ≤ n)%nat|change (n ≤ length buffer)%nat]; lia. }
    assert (Hlw : length (bs_buffer (written (exchange_bytes p) s)) = length buffer).
    { apply length_written. change (0 + length (exchange_bytes p) ≤ length buffer)%nat. lia. }
    rewrite encode_exchange by done. cbn [mbind option_bind negb Z.eqb BFX_RESULT_SUCCESS default].
    rewrite (encode_loop_spec uninit); [|done|by apply exchange_typed_any|done|].
    + cbn [mbind option_bind]. rewrite written_app
        by (change (0 + length (exchange_bytes p) + length (datagram_bytes others (Some (Fields p)) None) ≤ length buffer)%nat; lia).
      unfold written. by rewrite length_app.
    + split; [change (length (exchange_bytes p) + length (datagram_bytes others (Some (Fields p)) None) ≤ n)%nat; lia|].
      by rewrite Hlw.
  - rewrite (encode_loop_spec uninit) by (done || (split; cbn; lia)). done.
Qed.

Lemma decode_body start packages rest capacity :
  body_ok start packages → (2 ≤ length rest)%nat → (length packages ≤ capacity)%nat → (0 < capacity)%nat →
  ∃ qs, Forall2 same_any packages qs ∧
    Bdt_DecodePackage uninit (body_bytes start packages ++ rest) (length (body_bytes start packages)) None capacity start =
    Some (0, qs).
Proof.
  intros Hok Hrest Hcap Hc. unfold Bdt_DecodePackage. rewrite option_guard_True by done. cbn [mbind option_bind].
  set (s := BfxBufferStreamInit _ _).
  assert (Hready : ready s (body_bytes start packages) rest).
  { split; [|by cbn]. unfold reads. cbn. split; [rewrite length_app; lia|done]. }
  destruct start; cbn [body_ok body_bytes] in *; [destruct packages as [|[p|p] others]; try done|].
  - destruct Hok as (Hp & Hne & Hok). destruct others as [|o others]; [done|]. remember (o :: others) as l eqn:El.
    assert (Hl : (5 ≤ length (datagram_bytes l (Some (Fields p)) None))%nat).
    { rewrite El in *. destruct Hok as [Ho _].
      destruct (single_wire uninit o _ (given_reference (reference_of (Some (Fields p)) None)) Ho) as (f' & Hw).
      - by apply reference_typed; [apply exchange_typed_any|].
      - apply same_ref_refl.
      - cbn [datagram_bytes]. rewrite length_app. pose proof (wi_length _ _ _ _ _ _ Hw). lia. }
    destruct (ready_split _ _ _ _ Hready) as [H1 H2].
    destruct (decode_exchange_package p (as_reference <$> None) s _ Hp H1) as (q & Hq & E).
    { change (length (exchange_bytes p) + 2 ≤ length (exchange_bytes p ++ datagram_bytes l (Some (Fields p)) None))%nat.
      rewrite length_app. lia. }
    rewrite E. cbn [mbind option_bind]. unfold store_result. rewrite option_guard_True by done. cbn [mbind option_bind app].
    destruct (decode_loop_spec uninit capacity l (Some (Fields p)) None None [Fields q]
      (S (length (exchange_bytes p ++ datagram_bytes l (Some (Fields p)) None)))
      (advance (length (exchange_bytes p)) s) rest Hok) as (qs & Hqs & Ed); try done.
    + by apply exchange_typed_any.
    + by constructor.
    + constructor.
    + change (length (exchange_bytes p ++ datagram_bytes l (Some (Fields p)) None) =
        (0 + length (exchange_bytes p)) + length (datagram_bytes l (Some (Fields p)) None))%nat. by rewrite length_app.
    + rewrite length_app. lia.
    + exists (Fields q :: qs). split; [by constructor|exact Ed].
  - destruct (decode_loop_spec uninit capacity packages None None None [] (S (length (datagram_bytes packages None None)))
      s rest Hok) as (qs & Hqs & Ed); try done; [constructor|constructor|lia|].
    exists qs. by split.
Qed.
End exchange.
