(* ===== verification/UdpProofs.v ===== *)
(** * What the UDP interface relies on, and what its parts do

    The laws of the key manager, of the hash and of RSA ([KeyServiceLaws],
    [CryptoLaws]), the key manager of this repository as an instance, and the
    lemmas on the parts of a datagram that [UdpTheorems] composes. *)

From S2P Require Import Prelude CInt Package BufferStream Codec SessionCodec Endpoint PackageFields PackageCodec PackageProofs HandCodec MergedPackages MergedProofs SgTree SgList KeyManager KeyProofs KeyTheorems KeyAdd AesPadding Crypto UdpBox ExchangeProofs.

(** ** Interfaces *)

(** What the documentation of the library says: SHA-256 answers 32 bytes; what
    is encrypted for a key pair is as long as the key and is decrypted to the
    data, if that leaves room for the padding of PKCS#1. *)
Class CryptoLaws (B : Mbedtls) := {
  sha256_hash : list Z → list Z;
  sha256_ret_hash data : sha256_ret data = inr (sha256_hash data);
  length_sha256_hash data : length (sha256_hash data) = 32%nat;
  key_pair : mbedtls_public → mbedtls_secret → Prop;
  pk_encrypted : mbedtls_public → list Z → list Z;
  pk_encrypts pk sk data osize :
    key_pair pk sk → (length data + 11 ≤ pk_rsa_len sk)%nat → Z.of_nat (pk_rsa_len sk) ≤ osize →
    pk_encrypt pk data osize = inr (pk_encrypted pk data) ∧ length (pk_encrypted pk data) = pk_rsa_len sk;
  pk_decrypts pk sk data n :
    key_pair pk sk → (length data + 11 ≤ pk_rsa_len sk)%nat → (length data ≤ n)%nat →
    pk_decrypt sk (pk_encrypted pk data) n = inr data }.

(** The hash by which a key is named in a datagram. *)
Definition key_hash {B : Mbedtls} {C : CryptoLaws B} (aesKey : list Z) : list Z :=
  take MIX_HASH_BYTES (sha256_hash aesKey).

Lemma length_key_hash {B : Mbedtls} {C : CryptoLaws B} aesKey : length (key_hash aesKey) = 8%nat.
Proof. unfold key_hash. rewrite length_take, length_sha256_hash. done. Qed.

(** The key manager as a set of keys with their peers: what is found by a hash
    is in the set and answers to it, a key is found by its own hash, and adding
    adds. *)
Class KeyServiceLaws {B : Mbedtls} (C : CryptoLaws B) (St : Type) (K : KeyService St) := {
  key_state_ok : St → Prop;
  key_pairs : St → gset (list Z * list Z);
  answers_to : list Z → list Z → Prop;
  FindByMixHash_law s h touch confirmed :
    key_state_ok s → length h = MIX_HASH_BYTES → ∃ r o s',
      FindByMixHash h touch confirmed s = Some ((r, o), s') ∧ key_state_ok s' ∧ key_pairs s' = key_pairs s ∧
      match o with
      | Some (key, peer) => r = BFX_RESULT_SUCCESS ∧ (key, peer) ∈ key_pairs s ∧ answers_to key h
      | None => r ≠ BFX_RESULT_SUCCESS ∧ ∀ key peer, (key, peer) ∈ key_pairs s → key_hash key ≠ h
      end;
  AddKey_law s key peer confirmed :
    key_state_ok s → length key = BDT_AES_KEY_LENGTH → length peer = BDT_PEERID_LENGTH → ∃ r s',
      AddKey key peer confirmed s = Some (r, s') ∧ key_state_ok s' ∧
      key_pairs s' = {[(key, peer)]} ∪ key_pairs s }.

(** ** The key manager provides it *)

Section manager.
Context {B : Mbedtls} {C : CryptoLaws B}.
Context (asserts : bool) (activeTime : Z) (clock : nat → Z) (storageUpdate : StorageCall → Z).

(** [Bdt_Sha256Hash] for the key manager. *)
Definition sha256_of (data : list Z) : option (list Z) :=
  match sha256_ret data with inr h => Some h | inl _ => None end.

Lemma sha256_of_hash data : sha256_of data = Some (sha256_hash data).
Proof. unfold sha256_of. by rewrite sha256_ret_hash. Qed.

#[export] Instance manager_service : KeyService KeyManager := {|
  FindByMixHash := BdtHistory_KeyManagerFindByMixHash asserts activeTime clock sha256_of storageUpdate;
  AddKey := BdtHistory_KeyManagerAddKey asserts activeTime clock sha256_of storageUpdate |}.

Lemma hash_of_key key : hash_of sha256_of key [] = key_hash key.
Proof. unfold hash_of, CalcKeyHashImpl. by rewrite app_nil_r, sha256_of_hash. Qed.

#[export] Program Instance manager_laws : KeyServiceLaws C KeyManager manager_service := {|
  key_state_ok := sound sha256_of;
  key_pairs := pairs;
  answers_to := hashes_to sha256_of |}.
Next Obligation.
  intros s h touch confirmed Hs Hh.
  assert (Hsha : ∀ bs, is_Some (sha256_of bs)) by (intros bs; rewrite sha256_of_hash; by eexists).
  destruct (FindByMixHash_runs asserts activeTime clock sha256_of storageUpdate Hsha s h touch confirmed Hs)
    as ([r o] & s' & E & Hs' & Ei & Hf).
  exists r, o, s'. split; [exact E|]. split; [done|]. split; [unfold pairs; by rewrite Ei|].
  unfold found_by_hash in Hf; cbn [fst snd] in Hf. destruct o as [[key peer]|], Hf as [-> Hf]; (split; [done|]).
  - destruct Hf as (id & Hid & Hto). split; [|done]. apply elem_of_pairs. by exists id.
  - intros key peer (id & Hid)%elem_of_pairs E'. apply (Hf id key peer Hid). rewrite hash_of_key, E'. apply memcmp_refl.
Qed.
Next Obligation.
  intros s key peer confirmed Hs H1 H2.
  assert (Hsha : ∀ bs, is_Some (sha256_of bs)) by (intros bs; rewrite sha256_of_hash; by eexists).
  destruct (AddKey_runs asserts activeTime clock sha256_of storageUpdate Hsha s key peer confirmed Hs H1 H2)
    as (r & s' & E & Hs' & _ & Hp). by exists r, s'.
Qed.
End manager.

(** ** Parts of a datagram *)

Section parts.
Context {P : PeerInfoOps} {L : PeerInfoLaws P}.
Context {A : AesOps} {AL : AesLaws A} {B : Mbedtls} {C : CryptoLaws B}.
Context (uninit junk udpDecryptBuffer : list Z).

(** The packages with room behind the first ones. *)
Definition filled (qs : list AnyPackage) (packages : Packages) : Packages := (Some <$> qs) ++ drop (length qs) packages.

Lemma fill_packages_filled q qs packages : fill_packages (q :: qs) packages = filled (q :: qs) packages.
Proof. done. Qed.

Lemma same_any_nonempty ps qs : Forall2 same_any ps qs → ps ≠ [] → ∃ q l, qs = q :: l.
Proof. intros H Hne. destruct H as [|p q ps qs]; [done|]. by eexists _, _. Qed.

Lemma body_bytes_positive start packages :
  body_ok start packages → packages ≠ [] → (0 < length (body_bytes start packages))%nat.
Proof.
  intros Hok Hne. destruct packages as [|p others]; [done|]. destruct start; cbn [body_ok body_bytes] in *.
  - destruct p; [|done]. rewrite length_app, length_exchange_bytes. lia.
  - destruct Hok as [Hp _]. cbn [datagram_bytes]. rewrite length_app.
    destruct (single_wire uninit p _ (given_reference (reference_of None None)) Hp) as (f' & Hw).
    + done.
    + apply same_ref_refl.
    + pose proof (wi_length _ _ _ _ _ _ Hw). lia.
Qed.

Lemma body_decodes start packages rest (out : Packages) :
  body_ok start packages → packages ≠ [] → (2 ≤ length rest)%nat → (length packages ≤ length out)%nat →
  ∃ qs, Forall2 same_any packages qs ∧
    decode_into uninit (body_bytes start packages ++ rest) (length (body_bytes start packages)) None out start =
    Some (true, filled qs out).
Proof.
  intros Hok Hne Hrest Hcap.
  destruct (decode_body uninit start packages rest (length out) Hok Hrest Hcap) as (qs & Hqs & E).
  { destruct packages; [done|]. cbn in Hcap. lia. }
  exists qs. split; [done|]. unfold decode_into. rewrite E. cbn [mbind option_bind].
  rewrite bool_decide_eq_true_2 by done. destruct (same_any_nonempty _ _ Hqs Hne) as (q & l & ->). done.
Qed.

Lemma size_sub_id n k : 0 ≤ k ≤ n → n < 2 ^ 64 → size_sub n k = n - k.
Proof. intros H1 H2. unfold size_sub. apply Z.mod_small. lia. Qed.

(** Encrypting behind a head, and decrypting there. *)
Lemma box_encrypted_runs start packages key head rest n :
  body_ok start packages → let len := aes_length (length (body_bytes start packages)) in
  (length head + len ≤ n ≤ length (head ++ rest))%nat → Z.of_nat n < 2 ^ 64 →
  ∃ tail, box_encrypted packages None key (length head) (head ++ rest) (Z.of_nat n) =
    Some (BFX_RESULT_SUCCESS, head ++ aes_cipher key (body_bytes start packages) ++ tail, Z.of_nat (length head + len)) ∧
    (length head + len + length tail = length (head ++ rest))%nat.
Proof.
  intros Hok len [Hn Hb] H64. rewrite length_app in Hb. pose proof (aes_length_bounds (length (body_bytes start packages))) as Hl.
  unfold box_encrypted. rewrite size_sub_id by lia.
  replace (Z.of_nat n - Z.of_nat (length head)) with (Z.of_nat (n - length head)) by lia. rewrite Nat2Z.id, drop_app_length.
  rewrite (encode_body uninit start) by (done || (unfold len in *; lia)). cbn [mbind option_bind]. rewrite decide_False by tauto.
  set (d := body_bytes start packages) in *.
  destruct (split_at (drop (length d) rest) (len - length d)) as (a & t & E & Ha).
  { rewrite length_drop. unfold len in *. lia. }
  rewrite E, aes_encrypts by (done || (unfold len in *; lia)). cbn [mbind option_bind].
  rewrite take_app_length, decide_False by lia. exists t. split; [do 3 f_equal; unfold len; lia|].
  apply (f_equal length) in E. rewrite length_drop, length_app in E. rewrite length_app. unfold len in *. lia.
Qed.

Lemma decrypt_and_decode_runs start packages key head more (out : Packages) :
  body_ok start packages → packages ≠ [] → (length packages ≤ length out)%nat →
  let len := aes_length (length (body_bytes start packages)) in
  (len ≤ length udpDecryptBuffer)%nat → (length (body_bytes start packages) + 2 ≤ length udpDecryptBuffer)%nat →
  Z.of_nat (length head + len) < 2 ^ 64 →
  ∃ qs, Forall2 same_any packages qs ∧
    decrypt_and_decode uninit udpDecryptBuffer key (head ++ aes_cipher key (body_bytes start packages) ++ more)
      (length head + len) (length head) None out start = Some (true, filled qs out).
Proof.
  intros Hok Hne Hcap len Hbuf Hbuf2 H64. unfold decrypt_and_decode. rewrite drop_app_length.
  rewrite size_sub_id by lia. replace (Z.of_nat (length head + len) - Z.of_nat (length head)) with (Z.of_nat len) by lia.
  destruct (aes_decrypts key (body_bytes start packages) more udpDecryptBuffer Hbuf) as (output' & E & Hlen).
  fold len in E. rewrite E. cbn [mbind option_bind]. pose proof (body_bytes_positive _ _ Hok Hne). rewrite decide_True by lia. rewrite Nat2Z.id.
  apply body_decodes; [done|done| |done]. rewrite length_app in Hlen. lia.
Qed.

Lemma CalcKeyHash_runs key buffer :
  (8 ≤ length buffer)%nat → CalcKeyHash key buffer = Some (key_hash key ++ drop 8 buffer).
Proof.
  intros Hb. unfold CalcKeyHash. rewrite sha256_ret_hash. fold (key_hash key).
  destruct (split_at buffer 8 Hb) as (a & b & -> & Ha). rewrite put_bytes_front by by rewrite length_key_hash.
  by rewrite <- Ha, drop_app_length.
Qed.

Lemma HashAesKey_hash key : Bdt_HashAesKey junk key = key_hash key.
Proof. unfold Bdt_HashAesKey, Bdt_Sha256Hash. by rewrite sha256_ret_hash. Qed.

Lemma CheckAesKeyHash_own key : Bdt_CheckAesKeyHash junk key (key_hash key) = true.
Proof.
  unfold Bdt_CheckAesKeyHash, Bdt_Sha256Hash. rewrite sha256_ret_hash. cbn [snd].
  apply bool_decide_eq_true_2. unfold key_hash. by rewrite take_take.
Qed.

(** A datagram that does not begin with the magic bytes is not read as clear. *)
Lemma UnboxUdpPackage_skips head data bytes ref (out : Packages) :
  (2 ≤ length head)%nat → take 2 head ≠ [BDT_PROTOCOL_UDP_MAGIC_NUM_0; BDT_PROTOCOL_UDP_MAGIC_NUM_1] →
  UnboxUdpPackage uninit (head ++ data) bytes ref out = Some (false, out).
Proof.
  intros Hh Hm. unfold UnboxUdpPackage. destruct (split_at head 2 Hh) as (a & b & -> & Ha).
  rewrite <- app_assoc, <- Ha, get_bytes_front. cbn [mbind option_bind]. rewrite decide_False; [done|].
  by rewrite <- Ha, take_app_length in Hm.
Qed.
End parts.
