(* ===== verification/UdpTheorems.v ===== *)
(** * Datagrams: the theorems

    What one side boxes the other unboxes, in the clear, with a key both have,
    and with a key the datagram brings, which the receiver then has; which
    packages of a datagram are handled and freed; and the datagrams that a
    receiver does not survive. *)

From S2P Require Import Prelude CInt Package BufferStream Codec SessionCodec Endpoint PackageFields PackageCodec PackageProofs HandCodec MergedPackages MergedProofs SgTree SgList KeyManager KeyProofs KeyTheorems KeyAdd AesPadding Crypto UdpBox ExchangeProofs PeerInfo PeerProofs MergedTheorems UdpProofs.

(** The id of a peer is part of its content. *)
Class PeeridLaws (P : PeerInfoOps) (L : PeerInfoLaws P) (peerid_of : PeerInfo → list Z) : Prop := {
  same_peerid info o :
    same_peer_info (Some info) o → ∃ info', o = Some info' ∧ peerid_of info' = peerid_of info;
  length_peerid info : peer_info_ok (Some info) → length (peerid_of info) = BDT_PEERID_LENGTH }.

Section unbox.
Context {P : PeerInfoOps} {L : PeerInfoLaws P} (peerid_of : PeerInfo → list Z) {PL : PeeridLaws P L peerid_of}.
Context {A : AesOps} {AL : AesLaws A} {B : Mbedtls} {C : CryptoLaws B}.
Context {St : Type} {K : KeyService St} {KL : KeyServiceLaws C St K}.
Context (uninit junk udpDecryptBuffer : list Z).

Notation unbox := (Bdt_UnboxUdpPackage peerid_of uninit junk udpDecryptBuffer).
Notation magic := [BDT_PROTOCOL_UDP_MAGIC_NUM_0; BDT_PROTOCOL_UDP_MAGIC_NUM_1].

(** The packages of a datagram fit into the array and into the buffer of the
    receiver. *)
Record fits_receiver (start : bool) (packages : list AnyPackage) (out : Packages) : Prop := {
  fr_body : body_ok start packages;
  fr_some : packages ≠ [];
  fr_count : (length packages ≤ length out)%nat;
  fr_array : (BDT_MAX_PACKAGE_MERGE_LENGTH ≤ length out)%nat;
  fr_cipher : (aes_length (length (body_bytes start packages)) ≤ length udpDecryptBuffer)%nat;
  fr_buffer : (length (body_bytes start packages) + 2 ≤ length udpDecryptBuffer)%nat }.


(** The keys of the receiver of an exchange. *)
Record exchange_keys (remotePublic secret : list Z) (pk : mbedtls_public) (sk : mbedtls_secret) : Prop := {
  ek_public : pk_parse_public_key remotePublic = inr pk;
  ek_secret : pk_parse_key secret = inr sk;
  ek_pair : key_pair pk sk;
  ek_length : (43 ≤ pk_rsa_len sk)%nat }.

(** A datagram that begins with the encrypted key is tried with the keys of the
    receiver in vain. *)
Lemma unbox_reaches_exchange pk sk remotePublic secret aesKey data more out s :
  exchange_keys remotePublic secret pk sk → length aesKey = BDT_AES_KEY_LENGTH →
  let head := pk_encrypted pk aesKey in
  (BDT_MAX_PACKAGE_MERGE_LENGTH ≤ length out)%nat →
  key_state_ok s → take 2 head ≠ magic → (∀ key peer, (key, peer) ∈ key_pairs s → ¬ answers_to key (take 8 head)) →
  ∃ s', key_state_ok s' ∧ key_pairs s' = key_pairs s ∧
    unbox ((head ++ data) ++ more) (length (head ++ data)) out None secret s =
    unbox_exchange peerid_of uninit junk udpDecryptBuffer ((head ++ data) ++ more) (length (head ++ data)) secret None
      (mkUnboxed out None None true false) s'.
Proof.
  intros [Hpk Hsk Hpair Hlen] Hkey head Ha Hs Hm Hnone.
  destruct (pk_encrypts pk sk aesKey (Z.of_nat (pk_rsa_len sk)) Hpair) as [_ Hl];
    [rewrite Hkey; unfold BDT_AES_KEY_LENGTH; lia|lia|].
  assert (Hh : length (take 8 head) = 8%nat) by (unfold head; rewrite length_take, Hl; lia).
  destruct (FindByMixHash_law s (take 8 head) true true Hs Hh) as (r & o & s' & Ef & Hs' & Ep & Ho).
  destruct o as [[key peer]|]; [by destruct Ho as (_ & Hin & Hto); destruct (Hnone _ _ Hin)|]. destruct Ho as [Hr _].
  exists s'. split; [done|]. split; [done|]. unfold Bdt_UnboxUdpPackage.
  erewrite M_bind_Some by by apply massert_Some, bool_decide_eq_true_2. cbn beta. fold head in Hl.
  rewrite length_app, Hl, decide_False by (unfold BDT_PROTOCOL_MIN_PACKAGE_LENGTH; lia). rewrite <- app_assoc.
  erewrite M_bind_Some by (apply mread_Some, UnboxUdpPackage_skips; [lia|done]). cbn beta iota.
  rewrite decide_False by (unfold BDT_PROTOCOL_MIN_CRYPTO_PACKAGE_LENGTH; lia).
  assert (Eg : get_bytes (head ++ data ++ more) 0 MIX_HASH_BYTES = Some (take 8 head)).
  { change MIX_HASH_BYTES with 8%nat. rewrite <- Hh at 1. rewrite <- (take_drop 8 head) at 1. rewrite <- app_assoc.
    apply get_bytes_front. }
  erewrite M_bind_Some by (apply mread_Some; exact Eg). cbn beta.
  erewrite M_bind_Some by exact Ef. cbn beta iota. by rewrite decide_False by done.
Qed.

(** What the receiver makes of the rest. *)
Lemma UnboxExchange_runs pk sk remotePublic secret aesKey more data out :
  exchange_keys remotePublic secret pk sk → length aesKey = BDT_AES_KEY_LENGTH →
  let head := pk_encrypted pk aesKey ++ key_hash aesKey in
  UnboxExchangeUdpPackage uninit junk udpDecryptBuffer ((head ++ data) ++ more) (length (head ++ data)) secret None out =
    ('(ok, packages) ← decrypt_and_decode uninit udpDecryptBuffer aesKey (head ++ data ++ more) (length (head ++ data))
                         (length head) None out true;
     Some (if (ok : bool) then Some aesKey else None, packages)).
Proof.
  intros [Hpk Hsk Hpair Hlen] Hkey head. destruct (pk_encrypts pk sk aesKey (Z.of_nat (pk_rsa_len sk)) Hpair) as [_ Hl];
    [rewrite Hkey; unfold BDT_AES_KEY_LENGTH; lia|lia|].
  unfold UnboxExchangeUdpPackage, Bdt_RsaDecrypt. rewrite Hsk, <- app_assoc.
  assert (E1 : get_bytes (head ++ data ++ more) 0 (pk_rsa_len sk) = Some (pk_encrypted pk aesKey)).
  { unfold head. rewrite <- app_assoc, <- Hl. apply get_bytes_front. }
  rewrite E1. cbn [mbind option_bind]. rewrite pk_decrypts by (done || (rewrite Hkey; unfold BDT_AES_KEY_LENGTH, AES_KEY_BYTES; lia)).
  assert (E2 : get_bytes (head ++ data ++ more) (pk_rsa_len sk) 8 = Some (key_hash aesKey)).
  { unfold head. rewrite <- app_assoc, <- Hl, <- (length_key_hash aesKey) at 1. apply get_bytes_app. }
  rewrite E2. cbn [mbind option_bind]. rewrite CheckAesKeyHash_own.
  replace (length head) with (pk_rsa_len sk + 8)%nat; [done|]. unfold head. rewrite length_app, Hl, length_key_hash. done.
Qed.

(** The peer of the exchange that is read is the one of the exchange that was
    signed. *)
Lemma exchange_peer_read pkg signed q info aesKey ownSecret qs out :
  sign_exchange pkg aesKey ownSecret = Some (inr signed) → pk_member pkg s_fieldName_peerInfo = VPeerInfo (Some info) →
  exchange_ok signed → same_any (Fields signed) (Fields q) →
  ∃ info', exchange_peerid peerid_of (filled (Fields q :: qs) out) = Some (Some (peerid_of info')) ∧
    peerid_of info' = peerid_of info ∧ peer_info_ok (Some info).
Proof.
  intros Hsign Hinfo Hex [Hcmd Hmem]. pose proof (ex_type _ Hex) as Htype.
  assert (Esig : pk_member signed s_fieldName_peerInfo = VPeerInfo (Some info)).
  { unfold sign_exchange in Hsign. destruct (pk_member pkg s_fieldName_seq); try done.
    destruct (Bdt_RsaSignMd5 _ _); [done|]. injection Hsign as <-. cbn. by rewrite decide_False by done. }
  specialize (Hmem s_fieldName_peerInfo KPeerInfo). rewrite Htype in Hmem. specialize (Hmem eq_refl).
  rewrite Esig in Hmem. cbn [same_value] in Hmem. destruct (pk_member q s_fieldName_peerInfo) as [| |o| |] eqn:Eq; try done.
  destruct (same_peerid info o Hmem) as (info' & -> & Eid). exists info'.
  cbn [filled fmap list_fmap app exchange_peerid]. rewrite decide_True by congruence. rewrite Eq.
  split; [done|]. split; [done|]. pose proof (ex_sendable _ Hex) as Hse. by rewrite Esig in Hse.
Qed.

(** C4: Packages that begin with the exchange of a key are boxed with the key
    encrypted for the receiver and the exchange signed; the receiver, which
    knows no key the datagram could be taken to be from, answers the same
    packages, the key and the peer in the exchange, and has this key of this
    peer from then on, and the keys it had. *)
Theorem exchange_adds_key pkg signed info others aesKey remotePublic ownSecret pk sk buffer n out secret s :
  sign_exchange pkg aesKey ownSecret = Some (inr signed) →
  pk_member pkg s_fieldName_peerInfo = VPeerInfo (Some info) →
  let packages := Fields signed :: others in
  fits_receiver true packages out →
  exchange_keys remotePublic secret pk sk → length aesKey = BDT_AES_KEY_LENGTH →
  let len := (pk_rsa_len sk + 8 + aes_length (length (body_bytes true packages)))%nat in
  (len ≤ n ≤ length buffer)%nat → Z.of_nat n < 2 ^ 64 →
  take 2 (pk_encrypted pk aesKey) ≠ magic →
  key_state_ok s → (∀ key peer, (key, peer) ∈ key_pairs s → ¬ answers_to key (take 8 (pk_encrypted pk aesKey))) →
  ∃ datagram tail,
    Bdt_BoxEncryptedUdpPackageStartWithExchange junk (Fields pkg :: others) None aesKey remotePublic ownSecret buffer
      (Z.of_nat n) = Some (BFX_RESULT_SUCCESS, datagram ++ tail, Z.of_nat (length datagram), packages) ∧
    ∀ more, ∃ qs s',
      unbox (datagram ++ more) (length datagram) out None secret s =
        Some ((BFX_RESULT_SUCCESS, mkUnboxed (filled qs out) (Some aesKey) (Some (peerid_of info)) true true), s') ∧
      Forall2 same_any packages qs ∧ key_state_ok s' ∧ key_pairs s' = {[(aesKey, peerid_of info)]} ∪ key_pairs s.
Proof.
  intros Hsign Hinfo packages [Hok Hne Hcap Ha Hc Hb] Hek Hkey len [Hn Hbuf] H64 Hm Hs Hnone.
  pose proof Hek as [Hpk Hsk Hpair Hl43].
  destruct (pk_encrypts pk sk aesKey (Z.of_nat n) Hpair) as [Eenc Hl];
    [rewrite Hkey; unfold BDT_AES_KEY_LENGTH; lia|unfold len in *; lia|].
  pose proof (length_key_hash aesKey) as Hlh. set (head := pk_encrypted pk aesKey ++ key_hash aesKey).
  assert (Hlhead : length head = (pk_rsa_len sk + 8)%nat) by (unfold head; rewrite length_app, Hl, Hlh; done).
  destruct (split_at buffer (pk_rsa_len sk)) as (b1 & b2' & -> & Hb1); [unfold len in *; lia|].
  rewrite length_app in Hbuf. destruct (split_at b2' 8) as (b2 & rest & -> & Hb2); [unfold len in *; lia|].
  rewrite length_app in Hbuf.
  destruct (box_encrypted_runs uninit true packages aesKey head rest n Hok) as (tail & Ebox & _).
  { rewrite length_app, Hlhead. unfold len in *. lia. }
  { done. }
  exists (head ++ aes_cipher aesKey (body_bytes true packages)), tail. split.
  { unfold Bdt_BoxEncryptedUdpPackageStartWithExchange, Bdt_RsaEncrypt. rewrite Hpk, Eenc.
    rewrite put_bytes_front by congruence. cbn [mbind option_bind]. rewrite HashAesKey_hash.
    rewrite put_bytes_app by congruence. cbn [mbind option_bind]. rewrite Hsign. cbn [mbind option_bind].
    fold packages. rewrite Hl, <- Hlhead, (app_assoc (pk_encrypted pk aesKey)). fold head. rewrite Ebox.
    cbn [mbind option_bind]. rewrite <- app_assoc, length_app, aes_cipher_length. done. }
  intros more. unfold head. rewrite <- (app_assoc (pk_encrypted pk aesKey)).
  destruct (unbox_reaches_exchange pk sk remotePublic secret aesKey
    (key_hash aesKey ++ aes_cipher aesKey (body_bytes true packages)) more out s Hek Hkey Ha Hs Hm Hnone)
    as (s1 & Hs1 & Ep1 & ->).
  rewrite (app_assoc (pk_encrypted pk aesKey)). fold head. unfold unbox_exchange. cbn [ub_packages ub_key ub_keyPeerid].
  destruct (decrypt_and_decode_runs uninit udpDecryptBuffer true packages aesKey head more out Hok Hne Hcap Hc Hb)
    as (qs & Hqs & Ed); [rewrite Hlhead; unfold len in *; lia|].
  pose proof (UnboxExchange_runs pk sk remotePublic secret aesKey more (aes_cipher aesKey (body_bytes true packages)) out
    Hek Hkey) as Eu. cbv zeta in Eu. fold head in Eu. rewrite (length_app head), aes_cipher_length in Eu |- *.
  rewrite Ed in Eu. cbn [mbind option_bind] in Eu.
  erewrite M_bind_Some by (apply mread_Some; exact Eu). cbn beta iota.
  inversion Hqs as [|p q ps qs' Hq Hqs' E1 E2]; subst p ps qs. destruct q as [q|q]; [|done].
  destruct Hok as (Hex & _).
  destruct (exchange_peer_read pkg signed q info aesKey ownSecret qs' out Hsign Hinfo Hex Hq) as (info' & Ee & Eid & Hpok).
  erewrite M_bind_Some by (apply mread_Some; exact Ee). cbn beta iota.
  destruct (AddKey_law s1 aesKey (peerid_of info') true Hs1 Hkey) as (r & s2 & Eadd & Hs2 & Ep2).
  { rewrite Eid. by apply length_peerid. }
  erewrite M_bind_Some by exact Eadd. cbn beta.
  exists (Fields q :: qs'), s2. split; [by rewrite Eid|]. split; [by constructor|]. split; [done|].
  by rewrite Ep2, Ep1, Eid.
Qed.

(** An exchange of key without the optional members, with the two bytes that
    must follow it. *)
Definition peerless_exchange (seq : Z) (sign : list Z) (sendTime : Z) : list Z :=
  le_bytes 2 144 ++ le_bytes 2 0 ++ le_bytes 4 seq ++ sign ++ le_bytes 8 sendTime ++ [0; 0].

Lemma length_peerless seq sign sendTime :
  length sign = BDT_SEQ_AND_KEY_SIGN_LENGTH → length (peerless_exchange seq sign sendTime) = 146%nat.
Proof. intros Hs. unfold peerless_exchange. rewrite !length_app, !length_le_bytes, Hs. done. Qed.

Lemma peerless_parses seq sign sendTime :
  0 ≤ seq < 2 ^ 32 → 0 ≤ sendTime < 2 ^ 64 → length sign = BDT_SEQ_AND_KEY_SIGN_LENGTH →
  parses_to (decode_exchange uninit Bdt_ExchangeKeyPackageCreate None)
    (le_bytes 2 0 ++ le_bytes 4 seq ++ sign ++ le_bytes 8 sendTime)
    (λ q, pk_cmdtype q = BDT_EXCHANGEKEY_PACKAGE ∧ pk_member q s_fieldName_peerInfo = VPeerInfo None).
Proof.
  intros Hseq Ht Hl. unfold decode_exchange.
  eapply parses_to_bind; [by eapply (parses_to_intro _ _ _ (eq 0)); [apply parses_u16|]|]. intros cmdflags <-.
  eapply parses_to_bind; [by eapply (parses_to_intro _ _ _ (eq seq)); [apply parses_u32|]|]. intros seq' <-.
  eapply parses_to_bind.
  { eapply (parses_to_intro _ _ _ (eq sign)); [|done]. rewrite <- Hl. apply parses_bytes. rewrite Hl. by vm_compute. }
  intros sign' <-.
  eapply parses_to_intro; [by apply (parses_map _ (λ v, set_member _ _ (VInt v))); apply parses_u64|].
  by split.
Qed.

Lemma peerless_decodes seq sign sendTime rest (out : Packages) :
  0 ≤ seq < 2 ^ 32 → 0 ≤ sendTime < 2 ^ 64 → length sign = BDT_SEQ_AND_KEY_SIGN_LENGTH → (0 < length out)%nat →
  (2 ≤ length rest)%nat →
  ∃ q, decode_into uninit (peerless_exchange seq sign sendTime ++ rest) 146 None out true = Some (true, filled [Fields q] out) ∧
    pk_cmdtype q = BDT_EXCHANGEKEY_PACKAGE ∧ pk_member q s_fieldName_peerInfo = VPeerInfo None.
Proof.
  intros Hseq Ht Hl Hout Hrest. unfold decode_into, Bdt_DecodePackage. rewrite option_guard_True by done.
  cbn [mbind option_bind fmap option_fmap option_map].
  set (s := BfxBufferStreamInit (peerless_exchange seq sign sendTime ++ rest) 146).
  set (bs := le_bytes 2 0 ++ le_bytes 4 seq ++ sign ++ le_bytes 8 sendTime).
  assert (Hlb : length bs = 142%nat) by (unfold bs; rewrite !length_app, !length_le_bytes, Hl; done).
  assert (Hbuf : bs_buffer s = (le_bytes 2 144 ++ bs) ++ ([0; 0] ++ rest)).
  { cbn [s bs_buffer BfxBufferStreamInit]. unfold peerless_exchange, bs. by rewrite <- !app_assoc. }
  assert (Hready : ready s (le_bytes 2 144 ++ bs) ([0; 0] ++ rest)).
  { split; [|rewrite length_app, length_le_bytes, Hlb, length_app; cbn; lia].
    split; [cbn; lia|]. change (bs_pos s) with 0%nat. by rewrite drop_0, Hbuf. }
  apply ready_split in Hready as [Hr1 Hr2]. rewrite length_le_bytes in Hr2.
  unfold DecodeExchangeKeyPackage.
  rewrite (dec_read_done _ _ _ _ _ _ (parses_u16 144 ltac:(lia) 0 _ _ Hr1)), length_le_bytes. cbn [mbind option_bind].
  unfold BfxBufferStreamGetTailLength at 1. rewrite option_guard_True by (cbn; lia). cbn [mbind option_bind].
  change (Z.of_nat (bs_length (advance 2 s) - bs_pos (advance 2 s)) <? 144) with false. cbv iota.
  change (144 <? Bdt_GetPackageMinSize BDT_EXCHANGEKEY_PACKAGE) with false. cbv iota.
  destruct (peerless_parses seq sign sendTime Hseq Ht Hl (0 + Z.of_nat 2 - 0) _ _ Hr2) as (q & Hq & Eq).
  fold bs in Eq. rewrite Eq. cbn [mbind option_bind de_stream de_read].
  rewrite Hlb. change (144 =? 0 + Z.of_nat 2 - 0 + Z.of_nat 142) with true. cbv iota.
  unfold store_result. rewrite option_guard_True by done. cbn [mbind option_bind app].
  exists q. split; [|exact Hq]. done.
Qed.

(** C26: A peer does not survive a datagram that anyone who has its public key
    can make: an exchange of a key that leaves out its optional members is
    accepted — whatever its signature is — and the peer it does not name is
    looked at through a null pointer. *)
Theorem peerless_exchange_faults seq sign sendTime aesKey remotePublic secret pk sk more out s :
  0 ≤ seq < 2 ^ 32 → 0 ≤ sendTime < 2 ^ 64 → length sign = BDT_SEQ_AND_KEY_SIGN_LENGTH →
  exchange_keys remotePublic secret pk sk → length aesKey = BDT_AES_KEY_LENGTH →
  (BDT_MAX_PACKAGE_MERGE_LENGTH ≤ length out)%nat → (160 ≤ length udpDecryptBuffer)%nat →
  Z.of_nat (pk_rsa_len sk) < 2 ^ 63 →
  take 2 (pk_encrypted pk aesKey) ≠ magic →
  key_state_ok s → (∀ key peer, (key, peer) ∈ key_pairs s → ¬ answers_to key (take 8 (pk_encrypted pk aesKey))) →
  let datagram := pk_encrypted pk aesKey ++ key_hash aesKey ++ aes_cipher aesKey (peerless_exchange seq sign sendTime) in
  unbox (datagram ++ more) (length datagram) out None secret s = None.
Proof.
  intros Hseq Ht Hl Hek Hkey Ha Hbuf H63 Hm Hs Hnone datagram. pose proof Hek as [Hpk Hsk Hpair Hl43].
  destruct (pk_encrypts pk sk aesKey (Z.of_nat (pk_rsa_len sk)) Hpair) as [_ Hlc];
    [rewrite Hkey; unfold BDT_AES_KEY_LENGTH; lia|lia|].
  destruct (unbox_reaches_exchange pk sk remotePublic secret aesKey
    (key_hash aesKey ++ aes_cipher aesKey (peerless_exchange seq sign sendTime)) more out s Hek Hkey Ha Hs Hm Hnone)
    as (s1 & _ & _ & E). fold datagram in E. rewrite E. clear E.
  unfold unbox_exchange. cbn [ub_packages ub_key ub_keyPeerid].
  pose proof (UnboxExchange_runs pk sk remotePublic secret aesKey more (aes_cipher aesKey (peerless_exchange seq sign sendTime))
    out Hek Hkey) as Eu. cbv zeta in Eu. unfold datagram. rewrite (app_assoc (pk_encrypted pk aesKey)).
  set (head := pk_encrypted pk aesKey ++ key_hash aesKey) in *.
  pose proof (length_peerless seq sign sendTime Hl) as Hlp.
  assert (Hlen : aes_length (length (peerless_exchange seq sign sendTime)) = 160%nat) by (rewrite Hlp; done).
  destruct (aes_decrypts aesKey (peerless_exchange seq sign sendTime) more udpDecryptBuffer) as (output' & Ed & Hlo);
    [rewrite Hlen; lia|].
  rewrite length_app, Hlp in Hlo. rewrite Hlen, Hlp in Ed.
  destruct (peerless_decodes seq sign sendTime output' out Hseq Ht Hl) as (q & Eq & Hc & Hp).
  { unfold BDT_MAX_PACKAGE_MERGE_LENGTH in Ha. lia. }
  { lia. }
  assert (Edec : decrypt_and_decode uninit udpDecryptBuffer aesKey
      (head ++ aes_cipher aesKey (peerless_exchange seq sign sendTime) ++ more)
      (length (head ++ aes_cipher aesKey (peerless_exchange seq sign sendTime))) (length head) None out true =
      Some (true, filled [Fields q] out)).
  { unfold decrypt_and_decode. rewrite drop_app_length, length_app, aes_cipher_length, Hlen.
    rewrite size_sub_id by (unfold head; rewrite length_app, Hlc, length_key_hash; lia).
    replace (Z.of_nat (length head + 160) - Z.of_nat (length head)) with (Z.of_nat 160) by lia.
    rewrite Ed. cbn [mbind option_bind]. exact Eq. }
  rewrite Edec in Eu. cbn [mbind option_bind] in Eu.
  erewrite M_bind_Some by (apply mread_Some; exact Eu). cbn beta iota.
  unfold mbind at 1, M_bind at 1, lift, mread. cbn [filled fmap list_fmap app exchange_peerid].
  by rewrite decide_True, Hp by done.
Qed.

End unbox.

(** ** Dispatch *)

Section dispatch.
Context {P : PeerInfoOps} {L : PeerInfoLaws P} (peerid_of : PeerInfo → list Z).
Context {A : AesOps} {B : Mbedtls} {E : UdpEnv} {St : Type} {K : KeyService St}.
Context (uninit junk udpDecryptBuffer : list Z).

(** The first entries of the array, up to [n] and up to a null pointer. *)
Fixpoint first_present (n : nat) (packages : Packages) : list AnyPackage :=
  match n, packages with
  | S n, Some p :: packages => p :: first_present n packages
  | _, _ => []
  end.

(** The package an action hands on. *)
Definition handed (a : UdpAction) : option AnyPackage :=
  match a with
  | PushToSnClient p _ | PushToTunnel p | PushSessionPackage p => Some p
  | _ => None
  end.
Definition is_free (a : UdpAction) : bool := match a with PackageFree _ => true | _ => false end.

(** Actions that hand on packages of a list and free none. *)
Definition hands (l : list AnyPackage) (acts : list UdpAction) : Prop :=
  Forall (λ a, is_free a = false ∧ ∀ p, handed a = Some p → p ∈ l) acts.

Lemma hands_cons p l acts : hands l acts → hands (p :: l) acts.
Proof. intros H. eapply Forall_impl; [exact H|]. intros a [H1 H2]. split; [done|]. intros q Hq. right. by apply H2. Qed.

Lemma sn_loop_hands n packages key acts :
  sn_loop n packages key = Some acts →
  acts = (λ p, PushToSnClient p key) <$> first_present n packages ∧ hands (first_present n packages) acts.
Proof.
  revert packages acts. induction n as [|n IH]; intros packages acts; cbn [sn_loop first_present].
  { intros [= <-]. split; [done|constructor]. }
  destruct packages as [|[p|] packages]; [done| |intros [= <-]; split; [done|constructor]].
  destruct (sn_loop n packages key) as [rest|] eqn:Er; [|done]. intros [= <-].
  destruct (IH _ _ Er) as [-> Hh]. split; [done|]. constructor; [|by apply hands_cons].
  split; [done|]. intros q [= <-]. left.
Qed.

Lemma tunnel_loop_hands n packages acts :
  tunnel_loop n packages = Some acts → hands (first_present n packages) acts.
Proof.
  revert packages acts. induction n as [|n IH]; intros packages acts; cbn [tunnel_loop first_present].
  { intros [= <-]. constructor. }
  destruct packages as [|[p|] packages]; [done| |intros [= <-]; constructor].
  assert (Hp : ∀ q l, Some p = Some q → q ∈ p :: l) by (intros q l [= <-]; left).
  destruct (tunnel_push p) as [result handled]. destruct (bool_decide _ || _).
  { intros [= <-]. constructor; [|constructor]. split; [done|]. intros q. apply Hp. }
  destruct (tunnel_loop n packages) as [rest|] eqn:Er; [|done]. intros [= <-].
  constructor; [by split; [|intros q; apply Hp]|]. constructor; [by split; [|intros q; apply Hp]|].
  by apply hands_cons, IH.
Qed.

Lemma free_loop_frees n packages acts :
  free_loop n packages = Some acts → acts = PackageFree <$> first_present n packages.
Proof.
  revert packages acts. induction n as [|n IH]; intros packages acts; cbn [free_loop first_present].
  { by intros [= <-]. }
  destruct packages as [|[p|] packages]; [done| |by intros [= <-]].
  destruct (free_loop n packages) as [rest|] eqn:Er; [|done]. intros [= <-]. by rewrite (IH _ _ Er).
Qed.

Lemma first_present_drop1 n packages p q :
  packages !! 0%nat = Some (Some q) → p ∈ first_present n (drop 1 packages) → p ∈ first_present (S n) packages.
Proof. destruct packages as [|x packages]; [done|]. intros [= ->]. cbn [drop first_present]. rewrite drop_0. by right. Qed.


Lemma same_any_type p q : same_any p q → package_type p = package_type q.
Proof. destruct p, q; [by intros [H _]|done..]. Qed.

Lemma free_loop_filled n qs rest :
  (n ≤ length (filled qs (replicate BDT_MAX_PACKAGE_MERGE_LENGTH None)))%nat →
  rest = drop (length qs) (replicate BDT_MAX_PACKAGE_MERGE_LENGTH (A := option AnyPackage) None) →
  free_loop n ((Some <$> qs) ++ rest) = Some (PackageFree <$> take n qs) ∧
  (∀ key, sn_loop n ((Some <$> qs) ++ rest) key = Some ((λ p, PushToSnClient p key) <$> take n qs)).
Proof.
  unfold filled. intros Hn ->. rewrite length_app, length_fmap in Hn. remember (drop _ _) as r eqn:Er.
  assert (Hr : ∀ x l, r = x :: l → x = None).
  { intros x l ->. assert (Hx : x ∈ replicate BDT_MAX_PACKAGE_MERGE_LENGTH (A := option AnyPackage) None).
    { apply (subseteq_drop (length qs)). rewrite <- Er. left. }
    by apply elem_of_replicate in Hx as []. }
  clear Er. revert n Hn. induction qs as [|q qs IH]; intros [|n] Hn; cbn [fmap list_fmap app take free_loop sn_loop]; try done.
  - destruct r as [|x r]; [cbn in Hn; lia|]. by rewrite (Hr x r) by done.
  - destruct (IH n) as [-> Hs]; [cbn in Hn; lia|]. split; [done|]. intros key. by rewrite Hs.
Qed.

(** A clear datagram that is not too short. *)
Lemma clear_unboxes packages more secret (s : St) :
  let body := datagram_bytes packages None None in
  datagram_ok packages None None → packages ≠ [] → (length packages ≤ BDT_MAX_PACKAGE_MERGE_LENGTH)%nat →
  (2 ≤ length more)%nat →
  ∃ qs, Forall2 same_any packages qs ∧
    ((BDT_PROTOCOL_MIN_PACKAGE_LENGTH ≤ 2 + length body)%nat →
     Bdt_UnboxUdpPackage peerid_of uninit junk udpDecryptBuffer (([0; 128] ++ body) ++ more) (2 + length body)
       (replicate BDT_MAX_PACKAGE_MERGE_LENGTH None) None secret s =
     Some ((BFX_RESULT_SUCCESS, mkUnboxed (filled qs (replicate BDT_MAX_PACKAGE_MERGE_LENGTH None)) None None false false), s)).
Proof.
  intros body Hok Hne Hcap Hmore.
  destruct (body_decodes uninit false packages more (replicate BDT_MAX_PACKAGE_MERGE_LENGTH None)) as (qs & Hqs & Ed);
    [done|done|done|by rewrite length_replicate|]. cbn [body_bytes] in Ed. fold body in Ed.
  exists qs. split; [done|]. intros Hlong. unfold Bdt_UnboxUdpPackage.
  erewrite M_bind_Some by (by apply massert_Some). cbn beta. rewrite decide_False by lia.
  assert (Eu : UnboxUdpPackage uninit (([0; 128] ++ body) ++ more) (2 + length body) None
    (replicate BDT_MAX_PACKAGE_MERGE_LENGTH None) = Some (true, filled qs (replicate BDT_MAX_PACKAGE_MERGE_LENGTH None))).
  { unfold UnboxUdpPackage. rewrite <- app_assoc.
    assert (Eg : get_bytes ([0; 128] ++ body ++ more) 0 2 = Some [0; 128]) by apply (get_bytes_front [0; 128]).
    rewrite Eg. cbn [mbind option_bind]. rewrite decide_True by done.
    change (drop 2 ([0; 128] ++ body ++ more)) with (drop 0 (body ++ more)). rewrite drop_0.
    replace (2 + length body - 2)%nat with (length body) by lia. exact Ed. }
  erewrite M_bind_Some by (apply mread_Some; exact Eu). done.
Qed.

(** C25: Packages boxed in the clear: when the first is a package for a
    supernode, the receiver unboxes the datagram and pushes the same packages,
    the first eight of them, to its supernode client, without a key, and frees
    them; a datagram of fewer than eight bytes is dropped.  When the first
    package is any other, the receiver looks up the container of a peer whose
    id was never written, which is a fault. *)
Theorem clear_datagram packages buffer n secret s :
  datagram_ok packages None None → (length packages ≤ BDT_MAX_PACKAGE_MERGE_LENGTH)%nat →
  (2 + length (datagram_bytes packages None None) ≤ n ≤ length buffer)%nat → Z.of_nat n < 2 ^ 64 →
  ∃ datagram tail,
    Bdt_BoxUdpPackage packages None buffer (Z.of_nat n) =
      Some (BFX_RESULT_SUCCESS, datagram ++ tail, Z.of_nat (length datagram)) ∧
    ∀ more first, (2 ≤ length more)%nat → head packages = Some first →
      let push := BdtPushUdpSocketData peerid_of uninit junk udpDecryptBuffer (datagram ++ more) (length datagram) secret s in
      ((length datagram < BDT_PROTOCOL_MIN_PACKAGE_LENGTH)%nat → push = Some ([], s)) ∧
      ((BDT_PROTOCOL_MIN_PACKAGE_LENGTH ≤ length datagram)%nat → Bdt_IsSnPackage first = true →
       ∃ qs, Forall2 same_any packages qs ∧
         push = Some (((λ p, PushToSnClient p None) <$> take 8 qs) ++ (PackageFree <$> take 8 qs), s)) ∧
      ((BDT_PROTOCOL_MIN_PACKAGE_LENGTH ≤ length datagram)%nat → Bdt_IsSnPackage first = false → push = None).
Proof.
  intros Hok Hcap [Hn Hbuf] H64. set (body := datagram_bytes packages None None) in *.
  destruct (split_at buffer 2) as (b & rest & -> & Hb); [lia|]. rewrite length_app in Hbuf.
  exists ([0; 128] ++ body), (drop (length body) rest). split.
  { unfold Bdt_BoxUdpPackage. assert (Ed : drop 2 (b ++ rest) = rest) by (rewrite <- Hb; apply drop_app_length).
    assert (Et : take 2 (b ++ rest) = b) by (rewrite <- Hb; apply take_app_length).
    rewrite Ed, Et, size_sub_id by lia.
    replace (Z.to_nat (Z.of_nat n - 2)) with (n - 2)%nat by lia.
    pose proof (encode_body uninit false packages rest (n - 2)) as Ee. cbn [body_ok body_bytes] in Ee. fold body in Ee.
    rewrite Ee by (done || lia). cbn [mbind option_bind]. rewrite decide_False by tauto.
    rewrite put_bytes_front by (rewrite Hb; done). cbn [mbind option_bind]. rewrite <- app_assoc, length_app.
    do 2 f_equal. cbn [length]. lia. }
  intros more first Hmore Hfirst push. rewrite length_app. cbn [length].
  assert (Hne : packages ≠ []) by by destruct packages.
  assert (Epush : push = ('(result, u) ← Bdt_UnboxUdpPackage peerid_of uninit junk udpDecryptBuffer (([0; 128] ++ body) ++ more)
    (2 + length body) (replicate BDT_MAX_PACKAGE_MERGE_LENGTH None) None secret;
    if decide (result ≠ BFX_RESULT_SUCCESS) then mret [] else lift (dispatch u)) s).
  { unfold push. by rewrite length_app. }
  rewrite Epush. clear Epush push. split.
  { intros Hshort. unfold Bdt_UnboxUdpPackage.
    erewrite M_bind_Some by (erewrite M_bind_Some by (by apply massert_Some); cbn beta; by rewrite decide_True).
    cbn beta iota. by rewrite decide_True by done. }
  destruct (clear_unboxes packages more secret s Hok Hne Hcap Hmore) as (qs & Hqs & Eu). fold body in Eu.
  assert (Hq : ∃ q l, qs = q :: l ∧ package_type q = package_type first).
  { destruct Hqs as [|p q ps l Hpq]; [done|]. injection Hfirst as <-. exists q, l. split; [done|].
    symmetry. by apply same_any_type. }
  destruct Hq as (q & l & -> & Hty).
  assert (Esn : Bdt_IsSnPackage q = Bdt_IsSnPackage first) by (unfold Bdt_IsSnPackage; by rewrite Hty).
  assert (Hl : (length (q :: l) ≤ BDT_MAX_PACKAGE_MERGE_LENGTH)%nat) by (by rewrite <- (Forall2_length _ _ _ Hqs)).
  destruct (free_loop_filled 8 (q :: l) _ ltac:(unfold filled; rewrite length_app, length_fmap, length_drop, length_replicate;
    unfold BDT_MAX_PACKAGE_MERGE_LENGTH in *; lia) eq_refl) as [Ef Es].
  split; intros Hlong Hsn; (erewrite M_bind_Some by exact (Eu Hlong)); cbn beta iota;
    rewrite decide_False by tauto; unfold lift, mread, dispatch; cbn [ub_hasExchange ub_packages ub_isEncrypto ub_key ub_keyPeerid];
    change (filled (q :: l) (replicate BDT_MAX_PACKAGE_MERGE_LENGTH None) !! 0%nat) with (Some (Some q));
    cbn [mbind option_bind]; rewrite Esn, Hsn; cbv iota; [|done].
  exists (q :: l). split; [done|]. rewrite drop_0. change (BDT_PROTOCOL_MIN_PACKAGE_LENGTH - 0)%nat with 8%nat.
  unfold filled. rewrite (Es None). cbn [mbind option_bind]. change BDT_PROTOCOL_MIN_PACKAGE_LENGTH with 8%nat.
  by rewrite Ef.
Qed.

End dispatch.

(** ** The theorems at work *)

Module UdpDemo.

(** The first bytes of the reversed data for a hash; the length, the data and
    zeros for what is encrypted with a key of 64 bytes. *)
Definition sha (data : list Z) : list Z := take 32 (reverse data ++ replicate 32 0).
Definition encrypted (data : list Z) : list Z := 7 :: Z.of_nat (length data) :: data ++ replicate (62 - length data) 0.
Definition decrypted (input : list Z) : list Z := take (Z.to_nat (default 0 (input !! 1%nat))) (drop 2 input).

#[global] Instance tls : Mbedtls := {|
  sha256_ret data := inr (sha data);
  md5_ret data := inr (take 16 (data ++ replicate 16 0));
  mbedtls_public := unit;
  mbedtls_secret := unit;
  pk_parse_public_key der := inr tt;
  pk_parse_key der := inr tt;
  pk_rsa_len _ := 64%nat;
  pk_encrypt _ data osize := inr (encrypted data);
  pk_decrypt _ input osize := inr (decrypted input);
  pk_sign _ md := inr (replicate 128 5);
  pk_verify _ _ _ := 0 |}.

#[global] Program Instance tls_laws : CryptoLaws tls := {|
  sha256_hash := sha;
  key_pair _ _ := True;
  pk_encrypted _ := encrypted |}.
Next Obligation. done. Qed.
Next Obligation. intros data. unfold sha. rewrite length_take, length_app, length_reverse, length_replicate. lia. Qed.
Next Obligation.
  intros pk sk data osize _ Hl _. split; [done|]. unfold encrypted. cbn [length pk_rsa_len tls] in *.
  rewrite length_app, length_replicate. lia.
Qed.
Next Obligation.
  intros pk sk data n _ Hl _. cbn [pk_decrypt tls]. f_equal. unfold decrypted, encrypted.
  change (take (Z.to_nat (Z.of_nat (length data))) (drop 0 (data ++ replicate (62 - length data) 0)) = data).
  rewrite Nat2Z.id, drop_0. apply take_app_length.
Qed.

#[global] Instance aes : AesOps := mbedtls_ops demo_cbc demo_cbc.
#[global] Instance aes_laws : AesLaws aes := mbedtls_laws demo_cbc demo_cbc.

(** [BdtPeerInfoGetPeerid] *)
Definition peerid_of : @PeerInfo Demo.ops → list Z := pi_peerid.

#[global] Instance peerids : PeeridLaws Demo.ops Demo.laws peerid_of.
Proof.
  split.
  - intros info o H. change (content <$> Some info = content <$> o) in H. destruct o as [info'|]; [|done].
    exists info'. split; [done|].
    assert (Hid : ∀ p, ct_peerid (content p) = pi_peerid p) by by intros [].
    change (pi_peerid info' = pi_peerid info). rewrite <- !Hid. by injection H as ->.
  - intros info Hok. destruct (Hok info eq_refl) as [[Hf _] _]. change (length (pi_peerid info) = 32%nat). rewrite (pf_peerid _ _ _ Hf).
    unfold BdtGetPeeridFromConstInfo, _encode, Demo.sha256. by rewrite length_app, length_take, length_replicate.
Qed.

#[global] Instance manager : KeyService KeyManager :=
  manager_service true 600 (λ t, 6000000000 + 30000000 * Z.of_nat t) (λ _, 0).
#[global] Instance manager_is : KeyServiceLaws tls_laws KeyManager manager :=
  manager_laws true 600 (λ t, 6000000000 + 30000000 * Z.of_nat t) (λ _, 0).

Definition public : mbedtls_public := tt.
Definition private : mbedtls_secret := tt.
Definition aes_key : list Z := replicate 24 3 ++ [8; 7; 6; 5; 4; 3; 2; 1].
Definition remote : list Z := replicate 32 9.
Definition uninit : list Z := replicate 12 0.
Definition memory : list Z := replicate 1600 0.

Lemma new_manager_empty : pairs (KeyManagerInit 0) = ∅.
Proof. unfold pairs, idents. cbn [KeyManagerInit km_keys]. by rewrite fmap_empty, map_img_empty_L. Qed.

(** A manager with one key. *)
Lemma one_key :
  ∃ s : KeyManager, key_state_ok s ∧ key_pairs s = {[(aes_key, remote)]}.
Proof.
  destruct (AddKey_law (KeyManagerInit 0) aes_key remote true) as (r & s & _ & Hs & Ep);
    [apply KeyManagerInit_sound|done|done|].
  exists s. split; [done|]. rewrite Ep. change (key_pairs (KeyManagerInit 0)) with (pairs (KeyManagerInit 0)).
  rewrite new_manager_empty. set_solver.
Qed.

Lemma call_fits : fits_receiver memory false [Demo.syn; Demo.call] (replicate 32 None).
Proof.
  split; [apply Demo.packages_ok|done|apply Nat.leb_le; by vm_compute|apply Nat.leb_le; by vm_compute|..];
    apply Nat.leb_le; by vm_compute.
Qed.


(** The exchange of a key by the peer of [Demo]. *)
Definition exchange : Package := Demo.with_members BDT_EXCHANGEKEY_PACKAGE
  [(s_fieldName_fromPeerid, Demo.from_id); (s_fieldName_seq, VInt 5); (s_fieldName_sendTime, VInt 77);
   (s_fieldName_peerInfo, VPeerInfo (Some Demo.peer))].
Definition signed_exchange : Package := set_member exchange s_fieldName_seqAndKeySign (VBytes (replicate 128 5)).

Lemma exchange_is_ok : exchange_ok signed_exchange.
Proof.
  split; [done| |done|exact Demo.peer_pointer_ok|apply Z.ltb_lt; by vm_compute].
  Demo.typed_tac.
Qed.
Lemma exchange_fits : fits_receiver memory true [Fields signed_exchange; Demo.syn] (replicate 32 None).
Proof.
  split; [|done|apply Nat.leb_le; by vm_compute|apply Nat.leb_le; by vm_compute|..];
    [|apply Nat.leb_le; by vm_compute|apply Nat.leb_le; by vm_compute].
  split; [apply exchange_is_ok|]. split; [done|]. split; [|done].
  split; [by eexists|]. split; [apply Demo.syn_typed|]. split; [done|]. split; [|by vm_compute].
  change (package_fields _) with EncodeSynTunnel_fields. Demo.sendable_tac.
Qed.

Lemma demo_keys : exchange_keys [] [] public private.
Proof. split; [done..|]. cbn. lia. Qed.

Lemma no_keys key peer : (key, peer) ∉ key_pairs (KeyManagerInit 0).
Proof.
  change (key_pairs (KeyManagerInit 0)) with (pairs (KeyManagerInit 0)). rewrite new_manager_empty.
  apply not_elem_of_empty.
Qed.

Lemma exchange_adds_key_witness :
  ∃ datagram tail,
    Bdt_BoxEncryptedUdpPackageStartWithExchange [] [Fields exchange; Demo.syn] None aes_key [] [] memory 1500 =
      Some (BFX_RESULT_SUCCESS, datagram ++ tail, Z.of_nat (length datagram), [Fields signed_exchange; Demo.syn]) ∧
    ∀ more, ∃ qs s',
      Bdt_UnboxUdpPackage peerid_of uninit [] memory (datagram ++ more) (length datagram) (replicate 32 None) None []
        (KeyManagerInit 0) =
        Some ((BFX_RESULT_SUCCESS, mkUnboxed (filled qs (replicate 32 None)) (Some aes_key) (Some (peerid_of Demo.peer))
                 true true), s') ∧
      Forall2 same_any [Fields signed_exchange; Demo.syn] qs ∧ key_state_ok s' ∧
      key_pairs s' = {[(aes_key, peerid_of Demo.peer)]} ∪ key_pairs (KeyManagerInit 0).
Proof.
  apply (exchange_adds_key peerid_of uninit [] memory exchange signed_exchange Demo.peer [Demo.syn] aes_key [] [] public private
    memory 1500 (replicate 32 None) [] (KeyManagerInit 0)).
  - reflexivity.
  - reflexivity.
  - apply exchange_fits.
  - apply demo_keys.
  - reflexivity.
  - split; apply Nat.leb_le; by vm_compute.
  - lia.
  - by vm_compute.
  - apply KeyManagerInit_sound.
  - intros key peer Hin. by apply no_keys in Hin.
Defined.

Lemma peerless_exchange_faults_witness :
  let datagram := pk_encrypted public aes_key ++ key_hash aes_key ++
                  aes_cipher aes_key (peerless_exchange 1 (replicate 128 0) 5) in
  Bdt_UnboxUdpPackage peerid_of uninit [] memory (datagram ++ [1; 2]) (length datagram) (replicate 32 None) None []
    (KeyManagerInit 0) = None.
Proof.
  apply (peerless_exchange_faults peerid_of uninit [] memory 1 (replicate 128 0) 5 aes_key [] [] public private [1; 2]
    (replicate 32 None) (KeyManagerInit 0)).
  - lia.
  - lia.
  - reflexivity.
  - apply demo_keys.
  - reflexivity.
  - apply Nat.leb_le. by vm_compute.
  - apply Nat.leb_le. by vm_compute.
  - cbn. lia.
  - by vm_compute.
  - apply KeyManagerInit_sound.
  - intros key peer Hin. by apply no_keys in Hin.
Defined.

#[global] Instance env : UdpEnv := {| has_container _ := true; tunnel_push _ := (0, false) |}.

(** Nine packages. *)
Definition nine : Unboxed :=
  mkUnboxed (filled (replicate 9 Demo.syn) (replicate 32 None)) (Some aes_key) (Some remote) true false.


Lemma clear_datagram_witness :
  ∃ datagram tail,
    Bdt_BoxUdpPackage [Demo.syn; Demo.call] None memory 1500 =
      Some (BFX_RESULT_SUCCESS, datagram ++ tail, Z.of_nat (length datagram)) ∧
    ∀ more first, (2 ≤ length more)%nat → head [Demo.syn; Demo.call] = Some first →
      let push := BdtPushUdpSocketData peerid_of uninit [] memory (datagram ++ more) (length datagram) [] (KeyManagerInit 0) in
      ((length datagram < BDT_PROTOCOL_MIN_PACKAGE_LENGTH)%nat → push = Some ([], KeyManagerInit 0)) ∧
      ((BDT_PROTOCOL_MIN_PACKAGE_LENGTH ≤ length datagram)%nat → Bdt_IsSnPackage first = true →
       ∃ qs, Forall2 same_any [Demo.syn; Demo.call] qs ∧
         push = Some (((λ p, PushToSnClient p None) <$> take 8 qs) ++ (PackageFree <$> take 8 qs), KeyManagerInit 0)) ∧
      ((BDT_PROTOCOL_MIN_PACKAGE_LENGTH ≤ length datagram)%nat → Bdt_IsSnPackage first = false → push = None).
Proof.
  apply (clear_datagram peerid_of uninit [] memory [Demo.syn; Demo.call] memory 1500 [] (KeyManagerInit 0)).
  - apply Demo.packages_ok.
  - apply Nat.leb_le. by vm_compute.
  - split; apply Nat.leb_le; by vm_compute.
  - lia.
Defined.
End UdpDemo.
