(* ===== verification/TcpInterface.v ===== *)
(** * TCP interfaces

    Models the state of a [Bdt_TcpInterface] and what changes it
    ([BDTCore/Interface/TcpInterface.imp.inl]): creation, the owner, the states
    and the references to the socket, and the events of the socket that are no
    data.  What is asked of the socket, the timer and the owner is a trace,
    newest first; what they answer is a parameter, by the number of questions
    asked before.  An owner is a pointer, and what it does with an event are
    calls of the interface.  Every function is one step: the lock is not
    modelled, nor the reference count of the interface itself, its name and its
    endpoints. *)

From S2P Require Import Prelude CInt Package BufferStream Codec SessionCodec Endpoint PackageFields PackageCodec HandCodec MergedPackages.

Definition BFX_RESULT_NOT_IMPL : Z := 4.

Inductive Bdt_TcpInterfaceState :=
  | BDT_TCP_INTERFACE_STATE_NONE
  | BDT_TCP_INTERFACE_STATE_CONNECTING
  | BDT_TCP_INTERFACE_STATE_ESTABLISH
  | BDT_TCP_INTERFACE_STATE_WAIT_FIRST_PACKAGE
  | BDT_TCP_INTERFACE_STATE_WAIT_FIRST_RESP
  | BDT_TCP_INTERFACE_STATE_PACKAGE
  | BDT_TCP_INTERFACE_STATE_STREAM
  | BDT_TCP_INTERFACE_STATE_STREAM_RECV_CLOSED
  | BDT_TCP_INTERFACE_STATE_STREAM_CLOSING
  | BDT_TCP_INTERFACE_STATE_CLOSED.

#[export] Instance TcpInterfaceState_eq_dec : EqDecision Bdt_TcpInterfaceState.
Proof. solve_decision. Defined.

Inductive TcpIntefaceUnboxState := BDT_TCP_UNBOX_STATE_READING_LENGTH | BDT_TCP_UNBOX_STATE_READING_BODY.

#[export] Instance TcpIntefaceUnboxState_eq_dec : EqDecision TcpIntefaceUnboxState.
Proof. solve_decision. Defined.

Section tcp.
Context {P : PeerInfoOps}.

(** A decoded package and the number of its allocation. *)
Definition PackagePtr : Type := nat * AnyPackage.

(** What an owner is told. *)
Inductive TcpEvent :=
  | OnEstablish
  | OnDrain
  | OnError (error : Z)
  | OnData (data : list Z)
  | OnPackage (packages : list (option PackagePtr))
  | OnFirstResp (package : PackagePtr).

(** What the interface does, besides changing itself. *)
Inductive TcpAction :=
  | SocketConnect
  | SocketSend (data : list Z)
  | SocketPause
  | SocketResume
  | SocketClose (ifBreak : bool)
  | SocketDestroy
  | CreateTimeout
  | OwnerAddRef (owner : Z)
  | OwnerRelease (owner : Z)
  | OwnerEvent (owner : Z) (event : TcpEvent)
  | CreateContainer (peerid : list Z)
  | TcpFirstPackage (peerid : list Z) (package : PackagePtr)
  | PackageFree (package : PackagePtr).

Record Bdt_TcpInterface := mkTcp {
  ti_socketRefCount : Z;
  ti_state : Bdt_TcpInterfaceState;
  ti_owner : option Z;
  ti_socket : bool;  (* not NULL *)
  ti_waitFirstPackageTimer : bool;
  ti_cache : list Z;  (* the first [cacheLength] bytes of [cache] *)
  ti_isCrypto : bool;
  ti_aesKey : list Z;
  ti_firstBlockSize : nat;
  ti_unboxState : TcpIntefaceUnboxState;
  ti_boxSize : nat;
  ti_allocated : nat;
  ti_trace : list TcpAction }.

Definition ti_cacheLength (ti : Bdt_TcpInterface) : nat := length (ti_cache ti).

Definition set_socketRefCount (n : Z) (t : Bdt_TcpInterface) :=
  mkTcp n (ti_state t) (ti_owner t) (ti_socket t) (ti_waitFirstPackageTimer t) (ti_cache t) (ti_isCrypto t) (ti_aesKey t)
    (ti_firstBlockSize t) (ti_unboxState t) (ti_boxSize t) (ti_allocated t) (ti_trace t).
Definition set_state (s : Bdt_TcpInterfaceState) (t : Bdt_TcpInterface) :=
  mkTcp (ti_socketRefCount t) s (ti_owner t) (ti_socket t) (ti_waitFirstPackageTimer t) (ti_cache t) (ti_isCrypto t)
    (ti_aesKey t) (ti_firstBlockSize t) (ti_unboxState t) (ti_boxSize t) (ti_allocated t) (ti_trace t).
Definition set_owner (o : option Z) (t : Bdt_TcpInterface) :=
  mkTcp (ti_socketRefCount t) (ti_state t) o (ti_socket t) (ti_waitFirstPackageTimer t) (ti_cache t) (ti_isCrypto t)
    (ti_aesKey t) (ti_firstBlockSize t) (ti_unboxState t) (ti_boxSize t) (ti_allocated t) (ti_trace t).
Definition set_socket (b : bool) (t : Bdt_TcpInterface) :=
  mkTcp (ti_socketRefCount t) (ti_state t) (ti_owner t) b (ti_waitFirstPackageTimer t) (ti_cache t) (ti_isCrypto t)
    (ti_aesKey t) (ti_firstBlockSize t) (ti_unboxState t) (ti_boxSize t) (ti_allocated t) (ti_trace t).
Definition set_timer (b : bool) (t : Bdt_TcpInterface) :=
  mkTcp (ti_socketRefCount t) (ti_state t) (ti_owner t) (ti_socket t) b (ti_cache t) (ti_isCrypto t)
    (ti_aesKey t) (ti_firstBlockSize t) (ti_unboxState t) (ti_boxSize t) (ti_allocated t) (ti_trace t).
Definition set_cache (l : list Z) (t : Bdt_TcpInterface) :=
  mkTcp (ti_socketRefCount t) (ti_state t) (ti_owner t) (ti_socket t) (ti_waitFirstPackageTimer t) l (ti_isCrypto t)
    (ti_aesKey t) (ti_firstBlockSize t) (ti_unboxState t) (ti_boxSize t) (ti_allocated t) (ti_trace t).
Definition set_isCrypto (b : bool) (t : Bdt_TcpInterface) :=
  mkTcp (ti_socketRefCount t) (ti_state t) (ti_owner t) (ti_socket t) (ti_waitFirstPackageTimer t) (ti_cache t) b
    (ti_aesKey t) (ti_firstBlockSize t) (ti_unboxState t) (ti_boxSize t) (ti_allocated t) (ti_trace t).
Definition set_aesKey (k : list Z) (t : Bdt_TcpInterface) :=
  mkTcp (ti_socketRefCount t) (ti_state t) (ti_owner t) (ti_socket t) (ti_waitFirstPackageTimer t) (ti_cache t)
    (ti_isCrypto t) k (ti_firstBlockSize t) (ti_unboxState t) (ti_boxSize t) (ti_allocated t) (ti_trace t).
Definition set_firstBlockSize (n : nat) (t : Bdt_TcpInterface) :=
  mkTcp (ti_socketRefCount t) (ti_state t) (ti_owner t) (ti_socket t) (ti_waitFirstPackageTimer t) (ti_cache t)
    (ti_isCrypto t) (ti_aesKey t) n (ti_unboxState t) (ti_boxSize t) (ti_allocated t) (ti_trace t).
Definition set_unbox (s : TcpIntefaceUnboxState) (boxSize : nat) (t : Bdt_TcpInterface) :=
  mkTcp (ti_socketRefCount t) (ti_state t) (ti_owner t) (ti_socket t) (ti_waitFirstPackageTimer t) (ti_cache t)
    (ti_isCrypto t) (ti_aesKey t) (ti_firstBlockSize t) s boxSize (ti_allocated t) (ti_trace t).
Definition set_allocated (n : nat) (t : Bdt_TcpInterface) :=
  mkTcp (ti_socketRefCount t) (ti_state t) (ti_owner t) (ti_socket t) (ti_waitFirstPackageTimer t) (ti_cache t)
    (ti_isCrypto t) (ti_aesKey t) (ti_firstBlockSize t) (ti_unboxState t) (ti_boxSize t) n (ti_trace t).
Definition set_trace (l : list TcpAction) (t : Bdt_TcpInterface) :=
  mkTcp (ti_socketRefCount t) (ti_state t) (ti_owner t) (ti_socket t) (ti_waitFirstPackageTimer t) (ti_cache t)
    (ti_isCrypto t) (ti_aesKey t) (ti_firstBlockSize t) (ti_unboxState t) (ti_boxSize t) (ti_allocated t) l.

Notation TM := (M Bdt_TcpInterface).

Definition get {A} (f : Bdt_TcpInterface → A) : TM A := mread (λ t, Some (f t)).
Definition act (a : TcpAction) : TM unit := mwrite (λ t, set_trace (a :: ti_trace t) t).

(** ** References to the socket *)

Definition TcpInterfaceAddRefSocket : TM unit := mwrite (λ t, set_socketRefCount (ti_socketRefCount t + 1) t).

(** To destroy the socket that is NULL is a fault. *)
Definition TcpInterfaceReleaseSocket : TM unit :=
  mwrite (λ t, set_socketRefCount (ti_socketRefCount t - 1) t) ;;
  n ← get ti_socketRefCount;
  if decide (n ≤ 0) then
    socket ← get ti_socket;
    massert socket ;;
    act SocketDestroy ;;
    mwrite (set_socket false)
  else mret tt.

(** What a call hands to the socket is [socket]: NULL is a fault. *)
Definition with_socket (a : TcpAction) : TM unit :=
  socket ← get ti_socket;
  massert socket ;;
  act a.

(** ** Owners *)

Definition Bdt_TcpInterfaceSetOwner (owner : option Z) : TM Z :=
  state ← get ti_state;
  if decide (state = BDT_TCP_INTERFACE_STATE_CLOSED) then mret BFX_RESULT_INVALID_STATE
  else
    old ← get ti_owner;
    mwrite (set_owner owner) ;;
    match owner with Some owner => act (OwnerAddRef owner) | None => mret tt end ;;
    match old with Some old => act (OwnerRelease old) | None => mret tt end ;;
    mret BFX_RESULT_SUCCESS.

Definition TcpInterfaceGetOwner : TM (option Z) :=
  owner ← get ti_owner;
  match owner with Some owner => act (OwnerAddRef owner) | None => mret tt end ;;
  mret owner.

(** ** States *)

Definition Bdt_TcpInterfaceSetState (oldState newState : Bdt_TcpInterfaceState) : TM Bdt_TcpInterfaceState :=
  fromState ← get ti_state;
  if decide (fromState ≠ oldState) then mret fromState
  else
    mwrite (set_state newState) ;;
    TcpInterfaceAddRefSocket ;;
    (if decide (newState = BDT_TCP_INTERFACE_STATE_WAIT_FIRST_RESP) then with_socket SocketResume else mret tt) ;;
    TcpInterfaceReleaseSocket ;;
    mret fromState.

Definition Bdt_TcpInterfaceSetAesKey (aesKey : list Z) : TM unit :=
  mwrite (set_aesKey aesKey) ;;
  mwrite (set_isCrypto true).

Definition release_owner (owner : option Z) : TM unit :=
  match owner with Some owner => act (OwnerRelease owner) | None => mret tt end.

Definition Bdt_TcpInterfaceClose : TM Z :=
  oldState ← get ti_state;
  if decide (oldState = BDT_TCP_INTERFACE_STATE_CLOSED) then mret BFX_RESULT_INVALID_STATE
  else
    TcpInterfaceAddRefSocket ;;
    owner ←
      (if decide (oldState = BDT_TCP_INTERFACE_STATE_STREAM)
       then mwrite (set_state BDT_TCP_INTERFACE_STATE_STREAM_CLOSING) ;; mret None
       else
         mwrite (set_state BDT_TCP_INTERFACE_STATE_CLOSED) ;;
         owner ← get ti_owner;
         mwrite (set_owner None) ;;
         mret owner);
    with_socket (SocketClose false) ;;
    (if decide (oldState ≠ BDT_TCP_INTERFACE_STATE_STREAM) then TcpInterfaceReleaseSocket else mret tt) ;;
    TcpInterfaceReleaseSocket ;;
    release_owner owner ;;
    mret BFX_RESULT_SUCCESS.

Definition Bdt_TcpInterfaceReset : TM Z :=
  oldState ← get ti_state;
  if decide (oldState = BDT_TCP_INTERFACE_STATE_CLOSED) then mret BFX_RESULT_INVALID_STATE
  else
    mwrite (set_state BDT_TCP_INTERFACE_STATE_CLOSED) ;;
    owner ← get ti_owner;
    mwrite (set_owner None) ;;
    release_owner owner ;;
    with_socket (SocketClose true) ;;
    TcpInterfaceReleaseSocket ;;
    mret BFX_RESULT_SUCCESS.

(** What the socket answers to the next question, and how many bytes it takes. *)
Context (socket_result : nat → Z) (socket_sent : nat → nat).

Definition asked : TM nat := get (λ t, length (ti_trace t)).

Definition Bdt_TcpInterfaceConnect : TM Z :=
  state ← get ti_state;
  if decide (BDT_TCP_INTERFACE_STATE_NONE ≠ state) then mret BFX_RESULT_INVALID_STATE
  else
    mwrite (set_state BDT_TCP_INTERFACE_STATE_CONNECTING) ;;
    TcpInterfaceAddRefSocket ;;
    n ← asked;
    with_socket SocketConnect ;;
    TcpInterfaceReleaseSocket ;;
    mret (socket_result n).

(** What [Send], [Pause] and [Resume] share. *)
Definition on_socket {A} (refused : A) (answer : nat → A) (a : TcpAction) : TM (Z * A) :=
  state ← get ti_state;
  if decide (state = BDT_TCP_INTERFACE_STATE_CLOSED) then mret (BFX_RESULT_INVALID_STATE, refused)
  else
    TcpInterfaceAddRefSocket ;;
    n ← asked;
    with_socket a ;;
    TcpInterfaceReleaseSocket ;;
    mret (socket_result n, answer n).

(** [*outSent], which is not written when the interface is closed. *)
Definition Bdt_TcpInterfaceSend (data : list Z) : TM (Z * option nat) :=
  on_socket None (λ n, Some (socket_sent n)) (SocketSend data).
Definition Bdt_TcpInterfacePause : TM Z := '(result, _) ← on_socket tt (λ _, tt) SocketPause; mret result.
Definition Bdt_TcpInterfaceResume : TM Z := '(result, _) ← on_socket tt (λ _, tt) SocketResume; mret result.

(** ** Creation *)

Definition TCP_FIRST_PACKAGE_SIZE : nat := 6.

(** With a socket that was accepted ([passive]), or with a new one. *)
Definition TcpInterfaceCreate (passive : bool) : Bdt_TcpInterface :=
  mkTcp 1 (if passive then BDT_TCP_INTERFACE_STATE_WAIT_FIRST_PACKAGE else BDT_TCP_INTERFACE_STATE_NONE)
    None true passive [] false (replicate 32 0) TCP_FIRST_PACKAGE_SIZE BDT_TCP_UNBOX_STATE_READING_LENGTH 0 0
    (if passive then [SocketResume; CreateTimeout] else []).

Definition OnTcpWaitFirstPackageOvertime : TM unit :=
  mwrite (set_timer false) ;;
  state ← get ti_state;
  if decide (state = BDT_TCP_INTERFACE_STATE_WAIT_FIRST_PACKAGE) then _ ← Bdt_TcpInterfaceReset; mret tt else mret tt.

(** ** Telling the owner *)

(** What an owner, or the tunnel a first package is given to, does. *)
Inductive OwnerCall :=
  | CallSetState (oldState newState : Bdt_TcpInterfaceState)
  | CallSetAesKey (aesKey : list Z)
  | CallSetOwner (owner : option Z)
  | CallSend (data : list Z)
  | CallPause
  | CallResume
  | CallConnect
  | CallClose
  | CallReset.

Definition run_call (c : OwnerCall) : TM unit :=
  match c with
  | CallSetState oldState newState => _ ← Bdt_TcpInterfaceSetState oldState newState; mret tt
  | CallSetAesKey aesKey => Bdt_TcpInterfaceSetAesKey aesKey
  | CallSetOwner owner => _ ← Bdt_TcpInterfaceSetOwner owner; mret tt
  | CallSend data => _ ← Bdt_TcpInterfaceSend data; mret tt
  | CallPause => _ ← Bdt_TcpInterfacePause; mret tt
  | CallResume => _ ← Bdt_TcpInterfaceResume; mret tt
  | CallConnect => _ ← Bdt_TcpInterfaceConnect; mret tt
  | CallClose => _ ← Bdt_TcpInterfaceClose; mret tt
  | CallReset => _ ← Bdt_TcpInterfaceReset; mret tt
  end.

Fixpoint run_calls (l : list OwnerCall) : TM unit :=
  match l with
  | [] => mret tt
  | c :: l => run_call c ;; run_calls l
  end.

(** What the owner does with an event, and its answer; [None] when it has no
    function for it. *)
Context (owner_event : nat → Z → TcpEvent → option (list OwnerCall * Z)).

Definition tell_owner (event : TcpEvent) : TM Z :=
  owner ← TcpInterfaceGetOwner;
  match owner with
  | None => mret BFX_RESULT_NOT_FOUND
  | Some owner =>
      n ← asked;
      result ←
        match owner_event n owner event with
        | Some (calls, result) => act (OwnerEvent owner event) ;; run_calls calls ;; mret result
        | None => mret BFX_RESULT_NOT_IMPL
        end;
      act (OwnerRelease owner) ;;
      mret result
  end.

(** [BDT_TCP_SOCKET_EVENT_CONNECTION] is about the listener and not here. *)
Inductive TcpSocketEvent :=
  | BDT_TCP_SOCKET_EVENT_ESTABLISH
  | BDT_TCP_SOCKET_EVENT_DRAIN
  | BDT_TCP_SOCKET_EVENT_ERROR (eventParam : Z).

Definition BFX_GET_RESULTCODE (r : Z) : Z := Z.land r 65535.

Definition BdtPushTcpSocketEvent (event : TcpSocketEvent) : TM unit :=
  match event with
  | BDT_TCP_SOCKET_EVENT_ESTABLISH =>
      from ← Bdt_TcpInterfaceSetState BDT_TCP_INTERFACE_STATE_CONNECTING BDT_TCP_INTERFACE_STATE_ESTABLISH;
      if decide (BDT_TCP_INTERFACE_STATE_CONNECTING ≠ from) then mret tt
      else _ ← tell_owner OnEstablish; mret tt
  | BDT_TCP_SOCKET_EVENT_DRAIN => _ ← tell_owner OnDrain; mret tt
  | BDT_TCP_SOCKET_EVENT_ERROR eventParam => _ ← tell_owner (OnError (BFX_GET_RESULTCODE eventParam)); mret tt
  end.

End tcp.
