(* ===== verification/TcpUnbox.v ===== *)
(** * Unboxing a TCP stream

    Models how a [Bdt_TcpInterface] cuts what its socket delivers into boxes
    and hands on what they hold ([TcpInterfaceUnboxParserPushData] and
    [BdtPushTcpSocketData] of [BDTCore/Interface/TcpInterface.imp.inl]).

    A box is the list of its bytes: a box that is in the cache lies in the
    buffer that is swapped out, where nothing is written before it is handed
    on.  [behind] is what lies in memory behind the data or the cached bytes.
    The recursive calls take fuel. *)

From S2P Require Import Prelude CInt Package BufferStream Codec SessionCodec Endpoint PackageFields PackageCodec HandCodec MergedPackages AesPadding Crypto UdpBox TcpInterface.

Definition TCP_INTERFACE_CACHE_SIZE : nat := Z.to_nat (64 * 1024).
Definition TCP_FIRST_MIXHASH_SIZE : nat := 10.
Definition TCP_FIRST_EXCHANGE_SIZE : nat := 138.
Definition TCP_FIRST_BLCOK_SIZE : nat := 138.
Definition TCP_FIRST_PACKAGE_MAX_SIZE : Z := 4096.
Definition TCP_FIRST_PACKAGE_MIN_SIZE : Z := 40.
Definition TCP_MAX_BOX_LEN : nat := 32.

(** The interface and the key manager of its stack. *)
Record TcpWorld {P : PeerInfoOps} (St : Type) := mkWorld { w_ti : Bdt_TcpInterface; w_keys : St }.
Arguments mkWorld {_ _}.
Arguments w_ti {_ _}.
Arguments w_keys {_ _}.

(** [TcpInterfaceFirstParams] *)
Record TcpInterfaceFirstParams := mkFirst { fp_remotePeerid : list Z; fp_isStartWithExchangeKey : bool }.

(** The result, [pBoxes], [*pUsed] and the parameters of the first package. *)
Record Parsed := mkParsed {
  pr_result : Z;
  pr_boxes : list (list Z);
  pr_used : nat;
  pr_first : TcpInterfaceFirstParams }.

Section unbox.
Context {P : PeerInfoOps} {A : AesOps} {B : Mbedtls} {St : Type} {K : KeyService St}.
Context (secret junk behind uninit : list Z).

Notation TM := (M Bdt_TcpInterface).
Notation WM := (M (TcpWorld St)).

Definition on_ti {X} (c : TM X) : WM X := λ w,
  match c (w_ti w) with Some (x, t) => Some (x, mkWorld t (w_keys w)) | None => None end.
Definition on_keys {X} (c : M St X) : WM X := λ w,
  match c (w_keys w) with Some (x, s) => Some (x, mkWorld (w_ti w) s) | None => None end.
Definition ti_get {X} (f : Bdt_TcpInterface → X) : WM X := mread (λ w, Some (f (w_ti w))).
Definition ti_set (f : Bdt_TcpInterface → Bdt_TcpInterface) : WM unit := mwrite (λ w, mkWorld (f (w_ti w)) (w_keys w)).

(** [data + n], with [bytes - n]: behind the data is a fault. *)
Definition skip (n : nat) (data : list Z) : WM (list Z) := lift (guard (n ≤ length data)%nat;; Some (drop n data)).

(** ** The cache *)

Definition TcpInterfaceAppendCache (data : list Z) : WM unit :=
  n ← ti_get ti_cacheLength;
  massert (bool_decide (n + length data < TCP_INTERFACE_CACHE_SIZE)%nat) ;;
  ti_set (λ t, set_cache (ti_cache t ++ data) t).

(** [*pCopysize]; a cache that holds more than the target is a fault. *)
Definition TcpInterfaceTryFillCache (targetLength : nat) (data : list Z) : WM nat :=
  n ← ti_get ti_cacheLength;
  massert (bool_decide (n ≤ targetLength)%nat) ;;
  let copysize := if decide (targetLength ≤ length data + n)%nat then (targetLength - n)%nat else length data in
  TcpInterfaceAppendCache (take copysize data) ;;
  mret copysize.

(** ** The parser *)

Definition Parser : Type := list Z → nat → nat → TcpInterfaceFirstParams → WM Parsed.

Definition _tcpInterfaceDecryptoBoxSize (boxSize : Z) : nat := Z.to_nat boxSize.

Section step.
(** The recursive call, and the arguments. *)
Context (rec : Parser) (data : list Z) (boxesLen used : nat) (first : TcpInterfaceFirstParams).

Definition no_box (used : nat) : Parsed := mkParsed BFX_RESULT_SUCCESS [] used first.

(** [pData] *)
Definition guess_data (cached : bool) : WM (list Z) :=
  cache ← ti_get ti_cache;
  mret ((if cached then cache else data) ++ behind).

(** The size in the head of a box in the clear, if it looks like one. *)
Definition clear_head (pData : list Z) : option (option nat) :=
  magic ← get_bytes pData 0 2;
  if decide (magic = [BDT_PROTOCOL_UDP_MAGIC_NUM_0; BDT_PROTOCOL_UDP_MAGIC_NUM_1]) then
    '(_, firstLen, s) ← BfxBufferReadUInt16 (BfxBufferStreamInit (drop 2 pData) (TCP_FIRST_BLCOK_SIZE - 2));
    if decide (TCP_FIRST_PACKAGE_MIN_SIZE < firstLen < TCP_FIRST_PACKAGE_MAX_SIZE) then
      '(_, cmdlen, s) ← BfxBufferReadUInt16 s;
      '(_, _, _) ← BfxBufferReadUInt8 s;
      Some (if decide (cmdlen ≤ firstLen) then Some (Z.to_nat firstLen) else None)
    else Some None
  else Some None.

Definition guess_clear (cached : bool) (readed : nat) : WM Parsed :=
  pData ← guess_data cached;
  head ← lift (clear_head pData);
  match head with
  | Some firstLen =>
      ti_set (set_isCrypto false) ;;
      ti_set (set_unbox BDT_TCP_UNBOX_STATE_READING_BODY firstLen) ;;
      let used := (used + readed)%nat in
      if cached : bool then
        ti_set (λ t, set_cache (drop 4 (ti_cache t)) t) ;;
        rest ← skip readed data;
        rec rest boxesLen (used + readed)%nat first
      else
        rest ← skip 4 data;
        rec rest boxesLen (used + 4)%nat first
  | None =>
      ti_set (set_firstBlockSize TCP_FIRST_MIXHASH_SIZE) ;;
      if cached : bool then
        rest ← skip readed data;
        rec rest boxesLen (used + readed)%nat first
      else rec data boxesLen used first
  end.

(** The hash is looked for in [data], also when the head is in the cache, and
    ten bytes are skipped and twice ten counted in either case. *)
Definition guess_key (cached : bool) (readed : nat) : WM Parsed :=
  hash ← lift (get_bytes (data ++ behind) 0 MIX_HASH_BYTES);
  '(result, found) ← on_keys (FindByMixHash hash true true);
  match (if decide (result = BFX_RESULT_SUCCESS) then found else None) with
  | Some (key, peerid) =>
      ti_set (set_aesKey key) ;;
      ti_set (set_isCrypto true) ;;
      pData ← guess_data cached;
      '(_, aesBoxLen, _) ← lift (BfxBufferReadUInt16
        (BfxBufferStreamInit (drop MIX_HASH_BYTES pData) (TCP_FIRST_BLCOK_SIZE - MIX_HASH_BYTES)));
      ti_set (set_unbox BDT_TCP_UNBOX_STATE_READING_BODY (_tcpInterfaceDecryptoBoxSize aesBoxLen)) ;;
      let readed := (MIX_HASH_BYTES + 2)%nat in
      (if cached : bool then ti_set (λ t, set_cache (drop (MIX_HASH_BYTES + 2) (ti_cache t)) t) else mret tt) ;;
      rest ← skip readed data;
      rec rest boxesLen (used + readed + readed)%nat (mkFirst peerid (fp_isStartWithExchangeKey first))
  | None =>
      ti_set (set_firstBlockSize TCP_FIRST_EXCHANGE_SIZE) ;;
      if cached : bool then
        rest ← skip readed data;
        rec rest boxesLen (used + readed)%nat first
      else rec data boxesLen used first
  end.

(** When the head is in the cache, the length of the key is cut from it instead
    of the length of its encryption. *)
Definition guess_exchange (cached : bool) (readed : nat) : WM Parsed :=
  pData ← guess_data cached;
  r ← lift (Bdt_RsaDecrypt pData secret AES_KEY_BYTES);
  match r with
  | inl _ => mret (mkParsed BFX_RESULT_INVALID_FORMAT [] used first)
  | inr (aesKey, inLen) =>
      ti_set (set_aesKey aesKey) ;;
      let remain := Z.to_nat (size_sub (Z.of_nat TCP_FIRST_BLCOK_SIZE) (Z.of_nat inLen)) in
      '(_, keyHash, s) ← lift (BfxBufferReadByteArray 8 (BfxBufferStreamInit (drop inLen pData) remain));
      if Bdt_CheckAesKeyHash junk aesKey keyHash then
        '(_, aesBoxLen, _) ← lift (BfxBufferReadUInt16 s);
        let first := mkFirst (fp_remotePeerid first) true in
        ti_set (set_isCrypto true) ;;
        ti_set (set_unbox BDT_TCP_UNBOX_STATE_READING_BODY (_tcpInterfaceDecryptoBoxSize aesBoxLen)) ;;
        if cached : bool then
          ti_set (λ t, set_cache (drop (length aesKey + 8 + 2) (ti_cache t)) t) ;;
          rest ← skip readed data;
          rec rest boxesLen (used + readed)%nat first
        else
          let readed := (inLen + 8 + 2)%nat in
          rest ← skip readed data;
          rec rest boxesLen (used + readed)%nat first
      else mret (no_box used)
  end.

Definition guess (cached : bool) (readed : nat) : WM Parsed :=
  block ← ti_get ti_firstBlockSize;
  if decide (block = TCP_FIRST_PACKAGE_SIZE) then guess_clear cached readed
  else if decide (block = TCP_FIRST_MIXHASH_SIZE) then guess_key cached readed
  else if decide (block = TCP_FIRST_EXCHANGE_SIZE) then guess_exchange cached readed
  else mret (no_box used).

Definition first_length : WM Parsed :=
  n ← ti_get ti_cacheLength;
  block ← ti_get ti_firstBlockSize;
  if decide (0 < n)%nat then
    copysize ← TcpInterfaceTryFillCache block data;
    n ← ti_get ti_cacheLength;
    if decide (n = block) then guess true copysize else mret (no_box used)
  else if decide (length data < block)%nat then TcpInterfaceAppendCache data ;; mret (no_box used)
  else guess false 0.

Definition box_done : WM unit :=
  ti_set (λ t, set_unbox BDT_TCP_UNBOX_STATE_READING_LENGTH (ti_boxSize t) t).

Definition first_body : WM Parsed :=
  n ← ti_get ti_cacheLength;
  boxSize ← ti_get ti_boxSize;
  if decide (n ≠ 0)%nat then
    copysize ← TcpInterfaceTryFillCache boxSize data;
    cache ← ti_get ti_cache;
    if decide (length cache = boxSize)%nat then
      box_done ;;
      ti_set (set_cache []) ;;
      mret (mkParsed BFX_RESULT_SUCCESS [cache] (used + copysize) first)
    else mret (no_box (used + copysize))
  else if decide (boxSize ≤ length data)%nat then
    box_done ;;
    mret (mkParsed BFX_RESULT_SUCCESS [take boxSize data] (used + boxSize) first)
  else TcpInterfaceAppendCache data ;; mret (no_box (used + length data)).

Definition body_length : WM Parsed :=
  cache ← ti_get ti_cache;
  if decide (0 < length cache)%nat then
    massert (bool_decide (length cache = 1)%nat) ;;
    size ← lift (get_bytes (cache ++ take 1 data) 0 2);
    ti_set (set_cache []) ;;
    ti_set (set_unbox BDT_TCP_UNBOX_STATE_READING_BODY (_tcpInterfaceDecryptoBoxSize (le_val size))) ;;
    rest ← skip 1 data;
    rec rest boxesLen (used + 1)%nat first
  else if decide (1 < length data)%nat then
    size ← lift (get_bytes data 0 2);
    ti_set (set_cache []) ;;
    ti_set (set_unbox BDT_TCP_UNBOX_STATE_READING_BODY (_tcpInterfaceDecryptoBoxSize (le_val size))) ;;
    rest ← skip 2 data;
    rec rest boxesLen (used + 2)%nat first
  else TcpInterfaceAppendCache data ;; mret (no_box (used + 1)).

(** After a box: more boxes from the data that is left, if there is room. *)
Definition more_boxes (box : list Z) (copysize : nat) (used : nat) : WM Parsed :=
  state ← ti_get ti_state;
  if decide (state = BDT_TCP_INTERFACE_STATE_WAIT_FIRST_RESP) then mret (mkParsed BFX_RESULT_SUCCESS [box] used first)
  else if decide (1 < boxesLen)%nat then
    rest ← skip copysize data;
    r ← rec rest (boxesLen - 1)%nat used first;
    mret (mkParsed (pr_result r) (box :: pr_boxes r) (pr_used r) (pr_first r))
  else mret (mkParsed BFX_RESULT_SUCCESS [box] used first).

Definition body_body : WM Parsed :=
  n ← ti_get ti_cacheLength;
  boxSize ← ti_get ti_boxSize;
  if decide (n ≠ 0)%nat then
    copysize ← TcpInterfaceTryFillCache boxSize data;
    cache ← ti_get ti_cache;
    if decide (boxSize ≤ length cache)%nat then
      box_done ;;
      ti_set (set_cache []) ;;
      more_boxes cache copysize (used + copysize)
    else mret (no_box (used + copysize))
  else if decide (boxSize ≤ length data)%nat then
    box_done ;;
    more_boxes (take boxSize data) boxSize (used + boxSize)
  else TcpInterfaceAppendCache data ;; mret (no_box (used + length data)).

Definition parser_step : WM Parsed :=
  massert (bool_decide (0 < boxesLen)%nat) ;;
  match data with
  | [] => mret (no_box used)
  | _ =>
      state ← ti_get ti_state;
      unboxState ← ti_get ti_unboxState;
      match state with
      | BDT_TCP_INTERFACE_STATE_WAIT_FIRST_PACKAGE =>
          match unboxState with
          | BDT_TCP_UNBOX_STATE_READING_LENGTH => first_length
          | BDT_TCP_UNBOX_STATE_READING_BODY => first_body
          end
      | BDT_TCP_INTERFACE_STATE_PACKAGE | BDT_TCP_INTERFACE_STATE_STREAM | BDT_TCP_INTERFACE_STATE_WAIT_FIRST_RESP =>
          match unboxState with
          | BDT_TCP_UNBOX_STATE_READING_LENGTH => body_length
          | BDT_TCP_UNBOX_STATE_READING_BODY => body_body
          end
      | _ => mret (no_box used)
      end
  end.
End step.

Fixpoint TcpInterfaceUnboxParserPushData (fuel : nat) : Parser :=
  match fuel with
  | O => λ _ _ _ _, mfault
  | S fuel => parser_step (TcpInterfaceUnboxParserPushData fuel)
  end.
End unbox.
