(* ===== verification/TcpPush.v ===== *)
(** * What a TCP socket delivers

    Models [BdtPushTcpSocketData] and what it calls
    ([BDTCore/Interface/TcpInterface.imp.inl]): boxes are decrypted and decoded
    and told to the owner, or, for the first package, to a tunnel.  A decoded
    package has the number of its allocation, so that the trace shows what is
    used or freed again. *)

From S2P Require Import Prelude CInt Package BufferStream Codec SessionCodec Endpoint PackageFields PackageCodec HandCodec MergedPackages AesPadding Crypto UdpBox TcpInterface TcpUnbox.

Section push.
Context {P : PeerInfoOps} {A : AesOps} {B : Mbedtls} {St : Type} {K : KeyService St}.
Context (secret junk behind uninit : list Z).
Context (socket_result : nat → Z) (socket_sent : nat → nat).
Context (owner_event : nat → Z → TcpEvent → option (list OwnerCall * Z)).

(** The tunnels: whether there is a container for a peer, whether one can be
    made, and what it does with a first package. *)
Context (has_container create_container : nat → list Z → bool).
Context (tunnel_first : nat → list Z → AnyPackage → list OwnerCall * Z).

Notation TM := (M Bdt_TcpInterface).
Notation WM := (M (TcpWorld St)).
Notation tell := (tell_owner socket_result socket_sent owner_event).

Definition Slots : Type := list (option PackagePtr).

Definition ti_act (a : TcpAction) : WM unit := on_ti (act a).

(** ** Handing on *)

Definition TcpInterfaceOnData (data : list Z) : WM Z := on_ti (tell (OnData data)).
Definition TcpInterfaceOnPackages (packages : Slots) : WM Z := on_ti (tell (OnPackage packages)).

Definition TcpInterfaceOnFirstResp (packages : Slots) : WM Z :=
  second ← lift (packages !! 1%nat);
  massert (bool_decide (second = None)) ;;
  first ← lift (mjoin (packages !! 0%nat));
  on_ti (tell (OnFirstResp first)).

(** The package behind an exchange of a key, whose key is added, or the first. *)
Definition first_of_first (packages : Slots) : WM PackagePtr :=
  first ← lift (mjoin (packages !! 0%nat));
  second ← lift (packages !! 1%nat);
  match first.2 with
  | Fields p =>
      if decide (pk_cmdtype p = BDT_EXCHANGEKEY_PACKAGE) then
        third ← lift (packages !! 2%nat);
        massert (bool_decide (third = None)) ;;
        fromPeerid ← lift match pk_member p s_fieldName_fromPeerid with VBytes id => Some id | _ => None end;
        aesKey ← ti_get ti_aesKey;
        _ ← on_keys (AddKey aesKey fromPeerid true);
        lift second
      else massert (bool_decide (second = None)) ;; mret first
  | Session _ => massert (bool_decide (second = None)) ;; mret first
  end.

Definition ti_asked : WM nat := on_ti asked.

Definition TcpInterfaceOnFirstPackages (packages : Slots) (keyPeerid : list Z) : WM Z :=
  firstPackage ← first_of_first packages;
  n ← ti_asked;
  container ←
    (if has_container n keyPeerid then mret true
     else if bool_decide (package_type firstPackage.2 = BDT_SYN_TUNNEL_PACKAGE) ||
             bool_decide (package_type firstPackage.2 = BDT_TCP_SYN_CONNECTION_PACKAGE)
     then ti_act (CreateContainer keyPeerid) ;; mret (create_container n keyPeerid)
     else mret false);
  if container : bool then
    n ← ti_asked;
    ti_act (TcpFirstPackage keyPeerid firstPackage) ;;
    let '(calls, result) := tunnel_first n keyPeerid firstPackage.2 in
    on_ti (run_calls socket_result socket_sent calls) ;;
    mret result
  else mret BFX_RESULT_INVALID_PARAM.

(** ** Boxes *)

Fixpoint free_slots (n : nat) (packages : Slots) : WM unit :=
  match n with
  | O => mret tt
  | S n =>
      match packages with
      | [] => mfault
      | None :: _ => mret tt
      | Some package :: packages => ti_act (PackageFree package) ;; free_slots n packages
      end
  end.
Definition TcpInterfaceFreePackages (packages : Slots) : WM unit := free_slots BDT_PROTOCOL_MIN_PACKAGE_LENGTH packages.

(** [Bdt_AesDecryptDataWithPadding] in place; a box that is not positive resets
    the interface. *)
Definition decrypt_box (box : list Z) : WM (option (list Z * nat)) :=
  aesKey ← ti_get ti_aesKey;
  '(r, data) ← lift (AesDecrypt aesKey (box ++ behind) (Z.of_nat (length box)) box);
  if decide (r ≤ 0) then _ ← on_ti Bdt_TcpInterfaceReset; mret None
  else mret (Some (data, Z.to_nat r)).

Definition open_box (box : list Z) : WM (option (list Z * nat)) :=
  isCrypto ← ti_get ti_isCrypto;
  if isCrypto : bool then decrypt_box box else mret (Some (box, length box)).

(** [Bdt_DecodePackage] clears the first entry and fills the array from there. *)
Definition fill_slots (n : nat) (l : list AnyPackage) (packages : Slots) : Slots :=
  match l with
  | [] => None :: tail packages
  | _ => imap (λ i p, Some ((n + i)%nat, p)) l ++ drop (length l) packages
  end.

Definition decode_box (data : list Z) (realSize : nat) (packages : Slots) (start : bool) : WM (Z * Slots) :=
  '(r, l) ← lift (Bdt_DecodePackage uninit (data ++ behind) realSize None (length packages) start);
  n ← ti_get ti_allocated;
  ti_set (set_allocated (n + length l)%nat) ;;
  mret (r, fill_slots n l packages).

(** The answer is whether to go on. *)
Fixpoint push_stream (boxes : list (list Z)) : WM bool :=
  match boxes with
  | [] => mret true
  | box :: boxes =>
      o ← decrypt_box box;
      match o with
      | None => mret false
      | Some (data, r) => _ ← TcpInterfaceOnData (take r data); push_stream boxes
      end
  end.

Fixpoint push_packages (boxes : list (list Z)) (packages : Slots) : WM bool :=
  match boxes with
  | [] => mret true
  | box :: boxes =>
      o ← open_box box;
      match o with
      | None => mret false
      | Some (data, realSize) =>
          '(r, packages) ← decode_box data realSize packages false;
          if decide (r < 0) then _ ← on_ti Bdt_TcpInterfaceReset; mret false
          else
            state ← ti_get ti_state;
            (if decide (state = BDT_TCP_INTERFACE_STATE_PACKAGE)
             then _ ← TcpInterfaceOnPackages packages; mret tt else mret tt) ;;
            TcpInterfaceFreePackages packages ;;
            push_packages boxes packages
      end
  end.

Definition push_first (boxes : list (list Z)) (first : TcpInterfaceFirstParams) (packages : Slots) : WM bool :=
  massert (bool_decide (length boxes = 1)%nat) ;;
  box ← lift (head boxes);
  o ← open_box box;
  match o with
  | None => mret false
  | Some (data, realSize) =>
      '(r, packages) ← decode_box data realSize packages (fp_isStartWithExchangeKey first);
      if decide (r < 0) then _ ← on_ti Bdt_TcpInterfaceReset; mret false
      else
        state ← ti_get ti_state;
        r ← (if decide (state = BDT_TCP_INTERFACE_STATE_WAIT_FIRST_PACKAGE)
             then TcpInterfaceOnFirstPackages packages (fp_remotePeerid first)
             else if decide (state = BDT_TCP_INTERFACE_STATE_WAIT_FIRST_RESP) then TcpInterfaceOnFirstResp packages
             else mret r);
        TcpInterfaceFreePackages packages ;;
        mret (bool_decide (r = BFX_RESULT_SUCCESS))
  end.

(** The remote side closed. *)
Definition push_end : TM unit :=
  oldState ← get ti_state;
  owner ←
    (if decide (oldState = BDT_TCP_INTERFACE_STATE_STREAM)
     then mwrite (set_state BDT_TCP_INTERFACE_STATE_STREAM_RECV_CLOSED) ;; mret None
     else if decide (oldState = BDT_TCP_INTERFACE_STATE_STREAM_CLOSING) then
       mwrite (set_state BDT_TCP_INTERFACE_STATE_CLOSED) ;;
       owner ← get ti_owner;
       mwrite (set_owner None) ;;
       mret owner
     else mret None);
  (if decide (oldState = BDT_TCP_INTERFACE_STATE_STREAM) then _ ← tell (OnData []); mret tt else mret tt) ;;
  (if decide (oldState = BDT_TCP_INTERFACE_STATE_STREAM_CLOSING) then TcpInterfaceReleaseSocket else mret tt) ;;
  release_owner owner.

Definition first_params : TcpInterfaceFirstParams := mkFirst (replicate 32 0) false.

Definition push_boxes (boxes : list (list Z)) (first : TcpInterfaceFirstParams) : WM bool :=
  state ← ti_get ti_state;
  isCrypto ← ti_get ti_isCrypto;
  match state with
  | BDT_TCP_INTERFACE_STATE_STREAM => massert isCrypto ;; push_stream boxes
  | BDT_TCP_INTERFACE_STATE_PACKAGE => push_packages boxes (replicate BDT_MAX_PACKAGE_MERGE_LENGTH None)
  | BDT_TCP_INTERFACE_STATE_WAIT_FIRST_PACKAGE | BDT_TCP_INTERFACE_STATE_WAIT_FIRST_RESP =>
      push_first boxes first (replicate BDT_MAX_PACKAGE_MERGE_LENGTH None)
  | _ => mfault
  end.

(** [parser_fuel] bounds the recursion of the parser. *)
Definition parser_fuel (data : list Z) : nat := (2 * length data + 8)%nat.

Fixpoint BdtPushTcpSocketData (fuel : nat) (data : list Z) : WM unit :=
  match fuel with
  | O => mfault
  | S fuel =>
      massert (bool_decide (Z.of_nat (length data) ≤ 65536)) ;;
      state ← ti_get ti_state;
      isCrypto ← ti_get ti_isCrypto;
      if decide (state = BDT_TCP_INTERFACE_STATE_STREAM ∧ isCrypto = false)
      then _ ← TcpInterfaceOnData data; mret tt
      else if decide (data = []) then on_ti push_end
      else
        r ← TcpInterfaceUnboxParserPushData secret junk behind (parser_fuel data) data TCP_MAX_BOX_LEN 0%nat first_params;
        if decide (pr_result r ≠ BFX_RESULT_SUCCESS) then _ ← on_ti Bdt_TcpInterfaceReset; mret tt
        else if decide (length (pr_boxes r) < 1)%nat then mret tt
        else
          go_on ← push_boxes (pr_boxes r) (pr_first r);
          if (go_on : bool) && bool_decide (pr_used r < length data)%nat
          then BdtPushTcpSocketData fuel (drop (pr_used r) data) else mret tt
  end.
End push.
