(* ===== verification/TcpBox.v ===== *)
(** * Boxing for a TCP stream

    Models the boxing functions of [BDTCore/Interface/TcpInterface.imp.inl]:
    the first package, later packages, and data, which is encrypted at once
    ([Bdt_TcpInterfaceBoxCryptoData]) or piece by piece
    ([Bdt_TcpInterfaceBeginCryptoData], [AppendCryptoData], [FinishCryptoData]).
    The answers are the result, the memory and what the out parameters are,
    [None] when they are not written.  A box begins with its size as two bytes
    that are not encrypted. *)

From S2P Require Import Prelude CInt Package BufferStream Codec SessionCodec Endpoint PackageFields PackageCodec HandCodec MergedPackages AesPadding Crypto UdpBox TcpInterface.

Definition BFX_RESULT_OVERFLOW : Z := 35.

Section box.
Context {P : PeerInfoOps} {A : AesOps} {B : Mbedtls}.
Context (junk : list Z).

Definition _tcpInterfaceCryptoBoxSize (boxSize : Z) : Z := u16 boxSize.

(** Packages encoded and encrypted behind [used] bytes, the last two of them
    for the size. *)
Definition box_packages (ti : Bdt_TcpInterface) (packages : list AnyPackage) (buffer : list Z) (bufferLen : Z)
    (used : nat) : option (Z * list Z * option Z) :=
  let remainLen := size_sub bufferLen (Z.of_nat used) in
  '(result, outLen, rest) ← Bdt_EncodePackage packages None (drop used buffer) (Z.to_nat remainLen);
  if decide (result ≠ BFX_RESULT_SUCCESS) then Some (result, take used buffer ++ rest, None)
  else
    '(targetLen, rest) ← AesEncrypt (ti_aesKey ti) rest outLen remainLen remainLen;
    let buffer := take used buffer ++ rest in
    if decide (targetLen < 0) then Some (BFX_RESULT_FAILED, buffer, None)
    else if decide (65535 < targetLen) then Some (BFX_RESULT_OVERFLOW, buffer, None)
    else
      buffer ← put_bytes buffer (used - 2) (le_bytes 2 (_tcpInterfaceCryptoBoxSize targetLen));
      Some (BFX_RESULT_SUCCESS, buffer, Some (Z.of_nat used + targetLen)).

(** Answers the packages too: the exchange of a key is signed. *)
Definition Bdt_TcpInterfaceBoxFirstPackage (ti : Bdt_TcpInterface) (packages : list AnyPackage) (buffer : list Z)
    (bufferLen : Z) (remotePublic secret : list Z) : option (Z * list Z * option Z * list AnyPackage) :=
  match packages with
  | [] => Some (BFX_RESULT_SUCCESS, buffer, None, packages)
  | pkg :: others =>
      if ti_isCrypto ti then
        match pkg, bool_decide (package_type pkg = BDT_EXCHANGEKEY_PACKAGE) with
        | Fields pkg, true =>
            match Bdt_RsaEncrypt (ti_aesKey ti) remotePublic bufferLen with
            | inl ret => Some (ret, buffer, None, packages)
            | inr head =>
                buffer ← put_bytes buffer 0 head;
                buffer ← put_bytes buffer (length head) (Bdt_HashAesKey junk (ti_aesKey ti));
                signed ← sign_exchange pkg (ti_aesKey ti) secret;
                match signed with
                | inl ret => Some (ret, buffer, None, packages)
                | inr pkg =>
                    '(result, buffer, written) ← box_packages ti (Fields pkg :: others) buffer bufferLen (length head + 8 + 2);
                    Some (result, buffer, written, Fields pkg :: others)
                end
            end
        | _, _ =>
            buffer ← put_bytes buffer 0 (Bdt_HashAesKey junk (ti_aesKey ti));
            '(result, buffer, written) ← box_packages ti packages buffer bufferLen (MIX_HASH_BYTES + 2);
            Some (result, buffer, written, packages)
        end
      else
        buffer ← put_bytes buffer 0 [BDT_PROTOCOL_UDP_MAGIC_NUM_0; BDT_PROTOCOL_UDP_MAGIC_NUM_1];
        '(r, wirteBytes, rest) ← Bdt_EncodePackage packages None (drop 4 buffer) (Z.to_nat (size_sub bufferLen 2));
        let buffer := take 4 buffer ++ rest in
        if decide (r ≠ BFX_RESULT_SUCCESS) then Some (r, buffer, None, packages)
        else
          guard (Z.of_nat wirteBytes ≤ 65535);;
          if decide (65535 < r) then Some (BFX_RESULT_OVERFLOW, buffer, None, packages)
          else
            buffer ← put_bytes buffer 2 (le_bytes 2 (u16 (Z.of_nat wirteBytes)));
            Some (r, buffer, Some (2 + 2 + Z.of_nat wirteBytes), packages)
  end.

(** Without a key [*pWriteBytes] is not written. *)
Definition Bdt_TcpInterfaceBoxPackage (ti : Bdt_TcpInterface) (packages : list AnyPackage) (buffer : list Z)
    (bufferLen : Z) : option (Z * list Z * option Z) :=
  let remainLen := size_sub bufferLen 2 in
  '(r, wirteBytes, rest) ← Bdt_EncodePackage packages None (drop 2 buffer) (Z.to_nat remainLen);
  let buffer := take 2 buffer ++ rest in
  if decide (r = BFX_RESULT_SUCCESS) then
    if ti_isCrypto ti then
      '(boxsize, rest) ← AesEncrypt (ti_aesKey ti) (drop 2 buffer) wirteBytes remainLen remainLen;
      guard (0 ≤ boxsize ≤ 65535);;
      buffer ← put_bytes (take 2 buffer ++ rest) 0 (le_bytes 2 (_tcpInterfaceCryptoBoxSize boxsize));
      Some (r, buffer, Some (boxsize + 2))
    else
      buffer ← put_bytes buffer 0 (le_bytes 2 (u16 (Z.of_nat wirteBytes)));
      Some (r, buffer, None)
  else Some (r, buffer, None).

(** [buffer] begins with the two bytes in front of the data; the length that
    [Bdt_AesEncryptDataWithPadding] answers is not looked at.  The answer is the
    result, the memory and [*boxsize]. *)
Definition Bdt_TcpInterfaceBoxCryptoData (ti : Bdt_TcpInterface) (buffer : list Z) (dataLen : nat) (bufferLen : Z) :
    option (Z * list Z * Z) :=
  guard (ti_isCrypto ti = true);;
  guard (ti_state ti ≠ BDT_TCP_INTERFACE_STATE_PACKAGE ∧ ti_state ti ≠ BDT_TCP_INTERFACE_STATE_WAIT_FIRST_PACKAGE ∧
         ti_state ti ≠ BDT_TCP_INTERFACE_STATE_WAIT_FIRST_RESP);;
  '(len, rest) ← AesEncrypt (ti_aesKey ti) (drop 2 buffer) dataLen bufferLen bufferLen;
  let boxlen := _tcpInterfaceCryptoBoxSize len in
  buffer ← put_bytes (take 2 buffer ++ rest) 0 (le_bytes 2 boxlen);
  Some (BFX_RESULT_SUCCESS, buffer, boxlen).

(** ** Piece by piece *)

(** [mbedtls_aes_crypt_cbc] on whole blocks; [iv] becomes the last block. *)
Context (cbc_encrypt : list Z → list Z → list Z → list Z).

Definition TCPINTERFACE_DATA_BOX_HEADER_SIZE : nat := 2.
Definition TCPINTERFACE_DATA_CRYPTO_AES_BLOCK_SIZE : nat := 16.

(** [data] is [buffer] behind its first two bytes. *)
Record Bdt_TcpInterfaceCryptoDataContext := mkContext {
  cx_buffer : list Z;
  cx_bufferLen : nat;
  cx_dataOffset : nat;
  cx_iv : list Z }.

Definition Bdt_TcpInterfaceBeginCryptoData (ti : Bdt_TcpInterface) (buffer : list Z) (bufferLen : nat) :
    option Bdt_TcpInterfaceCryptoDataContext :=
  guard (ti_isCrypto ti = true);;
  guard (ti_state ti = BDT_TCP_INTERFACE_STATE_STREAM);;
  Some (mkContext buffer bufferLen 0 (replicate 16 0)).

(** Bytes written to [context->data + pos]. *)
Definition cx_put (c : Bdt_TcpInterfaceCryptoDataContext) (pos : nat) (bs : list Z) :
    option Bdt_TcpInterfaceCryptoDataContext :=
  buffer ← put_bytes (cx_buffer c) (TCPINTERFACE_DATA_BOX_HEADER_SIZE + pos) bs;
  Some (mkContext buffer (cx_bufferLen c) (cx_dataOffset c) (cx_iv c)).

(** [input] encrypted to [context->data + pos]. *)
Definition cx_crypt (ti : Bdt_TcpInterface) (c : Bdt_TcpInterfaceCryptoDataContext) (pos : nat) (input : list Z) :
    option Bdt_TcpInterfaceCryptoDataContext :=
  let output := cbc_encrypt (ti_aesKey ti) (cx_iv c) input in
  c ← cx_put c pos output;
  Some (mkContext (cx_buffer c) (cx_bufferLen c) (cx_dataOffset c) (drop (length output - 16) output)).

Definition cx_advance (n : nat) (c : Bdt_TcpInterfaceCryptoDataContext) : Bdt_TcpInterfaceCryptoDataContext :=
  mkContext (cx_buffer c) (cx_bufferLen c) (cx_dataOffset c + n) (cx_iv c).

(** The block that was begun is filled, and encrypted at the offset behind it;
    the answer is what is left of the data. *)
Definition fill_block (ti : Bdt_TcpInterface) (c : Bdt_TcpInterfaceCryptoDataContext) (data : list Z) :
    option (Bdt_TcpInterfaceCryptoDataContext * list Z) :=
  let thisBlock := (cx_dataOffset c / 16 * 16)%nat in
  if decide (cx_dataOffset c ≠ thisBlock) then
    let nextBlock := (thisBlock + TCPINTERFACE_DATA_CRYPTO_AES_BLOCK_SIZE)%nat in
    let toCopy := Nat.min (length data) (nextBlock - cx_dataOffset c) in
    c ← cx_put c (cx_dataOffset c) (take toCopy data);
    let c := cx_advance toCopy c in
    let data := drop toCopy data in
    if decide (cx_dataOffset c = nextBlock) then
      input ← get_bytes (cx_buffer c) (TCPINTERFACE_DATA_BOX_HEADER_SIZE + cx_dataOffset c) 16;
      c ← cx_crypt ti c (cx_dataOffset c) input;
      Some (c, data)
    else Some (c, data)
  else Some (c, data).

(** The bytes behind the last whole block are copied, but not counted. *)
Definition Bdt_TcpInterfaceAppendCryptoData (ti : Bdt_TcpInterface) (c : Bdt_TcpInterfaceCryptoDataContext)
    (data : list Z) : option Bdt_TcpInterfaceCryptoDataContext :=
  if decide (data = []) then Some c
  else
    let thisBlock := (cx_dataOffset c / 16 * 16)%nat in
    '(c, data) ← fill_block ti c data;
    if decide (data = []) then Some c
    else
      let appendBlock := (length data / 16 * 16)%nat in
      '(c, data) ←
        (if decide (appendBlock ≠ 0)%nat then
           c ← cx_crypt ti c thisBlock (take appendBlock data);
           Some (cx_advance appendBlock c, drop appendBlock data)
         else Some (c, data));
      if decide (data = []) then Some c else cx_put c (cx_dataOffset c) data.

Definition Bdt_TcpInterfaceFinishCryptoData (ti : Bdt_TcpInterface) (c : Bdt_TcpInterfaceCryptoDataContext) :
    option Bdt_TcpInterfaceCryptoDataContext :=
  let nextBlock := ((cx_dataOffset c / 16 + 1) * 16)%nat in
  let padding := u8 (Z.of_nat (nextBlock - cx_dataOffset c)) in
  c ← cx_put c (cx_dataOffset c) (replicate (Z.to_nat padding) padding);
  input ← get_bytes (cx_buffer c) (TCPINTERFACE_DATA_BOX_HEADER_SIZE + cx_dataOffset c) 16;
  c ← cx_crypt ti c (cx_dataOffset c) input;
  buffer ← put_bytes (cx_buffer c) 0 (le_bytes 2 (_tcpInterfaceCryptoBoxSize (Z.of_nat nextBlock)));
  Some (mkContext buffer (nextBlock + 2) nextBlock (cx_iv c)).

Fixpoint append_all (ti : Bdt_TcpInterface) (c : Bdt_TcpInterfaceCryptoDataContext) (pieces : list (list Z)) :
    option Bdt_TcpInterfaceCryptoDataContext :=
  match pieces with
  | [] => Some c
  | data :: pieces => c ← Bdt_TcpInterfaceAppendCryptoData ti c data; append_all ti c pieces
  end.

End box.
