(* ===== verification/TcpProofs.v ===== *)
(** * How a TCP stream is cut

    The parser of [TcpUnbox] against its specification: a stream is a sequence
    of boxes, each behind its size ([cut]); an interface that reads packages or
    data has read the beginning of one ([reading]), and whatever it is given it
    goes on from there, box by box, until nothing is left of it or of the room
    for boxes. *)

From S2P Require Import Prelude CInt Package BufferStream Codec SessionCodec Endpoint PackageFields PackageCodec HandCodec MergedPackages AesPadding Crypto UdpBox TcpInterface TcpUnbox.

(** ** The specification *)

Definition is_byte (b : Z) : Prop := 0 ≤ b < 256.

Definition size_of_head (h : list Z) : nat := Z.to_nat (le_val h).

(** [l] begins with the boxes and goes on with [l']. *)
Inductive cut : list Z → list (list Z) → list Z → Prop :=
  | cut_nil l : cut l [] l
  | cut_cons h box l boxes l' :
      length h = 2%nat → size_of_head h = length box → cut l boxes l' → cut (h ++ box ++ l) (box :: boxes) l'.

Lemma cut_app l boxes l' m boxes' m' :
  cut l boxes l' → cut (l' ++ m) boxes' m' → cut (l ++ m) (boxes ++ boxes') m'.
Proof. induction 1; intros Hc; [done|]. rewrite <- !app_assoc. cbn. by constructor; [| |apply IHcut]. Qed.

Lemma cut_length l boxes l' : cut l boxes l' → length l = (length (concat boxes) + 2 * length boxes + length l')%nat.
Proof. induction 1 as [|h box l boxes l' Hh Hb _ IH]; [done|]. rewrite !length_app, IH, Hh. cbn. rewrite length_app. lia. Qed.

Lemma le_val_two a b : is_byte a → is_byte b → 0 ≤ le_val [a; b] < 65536.
Proof. unfold is_byte. cbn. lia. Qed.

Lemma cache_size : Z.of_nat TCP_INTERFACE_CACHE_SIZE = 65536.
Proof. unfold TCP_INTERFACE_CACHE_SIZE. by rewrite Z2Nat.id. Qed.

Ltac bytes_tac := repeat (apply Forall_cons; split; [done|]); first [done|by apply Forall_nil].

Lemma le_bytes_bytes n v : Forall is_byte (le_bytes n v).
Proof.
  revert v. induction n as [|n IH]; intros v; [by apply Forall_nil|]. cbn [le_bytes].
  apply Forall_cons. split; [|done]. pose proof (Z.mod_pos_bound v 256 ltac:(lia)). unfold is_byte. lia.
Qed.

(** ** Runs of the parser's steps *)

Section parser.
Context {P : PeerInfoOps} {A : AesOps} {B : Mbedtls} {St : Type} {K : KeyService St}.
Context (secret junk behind : list Z).

Notation TM := (M Bdt_TcpInterface).
Notation WM := (M (TcpWorld St)).
Notation world := (TcpWorld St).

Lemma ti_get_bind {X Y} (f : Bdt_TcpInterface → X) (k : X → WM Y) (w : world) : (ti_get f ≫= k) w = k (f (w_ti w)) w.
Proof. done. Qed.
Lemma ti_set_bind {Y} (f : Bdt_TcpInterface → Bdt_TcpInterface) (k : unit → WM Y) (w : world) :
  (ti_set f ≫= k) w = k tt (mkWorld (f (w_ti w)) (w_keys w)).
Proof. done. Qed.
Lemma massert_bind {Y} b (k : unit → WM Y) (w : world) : b = true → (massert b ≫= k) w = k tt w.
Proof. by intros ->. Qed.
Lemma skip_bind {Y} n data (k : list Z → WM Y) (w : world) :
  (n ≤ length data)%nat → (skip n data ≫= k) w = k (drop n data) w.
Proof.
  intros H. unfold mbind, M_bind, skip, lift, mread. by rewrite option_guard_True.
Qed.
Lemma lift_bind {X Y} (o : option X) x (k : X → WM Y) (w : world) : o = Some x → (lift o ≫= k) w = k x w.
Proof. by intros ->. Qed.

(** The interface with another place in the stream. *)
Definition at_unbox (cache : list Z) (s : TcpIntefaceUnboxState) (size : nat) (t : Bdt_TcpInterface) : Bdt_TcpInterface :=
  set_unbox s size (set_cache cache t).
Definition move (cache : list Z) (s : TcpIntefaceUnboxState) (size : nat) (w : world) : world :=
  mkWorld (at_unbox cache s size (w_ti w)) (w_keys w).

Lemma append_bind {Y} data (k : unit → WM Y) (w : world) :
  (length (ti_cache (w_ti w)) + length data < TCP_INTERFACE_CACHE_SIZE)%nat →
  (TcpInterfaceAppendCache data ≫= k) w =
    k tt (move (ti_cache (w_ti w) ++ data) (ti_unboxState (w_ti w)) (ti_boxSize (w_ti w)) w).
Proof.
  intros H. unfold mbind at 1, M_bind at 1, TcpInterfaceAppendCache.
  rewrite ti_get_bind, massert_bind by by apply bool_decide_eq_true_2. done.
Qed.

(** How much of the data a cache takes that is filled up to [target]. *)
Definition fill_size (n target : nat) (data : list Z) : nat := Nat.min (target - n) (length data).

Lemma fill_bind {Y} target data (k : nat → WM Y) (w : world) :
  (length (ti_cache (w_ti w)) ≤ target < TCP_INTERFACE_CACHE_SIZE)%nat →
  let n := fill_size (length (ti_cache (w_ti w))) target data in
  (TcpInterfaceTryFillCache target data ≫= k) w =
    k n (move (ti_cache (w_ti w) ++ take n data) (ti_unboxState (w_ti w)) (ti_boxSize (w_ti w)) w).
Proof.
  intros H n. unfold mbind at 1, M_bind at 1, TcpInterfaceTryFillCache.
  rewrite ti_get_bind, massert_bind by (apply bool_decide_eq_true_2; unfold ti_cacheLength; lia).
  cbv zeta. unfold ti_cacheLength.
  assert (En : (if decide (target ≤ length data + length (ti_cache (w_ti w)))%nat
                then (target - length (ti_cache (w_ti w)))%nat else length data) = n).
  { unfold n, fill_size. case_decide; lia. }
  rewrite En. rewrite append_bind; [done|]. rewrite length_take. unfold n, fill_size. lia.
Qed.

(** ** A place in the stream *)

(** What was read of the stream and not handed on: up to one byte of a head, or
    a head and less than its box. *)
Definition reading (t : Bdt_TcpInterface) (l : list Z) : Prop :=
  Forall is_byte l ∧
  match ti_unboxState t with
  | BDT_TCP_UNBOX_STATE_READING_LENGTH => ti_cache t = l ∧ (length l ≤ 1)%nat
  | BDT_TCP_UNBOX_STATE_READING_BODY =>
      ∃ a b, l = a :: b :: ti_cache t ∧ ti_boxSize t = size_of_head [a; b] ∧
        (length (ti_cache t) < Nat.max 1 (ti_boxSize t))%nat
  end.

Definition in_stream (t : Bdt_TcpInterface) : Prop :=
  ti_state t = BDT_TCP_INTERFACE_STATE_PACKAGE ∨ ti_state t = BDT_TCP_INTERFACE_STATE_STREAM.

Definition unbox_fuel (t : Bdt_TcpInterface) (data : list Z) : nat :=
  (2 * length data + if decide (ti_unboxState t = BDT_TCP_UNBOX_STATE_READING_LENGTH) then 1 else 2)%nat.

Notation push := (TcpInterfaceUnboxParserPushData secret junk behind).

(** What a run of the parser does. *)
Definition parses_boxes (fuel : nat) (data : list Z) (room used : nat) (first : TcpInterfaceFirstParams) (w : world)
    (l : list Z) : Prop :=
  ∃ boxes k l' cache s size,
    push fuel data room used first w = Some (mkParsed BFX_RESULT_SUCCESS boxes (used + k) first, move cache s size w) ∧
    reading (w_ti (move cache s size w)) l' ∧ cut (l ++ take k data) boxes l' ∧ (k ≤ length data)%nat ∧
    (length boxes ≤ room)%nat ∧ (k = length data ∨ length boxes = room).

Lemma push_empty fuel room used first (w : world) l :
  (0 < fuel)%nat → (0 < room)%nat → reading (w_ti w) l → parses_boxes fuel [] room used first w l.
Proof.
  intros Hf Hr Hl. destruct fuel as [|fuel]; [lia|].
  exists [], 0%nat, l, (ti_cache (w_ti w)), (ti_unboxState (w_ti w)), (ti_boxSize (w_ti w)).
  cbn [TcpInterfaceUnboxParserPushData]. unfold parser_step.
  rewrite massert_bind by by apply bool_decide_eq_true_2.
  assert (E : move (ti_cache (w_ti w)) (ti_unboxState (w_ti w)) (ti_boxSize (w_ti w)) w = w) by by destruct w as [[] ?].
  rewrite E. split_and!; [by rewrite Nat.add_0_r|done| |done|cbn; lia|by left].
  rewrite take_nil, app_nil_r. constructor.
Qed.

(** In a stream the parser reads heads and bodies. *)
Lemma push_in_stream fuel data room used first (w : world) :
  data ≠ [] → (0 < room)%nat → in_stream (w_ti w) →
  push (S fuel) data room used first w =
    match ti_unboxState (w_ti w) with
    | BDT_TCP_UNBOX_STATE_READING_LENGTH => body_length (push fuel) data room used first w
    | BDT_TCP_UNBOX_STATE_READING_BODY => body_body (push fuel) data room used first w
    end.
Proof.
  intros Hd Hr Hs. cbn [TcpInterfaceUnboxParserPushData]. unfold parser_step.
  rewrite massert_bind by by apply bool_decide_eq_true_2. destruct data as [|z data]; [done|].
  rewrite !ti_get_bind. by destruct Hs as [-> | ->], (ti_unboxState (w_ti w)).
Qed.

(** The head is complete: the rest is read as a body. *)
Lemma length_done fuel rest room used k0 first (w : world) l a b data :
  parses_boxes fuel rest room (used + k0) first
    (move [] BDT_TCP_UNBOX_STATE_READING_BODY (size_of_head [a; b]) w) [a; b] →
  l ++ take k0 data = [a; b] → rest = drop k0 data → (k0 ≤ length data)%nat →
  ∃ boxes k l' cache s size,
    push fuel rest room (used + k0)%nat first (move [] BDT_TCP_UNBOX_STATE_READING_BODY (size_of_head [a; b]) w) =
      Some (mkParsed BFX_RESULT_SUCCESS boxes (used + k) first, move cache s size w) ∧
    reading (w_ti (move cache s size w)) l' ∧ cut (l ++ take k data) boxes l' ∧ (k ≤ length data)%nat ∧
    (length boxes ≤ room)%nat ∧ (k = length data ∨ length boxes = room).
Proof.
  intros (boxes & k & l' & cache & s & size & E & Hrd & Hc & Hk & Hb & Hor) Hl -> Hk0.
  exists boxes, (k0 + k)%nat, l', cache, s, size. rewrite length_drop in *.
  split_and!; [by rewrite Nat.add_assoc|done| |lia|done|destruct Hor; [left; lia|by right]].
  by rewrite <- take_take_drop, app_assoc, Hl.
Qed.
Lemma reading_move cache s size (w : world) l :
  reading (w_ti (move cache s size w)) l =
  (Forall is_byte l ∧
   match s with
   | BDT_TCP_UNBOX_STATE_READING_LENGTH => cache = l ∧ (length l ≤ 1)%nat
   | BDT_TCP_UNBOX_STATE_READING_BODY =>
       ∃ a b, l = a :: b :: cache ∧ size = size_of_head [a; b] ∧ (length cache < Nat.max 1 size)%nat
   end).
Proof. done. Qed.

Lemma size_bound a b : is_byte a → is_byte b → (size_of_head [a; b] < TCP_INTERFACE_CACHE_SIZE)%nat.
Proof.
  intros Ha Hb. pose proof (le_val_two a b Ha Hb) as H. unfold size_of_head.
  apply Nat2Z.inj_lt. rewrite Z2Nat.id, cache_size by lia. lia.
Qed.

(** The rest of a round: the parser on less data. *)
Definition goes_on (fuel : nat) : Prop :=
  ∀ data room used first (w : world) l,
    in_stream (w_ti w) → reading (w_ti w) l → Forall is_byte data → (0 < room)%nat →
    (unbox_fuel (w_ti w) data ≤ fuel)%nat → parses_boxes fuel data room used first w l.

Lemma push_length fuel data room used first (w : world) l :
  goes_on fuel → data ≠ [] → ti_unboxState (w_ti w) = BDT_TCP_UNBOX_STATE_READING_LENGTH →
  in_stream (w_ti w) → reading (w_ti w) l → Forall is_byte data → (0 < room)%nat → (2 * length data ≤ fuel)%nat →
  parses_boxes (S fuel) data room used first w l.
Proof.
  intros IH Hd Hu Hs [Hbl Hrd] Hbd Hr Hfuel. rewrite Hu in Hrd. destruct Hrd as [Hcache Hl].
  unfold parses_boxes. rewrite push_in_stream by done. rewrite Hu. unfold body_length. rewrite ti_get_bind, Hcache.
  destruct data as [|z data]; [done|]. apply Forall_cons in Hbd as [Hz Hbd]. destruct l as [|y l].
  - rewrite decide_False by (cbn; lia). destruct data as [|z' data].
    + rewrite decide_False by (cbn; lia). rewrite append_bind by (rewrite Hcache; pose proof cache_size; cbn [length app]; lia).
      exists [], 1%nat, [z], [z], BDT_TCP_UNBOX_STATE_READING_LENGTH, (ti_boxSize (w_ti w)).
      rewrite Hcache, Hu. split; [done|]. split; [by rewrite reading_move; split; [bytes_tac|]|].
      split; [constructor|]. cbn. split; [lia|]. split; [lia|by left].
    + rewrite decide_True by (cbn; lia). apply Forall_cons in Hbd as [Hz' Hbd].
      rewrite (lift_bind _ [z; z']) by done. rewrite !ti_set_bind, skip_bind by (cbn; lia).
      apply (length_done fuel _ room used 2 first w [] z z' (z :: z' :: data)); [|done|done|cbn; lia].
      apply IH; [done| |done|done|].
      * split; [bytes_tac|]. exists z, z'. split; [done|]. split; [done|cbn; lia].
      * unfold unbox_fuel. rewrite decide_False by done. rewrite length_drop. cbn [length] in *. lia.
  - destruct l as [|? l]; [|cbn in Hl; lia]. apply Forall_cons in Hbl as [Hy _].
    rewrite decide_True by (cbn; lia). rewrite massert_bind by done. rewrite (lift_bind _ [y; z]) by done.
    rewrite !ti_set_bind, skip_bind by (cbn; lia).
    apply (length_done fuel _ room used 1 first w [y] y z (z :: data)); [|done|done|cbn; lia].
    apply IH; [done| |exact Hbd|done|].
    + split; [bytes_tac|]. exists y, z. split; [done|]. split; [done|cbn; lia].
    + unfold unbox_fuel. rewrite decide_False by done. rewrite length_drop. cbn [length] in *. lia.
Qed.

(** A box is complete. *)
Lemma box_found fuel data room used first (w : world) l a b box cache n k0 :
  goes_on fuel → in_stream (w_ti w) → Forall is_byte data → (0 < room)%nat → (2 * length data + 1 ≤ fuel)%nat →
  is_byte a → is_byte b → l ++ take k0 data = a :: b :: box → size_of_head [a; b] = length box → (k0 ≤ length data)%nat →
  cache = [] →
  ∃ boxes k l' cache' s size,
    more_boxes (push fuel) data room first box k0 (used + k0)
      (move cache BDT_TCP_UNBOX_STATE_READING_LENGTH n w) =
      Some (mkParsed BFX_RESULT_SUCCESS boxes (used + k) first, move cache' s size w) ∧
    reading (w_ti (move cache' s size w)) l' ∧ cut (l ++ take k data) boxes l' ∧ (k ≤ length data)%nat ∧
    (length boxes ≤ room)%nat ∧ (k = length data ∨ length boxes = room).
Proof.
  intros IH Hs Hbd Hr Hf Ha Hb Hl Hsize Hk0 ->. unfold more_boxes. rewrite ti_get_bind.
  rewrite decide_False by (destruct Hs as [E|E]; unfold move, at_unbox; cbn; by rewrite E).
  assert (Hcut : ∀ boxes m l', cut m boxes l' → cut (l ++ take k0 data ++ m) (box :: boxes) l').
  { intros boxes m l' Hc. rewrite app_assoc, Hl. by apply (cut_cons [a; b]). }
  destruct (decide (1 < room)%nat) as [Hroom|Hroom].
  - rewrite skip_bind by done.
    destruct (IH (drop k0 data) (room - 1)%nat (used + k0)%nat first
      (move [] BDT_TCP_UNBOX_STATE_READING_LENGTH n w) []) as (boxes & k & l' & cache' & s & size & E & Hrd & Hc & Hk & Hlb & Hor).
    + done.
    + by rewrite reading_move; split; [|split; [|cbn; lia]].
    + by apply Forall_drop.
    + lia.
    + unfold unbox_fuel. rewrite decide_True, length_drop by done. lia.
    + rewrite length_drop in *. exists (box :: boxes), (k0 + k)%nat, l', cache', s, size.
      split; [rewrite (M_bind_Some _ _ _ _ _ E), Nat.add_assoc; done|]. split; [done|].
      split; [rewrite <- take_take_drop; by apply Hcut|]. cbn [length]. split; [lia|]. split; [lia|].
      destruct Hor; [left; lia|right; lia].
  - exists [box], k0, [], [], BDT_TCP_UNBOX_STATE_READING_LENGTH, n. split; [done|].
    split; [by rewrite reading_move; split; [|split; [|cbn; lia]]|].
    split; [rewrite <- (app_nil_r (take k0 data)); apply Hcut; constructor|]. cbn. split; [done|]. split; [lia|right; lia].
Qed.

Lemma push_body fuel data room used first (w : world) l :
  goes_on fuel → data ≠ [] → ti_unboxState (w_ti w) = BDT_TCP_UNBOX_STATE_READING_BODY →
  in_stream (w_ti w) → reading (w_ti w) l → Forall is_byte data → (0 < room)%nat → (2 * length data + 1 ≤ fuel)%nat →
  parses_boxes (S fuel) data room used first w l.
Proof.
  intros IH Hd Hu Hs [Hbl Hrd] Hbd Hr Hfuel. rewrite Hu in Hrd. destruct Hrd as (a & b & -> & Hsize & Hlen).
  apply Forall_cons in Hbl as [Ha Hbl]. apply Forall_cons in Hbl as [Hb Hbl]. pose proof (size_bound a b Ha Hb) as Hlim.
  unfold parses_boxes. rewrite push_in_stream by done. rewrite Hu. unfold body_body. rewrite !ti_get_bind.
  unfold ti_cacheLength. set (cache := ti_cache (w_ti w)) in *. destruct (decide (length cache ≠ 0)%nat) as [Hne|Hne].
  - rewrite fill_bind by (fold cache; lia). fold cache. set (n := fill_size (length cache) (ti_boxSize (w_ti w)) data).
    assert (Hn : (n ≤ length data)%nat) by (unfold n, fill_size; lia).
    rewrite ti_get_bind. cbn [w_ti move at_unbox set_unbox set_cache ti_cache].
    assert (Hlc : length (cache ++ take n data) = (length cache + n)%nat) by (rewrite length_app, length_take; lia).
    destruct (decide (ti_boxSize (w_ti w) ≤ length (cache ++ take n data))%nat) as [Hfull|Hpart].
    + unfold box_done. rewrite !ti_set_bind.
      apply (box_found fuel data room used first w (a :: b :: cache) a b (cache ++ take n data) [] (ti_boxSize (w_ti w)) n);
        try done. rewrite <- Hsize, Hlc in *. unfold n, fill_size in *. lia.
    + assert (Eall : n = length data) by (unfold n, fill_size in *; lia).
      exists [], n, (a :: b :: cache ++ take n data), (cache ++ take n data), BDT_TCP_UNBOX_STATE_READING_BODY, (ti_boxSize (w_ti w)).
      rewrite Hu. split; [done|]. split.
      { split; [do 2 (apply Forall_cons; split; [done|]); apply Forall_app; split; [done|by apply Forall_take]|].
        exists a, b. split; [done|]. split; [done|].
        change (length (cache ++ take n data) < Nat.max 1 (ti_boxSize (w_ti w)))%nat. lia. }
      split; [constructor|]. cbn. split; [lia|]. split; [lia|by left].
  - assert (Ec : cache = []) by (apply length_zero_iff_nil; lia). destruct (decide (ti_boxSize (w_ti w) ≤ length data)%nat) as [Hfull|Hpart].
    + unfold box_done. rewrite !ti_set_bind.
      change (mkWorld _ (w_keys w)) with (move cache BDT_TCP_UNBOX_STATE_READING_LENGTH (ti_boxSize (w_ti w)) w).
      apply (box_found fuel data room used first w (a :: b :: cache) a b (take (ti_boxSize (w_ti w)) data) cache
        (ti_boxSize (w_ti w)) (ti_boxSize (w_ti w))); try done; [by rewrite Ec|]. rewrite length_take. lia.
    + rewrite append_bind by (fold cache; rewrite Ec; cbn; lia). fold cache. rewrite Hu, Ec.
      exists [], (length data), (a :: b :: data), data, BDT_TCP_UNBOX_STATE_READING_BODY, (ti_boxSize (w_ti w)).
      split; [done|]. split.
      { rewrite reading_move. split; [bytes_tac|]. exists a, b. split; [done|]. split; [done|lia]. }
      split; [rewrite firstn_all; constructor|]. cbn. split; [lia|]. split; [lia|by left].
Qed.

(** The parser on any data. *)
Lemma parser_runs fuel : goes_on fuel.
Proof.
  induction fuel as [|fuel IH]; intros data room used first w l Hs Hrd Hb Hr Hf.
  { unfold unbox_fuel in Hf. case_decide; lia. }
  destruct (decide (data = [])) as [->|Hd]; [by apply push_empty; [lia|..]|].
  unfold unbox_fuel in Hf. destruct (ti_unboxState (w_ti w)) eqn:Hu.
  - rewrite decide_True in Hf by done. apply push_length; try done. lia.
  - rewrite decide_False in Hf by done. apply push_body; try done. lia.
Qed.
End parser.
