(* ===== verification/TcpTheorems.v ===== *)
(** * TCP streams: the theorems

    Data that is boxed on one side of an encrypted stream is delivered to the
    owner on the other side, however the stream is cut into pieces; a first
    package in the clear that is not decoded faults; and the packages of an
    earlier box are freed again with those of a shorter one. *)

From S2P Require Import Prelude CInt Package BufferStream Codec SessionCodec Endpoint PackageFields PackageCodec PackageProofs HandCodec MergedPackages MergedProofs AesPadding Crypto UdpBox TcpInterface TcpUnbox TcpPush TcpBox TcpProofs.

Section stream.
Context {P : PeerInfoOps} {A : AesOps} {AL : AesLaws A} {B : Mbedtls} {St : Type} {K : KeyService St}.
Context (secret junk behind uninit : list Z) (socket_result : nat → Z) (socket_sent : nat → nat).
Context (owner_event : nat → Z → TcpEvent → option (list OwnerCall * Z)).
Context (has_container create_container : nat → list Z → bool) (tunnel_first : nat → list Z → AnyPackage → list OwnerCall * Z).

Notation world := (TcpWorld St).
Notation push := (BdtPushTcpSocketData secret junk behind uninit socket_result socket_sent owner_event has_container
  create_container tunnel_first).

(** ** The bytes of a stream *)

Definition frame (key d : list Z) : list Z :=
  le_bytes 2 (Z.of_nat (aes_length (length d))) ++ aes_cipher key d.
Definition wire (key : list Z) (ds : list (list Z)) : list Z := concat (frame key <$> ds).

(** Data that can be boxed. *)
Definition box_fits (d : list Z) : Prop := Z.of_nat (aes_length (length d)) < 65536.

Lemma size_of_frame d : box_fits d → size_of_head (le_bytes 2 (Z.of_nat (aes_length (length d)))) = aes_length (length d).
Proof.
  intros H. unfold size_of_head. rewrite le_val_bytes. change (8 * Z.of_nat 2) with 16. unfold box_fits in H.
  rewrite Z.mod_small by lia. apply Nat2Z.id.
Qed.

(** A box that is cut from a stream, behind its size. *)
Definition framed (box : list Z) : list Z := le_bytes 2 (Z.of_nat (length box)) ++ box.

(** What is cut from the beginning of a sequence of boxes are these boxes. *)
Lemma cut_framed bs l boxes l' more :
  Forall (λ b, Z.of_nat (length b) < 65536) bs → cut l boxes l' → l ++ more = concat (framed <$> bs) →
  ∃ bs2, bs = boxes ++ bs2 ∧ l' ++ more = concat (framed <$> bs2).
Proof.
  intros Hf Hc. revert bs Hf. induction Hc as [l|h box l boxes l' Hh Hb Hc IH]; intros bs Hf E; [by exists bs|].
  destruct bs as [|b bs]; [apply (f_equal length) in E; rewrite !length_app, Hh in E; discriminate|].
  apply Forall_cons in Hf as [Hd Hf]. rewrite fmap_cons in E. cbn [concat] in E.
  unfold framed in E at 1. rewrite <- !app_assoc in E. apply app_inj_1 in E as [-> E]; [|by rewrite length_le_bytes].
  unfold size_of_head in Hb. rewrite le_val_bytes in Hb. change (8 * Z.of_nat 2) with 16 in Hb.
  rewrite Z.mod_small, Nat2Z.id in Hb by lia. apply app_inj_1 in E as [-> E]; [|done].
  destruct (IH bs Hf E) as (bs2 & -> & E2). by exists bs2.
Qed.

Lemma frame_framed key d : frame key d = framed (aes_cipher key d).
Proof. unfold frame, framed. by rewrite aes_cipher_length. Qed.

Lemma wire_framed key ds : wire key ds = concat (framed <$> (aes_cipher key <$> ds)).
Proof.
  unfold wire. f_equal. rewrite <- list_fmap_compose. apply list_fmap_ext. intros i d _. apply frame_framed.
Qed.

Lemma cut_wire key ds l boxes l' more :
  Forall box_fits ds → cut l boxes l' → l ++ more = wire key ds →
  ∃ ds1 ds2, ds = ds1 ++ ds2 ∧ boxes = aes_cipher key <$> ds1 ∧ l' ++ more = wire key ds2.
Proof.
  intros Hf Hc E. rewrite wire_framed in E.
  assert (Hf' : Forall (λ b, Z.of_nat (length b) < 65536) (aes_cipher key <$> ds)).
  { apply Forall_fmap. eapply Forall_impl; [exact Hf|]. intros d Hd. cbn. by rewrite aes_cipher_length. }
  destruct (cut_framed _ _ _ _ _ Hf' Hc E) as (bs2 & Eb & E2).
  apply fmap_app_inv in Eb as (ds1 & ds2 & -> & -> & ->). exists ds1, ds2. by rewrite wire_framed.
Qed.

(** What was read and not handed on holds no complete box. *)
Lemma reading_not_cut (t : Bdt_TcpInterface) l box boxes l' : reading t l → cut l (box :: boxes) l' → box = [].
Proof.
  intros [_ Hr] Hc. inversion Hc as [|h b l0 bs r Hh Hb _]; subst. destruct (ti_unboxState t).
  - destruct Hr as [_ Hl]. rewrite !length_app in Hl. lia.
  - destruct Hr as (x & y & E & Hs & Hl). destruct h as [|h1 [|h2 [|? ?]]]; try discriminate Hh.
    injection E as -> -> Ec. rewrite <- Ec, length_app, Hs, Hb in Hl. destruct box; [done|]. cbn in Hl. lia.
Qed.

Lemma reading_framed_done bs (t : Bdt_TcpInterface) :
  Forall (λ b, b ≠ [] ∧ Z.of_nat (length b) < 65536) bs → reading t (concat (framed <$> bs)) →
  bs = [] ∧ ti_cache t = [] ∧ ti_unboxState t = BDT_TCP_UNBOX_STATE_READING_LENGTH.
Proof.
  intros Hf Hr. destruct bs as [|b bs].
  - split; [done|]. destruct Hr as [_ Hr]. destruct (ti_unboxState t); [by destruct Hr|]. by destruct Hr as (? & ? & ? & _).
  - exfalso. apply Forall_cons in Hf as [[Hne Hd] _]. apply Hne.
    apply (reading_not_cut t (concat (framed <$> b :: bs)) b [] (concat (framed <$> bs)) Hr).
    rewrite fmap_cons. cbn [concat]. unfold framed at 1. rewrite <- app_assoc.
    constructor; [by rewrite length_le_bytes| |constructor].
    unfold size_of_head. rewrite le_val_bytes. change (8 * Z.of_nat 2) with 16. rewrite Z.mod_small by lia. apply Nat2Z.id.
Qed.

Lemma reading_wire_done key ds (t : Bdt_TcpInterface) :
  Forall box_fits ds → reading t (wire key ds) → ds = [] ∧ ti_cache t = [] ∧ ti_unboxState t = BDT_TCP_UNBOX_STATE_READING_LENGTH.
Proof.
  intros Hf Hr. rewrite wire_framed in Hr. destruct (reading_framed_done (aes_cipher key <$> ds) t) as [E ?]; [|done|].
  - apply Forall_fmap. eapply Forall_impl; [exact Hf|]. intros d Hd. split; [|cbn; by rewrite aes_cipher_length].
    intros E%(f_equal length). cbn [compose] in E. rewrite aes_cipher_length in E.
    pose proof (aes_length_bounds (length d)). cbn in E. lia.
  - by apply fmap_nil_inv in E.
Qed.

(** Boxes that arrive whole are all found. *)
Lemma framed_parsed bs first (w : world) :
  in_stream (w_ti w) → ti_cache (w_ti w) = [] → ti_unboxState (w_ti w) = BDT_TCP_UNBOX_STATE_READING_LENGTH →
  Forall (λ b, b ≠ [] ∧ Z.of_nat (length b) < 65536) bs → Forall is_byte (concat (framed <$> bs)) → (length bs < TCP_MAX_BOX_LEN)%nat →
  let data := concat (framed <$> bs) in
  ∃ size, TcpInterfaceUnboxParserPushData secret junk behind (parser_fuel data) data TCP_MAX_BOX_LEN 0%nat first w =
    Some (mkParsed BFX_RESULT_SUCCESS bs (length data) first, move [] BDT_TCP_UNBOX_STATE_READING_LENGTH size w).
Proof.
  intros Hs Hc Hu Hf Hb Hn data.
  destruct (parser_runs secret junk behind (parser_fuel data) data TCP_MAX_BOX_LEN 0%nat first w [])
    as (boxes & k & l' & cache & s & size & E & Hr' & Hcut & Hk & Hlb & Hor);
    [done|split; [by apply Forall_nil|]; rewrite Hu; split; [done|cbn; lia]|done|unfold TCP_MAX_BOX_LEN; lia|
     unfold unbox_fuel, parser_fuel; case_decide; lia|].
  cbn [app] in Hcut. assert (Hf' : Forall (λ b, Z.of_nat (length b) < 65536) bs) by (eapply Forall_impl; [exact Hf|by intros ? []]).
  destruct (cut_framed bs _ _ _ (drop k data) Hf' Hcut) as (bs2 & Eb & El); [by rewrite take_drop|].
  destruct Hor as [->|Hor]; [|exfalso; apply (f_equal length) in Eb; rewrite length_app in Eb; lia].
  rewrite drop_all, app_nil_r in El. subst l'.
  assert (Hf2 : Forall (λ b, b ≠ [] ∧ Z.of_nat (length b) < 65536) bs2) by (rewrite Eb in Hf; by apply Forall_app in Hf as [_ ?]).
  destruct (reading_framed_done bs2 _ Hf2 Hr') as (-> & Ec & Es). rewrite app_nil_r in Eb. subst boxes.
  cbn in Ec, Es. subst cache s. by exists size.
Qed.

(** ** Delivery *)

(** An owner that does nothing to the interface when it is given data. *)
Definition takes_data (o : Z) : Prop := ∀ n d, ∃ r, owner_event n o (OnData d) = Some ([], r).

Definition told (o : Z) (ds : list (list Z)) (trace : list TcpAction) : list TcpAction :=
  foldl (λ trace d, OwnerRelease o :: OwnerEvent o (OnData d) :: OwnerAddRef o :: trace) trace ds.

Definition with_trace (trace : list TcpAction) (w : world) : world := mkWorld (set_trace trace (w_ti w)) (w_keys w).

Lemma on_data_runs o d (w : world) :
  takes_data o → ti_owner (w_ti w) = Some o →
  ∃ r, TcpInterfaceOnData socket_result socket_sent owner_event d w =
    Some (r, with_trace (told o [d] (ti_trace (w_ti w))) w).
Proof.
  intros Hq Ho. destruct (Hq (length (OwnerAddRef o :: ti_trace (w_ti w))) d) as [r E]. exists r.
  unfold TcpInterfaceOnData, on_ti, tell_owner, TcpInterfaceGetOwner.
  unfold mbind, M_bind, get, mread, act, mwrite, mret, M_ret, asked. rewrite Ho. unfold get, mread.
  cbn [ti_trace set_trace]. rewrite E. done.
Qed.

(** An encrypted stream with a key and an owner. *)
Definition encrypted_stream (key : list Z) (o : Z) (t : Bdt_TcpInterface) : Prop :=
  ti_state t = BDT_TCP_INTERFACE_STATE_STREAM ∧ ti_isCrypto t = true ∧ ti_aesKey t = key ∧ ti_owner t = Some o.

Lemma decrypt_box_runs key d (w : world) :
  ti_aesKey (w_ti w) = key → d ≠ [] →
  ∃ output, decrypt_box behind (aes_cipher key d) w = Some (Some (d ++ output, length d), w).
Proof.
  intros Hk Hd. destruct (aes_decrypts key d behind (aes_cipher key d)) as (output & E & _).
  { by rewrite aes_cipher_length. }
  exists output. unfold decrypt_box. rewrite ti_get_bind, Hk, aes_cipher_length.
  erewrite lift_bind by exact E. cbn beta iota. rewrite decide_False; [by rewrite Nat2Z.id|]. destruct d; [done|]. cbn [length]. lia.
Qed.

Lemma push_stream_runs key o ds (w : world) :
  takes_data o → encrypted_stream key o (w_ti w) → Forall (λ d, d ≠ []) ds →
  push_stream behind socket_result socket_sent owner_event (aes_cipher key <$> ds) w =
    Some (true, with_trace (told o ds (ti_trace (w_ti w))) w).
Proof.
  intros Hq Hw Hd. revert w Hw. induction Hd as [|d ds Hd _ IH]; intros w Hw; rewrite ?fmap_cons; cbn [fmap list_fmap push_stream].
  { by destruct w as [[] ?]. }
  destruct (decrypt_box_runs key d w) as [output E]; [apply Hw|done|].
  rewrite (M_bind_Some _ _ _ _ _ E), take_app_length.
  destruct (on_data_runs o d w Hq) as [r Er]; [apply Hw|]. rewrite (M_bind_Some _ _ _ _ _ Er).
  rewrite IH by done. done.
Qed.

(** A world in which [ds] of the stream are left, some bytes of it read. *)
Record receiving (key : list Z) (o : Z) (ds : list (list Z)) (future : list Z) (w : world) : Prop := {
  rc_stream : encrypted_stream key o (w_ti w);
  rc_read : ∃ l, reading (w_ti w) l ∧ l ++ future = wire key ds }.

Lemma push_runs key o fuel data ds future (w : world) :
  takes_data o → Forall box_fits ds → Forall (λ d, d ≠ []) ds → Forall is_byte data →
  receiving key o ds (data ++ future) w → data ≠ [] → Z.of_nat (length data) ≤ 65536 → (length data < fuel)%nat →
  ∃ ds1 ds2 w', push fuel data w = Some (tt, w') ∧ ds = ds1 ++ ds2 ∧ receiving key o ds2 future w' ∧
    ti_trace (w_ti w') = told o ds1 (ti_trace (w_ti w)) ∧ w_keys w' = w_keys w.
Proof.
  intros Hq. revert data ds w. induction fuel as [|fuel IH]; intros data ds w Hf Hne Hb Hw Hd H64 Hfuel; [lia|].
  destruct Hw as [Hs (l & Hr & El)]. pose proof Hs as (Hst & Hcr & Hkey & Ho). cbn [BdtPushTcpSocketData].
  rewrite massert_bind by by apply bool_decide_eq_true_2. rewrite !ti_get_bind, Hst, Hcr.
  rewrite decide_False by (by intros [_ ?]). rewrite decide_False by done.
  destruct (parser_runs secret junk behind (parser_fuel data) data TCP_MAX_BOX_LEN 0%nat first_params w l)
    as (boxes & k & l' & cache & s & size & E & Hr' & Hc & Hk & Hlb & Hor);
    [by right|done|done|unfold TCP_MAX_BOX_LEN; lia|unfold unbox_fuel, parser_fuel; case_decide; lia|].
  rewrite (M_bind_Some _ _ _ _ _ E). cbn [pr_result pr_boxes pr_used pr_first Nat.add].
  rewrite decide_False by tauto.
  destruct (cut_wire key ds _ _ _ (drop k data ++ future) Hf Hc) as (ds1 & ds2 & -> & -> & El').
  { by rewrite <- El, <- app_assoc, (app_assoc (take k data)), take_drop. }
  apply Forall_app in Hf as [Hf1 Hf2]. apply Forall_app in Hne as [Hne1 Hne2]. rewrite length_fmap in *.
  set (w1 := move cache s size w) in *. assert (Hs1 : encrypted_stream key o (w_ti w1)) by done.
  destruct (decide (length ds1 < 1)%nat) as [Hnone|Hsome].
  { destruct ds1; [|cbn in Hnone; lia]. exists [], ds2, w1. split; [done|]. split; [done|].
    destruct Hor as [->|Hor]; [|discriminate Hor]. rewrite drop_all in El'. split; [split; [done|by exists l']|done]. }
  assert (Eb : push_boxes behind uninit socket_result socket_sent owner_event has_container create_container tunnel_first
    (aes_cipher key <$> ds1) first_params w1 = Some (true, with_trace (told o ds1 (ti_trace (w_ti w1))) w1)).
  { unfold push_boxes. rewrite !ti_get_bind. destruct Hs1 as (-> & -> & _). rewrite massert_bind by done.
    by apply (push_stream_runs key o). }
  rewrite (M_bind_Some _ _ _ _ _ Eb). cbn [andb].
  set (w2 := with_trace _ w1). assert (Hs2 : encrypted_stream key o (w_ti w2)) by done.
  destruct (decide (k < length data)%nat) as [Hlt|Hge].
  - rewrite bool_decide_eq_true_2 by done.
    assert (Hk0 : (0 < k)%nat).
    { destruct k; [|lia]. rewrite take_0, app_nil_r in Hc. destruct ds1 as [|d ds1]; [cbn in Hsome; lia|].
      apply (reading_not_cut _ _ _ _ _ Hr), (f_equal length) in Hc. rewrite aes_cipher_length in Hc.
      pose proof (aes_length_bounds (length d)). cbn in Hc. lia. }
    destruct (IH (drop k data) ds2 w2) as (ds3 & ds4 & w' & Ep & -> & Hw' & Et & Ek);
      [done|done|by apply Forall_drop|split; [done|by exists l']| |rewrite length_drop; lia|rewrite length_drop; lia|].
    { intros En. apply (f_equal length) in En. rewrite length_drop in En. cbn in En. lia. }
    exists (ds1 ++ ds3), ds4, w'. split; [exact Ep|]. split; [by rewrite app_assoc|]. split; [done|].
    split; [|done]. rewrite Et. unfold told. by rewrite foldl_app.
  - rewrite bool_decide_eq_false_2 by done. exists ds1, ds2, w2. split; [done|]. split; [done|].
    rewrite drop_ge in El' by lia. split; [split; [done|by exists l']|done].
Qed.
(** The pieces one after the other, each with more fuel than bytes. *)
Fixpoint push_all (chunks : list (list Z)) : M world unit :=
  match chunks with
  | [] => mret tt
  | data :: chunks => push (S (length data)) data ;; push_all chunks
  end.

Lemma push_all_runs key o chunks ds (w : world) :
  takes_data o → Forall box_fits ds → Forall (λ d, d ≠ []) ds → Forall is_byte (concat chunks) →
  Forall (λ c, c ≠ [] ∧ Z.of_nat (length c) ≤ 65536) chunks → receiving key o ds (concat chunks) w →
  ∃ w', push_all chunks w = Some (tt, w') ∧ receiving key o [] [] w' ∧
    ti_trace (w_ti w') = told o ds (ti_trace (w_ti w)) ∧ w_keys w' = w_keys w.
Proof.
  intros Hq. revert ds w. induction chunks as [|c chunks IH]; intros ds w Hf Hne Hb Hc Hw; cbn [concat push_all] in *.
  - destruct Hw as [Hs (l & Hr & El)]. rewrite app_nil_r in El. subst l.
    destruct (reading_wire_done key ds _ Hf Hr) as (-> & _). exists w. split; [done|].
    split; [split; [done|]|done]. exists []. by split.
  - apply Forall_app in Hb as [Hb1 Hb2]. apply Forall_cons in Hc as [[Hc1 Hc2] Hc].
    destruct (push_runs key o (S (length c)) c ds (concat chunks) w Hq Hf Hne Hb1 Hw Hc1 Hc2 ltac:(lia))
      as (ds1 & ds2 & w1 & E & -> & Hw1 & Et & Ek).
    apply Forall_app in Hf as [_ Hf]. apply Forall_app in Hne as [_ Hne].
    destruct (IH ds2 w1 Hf Hne Hb2 Hc Hw1) as (w' & E' & Hw' & Et' & Ek').
    exists w'. split; [by rewrite (M_bind_Some _ _ _ _ _ E)|]. split; [done|].
    split; [|congruence]. rewrite Et', Et. unfold told. by rewrite foldl_app.
Qed.

(** ** The sender *)

(** What a sender makes of data, one box after the other: each is boxed in a
    buffer with two bytes in front of it and room for the padding behind. *)
Inductive boxed (ti : Bdt_TcpInterface) : list (list Z) → list Z → Prop :=
  | boxed_nil : boxed ti [] []
  | boxed_cons d ds head room n buffer size bytes :
      length head = 2%nat → length room = (aes_length (length d) - length d)%nat → Z.of_nat (aes_length (length d)) ≤ n →
      box_fits d →
      Bdt_TcpInterfaceBoxCryptoData ti (head ++ d ++ room) (length d) n = Some (BFX_RESULT_SUCCESS, buffer, size) →
      boxed ti ds bytes → boxed ti (d :: ds) (take (2 + Z.to_nat size) buffer ++ bytes).

Lemma box_crypto_data ti head d room n :
  ti_isCrypto ti = true → ti_state ti = BDT_TCP_INTERFACE_STATE_STREAM → length head = 2%nat →
  length room = (aes_length (length d) - length d)%nat → Z.of_nat (aes_length (length d)) ≤ n → box_fits d →
  Bdt_TcpInterfaceBoxCryptoData ti (head ++ d ++ room) (length d) n =
    Some (BFX_RESULT_SUCCESS, frame (ti_aesKey ti) d, Z.of_nat (aes_length (length d))).
Proof.
  intros Hc Hs Hh Hr Hn Hf. unfold Bdt_TcpInterfaceBoxCryptoData. unfold box_fits in Hf.
  rewrite option_guard_True by done. cbn [mbind option_bind]. rewrite option_guard_True by (by rewrite Hs).
  cbn [mbind option_bind].
  assert (Ed : drop 2 (head ++ d ++ room) = d ++ room) by (rewrite <- Hh; apply drop_app_length).
  assert (Et : take 2 (head ++ d ++ room) = head) by (rewrite <- Hh; apply take_app_length).
  rewrite Ed, Et. pose proof (aes_encrypts (ti_aesKey ti) d room [] n Hr Hn) as Ee. rewrite !app_nil_r in Ee. rewrite Ee.
  cbn [mbind option_bind]. unfold _tcpInterfaceCryptoBoxSize. rewrite u16_id by lia.
  rewrite put_bytes_front by (by rewrite length_le_bytes). done.
Qed.

Lemma boxed_wire ti ds bytes :
  ti_isCrypto ti = true → ti_state ti = BDT_TCP_INTERFACE_STATE_STREAM → boxed ti ds bytes →
  bytes = wire (ti_aesKey ti) ds ∧ Forall box_fits ds.
Proof.
  intros Hc Hs Hb. induction Hb as [|d ds head room n buffer size bytes Hh Hr Hn Hf E _ [-> IH]]; [by split; [|constructor]|].
  rewrite box_crypto_data in E by done. injection E as <- <-. split; [|by constructor].
  unfold wire. rewrite fmap_cons. cbn [concat]. f_equal. rewrite Nat2Z.id. apply take_ge.
  unfold frame. rewrite length_app, length_le_bytes, aes_cipher_length. done.
Qed.

(** C8: Data that one side of an encrypted stream boxes, piece after piece with
    [Bdt_TcpInterfaceBoxCryptoData], reaches the owner of the other side piece
    by piece, in order, each once and unchanged, however TCP cuts the bytes:
    also inside of a size or of a box, or many boxes at once.  Nothing is left
    in the cache at the end, and no reset happens on the way. *)
Theorem tcp_data_delivered sender o ds bytes chunks (w : world) :
  ti_isCrypto sender = true → ti_state sender = BDT_TCP_INTERFACE_STATE_STREAM →
  boxed sender ds bytes → Forall (λ d, d ≠ []) ds → Forall is_byte bytes →
  bytes = concat chunks → Forall (λ c, c ≠ [] ∧ Z.of_nat (length c) ≤ 65536) chunks →
  takes_data o → encrypted_stream (ti_aesKey sender) o (w_ti w) →
  ti_unboxState (w_ti w) = BDT_TCP_UNBOX_STATE_READING_LENGTH → ti_cache (w_ti w) = [] →
  ∃ w', push_all chunks w = Some (tt, w') ∧
    ti_trace (w_ti w') = told o ds (ti_trace (w_ti w)) ∧
    encrypted_stream (ti_aesKey sender) o (w_ti w') ∧
    ti_unboxState (w_ti w') = BDT_TCP_UNBOX_STATE_READING_LENGTH ∧ ti_cache (w_ti w') = [].
Proof.
  intros Hc Hs Hb Hne Hbytes Ebytes Hch Hq Hw Hu Hcache.
  destruct (boxed_wire sender ds bytes Hc Hs Hb) as [Ew Hf].
  destruct (push_all_runs (ti_aesKey sender) o chunks ds w) as (w' & E & [Hw' (l & Hr & El)] & Et & _); try done.
  - by rewrite <- Ebytes.
  - split; [done|]. exists []. split; [|by rewrite <- Ebytes]. split; [constructor|]. rewrite Hu. split; [done|cbn; lia].
  - rewrite app_nil_r in El. subst l.
    destruct (reading_wire_done (ti_aesKey sender) [] (w_ti w')) as (_ & H1 & H2); [constructor|done|].
    by exists w'.
Qed.

(** ** First packages in the clear *)

(** How a first package in the clear begins. *)
Definition clear_first (body : list Z) : list Z :=
  [BDT_PROTOCOL_UDP_MAGIC_NUM_0; BDT_PROTOCOL_UDP_MAGIC_NUM_1] ++ le_bytes 2 (Z.of_nat (length body)) ++ body.

(** A body whose first package has a length that is too small for its type. *)
Definition refused_body (len cmdtype : Z) (rest : list Z) : list Z := le_bytes 2 len ++ le_bytes 1 cmdtype ++ rest.

Lemma refused_head len cmdtype rest more s :
  0 ≤ len < 2 ^ 16 → 0 ≤ cmdtype < 2 ^ 8 → len < Bdt_GetPackageMinSize cmdtype →
  ready s (refused_body len cmdtype rest) more → ∃ s', package_head s = Some (None, s').
Proof.
  intros Hl Hc Hm Hr. apply ready_split in Hr as [H1 Hr]. rewrite length_le_bytes in Hr.
  apply ready_split in Hr as [H2 Hr]. rewrite length_le_bytes, advance_add in Hr. cbn [Nat.add] in Hr.
  unfold package_head. rewrite (dec_read_done _ _ _ _ _ _ (parses_u16 len Hl 0 _ _ H1)), length_le_bytes.
  cbn [mbind option_bind]. rewrite (dec_read_done _ _ _ _ _ _ (parses_u8 cmdtype Hc 0 _ _ H2)), length_le_bytes, advance_add.
  cbn [mbind option_bind Nat.add]. destruct Hr as (_ & Hr & _). unfold BfxBufferStreamGetTailLength.
  rewrite option_guard_True by lia. cbn [mbind option_bind].
  destruct (Z.ltb_spec len (Bdt_GetPackageMinSize cmdtype)); [|lia]. cbn [orb]. by eexists.
Qed.

Lemma refused_decode len cmdtype rest more capacity :
  0 ≤ len < 2 ^ 16 → 0 ≤ cmdtype < 2 ^ 8 → len < Bdt_GetPackageMinSize cmdtype →
  (0 < length rest)%nat → (2 ≤ length more)%nat → (0 < capacity)%nat →
  let body := refused_body len cmdtype rest in
  Bdt_DecodePackage uninit (body ++ more) (length body) None capacity false = Some (BFX_RESULT_INVALID_ENCODE, []).
Proof.
  intros Hl Hc Hm Hrest Hmore Hcap body. assert (Hlb : (3 < length body)%nat).
  { unfold body, refused_body. rewrite !length_app, !length_le_bytes. lia. }
  unfold Bdt_DecodePackage. rewrite option_guard_True by done. cbn [mbind option_bind].
  set (s := BfxBufferStreamInit (body ++ more) (length body)). cbn [decode_loop fmap option_fmap option_map].
  unfold BfxBufferStreamGetTailLength. rewrite option_guard_True by (cbn; lia). cbn [mbind option_bind].
  change (bs_length s - bs_pos s)%nat with (length body - 0)%nat.
  destruct (Nat.leb_spec (length body - 0) 3); [lia|].
  assert (Hr : ready s body more). { split; [split; [cbn; lia|cbn; by rewrite ?drop_0]|]. split; [done|lia]. }
  destruct (refused_head len cmdtype rest more s Hl Hc Hm Hr) as [s' E]. by rewrite E.
Qed.

Lemma clear_head_runs n len cmdtype rest :
  40 < n < 4096 → 0 ≤ len ≤ n → 0 ≤ cmdtype < 2 ^ 8 → (2 ≤ length rest)%nat →
  clear_head ([BDT_PROTOCOL_UDP_MAGIC_NUM_0; BDT_PROTOCOL_UDP_MAGIC_NUM_1] ++ le_bytes 2 n ++ refused_body len cmdtype rest) =
    Some (Some (Z.to_nat n)).
Proof.
  intros Hn Hl Hc Hrest. unfold clear_head. set (magic := [_; _]).
  change 2%nat with (length magic). rewrite get_bytes_front. cbn [mbind option_bind].
  rewrite decide_True by done. rewrite drop_app_length. set (s := BfxBufferStreamInit _ _).
  assert (Hr : ready s (le_bytes 2 n ++ le_bytes 2 len ++ le_bytes 1 cmdtype) rest).
  { split; [split; [cbn; lia|cbn; by rewrite ?drop_0, <- ?app_assoc]|].
    split; [|lia]. rewrite !length_app, !length_le_bytes. cbn. lia. }
  apply ready_split in Hr as [H1 Hr]. rewrite length_le_bytes in Hr.
  apply ready_split in Hr as [H2 H3]. rewrite length_le_bytes in H3.
  rewrite (dec_read_done _ _ _ _ _ _ (parses_u16 n ltac:(lia) 0 _ _ H1)), length_le_bytes. cbn [mbind option_bind].
  unfold TCP_FIRST_PACKAGE_MIN_SIZE, TCP_FIRST_PACKAGE_MAX_SIZE. rewrite decide_True by lia.
  rewrite (dec_read_done _ _ _ _ _ _ (parses_u16 len ltac:(lia) 0 _ _ H2)), length_le_bytes. cbn [mbind option_bind].
  rewrite (dec_read_done _ _ _ _ _ _ (parses_u8 cmdtype ltac:(lia) 0 _ _ H3)). cbn [mbind option_bind].
  by rewrite decide_True by lia.
Qed.

Lemma parser_first (rec : Parser (St := St)) data room used first (w : world) :
  (0 < room)%nat → data ≠ [] → ti_state (w_ti w) = BDT_TCP_INTERFACE_STATE_WAIT_FIRST_PACKAGE →
  parser_step secret junk behind rec data room used first w =
    match ti_unboxState (w_ti w) with
    | BDT_TCP_UNBOX_STATE_READING_LENGTH => first_length secret junk behind rec data room used first w
    | BDT_TCP_UNBOX_STATE_READING_BODY => first_body data used first w
    end.
Proof.
  intros Hr Hd Hs. unfold parser_step. rewrite massert_bind by by apply bool_decide_eq_true_2.
  destruct data; [done|]. rewrite !ti_get_bind, Hs. by destruct (ti_unboxState (w_ti w)).
Qed.

(** The parser finds the body of a first package in the clear that arrives in
    one piece. *)
Lemma clear_first_parsed fuel len cmdtype rest keys :
  0 ≤ len ≤ Z.of_nat (length (refused_body len cmdtype rest)) → 0 ≤ cmdtype < 2 ^ 8 →
  40 < Z.of_nat (length (refused_body len cmdtype rest)) < 4096 →
  let body := refused_body len cmdtype rest in
  let t := TcpInterfaceCreate true in
  TcpInterfaceUnboxParserPushData secret junk behind (S (S fuel)) (clear_first body) TCP_MAX_BOX_LEN 0%nat first_params
    (mkWorld t keys) =
    Some (mkParsed BFX_RESULT_SUCCESS [body] (length (clear_first body)) first_params,
          mkWorld (set_unbox BDT_TCP_UNBOX_STATE_READING_LENGTH (length body) t) keys).
Proof.
  intros Hl Hc Hn body t. fold body in Hl, Hn. set (n := length body) in *. set (w := mkWorld t keys).
  assert (Hrest : n = (3 + length rest)%nat) by (unfold n, body, refused_body; rewrite !length_app, !length_le_bytes; lia).
  cbn [TcpInterfaceUnboxParserPushData]. rewrite parser_first by (done || (unfold TCP_MAX_BOX_LEN; lia)).
  change (ti_unboxState (w_ti w)) with BDT_TCP_UNBOX_STATE_READING_LENGTH. cbv iota.
  unfold first_length. rewrite !ti_get_bind. change (ti_cacheLength (w_ti w)) with 0%nat.
  change (ti_firstBlockSize (w_ti w)) with 6%nat. rewrite decide_False by lia.
  assert (Hlen : length (clear_first body) = (4 + n)%nat) by (unfold clear_first; rewrite !length_app, length_le_bytes; fold n; cbn; lia).
  rewrite decide_False by (rewrite Hlen; lia). unfold guess. rewrite ti_get_bind.
  change (ti_firstBlockSize (w_ti w)) with 6%nat. rewrite decide_True by done. unfold guess_clear, guess_data.
  unfold mbind at 1, M_bind at 1. rewrite ti_get_bind. unfold mret at 1, M_ret at 1.
  rewrite (lift_bind (clear_head (clear_first body ++ behind)) (Some n)); cycle 1.
  { unfold clear_first. fold n. rewrite <- !app_assoc. unfold body, refused_body. rewrite <- !app_assoc.
    fold (refused_body len cmdtype (rest ++ behind)). rewrite (clear_head_runs (Z.of_nat n)); [by rewrite Nat2Z.id|lia|lia|lia|].
    rewrite length_app. lia. }
  cbv iota. rewrite !ti_set_bind. cbn [w_ti w_keys]. rewrite skip_bind by (rewrite Hlen; lia).
  assert (Hdr : drop 4 (clear_first body) = body) by done. rewrite Hdr.
  rewrite parser_first; [|unfold TCP_MAX_BOX_LEN; lia|by destruct body|done].
  cbn [w_ti ti_unboxState set_unbox set_isCrypto t TcpInterfaceCreate].
  unfold first_body. rewrite !ti_get_bind. cbn [w_ti ti_cacheLength ti_cache ti_boxSize set_unbox set_isCrypto t TcpInterfaceCreate length].
  rewrite decide_False by (intros Hx; by apply Hx). rewrite decide_True by (fold n; lia).
  unfold box_done. rewrite ti_set_bind. unfold mret, M_ret. rewrite take_ge by (fold n; lia). rewrite Hlen. done.
Qed.

(** C30: A host that connects and sends a first package in the clear whose first
    inner length is too small for its type — the magic number, a length and
    zeros, say — stops the receiver: the body is found, decoding it fails with
    an error that is positive, which is not taken for an error, and the package
    that was not decoded is dereferenced. *)
Theorem undecodable_first_package_faults len cmdtype rest keys :
  let body := refused_body len cmdtype rest in
  0 ≤ len < Bdt_GetPackageMinSize cmdtype → len ≤ Z.of_nat (length body) → 0 ≤ cmdtype < 2 ^ 8 →
  40 < Z.of_nat (length body) < 4096 → (2 ≤ length behind)%nat →
  ∃ error (w : world),
    TcpInterfaceUnboxParserPushData secret junk behind (parser_fuel (clear_first body)) (clear_first body) TCP_MAX_BOX_LEN 0%nat
      first_params (mkWorld (TcpInterfaceCreate true) keys) =
      Some (mkParsed BFX_RESULT_SUCCESS [body] (length (clear_first body)) first_params, w) ∧
    ti_isCrypto (w_ti w) = false ∧
    decode_box behind uninit body (length body) (replicate BDT_MAX_PACKAGE_MERGE_LENGTH None) false w =
      Some (error, replicate BDT_MAX_PACKAGE_MERGE_LENGTH None, w) ∧
    0 < error ∧
    ∀ fuel, push fuel (clear_first body) (mkWorld (TcpInterfaceCreate true) keys) = None.
Proof.
  intros body Hl Hlb Hc Hn Hbe. set (t := set_unbox BDT_TCP_UNBOX_STATE_READING_LENGTH (length body) (TcpInterfaceCreate true)).
  assert (Hrest : length body = (3 + length rest)%nat) by (unfold body, refused_body; rewrite !length_app, !length_le_bytes; lia).
  assert (Ep : ∃ f, parser_fuel (clear_first body) = S (S f)) by (unfold parser_fuel; rewrite !Nat.add_succ_r; eauto).
  destruct Ep as [f Ep]. pose proof (clear_first_parsed f len cmdtype rest keys ltac:(fold body; lia) Hc Hn) as E. cbv zeta in E.
  fold body t in E. rewrite <- Ep in E.
  assert (Ed : decode_box behind uninit body (length body) (replicate BDT_MAX_PACKAGE_MERGE_LENGTH None) false (mkWorld t keys) =
    Some (BFX_RESULT_INVALID_ENCODE, replicate BDT_MAX_PACKAGE_MERGE_LENGTH None, mkWorld t keys)).
  { unfold decode_box. erewrite lift_bind by (apply refused_decode; [lia|done|lia|lia|done|rewrite length_replicate; unfold BDT_MAX_PACKAGE_MERGE_LENGTH; lia]).
    cbn beta iota. rewrite ti_get_bind, ti_set_bind. done. }
  exists BFX_RESULT_INVALID_ENCODE, (mkWorld t keys). split_and!; [exact E|done|exact Ed|done|]. intros [|fuel]; [done|].
  cbn [BdtPushTcpSocketData]. rewrite massert_bind; cycle 1.
  { apply bool_decide_eq_true_2. unfold clear_first. rewrite !length_app, length_le_bytes. cbn. lia. }
  rewrite !ti_get_bind. rewrite decide_False by (intros [? _]; done). rewrite decide_False by done.
  rewrite (M_bind_Some _ _ _ _ _ E). cbn [pr_result pr_boxes pr_first pr_used]. rewrite decide_False by tauto.
  rewrite decide_False by (cbn; lia). unfold mbind at 1, M_bind at 1.
  assert (Epush : push_boxes behind uninit socket_result socket_sent owner_event has_container create_container tunnel_first
    [body] first_params (mkWorld t keys) = None); [|by rewrite Epush].
  unfold push_boxes. rewrite !ti_get_bind. change (ti_state (w_ti (mkWorld t keys))) with BDT_TCP_INTERFACE_STATE_WAIT_FIRST_PACKAGE.
  cbv iota. unfold push_first. rewrite massert_bind by done. rewrite (lift_bind _ body) by done.
  unfold open_box. unfold mbind at 1, M_bind at 1. rewrite ti_get_bind.
  change (ti_isCrypto (w_ti (mkWorld t keys))) with false. cbv iota. unfold mret at 1, M_ret at 1.
  change (fp_isStartWithExchangeKey first_params) with false. rewrite (M_bind_Some _ _ _ _ _ Ed). done.
Qed.

(** ** Packages *)

(** The packages of a box, numbered from the first allocation, and an array
    that holds packages and nothing behind them. *)
Definition numbered (n : nat) (l : list AnyPackage) : list PackagePtr := imap (λ i p, ((n + i)%nat, p)) l.
Definition array_of (l : list PackagePtr) : Slots :=
  (Some <$> l) ++ replicate (BDT_MAX_PACKAGE_MERGE_LENGTH - length l) None.

Lemma fill_array n l q :
  l ≠ [] → (length l ≤ BDT_MAX_PACKAGE_MERGE_LENGTH)%nat →
  fill_slots n l (array_of q) = array_of (numbered n l ++ drop (length l) q).
Proof.
  intros Hl Hn. destruct l as [|p l]; [done|]. unfold fill_slots. set (ps := p :: l) in *.
  unfold array_of. rewrite fmap_app, <- app_assoc. f_equal.
  { unfold numbered. by rewrite fmap_imap. }
  rewrite fmap_drop, drop_app, length_fmap, drop_replicate. f_equal. f_equal.
  rewrite length_app, length_drop. unfold numbered. rewrite length_imap. lia.
Qed.

Lemma free_array n q (w : world) :
  (length q < n)%nat → (length q < BDT_MAX_PACKAGE_MERGE_LENGTH)%nat →
  free_slots n (array_of q) w = Some (tt, with_trace (reverse (PackageFree <$> q) ++ ti_trace (w_ti w)) w).
Proof.
  unfold array_of. intros Hn Hm. destruct (BDT_MAX_PACKAGE_MERGE_LENGTH - length q)%nat as [|pad] eqn:Ep; [lia|].
  clear Hm Ep. cbn [replicate]. revert n w Hn.
  induction q as [|x q IH]; intros [|n] w Hn; cbn in Hn; try lia; cbn [fmap list_fmap app free_slots].
  - by destruct w as [[] ?].
  - unfold ti_act, on_ti, act, mwrite. unfold mbind, M_bind. cbn [w_ti]. rewrite IH by lia.
    unfold with_trace. rewrite reverse_cons, <- app_assoc. by destruct w as [[] ?].
Qed.

(** An owner that does nothing to the interface when it is given packages. *)
Definition takes_packages (o : Z) : Prop := ∀ n q, ∃ r, owner_event n o (OnPackage q) = Some ([], r).

Definition handed (o : Z) (q : list PackagePtr) : list TcpAction :=
  reverse (PackageFree <$> q) ++ [OwnerRelease o; OwnerEvent o (OnPackage (array_of q)); OwnerAddRef o].

(** A clear stream of packages to an owner. *)
Definition clear_packages (o : Z) (t : Bdt_TcpInterface) : Prop :=
  ti_state t = BDT_TCP_INTERFACE_STATE_PACKAGE ∧ ti_isCrypto t = false ∧ ti_owner t = Some o.

Definition decodes (box : list Z) (ps : list AnyPackage) : Prop :=
  Bdt_DecodePackage uninit (box ++ behind) (length box) None BDT_MAX_PACKAGE_MERGE_LENGTH false = Some (0, ps).

Definition after (n : nat) (trace : list TcpAction) (w : world) : world :=
  mkWorld (set_trace trace (set_allocated n (w_ti w))) (w_keys w).

Lemma push_package_runs o box ps boxes q (w : world) :
  takes_packages o → clear_packages o (w_ti w) → decodes box ps → ps ≠ [] →
  (length ps + length q < BDT_PROTOCOL_MIN_PACKAGE_LENGTH)%nat →
  let n := ti_allocated (w_ti w) in
  let q' := numbered n ps ++ drop (length ps) q in
  push_packages behind uninit socket_result socket_sent owner_event (box :: boxes) (array_of q) w =
    push_packages behind uninit socket_result socket_sent owner_event boxes (array_of q')
      (after (n + length ps) (handed o q' ++ ti_trace (w_ti w)) w).
Proof.
  intros Hq (Hs & Hc & Ho) Hd Hps Hlen n q'. unfold BDT_PROTOCOL_MIN_PACKAGE_LENGTH in Hlen.
  assert (Hlq : (length q' < 8)%nat).
  { unfold q', numbered. rewrite length_app, length_imap, length_drop. lia. }
  assert (Hla : length (array_of q) = BDT_MAX_PACKAGE_MERGE_LENGTH).
  { unfold array_of, BDT_MAX_PACKAGE_MERGE_LENGTH. rewrite length_app, length_fmap, length_replicate. lia. }
  cbn [push_packages]. unfold open_box. unfold mbind at 1, M_bind at 1. rewrite ti_get_bind, Hc. unfold mret at 1, M_ret at 1.
  assert (Ed : decode_box behind uninit box (length box) (array_of q) false w =
    Some ((0, array_of q'), mkWorld (set_allocated (n + length ps) (w_ti w)) (w_keys w))).
  { unfold decode_box. rewrite Hla. rewrite (lift_bind _ (0, ps)) by exact Hd. cbn beta iota.
    rewrite ti_get_bind, ti_set_bind. fold n. unfold q'. rewrite fill_array; [done|done|unfold BDT_MAX_PACKAGE_MERGE_LENGTH; lia]. }
  rewrite (M_bind_Some _ _ _ _ _ Ed). cbn beta iota. rewrite decide_False by lia.
  rewrite ti_get_bind. cbn [w_ti ti_state set_allocated]. rewrite Hs, decide_True by done.
  set (w1 := mkWorld _ _). destruct (Hq (length (OwnerAddRef o :: ti_trace (w_ti w1))) (array_of q')) as [r Er].
  assert (Et : TcpInterfaceOnPackages socket_result socket_sent owner_event (array_of q') w1 =
    Some (r, with_trace (OwnerRelease o :: OwnerEvent o (OnPackage (array_of q')) :: OwnerAddRef o :: ti_trace (w_ti w1)) w1)).
  { unfold TcpInterfaceOnPackages, on_ti, tell_owner, TcpInterfaceGetOwner.
    unfold mbind, M_bind, get, mread, act, mwrite, mret, M_ret, asked. cbn [w_ti w1 ti_owner set_allocated]. rewrite Ho.
    unfold get, mread. unfold w1 in Er. cbn [w_ti ti_trace set_allocated set_trace] in *. rewrite Er. done. }
  unfold mbind at 1, M_bind at 1. rewrite (M_bind_Some _ _ _ _ _ Et). unfold mret at 1, M_ret at 1.
  unfold TcpInterfaceFreePackages. erewrite M_bind_Some by (apply free_array; [done|unfold BDT_MAX_PACKAGE_MERGE_LENGTH; lia]).
  unfold after, handed. rewrite <- app_assoc. done.
Qed.

(** C31: When two boxes of packages arrive at once and the second holds fewer
    packages than the first, the array of packages still points to those of the
    first that were freed: the owner is given them again behind the new ones,
    and they are freed a second time. *)
Theorem stale_packages_freed_again o box1 box2 ps1 ps2 fuel (w : world) :
  takes_packages o → clear_packages o (w_ti w) → ti_cache (w_ti w) = [] →
  ti_unboxState (w_ti w) = BDT_TCP_UNBOX_STATE_READING_LENGTH →
  decodes box1 ps1 → decodes box2 ps2 → ps1 ≠ [] → ps2 ≠ [] → Forall is_byte (box1 ++ box2) →
  (length ps1 + length ps2 < BDT_PROTOCOL_MIN_PACKAGE_LENGTH)%nat → box1 ≠ [] → box2 ≠ [] →
  Z.of_nat (length box1 + length box2) < 65500 →
  let n := ti_allocated (w_ti w) in
  let first := numbered n ps1 in
  let second := numbered (n + length ps1) ps2 ++ drop (length ps2) first in
  ∃ w', push (S fuel) (framed box1 ++ framed box2) w = Some (tt, w') ∧
    ti_trace (w_ti w') = handed o second ++ handed o first ++ ti_trace (w_ti w).
Proof.
  intros Hq Hw Hca Hu Hd1 Hd2 Hp1 Hp2 Hb Hlen Hb1 Hb2 Hlb n first second. pose proof Hw as (Hs & Hc & Ho).
  apply Forall_app in Hb as [Hby1 Hby2]. set (bs := [box1; box2]).
  assert (Edata : framed box1 ++ framed box2 = concat (framed <$> bs)) by (cbn; by rewrite app_nil_r).
  assert (Hl : Z.of_nat (length (concat (framed <$> bs))) < 65536).
  { rewrite <- Edata. unfold framed. rewrite !length_app, !length_le_bytes. lia. }
  destruct (framed_parsed bs first_params w) as [size E]; [by left|done|done| | |unfold TCP_MAX_BOX_LEN; cbn; lia|].
  { apply Forall_cons; split; [split; [done|lia]|]. apply Forall_cons; split; [split; [done|lia]|by apply Forall_nil]. }
  { rewrite <- Edata. unfold framed. repeat apply Forall_app_2; try done; apply le_bytes_bytes. }
  rewrite Edata. cbn [BdtPushTcpSocketData]. rewrite massert_bind by (apply bool_decide_eq_true_2; lia).
  rewrite !ti_get_bind, Hs. rewrite decide_False by (by intros [? _]). rewrite decide_False by done.
  rewrite (M_bind_Some _ _ _ _ _ E). cbn [pr_result pr_boxes pr_first pr_used]. rewrite decide_False by tauto.
  rewrite decide_False by (cbn; lia). set (w1 := move _ _ _ w).
  assert (Eb : push_boxes behind uninit socket_result socket_sent owner_event has_container create_container tunnel_first
    bs first_params w1 = Some (true, after (n + length ps1 + length ps2) (handed o second ++ handed o first ++ ti_trace (w_ti w)) w1)).
  { unfold push_boxes. rewrite !ti_get_bind. change (ti_state (w_ti w1)) with (ti_state (w_ti w)). rewrite Hs.
    change (replicate BDT_MAX_PACKAGE_MERGE_LENGTH None) with (array_of []). unfold bs.
    rewrite (push_package_runs o box1 ps1) by (done || cbn; lia). rewrite drop_nil, app_nil_r.
    change (ti_allocated (w_ti w1)) with n. fold first.
    rewrite (push_package_runs o box2 ps2); [|done|done|done|done|unfold first, numbered; rewrite length_imap; lia].
    done. }
  rewrite (M_bind_Some _ _ _ _ _ Eb). rewrite bool_decide_eq_false_2 by lia. eexists. split; [reflexivity|done].
Qed.
End stream.
