(* ===== verification/TcpLifecycle.v ===== *)
(** * The life of a TCP interface

    The socket of an interface is destroyed once, when the interface is closed,
    and not used afterwards; and every reference to an owner that was taken is
    given back when the interface does not hold it any more — whatever calls,
    socket events and data arrive, also from inside of the owner's functions. *)

From S2P Require Import Prelude CInt Package BufferStream Codec SessionCodec Endpoint PackageFields PackageCodec HandCodec MergedPackages AesPadding Crypto UdpBox TcpInterface TcpUnbox TcpPush.

Section lifecycle.
Context {P : PeerInfoOps} {A : AesOps} {B : Mbedtls} {St : Type} {K : KeyService St}.
Context (secret junk behind uninit : list Z) (socket_result : nat → Z) (socket_sent : nat → nat).
Context (owner_event : nat → Z → TcpEvent → option (list OwnerCall * Z)).
Context (has_container create_container : nat → list Z → bool) (tunnel_first : nat → list Z → AnyPackage → list OwnerCall * Z).

Notation TM := (M Bdt_TcpInterface).
Notation WM := (M (TcpWorld St)).

(** ** What a trace shows *)

Definition on_the_socket (a : TcpAction) : bool :=
  match a with
  | SocketConnect | SocketSend _ | SocketPause | SocketResume | SocketClose _ | SocketDestroy => true
  | _ => false
  end.
Definition is_destroy (a : TcpAction) : bool := match a with SocketDestroy => true | _ => false end.

Definition destroyed (trace : list TcpAction) : bool := existsb is_destroy trace.

(** Nothing is asked of a socket that was destroyed. *)
Fixpoint socket_respected (trace : list TcpAction) : Prop :=
  match trace with
  | [] => True
  | a :: trace => socket_respected trace ∧ (on_the_socket a = true → destroyed trace = false)
  end.

(** The references to an owner that were taken and not given back. *)
Definition owner_refs (o : Z) (trace : list TcpAction) : Z :=
  foldr (λ a n, match a with
                | OwnerAddRef o' => if decide (o' = o) then n + 1 else n
                | OwnerRelease o' => if decide (o' = o) then n - 1 else n
                | _ => n
                end) 0 trace.

Definition holds (o : Z) (held : list Z) : Z := Z.of_nat (length (filter (λ o', o' = o) held)).

(** [held] are the owners that were got and not yet released. *)
Record alive (held : list Z) (t : Bdt_TcpInterface) : Prop := {
  al_closed : ti_state t = BDT_TCP_INTERFACE_STATE_CLOSED → ti_socketRefCount t = 0 ∧ ti_owner t = None;
  al_open : ti_state t ≠ BDT_TCP_INTERFACE_STATE_CLOSED → ti_socketRefCount t = 1;
  al_socket : ti_socket t = negb (destroyed (ti_trace t));
  al_destroyed : destroyed (ti_trace t) = bool_decide (ti_state t = BDT_TCP_INTERFACE_STATE_CLOSED);
  al_respected : socket_respected (ti_trace t);
  al_refs o : owner_refs o (ti_trace t) = (if decide (ti_owner t = Some o) then 1 else 0) + holds o held }.

(** ** Calls *)

(** States are not set from or to [CLOSED]. *)
Definition call_ok (c : OwnerCall) : Prop :=
  match c with
  | CallSetState oldState newState =>
      oldState ≠ BDT_TCP_INTERFACE_STATE_CLOSED ∧ newState ≠ BDT_TCP_INTERFACE_STATE_CLOSED
  | _ => True
  end.

(** A function of the interface that neither faults nor breaks this. *)
Definition lives {X} (held : list Z) (c : TM X) : Prop :=
  ∀ t, alive held t → ∃ x t', c t = Some (x, t') ∧ alive held t'.

Lemma alive_create passive : alive [] (TcpInterfaceCreate passive).
Proof. destruct passive; split; try done; cbn; intros; by rewrite ?decide_False by done. Qed.

Lemma lives_bind {X Y} held (c : TM X) (k : X → TM Y) :
  lives held c → (∀ x, lives held (k x)) → lives held (c ≫= k).
Proof.
  intros Hc Hk t Ht. destruct (Hc t Ht) as (x & t1 & E & H1). destruct (Hk x t1 H1) as (y & t2 & E2 & H2).
  exists y, t2. split; [by rewrite (M_bind_Some _ _ _ _ _ E)|done].
Qed.

Lemma lives_ret {X} held (x : X) : lives held (mret x).
Proof. intros t Ht. by exists x, t. Qed.
Lemma alive_open held t :
  alive held t → ti_state t ≠ BDT_TCP_INTERFACE_STATE_CLOSED →
  ti_socketRefCount t = 1 ∧ ti_socket t = true ∧ destroyed (ti_trace t) = false.
Proof.
  intros H Hs. pose proof (al_destroyed _ _ H) as Hd. rewrite bool_decide_eq_false_2 in Hd by done.
  split; [by apply H|]. split; [|done]. by rewrite (al_socket _ _ H), Hd.
Qed.

(** A step of the trace that is not about the life of the socket. *)
Definition plain (a : TcpAction) : bool :=
  match a with SocketDestroy | OwnerAddRef _ | OwnerRelease _ => false | _ => true end.

Lemma alive_act held t a :
  alive held t → plain a = true → (on_the_socket a = true → destroyed (ti_trace t) = false) →
  alive held (set_trace (a :: ti_trace t) t).
Proof.
  intros [H1 H2 H3 H4 H5 H6] Ha Hs. assert (Ed : destroyed (a :: ti_trace t) = destroyed (ti_trace t)) by by destruct a.
  split; cbn [ti_state ti_socketRefCount ti_owner ti_socket ti_trace set_trace]; rewrite ?Ed; try done.
  intros o. rewrite <- H6. by destruct a.
Qed.

Lemma act_lives held a : plain a = true → on_the_socket a = false → lives held (act a).
Proof. intros H1 H2 t Ht. eexists tt, _. split; [reflexivity|]. apply alive_act; [done|done|by rewrite H2]. Qed.

(** The references to the socket while a call uses it. *)
Lemma release_open t :
  1 < ti_socketRefCount t → TcpInterfaceReleaseSocket t = Some (tt, set_socketRefCount (ti_socketRefCount t - 1) t).
Proof.
  intros H. unfold TcpInterfaceReleaseSocket, mbind, M_bind, get, mread, mwrite. cbn [ti_socketRefCount set_socketRefCount].
  by rewrite decide_False by lia.
Qed.

Lemma with_socket_open t a :
  ti_socket t = true → with_socket a t = Some (tt, set_trace (a :: ti_trace t) t).
Proof. intros H. unfold with_socket, mbind, M_bind, get, mread. by rewrite H. Qed.

Lemma unpin_act t a n m :
  n = ti_socketRefCount t →
  set_socketRefCount n (set_trace (a :: ti_trace (set_socketRefCount m t)) (set_socketRefCount m t)) =
  set_trace (a :: ti_trace t) t.
Proof. by destruct t; cbn; intros ->. Qed.

Lemma unpin t n m : n = ti_socketRefCount t → set_socketRefCount n (set_socketRefCount m t) = t.
Proof. by destruct t; cbn; intros ->. Qed.

Lemma on_socket_runs {X} held (refused : X) answer a t :
  alive held t → ti_state t ≠ BDT_TCP_INTERFACE_STATE_CLOSED →
  on_socket socket_result refused answer a t =
    Some ((socket_result (length (ti_trace t)), answer (length (ti_trace t))), set_trace (a :: ti_trace t) t).
Proof.
  intros Ht Hc. unfold on_socket, mbind at 1, M_bind at 1, get at 1, mread at 1. rewrite decide_False by done.
  destruct (alive_open held t Ht Hc) as (H1 & H2 & H3).
  unfold TcpInterfaceAddRefSocket, asked, mbind at 1, M_bind at 1, mwrite at 1. unfold mbind at 1, M_bind at 1, get at 1, mread at 1.
  erewrite M_bind_Some by (apply with_socket_open; exact H2). erewrite M_bind_Some by (apply release_open; cbn; lia).
  unfold mret, M_ret. by rewrite unpin_act by (cbn; lia).
Qed.

Lemma on_socket_closed {X} (refused : X) answer a t :
  ti_state t = BDT_TCP_INTERFACE_STATE_CLOSED →
  on_socket socket_result refused answer a t = Some ((BFX_RESULT_INVALID_STATE, refused), t).
Proof. intros H. unfold on_socket, mbind, M_bind, get, mread. by rewrite decide_True. Qed.

Lemma on_socket_lives {X} held (refused : X) answer a :
  plain a = true → on_the_socket a = true → lives held (on_socket socket_result refused answer a).
Proof.
  intros Ha Hs t Ht. destruct (decide (ti_state t = BDT_TCP_INTERFACE_STATE_CLOSED)) as [Hc|Hc].
  - rewrite on_socket_closed by done. by eexists _, t.
  - rewrite (on_socket_runs held) by done. destruct (alive_open held t Ht Hc) as (_ & _ & H3).
    eexists _, _. split; [reflexivity|]. by apply alive_act.
Qed.

Lemma alive_state held t s :
  alive held t → ti_state t ≠ BDT_TCP_INTERFACE_STATE_CLOSED → s ≠ BDT_TCP_INTERFACE_STATE_CLOSED →
  alive held (set_state s t).
Proof.
  intros Ht Hs Hn. destruct (alive_open held t Ht Hs) as (H1 & H2 & H3). destruct Ht as [_ _ H4 H5 H6 H7].
  split; cbn [ti_state ti_socketRefCount ti_owner ti_socket ti_trace set_state]; try done.
  by rewrite H3, bool_decide_eq_false_2.
Qed.

Lemma SetState_lives held old new :
  call_ok (CallSetState old new) → lives held (Bdt_TcpInterfaceSetState old new).
Proof.
  intros [Hold Hnew] t Ht. unfold Bdt_TcpInterfaceSetState, mbind at 1, M_bind at 1, get at 1, mread at 1.
  destruct (decide (ti_state t ≠ old)) as [Hc|Hc]; [by eexists _, t|].
  assert (Hs : ti_state t ≠ BDT_TCP_INTERFACE_STATE_CLOSED) by (intros E; apply Hc; congruence).
  pose proof (alive_state held t new Ht Hs Hnew) as Ht2. destruct (alive_open held _ Ht2 Hnew) as (H1 & H2 & H3).
  unfold TcpInterfaceAddRefSocket. unfold mbind at 1, M_bind at 1, mwrite at 1. unfold mbind at 1, M_bind at 1, mwrite at 1.
  set (t2 := set_state new t) in *. case_decide.
  - erewrite M_bind_Some by (apply with_socket_open; exact H2). erewrite M_bind_Some by (apply release_open; cbn; cbn in H1; lia).
    eexists _, _. split; [reflexivity|]. pose proof (alive_act held t2 SocketResume Ht2 eq_refl (λ _, H3)) as H5.
    by rewrite unpin_act by (cbn; lia).
  - unfold mbind at 1, M_bind at 1, mret at 1, M_ret at 1. erewrite M_bind_Some by (apply release_open; cbn; cbn in H1; lia).
    eexists _, _. split; [reflexivity|]. by rewrite unpin by (cbn; lia).
Qed.

Lemma SetAesKey_lives held key : lives held (Bdt_TcpInterfaceSetAesKey key).
Proof. intros t Ht. eexists tt, _. split; [reflexivity|]. destruct Ht. by split. Qed.
(** ** Owners *)

Definition add_owner (owner : option Z) : list TcpAction := match owner with Some o => [OwnerAddRef o] | None => [] end.
Definition drop_owner (owner : option Z) : list TcpAction := match owner with Some o => [OwnerRelease o] | None => [] end.

Lemma owner_refs_app o l1 l2 : owner_refs o (l1 ++ l2) = owner_refs o l1 + owner_refs o l2.
Proof. induction l1 as [|a l1 IH]; [done|]. cbn [app owner_refs foldr]. fold (owner_refs o (l1 ++ l2)) (owner_refs o l1).
  rewrite IH. destruct a; try done; case_decide; lia. Qed.

Lemma owner_refs_add o owner : owner_refs o (add_owner owner) = if decide (owner = Some o) then 1 else 0.
Proof. destruct owner as [o'|]; cbn; [|done]. repeat case_decide; simplify_eq; try done; lia. Qed.
Lemma owner_refs_drop o owner : owner_refs o (drop_owner owner) = - if decide (owner = Some o) then 1 else 0.
Proof. destruct owner as [o'|]; cbn; [|done]. repeat case_decide; simplify_eq; try done; lia. Qed.

(** Actions on owners alone. *)
Definition on_owners (l : list TcpAction) : Prop := Forall (λ a, on_the_socket a = false) l.

Lemma destroyed_app l1 l2 : destroyed (l1 ++ l2) = destroyed l1 || destroyed l2.
Proof. apply existsb_app. Qed.

Lemma on_owners_destroyed l : on_owners l → destroyed l = false.
Proof. induction 1 as [|a l Ha _ IH]; [done|]. cbn. fold (destroyed l). rewrite IH. by destruct a. Qed.

Lemma on_owners_respected l trace : on_owners l → socket_respected trace → socket_respected (l ++ trace).
Proof. induction 1 as [|a l Ha _ IH]; [done|]. intros H. cbn. split; [by apply IH|by rewrite Ha]. Qed.

Lemma add_owner_on owner : on_owners (add_owner owner).
Proof. destruct owner; by repeat constructor. Qed.
Lemma drop_owner_on owner : on_owners (drop_owner owner).
Proof. destruct owner; by repeat constructor. Qed.

(** The owner is replaced, and references taken and given back. *)
Lemma alive_owner held held' t owner acts :
  alive held t → (ti_state t = BDT_TCP_INTERFACE_STATE_CLOSED → owner = None) → on_owners acts →
  (∀ o, owner_refs o acts = (if decide (owner = Some o) then 1 else 0) + holds o held' -
                            (if decide (ti_owner t = Some o) then 1 else 0) - holds o held) →
  alive held' (set_trace (acts ++ ti_trace t) (set_owner owner t)).
Proof.
  intros [H1 H2 H3 H4 H5 H6] Ho Hacts Hrefs.
  split; cbn [ti_state ti_socketRefCount ti_owner ti_socket ti_trace set_trace set_owner];
    rewrite ?destroyed_app, ?on_owners_destroyed by done; cbn [orb]; try done.
  - intros Hs. by destruct (H1 Hs); split; [|apply Ho].
  - by apply on_owners_respected.
  - intros o. rewrite owner_refs_app, Hrefs, H6. lia.
Qed.

Lemma release_owner_run owner t : release_owner owner t = Some (tt, set_trace (drop_owner owner ++ ti_trace t) t).
Proof. destruct owner; [done|]. by destruct t. Qed.

Lemma SetOwner_lives held owner : lives held (Bdt_TcpInterfaceSetOwner owner).
Proof.
  intros t Ht. unfold Bdt_TcpInterfaceSetOwner, mbind at 1, M_bind at 1, get at 1, mread at 1.
  case_decide as Hc; [by eexists _, t|]. unfold mbind at 1, M_bind at 1, get at 1, mread at 1.
  unfold mbind at 1, M_bind at 1, mwrite at 1.
  assert (Ha : alive held (set_trace ((drop_owner (ti_owner t) ++ add_owner owner) ++ ti_trace t) (set_owner owner t))).
  { apply (alive_owner held); [done|done|apply Forall_app; split; [apply drop_owner_on|apply add_owner_on]|].
    intros o. rewrite owner_refs_app, owner_refs_drop, owner_refs_add. lia. }
  exists BFX_RESULT_SUCCESS, (set_trace ((drop_owner (ti_owner t) ++ add_owner owner) ++ ti_trace t) (set_owner owner t)).
  split; [|done]. destruct owner as [o|], (ti_owner t) as [o'|] eqn:Eo; reflexivity || (destruct t; reflexivity).
Qed.

Lemma holds_cons o o' held : holds o (o' :: held) = (if decide (o' = o) then 1 else 0) + holds o held.
Proof. unfold holds. rewrite filter_cons. case_decide; cbn [length]; lia. Qed.

(** Getting the owner, doing something with it and giving it back. *)
Lemma GetOwner_run held t :
  alive held t →
  ∃ t', TcpInterfaceGetOwner t = Some (ti_owner t, t') ∧
    alive (match ti_owner t with Some o => o :: held | None => held end) t'.
Proof.
  intros Ht. exists (set_trace (add_owner (ti_owner t) ++ ti_trace t) t). split.
  { unfold TcpInterfaceGetOwner, mbind at 1, M_bind at 1, get at 1, mread at 1.
    destruct (ti_owner t) eqn:Eo; [reflexivity|destruct t; reflexivity]. }
  assert (Et : set_owner (ti_owner t) t = t) by by destruct t. rewrite <- Et at 2.
  apply (alive_owner held _ t (ti_owner t)); [done|intros Hs; by apply (al_closed _ _ Ht)|apply add_owner_on|].
  intros o. rewrite owner_refs_add. destruct (ti_owner t) as [o'|]; cbv iota; [|rewrite decide_False by done; lia].
  rewrite holds_cons. repeat case_decide; simplify_eq; try done; lia.
Qed.

Lemma release_held held o t : alive (o :: held) t → alive held (set_trace (OwnerRelease o :: ti_trace t) t).
Proof.
  intros Ht. assert (Et : set_owner (ti_owner t) t = t) by by destruct t. rewrite <- Et at 2.
  apply (alive_owner (o :: held) held t (ti_owner t) [OwnerRelease o]); [done|intros Hs; by apply (al_closed _ _ Ht)|by repeat constructor|].
  intros o'. rewrite holds_cons. cbn. repeat case_decide; lia.
Qed.

(** ** The end of an interface *)

Lemma release_last t :
  ti_socketRefCount t = 1 → ti_socket t = true →
  TcpInterfaceReleaseSocket t =
    Some (tt, set_socket false (set_trace (SocketDestroy :: ti_trace t) (set_socketRefCount 0 t))).
Proof.
  intros Hn Hs. unfold TcpInterfaceReleaseSocket. destruct t. cbn in Hn, Hs. by rewrite Hn, Hs.
Qed.

(** The interface closed, after [acts]. *)
Definition ended (acts : list TcpAction) (t : Bdt_TcpInterface) : Bdt_TcpInterface :=
  set_trace (acts ++ ti_trace t)
    (set_socket false (set_socketRefCount 0 (set_owner None (set_state BDT_TCP_INTERFACE_STATE_CLOSED t)))).

Lemma alive_ended held t l1 l2 closes :
  alive held t → ti_state t ≠ BDT_TCP_INTERFACE_STATE_CLOSED → l1 ++ l2 = drop_owner (ti_owner t) →
  Forall (λ a, plain a = true) closes →
  alive held (ended (l1 ++ SocketDestroy :: closes ++ l2) t).
Proof.
  intros Ht Hs Hl Hcl. destruct (alive_open held t Ht Hs) as (_ & _ & Hd). destruct Ht as [_ _ _ _ H5 H6].
  assert (Hon : on_owners l1 ∧ on_owners l2).
  { pose proof (drop_owner_on (ti_owner t)) as H. rewrite <- Hl in H. by apply Forall_app in H. }
  assert (Hnd : destroyed closes = false).
  { clear -Hcl. induction Hcl as [|a l Ha _ IH]; [done|]. cbn. fold (destroyed l). rewrite IH. by destruct a. }
  assert (Hrest : destroyed (closes ++ l2 ++ ti_trace t) = false).
  { rewrite !destroyed_app, Hnd, Hd, (on_owners_destroyed l2) by apply Hon. done. }
  assert (Hres : socket_respected (closes ++ l2 ++ ti_trace t)).
  { clear -Hcl Hrest Hon H5. induction closes as [|a l IH]; [cbn [app]; apply on_owners_respected; [apply Hon|done]|].
    apply Forall_cons in Hcl as [Ha Hcl]. cbn in *. fold (destroyed (l ++ l2 ++ ti_trace t)) in *.
    apply orb_false_iff in Hrest as [_ Hrest]. split; [by apply IH|done]. }
  assert (El : (l1 ++ SocketDestroy :: closes ++ l2) ++ ti_trace t = l1 ++ SocketDestroy :: (closes ++ l2 ++ ti_trace t))
    by (rewrite <- !app_assoc; cbn; by rewrite <- app_assoc).
  assert (Hdes : destroyed (l1 ++ SocketDestroy :: (closes ++ l2 ++ ti_trace t)) = true).
  { rewrite destroyed_app. cbn. apply orb_true_r. }
  assert (Hcr : ∀ o, owner_refs o closes = 0).
  { intros o. clear -Hcl. induction Hcl as [|a l Ha _ IH]; [done|]. cbn. fold (owner_refs o l). rewrite IH. by destruct a. }
  unfold ended. rewrite El. split; cbn [ti_state ti_socketRefCount ti_owner ti_socket ti_trace set_trace set_socket set_socketRefCount set_owner set_state].
  - done.
  - done.
  - by rewrite Hdes.
  - by rewrite Hdes.
  - apply on_owners_respected; [apply Hon|]. cbn. by split.
  - intros o. rewrite owner_refs_app. cbn [owner_refs foldr]. fold (owner_refs o (closes ++ l2 ++ ti_trace t)).
    rewrite !owner_refs_app, Hcr, H6. pose proof (owner_refs_drop o (ti_owner t)) as E. rewrite <- Hl, owner_refs_app in E.
    rewrite (decide_False (P := None = Some o)) by done. lia.
Qed.
Lemma Reset_lives held : lives held Bdt_TcpInterfaceReset.
Proof.
  intros t Ht. unfold Bdt_TcpInterfaceReset, mbind at 1, M_bind at 1, get at 1, mread at 1.
  case_decide as Hc; [by eexists _, t|]. destruct (alive_open held t Ht Hc) as (Hn & Hs & _).
  exists BFX_RESULT_SUCCESS, (ended ([] ++ SocketDestroy :: [SocketClose true] ++ drop_owner (ti_owner t)) t).
  split; [|by apply alive_ended; [..|repeat constructor]].
  unfold mbind at 1, M_bind at 1, mwrite at 1. unfold mbind at 1, M_bind at 1, get at 1, mread at 1.
  unfold mbind at 1, M_bind at 1, mwrite at 1. rewrite (M_bind_Some _ _ _ _ _ (release_owner_run _ _)).
  erewrite M_bind_Some by (apply with_socket_open; exact Hs). erewrite M_bind_Some by (apply release_last; [exact Hn|exact Hs]).
  unfold mret, M_ret, ended. destruct t. cbn. done.
Qed.

(** What closing an interface leaves, which had read the state first. *)
Definition closed_tcp (t : Bdt_TcpInterface) : Bdt_TcpInterface :=
  if decide (ti_state t = BDT_TCP_INTERFACE_STATE_STREAM)
  then set_trace (SocketClose false :: ti_trace t) (set_state BDT_TCP_INTERFACE_STATE_STREAM_CLOSING t)
  else ended (drop_owner (ti_owner t) ++ SocketDestroy :: [SocketClose false] ++ []) t.

Lemma Close_runs held t :
  alive held t → ti_state t ≠ BDT_TCP_INTERFACE_STATE_CLOSED →
  Bdt_TcpInterfaceClose t = Some (BFX_RESULT_SUCCESS, closed_tcp t) ∧ alive held (closed_tcp t).
Proof.
  intros Ht Hc. unfold Bdt_TcpInterfaceClose, closed_tcp, mbind at 1, M_bind at 1, get at 1, mread at 1.
  rewrite decide_False by done. destruct (alive_open held t Ht Hc) as (Hn & Hs & Hd).
  unfold TcpInterfaceAddRefSocket, mbind at 1, M_bind at 1, mwrite at 1.
  destruct (decide (ti_state t = BDT_TCP_INTERFACE_STATE_STREAM)) as [Hst|Hst].
  - split.
    + unfold mbind at 1, M_bind at 1. unfold mbind at 1, M_bind at 1, mwrite at 1, mret at 1, M_ret at 1.
      erewrite M_bind_Some by (apply with_socket_open; exact Hs). rewrite decide_False by tauto.
      unfold mbind at 1, M_bind at 1, mret at 1, M_ret at 1.
      erewrite M_bind_Some by (apply release_open; cbn; lia). unfold release_owner, mbind, M_bind, mret, M_ret.
      destruct t. cbn in *. by rewrite Hn.
    + pose proof (alive_state held t BDT_TCP_INTERFACE_STATE_STREAM_CLOSING Ht Hc ltac:(done)) as H2.
      apply (alive_act held _ (SocketClose false) H2 eq_refl (λ _, Hd)).
  - split.
    + unfold mbind at 1, M_bind at 1. unfold mbind at 1, M_bind at 1, mwrite at 1.
      unfold mbind at 1, M_bind at 1, get at 1, mread at 1. unfold mbind at 1, M_bind at 1, mwrite at 1, mret at 1, M_ret at 1.
      erewrite M_bind_Some by (apply with_socket_open; exact Hs). rewrite decide_True by done.
      erewrite M_bind_Some by (apply release_open; cbn; lia).
      erewrite M_bind_Some by (apply release_last; [cbn; lia|exact Hs]).
      rewrite (M_bind_Some _ _ _ _ _ (release_owner_run _ _)). unfold mret, M_ret, ended. destruct t. cbn in *.
      by rewrite <- app_assoc.
    + apply alive_ended; [done|done|by rewrite app_nil_r|by repeat constructor].
Qed.

Lemma Close_again t :
  ti_state t = BDT_TCP_INTERFACE_STATE_CLOSED → Bdt_TcpInterfaceClose t = Some (BFX_RESULT_INVALID_STATE, t).
Proof. intros H. unfold Bdt_TcpInterfaceClose, mbind, M_bind, get, mread. by rewrite decide_True. Qed.

Lemma Close_lives held : lives held Bdt_TcpInterfaceClose.
Proof.
  intros t Ht. destruct (decide (ti_state t = BDT_TCP_INTERFACE_STATE_CLOSED)) as [Hc|Hc].
  - rewrite Close_again by done. by eexists _, t.
  - destruct (Close_runs held t Ht Hc) as [E H]. by eexists _, _.
Qed.

Lemma Connect_lives held : lives held (Bdt_TcpInterfaceConnect socket_result).
Proof.
  intros t Ht. unfold Bdt_TcpInterfaceConnect, mbind at 1, M_bind at 1, get at 1, mread at 1.
  case_decide as Hc; [by eexists _, t|].
  assert (Hs : ti_state t ≠ BDT_TCP_INTERFACE_STATE_CLOSED) by (intros E; congruence).
  pose proof (alive_state held t BDT_TCP_INTERFACE_STATE_CONNECTING Ht Hs ltac:(done)) as H2.
  destruct (alive_open held _ H2 ltac:(done)) as (Hn & Hk & Hd).
  unfold mbind at 1, M_bind at 1, mwrite at 1. unfold TcpInterfaceAddRefSocket, mbind at 1, M_bind at 1, mwrite at 1.
  unfold asked, mbind at 1, M_bind at 1, get at 1, mread at 1. set (t2 := set_state _ t) in *.
  erewrite M_bind_Some by (apply with_socket_open; exact Hk). erewrite M_bind_Some by (apply release_open; cbn; cbn in Hn; lia).
  eexists _, _. split; [reflexivity|]. rewrite unpin_act by (cbn; lia). by apply alive_act.
Qed.

Lemma run_call_lives held c : call_ok c → lives held (run_call socket_result socket_sent c).
Proof.
  destruct c as [old new|key|owner|data| | | | |]; intros Hc; cbn [run_call];
    first [ by apply SetAesKey_lives
          | apply lives_bind; [|intros; apply lives_ret] ].
  - by apply SetState_lives.
  - apply SetOwner_lives.
  - by apply on_socket_lives.
  - unfold Bdt_TcpInterfacePause. apply lives_bind; [by apply on_socket_lives|intros []; apply lives_ret].
  - unfold Bdt_TcpInterfaceResume. apply lives_bind; [by apply on_socket_lives|intros []; apply lives_ret].
  - apply Connect_lives.
  - apply Close_lives.
  - apply Reset_lives.
Qed.

Lemma run_calls_lives held l : Forall call_ok l → lives held (run_calls socket_result socket_sent l).
Proof.
  induction 1 as [|c l Hc _ IH]; [apply lives_ret|]. cbn [run_calls].
  apply lives_bind; [by apply run_call_lives|]. by intros.
Qed.

(** The owners and the tunnels make such calls. *)
Context (owner_ok : ∀ n o e calls r, owner_event n o e = Some (calls, r) → Forall call_ok calls).
Context (tunnel_ok : ∀ n peerid p, Forall call_ok (tunnel_first n peerid p).1).

Lemma tell_owner_lives held e : lives held (tell_owner socket_result socket_sent owner_event e).
Proof.
  intros t Ht. unfold tell_owner. destruct (GetOwner_run held t Ht) as (t1 & E1 & H1).
  rewrite (M_bind_Some _ _ _ _ _ E1). destruct (ti_owner t) as [o|]; [|by eexists _, t1].
  unfold asked, mbind at 1, M_bind at 1, get at 1, mread at 1.
  assert (Hin : lives (o :: held) (match owner_event (length (ti_trace t1)) o e with
    | Some (calls, result) => act (OwnerEvent o e) ;; run_calls socket_result socket_sent calls ;; mret result
    | None => mret BFX_RESULT_NOT_IMPL
    end)).
  { destruct (owner_event _ o e) as [[calls r]|] eqn:Eo; [|apply lives_ret].
    apply lives_bind; [by apply act_lives|intros _]. apply lives_bind; [|intros; apply lives_ret].
    apply run_calls_lives. by eapply owner_ok. }
  destruct (Hin t1 H1) as (r & t2 & E2 & H2). rewrite (M_bind_Some _ _ _ _ _ E2).
  eexists r, _. split; [reflexivity|]. by apply release_held.
Qed.
End lifecycle.
