(* ===== verification/TcpSafety.v ===== *)
(** * What every use of a TCP interface keeps

    The data of a socket may be anything and may fault; as long as it does
    not, the invariant of [TcpLifecycle] is kept, and the functions that an
    owner calls, the events of the socket and the timer never fault under it. *)

From S2P Require Import Prelude CInt Package BufferStream Codec SessionCodec Endpoint PackageFields PackageCodec HandCodec MergedPackages AesPadding Crypto UdpBox TcpInterface TcpUnbox TcpPush TcpLifecycle.

Section keeps.
Context {P : PeerInfoOps} {A : AesOps} {B : Mbedtls} {St : Type} {K : KeyService St}.
Context (secret junk behind uninit : list Z) (socket_result : nat → Z) (socket_sent : nat → nat).
Context (owner_event : nat → Z → TcpEvent → option (list OwnerCall * Z)).
Context (has_container create_container : nat → list Z → bool) (tunnel_first : nat → list Z → AnyPackage → list OwnerCall * Z).
Context (owner_ok : ∀ n o e calls r, owner_event n o e = Some (calls, r) → Forall call_ok calls).
Context (tunnel_ok : ∀ n peerid p, Forall call_ok (tunnel_first n peerid p).1).

Notation TM := (M Bdt_TcpInterface).
Notation WM := (M (TcpWorld St)).

(** A function that, when it returns, leaves the interface alive. *)
Definition keeps {X} (c : WM X) : Prop :=
  ∀ w x w', alive [] (w_ti w) → c w = Some (x, w') → alive [] (w_ti w').

Lemma keeps_bind {X Y} (c : WM X) (k : X → WM Y) : keeps c → (∀ x, keeps (k x)) → keeps (c ≫= k).
Proof.
  intros Hc Hk w y w' Hw E. unfold mbind, M_bind in E. destruct (c w) as [[x w1]|] eqn:E1; [|done].
  exact (Hk x w1 y w' (Hc w x w1 Hw E1) E).
Qed.
Lemma keeps_ret {X} (x : X) : keeps (mret x).
Proof. intros w y w' Hw [= _ <-]. done. Qed.
Lemma keeps_fault {X} : keeps (mfault : WM X).
Proof. by intros w y w' Hw. Qed.
Lemma keeps_assert b : keeps (massert b).
Proof. intros w y w' Hw E. destruct b; [by injection E as _ <-|done]. Qed.
Lemma keeps_lift {X} (o : option X) : keeps (lift o).
Proof. intros w y w' Hw E. destruct o; [by injection E as _ <-|done]. Qed.
Lemma keeps_get {X} (f : Bdt_TcpInterface → X) : keeps (ti_get f).
Proof. intros w y w' Hw [= _ <-]. done. Qed.
Lemma keeps_keys {X} (c : M St X) : keeps (on_keys c).
Proof. intros w y w' Hw E. unfold on_keys in E. destruct (c (w_keys w)) as [[z s]|]; by simplify_eq/=. Qed.
Lemma keeps_on_ti {X} (c : TM X) : lives [] c → keeps (on_ti c).
Proof.
  intros Hc w y w' Hw E. unfold on_ti in E. destruct (Hc _ Hw) as (x & t & E1 & Ht). rewrite E1 in E. by simplify_eq/=.
Qed.

(** A field that is not about the life of the interface. *)
Definition aside (f : Bdt_TcpInterface → Bdt_TcpInterface) : Prop :=
  ∀ t, ti_state (f t) = ti_state t ∧ ti_socketRefCount (f t) = ti_socketRefCount t ∧ ti_owner (f t) = ti_owner t ∧
       ti_socket (f t) = ti_socket t ∧ ti_trace (f t) = ti_trace t.

Lemma keeps_set f : aside f → keeps (ti_set f).
Proof.
  intros Hf w y w' Hw [= _ <-]. cbn. destruct (Hf (w_ti w)) as (E1 & E2 & E3 & E4 & E5).
  destruct Hw. by split; rewrite ?E1, ?E2, ?E3, ?E4, ?E5.
Qed.
Lemma keeps_if {X} {Q : Prop} (d : Decision Q) (a b : WM X) : keeps a → keeps b → keeps (if d then a else b).
Proof. by destruct d. Qed.
Lemma keeps_bool {X} (b : bool) (a c : WM X) : keeps a → keeps c → keeps (if b then a else c).
Proof. by destruct b. Qed.

End keeps.

Create HintDb keeps.
#[export] Hint Resolve keeps_ret keeps_fault keeps_assert keeps_lift keeps_get keeps_keys : keeps.

(** Goes through the branches of a function. *)
Ltac keeps_step :=
  first [ progress eauto with keeps nocore
        | apply keeps_bind; [|intros]
        | apply keeps_if | apply keeps_bool
        | apply keeps_set; by intros []
        | match goal with |- keeps (match ?x with _ => _ end) => destruct x end
        | match goal with |- keeps (let '(_, _) := ?x in _) => destruct x end ].
Ltac keeps := intros; cbv zeta; repeat (keeps_step; cbv zeta).

Section safety.
Context {P : PeerInfoOps} {A : AesOps} {B : Mbedtls} {St : Type} {K : KeyService St}.
Context (secret junk behind uninit : list Z) (socket_result : nat → Z) (socket_sent : nat → nat).
Context (owner_event : nat → Z → TcpEvent → option (list OwnerCall * Z)).
Context (has_container create_container : nat → list Z → bool) (tunnel_first : nat → list Z → AnyPackage → list OwnerCall * Z).
Context (owner_ok : ∀ n o e calls r, owner_event n o e = Some (calls, r) → Forall call_ok calls).
Context (tunnel_ok : ∀ n peerid p, Forall call_ok (tunnel_first n peerid p).1).

Notation TM := (M Bdt_TcpInterface).
Notation WM := (M (TcpWorld St)).

(** ** The parser *)

Lemma keeps_skip n data : keeps (skip (St := St) n data).
Proof. unfold skip. keeps. Qed.
Lemma keeps_append data : keeps (TcpInterfaceAppendCache (St := St) data).
Proof. unfold TcpInterfaceAppendCache. keeps. Qed.
#[local] Hint Resolve keeps_skip keeps_append : keeps.
Lemma keeps_fill n data : keeps (TcpInterfaceTryFillCache (St := St) n data).
Proof. unfold TcpInterfaceTryFillCache. keeps. Qed.
#[local] Hint Resolve keeps_fill : keeps.

Lemma keeps_step_of (rec : Parser (St := St)) data n used first :
  (∀ d n u f, keeps (rec d n u f)) → keeps (parser_step secret junk behind rec data n used first).
Proof.
  intros Hrec. unfold parser_step, first_length, first_body, body_length, body_body, more_boxes, guess, guess_clear, guess_key,
    guess_exchange, guess_data, box_done.
  keeps.
Qed.

Lemma keeps_parser fuel data n used first :
  keeps (TcpInterfaceUnboxParserPushData (St := St) secret junk behind fuel data n used first).
Proof.
  revert data n used first. induction fuel as [|fuel IH]; intros; cbn [TcpInterfaceUnboxParserPushData]; [keeps|].
  by apply keeps_step_of.
Qed.

(** ** What a socket delivers *)

Notation socket_tell := (tell_owner socket_result socket_sent owner_event).

Lemma keeps_act a : plain a = true → on_the_socket a = false → keeps (ti_act (St := St) a).
Proof. intros. by apply keeps_on_ti, act_lives. Qed.
Lemma keeps_tell e : keeps (on_ti (St := St) (socket_tell e)).
Proof. by apply keeps_on_ti, tell_owner_lives. Qed.
Lemma keeps_reset : keeps (on_ti (St := St) Bdt_TcpInterfaceReset).
Proof. apply keeps_on_ti, Reset_lives. Qed.
Lemma keeps_asked : keeps (on_ti (St := St) asked).
Proof. apply keeps_on_ti. intros t Ht. by eexists _, t. Qed.
Lemma keeps_first_calls n peerid p :
  keeps (on_ti (St := St) (run_calls socket_result socket_sent (tunnel_first n peerid p).1)).
Proof. by apply keeps_on_ti, run_calls_lives. Qed.
#[local] Hint Resolve keeps_tell keeps_reset keeps_asked keeps_first_calls : keeps.
#[local] Hint Extern 1 (keeps (ti_act _)) => by apply keeps_act : keeps.

Lemma keeps_free n packages : keeps (free_slots (St := St) n packages).
Proof. revert packages. induction n as [|n IH]; intros [|[p|] packages]; cbn [free_slots]; keeps. Qed.
Lemma keeps_decrypt box : keeps (decrypt_box (St := St) behind box).
Proof. unfold decrypt_box. keeps. Qed.
#[local] Hint Resolve keeps_free keeps_decrypt : keeps.
Lemma keeps_open box : keeps (open_box (St := St) behind box).
Proof. unfold open_box. keeps. Qed.
Lemma keeps_decode data n packages start : keeps (decode_box (St := St) behind uninit data n packages start).
Proof. unfold decode_box. keeps. Qed.
#[local] Hint Resolve keeps_open keeps_decode : keeps.

Lemma keeps_first packages : keeps (first_of_first packages).
Proof. unfold first_of_first. keeps. Qed.
#[local] Hint Resolve keeps_first : keeps.

Lemma keeps_OnFirst packages peerid :
  keeps (TcpInterfaceOnFirstPackages socket_result socket_sent has_container create_container tunnel_first packages peerid).
Proof.
  unfold TcpInterfaceOnFirstPackages, ti_asked.
  apply keeps_bind; [auto with keeps|intros first]. apply keeps_bind; [auto with keeps|intros n].
  apply keeps_bind; [keeps|intros [|]]; [|keeps]. apply keeps_bind; [auto with keeps|intros n2].
  apply keeps_bind; [auto with keeps|intros _]. pose proof (keeps_first_calls n2 peerid first.2) as H.
  destruct (tunnel_first n2 peerid first.2) as [calls r]. apply keeps_bind; [exact H|]. keeps.
Qed.
Lemma keeps_OnFirstResp packages :
  keeps (TcpInterfaceOnFirstResp (St := St) socket_result socket_sent owner_event packages).
Proof. unfold TcpInterfaceOnFirstResp. keeps. Qed.
#[local] Hint Resolve keeps_OnFirst keeps_OnFirstResp : keeps.

Lemma keeps_stream boxes : keeps (push_stream (St := St) behind socket_result socket_sent owner_event boxes).
Proof. unfold TcpInterfaceOnData. induction boxes as [|box boxes IH]; cbn [push_stream]; unfold TcpInterfaceOnData; keeps. Qed.
Lemma keeps_packages boxes packages :
  keeps (push_packages (St := St) behind uninit socket_result socket_sent owner_event boxes packages).
Proof.
  revert packages. induction boxes as [|box boxes IH]; intros packages; cbn [push_packages];
    unfold TcpInterfaceOnPackages, TcpInterfaceFreePackages; keeps.
Qed.
#[local] Hint Resolve keeps_stream keeps_packages : keeps.

Lemma keeps_push_boxes boxes first :
  keeps (push_boxes behind uninit socket_result socket_sent owner_event has_container create_container tunnel_first boxes first).
Proof. unfold push_boxes, push_first, TcpInterfaceFreePackages. keeps. Qed.

Lemma push_end_lives : lives [] (push_end socket_result socket_sent owner_event).
Proof.
  intros t Ht. unfold push_end, mbind at 1, M_bind at 1, get at 1, mread at 1.
  destruct (decide (ti_state t = BDT_TCP_INTERFACE_STATE_STREAM)) as [Es|Es].
  - assert (H2 : alive [] (set_state BDT_TCP_INTERFACE_STATE_STREAM_RECV_CLOSED t)) by (apply alive_state; [done|by rewrite Es|done]).
    destruct (tell_owner_lives socket_result socket_sent owner_event owner_ok [] (OnData []) _ H2) as (r & t3 & E3 & H3).
    unfold mbind at 1, M_bind at 1. unfold mbind at 1, M_bind at 1, mwrite at 1, mret at 1, M_ret at 1.
    unfold mbind at 1, M_bind at 1. rewrite (M_bind_Some _ _ _ _ _ E3). unfold mret at 1, M_ret at 1.
    rewrite decide_False by (by rewrite Es). by eexists _, t3.
  - destruct (decide (ti_state t = BDT_TCP_INTERFACE_STATE_STREAM_CLOSING)) as [Ec|Ec]; [|by eexists _, t].
    assert (Hc : ti_state t ≠ BDT_TCP_INTERFACE_STATE_CLOSED) by (by rewrite Ec).
    destruct (alive_open [] t Ht Hc) as (Hn & Hs & _).
    exists tt, (ended (drop_owner (ti_owner t) ++ SocketDestroy :: [] ++ []) t). split.
    + unfold mbind at 1, M_bind at 1. unfold mbind at 1, M_bind at 1, mwrite at 1.
      unfold mbind at 1, M_bind at 1, get at 1, mread at 1. unfold mbind at 1, M_bind at 1, mwrite at 1, mret at 1, M_ret at 1.
      unfold mbind at 1, M_bind at 1, mret at 1, M_ret at 1.
      erewrite M_bind_Some by (apply release_last; [exact Hn|exact Hs]). rewrite release_owner_run.
      unfold ended. destruct t. cbn in *. by rewrite <- app_assoc.
    + apply alive_ended; [done|done|by rewrite app_nil_r|constructor].
Qed.

Lemma event_lives held e : lives held (BdtPushTcpSocketEvent socket_result socket_sent owner_event e).
Proof.
  pose proof (tell_owner_lives socket_result socket_sent owner_event owner_ok held) as Ht.
  destruct e; cbn [BdtPushTcpSocketEvent]; apply lives_bind; try apply Ht; intros; try apply lives_ret.
  - by apply SetState_lives.
  - case_decide; [apply lives_ret|]. apply lives_bind; [apply Ht|intros; apply lives_ret].
Qed.

Lemma overtime_lives held : lives held OnTcpWaitFirstPackageOvertime.
Proof.
  unfold OnTcpWaitFirstPackageOvertime. apply lives_bind.
  { intros t Ht. eexists tt, _. split; [reflexivity|]. destruct Ht. by split. }
  intros _. apply lives_bind; [intros t Ht; by eexists _, t|]. intros s.
  case_decide; [|apply lives_ret]. apply lives_bind; [apply Reset_lives|intros; apply lives_ret].
Qed.

Lemma keeps_push fuel data :
  keeps (BdtPushTcpSocketData secret junk behind uninit socket_result socket_sent owner_event has_container create_container
    tunnel_first fuel data).
Proof.
  assert (He : keeps (on_ti (St := St) (push_end socket_result socket_sent owner_event))) by apply keeps_on_ti, push_end_lives.
  revert data. induction fuel as [|fuel IH]; intros data; cbn [BdtPushTcpSocketData]; unfold TcpInterfaceOnData.
  { apply keeps_fault. }
  pose proof keeps_parser. pose proof keeps_push_boxes. keeps.
Qed.
End safety.

(** ** Whatever happens to an interface *)

Inductive TcpOp :=
  | OpCall (c : OwnerCall)
  | OpEvent (e : TcpSocketEvent)
  | OpOvertime
  | OpData (fuel : nat) (data : list Z).

Section life.
Context {P : PeerInfoOps} {A : AesOps} {B : Mbedtls} {St : Type} {K : KeyService St}.

(** What surrounds an interface: the private key, memory nobody wrote, what
    the socket answers, and what owners and tunnels do. *)
Record Surroundings := mkSurroundings {
  su_secret : list Z;
  su_junk : list Z;
  su_behind : list Z;
  su_uninit : list Z;
  su_result : nat → Z;
  su_sent : nat → nat;
  su_owner : nat → Z → TcpEvent → option (list OwnerCall * Z);
  su_container : nat → list Z → bool;
  su_create : nat → list Z → bool;
  su_first : nat → list Z → AnyPackage → list OwnerCall * Z }.

(** Owners and tunnels never set a state from or to [CLOSED]. *)
Definition respectful (su : Surroundings) : Prop :=
  (∀ n o e calls r, su_owner su n o e = Some (calls, r) → Forall call_ok calls) ∧
  (∀ n peerid p, Forall call_ok (su_first su n peerid p).1).

(** A call of the interface, from outside of it. *)
Definition tcp_call (su : Surroundings) (o : TcpOp) : option (M Bdt_TcpInterface unit) :=
  match o with
  | OpCall c => Some (run_call (su_result su) (su_sent su) c)
  | OpEvent e => Some (BdtPushTcpSocketEvent (su_result su) (su_sent su) (su_owner su) e)
  | OpOvertime => Some OnTcpWaitFirstPackageOvertime
  | OpData _ _ => None
  end.

Definition tcp_op (su : Surroundings) (o : TcpOp) : M (TcpWorld St) unit :=
  match o with
  | OpData fuel data =>
      BdtPushTcpSocketData (su_secret su) (su_junk su) (su_behind su) (su_uninit su) (su_result su) (su_sent su) (su_owner su)
        (su_container su) (su_create su) (su_first su) fuel data
  | _ => match tcp_call su o with Some c => on_ti c | None => mret tt end
  end.

Definition op_ok (o : TcpOp) : Prop := match o with OpCall c => call_ok c | _ => True end.

(** The interfaces that are reached, with the key manager of their stack, which
    others change meanwhile; each step may have other surroundings. *)
Inductive tcp_reached : TcpWorld St → Prop :=
  | reached_created passive keys : tcp_reached (mkWorld (TcpInterfaceCreate passive) keys)
  | reached_keys ti keys keys' : tcp_reached (mkWorld ti keys) → tcp_reached (mkWorld ti keys')
  | reached_op su o w w' :
      tcp_reached w → respectful su → op_ok o → tcp_op su o w = Some (tt, w') → tcp_reached w'.

Lemma tcp_call_lives su o c : respectful su → op_ok o → tcp_call su o = Some c → lives [] c.
Proof.
  intros [Hown Htun] Ho E. destruct o; simplify_eq/=.
  - by apply run_call_lives.
  - by apply event_lives.
  - by apply overtime_lives.
Qed.

Lemma tcp_op_keeps su o : respectful su → op_ok o → keeps (tcp_op su o).
Proof.
  intros Hsu Ho. destruct o; [..|destruct Hsu; by apply keeps_push]; apply keeps_on_ti; by eapply (tcp_call_lives su).
Qed.

Lemma reached_alive w : tcp_reached w → alive [] (w_ti w).
Proof.
  induction 1 as [passive keys|ti keys keys' _ IH|su o w w' _ IH Hsu Ho E].
  - apply alive_create.
  - done.
  - by apply (tcp_op_keeps su o Hsu Ho w tt w' IH).
Qed.


End life.
