(* ===== verification/TcpDemo.v ===== *)
(** * TCP interfaces: the theorems at work

    Each theorem about TCP interfaces, applied to concrete interfaces, data and
    packages, with the cryptography and the key manager of [UdpDemo]. *)

From S2P Require Import Prelude CInt Package BufferStream Codec SessionCodec Endpoint PackageFields PackageCodec PackageProofs HandCodec MergedPackages MergedProofs MergedTheorems KeyManager KeyProofs KeyTheorems AesPadding Crypto UdpBox ExchangeProofs UdpProofs UdpTheorems TcpInterface TcpUnbox TcpPush TcpBox TcpProofs TcpTheorems TcpLifecycle TcpSafety.

Module TcpDemo.
Import UdpDemo.

Notation world := (TcpWorld KeyManager).

(** What surrounds the interfaces: an owner that takes everything and does
    nothing, except that it closes the interface when it is drained. *)
Definition on_event (n : nat) (o : Z) (e : TcpEvent) : option (list OwnerCall * Z) :=
  match e with OnDrain => Some ([CallClose], 0) | _ => Some ([], 0) end.
Definition su : Surroundings :=
  mkSurroundings [] [] memory uninit (λ _, 0) (λ _, 0%nat) on_event (λ _ _, true) (λ _ _, true) (λ _ _ _, ([], 0)).

Lemma su_respectful : respectful su.
Proof. split; [|done]. intros n o e calls r [= E]. destruct e; simplify_eq/=; repeat constructor. Qed.

Definition owner : Z := 4096.
Definition stream_of (crypto : bool) (s : Bdt_TcpInterfaceState) : Bdt_TcpInterface :=
  set_isCrypto crypto (set_aesKey aes_key (set_state s (set_owner (Some owner) (TcpInterfaceCreate false)))).

(** ** Data *)

Definition sender : Bdt_TcpInterface := stream_of true BDT_TCP_INTERFACE_STATE_STREAM.
Definition receiver : world := mkWorld (stream_of true BDT_TCP_INTERFACE_STATE_STREAM) (KeyManagerInit 0).
Definition pieces : list (list Z) := [[1; 2; 3]; [4; 5]].
Definition box_of (d : list Z) : list Z := le_bytes 2 16 ++ aes_cipher aes_key d.
Definition bytes : list Z := box_of [1; 2; 3] ++ box_of [4; 5].

Lemma sent : boxed sender pieces bytes.
Proof.
  assert (E : bytes = take (2 + Z.to_nat 16) (box_of [1; 2; 3]) ++ take (2 + Z.to_nat 16) (box_of [4; 5]) ++ []) by by vm_compute.
  rewrite E.
  eapply (boxed_cons sender [1; 2; 3] _ [0; 0] (replicate 13 0) 16); [done|done|done|done|by vm_compute|].
  eapply (boxed_cons sender [4; 5] _ [0; 0] (replicate 14 0) 16); [done|done|done|done|by vm_compute|].
  constructor.
Qed.

Lemma bytes_are : Forall is_byte bytes.
Proof.
  apply (bool_decide_eq_true_1 (Forall (λ b, 0 ≤ b < 256) bytes)). by vm_compute.
Qed.

Lemma tcp_data_delivered_witness :
  ∃ w',
    push_all [] [] memory uninit (su_result su) (su_sent su) on_event (su_container su) (su_create su) (su_first su)
      [take 1 bytes; drop 1 (take 25 bytes); drop 25 bytes] receiver = Some (tt, w') ∧
    ti_trace (w_ti w') = told owner pieces (ti_trace (w_ti receiver)) ∧
    encrypted_stream aes_key owner (w_ti w') ∧
    ti_unboxState (w_ti w') = BDT_TCP_UNBOX_STATE_READING_LENGTH ∧ ti_cache (w_ti w') = [].
Proof.
  apply (tcp_data_delivered [] [] memory uninit (su_result su) (su_sent su) on_event (su_container su) (su_create su)
    (su_first su) sender owner pieces bytes [take 1 bytes; drop 1 (take 25 bytes); drop 25 bytes] receiver).
  - done.
  - done.
  - exact sent.
  - repeat constructor; done.
  - exact bytes_are.
  - by vm_compute.
  - repeat (apply Forall_cons; split; [split; [by vm_compute|apply Z.leb_le; by vm_compute]|]). by apply Forall_nil.
  - intros n d. by exists 0.
  - done.
  - done.
  - done.
Defined.

(** ** The life of an interface *)

Definition fresh : world := mkWorld (TcpInterfaceCreate false) (KeyManagerInit 0).

Definition next (o : TcpOp) (w : world) : world := match tcp_op su o w with Some (_, w) => w | None => w end.
Definition returns (o : TcpOp) (w : world) : bool := match tcp_op su o w with Some _ => true | None => false end.

Lemma reached_next o w : tcp_reached w → op_ok o → returns o w = true → tcp_reached (next o w).
Proof.
  unfold returns, next. intros Hw Ho. destruct (tcp_op su o w) as [[[] w']|] eqn:E; [|done]. intros _.
  by apply (reached_op su o w w' Hw su_respectful Ho).
Qed.

(** Connected with an owner, and drained: the owner closes it. *)
Definition drained : world :=
  next (OpEvent BDT_TCP_SOCKET_EVENT_DRAIN) (next (OpCall CallConnect) (next (OpCall (CallSetOwner (Some owner))) fresh)).

Lemma drained_trace :
  ti_trace (w_ti drained) =
    [OwnerRelease owner; OwnerRelease owner; SocketDestroy; SocketClose false; OwnerEvent owner OnDrain;
     OwnerAddRef owner; SocketConnect; OwnerAddRef owner].
Proof. reflexivity. Qed.

Lemma drained_reached : tcp_reached drained.
Proof.
  apply reached_next; [|done|reflexivity]. apply reached_next; [|done|reflexivity].
  apply reached_next; [|done|reflexivity]. apply (reached_created false (KeyManagerInit 0)).
Qed.



(** ** First packages *)

Lemma undecodable_first_package_faults_witness :
  let body := replicate 60 0 in
  ∃ error (w : world),
    TcpInterfaceUnboxParserPushData [] [] memory (parser_fuel (clear_first body)) (clear_first body) TCP_MAX_BOX_LEN 0%nat
      first_params (mkWorld (TcpInterfaceCreate true) (KeyManagerInit 0)) =
      Some (mkParsed BFX_RESULT_SUCCESS [body] (length (clear_first body)) first_params, w) ∧
    ti_isCrypto (w_ti w) = false ∧
    decode_box memory uninit body (length body) (replicate BDT_MAX_PACKAGE_MERGE_LENGTH None) false w =
      Some (error, replicate BDT_MAX_PACKAGE_MERGE_LENGTH None, w) ∧
    0 < error ∧
    ∀ fuel, BdtPushTcpSocketData [] [] memory uninit (su_result su) (su_sent su) on_event (su_container su) (su_create su)
      (su_first su) fuel (clear_first body) (mkWorld (TcpInterfaceCreate true) (KeyManagerInit 0)) = None.
Proof.
  apply (undecodable_first_package_faults [] [] memory uninit (su_result su) (su_sent su) on_event (su_container su)
    (su_create su) (su_first su) 0 0 (replicate 57 0) (KeyManagerInit 0)).
  - split; [lia|apply Z.ltb_lt; by vm_compute].
  - apply Z.leb_le. by vm_compute.
  - lia.
  - split; apply Z.ltb_lt; by vm_compute.
  - apply Nat.leb_le. by vm_compute.
Defined.

(** ** Packages *)

Definition packages_receiver : world := mkWorld (stream_of false BDT_TCP_INTERFACE_STATE_PACKAGE) (KeyManagerInit 0).
Definition encode (l : list AnyPackage) : list Z :=
  match Bdt_EncodePackage l None memory 1500 with Some (_, n, buffer) => take n buffer | None => [] end.
Definition decoded (box : list Z) : list AnyPackage :=
  match Bdt_DecodePackage uninit (box ++ memory) (length box) None BDT_MAX_PACKAGE_MERGE_LENGTH false with
  | Some (_, l) => l
  | None => []
  end.
Definition two : list Z := Eval vm_compute in encode [Demo.syn; Demo.call].
Definition one : list Z := Eval vm_compute in encode [Demo.syn].

Definition accepted (box : list Z) : bool :=
  match Bdt_DecodePackage uninit (box ++ memory) (length box) None BDT_MAX_PACKAGE_MERGE_LENGTH false with
  | Some (r, _) => r =? 0
  | None => false
  end.

Lemma accepted_decodes box : accepted box = true → decodes memory uninit box (decoded box).
Proof.
  unfold accepted, decodes, decoded. destruct (Bdt_DecodePackage _ _ _ _ _ _) as [[r l]|]; [|done].
  by intros ->%Z.eqb_eq.
Qed.

Lemma stale_packages_freed_again_witness :
  ∃ w',
    BdtPushTcpSocketData [] [] memory uninit (su_result su) (su_sent su) on_event (su_container su) (su_create su) (su_first su)
      1 (framed two ++ framed one) packages_receiver = Some (tt, w') ∧
    ti_trace (w_ti w') = handed owner (numbered 2 (decoded one) ++ drop 1 (numbered 0 (decoded two))) ++
      handed owner (numbered 0 (decoded two)).
Proof.
  assert (E1 : length (decoded one) = 1%nat) by by vm_compute. assert (E2 : length (decoded two) = 2%nat) by by vm_compute.
  destruct (stale_packages_freed_again [] [] memory uninit (su_result su) (su_sent su) on_event (su_container su)
    (su_create su) (su_first su) owner two one (decoded two) (decoded one) 0%nat packages_receiver) as (w' & E & Et).
  - intros n q. by exists 0.
  - split; [reflexivity|]. split; reflexivity.
  - reflexivity.
  - reflexivity.
  - apply accepted_decodes; by vm_compute.
  - apply accepted_decodes; by vm_compute.
  - intros E%(f_equal length). by rewrite E2 in E.
  - intros E%(f_equal length). by rewrite E1 in E.
  - apply (bool_decide_eq_true_1 (Forall (λ b, 0 ≤ b < 256) (two ++ one))). by vm_compute.
  - rewrite E1, E2. apply Nat.ltb_lt. by vm_compute.
  - done.
  - done.
  - apply Z.ltb_lt. by vm_compute.
  - exists w'. split; [exact E|]. rewrite Et, E1, E2. change (ti_trace (w_ti packages_receiver)) with (@nil (@TcpAction Demo.ops)).
    by rewrite app_nil_r.
Defined.
End TcpDemo.
