(* ===== verification/StreamConnection.v ===== *)
(** * Stream connections

    Models [BDTCore/Connection/StreamConnection.imp.inl]: what a connection
    sends and receives over an encrypted TCP stream.  Requests to send are
    gathered into records, a record is encrypted into the record buffer and
    sent until the interface has taken all of it; data from the interface
    fills the requests to receive, or waits for them.

    A function runs up to the first callback of the user; the callbacks and
    what the function does behind them are its tasks, on top of the tasks that
    are left: what a user calls from inside of a callback runs before the rest
    of the function that called back.  Nothing else runs at the same time: the
    locks are not modelled.  The interface is the model of [TcpInterface] with
    its trace; the timers are [TimerHelper]s whose timers are numbered, and
    every [BdtImmediate] is counted until it is run.  The data of a request is
    what its buffer holds: the buffer is not changed before the callback. *)

From S2P Require Import Prelude CInt Package BufferStream Codec SessionCodec Endpoint PackageFields PackageCodec HandCodec MergedPackages AesPadding Crypto UdpBox TcpInterface TcpUnbox TcpPush TcpBox.

(** ** Timers ([BDTCore/Global/TimerHelper.imp.inl]) *)

Record Bdt_TimerHelper := mkTimer {
  isStartPending : bool;
  activeTimeSeq : Z;  (* 31 bits *)
  timerInstance : option Z }.

Definition Bdt_TimerHelperInit : Bdt_TimerHelper := mkTimer false 1 None.

(** [newTimer] is what [BdtCreateTimeout] answers.  The answer is the timeout
    that was created, if there was one. *)
Definition Bdt_TimerHelperStart (newTimer timeout : Z) (timer : Bdt_TimerHelper) : Bdt_TimerHelper * option Z :=
  if bool_decide (timerInstance timer = None) && negb (isStartPending timer) then
    let curActiveSeq := activeTimeSeq timer in
    if decide (curActiveSeq = 0) then (mkTimer true curActiveSeq (timerInstance timer), None)
    else (mkTimer false curActiveSeq (Some newTimer), Some timeout)
  else (timer, None).

(** The timer that is destroyed. *)
Definition Bdt_TimerHelperStop (timer : Bdt_TimerHelper) : Bdt_TimerHelper * option Z :=
  (mkTimer false ((activeTimeSeq timer + 1) mod 2 ^ 31) None, timerInstance timer).

(** ** The data *)

Definition STREAM_CONNECTION_ENCRYPT_MAX_HEADER_SIZE : nat := 32.
Definition STREAM_CONNECTION_ENCRYPT_MAX_PADDING_SIZE : nat := 32.

Record BdtStreamConnectionConfig := mkStreamConfig {
  minRecordSize : nat;
  maxRecordSize : nat;
  maxNagleDelay : Z;
  recvTimeout : Z }.

(** A request to send: its number, [buffer], [length], whether it has a
    [callback], [offset] and [postTime]. *)
Record StreamConnectionSendRequestListItem := mkSendItem {
  si_id : nat;
  si_buffer : list Z;
  si_length : nat;
  si_callback : bool;
  si_offset : nat;
  si_postTime : Z }.

Record StreamConnectionRecvBuffer := mkRecvBuffer { rb_recvTime : Z; rb_pos : nat; rb_data : list Z }.

(** A request to receive: its number, what was received for it ([pos] bytes)
    and its size. *)
Record StreamConnectionRecvRequest := mkRecvRequest { rr_id : nat; rr_data : list Z; rr_size : nat }.

Inductive StreamAction :=
  | UserAddRef (id : nat)
  | UserRelease (id : nat)
  | SendCallback (result : Z) (id : nat) (length : nat)
  | RecvCallback (id : nat) (data : list Z)
  | CreateTimer (timeout : Z)
  | DestroyTimer
  | MarkTunnelDead.

(** What is left of a function behind a callback. *)
Inductive Task :=
  | SendDone (result : Z) (item : StreamConnectionSendRequestListItem) (length : nat)
  | SendRecord
  | CancelRecv
  | RecvDone (req : StreamConnectionRecvRequest)
  | NotifyAgain
  | RestartDataTimer (stop start : bool)
  | MarkDead.

Section stream.
Context {P : PeerInfoOps} {A : AesOps}.

Record StreamConnection := mkStream {
  sc_config : BdtStreamConnectionConfig;
  sc_tcpInterface : Bdt_TcpInterface;
  sc_sendingCallCount : nat;
  sc_recordBuffer : list Z;
  sc_recordOffset : nat;
  sc_pendingRecordSize : nat;
  sc_nagleTimer : Bdt_TimerHelper;
  sc_sendClosed : bool;
  sc_recordSize : nat;
  sc_sendRequestSize : nat;
  sc_sendRequests : list StreamConnectionSendRequestListItem;
  sc_isRecvNotifying : bool;
  sc_isCompleteRecvNotifyOnly : bool;
  sc_recvClosed : bool;
  sc_recvBuffersQueue : list StreamConnectionRecvBuffer;
  sc_recvRequestQueue : list StreamConnectionRecvRequest;
  sc_completeRecvRequests : list StreamConnectionRecvRequest;
  sc_dataNotifyTimer : Bdt_TimerHelper;
  sc_immediates : nat;
  sc_tasks : list Task;
  sc_trace : list StreamAction }.

Definition with_tcp (ti : Bdt_TcpInterface) (s : StreamConnection) : StreamConnection :=
  mkStream (sc_config s) ti (sc_sendingCallCount s) (sc_recordBuffer s) (sc_recordOffset s) (sc_pendingRecordSize s)
    (sc_nagleTimer s) (sc_sendClosed s) (sc_recordSize s) (sc_sendRequestSize s) (sc_sendRequests s) (sc_isRecvNotifying s)
    (sc_isCompleteRecvNotifyOnly s) (sc_recvClosed s) (sc_recvBuffersQueue s) (sc_recvRequestQueue s)
    (sc_completeRecvRequests s) (sc_dataNotifyTimer s) (sc_immediates s) (sc_tasks s) (sc_trace s).
Definition with_calls (n : nat) (s : StreamConnection) : StreamConnection :=
  mkStream (sc_config s) (sc_tcpInterface s) n (sc_recordBuffer s) (sc_recordOffset s) (sc_pendingRecordSize s)
    (sc_nagleTimer s) (sc_sendClosed s) (sc_recordSize s) (sc_sendRequestSize s) (sc_sendRequests s) (sc_isRecvNotifying s)
    (sc_isCompleteRecvNotifyOnly s) (sc_recvClosed s) (sc_recvBuffersQueue s) (sc_recvRequestQueue s)
    (sc_completeRecvRequests s) (sc_dataNotifyTimer s) (sc_immediates s) (sc_tasks s) (sc_trace s).
(** The record buffer, the offset in it and what is pending. *)
Definition with_record (buffer : list Z) (offset pending : nat) (s : StreamConnection) : StreamConnection :=
  mkStream (sc_config s) (sc_tcpInterface s) (sc_sendingCallCount s) buffer offset pending
    (sc_nagleTimer s) (sc_sendClosed s) (sc_recordSize s) (sc_sendRequestSize s) (sc_sendRequests s) (sc_isRecvNotifying s)
    (sc_isCompleteRecvNotifyOnly s) (sc_recvClosed s) (sc_recvBuffersQueue s) (sc_recvRequestQueue s)
    (sc_completeRecvRequests s) (sc_dataNotifyTimer s) (sc_immediates s) (sc_tasks s) (sc_trace s).
Definition with_nagle (t : Bdt_TimerHelper) (s : StreamConnection) : StreamConnection :=
  mkStream (sc_config s) (sc_tcpInterface s) (sc_sendingCallCount s) (sc_recordBuffer s) (sc_recordOffset s)
    (sc_pendingRecordSize s) t (sc_sendClosed s) (sc_recordSize s) (sc_sendRequestSize s) (sc_sendRequests s)
    (sc_isRecvNotifying s) (sc_isCompleteRecvNotifyOnly s) (sc_recvClosed s) (sc_recvBuffersQueue s) (sc_recvRequestQueue s)
    (sc_completeRecvRequests s) (sc_dataNotifyTimer s) (sc_immediates s) (sc_tasks s) (sc_trace s).
(** What [pendingSendLock] protects. *)
Definition with_send (closed : bool) (recordSize sendRequestSize : nat) (l : list StreamConnectionSendRequestListItem)
    (s : StreamConnection) : StreamConnection :=
  mkStream (sc_config s) (sc_tcpInterface s) (sc_sendingCallCount s) (sc_recordBuffer s) (sc_recordOffset s)
    (sc_pendingRecordSize s) (sc_nagleTimer s) closed recordSize sendRequestSize l (sc_isRecvNotifying s)
    (sc_isCompleteRecvNotifyOnly s) (sc_recvClosed s) (sc_recvBuffersQueue s) (sc_recvRequestQueue s)
    (sc_completeRecvRequests s) (sc_dataNotifyTimer s) (sc_immediates s) (sc_tasks s) (sc_trace s).
Definition with_notify (notifying onlyComplete : bool) (s : StreamConnection) : StreamConnection :=
  mkStream (sc_config s) (sc_tcpInterface s) (sc_sendingCallCount s) (sc_recordBuffer s) (sc_recordOffset s)
    (sc_pendingRecordSize s) (sc_nagleTimer s) (sc_sendClosed s) (sc_recordSize s) (sc_sendRequestSize s) (sc_sendRequests s)
    notifying onlyComplete (sc_recvClosed s) (sc_recvBuffersQueue s) (sc_recvRequestQueue s)
    (sc_completeRecvRequests s) (sc_dataNotifyTimer s) (sc_immediates s) (sc_tasks s) (sc_trace s).
(** What [recvQueueLock] protects. *)
Definition with_recv (closed : bool) (buffers : list StreamConnectionRecvBuffer)
    (requests complete : list StreamConnectionRecvRequest) (s : StreamConnection) : StreamConnection :=
  mkStream (sc_config s) (sc_tcpInterface s) (sc_sendingCallCount s) (sc_recordBuffer s) (sc_recordOffset s)
    (sc_pendingRecordSize s) (sc_nagleTimer s) (sc_sendClosed s) (sc_recordSize s) (sc_sendRequestSize s) (sc_sendRequests s)
    (sc_isRecvNotifying s) (sc_isCompleteRecvNotifyOnly s) closed buffers requests complete (sc_dataNotifyTimer s)
    (sc_immediates s) (sc_tasks s) (sc_trace s).
Definition with_dataTimer (t : Bdt_TimerHelper) (s : StreamConnection) : StreamConnection :=
  mkStream (sc_config s) (sc_tcpInterface s) (sc_sendingCallCount s) (sc_recordBuffer s) (sc_recordOffset s)
    (sc_pendingRecordSize s) (sc_nagleTimer s) (sc_sendClosed s) (sc_recordSize s) (sc_sendRequestSize s) (sc_sendRequests s)
    (sc_isRecvNotifying s) (sc_isCompleteRecvNotifyOnly s) (sc_recvClosed s) (sc_recvBuffersQueue s) (sc_recvRequestQueue s)
    (sc_completeRecvRequests s) t (sc_immediates s) (sc_tasks s) (sc_trace s).
Definition with_tasks (immediates : nat) (tasks : list Task) (s : StreamConnection) : StreamConnection :=
  mkStream (sc_config s) (sc_tcpInterface s) (sc_sendingCallCount s) (sc_recordBuffer s) (sc_recordOffset s)
    (sc_pendingRecordSize s) (sc_nagleTimer s) (sc_sendClosed s) (sc_recordSize s) (sc_sendRequestSize s) (sc_sendRequests s)
    (sc_isRecvNotifying s) (sc_isCompleteRecvNotifyOnly s) (sc_recvClosed s) (sc_recvBuffersQueue s) (sc_recvRequestQueue s)
    (sc_completeRecvRequests s) (sc_dataNotifyTimer s) immediates tasks (sc_trace s).
Definition with_trace (l : list StreamAction) (s : StreamConnection) : StreamConnection :=
  mkStream (sc_config s) (sc_tcpInterface s) (sc_sendingCallCount s) (sc_recordBuffer s) (sc_recordOffset s)
    (sc_pendingRecordSize s) (sc_nagleTimer s) (sc_sendClosed s) (sc_recordSize s) (sc_sendRequestSize s) (sc_sendRequests s)
    (sc_isRecvNotifying s) (sc_isCompleteRecvNotifyOnly s) (sc_recvClosed s) (sc_recvBuffersQueue s) (sc_recvRequestQueue s)
    (sc_completeRecvRequests s) (sc_dataNotifyTimer s) (sc_immediates s) (sc_tasks s) l.

Notation SM := (M StreamConnection).

Definition sget {X} (f : StreamConnection → X) : SM X := mread (λ s, Some (f s)).
Definition sact (a : StreamAction) : SM unit := mwrite (λ s, with_trace (a :: sc_trace s) s).
Definition defer (l : list Task) : SM unit := mwrite (λ s, with_tasks (sc_immediates s) (l ++ sc_tasks s) s).
Definition immediate : SM unit := mwrite (λ s, with_tasks (S (sc_immediates s)) (sc_tasks s) s).

(** A call of the interface. *)
Definition tcp {X} (c : M Bdt_TcpInterface X) : SM X := λ s,
  match c (sc_tcpInterface s) with Some (x, ti) => Some (x, with_tcp ti s) | None => None end.

Definition start_timer (get : StreamConnection → Bdt_TimerHelper) (set : Bdt_TimerHelper → StreamConnection → StreamConnection)
    (timeout : Z) : SM unit :=
  timer ← sget get;
  n ← sget (λ s, Z.of_nat (length (sc_trace s)));
  let '(timer, created) := Bdt_TimerHelperStart (n + 1) timeout timer in
  mwrite (set timer) ;;
  match created with Some t => sact (CreateTimer t) | None => mret tt end.
Definition stop_timer (get : StreamConnection → Bdt_TimerHelper) (set : Bdt_TimerHelper → StreamConnection → StreamConnection) :
    SM unit :=
  timer ← sget get;
  let '(timer, destroyed) := Bdt_TimerHelperStop timer in
  mwrite (set timer) ;;
  match destroyed with Some _ => sact DestroyTimer | None => mret tt end.

(** ** Creation *)

Definition recordBufferLength (config : BdtStreamConnectionConfig) : nat :=
  (STREAM_CONNECTION_ENCRYPT_MAX_HEADER_SIZE + maxRecordSize config + STREAM_CONNECTION_ENCRYPT_MAX_PADDING_SIZE)%nat.

(** [self] is the owner the interface gets, [record] the memory of the record
    buffer. *)
Definition StreamConnectionCreate (config : BdtStreamConnectionConfig) (ti : Bdt_TcpInterface) (self : Z) (record : list Z) :
    option StreamConnection :=
  guard (length record = recordBufferLength config);;
  '(_, ti) ← Bdt_TcpInterfaceSetOwner (Some self) ti;
  Some (mkStream config ti 0 record 0 0 Bdt_TimerHelperInit false 0 0 [] false true false [] [] [] Bdt_TimerHelperInit 0 [] []).

(** ** Sending *)

Context (socket_result : nat → Z) (socket_sent : nat → nat).

Definition set_sendClosed (b : bool) : SM unit :=
  mwrite (λ s, with_send b (sc_recordSize s) (sc_sendRequestSize s) (sc_sendRequests s) s).
Definition set_recordSize (n : nat) : SM unit :=
  mwrite (λ s, with_send (sc_sendClosed s) n (sc_sendRequestSize s) (sc_sendRequests s) s).
Definition set_requests (size : nat) (l : list StreamConnectionSendRequestListItem) : SM unit :=
  mwrite (λ s, with_send (sc_sendClosed s) (sc_recordSize s) size l s).

Definition StreamConnectionClose : SM Z :=
  closed ← sget sc_sendClosed;
  if closed : bool then mret BFX_RESULT_INVALID_STATE
  else
    set_sendClosed true ;;
    pending ← sget sc_pendingRecordSize;
    size ← sget sc_sendRequestSize;
    (if decide (pending = 0 ∧ size = 0)%nat then _ ← tcp Bdt_TcpInterfaceClose; mret tt else mret tt) ;;
    mret BFX_RESULT_SUCCESS.

(** One round: [sent] is read also when the interface is closed, which does not
    write it. *)
Definition send_pending : SM nat :=
  pending ← sget sc_pendingRecordSize;
  if decide (pending ≠ 0)%nat then
    buffer ← sget sc_recordBuffer;
    offset ← sget sc_recordOffset;
    '(_, sent) ← tcp (Bdt_TcpInterfaceSend socket_result socket_sent (take pending (drop offset buffer)));
    sent ← lift sent;
    mwrite (with_record buffer (offset + sent) (pending - sent)) ;;
    sget sc_pendingRecordSize
  else mret 0%nat.

(** As many rounds as calls were counted; the last one's answer counts, and a
    round that has nothing to send keeps the answer of the one before. *)
Fixpoint send_rounds (n : nat) (pending : nat) : SM nat :=
  match n with
  | O => mret pending
  | S n =>
      before ← sget sc_pendingRecordSize;
      sent ← send_pending;
      let pending := if decide (before ≠ 0)%nat then sent else pending in
      mwrite (λ s, with_calls (sc_sendingCallCount s - 1) s) ;;
      send_rounds n pending
  end.

Definition record_sent : SM unit :=
  set_recordSize 0 ;;
  size ← sget sc_sendRequestSize;
  closed ← sget sc_sendClosed;
  if decide (size = 0%nat ∧ closed = true) then _ ← tcp Bdt_TcpInterfaceClose; mret tt else immediate.

Definition StreamConnectionSendRecord (countCall : bool) : SM Z :=
  calls ← sget sc_sendingCallCount;
  (if countCall then mwrite (with_calls (S calls))
   else if decide (calls = 0)%nat then mwrite (with_calls 1%nat) else mret tt) ;;
  if decide (calls ≠ 0)%nat then mret BFX_RESULT_PENDING
  else
    calls ← sget sc_sendingCallCount;
    pending ← send_rounds calls 0;
    (if decide (pending = 0)%nat then record_sent else mret tt) ;;
    mret BFX_RESULT_SUCCESS.

(** What an item has left. *)
Definition item_size (item : StreamConnectionSendRequestListItem) : nat := (si_length item - si_offset item)%nat.
Definition item_data (item : StreamConnectionSendRequestListItem) : list Z :=
  take (item_size item) (drop (si_offset item) (si_buffer item)).

(** [memcpy] of the items to [recordData + recordSize]. *)
Fixpoint copy_items (items : list StreamConnectionSendRequestListItem) (recordSize : nat) : SM nat :=
  match items with
  | [] => mret recordSize
  | item :: items =>
      buffer ← sget sc_recordBuffer;
      offset ← sget sc_recordOffset;
      pending ← sget sc_pendingRecordSize;
      buffer ← lift (put_bytes buffer (STREAM_CONNECTION_ENCRYPT_MAX_HEADER_SIZE + recordSize) (item_data item));
      mwrite (with_record buffer offset pending) ;;
      copy_items items (recordSize + item_size item)
  end.

(** The record encrypted in place, behind its size. *)
Definition box_record (toRecordSize : nat) : SM unit :=
  buffer ← sget sc_recordBuffer;
  ti ← sget sc_tcpInterface;
  config ← sget sc_config;
  let front := (STREAM_CONNECTION_ENCRYPT_MAX_HEADER_SIZE - 2)%nat in
  '(result, boxed, recordSize) ←
    lift (Bdt_TcpInterfaceBoxCryptoData ti (drop front buffer) toRecordSize (Z.of_nat (recordBufferLength config)));
  mwrite (with_record (take front buffer ++ boxed) (STREAM_CONNECTION_ENCRYPT_MAX_HEADER_SIZE - 2) (Z.to_nat recordSize + 2)) ;;
  massert (bool_decide (result = 0)).

(** The first requests, up to [toRecordSize] bytes: the last one may be cut in
    two, a part without a callback and the rest. *)
Fixpoint split_requests (toRecordSize recordSize : nat) (l : list StreamConnectionSendRequestListItem) :
    list StreamConnectionSendRequestListItem * list StreamConnectionSendRequestListItem :=
  match l with
  | [] => ([], [])
  | item :: l =>
      if decide (toRecordSize < recordSize + item_size item)%nat then
        let offset := (si_offset item + (toRecordSize - recordSize))%nat in
        ([mkSendItem (si_id item) (si_buffer item) offset false (si_offset item) (si_postTime item)],
         mkSendItem (si_id item) (si_buffer item) (si_length item) (si_callback item) offset (si_postTime item) :: l)
      else
        let '(toRecord, rest) := split_requests toRecordSize (recordSize + item_size item) l in
        (item :: toRecord, rest)
  end.

(** The requests for the next record, and how long to wait instead.  It is
    never waited before [postTime]. *)
Definition next_record (now : Z) (s : StreamConnection) :
    option (nat * list StreamConnectionSendRequestListItem * list StreamConnectionSendRequestListItem * Z) :=
  let size := sc_sendRequestSize s in
  let requests := sc_sendRequests s in
  if decide (sc_recordSize s ≠ 0)%nat then Some (0%nat, [], requests, 0)
  else if bool_decide (minRecordSize (sc_config s) ≤ size)%nat || sc_sendClosed s then
    if decide (size < maxRecordSize (sc_config s))%nat then Some (size, requests, [], 0)
    else
      let '(toRecord, rest) := split_requests (maxRecordSize (sc_config s)) 0 requests in
      Some (maxRecordSize (sc_config s), toRecord, rest, 0)
  else if decide (0 < size)%nat then
    item ← head requests;
    let postTime := si_postTime item in
    let delay := Z.quot (Z.quot (maxNagleDelay (sc_config s) * 1000) 2 - (now - postTime)) 1000 in
    Some (if decide (delay ≤ 0 ∨ now < postTime) then (size, requests, [], 0) else (0%nat, [], requests, delay))
  else Some (0%nat, [], requests, 0).

Definition callbacks_of (items : list StreamConnectionSendRequestListItem) : list Task :=
  (λ item, SendDone BFX_RESULT_SUCCESS item (si_length item)) <$> filter (λ item, si_callback item = true) items.

Definition StreamConnectionCheckPendingSend (now : Z) : SM unit :=
  '(toRecordSize, toRecord, rest, delay) ← mread (next_record now);
  recording ← sget sc_recordSize;
  size ← sget sc_sendRequestSize;
  set_requests (size - toRecordSize) rest ;;
  (if decide (recording = 0)%nat then set_recordSize toRecordSize else mret tt) ;;
  if decide (toRecordSize ≠ 0)%nat then
    recordSize ← copy_items toRecord 0;
    massert (bool_decide (recordSize = toRecordSize)) ;;
    box_record toRecordSize ;;
    defer (callbacks_of toRecord ++ [SendRecord])
  else if decide (0 < delay) then start_timer sc_nagleTimer with_nagle (i32 delay) else mret tt.

Definition StreamConnectionOnNagleTimer (now : Z) : SM unit :=
  stop_timer sc_nagleTimer with_nagle ;;
  StreamConnectionCheckPendingSend now.

Definition StreamConnectionOnSyncSent (now : Z) : SM unit := StreamConnectionCheckPendingSend now.

Definition StreamConnectionOnTcpDrain : SM Z := _ ← StreamConnectionSendRecord true; mret BFX_RESULT_SUCCESS.

(** What [Send] does with a request while it holds the lock: whether it is
    pending, whether to wait for the timer, and the requests to record before
    this one with the size of the record. *)
Definition post_request (item : StreamConnectionSendRequestListItem) :
    SM (bool * bool * nat * list StreamConnectionSendRequestListItem) :=
  config ← sget sc_config;
  recording ← sget sc_recordSize;
  size ← sget sc_sendRequestSize;
  requests ← sget sc_sendRequests;
  let length := si_length item in
  if decide (recording ≠ 0)%nat then set_requests (size + length) (requests ++ [item]) ;; mret (true, false, 0%nat, [])
  else if decide (size < minRecordSize config)%nat then
    if decide (minRecordSize config ≤ size + length)%nat then
      if decide (size + length < maxRecordSize config)%nat then
        set_requests 0 [] ;;
        set_recordSize (size + length) ;;
        mret (false, false, (size + length)%nat, requests)
      else
        let offset := (si_offset item + (maxRecordSize config - size))%nat in
        let item := mkSendItem (si_id item) (si_buffer item) length (si_callback item) offset (si_postTime item) in
        set_requests (length - offset) [item] ;;
        set_recordSize (maxRecordSize config) ;;
        mret (true, false, maxRecordSize config, requests)
    else set_requests (size + length) (requests ++ [item]) ;; mret (true, true, 0%nat, [])
  else set_requests (size + length) (requests ++ [item]) ;; mret (true, false, 0%nat, []).

(** [now] is read for [postTime], [later] for the timer.  The callbacks of the
    requests before this one are called without a look whether there is one. *)
Definition StreamConnectionSend (now later : Z) (id : nat) (buffer : list Z) (callback : bool) : SM Z :=
  let item := mkSendItem id buffer (length buffer) callback 0 now in
  sact (UserAddRef id) ;;
  closed ← sget sc_sendClosed;
  if closed : bool then mret BFX_RESULT_INVALID_STATE
  else
    '(pending, nagle, toRecordSize, toRecord) ← post_request item;
    (if decide (toRecordSize ≠ 0)%nat then
       recordSize ← copy_items toRecord 0;
       massert (bool_decide (recordSize < toRecordSize)%nat) ;;
       _ ← copy_items [mkSendItem id buffer (toRecordSize - recordSize) false 0 now] recordSize;
       box_record toRecordSize ;;
       massert (forallb si_callback toRecord && ((pending : bool) || callback)) ;;
       defer (callbacks_of toRecord ++ (if pending : bool then [] else callbacks_of [item]) ++ [SendRecord])
     else mret tt) ;;
    config ← sget sc_config;
    (if nagle : bool then
       let delay := i32 (Z.quot (maxNagleDelay config * 1000 - (later - now)) 1000) in
       start_timer sc_nagleTimer with_nagle
         (if decide (delay < 0) then 0 else if decide (maxNagleDelay config < delay) then maxNagleDelay config else delay)
     else mret tt) ;;
    mret (if pending : bool then BFX_RESULT_PENDING else BFX_RESULT_SUCCESS).

(** The requests that are dropped are called back with no bytes. *)
Definition StreamConnectionCancelPendingSend (result : Z) : SM (list Task) :=
  all ← sget sc_sendRequests;
  mwrite (with_send true 0 0 []) ;;
  mret ((λ item, SendDone result item 0%nat) <$> filter (λ item, si_callback item = true) all).

(** ** Receiving *)

Definition complete_all : SM unit :=
  closed ← sget sc_recvClosed;
  buffers ← sget sc_recvBuffersQueue;
  requests ← sget sc_recvRequestQueue;
  complete ← sget sc_completeRecvRequests;
  mwrite (with_recv closed buffers [] (complete ++ requests)).

(** One round of the loop: what is called back next, then the loop goes on. *)
Definition notify_round : SM unit :=
  complete ← sget sc_completeRecvRequests;
  requests ← sget sc_recvRequestQueue;
  onlyComplete ← sget sc_isCompleteRecvNotifyOnly;
  closed ← sget sc_recvClosed;
  buffers ← sget sc_recvBuffersQueue;
  let first :=
    match requests with
    | req :: _ => if negb onlyComplete && bool_decide (0 < length (rr_data req))%nat then [req] else []
    | [] => []
    end in
  mwrite (with_recv closed buffers (drop (length first) requests) []) ;;
  match complete ++ first with
  | [] => mwrite (with_notify false true)
  | l => mwrite (with_notify true true) ;; defer ((RecvDone <$> l) ++ [NotifyAgain])
  end.

Definition StreamConnectionNotifyCompleteRecvRequest (onlyComplete : bool) : SM unit :=
  notifying ← sget sc_isRecvNotifying;
  only ← sget sc_isCompleteRecvNotifyOnly;
  let only := if onlyComplete then only else false in
  mwrite (with_notify true only) ;;
  if notifying : bool then mret tt else notify_round.

Definition StreamConnectionCancelPendingRecv : SM unit :=
  requests ← sget sc_recvRequestQueue;
  complete ← sget sc_completeRecvRequests;
  mwrite (with_recv true [] requests complete) ;;
  complete_all ;;
  StreamConnectionNotifyCompleteRecvRequest false.

Definition StreamConnectionReset : SM Z :=
  _ ← tcp Bdt_TcpInterfaceReset;
  callbacks ← StreamConnectionCancelPendingSend BFX_RESULT_INVALID_STATE;
  defer (callbacks ++ [CancelRecv]) ;;
  mret BFX_RESULT_SUCCESS.

Definition StreamConnectionOnTcpError : SM unit :=
  defer [MarkDead] ;;
  _ ← StreamConnectionReset;
  mret tt.

Definition StreamConnectionOnDataNotifyTimer : SM unit :=
  stop_timer sc_dataNotifyTimer with_dataTimer ;;
  StreamConnectionNotifyCompleteRecvRequest false.

(** What the buffers have for a request: the bytes, the buffers that are left,
    and [firstRecvTime] and [recvLeftTime]. *)
Fixpoint take_buffers (now timeout : Z) (len writePos : nat) (firstRecvTime recvLeftTime : Z)
    (l : list StreamConnectionRecvBuffer) : list Z * list StreamConnectionRecvBuffer * Z * Z :=
  match l with
  | [] => ([], [], firstRecvTime, recvLeftTime)
  | b :: l =>
      if decide (writePos < len)%nat then
        let copySize := Nat.min (len - writePos) (length (rb_data b) - rb_pos b) in
        let copied := take copySize (drop (rb_pos b) (rb_data b)) in
        let pos := (rb_pos b + copySize)%nat in
        let leftTime := i32 (now - rb_recvTime b - timeout) in
        let leftTime := if decide (timeout < leftTime) then i32 timeout else leftTime in
        let '(firstRecvTime, recvLeftTime) :=
          if decide (firstRecvTime = 0) then (rb_recvTime b, leftTime) else (firstRecvTime, recvLeftTime) in
        if decide (pos = length (rb_data b)) then
          let '(more, rest, first, leftTime) := take_buffers now timeout len (writePos + copySize) firstRecvTime recvLeftTime l in
          (copied ++ more, rest, first, leftTime)
        else (copied, mkRecvBuffer (rb_recvTime b) pos (rb_data b) :: l, firstRecvTime, recvLeftTime)
      else ([], b :: l, firstRecvTime, recvLeftTime)
  end.

Definition StreamConnectionRecv (now : Z) (id len : nat) : SM Z :=
  config ← sget sc_config;
  sact (UserAddRef id) ;;
  buffers ← sget sc_recvBuffersQueue;
  closed ← sget sc_recvClosed;
  requests ← sget sc_recvRequestQueue;
  complete ← sget sc_completeRecvRequests;
  let '(data, buffers, _, recvLeftTime) := take_buffers now (recvTimeout config) len 0 0 0 buffers in
  let writePos := length data in
  let req := mkRecvRequest id data len in
  if decide (writePos = len ∨ closed = true ∨ (0 < writePos)%nat ∧ recvLeftTime ≤ 2000) then
    massert (bool_decide (0 < writePos)%nat || closed) ;;
    mwrite (with_recv closed buffers requests (complete ++ [req])) ;;
    StreamConnectionNotifyCompleteRecvRequest true ;;
    mret BFX_RESULT_SUCCESS
  else
    mwrite (with_recv closed buffers (requests ++ [req]) complete) ;;
    (if decide (length (requests ++ [req]) = 1)%nat
     then _ ← tcp (Bdt_TcpInterfaceResume socket_result); mret tt else mret tt) ;;
    (if decide (0 < writePos)%nat then start_timer sc_dataNotifyTimer with_dataTimer recvLeftTime else mret tt) ;;
    mret BFX_RESULT_SUCCESS.

(** Data for the requests: what is left of it, of the requests, the ones that
    are complete, and whether the last one is filled in part. *)
Fixpoint fill_requests (data : list Z) (requests : list StreamConnectionRecvRequest) :
    list Z * list StreamConnectionRecvRequest * list StreamConnectionRecvRequest * bool :=
  match requests with
  | [] => (data, [], [], false)
  | req :: rest =>
      if decide (data = []) then (data, requests, [], false)
      else
        let copySize := Nat.min (length data) (rr_size req - length (rr_data req)) in
        let req := mkRecvRequest (rr_id req) (rr_data req ++ take copySize data) (rr_size req) in
        let data := drop copySize data in
        if decide (length (rr_data req) = rr_size req) then
          let '(data, rest, complete, delay) := fill_requests data rest in
          (data, rest, req :: complete, delay)
        else (data, req :: rest, [], true)
  end.

Definition StreamConnectionOnTcpEnd : SM Z :=
  buffers ← sget sc_recvBuffersQueue;
  requests ← sget sc_recvRequestQueue;
  complete ← sget sc_completeRecvRequests;
  mwrite (with_recv true buffers requests complete) ;;
  complete_all ;;
  StreamConnectionNotifyCompleteRecvRequest false ;;
  mret BFX_RESULT_SUCCESS.

Definition StreamConnectionOnTcpData (now : Z) (data : list Z) : SM Z :=
  if decide (data = []) then StreamConnectionOnTcpEnd
  else
    closed ← sget sc_recvClosed;
    if closed : bool then mret BFX_RESULT_SUCCESS
    else
      buffers ← sget sc_recvBuffersQueue;
      requests ← sget sc_recvRequestQueue;
      complete ← sget sc_completeRecvRequests;
      massert (bool_decide (requests = []) || bool_decide (buffers = [])) ;;
      let '(remain, requests, filled, delayNotify) := fill_requests data requests in
      massert (bool_decide (Forall (λ req, rr_data req ≠ []) filled)) ;;
      massert (bool_decide (remain = []) || bool_decide (requests = [])) ;;
      let buffers := if decide (remain = []) then buffers else buffers ++ [mkRecvBuffer now 0 remain] in
      mwrite (with_recv false buffers requests (complete ++ filled)) ;;
      (if decide (remain ≠ [] ∧ length buffers = 1%nat) then
         _ ← tcp (Bdt_TcpInterfacePause socket_result);
         (if decide (requests ≠ []) then _ ← tcp (Bdt_TcpInterfaceResume socket_result); mret tt else mret tt)
       else mret tt) ;;
      defer [RestartDataTimer (bool_decide (filled ≠ []) && delayNotify) delayNotify] ;;
      StreamConnectionNotifyCompleteRecvRequest true ;;
      mret BFX_RESULT_SUCCESS.

(** ** Tasks *)

Definition run_task (t : Task) : SM unit :=
  match t with
  | SendDone result item length =>
      sact (SendCallback result (si_id item) length) ;;
      sact (UserRelease (si_id item))
  | SendRecord => _ ← StreamConnectionSendRecord false; mret tt
  | CancelRecv => StreamConnectionCancelPendingRecv
  | RecvDone req =>
      massert (bool_decide (length (rr_data req) ≤ rr_size req)%nat) ;;
      sact (RecvCallback (rr_id req) (rr_data req)) ;;
      sact (UserRelease (rr_id req))
  | NotifyAgain => notify_round
  | RestartDataTimer stop start =>
      config ← sget sc_config;
      (if stop : bool then stop_timer sc_dataNotifyTimer with_dataTimer else mret tt) ;;
      if start : bool then start_timer sc_dataNotifyTimer with_dataTimer (i32 (recvTimeout config)) else mret tt
  | MarkDead => sact MarkTunnelDead
  end.

Definition next_task : SM unit :=
  tasks ← sget sc_tasks;
  match tasks with
  | [] => mret tt
  | t :: tasks => mwrite (λ s, with_tasks (sc_immediates s) tasks s) ;; run_task t
  end.
End stream.
