(* ===== verification/StreamSend.v ===== *)
(** * Stream connections: what is sent

    Every request that is accepted is cut into records, in order, and every
    byte of them is boxed and handed to the socket once; every request is
    called back once. *)

From S2P Require Import Prelude CInt Package BufferStream Codec SessionCodec Endpoint PackageFields PackageCodec HandCodec MergedPackages AesPadding Crypto UdpBox TcpInterface TcpUnbox TcpPush TcpBox TcpProofs TcpTheorems TcpLifecycle StreamConnection.

(** ** Requests *)

(** A request that was accepted, or what is left of it. *)
Record item_ok (item : StreamConnectionSendRequestListItem) : Prop := {
  io_length : si_length item = length (si_buffer item);
  io_offset : (si_offset item ≤ si_length item)%nat;
  io_callback : si_callback item = true }.

Definition items_data (l : list StreamConnectionSendRequestListItem) : list Z := concat (item_data <$> l).
Definition items_size (l : list StreamConnectionSendRequestListItem) : nat := sum_list_with item_size l.
Definition ids_of (l : list StreamConnectionSendRequestListItem) : list nat := si_id <$> l.

Lemma items_data_app l1 l2 : items_data (l1 ++ l2) = items_data l1 ++ items_data l2.
Proof. unfold items_data. by rewrite fmap_app, concat_app. Qed.
Lemma items_data_cons item l : items_data (item :: l) = item_data item ++ items_data l.
Proof. done. Qed.
Lemma items_size_app l1 l2 : items_size (l1 ++ l2) = (items_size l1 + items_size l2)%nat.
Proof. apply sum_list_with_app. Qed.

(** Items whose data is there: requests, or parts of them. *)
Definition item_fits (item : StreamConnectionSendRequestListItem) : Prop := (si_length item ≤ length (si_buffer item))%nat.

Lemma ok_fits item : item_ok item → item_fits item.
Proof. intros [H _ _]. unfold item_fits. lia. Qed.

Lemma item_data_length item : item_fits item → length (item_data item) = item_size item.
Proof. intros H. unfold item_data, item_fits, item_size in *. rewrite length_take, length_drop. lia. Qed.

Lemma items_data_length l : Forall item_fits l → length (items_data l) = items_size l.
Proof.
  induction 1 as [|item l Hi _ IH]; [done|]. rewrite items_data_cons, length_app, IH, item_data_length by done. done.
Qed.

(** The part of a request in front of an offset, and the rest. *)
Lemma item_data_cut item n :
  item_ok item → (n ≤ item_size item)%nat →
  let offset := (si_offset item + n)%nat in
  item_data (mkSendItem (si_id item) (si_buffer item) offset false (si_offset item) (si_postTime item)) ++
  item_data (mkSendItem (si_id item) (si_buffer item) (si_length item) (si_callback item) offset (si_postTime item)) =
  item_data item.
Proof.
  intros [Hl Ho _] Hn. unfold item_data, item_size in *. cbn [si_length si_offset si_buffer].
  rewrite Nat.add_sub_swap by lia. rewrite Nat.sub_diag, Nat.add_0_l.
  rewrite <- (take_drop n (take (si_length item - si_offset item) (drop (si_offset item) (si_buffer item)))).
  rewrite take_take, Nat.min_l by lia. f_equal. rewrite skipn_firstn_comm, drop_drop. f_equal. lia.
Qed.

Lemma split_spec n r l :
  Forall item_ok l → (r ≤ n)%nat → (n ≤ r + items_size l)%nat →
  ∃ a b, split_requests n r l = (a, b) ∧ items_data a ++ items_data b = items_data l ∧ items_size a = (n - r)%nat ∧
    Forall item_fits a ∧ Forall item_ok b ∧ ids_of (filter (λ item, si_callback item = true) a) ++ ids_of b = ids_of l ∧
    items_size b = (r + items_size l - n)%nat.
Proof.
  intros Hl. revert r. induction Hl as [|item l Hi Hl IH]; intros r Hr Hn; cbn [split_requests].
  { exists [], []. cbn in *. split_and!; try done; lia. }
  cbn [items_size sum_list_with] in Hn. fold (items_size l) in Hn. case_decide as Hd.
  - pose proof (item_data_cut item (n - r) Hi ltac:(lia)) as Hc. cbv zeta in Hc. destruct Hi as [H1 H2 H3].
    set (part := mkSendItem _ _ _ false _ _) in *. set (rest := mkSendItem _ _ (si_length item) _ _ _) in *.
    exists [part], (rest :: l). assert (Hs : (n - r ≤ item_size item)%nat) by lia. unfold item_size in Hs.
    split_and!.
    + done.
    + by rewrite !items_data_cons, <- Hc, <- !app_assoc.
    + cbn. unfold item_size. cbn. lia.
    + constructor; [|constructor]. unfold item_fits. cbn. lia.
    + constructor; [|done]. split; cbn; [done|lia|done].
    + done.
    + cbn. fold (items_size l). unfold item_size in *. cbn. lia.
  - destruct (IH (r + item_size item)%nat ltac:(lia) ltac:(lia)) as (a & b & -> & Ed & Es & Ha & Hb & Ei & Eb).
    exists (item :: a), b. split_and!; try done.
    + by rewrite !items_data_cons, <- Ed, <- app_assoc.
    + cbn. fold (items_size a). lia.
    + constructor; [by apply ok_fits|done].
    + rewrite filter_cons_True by apply Hi. unfold ids_of in *. rewrite !fmap_cons. cbn [app]. by rewrite Ei.
    + cbn. fold (items_size l). lia.
Qed.

(** Computes fields of a stream that was changed. *)
Ltac fields := cbn [sc_config sc_tcpInterface sc_sendingCallCount sc_recordBuffer sc_recordOffset sc_pendingRecordSize sc_nagleTimer
  sc_sendClosed sc_recordSize sc_sendRequestSize sc_sendRequests sc_isRecvNotifying sc_isCompleteRecvNotifyOnly sc_recvClosed
  sc_recvBuffersQueue sc_recvRequestQueue sc_completeRecvRequests sc_dataNotifyTimer sc_immediates sc_tasks sc_trace
  with_tcp with_calls with_record with_nagle with_send with_notify with_recv with_dataTimer with_tasks with_trace].
Tactic Notation "fields" "in" "*" := cbn [sc_config sc_tcpInterface sc_sendingCallCount sc_recordBuffer sc_recordOffset
  sc_pendingRecordSize sc_nagleTimer sc_sendClosed sc_recordSize sc_sendRequestSize sc_sendRequests sc_isRecvNotifying
  sc_isCompleteRecvNotifyOnly sc_recvClosed sc_recvBuffersQueue sc_recvRequestQueue sc_completeRecvRequests sc_dataNotifyTimer
  sc_immediates sc_tasks sc_trace with_tcp with_calls with_record with_nagle with_send with_notify with_recv with_dataTimer
  with_tasks with_trace] in *.

(** ** The record *)

Section record.
Context {P : PeerInfoOps} {A : AesOps} {AL : AesLaws A}.
Context (socket_result : nat → Z) (socket_sent : nat → nat).

Notation SM := (M StreamConnection).

Lemma sget_bind {X Y} (f : StreamConnection → X) (k : X → SM Y) s : (sget f ≫= k) s = k (f s) s.
Proof. done. Qed.
Lemma swrite_bind {Y} f (k : unit → SM Y) s : (mwrite f ≫= k) s = k tt (f s).
Proof. done. Qed.
Lemma slift_bind {X Y} (o : option X) x (k : X → SM Y) s : o = Some x → (lift o ≫= k) s = k x s.
Proof. by intros ->. Qed.
Lemma sassert_bind {Y} b (k : unit → SM Y) s : b = true → (massert b ≫= k) s = k tt s.
Proof. by intros ->. Qed.

(** The record buffer with [bs] at [pos]. *)
Definition put_at (pos : nat) (bs buffer : list Z) : list Z := take pos buffer ++ bs ++ drop (pos + length bs) buffer.

Lemma put_at_length pos bs buffer : (pos + length bs ≤ length buffer)%nat → length (put_at pos bs buffer) = length buffer.
Proof. intros H. unfold put_at. rewrite !length_app, length_take, length_drop. lia. Qed.

Lemma put_at_nil pos buffer : put_at pos [] buffer = buffer.
Proof. unfold put_at. cbn [app length]. by rewrite Nat.add_0_r, take_drop. Qed.

Lemma put_at_app pos a b buffer :
  (pos + length a + length b ≤ length buffer)%nat →
  put_at (pos + length a) b (put_at pos a buffer) = put_at pos (a ++ b) buffer.
Proof.
  intros H. unfold put_at. rewrite (app_assoc (take pos buffer) a).
  assert (E : length (take pos buffer ++ a) = (pos + length a)%nat) by (rewrite length_app, length_take; lia).
  rewrite <- E at 1. rewrite take_app_length. rewrite <- !app_assoc. f_equal. f_equal. f_equal.
  rewrite length_app, app_assoc, drop_app_ge by lia. rewrite E, drop_drop. f_equal. lia.
Qed.

Lemma copy_items_runs items n (s : StreamConnection) :
  Forall item_fits items →
  (32 + n + items_size items ≤ length (sc_recordBuffer s))%nat →
  copy_items items n s =
    Some ((n + items_size items)%nat,
      with_record (put_at (32 + n) (items_data items) (sc_recordBuffer s)) (sc_recordOffset s) (sc_pendingRecordSize s) s).
Proof.
  intros Hf. revert n s. induction Hf as [|item items Hi Hf IH]; intros n s Hn.
  - change (items_data []) with (@nil Z). change (items_size []) with 0%nat. rewrite put_at_nil, Nat.add_0_r. by destruct s.
  - cbn [items_size sum_list_with] in *. fold (items_size items) in *. cbn [copy_items]. rewrite !sget_bind.
    rewrite (slift_bind _ (put_at (32 + n) (item_data item) (sc_recordBuffer s))); cycle 1.
    { unfold put_bytes. rewrite option_guard_True; [done|]. rewrite item_data_length by done.
      unfold STREAM_CONNECTION_ENCRYPT_MAX_HEADER_SIZE. lia. }
    rewrite swrite_bind, IH; cycle 1.
    { cbn [sc_recordBuffer with_record]. rewrite put_at_length; rewrite ?item_data_length by done; lia. }
    cbn [sc_recordBuffer sc_recordOffset sc_pendingRecordSize with_record]. f_equal. f_equal; [lia|].
    rewrite items_data_cons, <- put_at_app; [|rewrite items_data_length, item_data_length by done; lia].
    rewrite item_data_length by done. rewrite Nat.add_assoc. by destruct s.
Qed.

(** ** The interface *)

(** What the socket took of everything it was given. *)
Fixpoint sent_on (trace : list TcpAction) : list Z :=
  match trace with
  | [] => []
  | a :: trace =>
      sent_on trace ++ match a with SocketSend d => take (socket_sent (length trace)) d | _ => [] end
  end.

Definition pending_bytes (s : StreamConnection) : list Z :=
  take (sc_pendingRecordSize s) (drop (sc_recordOffset s) (sc_recordBuffer s)).

Lemma frame_length key d : length (frame key d) = (aes_length (length d) + 2)%nat.
Proof. rewrite frame_framed. unfold framed. rewrite length_app, length_le_bytes, aes_cipher_length. lia. Qed.

Lemma box_in_place ti head d room more n :
  ti_isCrypto ti = true → ti_state ti = BDT_TCP_INTERFACE_STATE_STREAM → length head = 2%nat →
  length room = (aes_length (length d) - length d)%nat → Z.of_nat (aes_length (length d)) ≤ n → box_fits d →
  Bdt_TcpInterfaceBoxCryptoData ti (head ++ d ++ room ++ more) (length d) n =
    Some (BFX_RESULT_SUCCESS, frame (ti_aesKey ti) d ++ more, Z.of_nat (aes_length (length d))).
Proof.
  intros Hc Hs Hh Hr Hn Hf. unfold Bdt_TcpInterfaceBoxCryptoData. unfold box_fits in Hf.
  rewrite option_guard_True by done. cbn [mbind option_bind]. rewrite option_guard_True by (by rewrite Hs).
  cbn [mbind option_bind].
  assert (Ed : drop 2 (head ++ d ++ room ++ more) = d ++ room ++ more) by (rewrite <- Hh; apply drop_app_length).
  assert (Et : take 2 (head ++ d ++ room ++ more) = head) by (rewrite <- Hh; apply take_app_length).
  rewrite Ed, Et, (aes_encrypts (ti_aesKey ti) d room more n Hr Hn).
  cbn [mbind option_bind]. unfold _tcpInterfaceCryptoBoxSize. rewrite u16_id by lia.
  rewrite put_bytes_front by (by rewrite length_le_bytes). unfold frame. by rewrite <- app_assoc.
Qed.

(** A record that was copied is boxed, and pending. *)
Lemma box_record_runs d (s : StreamConnection) :
  ti_isCrypto (sc_tcpInterface s) = true → ti_state (sc_tcpInterface s) = BDT_TCP_INTERFACE_STATE_STREAM →
  length (sc_recordBuffer s) = recordBufferLength (sc_config s) → (length d ≤ maxRecordSize (sc_config s))%nat →
  take (length d) (drop 32 (sc_recordBuffer s)) = d → box_fits d →
  ∃ buffer, box_record (length d) s = Some (tt, with_record buffer 30 (aes_length (length d) + 2) s) ∧
    length buffer = recordBufferLength (sc_config s) ∧
    take (aes_length (length d) + 2) (drop 30 buffer) = frame (ti_aesKey (sc_tcpInterface s)) d.
Proof.
  intros Hc Hs Hl Hd Ed Hf. unfold recordBufferLength, STREAM_CONNECTION_ENCRYPT_MAX_HEADER_SIZE, STREAM_CONNECTION_ENCRYPT_MAX_PADDING_SIZE in Hl.
  pose proof (aes_length_bounds (length d)) as Hb. set (rb := sc_recordBuffer s) in *.
  set (head := take 2 (drop 30 rb)). set (tail := drop (length d) (drop 32 rb)).
  set (k := (aes_length (length d) - length d)%nat).
  assert (Esplit : drop 30 rb = head ++ d ++ take k tail ++ drop k tail).
  { rewrite take_drop. unfold tail. rewrite <- Ed at 1. rewrite take_drop. unfold head.
    rewrite <- (take_drop 2 (drop 30 rb)) at 1. by rewrite drop_drop. }
  assert (Hlt : length tail = (32 + maxRecordSize (sc_config s) - length d)%nat) by (unfold tail; rewrite !length_drop; lia).
  exists (take 30 rb ++ frame (ti_aesKey (sc_tcpInterface s)) d ++ drop k tail). split.
  - unfold box_record. rewrite !sget_bind. fold rb. unfold STREAM_CONNECTION_ENCRYPT_MAX_HEADER_SIZE.
    change (32 - 2)%nat with 30%nat. cbv zeta. rewrite Esplit.
    erewrite slift_bind; cycle 1.
    { apply box_in_place; [done|done|unfold head; rewrite length_take, length_drop; lia|rewrite length_take; unfold k; lia| |done].
      unfold recordBufferLength, STREAM_CONNECTION_ENCRYPT_MAX_HEADER_SIZE, STREAM_CONNECTION_ENCRYPT_MAX_PADDING_SIZE. lia. }
    cbn beta iota. rewrite swrite_bind. unfold massert. rewrite bool_decide_eq_true_2 by done. by rewrite Nat2Z.id.
  - assert (Hfr : length (frame (ti_aesKey (sc_tcpInterface s)) d) = (aes_length (length d) + 2)%nat).
    { apply frame_length. }
    split.
    + rewrite !length_app, length_take, length_drop, Hfr. unfold recordBufferLength, STREAM_CONNECTION_ENCRYPT_MAX_HEADER_SIZE, STREAM_CONNECTION_ENCRYPT_MAX_PADDING_SIZE, k. lia.
    + assert (E30 : length (take 30 rb) = 30%nat) by (rewrite length_take; lia).
      rewrite drop_app_length' by done. by rewrite take_app_length'.
Qed.

(** ** The invariant *)

Definition called (trace : list StreamAction) : list nat :=
  omap (λ a, match a with SendCallback r id _ => if decide (r = BFX_RESULT_SUCCESS) then Some id else None | _ => None end) trace.
Definition waiting (tasks : list Task) : list nat :=
  omap (λ t, match t with
             | SendDone r item _ => if decide (r = BFX_RESULT_SUCCESS) then Some (si_id item) else None
             | _ => None
             end) tasks.

(** A timer that is to run, or a counter that came round to 0, for which no
    timer can be started until the next stop. *)
Definition timer_set (t : Bdt_TimerHelper) : Prop := timerInstance t ≠ None ∨ activeTimeSeq t = 0.
Definition timer_ok (t : Bdt_TimerHelper) : Prop := isStartPending t = true → activeTimeSeq t = 0.

(** What the socket had taken when the stream was created. *)
Context (before : list Z).

(** [acc] are the requests that were accepted, [lost] those that were forgotten
    without a callback. *)
Record sending (key : list Z) (acc : list (nat * list Z)) (lost : list nat) (s : StreamConnection) : Prop := {
  sg_alive : alive [] (sc_tcpInterface s);
  sg_crypto : ti_isCrypto (sc_tcpInterface s) = true;
  sg_key : ti_aesKey (sc_tcpInterface s) = key;
  sg_state : ti_state (sc_tcpInterface s) = BDT_TCP_INTERFACE_STATE_STREAM ∨
             (sc_sendClosed s = true ∧ sc_recordSize s = 0 ∧ sc_sendRequestSize s = 0)%nat;
  sg_calls : sc_sendingCallCount s = 0%nat;
  sg_buffer : length (sc_recordBuffer s) = recordBufferLength (sc_config s);
  sg_record : (sc_recordSize s = 0 ↔ sc_pendingRecordSize s = 0)%nat;
  sg_items : Forall item_ok (sc_sendRequests s);
  sg_size : sc_sendRequestSize s = items_size (sc_sendRequests s);
  sg_wire : ∃ records,
    Forall (λ d, d ≠ [] ∧ (length d ≤ maxRecordSize (sc_config s))%nat) records ∧
    sent_on (ti_trace (sc_tcpInterface s)) ++ pending_bytes s = before ++ wire key records ∧
    concat records ++ items_data (sc_sendRequests s) = concat acc.*2;
  sg_ids : called (sc_trace s) ++ waiting (sc_tasks s) ++ ids_of (sc_sendRequests s) ++ lost ≡ₚ acc.*1;
  sg_lost : lost = [] ∨ sc_sendClosed s = true;
  sg_timer : timer_ok (sc_nagleTimer s);
  sg_awake : (0 < sc_sendRequestSize s)%nat → sc_recordSize s = 0%nat →
             (0 < sc_immediates s)%nat ∨ timer_set (sc_nagleTimer s) }.

Record stream_config_ok (c : BdtStreamConnectionConfig) : Prop := {
  cf_min : (0 < minRecordSize c)%nat;
  cf_max : (minRecordSize c ≤ maxRecordSize c)%nat;
  cf_room : Z.of_nat (maxRecordSize c) + 16 < 65536 }.

Lemma config_fits c d : stream_config_ok c → (length d ≤ maxRecordSize c)%nat → box_fits d.
Proof. intros [_ _ H] Hd. unfold box_fits. pose proof (aes_length_bounds (length d)). lia. Qed.

Lemma wire_snoc key records d : wire key (records ++ [d]) = wire key records ++ frame key d.
Proof. unfold wire. rewrite fmap_app, concat_app. cbn. by rewrite app_nil_r. Qed.

Lemma waiting_app l1 l2 : waiting (l1 ++ l2) = waiting l1 ++ waiting l2.
Proof. apply omap_app. Qed.

Lemma waiting_callbacks items :
  waiting (callbacks_of items) = ids_of (filter (λ item, si_callback item = true) items).
Proof.
  unfold callbacks_of, ids_of. induction (filter _ items) as [|item l IH]; [done|]. rewrite !fmap_cons. cbn. f_equal. exact IH.
Qed.

(** What [Send] and [CheckPendingSend] do to the record: the items copied and
    boxed. *)
Definition record_made (key d : list Z) (s s' : StreamConnection) : Prop :=
  ∃ buffer, s' = with_record buffer 30 (aes_length (length d) + 2) s ∧
    length buffer = recordBufferLength (sc_config s) ∧
    take (aes_length (length d) + 2) (drop 30 buffer) = frame key d.

Lemma box_copied key d (s : StreamConnection) :
  stream_config_ok (sc_config s) →
  ti_isCrypto (sc_tcpInterface s) = true → ti_state (sc_tcpInterface s) = BDT_TCP_INTERFACE_STATE_STREAM →
  ti_aesKey (sc_tcpInterface s) = key → length (sc_recordBuffer s) = recordBufferLength (sc_config s) →
  (length d ≤ maxRecordSize (sc_config s))%nat →
  ∃ s', box_record (length d) (with_record (put_at 32 d (sc_recordBuffer s)) (sc_recordOffset s) (sc_pendingRecordSize s) s) =
    Some (tt, s') ∧ record_made key d s s'.
Proof.
  intros Hcf Hc Hs Hk Hl Hd. set (s1 := with_record _ _ _ s).
  pose proof Hl as Hl2. unfold recordBufferLength, STREAM_CONNECTION_ENCRYPT_MAX_HEADER_SIZE, STREAM_CONNECTION_ENCRYPT_MAX_PADDING_SIZE in Hl2.
  destruct (box_record_runs d s1) as (buffer & E & Hb & Ef); [done|done| |done| |by apply (config_fits (sc_config s))|].
  - cbn. rewrite put_at_length; [done|lia].
  - cbn. unfold put_at. rewrite drop_app_length' by (rewrite length_take; lia). apply take_app_length.
  - exists (with_record buffer 30 (aes_length (length d) + 2) s1). split; [exact E|].
    exists buffer. split; [by destruct s|]. split; [done|]. by rewrite <- Hk.
Qed.

(** The stream with one more [BdtImmediate] to run. *)
Definition more (s : StreamConnection) : StreamConnection := with_tasks (S (sc_immediates s)) (sc_tasks s) s.

Lemma sending_more key acc lost s : sending key acc lost s → sending key acc lost (more s).
Proof. intros []. split; unfold more; fields; try done. intros _ _. left. lia. Qed.

(** A record is made of all requests of an idle stream, or of the first ones. *)
Lemma sending_made key acc acc' lost lost' (s s1 s' : StreamConnection) d rest tasks :
  sending key acc lost (more s) → sc_recordSize s = 0%nat → ti_state (sc_tcpInterface s) = BDT_TCP_INTERFACE_STATE_STREAM →
  record_made key d s1 s' → s1 = with_send (sc_sendClosed s) (length d) (items_size rest) rest s →
  d ≠ [] → (length d ≤ maxRecordSize (sc_config s))%nat → Forall item_ok rest →
  items_data (sc_sendRequests s) ++ concat (drop (length acc) acc').*2 = d ++ items_data rest →
  acc' = acc ++ drop (length acc) acc' → (lost' = [] ∨ sc_sendClosed s = true) →
  ids_of (sc_sendRequests s) ++ lost ++ (drop (length acc) acc').*1 ≡ₚ waiting tasks ++ ids_of rest ++ lost' →
  sending key acc' lost' (with_tasks (sc_immediates s') (tasks ++ sc_tasks s') s').
Proof.
  intros Hs Hr Hst (buffer & -> & Hbuf & Ef) -> Hd Hlen Hrest Hdata Hacc Hlost Hids.
  destruct Hs as [H1 H2 H3 H4 H5 H6 H7 H8 H9 (records & R1 & R2 & R3) H11 H12 H13 H14]. unfold more in *. fields in *.
  pose proof (aes_length_bounds (length d)) as Hal.
  split; fields; try done.
  - by left.
  - split; [intros E; destruct d; [done|discriminate]|lia].
  - exists (records ++ [d]). split_and!.
    + apply Forall_app. split; [done|]. by constructor.
    + assert (Ep : pending_bytes (with_tasks (S (sc_immediates s)) (sc_tasks s) s) = []).
      { unfold pending_bytes. fields. apply H7 in Hr. by rewrite Hr. }
      rewrite Ep, app_nil_r in R2. rewrite wire_snoc, R2, <- app_assoc. do 2 f_equal. exact Ef.
    + rewrite concat_app. cbn. rewrite app_nil_r, <- app_assoc, <- Hdata, app_assoc, R3.
      rewrite Hacc at 2. by rewrite fmap_app, concat_app.
  - rewrite waiting_app, Hacc, fmap_app, <- H11. rewrite <- !app_assoc. rewrite Hids. f_equiv.
    rewrite !app_assoc. do 2 f_equiv. apply Permutation_app_comm.
  - intros _ E. destruct d; [done|discriminate E].
Qed.

(** What the receiving side is about. *)
Definition recv_task (t : Task) : bool :=
  match t with RecvDone _ | NotifyAgain | CancelRecv => true | RestartDataTimer stop start => stop && negb start | _ => false end.
Definition recv_tasks (tasks : list Task) : list Task := filter (λ t, recv_task t = true) tasks.
Definition restarts (tasks : list Task) : bool := existsb (λ t, match t with RestartDataTimer _ start => start | _ => false end) tasks.
Definition recv_called (trace : list StreamAction) : list (nat * list Z) :=
  omap (λ a, match a with RecvCallback id data => Some (id, data) | _ => None end) trace.

Record recv_same (s s' : StreamConnection) : Prop := {
  rs_config : sc_config s' = sc_config s;
  rs_notifying : sc_isRecvNotifying s' = sc_isRecvNotifying s;
  rs_only : sc_isCompleteRecvNotifyOnly s' = sc_isCompleteRecvNotifyOnly s;
  rs_closed : sc_recvClosed s' = sc_recvClosed s;
  rs_buffers : sc_recvBuffersQueue s' = sc_recvBuffersQueue s;
  rs_requests : sc_recvRequestQueue s' = sc_recvRequestQueue s;
  rs_complete : sc_completeRecvRequests s' = sc_completeRecvRequests s;
  rs_timer : sc_dataNotifyTimer s' = sc_dataNotifyTimer s;
  rs_tasks : recv_tasks (sc_tasks s') = recv_tasks (sc_tasks s);
  rs_restarts : restarts (sc_tasks s') = restarts (sc_tasks s);
  rs_called : recv_called (sc_trace s') = recv_called (sc_trace s) }.

Lemma recv_tasks_app l1 l2 : recv_tasks (l1 ++ l2) = recv_tasks l1 ++ recv_tasks l2.
Proof. apply filter_app. Qed.
Lemma restarts_app l1 l2 : restarts (l1 ++ l2) = restarts l1 || restarts l2.
Proof. apply existsb_app. Qed.

(** Tasks of the sending side. *)
Definition send_task (t : Task) : Prop := match t with SendDone _ _ _ | SendRecord => True | _ => False end.

Lemma send_tasks_callbacks items : Forall send_task (callbacks_of items).
Proof. unfold callbacks_of. by induction (filter _ items); constructor. Qed.

Lemma send_tasks_same tasks l : Forall send_task tasks → recv_tasks (tasks ++ l) = recv_tasks l ∧ restarts (tasks ++ l) = restarts l.
Proof.
  induction 1 as [|t tasks Ht _ [IH1 IH2]]; [done|]. unfold recv_tasks, restarts in *. cbn [app]. split.
  - rewrite filter_cons_False; [done|]. by destruct t.
  - cbn [existsb]. rewrite IH2. by destruct t.
Qed.

#[local] Instance recv_same_refl : Reflexive recv_same.
Proof. by split. Qed.
#[local] Instance recv_same_trans : Transitive recv_same.
Proof. intros a b c [] []. split; congruence. Qed.

(** A function that sends: it returns, and keeps what it has to. *)
Definition sends {X} (key : list Z) (acc acc' : list (nat * list Z)) (lost lost' : list nat) (c : SM X)
    (s : StreamConnection) : Prop :=
  sending key acc lost s → stream_config_ok (sc_config s) →
  ∃ x s', c s = Some (x, s') ∧ sending key acc' lost' s' ∧ recv_same s s'.

(** ** The interface is closed *)

Lemma sent_on_quiet l trace : Forall (λ a, match a with SocketSend _ => False | _ => True end) l → sent_on (l ++ trace) = sent_on trace.
Proof.
  induction 1 as [|a l Ha _ IH]; [done|]. cbn [app sent_on]. rewrite IH. destruct a; try done; by rewrite app_nil_r.
Qed.

Lemma closed_tcp_sent t : sent_on (ti_trace (closed_tcp t)) = sent_on (ti_trace t).
Proof.
  unfold closed_tcp. case_decide.
  - cbn. by rewrite app_nil_r.
  - unfold ended. cbn [ti_trace set_trace]. apply sent_on_quiet. apply Forall_app. split.
    + destruct (ti_owner t); by repeat constructor.
    + by repeat constructor.
Qed.

Lemma close_sends key acc lost (s : StreamConnection) :
  sending key acc lost s → sc_sendClosed s = true → sc_recordSize s = 0%nat → sc_sendRequestSize s = 0%nat →
  ∃ r s', tcp Bdt_TcpInterfaceClose s = Some (r, s') ∧ sending key acc lost s' ∧ recv_same s s'.
Proof.
  intros Hs Hc Hr Hz. unfold tcp.
  destruct (decide (ti_state (sc_tcpInterface s) = BDT_TCP_INTERFACE_STATE_CLOSED)) as [E|E].
  { rewrite Close_again by done. eexists _, s. split; [f_equal; f_equal; by destruct s|done]. }
  destruct (Close_runs [] _ (sg_alive _ _ _ _ Hs) E) as [Ec Ha]. rewrite Ec. eexists _, _. split; [reflexivity|].
  split; [|by split]. destruct Hs as [H1 H2 H3 H4 H5 H6 H7 H8 H9 H10 H11 H12 H13 H14].
  split; fields; try done.
  - unfold closed_tcp. by case_decide.
  - unfold closed_tcp. by case_decide.
  - by right.
  - by rewrite closed_tcp_sent.
Qed.

Lemma Close_sends key acc lost (s : StreamConnection) : sends key acc acc lost lost StreamConnectionClose s.
Proof.
  intros Hs Hcf. unfold StreamConnectionClose. rewrite sget_bind. destruct (sc_sendClosed s) eqn:Ec; [by eexists _, s|].
  unfold set_sendClosed. rewrite swrite_bind, !sget_bind. fields. set (s1 := with_send true _ _ _ s).
  assert (H1 : sending key acc lost s1).
  { destruct Hs as [H1 H2 H3 H4 H5 H6 H7 H8 H9 H10 H11 H12 H13 H14]. split; fields; try done.
    - destruct H4 as [H4|(H4 & _)]; [by left|congruence].
    - by right. }
  assert (Hsame : recv_same s s1) by by split.
  case_decide as Hd.
  - destruct (close_sends key acc lost s1 H1) as (r & s' & E & H2 & H3); [done|apply (sg_record _ _ _ _ Hs), Hd|apply Hd|].
    unfold mbind at 1, M_bind at 1. rewrite (M_bind_Some _ _ _ _ _ E). eexists _, s'. split; [reflexivity|].
    split; [done|by etrans].
  - by eexists _, s1.
Qed.

(** ** What is pending is sent *)

(** The stream with nothing recorded, woken up. *)
Definition woken (s : StreamConnection) : StreamConnection :=
  with_tasks (S (sc_immediates s)) (sc_tasks s) (with_send (sc_sendClosed s) 0 (sc_sendRequestSize s) (sc_sendRequests s) s).

Lemma record_sent_sends key acc lost (s : StreamConnection) :
  sending key acc lost (woken s) → ∃ s', record_sent s = Some (tt, s') ∧ sending key acc lost s' ∧ recv_same s s'.
Proof.
  intros Hs. unfold record_sent, set_recordSize. rewrite swrite_bind, !sget_bind. set (s1 := with_send _ _ _ _ s) in *.
  assert (Hsame : recv_same s s1) by by split. case_decide as Hd.
  - assert (H1 : sending key acc lost s1).
    { destruct Hs as [H1 H2 H3 H4 H5 H6 H7 H8 H9 H10 H11 H12 H13 H14]. split; fields; try done. intros Hz. fields in *. lia. }
    destruct (close_sends key acc lost s1 H1) as (r & s' & E & H2 & H3); [apply Hd|done|apply Hd|].
    rewrite (M_bind_Some _ _ _ _ _ E). eexists s'. split; [reflexivity|]. split; [done|by etrans].
  - eexists _. split; [reflexivity|]. split; [|by split]. by destruct s.
Qed.

Lemma send_rounds_once (s : StreamConnection) pending s1 :
  send_pending socket_result socket_sent s = Some (pending, s1) → sc_sendingCallCount s1 = 1%nat →
  send_rounds socket_result socket_sent 1 0 s =
    Some (if decide (sc_pendingRecordSize s ≠ 0)%nat then pending else 0%nat, with_calls 0 s1).
Proof.
  intros E Hc. cbn [send_rounds]. rewrite sget_bind, (M_bind_Some _ _ _ _ _ E), swrite_bind. unfold mret, M_ret.
  by rewrite Hc.
Qed.

(** What the socket takes of what is pending. *)
Definition takes_pending (s : StreamConnection) : StreamConnection :=
  let ti := sc_tcpInterface s in
  let n := socket_sent (length (ti_trace ti)) in
  with_record (sc_recordBuffer s) (sc_recordOffset s + n) (sc_pendingRecordSize s - n)
    (with_tcp (set_trace (SocketSend (pending_bytes s) :: ti_trace ti) ti) s).

Lemma SendRecord_takes countCall held (s : StreamConnection) :
  alive held (sc_tcpInterface s) → ti_state (sc_tcpInterface s) ≠ BDT_TCP_INTERFACE_STATE_CLOSED →
  sc_sendingCallCount s = 0%nat → sc_pendingRecordSize s ≠ 0%nat →
  StreamConnectionSendRecord socket_result socket_sent countCall s =
    ((if decide (sc_pendingRecordSize (takes_pending s) = 0)%nat then record_sent else mret tt) ;; mret BFX_RESULT_SUCCESS)
      (takes_pending s).
Proof.
  intros Ha Hc H0 Hp. unfold StreamConnectionSendRecord. rewrite sget_bind, H0.
  assert (E1 : ∀ Y (k : unit → SM Y), ((if countCall then mwrite (with_calls 1) else if decide (0 = 0)%nat then mwrite (with_calls 1)
    else mret tt) ≫= k) s = k tt (with_calls 1 s)) by (intros; by destruct countCall).
  rewrite E1. clear E1. rewrite decide_False by tauto. rewrite sget_bind. set (s1 := with_calls 1 s).
  change (sc_sendingCallCount s1) with 1%nat. set (n := socket_sent (length (ti_trace (sc_tcpInterface s)))).
  assert (Ep : send_pending socket_result socket_sent s1 = Some ((sc_pendingRecordSize s - n)%nat, takes_pending s1)).
  { unfold send_pending. rewrite !sget_bind. fields. rewrite decide_True by done. rewrite !sget_bind. fields.
    fold (pending_bytes s). unfold Bdt_TcpInterfaceSend, tcp, mbind at 1, M_bind at 1. fields.
    rewrite (on_socket_runs socket_result held) by done. by rewrite (slift_bind _ n). }
  rewrite (M_bind_Some _ _ _ _ _ (send_rounds_once s1 _ _ Ep eq_refl)).
  rewrite (decide_True (P := sc_pendingRecordSize s1 ≠ 0%nat)) by done.
  assert (E2 : with_calls 0 (takes_pending s1) = takes_pending s) by (destruct s; cbn in H0; by subst).
  by rewrite E2.
Qed.

Lemma SendRecord_nothing countCall (s : StreamConnection) :
  sc_sendingCallCount s = 0%nat → sc_pendingRecordSize s = 0%nat →
  StreamConnectionSendRecord socket_result socket_sent countCall s = (record_sent ;; mret BFX_RESULT_SUCCESS) s.
Proof.
  intros H0 Hp. unfold StreamConnectionSendRecord. rewrite sget_bind, H0.
  assert (E1 : ∀ Y (k : unit → SM Y), ((if countCall then mwrite (with_calls 1) else if decide (0 = 0)%nat then mwrite (with_calls 1)
    else mret tt) ≫= k) s = k tt (with_calls 1 s)) by (intros; by destruct countCall).
  rewrite E1. clear E1. rewrite decide_False by tauto. rewrite sget_bind. set (s1 := with_calls 1 s).
  change (sc_sendingCallCount s1) with 1%nat.
  assert (Ep : send_pending socket_result socket_sent s1 = Some (0%nat, s1)).
  { unfold send_pending. rewrite sget_bind. rewrite decide_False; [done|]. intros Hx. by apply Hx. }
  rewrite (M_bind_Some _ _ _ _ _ (send_rounds_once s1 0 s1 Ep eq_refl)).
  assert (Ez : (if decide (sc_pendingRecordSize s1 ≠ 0%nat) then 0 else 0)%nat = 0%nat) by by destruct (decide (sc_pendingRecordSize s1 ≠ 0%nat)).
  assert (E2 : with_calls 0 s1 = s) by (destruct s; cbn in H0; by subst).
  by rewrite Ez, decide_True, E2 by done.
Qed.

Lemma SendRecord_sends countCall key acc lost (s : StreamConnection) :
  sends key acc acc lost lost (StreamConnectionSendRecord socket_result socket_sent countCall) s.
Proof.
  intros Hs Hcf. destruct (decide (sc_pendingRecordSize s = 0)%nat) as [Hp|Hp].
  - rewrite SendRecord_nothing by (done || apply (sg_calls _ _ _ _ Hs)).
    destruct (record_sent_sends key acc lost s) as (s' & E & H2 & H3).
    { apply (sg_record _ _ _ _ Hs) in Hp as Hr. destruct Hs as [H1 H2 H3 H4 H5 H6 H7 H8 H9 H10 H11 H12 H13 H14].
      split; unfold woken; fields; try done.
      - destruct H4 as [H4|(?&?&?)]; [by left|by right].
      - intros _ _. left. lia. }
    rewrite (M_bind_Some _ _ _ _ _ E). eexists _, s'. split; [reflexivity|]. done.
  - assert (Hst : ti_state (sc_tcpInterface s) = BDT_TCP_INTERFACE_STATE_STREAM).
    { destruct (sg_state _ _ _ _ Hs) as [?|(_ & Hr & _)]; [done|]. by apply (sg_record _ _ _ _ Hs) in Hr. }
    rewrite (SendRecord_takes countCall []); [|apply (sg_alive _ _ _ _ Hs)|by rewrite Hst|apply (sg_calls _ _ _ _ Hs)|done].
    set (n := socket_sent (length (ti_trace (sc_tcpInterface s)))). set (s2 := takes_pending s).
    assert (Hsame : recv_same s s2) by by split.
    assert (Hwire : sent_on (ti_trace (sc_tcpInterface s2)) ++ pending_bytes s2 =
                    sent_on (ti_trace (sc_tcpInterface s)) ++ pending_bytes s).
    { unfold s2, takes_pending. fields. cbn [ti_trace set_trace sent_on]. fold n. rewrite <- app_assoc. f_equal.
      unfold pending_bytes at 2. fields. rewrite <- (take_drop n (pending_bytes s)) at 2. f_equal. unfold pending_bytes.
      by rewrite skipn_firstn_comm, drop_drop. }
    assert (Hal : alive [] (sc_tcpInterface s2)).
    { apply alive_act; [apply (sg_alive _ _ _ _ Hs)|done|]. intros _. apply (alive_open []); [apply (sg_alive _ _ _ _ Hs)|by rewrite Hst]. }
    destruct Hs as [H1 H2 H3 H4 H5 H6 H7 H8 H9 (records & R1 & R2 & R3) H11 H12 H13 H14].
    case_decide as Hdone.
    + destruct (record_sent_sends key acc lost s2) as (s' & E & H2' & H3').
      { split; unfold woken; fields; try done.
        - by left.
        - exists records. split; [done|]. split; [|done]. rewrite <- R2. exact Hwire.
        - intros _ _. left. lia. }
      rewrite (M_bind_Some _ _ _ _ _ E). eexists _, s'. split; [reflexivity|]. split; [done|by etrans].
    + eexists _, s2. split; [reflexivity|]. split; [|done].
      split; fields; try done.
      * change (sc_recordSize s2) with (sc_recordSize s). rewrite H7. split; [done|]. intros E. by destruct Hdone.
      * exists records. split; [done|]. split; [|done]. rewrite <- R2. exact Hwire.
Qed.

(** ** Records of requests *)

Section timers.
Context (get : StreamConnection → Bdt_TimerHelper) (set : Bdt_TimerHelper → StreamConnection → StreamConnection).
Context (set_get : ∀ s, set (get s) s = s) (set_trace_same : ∀ t s, sc_trace (set t s) = sc_trace s).

Lemma start_runs d (s : StreamConnection) :
  timer_ok (get s) →
  ∃ t trace, start_timer get set d s = Some (tt, with_trace (trace ++ sc_trace s) (set t s)) ∧
    timer_ok t ∧ timer_set t ∧ called (trace ++ sc_trace s) = called (sc_trace s) ∧
    recv_called (trace ++ sc_trace s) = recv_called (sc_trace s).
Proof using set_get set_trace_same.
  intros Ht. unfold start_timer. rewrite !sget_bind. unfold Bdt_TimerHelperStart, timer_ok, timer_set in *.
  pose proof (set_get s) as Hset. assert (Hs : ∀ s : StreamConnection, with_trace ([] ++ sc_trace s) s = s) by by intros [].
  destruct (get s) as [pending seq [timer|]] eqn:E; cbn [timerInstance isStartPending activeTimeSeq] in *.
  - rewrite bool_decide_eq_false_2 by done. cbn [andb]. rewrite swrite_bind. exists (mkTimer pending seq (Some timer)), [].
    split; [by rewrite Hset, Hs|]. split; [exact Ht|]. split; [by left|done].
  - rewrite bool_decide_eq_true_2 by done. destruct pending; cbn [andb negb].
    + rewrite swrite_bind. exists (mkTimer true seq None), []. split; [by rewrite Hset, Hs|]. split; [exact Ht|].
      split; [right; cbn; by apply Ht|done].
    + case_decide as Hz.
      * rewrite swrite_bind. exists (mkTimer true seq None), []. split; [|split; [by intros _|]; split; [by right|done]].
        by rewrite <- (set_trace_same (mkTimer true seq None) s), Hs.
      * rewrite swrite_bind. pose (t := mkTimer false seq (Some (Z.of_nat (length (sc_trace s)) + 1))). exists t, [CreateTimer d].
        split; [|split; [done|]; split; [by left|done]].
        trans (Some (tt, with_trace (CreateTimer d :: sc_trace (set t s)) (set t s))); [done|by rewrite set_trace_same].
Qed.

Lemma stop_runs (s : StreamConnection) :
  ∃ t trace, stop_timer get set s = Some (tt, with_trace (trace ++ sc_trace s) (set t s)) ∧ timer_ok t ∧
    called (trace ++ sc_trace s) = called (sc_trace s) ∧ recv_called (trace ++ sc_trace s) = recv_called (sc_trace s).
Proof using set_trace_same.
  unfold stop_timer. rewrite sget_bind. unfold Bdt_TimerHelperStop. rewrite swrite_bind. set (t := mkTimer _ _ _). exists t.
  destruct (timerInstance (get s)).
  - exists [DestroyTimer]. split; [|done].
    trans (Some (tt, with_trace (DestroyTimer :: sc_trace (set t s)) (set t s))); [done|by rewrite set_trace_same].
  - exists []. split; [|done]. rewrite <- (set_trace_same t s). unfold mret, M_ret. do 2 f_equal. by destruct (set t s).
Qed.
End timers.

Lemma start_nagle d (s : StreamConnection) :
  timer_ok (sc_nagleTimer s) →
  ∃ t trace, start_timer sc_nagleTimer with_nagle d s = Some (tt, with_trace (trace ++ sc_trace s) (with_nagle t s)) ∧
    timer_ok t ∧ timer_set t ∧ called (trace ++ sc_trace s) = called (sc_trace s) ∧
    recv_called (trace ++ sc_trace s) = recv_called (sc_trace s).
Proof. by apply start_runs; [intros []|]. Qed.

(** What is recorded next. *)
Definition recorded (s : StreamConnection) (n : nat) (a b : list StreamConnectionSendRequestListItem) : Prop :=
  sc_recordSize s = 0%nat ∧ items_data a ++ items_data b = items_data (sc_sendRequests s) ∧ items_size a = n ∧
  (n ≤ maxRecordSize (sc_config s))%nat ∧ Forall item_fits a ∧ Forall item_ok b ∧
  ids_of (filter (λ item, si_callback item = true) a) ++ ids_of b = ids_of (sc_sendRequests s) ∧
  items_size b = (sc_sendRequestSize s - n)%nat.

Lemma recorded_all key acc lost (s : StreamConnection) :
  sending key acc lost (more s) → sc_recordSize s = 0%nat → (sc_sendRequestSize s ≤ maxRecordSize (sc_config s))%nat →
  recorded s (sc_sendRequestSize s) (sc_sendRequests s) [].
Proof.
  intros Hs Hr Hm. split_and!; try done.
  - change (items_data []) with (@nil Z). by rewrite app_nil_r.
  - symmetry. exact (sg_size _ _ _ _ Hs).
  - eapply Forall_impl; [apply (sg_items _ _ _ _ Hs)|apply ok_fits].
  - pose proof (sg_items _ _ _ _ Hs) as Hi. change (sc_sendRequests (more s)) with (sc_sendRequests s) in Hi.
    rewrite (filter_all (λ item, si_callback item = true)); [apply app_nil_r|].
    intros item Hin. rewrite Forall_forall in Hi. by apply Hi.
  - rewrite Nat.sub_diag. done.
Qed.

Lemma next_record_spec key acc lost now (s : StreamConnection) :
  sending key acc lost (more s) → stream_config_ok (sc_config s) →
  ∃ n a b delay, next_record now s = Some (n, a, b, delay) ∧
    ((0 < n)%nat ∧ recorded s n a b ∨
     n = 0%nat ∧ b = sc_sendRequests s ∧ (delay ≤ 0 → sc_recordSize s = 0%nat → sc_sendRequestSize s = 0%nat) ∨
     n = 0%nat ∧ b = [] ∧ delay = 0 ∧ sc_sendRequestSize s = 0%nat ∧ sc_recordSize s = 0%nat ∧ sc_sendClosed s = true).
Proof.
  intros Hs Hcf. unfold next_record. destruct Hcf as [Hmin Hmax _]. case_decide as Hr.
  { eexists _, _, _, _. split; [done|]. right. left. split_and!; try done; intros; lia. }
  assert (Hr0 : sc_recordSize s = 0%nat) by lia. clear Hr.
  pose proof (sg_size _ _ _ _ Hs) as Hz. change (sc_sendRequestSize (more s)) with (sc_sendRequestSize s) in Hz.
  change (sc_sendRequests (more s)) with (sc_sendRequests s) in Hz.
  destruct (bool_decide (minRecordSize (sc_config s) ≤ sc_sendRequestSize s)%nat || sc_sendClosed s) eqn:Ec.
  - destruct (decide (sc_sendRequestSize s < maxRecordSize (sc_config s))%nat) as [Hm|Hm].
    + eexists _, _, _, _. split; [done|]. destruct (decide (sc_sendRequestSize s = 0)%nat) as [E0|E0].
      * right. right. split_and!; try done. rewrite bool_decide_eq_false_2 in Ec by lia. done.
      * left. split; [lia|]. apply (recorded_all key acc lost); [done|done|lia].
    + pose proof (sg_items _ _ _ _ Hs) as Hi. change (sc_sendRequests (more s)) with (sc_sendRequests s) in Hi.
      destruct (split_spec (maxRecordSize (sc_config s)) 0 (sc_sendRequests s) Hi) as (a & b & -> & E1 & E2 & E3 & E4 & E5 & E6); [lia|lia|].
      eexists _, a, b, _. split; [done|]. left. split; [lia|]. split_and!; try done; lia.
  - apply orb_false_iff in Ec as [Emin Ecl]. apply bool_decide_eq_false_1 in Emin. destruct (decide (0 < sc_sendRequestSize s)%nat) as [Hpos|Hpos].
    + destruct (sc_sendRequests s) as [|item l] eqn:El; [rewrite Hz in Hpos; cbn in Hpos; lia|]. cbn [head mbind option_bind].
      case_decide as Hdelay; eexists _, _, _, _; (split; [done|]).
      * left. split; [lia|]. rewrite <- El. apply (recorded_all key acc lost); [done|done|lia].
      * right. left. split_and!; try done; intros; lia.
    + eexists _, _, _, _. split; [done|]. right. left. split_and!; try done; intros; lia.
Qed.

Lemma CheckPendingSend_sends key acc lost now (s : StreamConnection) :
  sending key acc lost (more s) → stream_config_ok (sc_config s) →
  ∃ s' lost', StreamConnectionCheckPendingSend now s = Some (tt, s') ∧ sending key acc lost' s' ∧ recv_same s s'.
Proof.
  intros Hs Hcf. destruct (next_record_spec key acc lost now s Hs Hcf) as (n & a & b & delay & En & Hcase).
  unfold StreamConnectionCheckPendingSend. unfold mbind at 1, M_bind at 1, mread at 1. rewrite En. rewrite !sget_bind.
  unfold set_requests, set_recordSize. rewrite swrite_bind. destruct Hcase as [[Hn Hrec]|Hcase].
  - destruct Hrec as (Hr & E1 & E2 & E3 & E4 & E5 & E6 & E7). rewrite (decide_True (P := sc_recordSize s = 0%nat)) by done.
    rewrite swrite_bind. fields. rewrite (decide_True (P := n ≠ 0%nat)) by lia.
    set (s1 := with_send (sc_sendClosed s) n (items_size b) b s).
    match goal with |- context [(copy_items a 0 ≫= _) ?x] => replace x with s1 by (unfold s1; rewrite E7; by destruct s) end.
    assert (Hst : ti_state (sc_tcpInterface s) = BDT_TCP_INTERFACE_STATE_STREAM).
    { pose proof (sg_state _ _ _ _ Hs) as Hx. pose proof (sg_size _ _ _ _ Hs) as Hz. unfold more in *. fields in *.
      destruct Hx as [?|(_ & _ & Hx)]; [done|]. exfalso.
      assert (Hf1 : Forall item_fits b) by (eapply Forall_impl; [exact E5|apply ok_fits]).
      assert (Hf2 : Forall item_fits (sc_sendRequests s)) by (eapply Forall_impl; [apply (sg_items _ _ _ _ Hs)|apply ok_fits]).
      pose proof (f_equal length E1) as El. rewrite length_app, !items_data_length in El by done. lia. }
    pose proof (sg_buffer _ _ _ _ Hs) as Hb. change (sc_recordBuffer (more s)) with (sc_recordBuffer s) in Hb.
    change (sc_config (more s)) with (sc_config s) in Hb.
    assert (Hroom : (32 + 0 + items_size a ≤ length (sc_recordBuffer s1))%nat).
    { change (sc_recordBuffer s1) with (sc_recordBuffer s). rewrite Hb. unfold recordBufferLength, STREAM_CONNECTION_ENCRYPT_MAX_HEADER_SIZE. lia. }
    rewrite (M_bind_Some _ _ _ _ _ (copy_items_runs a 0 s1 E4 Hroom)).
    rewrite sassert_bind by (apply bool_decide_eq_true_2; lia).
    assert (Hlen : length (items_data a) = n) by (rewrite items_data_length by done; done).
    destruct (box_copied key (items_data a) s1) as (s' & Eb & Hm); [done|apply (sg_crypto _ _ _ _ Hs)|done|apply (sg_key _ _ _ _ Hs)|done|by rewrite Hlen|].
    rewrite Hlen in Eb. rewrite (M_bind_Some _ _ _ _ _ Eb). unfold defer, mwrite. eexists _, lost. split; [reflexivity|].
    split.
    + apply (sending_made key acc acc lost lost s s1 s' (items_data a) b); try done.
      * unfold s1. by rewrite Hlen.
      * intros E. rewrite E in Hlen. cbn in Hlen. lia.
      * by rewrite Hlen.
      * rewrite drop_all. cbn. by rewrite app_nil_r, E1.
      * by rewrite drop_all, app_nil_r.
      * apply (sg_lost _ _ _ _ Hs).
      * rewrite drop_all. cbn [fmap list_fmap]. rewrite app_nil_r, <- E6, waiting_app, waiting_callbacks. cbn [waiting omap list_omap].
        rewrite app_nil_r. by rewrite <- app_assoc.
    + destruct Hm as (buffer & -> & _ & _). split; try done; fields; apply send_tasks_same, Forall_app; (split; [apply send_tasks_callbacks|by constructor]).
  - assert (n = 0%nat) as -> by (destruct Hcase as [[? _]|[? _]]; done). rewrite Nat.sub_0_r.
    assert (Es : ∀ b, (if decide (sc_recordSize s = 0%nat) then with_send (sc_sendClosed s) 0 (sc_sendRequestSize s) b s
                       else with_send (sc_sendClosed s) (sc_recordSize s) (sc_sendRequestSize s) b s) =
                      with_send (sc_sendClosed s) (sc_recordSize s) (sc_sendRequestSize s) b s).
    { intros b'. destruct (decide (sc_recordSize s = 0%nat)) as [E|E]; [by rewrite E|done]. }
    assert (Er : ∀ b Y (k : unit → SM Y), ((if decide (sc_recordSize s = 0%nat) then mwrite (λ s0 : StreamConnection,
        with_send (sc_sendClosed s0) 0 (sc_sendRequestSize s0) (sc_sendRequests s0) s0) else mret tt) ≫= k)
        (with_send (sc_sendClosed s) (sc_recordSize s) (sc_sendRequestSize s) b s) =
      k tt (with_send (sc_sendClosed s) (sc_recordSize s) (sc_sendRequestSize s) b s)).
    { intros b' Y k. rewrite <- Es at 2. by destruct (decide (sc_recordSize s = 0%nat)). }
    rewrite Er. rewrite decide_False by tauto. clear Er Es.
    destruct Hcase as [(_ & -> & Hdelay)|(_ & -> & -> & Hz & Hr & Hcl)].
    + assert (Es : with_send (sc_sendClosed s) (sc_recordSize s) (sc_sendRequestSize s) (sc_sendRequests s) s = s) by by destruct s.
      rewrite Es. destruct (decide (0 < delay)) as [Hd|Hd].
      * destruct (start_nagle (i32 delay) s) as (t & trace & Et & Ht1 & Ht2 & Ec1 & Ec2); [apply (sg_timer _ _ _ _ Hs)|].
        rewrite Et. eexists _, lost. split; [reflexivity|]. split; [|by split].
        destruct Hs as [H1 H2 H3 H4 H5 H6 H7 H8 H9 H10 H11 H12 H13 H14]. unfold more in *.
        split; fields in *; fields; try done; [by rewrite Ec1|by right].
      * exists s, lost. split; [done|]. split; [|done].
        destruct Hs as [H1 H2 H3 H4 H5 H6 H7 H8 H9 H10 H11 H12 H13 H14]. unfold more in *.
        split; fields in *; try done. intros Hpos Hr. rewrite Hdelay in Hpos by (done || lia). lia.
    + rewrite decide_False by lia. eexists _, (ids_of (sc_sendRequests s) ++ lost). split; [reflexivity|]. split; [|by split].
      destruct Hs as [H1 H2 H3 H4 H5 H6 H7 H8 H9 (records & R1 & R2 & R3) H11 H12 H13 H14]. unfold more in *. fields in *.
      split; fields; try done.
      * exists records. split; [done|]. split; [done|]. rewrite <- R3. f_equal. symmetry. apply nil_length_inv.
        rewrite items_data_length; [congruence|]. eapply Forall_impl; [exact H8|apply ok_fits].
      * by right.
      * intros Hpos. lia.
Qed.

(** ** A request is posted *)

(** A request behind the others, while a record is sent or a timer runs. *)
Lemma sending_queued key acc lost (s : StreamConnection) item :
  sending key acc lost s → item_ok item → si_offset item = 0%nat → sc_sendClosed s = false →
  (sc_recordSize s ≠ 0%nat ∨ (0 < sc_sendRequestSize s)%nat ∨ timer_set (sc_nagleTimer s)) →
  sending key (acc ++ [(si_id item, si_buffer item)]) lost
    (with_send (sc_sendClosed s) (sc_recordSize s) (sc_sendRequestSize s + si_length item) (sc_sendRequests s ++ [item]) s).
Proof.
  intros Hs Hi Ho Hcl Haw. destruct Hs as [H1 H2 H3 H4 H5 H6 H7 H8 H9 (records & R1 & R2 & R3) H11 H12 H13 H14].
  split; fields; try done.
  - destruct H4 as [H4|(H4 & _)]; [by left|congruence].
  - apply Forall_app. split; [done|by constructor].
  - rewrite items_size_app, <- H9. cbn. unfold item_size. rewrite Ho. lia.
  - exists records. split; [done|]. split; [done|]. rewrite items_data_app, app_assoc, R3, fmap_app, concat_app. f_equal.
    cbn. rewrite !app_nil_r. unfold item_data, item_size. destruct Hi as [Hl _ _]. rewrite Ho, Hl, Nat.sub_0_r, drop_0.
    apply firstn_all.
  - unfold ids_of in *. rewrite !fmap_app, <- H11. cbn. rewrite <- !app_assoc. do 3 f_equiv. apply Permutation_app_comm.
  - intros _ Hr. destruct Haw as [Hx|[Hx|Hx]]; [done|by apply H14|by right].
Qed.

(** The requests and the first [k] bytes of [buffer] are copied and boxed. *)
Lemma send_copied key (s : StreamConnection) l id buffer k now :
  stream_config_ok (sc_config s) →
  ti_isCrypto (sc_tcpInterface s) = true → ti_state (sc_tcpInterface s) = BDT_TCP_INTERFACE_STATE_STREAM →
  ti_aesKey (sc_tcpInterface s) = key → length (sc_recordBuffer s) = recordBufferLength (sc_config s) →
  Forall item_fits l → (0 < k ≤ length buffer)%nat → (items_size l + k ≤ maxRecordSize (sc_config s))%nat →
  ∃ s', (∀ Y (rest : SM Y),
    (recordSize ← copy_items l 0;
     massert (bool_decide (recordSize < items_size l + k)%nat) ;;
     _ ← copy_items [mkSendItem id buffer (items_size l + k - recordSize) false 0 now] recordSize;
     box_record (items_size l + k) ;; rest) s = rest s') ∧
    record_made key (items_data l ++ take k buffer) s s'.
Proof.
  intros Hcf Hc Hst Hk Hb Hl Hkb Hm. pose proof Hb as Hb2.
  unfold recordBufferLength, STREAM_CONNECTION_ENCRYPT_MAX_HEADER_SIZE, STREAM_CONNECTION_ENCRYPT_MAX_PADDING_SIZE in Hb2.
  set (d := items_data l ++ take k buffer).
  assert (Hld : length (items_data l) = items_size l) by by apply items_data_length.
  assert (Hlk : length (take k buffer) = k) by (rewrite length_take; lia).
  assert (Hd : length d = (items_size l + k)%nat) by (unfold d; rewrite length_app; lia).
  destruct (box_copied key d s) as (s' & Eb & Hmade); [done|done|done|done|done|lia|]. exists s'. split; [|done].
  intros Y rest. rewrite (M_bind_Some _ _ _ _ _ (copy_items_runs l 0 s Hl ltac:(lia))). rewrite Nat.add_0_l.
  rewrite sassert_bind by (apply bool_decide_eq_true_2; lia).
  replace (items_size l + k - items_size l)%nat with k by lia. set (part := mkSendItem id buffer k false 0 now).
  assert (Hp : Forall item_fits [part]) by (constructor; [unfold item_fits; cbn; lia|constructor]).
  assert (Es : items_size [part] = k) by (cbn; unfold item_size; cbn; lia).
  set (s1 := with_record _ _ _ s).
  assert (Hl1 : length (sc_recordBuffer s1) = length (sc_recordBuffer s)) by (unfold s1; fields; rewrite put_at_length; lia).
  rewrite (M_bind_Some _ _ _ _ _ (copy_items_runs [part] (items_size l) s1 Hp ltac:(rewrite Es, Hl1; lia))).
  assert (Ep : items_data [part] = take k buffer).
  { cbn. rewrite app_nil_r. unfold item_data, item_size. cbn. by rewrite Nat.sub_0_r, drop_0. }
  rewrite Ep. unfold s1. fields. rewrite Nat.add_0_r, <- Hld, put_at_app by lia. fold d. rewrite Hld.
  set (s2 := with_record _ _ _ _). assert (E2 : s2 = with_record (put_at 32 d (sc_recordBuffer s)) (sc_recordOffset s) (sc_pendingRecordSize s) s)
    by by destruct s. rewrite <- Hd, E2. by rewrite (M_bind_Some _ _ _ _ _ Eb).
Qed.

(** What [Send] leaves when it is accepted, by [post_request]'s branches. *)
Lemma post_queues key acc lost (s : StreamConnection) item :
  sending key acc lost s → stream_config_ok (sc_config s) → item_ok item → si_offset item = 0%nat → sc_sendClosed s = false →
  (sc_recordSize s = 0%nat → (sc_sendRequestSize s + si_length item < minRecordSize (sc_config s) ∨
                              minRecordSize (sc_config s) ≤ sc_sendRequestSize s)%nat) →
  ∃ nagle, post_request item s = Some ((true, nagle, 0%nat, []),
    with_send (sc_sendClosed s) (sc_recordSize s) (sc_sendRequestSize s + si_length item) (sc_sendRequests s ++ [item]) s) ∧
    (nagle = false → sc_recordSize s ≠ 0%nat ∨ (0 < sc_sendRequestSize s)%nat).
Proof.
  intros Hs [Hmin Hmax _] Hi Ho Hcl Hq. unfold post_request, set_requests, set_recordSize. rewrite !sget_bind.
  case_decide as Hr; [by exists false; split; [|left]|]. assert (Hr0 : sc_recordSize s = 0%nat) by lia.
  case_decide as Hsm.
  - rewrite decide_False by (specialize (Hq Hr0); lia). by exists true.
  - exists false. split; [done|]. right. lia.
Qed.

Lemma post_records (s : StreamConnection) item :
  si_offset item = 0%nat → sc_recordSize s = 0%nat → (sc_sendRequestSize s < minRecordSize (sc_config s))%nat →
  stream_config_ok (sc_config s) →
  (minRecordSize (sc_config s) ≤ sc_sendRequestSize s + si_length item)%nat →
  ∃ k rest, post_request item s = Some ((bool_decide (rest ≠ []), false, (sc_sendRequestSize s + k)%nat, sc_sendRequests s),
      with_send (sc_sendClosed s) (sc_sendRequestSize s + k) (items_size rest) rest s) ∧
    (0 < k ≤ si_length item)%nat ∧ (sc_sendRequestSize s + k ≤ maxRecordSize (sc_config s))%nat ∧
    (rest = [] ∧ k = si_length item ∨
     rest = [mkSendItem (si_id item) (si_buffer item) (si_length item) (si_callback item) k (si_postTime item)]).
Proof.
  intros Ho Hr Hsm [Hmin Hmax _] Hge. unfold post_request, set_requests, set_recordSize. rewrite !sget_bind.
  rewrite decide_False by (rewrite Hr; tauto). rewrite decide_True by done. rewrite decide_True by done.
  case_decide as Hm.
  - exists (si_length item), []. split; [done|]. split; [lia|]. split; [lia|]. by left.
  - rewrite Ho, Nat.add_0_l. set (k := (maxRecordSize (sc_config s) - sc_sendRequestSize s)%nat).
    exists k. set (rest := [mkSendItem _ _ _ _ _ _]). exists rest.
    assert (Ek : (sc_sendRequestSize s + k)%nat = maxRecordSize (sc_config s)) by (unfold k; lia).
    split; [|split; [unfold k; lia|]; split; [lia|by right]].
    rewrite !swrite_bind. unfold mret, M_ret. fields. rewrite Ek. do 2 f_equal. unfold rest, items_size. cbn. by rewrite Nat.add_0_r.
Qed.

Lemma drop_acc {X} (acc : list X) x : drop (length acc) (acc ++ [x]) = [x].
Proof. apply drop_app_length. Qed.

Lemma Send_sends key acc lost now later id buffer (s : StreamConnection) :
  sending key acc lost s → stream_config_ok (sc_config s) →
  ∃ r s' acc', StreamConnectionSend now later id buffer true s = Some (r, s') ∧ recv_same s s' ∧ sending key acc' lost s' ∧
    acc' = (if decide (r = BFX_RESULT_INVALID_STATE) then acc else acc ++ [(id, buffer)]).
Proof.
  intros Hs Hcf. unfold StreamConnectionSend, sact. rewrite swrite_bind, sget_bind. set (s0 := with_trace _ s).
  assert (H0 : sending key acc lost s0) by by destruct Hs. assert (Hsame : recv_same s s0) by by split.
  change (sc_sendClosed s0) with (sc_sendClosed s). destruct (sc_sendClosed s) eqn:Hcl.
  { exists BFX_RESULT_INVALID_STATE, s0, acc. split; [done|]. split; [done|]. split; [done|]. by rewrite decide_True. }
  set (item := mkSendItem id buffer (length buffer) true 0 now). assert (Hi : item_ok item) by by split; cbn; [|lia|].
  destruct (decide (sc_recordSize s0 = 0 ∧ sc_sendRequestSize s0 < minRecordSize (sc_config s0) ∧
    minRecordSize (sc_config s0) ≤ sc_sendRequestSize s0 + length buffer)%nat) as [(Hr & Hsm & Hge)|Hq].
  - destruct (post_records s0 item eq_refl Hr Hsm Hcf Hge) as (k & rest & Ep & Hk & Hm & Hrest).
    rewrite (M_bind_Some _ _ _ _ _ Ep). cbn beta iota. rewrite decide_True by lia.
    assert (Hst : ti_state (sc_tcpInterface s0) = BDT_TCP_INTERFACE_STATE_STREAM).
    { destruct (sg_state _ _ _ _ H0) as [?|(Hx & _)]; [done|]. change (sc_sendClosed s0) with (sc_sendClosed s) in Hx. congruence. }
    pose proof (sg_size _ _ _ _ H0) as Hz. set (s1 := with_send _ _ _ rest s0). cbn [si_length item] in Hk, Hrest.
    destruct (send_copied key s1 (sc_sendRequests s0) id buffer k now) as (s' & Erun & Hmade);
      [done|apply (sg_crypto _ _ _ _ H0)|done|apply (sg_key _ _ _ _ H0)|apply (sg_buffer _ _ _ _ H0)|
       eapply Forall_impl; [apply (sg_items _ _ _ _ H0)|apply ok_fits]|lia|change (sc_config s1) with (sc_config s0); lia|].
    rewrite <- Hz in Erun.
    assert (Ecb : forallb si_callback (sc_sendRequests s0) && (bool_decide (rest ≠ []) || true) = true).
    { rewrite orb_true_r, andb_true_r. apply forallb_forall. intros x Hx. apply list_elem_of_In in Hx.
      pose proof (sg_items _ _ _ _ H0) as Hit. rewrite Forall_forall in Hit. by apply Hit. }
    unfold mbind at 1, M_bind at 1. setoid_rewrite Erun. rewrite sassert_bind by exact Ecb. unfold defer, mwrite at 1.
    rewrite sget_bind. cbn beta iota.
    eexists _, _, (acc ++ [(id, buffer)]). split; [reflexivity|].
    assert (Hid : ids_of (sc_sendRequests s0) = waiting (callbacks_of (sc_sendRequests s0))).
    { rewrite waiting_callbacks, filter_all; [done|]. intros x Hx. pose proof (sg_items _ _ _ _ H0) as Hit.
      rewrite Forall_forall in Hit. by apply Hit. }
    assert (Hd : length (items_data (sc_sendRequests s0) ++ take k buffer) = (sc_sendRequestSize s0 + k)%nat).
    { rewrite length_app, length_take, items_data_length, Hz; [lia|].
      eapply Forall_impl; [apply (sg_items _ _ _ _ H0)|apply ok_fits]. }
    split; [|split].
    + etrans; [exact Hsame|]. destruct Hmade as (rb & -> & _). split; fields; try done; apply send_tasks_same; rewrite !Forall_app; (split_and!; [apply send_tasks_callbacks| |by constructor]);
        destruct (bool_decide (rest ≠ [])); [constructor|apply send_tasks_callbacks|constructor|apply send_tasks_callbacks].
    + set (tasks := callbacks_of _ ++ _).
      apply (sending_made key acc (acc ++ [(id, buffer)]) lost lost s0 s1 s' (items_data (sc_sendRequests s0) ++ take k buffer) rest);
        try done.
      * by apply sending_more.
      * unfold s1. by rewrite Hd.
      * intros E%(f_equal length). rewrite Hd in E. cbn in E. lia.
      * by rewrite Hd.
      * destruct Hrest as [[-> _]| ->]; [constructor|]. constructor; [|constructor]. split; cbn; [done|lia|done].
      * rewrite drop_acc. cbn. rewrite app_nil_r, <- app_assoc. f_equal.
        destruct Hrest as [[-> ->]| ->]; cbn; rewrite ?app_nil_r; [by rewrite firstn_all|].
        unfold item_data, item_size. cbn. rewrite (take_ge (drop k buffer)) by (rewrite length_drop; lia). by rewrite take_drop.
      * by rewrite drop_acc.
      * apply (sg_lost _ _ _ _ H0).
      * rewrite drop_acc. cbn [fmap list_fmap fst]. unfold tasks. rewrite !waiting_app, <- Hid, <- !app_assoc. f_equiv.
        destruct Hrest as [[-> _]| ->].
        -- rewrite bool_decide_eq_false_2 by tauto. cbn. apply Permutation_app_comm.
        -- rewrite bool_decide_eq_true_2 by done. cbn. apply Permutation_app_comm.
    + rewrite decide_False; [done|]. by destruct (bool_decide (rest ≠ [])).
  - assert (Hq' : sc_recordSize s0 = 0%nat → (sc_sendRequestSize s0 + si_length item < minRecordSize (sc_config s0) ∨
      minRecordSize (sc_config s0) ≤ sc_sendRequestSize s0)%nat) by (cbn [si_length item]; intros; lia).
    destruct (post_queues key acc lost s0 item H0 Hcf Hi eq_refl Hcl Hq') as (nagle & Ep & Hn).
    rewrite (M_bind_Some _ _ _ _ _ Ep). cbn beta iota. rewrite decide_False by tauto.
    unfold mbind at 1, M_bind at 1, mret at 1, M_ret at 1. rewrite sget_bind. set (s1 := with_send _ _ _ _ s0).
    assert (Hs1 : recv_same s s1) by by split.
    destruct nagle.
    + set (d := if decide (_ < 0) then _ else _). destruct (start_nagle d s1) as (t & trace & Et & Ht1 & Ht2 & Ec1 & Ec2);
        [apply (sg_timer _ _ _ _ H0)|].
      cbv zeta. fold d. rewrite (M_bind_Some _ _ _ _ _ Et). eexists _, _, _. split; [reflexivity|].
      split; [etrans; [exact Hs1|]; by split|].
      set (s2 := with_nagle t s0). assert (H2 : sending key acc lost s2).
      { destruct H0 as [? ? ? ? ? ? ? ? ? ? ? ? ? ?]. split; unfold s2; fields; try done. intros _ _. by right. }
      split; [|done]. pose proof (sending_queued key acc lost s2 item H2 Hi eq_refl Hcl ltac:(right; right; exact Ht2)) as H3.
      destruct H3. unfold s2 in *. fields in *. split; unfold s1; fields; try done. change (sc_trace s1) with (sc_trace s0) in Ec1. by rewrite Ec1.
    + unfold mbind at 1, M_bind at 1, mret at 1, M_ret at 1. eexists _, s1, _. split; [reflexivity|]. split; [done|].
      split; [|done]. apply (sending_queued key acc lost s0 item H0 Hi eq_refl Hcl). destruct (Hn eq_refl); auto.
Qed.

(** ** The other operations that send *)

Lemma NagleTimer_sends key acc lost now (s : StreamConnection) :
  sending key acc lost s → stream_config_ok (sc_config s) →
  ∃ s' lost', StreamConnectionOnNagleTimer now s = Some (tt, s') ∧ sending key acc lost' s' ∧ recv_same s s'.
Proof.
  intros Hs Hcf. unfold StreamConnectionOnNagleTimer.
  destruct (stop_runs sc_nagleTimer with_nagle ltac:(done) s) as (t & trace & Et & Ht & Ec1 & Ec2).
  rewrite (M_bind_Some _ _ _ _ _ Et). set (s1 := with_trace _ _).
  destruct (CheckPendingSend_sends key acc lost now s1) as (s' & lost' & E & H1 & H2); [|done|].
  - destruct Hs as [? ? ? ? ? ? ? ? ? ? ? ? ? ?]. split; unfold more, s1; fields; try done; [by rewrite Ec1|intros _ _; left; lia].
  - exists s', lost'. split; [done|]. split; [done|]. etrans; [|exact H2]. by split.
Qed.
End record.
