(* ===== verification/StreamRecv.v ===== *)
(** * Stream connections: what is received

    The data of the interface fills the requests to receive in the order in
    which they were posted, and waits for them when there are none; every
    request is called back once, in order, with the next bytes of the stream. *)

From S2P Require Import Prelude CInt Package BufferStream Codec SessionCodec Endpoint PackageFields PackageCodec HandCodec MergedPackages AesPadding Crypto UdpBox TcpInterface TcpUnbox TcpPush TcpBox TcpProofs TcpTheorems TcpLifecycle StreamConnection StreamSend.

Section receive.
Context {P : PeerInfoOps} {A : AesOps} {AL : AesLaws A}.
Context (socket_result : nat → Z) (socket_sent : nat → nat) (before : list Z).

Notation SM := (M StreamConnection).
Notation sending := (sending socket_sent before).

(** ** The sending side is left alone *)

Record send_same (s s' : StreamConnection) : Prop := {
  ss_config : sc_config s' = sc_config s;
  ss_tcp : sc_tcpInterface s' = sc_tcpInterface s;
  ss_calls : sc_sendingCallCount s' = sc_sendingCallCount s;
  ss_buffer : sc_recordBuffer s' = sc_recordBuffer s;
  ss_offset : sc_recordOffset s' = sc_recordOffset s;
  ss_pending : sc_pendingRecordSize s' = sc_pendingRecordSize s;
  ss_nagle : sc_nagleTimer s' = sc_nagleTimer s;
  ss_closed : sc_sendClosed s' = sc_sendClosed s;
  ss_record : sc_recordSize s' = sc_recordSize s;
  ss_size : sc_sendRequestSize s' = sc_sendRequestSize s;
  ss_requests : sc_sendRequests s' = sc_sendRequests s;
  ss_immediates : sc_immediates s' = sc_immediates s;
  ss_waiting : waiting (sc_tasks s') = waiting (sc_tasks s);
  ss_called : called (sc_trace s') = called (sc_trace s) }.

Lemma sending_same key acc lost s s' : send_same s s' → sending key acc lost s → sending key acc lost s'.
Proof.
  intros [E1 E2 E3 E4 E5 E6 E7 E8 E9 E10 E11 E12 E13 E14] []. unfold pending_bytes in *.
  split; unfold pending_bytes; rewrite ?E1, ?E2, ?E3, ?E4, ?E5, ?E6, ?E7, ?E8, ?E9, ?E10, ?E11, ?E12, ?E13, ?E14; done.
Qed.

(** Reading from the socket is paused or resumed. *)
Lemma flow_sends {X} key acc lost (c : M Bdt_TcpInterface X) (s : StreamConnection) a :
  sending key acc lost s → plain a = true → on_the_socket a = true → (∀ d, a ≠ SocketSend d) →
  (∃ f : Z * unit → X, ∀ t, c t = match on_socket socket_result tt (λ _, tt) a t with Some (r, t') => Some (f r, t') | None => None end) →
  ∃ r s', tcp c s = Some (r, s') ∧ sending key acc lost s' ∧ recv_same s s' ∧ sc_tasks s' = sc_tasks s.
Proof.
  intros Hs Ha1 Ha2 Hsend (f & Hc). unfold tcp. rewrite Hc.
  destruct (decide (ti_state (sc_tcpInterface s) = BDT_TCP_INTERFACE_STATE_CLOSED)) as [E|E].
  { rewrite on_socket_closed by done. eexists _, s. split; [f_equal; f_equal; by destruct s|]. done. }
  rewrite (on_socket_runs socket_result []) by (done || apply (sg_alive _ _ _ _ _ _ Hs)). eexists _, _. split; [reflexivity|].
  split; [|split; [by split|done]].
  destruct Hs as [H1 H2 H3 H4 H5 H6 H7 H8 H9 (records & R1 & R2 & R3) H11 H12 H13 H14]. split; fields; try done.
  - apply alive_act; [done|done|]. intros _. by apply (alive_open []).
  - exists records. split; [done|]. split; [|done]. rewrite <- R2. unfold pending_bytes. fields. f_equal.
    cbn [ti_trace set_trace sent_on]. destruct a; try (by rewrite app_nil_r). by destruct (Hsend data).
Qed.

Lemma resume_runs key acc lost (s : StreamConnection) :
  sending key acc lost s →
  ∃ s', (∀ Y (k : unit → SM Y), ((_ ← tcp (Bdt_TcpInterfaceResume socket_result); mret tt) ≫= k) s = k tt s') ∧
    sending key acc lost s' ∧ recv_same s s'.
Proof.
  intros Hs. destruct (flow_sends key acc lost (Bdt_TcpInterfaceResume socket_result) s SocketResume Hs) as (r & s' & Er & F1 & F2 & _); [done..| |].
  - exists fst. intros t. unfold Bdt_TcpInterfaceResume, mbind, M_bind. by destruct (on_socket _ _ _ _ t) as [[[? []] ?]|].
  - exists s'. split; [|done]. intros Y k. unfold mbind at 1, M_bind at 1. by rewrite (M_bind_Some _ _ _ _ _ Er).
Qed.

Lemma pause_runs key acc lost (s : StreamConnection) :
  sending key acc lost s →
  ∃ r s', tcp (Bdt_TcpInterfacePause socket_result) s = Some (r, s') ∧ sending key acc lost s' ∧ recv_same s s' ∧ sc_tasks s' = sc_tasks s.
Proof.
  intros Hs. apply (flow_sends key acc lost (Bdt_TcpInterfacePause socket_result) s SocketPause Hs); [done..|].
  exists fst. intros t. unfold Bdt_TcpInterfacePause, mbind, M_bind. by destruct (on_socket _ _ _ _ t) as [[[? []] ?]|].
Qed.

(** ** The invariant *)

Definition taken (l : list StreamConnectionRecvRequest) : list (nat * list Z) := (λ req, (rr_id req, rr_data req)) <$> l.
Definition buffered (l : list StreamConnectionRecvBuffer) : list Z := concat ((λ b, drop (rb_pos b) (rb_data b)) <$> l).

(** Every request that was posted: those that were called back, those that are
    about to be, those that are complete and those that wait. *)
Definition posted (calling : list StreamConnectionRecvRequest) (s : StreamConnection) : list (nat * list Z) :=
  reverse (recv_called (sc_trace s)) ++ taken calling ++ taken (sc_completeRecvRequests s ++ sc_recvRequestQueue s).

(** The queue of requests: only the first may have bytes, none has all. *)
Definition queue_ok (l : list StreamConnectionRecvRequest) : Prop :=
  Forall (λ req, (length (rr_data req) < rr_size req)%nat) l ∧ Forall (λ req, rr_data req = []) (tail l).
Definition filled (req : StreamConnectionRecvRequest) : Prop := (length (rr_data req) ≤ rr_size req)%nat.

(** [ended]: the end of the stream arrived. *)
Record receiving_with (ended : bool) (arrived : list Z) (asked : list nat) (calling : list StreamConnectionRecvRequest)
    (s : StreamConnection) : Prop := {
  rw_ids : (posted calling s).*1 = asked;
  rw_data : concat (posted calling s).*2 ++ buffered (sc_recvBuffersQueue s) = arrived;
  rw_queue : queue_ok (sc_recvRequestQueue s);
  rw_calling : Forall filled calling;
  rw_complete : Forall filled (sc_completeRecvRequests s);
  rw_exclusive : sc_recvRequestQueue s = [] ∨ sc_recvBuffersQueue s = [];
  rw_ended : sc_recvClosed s = ended;
  rw_none : ended = true → sc_recvRequestQueue s = [];
  rw_buffers : Forall (λ b, (rb_pos b < length (rb_data b))%nat) (sc_recvBuffersQueue s);
  rw_timer : timer_ok (sc_dataNotifyTimer s);
  rw_bytes : ended = false → Forall (λ p, p.2 ≠ []) (reverse (recv_called (sc_trace s)) ++ taken (calling ++ sc_completeRecvRequests s)) }.

(** The first request has bytes, but not all. *)
Definition recv_waits (s : StreamConnection) : Prop := ∃ req l, sc_recvRequestQueue s = req :: l ∧ rr_data req ≠ [].
(** Something will call it back. *)
Definition recv_awake (s : StreamConnection) : Prop :=
  timer_set (sc_dataNotifyTimer s) ∨ restarts (sc_tasks s) = true ∨ sc_isCompleteRecvNotifyOnly s = false.

(** While requests are called back there is one loop that does it. *)
Definition notifies (ended : bool) (arrived : list Z) (asked : list nat) (s : StreamConnection) : Prop :=
  ∃ calling, receiving_with ended arrived asked calling s ∧
    recv_tasks (sc_tasks s) = (RecvDone <$> calling) ++ (if sc_isRecvNotifying s then [NotifyAgain] else []) ∧
    (sc_isRecvNotifying s = false → calling = [] ∧ sc_isCompleteRecvNotifyOnly s = true).

Record receiving (ended : bool) (arrived : list Z) (asked : list nat) (s : StreamConnection) : Prop := {
  rc_notifies : notifies ended arrived asked s;
  rc_idle : sc_isRecvNotifying s = false → sc_completeRecvRequests s = [];
  rc_awake : recv_waits s → recv_awake s }.

Lemma receiving_with_same ended arrived asked calling s s' :
  recv_same s s' → receiving_with ended arrived asked calling s → receiving_with ended arrived asked calling s'.
Proof.
  intros [E1 E2 E3 E4 E5 E6 E7 E8 E9 E10 E11] []. unfold posted in *.
  split; unfold posted; rewrite ?E4, ?E5, ?E6, ?E7, ?E8, ?E11; done.
Qed.

Lemma receiving_same ended arrived asked s s' : recv_same s s' → receiving ended arrived asked s → receiving ended arrived asked s'.
Proof.
  intros Hsame [(calling & Hw & Ht & Hn) Hi Ha]. pose proof (receiving_with_same _ _ _ _ _ _ Hsame Hw) as Hw'.
  destruct Hsame as [E1 E2 E3 E4 E5 E6 E7 E8 E9 E10 E11].
  split; unfold recv_waits, recv_awake in *; rewrite ?E2, ?E3, ?E6, ?E7, ?E8, ?E10; try done.
  exists calling. split; [done|]. by rewrite E9, E2, E3.
Qed.

Lemma taken_app l1 l2 : taken (l1 ++ l2) = taken l1 ++ taken l2.
Proof. apply fmap_app. Qed.
Lemma buffered_app l1 l2 : buffered (l1 ++ l2) = buffered l1 ++ buffered l2.
Proof. unfold buffered. by rewrite fmap_app, concat_app. Qed.

(** Requests move between the queues, and data from the buffers to them. *)
Lemma receiving_moved ended arrived arrived' asked asked' calling calling' (s s' : StreamConnection) more :
  receiving_with ended arrived asked calling s →
  recv_called (sc_trace s') = recv_called (sc_trace s) →
  (taken (calling' ++ sc_completeRecvRequests s' ++ sc_recvRequestQueue s')).*1 =
    (taken (calling ++ sc_completeRecvRequests s ++ sc_recvRequestQueue s)).*1 ++ more →
  asked' = asked ++ more →
  (∀ given, given ++ concat (taken (calling ++ sc_completeRecvRequests s ++ sc_recvRequestQueue s)).*2 ++
      buffered (sc_recvBuffersQueue s) = arrived →
    given ++ concat (taken (calling' ++ sc_completeRecvRequests s' ++ sc_recvRequestQueue s')).*2 ++
      buffered (sc_recvBuffersQueue s') = arrived') →
  (posted calling' s').*1 = asked' ∧ concat (posted calling' s').*2 ++ buffered (sc_recvBuffersQueue s') = arrived'.
Proof.
  intros [H1 H2 _ _ _ _ _ _ _ _ _] Ec Ei -> Ed. unfold posted in *. rewrite <- !taken_app in *.
  rewrite fmap_app, concat_app, <- app_assoc in H2. rewrite Ec. split.
  - rewrite fmap_app in *. by rewrite Ei, app_assoc, H1.
  - rewrite fmap_app, concat_app, <- app_assoc. by apply Ed.
Qed.

(** ** Calling back *)

Lemma recv_tasks_done l : recv_tasks ((RecvDone <$> l) ++ [NotifyAgain]) = (RecvDone <$> l) ++ [NotifyAgain].
Proof. unfold recv_tasks. apply filter_all. intros t. rewrite elem_of_app, list_elem_of_fmap, list_elem_of_singleton. by intros [(r & -> & _)| ->]. Qed.
Lemma waiting_done l : waiting ((RecvDone <$> l) ++ [NotifyAgain]) = [].
Proof. rewrite waiting_app, app_nil_r. by induction l. Qed.

Lemma queue_ok_drop n l : queue_ok l → queue_ok (drop n l).
Proof.
  intros [Q1 Q2]. split; [by apply Forall_drop|]. destruct n as [|n]; [by rewrite drop_0|]. destruct l as [|x l]; [done|].
  cbn [drop tail] in *. apply (Forall_drop _ n) in Q2. by destruct (drop n l); [|apply Forall_cons in Q2 as [_ ?]].
Qed.

Lemma queue_ok_tail x l : queue_ok (x :: l) → Forall (λ req, rr_data req = []) l ∧ queue_ok l.
Proof. intros Q. split; [apply Q|]. exact (queue_ok_drop 1 _ Q). Qed.

(** The requests the loop takes from the queue. *)
Definition first_of (onlyComplete : bool) (requests : list StreamConnectionRecvRequest) : list StreamConnectionRecvRequest :=
  match requests with
  | req :: _ => if negb onlyComplete && bool_decide (0 < length (rr_data req))%nat then [req] else []
  | [] => []
  end.

Lemma first_of_spec only requests :
  queue_ok requests →
  let first := first_of only requests in
  first ++ drop (length first) requests = requests ∧ Forall filled first ∧ queue_ok (drop (length first) requests) ∧
  (only = false → Forall (λ req, rr_data req = []) (drop (length first) requests)) ∧
  (only = true → drop (length first) requests = requests) ∧ Forall (λ req, rr_data req ≠ []) first.
Proof.
  intros Q first. split_and!.
  - unfold first, first_of. destruct requests as [|r l]; [done|]. by destruct (negb _ && _).
  - unfold first, first_of. destruct requests as [|r l]; [constructor|]. destruct (negb _ && _); [|constructor].
    destruct Q as [Q _]. apply Forall_cons in Q as [Hr _]. constructor; [|constructor]. unfold filled. lia.
  - by apply queue_ok_drop.
  - intros ->. unfold first, first_of. destruct requests as [|r l]; [constructor|].
    apply queue_ok_tail in Q as [Q _]. destruct (negb _ && _) eqn:E; cbn [length drop]; [done|].
    constructor; [|done]. cbn in E. apply bool_decide_eq_false_1 in E. apply nil_length_inv. lia.
  - intros ->. unfold first, first_of. by destruct requests.
  - unfold first, first_of. destruct requests as [|r l]; [constructor|]. destruct (negb _ && _) eqn:E; [|constructor].
    apply andb_true_iff in E as [_ E%bool_decide_eq_true_1]. constructor; [|constructor]. intros En. rewrite En in E. cbn in E. lia.
Qed.

Lemma taken_bytes l : Forall (λ req, rr_data req ≠ []) l → Forall (λ p, p.2 ≠ []) (taken l).
Proof. intros H. unfold taken. by apply Forall_fmap. Qed.

(** A round of the loop, when nothing is being called back. *)
Lemma notify_round_runs ended arrived asked (s : StreamConnection) :
  receiving_with ended arrived asked [] s → recv_tasks (sc_tasks s) = [] → (recv_waits s → recv_awake s) →
  ∃ s', notify_round s = Some (tt, s') ∧ receiving ended arrived asked s' ∧ send_same s s'.
Proof.
  intros Hw Ht Ha. unfold notify_round. rewrite !sget_bind. fold (first_of (sc_isCompleteRecvNotifyOnly s) (sc_recvRequestQueue s)).
  destruct (first_of_spec (sc_isCompleteRecvNotifyOnly s) _ (rw_queue _ _ _ _ _ Hw)) as (F1 & F2 & F3 & F4 & F5 & F6).
  set (first := first_of _ _) in *. set (rest := drop _ _) in *. rewrite swrite_bind. set (s1 := with_recv _ _ _ _ s).
  assert (Hcore : ∀ s', sc_trace s' = sc_trace s → sc_completeRecvRequests s' = [] → sc_recvRequestQueue s' = rest →
    sc_recvBuffersQueue s' = sc_recvBuffersQueue s → sc_recvClosed s' = sc_recvClosed s →
    sc_dataNotifyTimer s' = sc_dataNotifyTimer s →
    receiving_with ended arrived asked (sc_completeRecvRequests s ++ first) s').
  { intros s' E1 E2 E3 E4 E5 E6.
    destruct (receiving_moved ended arrived arrived asked asked [] (sc_completeRecvRequests s ++ first) s s' [] Hw) as [M1 M2].
    - by rewrite E1.
    - rewrite E2, E3, app_nil_r, <- app_assoc. cbn [app]. by rewrite F1.
    - by rewrite app_nil_r.
    - intros given. rewrite E2, E3, E4. cbn [app]. by rewrite <- app_assoc, F1.
    - rewrite E4 in M2. destruct Hw as [H1 H2 H3 H4 H5 H6 H7 H8 H9 H10 H11]. split; rewrite ?E2, ?E3, ?E4, ?E5, ?E6; try done.
      + by apply Forall_app.
      + destruct H6 as [H6|H6]; [left|by right]. unfold rest. by rewrite H6, drop_nil.
      + intros He. unfold rest. by rewrite (H8 He), drop_nil.
      + intros He. rewrite E1, app_nil_r, taken_app, app_assoc. apply Forall_app. split; [by apply H11|by apply taken_bytes]. }
  assert (Hawake : ∀ s', sc_recvRequestQueue s' = rest → sc_dataNotifyTimer s' = sc_dataNotifyTimer s →
    (restarts (sc_tasks s) = true → restarts (sc_tasks s') = true) → recv_waits s' → recv_awake s').
  { intros s' E1 E2 E3 (req & l & E & Hd). rewrite E1 in E. unfold recv_awake. rewrite E2.
    destruct (sc_isCompleteRecvNotifyOnly s) eqn:Eo.
    - destruct Ha as [Ha|[Ha|Ha]]; [|by left|right; left; by apply E3|congruence]. exists req, l. by rewrite <- (F5 eq_refl).
    - specialize (F4 eq_refl). rewrite E in F4. by apply Forall_cons in F4 as [? _]. }
  destruct (sc_completeRecvRequests s ++ first) as [|r l] eqn:El.
  - eexists. split; [reflexivity|]. split; [|by split]. split; [|done|by apply Hawake].
    exists []. split; [by apply Hcore|]. split; [exact Ht|done].
  - rewrite swrite_bind. eexists. split; [reflexivity|]. unfold defer, mwrite, s1. split; [split|].
    + exists (r :: l). split; [by apply Hcore|]. fields. split; [|done]. by rewrite recv_tasks_app, Ht, app_nil_r, recv_tasks_done.
    + done.
    + apply Hawake; fields; [done|done|]. intros E. by rewrite restarts_app, E, orb_true_r.
    + split; fields; try done. by rewrite waiting_app, waiting_done.
Qed.

Lemma Notify_runs ended arrived asked onlyComplete (s : StreamConnection) :
  notifies ended arrived asked s → (onlyComplete = true → recv_waits s → recv_awake s) →
  ∃ s', StreamConnectionNotifyCompleteRecvRequest onlyComplete s = Some (tt, s') ∧ receiving ended arrived asked s' ∧ send_same s s'.
Proof.
  intros (calling & Hw & Ht & Hn) Ha. unfold StreamConnectionNotifyCompleteRecvRequest. rewrite !sget_bind, swrite_bind.
  set (only := if onlyComplete then _ else _). set (s1 := with_notify _ _ s).
  assert (Ha1 : recv_waits s1 → recv_awake s1).
  { intros Hx. unfold recv_awake, s1, only. fields. destruct onlyComplete; [|by right; right].
    destruct (Ha eq_refl Hx) as [?|[?|?]]; auto. }
  destruct (sc_isRecvNotifying s) eqn:En.
  - exists s1. split; [done|]. split; [|by split]. split; [|done|done]. exists calling. split; [by destruct Hw|done].
  - destruct (Hn eq_refl) as [-> _].
    destruct (notify_round_runs ended arrived asked s1) as (s' & E & H1 & H2); [by destruct Hw|done|done|].
    exists s'. split; [done|]. split; [done|]. destruct H2. by split.
Qed.

(** ** A request is posted *)

Lemma take_buffers_spec now timeout len w first left l :
  Forall (λ b, (rb_pos b < length (rb_data b))%nat) l → (w ≤ len)%nat →
  ∃ data rest f t, take_buffers now timeout len w first left l = (data, rest, f, t) ∧
    data ++ buffered rest = buffered l ∧ (w + length data ≤ len)%nat ∧
    Forall (λ b, (rb_pos b < length (rb_data b))%nat) rest ∧ ((w + length data < len)%nat → rest = []) ∧
    (l = [] → data = []).
Proof.
  intros Hl. revert w first left. induction Hl as [|b l Hb Hl IH]; intros w first left Hw; cbn [take_buffers].
  { eexists [], [], _, _. split; [done|]. split_and!; try done. cbn. lia. }
  case_decide as Hwl; cycle 1.
  { eexists [], (b :: l), _, _. split; [done|]. split_and!; try done; [cbn; lia|by constructor|cbn; intros; lia]. }
  set (n := Nat.min _ _). set (times := if decide (first = 0) then _ else _). destruct times as [first' left'].
  assert (Hn : length (take n (drop (rb_pos b) (rb_data b))) = n) by (rewrite length_take, length_drop; lia).
  case_decide as Hp.
  - destruct (IH (w + n)%nat first' left' ltac:(lia)) as (data & rest & f & t & -> & E1 & E2 & E3 & E4 & E5).
    eexists _, rest, f, t. split; [done|]. rewrite length_app, Hn. split_and!; try done; [|lia|intros; apply E4; lia].
    rewrite <- app_assoc, E1. cbn. fold (buffered l). f_equal. apply take_ge. rewrite length_drop. lia.
  - eexists _, _, _, _. split; [done|]. rewrite Hn. split_and!; try done; [|lia|constructor; [cbn; lia|done]|intros; lia].
    cbn. fold (buffered l). rewrite app_assoc. f_equal. by rewrite <- drop_drop, take_drop.
Qed.

Lemma start_data d (s : StreamConnection) :
  timer_ok (sc_dataNotifyTimer s) →
  ∃ t trace, start_timer sc_dataNotifyTimer with_dataTimer d s = Some (tt, with_trace (trace ++ sc_trace s) (with_dataTimer t s)) ∧
    timer_ok t ∧ timer_set t ∧ called (trace ++ sc_trace s) = called (sc_trace s) ∧
    recv_called (trace ++ sc_trace s) = recv_called (sc_trace s).
Proof. by apply start_runs; [intros []|]. Qed.

Lemma Recv_runs key acc lost ended arrived asked now id len (s : StreamConnection) :
  sending key acc lost s → receiving ended arrived asked s → (0 < len)%nat →
  ∃ s', StreamConnectionRecv socket_result now id len s = Some (BFX_RESULT_SUCCESS, s') ∧ sending key acc lost s' ∧
    receiving ended arrived (asked ++ [id]) s' ∧ sc_config s' = sc_config s.
Proof.
  intros Hs [(calling & Hw & Ht & Hn) Hi Ha] Hlen. unfold StreamConnectionRecv, sact. rewrite sget_bind, swrite_bind, !sget_bind.
  set (s0 := with_trace _ s).
  assert (H0 : sending key acc lost s0) by by destruct Hs.
  change (sc_recvBuffersQueue s0) with (sc_recvBuffersQueue s). change (sc_recvClosed s0) with (sc_recvClosed s).
  change (sc_recvRequestQueue s0) with (sc_recvRequestQueue s). change (sc_completeRecvRequests s0) with (sc_completeRecvRequests s).
  destruct (take_buffers_spec now (recvTimeout (sc_config s)) len 0 0 0 _ (rw_buffers _ _ _ _ _ Hw) ltac:(lia))
    as (data & rest & f & left & -> & E1 & E2 & E3 & E4 & E5). rewrite Nat.add_0_l in *.
  set (req := mkRecvRequest id data len).
  assert (Hempty : data ≠ [] → sc_recvRequestQueue s = []).
  { intros Hd. destruct (rw_exclusive _ _ _ _ _ Hw) as [?|Hb]; [done|]. by destruct Hd; apply E5. }
  assert (Hmoved : ∀ s', recv_called (sc_trace s') = recv_called (sc_trace s) → sc_recvBuffersQueue s' = rest →
    sc_completeRecvRequests s' ++ sc_recvRequestQueue s' = (sc_completeRecvRequests s ++ sc_recvRequestQueue s) ++ [req] →
    (posted calling s').*1 = asked ++ [id] ∧ concat (posted calling s').*2 ++ buffered (sc_recvBuffersQueue s') = arrived).
  { intros s' Ec Eb Eq. apply (receiving_moved ended arrived arrived asked (asked ++ [id]) calling calling s s' [id] Hw); try done.
    - rewrite Eq, (app_assoc calling), taken_app, fmap_app. done.
    - intros given Hg. rewrite Eq, (app_assoc calling), taken_app, fmap_app, concat_app, Eb, <- Hg, <- E1. cbn.
      by rewrite app_nil_r, <- !app_assoc. }
  case_decide as Hd.
  - assert (Hq : sc_recvRequestQueue s = []).
    { destruct Hd as [Hd|[Hd|[Hd _]]]; [|apply (rw_none _ _ _ _ _ Hw); by rewrite <- (rw_ended _ _ _ _ _ Hw)|];
        apply Hempty; intros ->; cbn in Hd; lia. }
    rewrite sassert_bind; cycle 1.
    { apply orb_true_iff. destruct Hd as [Hd|[Hd|[Hd _]]]; [left|by right|left]; apply bool_decide_eq_true_2; lia. }
    rewrite swrite_bind. set (s1 := with_recv _ _ _ _ s0).
    destruct (Hmoved s1) as [M1 M2]; [done|done|unfold s1; fields; by rewrite Hq, !app_nil_r|].
    destruct (Notify_runs ended arrived (asked ++ [id]) true s1) as (s' & En & H1 & H2).
    + exists calling. split; [|by split]. destruct Hw as [W1 W2 W3 W4 W5 W6 W7 W8 W9 W10 W11]. split; try done.
      * unfold s1. fields. apply Forall_app. split; [done|]. constructor; [|constructor]. unfold filled. cbn. lia.
      * by left.
      * intros He. unfold s1. fields. rewrite app_assoc, taken_app, app_assoc. apply Forall_app. split; [by apply W11|].
        constructor; [|constructor]. cbn. rewrite W7, He in Hd. intros ->. cbn in Hd. lia.
    + intros _ (r & l & Er & _). change (sc_recvRequestQueue s1) with (sc_recvRequestQueue s) in Er. congruence.
    + rewrite (M_bind_Some _ _ _ _ _ En). exists s'. split; [done|]. split; [|split; [done|by destruct H2]].
      eapply sending_same; [exact H2|]. by destruct H0.
  - assert (Hnot : sc_recvClosed s = false ∧ (length data < len)%nat ∧ rest = []).
    { assert (length data < len)%nat by (destruct (decide (length data = len)); [tauto|lia]).
      split; [|by auto]. destruct (sc_recvClosed s); [tauto|done]. }
    destruct Hnot as (Hc & Hl & ->). clear Hd. rewrite swrite_bind. set (s1 := with_recv _ _ _ _ s0).
    destruct (Hmoved s1) as [M1 M2]; [done|done|unfold s1; fields; by rewrite app_assoc|].
    assert (Hw1 : receiving_with ended arrived (asked ++ [id]) calling s1).
    { destruct Hw as [W1 W2 W3 W4 W5 W6 W7 W8 W9 W10 W11]. split; try done; unfold s1; fields; [|by right|intros He; congruence].
      destruct W3 as [Q1 Q2]. split; [apply Forall_app; split; [done|by constructor]|].
      destruct (sc_recvRequestQueue s) as [|x l] eqn:Eq; [constructor|]. cbn. apply Forall_app. split; [done|].
      constructor; [|constructor]. cbn. destruct data; [done|]. by specialize (Hempty ltac:(done)). }
    assert (H1 : sending key acc lost s1) by by destruct H0.
    assert (Hflow : ∃ s2, (∀ Y (k : unit → SM Y), ((if decide (length (sc_recvRequestQueue s ++ [req]) = 1)%nat
        then _ ← tcp (Bdt_TcpInterfaceResume socket_result); mret tt else mret tt) ≫= k) s1 = k tt s2) ∧
        sending key acc lost s2 ∧ recv_same s1 s2).
    { case_decide; [by apply resume_runs|by exists s1]. }
    destruct Hflow as (s2 & Ef & F1 & F2). rewrite Ef. clear Ef.
    assert (Hw2 : receiving_with ended arrived (asked ++ [id]) calling s2) by by eapply receiving_with_same.
    assert (Hdone : ∀ s3, sending key acc lost s3 → receiving_with ended arrived (asked ++ [id]) calling s3 →
      recv_tasks (sc_tasks s3) = recv_tasks (sc_tasks s2) → restarts (sc_tasks s3) = restarts (sc_tasks s2) →
      sc_isRecvNotifying s3 = sc_isRecvNotifying s2 → sc_isCompleteRecvNotifyOnly s3 = sc_isCompleteRecvNotifyOnly s2 →
      sc_completeRecvRequests s3 = sc_completeRecvRequests s2 → sc_config s3 = sc_config s2 →
      sc_recvRequestQueue s3 = sc_recvRequestQueue s2 →
      (sc_dataNotifyTimer s3 = sc_dataNotifyTimer s2 ∧ data = [] ∨ timer_set (sc_dataNotifyTimer s3)) →
      ∃ s', Some (BFX_RESULT_SUCCESS, s3) = Some (BFX_RESULT_SUCCESS, s') ∧ sending key acc lost s' ∧
        receiving ended arrived (asked ++ [id]) s' ∧ sc_config s' = sc_config s).
    { intros s3 K1 K2 K3 K4 K5 K6 K7 K8 K9 K10. destruct F2 as [G1 G2 G3 G4 G5 G6 G7 G8 G9 G10 G11].
      exists s3. split; [done|]. split; [done|]. split; [split|by rewrite K8, G1].
      - exists calling. split; [done|]. by rewrite K3, K5, K6, G2, G3, G9.
      - by rewrite K5, K7, G2, G7.
      - intros (r & l & Er & Hd). rewrite K9, G6 in Er. unfold recv_awake. rewrite K4, K6, G3, G10.
        destruct K10 as [[-> Hnil]|K10]; [|by left]. rewrite G8. apply Ha. unfold s1 in Er. fields in *.
        destruct (sc_recvRequestQueue s) as [|x q] eqn:Eq; [|cbn in Er; injection Er as -> _; by exists r, q].
        injection Er as <- <-. done. }
    case_decide as Hpos; cycle 1.
    { unfold mbind, M_bind, mret, M_ret. apply Hdone; try done. left. split; [done|]. apply nil_length_inv. lia. }
    destruct (start_data left s2) as (t & trace & Et & T1 & T2 & T3 & T4); [apply (rw_timer _ _ _ _ _ Hw2)|].
    rewrite (M_bind_Some _ _ _ _ _ Et). apply Hdone; try done; [| |by right].
    + eapply sending_same; [|exact F1]. by split.
    + destruct Hw2 as [W1 W2 W3 W4 W5 W6 W7 W8 W9 W10 W11]. unfold posted in *. by split; unfold posted; fields; rewrite ?T4.
Qed.

(** ** Data arrives *)

Lemma fill_requests_spec data reqs :
  queue_ok reqs → (data = [] → Forall (λ req, rr_data req = []) reqs) →
  ∃ remain rest full delay, fill_requests data reqs = (remain, rest, full, delay) ∧
    (taken (full ++ rest)).*1 = (taken reqs).*1 ∧
    concat (taken (full ++ rest)).*2 ++ remain = concat (taken reqs).*2 ++ data ∧
    queue_ok rest ∧ Forall filled full ∧ Forall (λ req, rr_data req ≠ []) full ∧ (remain = [] ∨ rest = []) ∧
    (delay = true ∨ Forall (λ req, rr_data req = []) rest).
Proof.
  revert data. induction reqs as [|req reqs IH]; intros data Q Hnil; cbn [fill_requests].
  { eexists _, _, _, _. split; [done|]. split_and!; try done; [by right|by right]. }
  case_decide as Hd.
  { subst data. eexists _, _, _, _. split; [done|]. split_and!; try done; [by left|right; by apply Hnil]. }
  destruct (queue_ok_tail _ _ Q) as [Qn Qt]. set (n := Nat.min _ _). set (req' := mkRecvRequest _ _ _).
  assert (Hr : (length (rr_data req) < rr_size req)%nat) by by destruct Q as [[? _]%Forall_cons _].
  assert (Hreq : length (rr_data req') = (length (rr_data req) + n)%nat) by (cbn; rewrite length_app, length_take; lia).
  assert (Hcat : concat (taken reqs).*2 = []).
  { clear - Qn. induction Qn as [|x l Hx _ IH]; [done|]. cbn. rewrite Hx. exact IH. }
  case_decide as Hfull.
  - destruct (IH (drop n data) Qt (λ _, Qn)) as (remain & rest & full & delay & -> & E1 & E2 & E3 & E4 & E5 & E6 & E7).
    eexists _, _, _, _. split; [done|]. split_and!; try done.
    + cbn [app]. unfold taken in *. rewrite !fmap_cons. by rewrite E1.
    + cbn [app taken fmap list_fmap concat]. fold (taken (full ++ rest)). fold (taken reqs).
      rewrite <- app_assoc, E2. rewrite Hcat. cbn. rewrite app_nil_r, <- app_assoc. by rewrite take_drop.
    + constructor; [|done]. unfold filled. cbn in *. lia.
    + constructor; [|done]. intros E. rewrite E in Hreq. change (rr_size req') with (rr_size req) in Hfull. rewrite E in Hfull. cbn in Hfull, Hreq. lia.
  - assert (Hn : n = length data) by (change (rr_size req') with (rr_size req) in Hfull; lia).
    eexists _, _, _, _. split; [done|]. split_and!; try done; [| | |by left].
    + cbn. rewrite Hn, drop_all, firstn_all. fold (taken reqs). rewrite Hcat. by rewrite !app_nil_r.
    + change (rr_size req') with (rr_size req) in Hfull. split; [|done]. destruct Q as [[_ ?]%Forall_cons _]. constructor; [|done]. change (rr_size req') with (rr_size req). lia.
    + left. rewrite Hn. apply drop_all.
Qed.

Lemma OnTcpEnd_runs key acc lost ended arrived asked (s : StreamConnection) :
  sending key acc lost s → receiving ended arrived asked s →
  ∃ s', StreamConnectionOnTcpEnd s = Some (BFX_RESULT_SUCCESS, s') ∧ sending key acc lost s' ∧
    receiving true arrived asked s' ∧ sc_config s' = sc_config s.
Proof.
  intros Hs [(calling & Hw & Ht & Hn) Hi Ha]. unfold StreamConnectionOnTcpEnd, complete_all. rewrite !sget_bind, swrite_bind.
  unfold mbind at 1, M_bind at 1. rewrite !sget_bind. fields. unfold mwrite at 1. set (s1 := with_recv _ _ _ _ _).
  destruct (receiving_moved ended arrived arrived asked asked calling calling s s1 [] Hw) as [M1 M2]; [done|..].
  { unfold s1. fields. by rewrite !app_nil_r. }
  { by rewrite app_nil_r. }
  { intros given. unfold s1. fields. by rewrite app_nil_r. }
  destruct (Notify_runs true arrived asked false s1) as (s' & En & H1 & H2).
  - exists calling. split; [|by split]. destruct Hw as [W1 W2 W3 W4 W5 W6 W7 W8 W9 W10 W11].
    split; try done; unfold s1; fields; [apply Forall_app; split; [done|]|by left].
    eapply Forall_impl; [apply W3|]. intros r Hr. unfold filled. cbn in Hr. lia.
  - done.
  - rewrite (M_bind_Some _ _ _ _ _ En). exists s'. split; [done|]. split; [|split; [done|by destruct H2]].
    eapply sending_same; [exact H2|]. by destruct Hs.
Qed.

Lemma data_waits ended arrived asked calling s :
  receiving_with ended arrived asked calling s → (recv_waits s → sc_recvBuffersQueue s = []).
Proof. intros Hw (r & l & E & _). destruct (rw_exclusive _ _ _ _ _ Hw) as [E'|?]; [by rewrite E' in E|done]. Qed.

Lemma OnTcpData_runs key acc lost ended arrived asked now data (s : StreamConnection) :
  sending key acc lost s → receiving ended arrived asked s → data ≠ [] →
  ∃ s', StreamConnectionOnTcpData socket_result now data s = Some (BFX_RESULT_SUCCESS, s') ∧ sending key acc lost s' ∧
    receiving ended (if ended then arrived else arrived ++ data) asked s' ∧ sc_config s' = sc_config s.
Proof.
  intros Hs Hrec Hd. unfold StreamConnectionOnTcpData. rewrite decide_False by done. rewrite sget_bind.
  pose proof Hrec as [(calling & Hw & Ht & Hn) Hi Ha].
  rewrite (rw_ended _ _ _ _ _ Hw). destruct ended; [by exists s|]. rewrite !sget_bind.
  pose proof (rw_exclusive _ _ _ _ _ Hw) as Hex.
  rewrite sassert_bind by (apply orb_true_iff; destruct Hex; [left|right]; by apply bool_decide_eq_true_2).
  destruct (fill_requests_spec data _ (rw_queue _ _ _ _ _ Hw)) as (remain & rest & full & delay & -> & E1 & E2 & E3 & E4 & E5 & E6 & E7); [done|].
  rewrite sassert_bind by by apply bool_decide_eq_true_2.
  rewrite sassert_bind by (apply orb_true_iff; destruct E6; [left|right]; by apply bool_decide_eq_true_2).
  set (buffers := if decide (remain = []) then _ else _). rewrite swrite_bind. set (s1 := with_recv _ _ _ _ s).
  assert (Hbuf : remain = [] ∧ buffers = sc_recvBuffersQueue s ∧ sc_recvBuffersQueue s = [] ∨
    remain ≠ [] ∧ rest = [] ∧ buffered buffers = buffered (sc_recvBuffersQueue s) ++ remain ∧
      Forall (λ b, (rb_pos b < length (rb_data b))%nat) buffers).
  { unfold buffers. case_decide as Hr.
    - left. split; [done|]. split; [done|]. destruct Hex as [Eq|?]; [|done]. rewrite Eq in E1, E2. cbn in E2. subst remain.
      rewrite app_nil_r in E2. apply (f_equal length) in E1. unfold taken in E1. rewrite !length_fmap in E1. destruct (full ++ rest); [|done]. by destruct Hd.
    - right. destruct E6 as [?|?]; [done|]. split; [done|]. split; [done|]. split.
      + rewrite buffered_app. cbn. by rewrite app_nil_r.
      + apply Forall_app. split; [apply (rw_buffers _ _ _ _ _ Hw)|]. constructor; [|constructor]. destruct remain; [done|]. cbn. lia. }
  destruct (receiving_moved false arrived (arrived ++ data) asked asked calling calling s s1 [] Hw) as [M1 M2]; [done|..].
  { unfold s1. fields. rewrite app_nil_r, <- !app_assoc, !taken_app, !fmap_app. rewrite taken_app, fmap_app in E1. by rewrite E1. }
  { by rewrite app_nil_r. }
  { intros given <-. unfold s1. fields. rewrite <- !app_assoc. f_equal.
    rewrite !(taken_app calling), !(taken_app (sc_completeRecvRequests s)), !fmap_app, !concat_app, <- !app_assoc. do 2 f_equal.
    destruct Hbuf as [(-> & -> & ->)|(_ & -> & -> & _)].
    - rewrite app_nil_r in *. exact E2.
    - rewrite app_nil_r in *. destruct Hex as [Eq|Eq].
      + rewrite Eq in E1, E2 |- *. cbn in *. apply (f_equal length) in E1. unfold taken in E1. rewrite !length_fmap in E1.
        destruct full; [|done]. cbn in *. by rewrite E2.
      + rewrite Eq. cbn. exact E2. }
  assert (Hw1 : receiving_with false (arrived ++ data) asked calling s1).
  { destruct Hw as [W1 W2 W3 W4 W5 W6 W7 W8 W9 W10 W11]. split; try done; unfold s1; fields.
    - by apply Forall_app.
    - destruct Hbuf as [(_ & -> & ?)|(_ & ? & _)]; [by right|by left].
    - destruct Hbuf as [(_ & -> & _)|(_ & _ & _ & ?)]; done.
    - intros He. rewrite app_assoc, taken_app, app_assoc. apply Forall_app. split; [by apply W11|by apply taken_bytes]. }
  assert (H1 : sending key acc lost s1) by by destruct Hs.
  assert (Hflow : ∃ s2, (∀ Y (k : unit → SM Y), ((if decide (remain ≠ [] ∧ length buffers = 1%nat) then
         _ ← tcp (Bdt_TcpInterfacePause socket_result);
         (if decide (rest ≠ []) then _ ← tcp (Bdt_TcpInterfaceResume socket_result); mret tt else mret tt)
       else mret tt) ≫= k) s1 = k tt s2) ∧ sending key acc lost s2 ∧ recv_same s1 s2).
  { case_decide as Hp; [|by exists s1]. destruct (pause_runs key acc lost s1 H1) as (r & s2 & Er & F1 & F2 & _).
    exists s2. split; [|done]. intros Y k. unfold mbind at 1, M_bind at 1. rewrite (M_bind_Some _ _ _ _ _ Er).
    destruct Hbuf as [(? & _)|(_ & -> & _)]; [by destruct Hp|]. by rewrite decide_False by tauto. }
  destruct Hflow as (s2 & Ef & F1 & F2). rewrite Ef. clear Ef. pose proof (receiving_with_same _ _ _ _ _ _ F2 Hw1) as Hw2.
  unfold defer. rewrite swrite_bind. set (s3 := with_tasks _ _ s2).
  destruct F2 as [G1 G2 G3 G4 G5 G6 G7 G8 G9 G10 G11].
  destruct (Notify_runs false (arrived ++ data) asked true s3) as (s' & En & K1 & K2).
  - exists calling. split; [by destruct Hw2|]. unfold s3. fields. rewrite G2, G3.
    split; [|done]. rewrite recv_tasks_app, G9. trans (recv_tasks (sc_tasks s)); [|exact Ht]. by destruct (bool_decide (full ≠ [])), delay.
  - intros _ (r & l & Er & Hrd). unfold s3 in Er. fields in *. rewrite G6 in Er. unfold s1 in Er. fields in *.
    right. left. unfold s3. fields. rewrite restarts_app. destruct E7 as [->|E7]; [done|].
    rewrite Er in E7. by apply Forall_cons in E7 as [? _].
  - rewrite (M_bind_Some _ _ _ _ _ En). exists s'. split; [done|]. split; [|split; [done|]].
    + eapply sending_same; [exact K2|]. eapply sending_same; [|exact F1]. by split.
    + destruct K2 as [-> _]. exact G1.
Qed.

Lemma DataTimer_runs key acc lost ended arrived asked (s : StreamConnection) :
  sending key acc lost s → receiving ended arrived asked s →
  ∃ s', StreamConnectionOnDataNotifyTimer s = Some (tt, s') ∧ sending key acc lost s' ∧
    receiving ended arrived asked s' ∧ sc_config s' = sc_config s.
Proof.
  intros Hs [(calling & Hw & Ht & Hn) Hi Ha]. unfold StreamConnectionOnDataNotifyTimer.
  destruct (stop_runs sc_dataNotifyTimer with_dataTimer ltac:(done) s) as (t & trace & Et & T1 & T2 & T3).
  rewrite (M_bind_Some _ _ _ _ _ Et). set (s1 := with_trace _ _).
  destruct (Notify_runs ended arrived asked false s1) as (s' & En & K1 & K2).
  - exists calling. split; [|done]. destruct Hw as [W1 W2 W3 W4 W5 W6 W7 W8 W9 W10 W11]. unfold posted in *.
    by split; unfold posted, s1; fields; rewrite ?T3.
  - done.
  - exists s'. split; [done|]. split; [|split; [done|by destruct K2]].
    eapply sending_same; [exact K2|]. eapply sending_same; [|exact Hs]. by split.
Qed.
End receive.
