(* ===== verification/StreamTheorems.v ===== *)
(** * Stream connections: the theorems

    Whatever is called in which order, what is sent and what is received are
    the bytes that were asked for, in order, each once. *)

From S2P Require Import Prelude CInt Package BufferStream Codec SessionCodec Endpoint PackageFields PackageCodec HandCodec MergedPackages AesPadding Crypto UdpBox TcpInterface TcpUnbox TcpPush TcpBox TcpProofs TcpTheorems TcpLifecycle StreamConnection StreamSend StreamRecv.

Section theorems.
Context {P : PeerInfoOps} {A : AesOps} {AL : AesLaws A}.
Context (socket_result : nat → Z) (socket_sent : nat → nat) (before : list Z).

Notation SM := (M StreamConnection).
Notation sending := (sending socket_sent before).

(** ** Tasks *)

(** The first task is taken from the others. *)
Definition popped (tasks : list Task) (s : StreamConnection) : StreamConnection := with_tasks (sc_immediates s) tasks s.

Lemma sending_popped key acc lost s t l :
  sending key acc lost s → sc_tasks s = t :: l → waiting [t] = [] → sending key acc lost (popped l s).
Proof.
  intros Hs E Et. assert (Ew : waiting (sc_tasks s) = waiting l) by (rewrite E; change (t :: l) with ([t] ++ l); by rewrite waiting_app, Et).
  destruct Hs as [? ? ? ? ? ? ? ? ? ? Hids ? ? ?]. split; unfold popped; fields; try done. by rewrite <- Ew.
Qed.

Lemma receiving_popped ended arrived asked s t l :
  receiving ended arrived asked s → sc_tasks s = t :: l → recv_task t = false → restarts [t] = false →
  receiving ended arrived asked (popped l s).
Proof.
  intros Hr E E1 E2. eapply receiving_same; [|exact Hr]. unfold popped. split; fields; try done.
  - rewrite E. unfold recv_tasks. by rewrite filter_cons_False by (by rewrite E1).
  - rewrite E. change (t :: l) with ([t] ++ l). by rewrite restarts_app, E2.
Qed.

(** A request to send is called back. *)
Lemma SendDone_runs key acc lost ended arrived asked result item n l (s : StreamConnection) :
  sending key acc lost s → receiving ended arrived asked s → sc_tasks s = SendDone result item n :: l →
  ∃ s', run_task socket_result socket_sent (SendDone result item n) (popped l s) = Some (tt, s') ∧
    sending key acc lost s' ∧ receiving ended arrived asked s' ∧ sc_config s' = sc_config s.
Proof.
  intros Hs Hr E. eexists. split; [reflexivity|]. unfold popped. split; [|split; [|done]].
  - destruct Hs as [? ? ? ? ? ? ? ? ? ? Hids ? ? ?]. split; fields; try done. rewrite <- Hids, E. cbn [called waiting omap list_omap].
    case_decide; [|done]. cbn [app]. apply Permutation_middle.
  - pose proof (receiving_popped _ _ _ _ _ _ Hr E eq_refl eq_refl) as Hp. eapply receiving_same; [|exact Hp]. by split.
Qed.

(** A request to receive is called back. *)
Lemma RecvDone_runs key acc lost ended arrived asked req l (s : StreamConnection) :
  sending key acc lost s → receiving ended arrived asked s → sc_tasks s = RecvDone req :: l →
  ∃ s', run_task socket_result socket_sent (RecvDone req) (popped l s) = Some (tt, s') ∧
    sending key acc lost s' ∧ receiving ended arrived asked s' ∧ sc_config s' = sc_config s.
Proof.
  intros Hs [(calling & Hw & Ht & Hn) Hi Ha] E. rewrite E in Ht. unfold recv_tasks in Ht. rewrite filter_cons_True in Ht by done.
  destruct calling as [|r calling]; [by destruct (sc_isRecvNotifying s)|]. cbn in Ht. injection Ht as <- Ht.
  cbn [run_task]. rewrite sassert_bind; cycle 1.
  { apply bool_decide_eq_true_2. pose proof (rw_calling _ _ _ _ _ Hw) as Hf. by apply Forall_cons in Hf as [? _]. }
  eexists. split; [reflexivity|]. unfold popped. split; [|split; [|done]].
  - pose proof (sending_popped _ _ _ _ _ _ Hs E eq_refl) as Hp. eapply sending_same; [|exact Hp]. by split.
  - split.
    + exists calling. split; [|split; [exact Ht|]].
      * destruct Hw as [W1 W2 W3 W4 W5 W6 W7 W8 W9 W10 W11].
        assert (Ep : ∀ x, reverse (recv_called (RecvCallback (rr_id req) (rr_data req) :: sc_trace s)) ++ x =
          reverse (recv_called (sc_trace s)) ++ (rr_id req, rr_data req) :: x).
        { intros x. cbn [recv_called omap list_omap]. by rewrite reverse_cons, <- app_assoc. }
        unfold posted in *. cbn [taken fmap list_fmap] in *. split; try done; unfold posted; fields.
        -- cbn [recv_called omap list_omap] in *. rewrite reverse_cons, <- app_assoc. exact W1.
        -- cbn [recv_called omap list_omap] in *. rewrite reverse_cons, <- app_assoc. exact W2.
        -- by apply Forall_cons in W4 as [_ ?].
        -- intros He. cbn [recv_called omap list_omap] in *. rewrite reverse_cons, <- app_assoc. by apply W11.
      * intros Hx. by destruct (Hn Hx).
    + done.
    + intros Hx. specialize (Ha Hx). unfold recv_awake in *. fields in *. rewrite E in Ha. exact Ha.
Qed.

(** The timer for what was received is started again. *)
Lemma RestartDataTimer_runs key acc lost ended arrived asked stop start l (s : StreamConnection) :
  sending key acc lost s → receiving ended arrived asked s → sc_tasks s = RestartDataTimer stop start :: l →
  ∃ s', run_task socket_result socket_sent (RestartDataTimer stop start) (popped l s) = Some (tt, s') ∧
    sending key acc lost s' ∧ receiving ended arrived asked s' ∧ sc_config s' = sc_config s.
Proof.
  intros Hs Hr E. pose proof (sending_popped _ _ _ _ _ _ Hs E eq_refl) as Hp.
  assert (Hss : stop && negb start = false).
  { destruct Hr as [(calling & _ & Ht & _) _ _]. rewrite E in Ht. unfold recv_tasks in Ht.
    destruct (stop && negb start) eqn:Es; [|done]. rewrite filter_cons_True in Ht by done.
    destruct calling; [|done]. by destruct (sc_isRecvNotifying s). }
  cbn [run_task]. rewrite sget_bind. destruct start.
  - assert (Hstop : ∃ t trace, timer_ok t ∧ called (trace ++ sc_trace s) = called (sc_trace s) ∧
        recv_called (trace ++ sc_trace s) = recv_called (sc_trace s) ∧
        ∀ Y (k : unit → SM Y), ((if stop then stop_timer sc_dataNotifyTimer with_dataTimer else mret tt) ≫= k) (popped l s) =
          k tt (with_trace (trace ++ sc_trace s) (with_dataTimer t (popped l s)))).
    { destruct stop.
      - destruct (stop_runs sc_dataNotifyTimer with_dataTimer ltac:(done) (popped l s)) as (t & trace & Et & T1 & T2 & T3).
        exists t, trace. split; [done|]. split; [done|]. split; [done|]. intros Y k. by rewrite (M_bind_Some _ _ _ _ _ Et).
      - exists (sc_dataNotifyTimer s), []. split; [|split; [done|]; split; [done|]; intros Y k; by destruct s].
        destruct Hr as [(calling & Hw & _) _ _]. apply (rw_timer _ _ _ _ _ Hw). }
    destruct Hstop as (t & trace & T1 & T2 & T3 & Estop). rewrite Estop. set (s1 := with_trace _ _).
    destruct (start_data (i32 (recvTimeout (sc_config (popped l s)))) s1) as (t' & trace' & Et & U1 & U2 & U3 & U4); [done|].
    rewrite Et. eexists. split; [reflexivity|]. split; [|split; [|done]].
    + eapply sending_same; [|exact Hp]. split; try done. exact (eq_trans U3 T2).
    + destruct Hr as [(calling & Hw & Ht & Hn) Hi Ha]. split; [|done|].
      * exists calling. split; [|split; [|done]].
        -- destruct Hw as [W1 W2 W3 W4 W5 W6 W7 W8 W9 W10 W11]. unfold posted in *.
           assert (Et' : recv_called (trace' ++ sc_trace s1) = recv_called (sc_trace s)) by exact (eq_trans U4 T3).
           split; unfold posted; fields; rewrite ?Et'; done.
        -- rewrite E in Ht. unfold recv_tasks in Ht. rewrite filter_cons_False in Ht by (cbn; by destruct stop). exact Ht.
      * intros _. by left.
  - destruct stop; [done|]. eexists. split; [reflexivity|]. split; [done|]. split; [|done].
    by apply (receiving_popped _ _ _ _ _ _ Hr E).
Qed.

Lemma next_task_runs key acc lost ended arrived asked (s : StreamConnection) :
  sending key acc lost s → receiving ended arrived asked s → stream_config_ok (sc_config s) →
  ∃ s', next_task socket_result socket_sent s = Some (tt, s') ∧ sending key acc lost s' ∧ receiving ended arrived asked s' ∧
    sc_config s' = sc_config s.
Proof.
  intros Hs Hr Hc. unfold next_task. rewrite sget_bind. destruct (sc_tasks s) as [|t l] eqn:E; [by exists s|].
  rewrite swrite_bind. fold (popped l s). destruct t as [result item n| | |req| |stop start|].
  - by eapply SendDone_runs.
  - pose proof (sending_popped _ _ _ _ _ _ Hs E eq_refl) as Hp. pose proof (receiving_popped _ _ _ _ _ _ Hr E eq_refl eq_refl) as Hq.
    destruct (SendRecord_sends socket_result socket_sent before false key acc lost (popped l s) Hp Hc) as (r & s' & Er & H1 & H2).
    cbn [run_task]. rewrite (M_bind_Some _ _ _ _ _ Er). exists s'. split; [done|]. split; [done|]. split; [|by destruct H2].
    by eapply receiving_same.
  - exfalso. destruct Hr as [(calling & _ & Ht & _) _ _]. rewrite E in Ht. unfold recv_tasks in Ht.
    rewrite filter_cons_True in Ht by done. destruct calling; [|done]. by destruct (sc_isRecvNotifying s).
  - by eapply RecvDone_runs.
  - pose proof (sending_popped _ _ _ _ _ _ Hs E eq_refl) as Hp.
    destruct Hr as [(calling & Hw & Ht & Hn) Hi Ha]. rewrite E in Ht. unfold recv_tasks in Ht. rewrite filter_cons_True in Ht by done.
    destruct calling as [|? calling]; [|done]. destruct (sc_isRecvNotifying s) eqn:En; [|done]. injection Ht as Ht.
    destruct (notify_round_runs ended arrived asked (popped l s)) as (s' & Er & H1 & H2); [by destruct Hw|exact Ht| |].
    + intros Hx. specialize (Ha Hx). unfold recv_awake in *. rewrite E in Ha. exact Ha.
    + exists s'. split; [done|]. split; [by eapply sending_same|]. split; [done|by destruct H2].
  - by eapply RestartDataTimer_runs.
  - pose proof (sending_popped _ _ _ _ _ _ Hs E eq_refl) as Hp. pose proof (receiving_popped _ _ _ _ _ _ Hr E eq_refl eq_refl) as Hq.
    eexists. split; [reflexivity|]. split; [eapply sending_same; [|exact Hp]; by split|]. split; [|done].
    eapply receiving_same; [|exact Hq]. by split.
Qed.

(** ** What happens to a stream

    The user's calls, the events of the interface, the timers that are set and
    the immediates that were asked for, in any order; a task goes on when the
    user's callback returned, and what is called in it comes before. *)

Inductive StreamOp :=
  | OpSend (now later : Z) (id : nat) (buffer : list Z)
  | OpRecv (now : Z) (id len : nat)
  | OpClose
  | OpDrain
  | OpData (now : Z) (data : list Z)
  | OpNagle (now : Z)
  | OpSyncSent (now : Z)
  | OpDataTimer
  | OpTask.

(** [StreamConnectionRecv] asks for requests that are not empty. *)
Definition op_ok (op : StreamOp) : Prop := match op with OpRecv _ _ len => (0 < len)%nat | _ => True end.

(** What was asked for: the requests to send that were not refused, the
    requests to receive, the data of the interface before its end. *)
Record StreamLog := mkLog {
  lg_accepted : list (nat * list Z);
  lg_asked : list nat;
  lg_arrived : list Z;
  lg_ended : bool }.
Definition empty_log : StreamLog := mkLog [] [] [] false.

Definition log_sent (r : Z) (id : nat) (buffer : list Z) (g : StreamLog) : StreamLog :=
  mkLog (if decide (r = BFX_RESULT_INVALID_STATE) then lg_accepted g else lg_accepted g ++ [(id, buffer)])
    (lg_asked g) (lg_arrived g) (lg_ended g).
Definition log_asked (id : nat) (g : StreamLog) : StreamLog :=
  mkLog (lg_accepted g) (lg_asked g ++ [id]) (lg_arrived g) (lg_ended g).
Definition log_data (data : list Z) (g : StreamLog) : StreamLog :=
  mkLog (lg_accepted g) (lg_asked g) (if lg_ended g then lg_arrived g else lg_arrived g ++ data)
    (lg_ended g || bool_decide (data = [])).

Definition run_op (op : StreamOp) (g : StreamLog) : SM StreamLog :=
  match op with
  | OpSend now later id buffer => r ← StreamConnectionSend now later id buffer true; mret (log_sent r id buffer g)
  | OpRecv now id len => _ ← StreamConnectionRecv socket_result now id len; mret (log_asked id g)
  | OpClose => _ ← StreamConnectionClose; mret g
  | OpDrain => _ ← StreamConnectionOnTcpDrain socket_result socket_sent; mret g
  | OpData now data => _ ← StreamConnectionOnTcpData socket_result now data; mret (log_data data g)
  | OpNagle now =>
      timer ← sget (λ s, timerInstance (sc_nagleTimer s));
      match timer with Some _ => StreamConnectionOnNagleTimer now ;; mret g | None => mret g end
  | OpSyncSent now =>
      n ← sget sc_immediates;
      match n with
      | O => mret g
      | S n => mwrite (λ s, with_tasks n (sc_tasks s) s) ;; StreamConnectionOnSyncSent now ;; mret g
      end
  | OpDataTimer =>
      timer ← sget (λ s, timerInstance (sc_dataNotifyTimer s));
      match timer with Some _ => StreamConnectionOnDataNotifyTimer ;; mret g | None => mret g end
  | OpTask => next_task socket_result socket_sent ;; mret g
  end.

Fixpoint run_ops (ops : list StreamOp) (g : StreamLog) : SM StreamLog :=
  match ops with
  | [] => mret g
  | op :: ops => g ← run_op op g; run_ops ops g
  end.

Record streaming (key : list Z) (lost : list nat) (g : StreamLog) (s : StreamConnection) : Prop := {
  st_sending : sending key (lg_accepted g) lost s;
  st_receiving : receiving (lg_ended g) (lg_arrived g) (lg_asked g) s;
  st_config : stream_config_ok (sc_config s) }.

Lemma streaming_sent key lost lost' g acc (s s' : StreamConnection) :
  streaming key lost g s → sending key acc lost' s' → recv_same s s' →
  streaming key lost' (mkLog acc (lg_asked g) (lg_arrived g) (lg_ended g)) s'.
Proof. intros [H1 H2 H3] Hs Hr. split; [done|by eapply receiving_same|]. by destruct Hr as [-> _]. Qed.

Lemma streaming_sent_same key lost lost' g (s s' : StreamConnection) :
  streaming key lost g s → sending key (lg_accepted g) lost' s' → recv_same s s' → streaming key lost' g s'.
Proof. intros H1 H2 H3. destruct g. by apply (streaming_sent _ _ _ _ _ _ _ H1 H2 H3). Qed.

Lemma stream_op_runs key lost op g (s : StreamConnection) :
  streaming key lost g s → op_ok op → ∃ g' s' lost', run_op op g s = Some (g', s') ∧ streaming key lost' g' s'.
Proof.
  intros Hst Hop. pose proof Hst as [Hs Hr Hc]. destruct op as [now later id buffer|now id len| | |now data|now|now| |]; cbn [run_op].
  - destruct (Send_sends socket_result socket_sent before key (lg_accepted g) lost now later id buffer s Hs Hc) as (r & s' & acc & E & H1 & H2 & ->).
    rewrite (M_bind_Some _ _ _ _ _ E). eexists _, s', lost. split; [reflexivity|]. by eapply streaming_sent.
  - destruct (Recv_runs socket_result socket_sent before key _ lost _ _ _ now id len s Hs Hr Hop) as (s' & E & H1 & H2 & H3).
    rewrite (M_bind_Some _ _ _ _ _ E). eexists _, s', lost. split; [reflexivity|]. split; [done|done|by rewrite H3].
  - destruct (Close_sends socket_sent before key _ lost s Hs Hc) as (r & s' & E & H1 & H2).
    rewrite (M_bind_Some _ _ _ _ _ E). eexists _, s', lost. split; [reflexivity|]. by eapply streaming_sent_same.
  - destruct (SendRecord_sends socket_result socket_sent before true key _ lost s Hs Hc) as (r & s' & E & H1 & H2).
    unfold StreamConnectionOnTcpDrain. unfold mbind at 1, M_bind at 1. rewrite (M_bind_Some _ _ _ _ _ E).
    eexists _, s', lost. split; [reflexivity|]. by eapply streaming_sent_same.
  - unfold StreamConnectionOnTcpData, log_data. destruct (decide (data = [])) as [->|Hd].
    + destruct (OnTcpEnd_runs socket_sent before key _ lost _ _ _ s Hs Hr) as (s' & E & H1 & H2 & H3).
      rewrite (M_bind_Some _ _ _ _ _ E). eexists _, s', lost. split; [reflexivity|].
      assert (Ea : (if lg_ended g then lg_arrived g else lg_arrived g ++ []) = lg_arrived g) by (rewrite app_nil_r; by destruct (lg_ended g)).
      rewrite Ea, bool_decide_eq_true_2, orb_true_r by done. split; [done|done|by rewrite H3].
    + destruct (OnTcpData_runs socket_result socket_sent before key _ lost _ _ _ now data s Hs Hr Hd) as (s' & E & H1 & H2 & H3).
      unfold StreamConnectionOnTcpData in E. rewrite decide_False in E by done.
      rewrite (M_bind_Some _ _ _ _ _ E). eexists _, s', lost. split; [reflexivity|].
      rewrite bool_decide_eq_false_2, orb_false_r by done. split; [done|done|by rewrite H3].
  - rewrite sget_bind. destruct (timerInstance (sc_nagleTimer s)); [|by exists g, s, lost].
    destruct (NagleTimer_sends socket_sent before key _ lost now s Hs Hc) as (s' & lost' & E & H1 & H2).
    rewrite (M_bind_Some _ _ _ _ _ E). eexists _, s', lost'. split; [reflexivity|]. by eapply streaming_sent_same.
  - rewrite sget_bind. destruct (sc_immediates s) as [|n] eqn:En; [by exists g, s, lost|]. rewrite swrite_bind.
    set (s1 := with_tasks n (sc_tasks s) s). unfold StreamConnectionOnSyncSent.
    destruct (CheckPendingSend_sends socket_sent before key (lg_accepted g) lost now s1) as (s' & lost' & E & H1 & H2); [|done|].
    + assert (Em : more s1 = s) by (unfold more, s1; fields; rewrite <- En; by destruct s). by rewrite Em.
    + rewrite (M_bind_Some _ _ _ _ _ E). eexists _, s', lost'. split; [reflexivity|].
      eapply streaming_sent_same; [exact Hst|done|]. destruct H2. by split.
  - rewrite sget_bind. destruct (timerInstance (sc_dataNotifyTimer s)); [|by exists g, s, lost].
    destruct (DataTimer_runs socket_sent before key _ lost _ _ _ s Hs Hr) as (s' & E & H1 & H2 & H3).
    rewrite (M_bind_Some _ _ _ _ _ E). eexists _, s', lost. split; [reflexivity|]. split; [done|done|by rewrite H3].
  - destruct (next_task_runs key _ lost _ _ _ s Hs Hr Hc) as (s' & E & H1 & H2 & H3).
    rewrite (M_bind_Some _ _ _ _ _ E). eexists _, s', lost. split; [reflexivity|]. split; [done|done|by rewrite H3].
Qed.

Lemma stream_ops_runs key lost ops g (s : StreamConnection) :
  streaming key lost g s → Forall op_ok ops → ∃ g' s' lost', run_ops ops g s = Some (g', s') ∧ streaming key lost' g' s'.
Proof.
  intros Hs Hops. revert g s lost Hs. induction Hops as [|op ops Ho _ IH]; intros g s lost Hs; [by exists g, s, lost|].
  destruct (stream_op_runs key lost op g s Hs Ho) as (g1 & s1 & lost1 & E & H1). cbn [run_ops]. rewrite (M_bind_Some _ _ _ _ _ E).
  by apply (IH g1 s1 lost1).
Qed.

(** ** Streams that were created *)

(** On an interface that is encrypted and open. *)
Definition stream_started (key : list Z) (s : StreamConnection) : Prop :=
  ∃ config ti self memory,
    StreamConnectionCreate config ti self memory = Some s ∧ stream_config_ok config ∧ alive [] ti ∧ ti_isCrypto ti = true ∧
    ti_aesKey ti = key ∧ ti_state ti = BDT_TCP_INTERFACE_STATE_STREAM ∧ sent_on socket_sent (ti_trace ti) = before.

Lemma created_is config ti self memory (s : StreamConnection) :
  StreamConnectionCreate config ti self memory = Some s → alive [] ti → ti_state ti = BDT_TCP_INTERFACE_STATE_STREAM →
  ∃ ti', s = mkStream config ti' 0 memory 0 0 Bdt_TimerHelperInit false 0 0 [] false true false [] [] [] Bdt_TimerHelperInit 0 [] [] ∧
    length memory = recordBufferLength config ∧ alive [] ti' ∧ ti_isCrypto ti' = ti_isCrypto ti ∧ ti_aesKey ti' = ti_aesKey ti ∧
    ti_state ti' = ti_state ti ∧ sent_on socket_sent (ti_trace ti') = sent_on socket_sent (ti_trace ti).
Proof.
  unfold StreamConnectionCreate. intros E Ha Hst. case_guard as Hl; [|done]. cbn [mbind option_bind] in E.
  assert (Es : Bdt_TcpInterfaceSetOwner (Some self) ti = Some (BFX_RESULT_SUCCESS,
    set_trace ((drop_owner (ti_owner ti) ++ [OwnerAddRef self]) ++ ti_trace ti) (set_owner (Some self) ti))).
  { unfold Bdt_TcpInterfaceSetOwner, mbind, M_bind, TcpInterface.get, mread. rewrite decide_False by by rewrite Hst.
    by destruct (ti_owner ti). }
  rewrite Es in E. cbn beta iota in E. injection E as <-. eexists. split; [reflexivity|]. split; [done|].
  destruct (SetOwner_lives [] (Some self) ti Ha) as (r & t & E & Ht). rewrite Es in E. injection E as <- <-.
  split_and!; try done. cbn [ti_trace set_trace]. apply sent_on_quiet. apply Forall_app. split; [|by repeat constructor].
  destruct (ti_owner ti); by repeat constructor.
Qed.

Lemma started_streaming key s : stream_started key s → streaming key [] empty_log s.
Proof.
  intros (config & ti & self & memory & E & Hc & Ha & Hcr & Hk & Hst & Hb).
  destruct (created_is config ti self memory s E Ha Hst) as (ti' & -> & Hm & Ha' & E1 & E2 & E3 & E4).
  split; [split|split|done]; fields; try done; try congruence.
  - left. congruence.
  - exists []. split; [constructor|]. split; [|done]. cbn. rewrite !app_nil_r. congruence.
  - by left.
  - lia.
  - exists []. split; [|done]. split; fields; try done. by left.
  - intros (r & l & Er & _). discriminate Er.
Qed.

(** ** Properties *)



(** ** A request as large as a record *)

(** The stream while the request is sent, and what it is in the end. *)
Definition full_record (config : BdtStreamConnectionConfig) (ti : Bdt_TcpInterface) (record : list Z) (offset pending : nat)
    (recordSize immediates : nat) (item : StreamConnectionSendRequestListItem) (tasks : list Task) : StreamConnection :=
  mkStream config ti 0 record offset pending Bdt_TimerHelperInit false recordSize 0 [item] false true false [] [] []
    Bdt_TimerHelperInit immediates tasks [UserAddRef (si_id item)].

Lemma full_record_posted now later id buffer memory config ti :
  stream_config_ok config → length memory = recordBufferLength config → ti_isCrypto ti = true →
  ti_state ti = BDT_TCP_INTERFACE_STATE_STREAM → length buffer = maxRecordSize config →
  ∃ record, take (aes_length (length buffer) + 2) (drop 30 record) = frame (ti_aesKey ti) buffer ∧
    StreamConnectionSend now later id buffer true
      (mkStream config ti 0 memory 0 0 Bdt_TimerHelperInit false 0 0 [] false true false [] [] [] Bdt_TimerHelperInit 0 [] []) =
    Some (BFX_RESULT_PENDING, full_record config ti record 30 (aes_length (length buffer) + 2) (length buffer) 0
      (mkSendItem id buffer (length buffer) true (length buffer) now) [SendRecord]).
Proof.
  intros Hcf Hm Hcr Hst Hl. pose proof Hcf as [Hmin Hmax _].
  set (item := mkSendItem id buffer (length buffer) true (length buffer) now).
  set (s1 := full_record config ti memory 0 0 (length buffer) 0 item []).
  destruct (send_copied (ti_aesKey ti) s1 [] id buffer (length buffer) now) as (s2 & Erun & rb & E2 & _ & Ef);
    [done|done|done|done|done|constructor|lia|change (sc_config s1) with config; cbn; lia|].
  rewrite firstn_all in E2, Ef. cbn [items_data fmap list_fmap concat app] in E2, Ef. exists rb. split; [exact Ef|].
  unfold StreamConnectionSend, sact. rewrite swrite_bind, sget_bind. fields.
  set (s0 := with_trace _ _).
  assert (Epost : post_request (mkSendItem id buffer (length buffer) true 0 now) s0 = Some ((true, false, length buffer, []), s1)).
  { unfold post_request, set_requests, set_recordSize. rewrite !sget_bind. unfold s0. fields. cbn [si_length si_offset si_id si_buffer si_callback si_postTime].
    rewrite decide_False by tauto. rewrite decide_True by lia. rewrite decide_True by lia. rewrite decide_False by lia.
    rewrite !swrite_bind. fields. rewrite Nat.add_0_l, Nat.sub_0_r, <- Hl, Nat.sub_diag. done. }
  rewrite (M_bind_Some _ _ _ _ _ Epost). cbn beta iota. rewrite decide_True by lia.
  unfold mbind at 1, M_bind at 1. setoid_rewrite Erun. rewrite sassert_bind by done. rewrite E2. done.
Qed.

Lemma full_record_sent config ti record id buffer now :
  alive [] ti → ti_state ti = BDT_TCP_INTERFACE_STATE_STREAM → buffer ≠ [] →
  (aes_length (length buffer) + 2 ≤ socket_sent (length (ti_trace ti)))%nat →
  let pending := (aes_length (length buffer) + 2)%nat in
  let item := mkSendItem id buffer (length buffer) true (length buffer) now in
  ∃ offset, next_task socket_result socket_sent (full_record config ti record 30 pending (length buffer) 0 item [SendRecord]) =
    Some (tt, full_record config (set_trace (SocketSend (take pending (drop 30 record)) :: ti_trace ti) ti) record offset 0 0 1 item []).
Proof.
  intros Ha Hst Hb Hn pending item. set (n := socket_sent (length (ti_trace ti))) in *. exists (30 + n)%nat.
  unfold next_task. rewrite sget_bind. change (sc_tasks _) with [SendRecord]. cbn iota. rewrite swrite_bind. cbn [run_task].
  set (s1 := with_tasks _ _ _). unfold mbind at 1, M_bind at 1.
  rewrite (SendRecord_takes socket_result socket_sent false []); [|done|by change (ti_state ti ≠ BDT_TCP_INTERFACE_STATE_CLOSED); rewrite Hst|done|unfold s1, full_record, pending; fields; lia].
  assert (E : takes_pending socket_sent s1 =
    full_record config (set_trace (SocketSend (take pending (drop 30 record)) :: ti_trace ti) ti) record (30 + n) 0 (length buffer) 0 item []).
  { assert (Ez : (pending - n)%nat = 0%nat) by (unfold pending; lia). unfold takes_pending, s1, full_record. cbv zeta. fields. fold n. rewrite Ez. done. }
  rewrite E. done.
Qed.

(** C29: A request to send of exactly [maxRecordSize] bytes on an idle stream
    is sent whole, but stays in the queue as a request with nothing left: it
    is not called back, and nothing is left that would do it, no task, no
    immediate, no timer and no bytes. *)
Theorem full_record_not_called_back key now later now' id buffer (s0 : StreamConnection) :
  stream_started key s0 → length buffer = maxRecordSize (sc_config s0) →
  (aes_length (length buffer) + 2 ≤ socket_sent (length (ti_trace (sc_tcpInterface s0))))%nat →
  ∃ g s,
    run_ops [OpSend now later id buffer; OpTask; OpSyncSent now'] empty_log s0 = Some (g, s) ∧
    lg_accepted g = [(id, buffer)] ∧
    sent_on socket_sent (ti_trace (sc_tcpInterface s)) = before ++ wire key [buffer] ∧
    ids_of (sc_sendRequests s) = [id] ∧ called (sc_trace s) = [] ∧
    sc_tasks s = [] ∧ sc_immediates s = 0%nat ∧ timerInstance (sc_nagleTimer s) = None ∧
    sc_recordSize s = 0%nat ∧ sc_pendingRecordSize s = 0%nat ∧ sc_sendRequestSize s = 0%nat.
Proof.
  intros (config & ti & self & memory & E & Hc & Ha & Hcr & Hk & Hst & Hb) Hl Hn.
  destruct (created_is config ti self memory s0 E Ha Hst) as (ti' & -> & Hm & Ha' & E1 & E2 & E3 & E4). fields in *.
  destruct (full_record_posted now later id buffer memory config ti') as (record & Ef & Es); [done|done|congruence|congruence|done|].
  pose proof Hc as [Hmin Hmax _].
  assert (Hne : buffer ≠ []) by (intros ->; cbn in Hl; lia).
  destruct (full_record_sent config ti' record id buffer now) as (offset & Et); [done|congruence|done|done|].
  cbn [run_ops run_op]. unfold mbind at 1, M_bind at 1. rewrite (M_bind_Some _ _ _ _ _ Es).
  unfold mret at 1, M_ret at 1. unfold mbind at 1, M_bind at 1. rewrite (M_bind_Some _ _ _ _ _ Et).
  unfold mret at 1, M_ret at 1. unfold mbind at 1, M_bind at 1. rewrite sget_bind.
  change (sc_immediates (full_record _ _ _ _ _ _ 1 _ _)) with 1%nat. cbn iota. rewrite swrite_bind.
  set (s2 := with_tasks _ _ _).
  assert (Ec : StreamConnectionOnSyncSent now' s2 = Some (tt, s2)).
  { unfold StreamConnectionOnSyncSent, StreamConnectionCheckPendingSend. unfold mbind at 1, M_bind at 1, mread at 1.
    assert (En : next_record now' s2 = Some (0%nat, [], sc_sendRequests s2, 0)).
    { unfold next_record. unfold s2, full_record. fields. rewrite decide_False by tauto.
      rewrite bool_decide_eq_false_2 by lia. done. }
    rewrite En. done. }
  rewrite (M_bind_Some _ _ _ _ _ Ec). eexists _, s2. split; [reflexivity|].
  split_and!; try done. unfold s2, full_record. fields. cbn [ti_trace set_trace sent_on]. rewrite E4, Hb. f_equal.
  rewrite Ef. assert (Ew : wire key [buffer] = frame key buffer) by apply app_nil_r. rewrite Ew, E2, Hk. apply take_ge.
  by rewrite frame_length.
Qed.
End theorems.
