(* ===== verification/StreamEnd.v ===== *)
(** * Stream connections: from one end to the other

    A sending stream, the bytes of its socket cut anyhow, the interface that
    unboxes them and the receiving stream, together. *)

From S2P Require Import Prelude CInt Package BufferStream Codec SessionCodec Endpoint PackageFields PackageCodec HandCodec MergedPackages AesPadding Crypto UdpBox TcpInterface TcpUnbox TcpPush TcpBox TcpProofs TcpTheorems TcpLifecycle StreamConnection StreamSend StreamRecv StreamTheorems.

(** The data that is handed to a stream. *)
Definition data_of (ops : list StreamOp) : list (list Z) :=
  omap (λ op, match op with OpData _ data => Some data | _ => None end) ops.

Section logs.
Context {P : PeerInfoOps} {A : AesOps}.
Context (socket_result : nat → Z) (socket_sent : nat → nat).

Lemma bind_inv {X Y} (c : M StreamConnection X) (k : X → M StreamConnection Y) s r :
  (c ≫= k) s = Some r → ∃ x s', c s = Some (x, s') ∧ k x s' = Some r.
Proof. unfold mbind, M_bind. destruct (c s) as [[x s']|]; [|done]. eauto. Qed.

Lemma run_op_arrives op g g' (s s' : StreamConnection) :
  run_op socket_result socket_sent op g s = Some (g', s') →
  lg_ended g = false → Forall (λ d, d ≠ []) (data_of [op]) →
  lg_arrived g' = lg_arrived g ++ concat (data_of [op]) ∧ lg_ended g' = false.
Proof.
  intros E He Hd. assert (Hsame : lg_arrived g = lg_arrived g ++ []) by by rewrite app_nil_r.
  destruct op as [now later id buffer|now id len| | |now data|now|now| |]; cbn [run_op data_of omap list_omap concat] in *.
  - apply bind_inv in E as (r & s1 & _ & [= <- <-]). done.
  - apply bind_inv in E as (r & s1 & _ & [= <- <-]). done.
  - apply bind_inv in E as (r & s1 & _ & [= <- <-]). done.
  - apply bind_inv in E as (r & s1 & _ & [= <- <-]). done.
  - apply bind_inv in E as (r & s1 & _ & [= <- <-]). apply Forall_cons in Hd as [Hd _]. unfold log_data. cbn. rewrite He, app_nil_r.
    by rewrite bool_decide_eq_false_2.
  - apply bind_inv in E as (t & s1 & _ & E). destruct t; [apply bind_inv in E as (r & s2 & _ & [= <- <-])|injection E as <- <-]; done.
  - apply bind_inv in E as (n & s1 & _ & E). destruct n; [injection E as <- <-; done|].
    apply bind_inv in E as (r & s2 & _ & E). apply bind_inv in E as (r' & s3 & _ & [= <- <-]). done.
  - apply bind_inv in E as (t & s1 & _ & E). destruct t; [apply bind_inv in E as (r & s2 & _ & [= <- <-])|injection E as <- <-]; done.
  - apply bind_inv in E as (r & s1 & _ & [= <- <-]). done.
Qed.

Lemma run_ops_arrive ops g g' (s s' : StreamConnection) :
  run_ops socket_result socket_sent ops g s = Some (g', s') →
  lg_ended g = false → Forall (λ d, d ≠ []) (data_of ops) →
  lg_arrived g' = lg_arrived g ++ concat (data_of ops) ∧ lg_ended g' = false.
Proof.
  revert g s. induction ops as [|op ops IH]; intros g s E He Hd; cbn [run_ops] in E.
  { injection E as <- <-. split; [by rewrite app_nil_r|done]. }
  apply bind_inv in E as (g1 & s1 & E1 & E).
  assert (Edata : data_of (op :: ops) = data_of [op] ++ data_of ops) by apply (omap_app _ [op]).
  rewrite Edata in *. apply Forall_app in Hd as [Hd1 Hd2].
  destruct (run_op_arrives op g g1 s s1 E1 He Hd1) as [Ha1 He1]. destruct (IH g1 s1 E He1 Hd2) as [Ha He'].
  split; [|done]. by rewrite Ha, Ha1, concat_app, app_assoc.
Qed.
End logs.

Section stream.
Context {P : PeerInfoOps} {A : AesOps} {AL : AesLaws A} {B : Mbedtls} {St : Type} {K : KeyService St}.
Context (secret junk behind uninit : list Z) (result result' : nat → Z) (sent sent' : nat → nat) (before before' : list Z).
Context (owner_event : nat → Z → TcpEvent → option (list OwnerCall * Z)).
Context (has_container create_container : nat → list Z → bool) (tunnel_first : nat → list Z → AnyPackage → list OwnerCall * Z).

Notation world := (TcpWorld St).

End stream.
