(* ===== verification/StreamDemo.v ===== *)
(** * Stream connections: the theorems at work

    Each theorem about stream connections, applied to concrete streams on the
    interface, the cryptography and the surroundings of [TcpDemo]. *)

From S2P Require Import Prelude CInt Package BufferStream Codec SessionCodec Endpoint PackageFields PackageCodec PackageProofs HandCodec MergedPackages MergedProofs MergedTheorems KeyManager KeyProofs KeyTheorems AesPadding Crypto UdpBox ExchangeProofs UdpProofs UdpTheorems TcpInterface TcpUnbox TcpPush TcpBox TcpProofs TcpTheorems TcpLifecycle TcpSafety TcpDemo StreamConnection StreamSend StreamRecv StreamTheorems StreamEnd.

Module StreamDemo.
Import UdpDemo TcpDemo.

(** Records of 4 to 8 bytes. *)
Definition config : BdtStreamConnectionConfig := mkStreamConfig 4 8 10 50000.
Definition memory : list Z := replicate 72 0.
Definition interface : Bdt_TcpInterface :=
  set_isCrypto true (set_aesKey aes_key (set_state BDT_TCP_INTERFACE_STATE_STREAM (TcpInterfaceCreate false))).
Definition owned : Bdt_TcpInterface := set_trace [OwnerAddRef owner] (set_owner (Some owner) interface).
Definition s0 : StreamConnection :=
  mkStream config owned 0 memory 0 0 Bdt_TimerHelperInit false 0 0 [] false true false [] [] [] Bdt_TimerHelperInit 0 [] [].

(** A socket that takes everything. *)
Definition result (n : nat) : Z := 0.
Definition sent (n : nat) : nat := 100.

Lemma s0_started : stream_started sent [] aes_key s0.
Proof.
  exists config, interface, owner, memory. split; [reflexivity|]. split; [split; cbn; lia|]. split; [|done].
  destruct (alive_state [] (TcpInterfaceCreate false) BDT_TCP_INTERFACE_STATE_STREAM (alive_create false)) as [H1 H2 H3 H4 H5 H6]; [done|done|].
  by split.
Qed.

(** Two requests in one record, a third behind them. *)
Definition sends : list StreamOp :=
  [OpSend 0 0 1 [1; 2]; OpSend 5 5 2 [3; 4; 5]; OpTask; OpSend 6 6 3 [6]; OpTask; OpTask; OpSyncSent 7; OpClose].

Example sends_run :
  match run_ops result sent sends empty_log s0 with
  | Some (g, s) => (called (sc_trace s), sc_sendRequestSize s, timerInstance (sc_nagleTimer s), sc_sendClosed s)
  | None => ([], 0%nat, None, false)
  end = ([2%nat; 1%nat], 1%nat, Some 2, true).
Proof. vm_compute. reflexivity. Qed.


(** A request that gets its bytes in two pieces, and one that waits when the
    stream ends. *)
Definition receives : list StreamOp :=
  [OpRecv 0 1 3; OpData 1 [1; 2]; OpTask; OpData 2 [3; 4]; OpTask; OpTask; OpRecv 3 2 4; OpRecv 3 3 4; OpData 4 []; OpTask; OpTask; OpTask].

Example receives_run :
  match run_ops result sent receives empty_log s0 with
  | Some (g, s) => (reverse (recv_called (sc_trace s)), lg_arrived g)
  | None => ([], [])
  end = ([(1%nat, [1; 2; 3]); (2%nat, [4]); (3%nat, [])], [1; 2; 3; 4]).
Proof. vm_compute. reflexivity. Qed.


Lemma full_record_not_called_back_witness :
  ∃ g s,
    run_ops result sent [OpSend 0 0 1 [1; 2; 3; 4; 5; 6; 7; 8]; OpTask; OpSyncSent 9] empty_log s0 = Some (g, s) ∧
    lg_accepted g = [(1%nat, [1; 2; 3; 4; 5; 6; 7; 8])] ∧
    sent_on sent (ti_trace (sc_tcpInterface s)) = [] ++ wire aes_key [[1; 2; 3; 4; 5; 6; 7; 8]] ∧
    ids_of (sc_sendRequests s) = [1%nat] ∧ called (sc_trace s) = [] ∧
    sc_tasks s = [] ∧ sc_immediates s = 0%nat ∧ timerInstance (sc_nagleTimer s) = None ∧
    sc_recordSize s = 0%nat ∧ sc_pendingRecordSize s = 0%nat ∧ sc_sendRequestSize s = 0%nat.
Proof.
  apply (full_record_not_called_back result sent [] aes_key 0 0 9 1 [1; 2; 3; 4; 5; 6; 7; 8] s0).
  - exact s0_started.
  - reflexivity.
  - apply Nat.leb_le. by vm_compute.
Defined.

(** ** From one end to the other *)

Definition gathers : list StreamOp := [OpSend 0 0 1 [1; 2]; OpSend 5 5 2 [3; 4; 5]; OpTask; OpTask; OpTask].
Definition cuts : list (list Z) := [take 1 (wire aes_key [[1; 2; 3; 4; 5]]); drop 1 (wire aes_key [[1; 2; 3; 4; 5]])].

Definition all_sent (o : option (StreamLog * StreamConnection)) : bool :=
  match o with
  | Some (_, s) => bool_decide (sc_pendingRecordSize s = 0%nat) &&
                   bool_decide (sent_on sent (ti_trace (sc_tcpInterface s)) = concat cuts)
  | None => false
  end.

Lemma gathers_sent : all_sent (run_ops result sent gathers empty_log s0) = true.
Proof. by vm_compute. Qed.

Lemma gathered :
  ∃ g s, run_ops result sent gathers empty_log s0 = Some (g, s) ∧ sc_pendingRecordSize s = 0%nat ∧
    sent_on sent (ti_trace (sc_tcpInterface s)) = [] ++ concat cuts.
Proof.
  pose proof gathers_sent as E. destruct (run_ops result sent gathers empty_log s0) as [[g s]|]; [|discriminate E].
  exists g, s. split; [done|]. apply andb_true_iff in E as [E1%bool_decide_eq_true_1 E2%bool_decide_eq_true_1]. by split.
Qed.

Definition reads : list StreamOp := [OpRecv 0 7 9; OpData 1 [1; 2; 3; 4; 5]].

End StreamDemo.
