(* ===== verification/ConnectionManager.v ===== *)
(** * The connection manager

    Models [BDTCore/Connection/ConnectionManager.imp.inl]: the connections by
    their ids, the passive connections by what the remote peer calls them, the
    listeners by their ports, and who accepts a passive connection.  The three
    tables are red-black trees ([SgTree]) with the comparators of the file;
    nodes and connections are numbered by the order of their allocation.  A
    connection is in the store until its last reference is given back: what
    touches it then is a fault.  [BDTCore/Global/IdCreator.imp.inl] makes the
    ids.

    Connections themselves are a part of their own: what one does with a
    package ([conn_push]: the result, and whether it removes itself from the
    manager) is a parameter, by the length of the trace, and so is whether a
    user keeps the connection it is given ([keeps]).  The trace, newest
    first, is what the manager asks of others; what else a user does in a
    callback are calls of its own.  Tunnel containers, names, configurations and what a
    connection does when it is finished are not modelled; the locks are not
    either, every function is one step. *)

From S2P Require Import Prelude CInt RecvQueue Package BufferStream Codec SessionCodec Endpoint SgTree.

(** ** Ids ([IdCreator.imp.inl]) *)

Definition BDT_UINT32_ID_INVALID_VALUE : Z := 0.
Definition BFX_RESULT_OUTOFMEMORY : Z := 3.

(** The next value, which is also the answer. *)
Definition Bdt_Uint32IdCreatorNext (curValue : Z) : Z :=
  if decide (curValue = 2 ^ 31 - 1) then BDT_UINT32_ID_INVALID_VALUE + 1 else curValue + 1.

(** ** The data *)

(** [cn_peer] is the address of the peer's id, [cn_refCount] never 0. *)
Record BdtConnection := mkConnection {
  cn_refCount : Z;
  cn_peer : Z;
  cn_id : Z;
  cn_connectSeq : Z;
  cn_remoteId : Z;
  cn_passive : bool;
  cn_firstQuestion : option (list Z) }.

Record BdtIdConnectionMap := mkIdMap { im_addr : Z; im_id : Z; im_connection : nat }.
Record BdtRemoteSeqConnectionMap := mkSeqMap { sm_addr : Z; sm_peerid : Z; sm_seq : Z; sm_connection : nat }.
Record BdtConnectionListenerMap := mkListenerMap { lm_addr : Z; lm_port : Z; lm_listener : nat }.

(** A listener; the requests are numbered by their callers. *)
Record BdtConnectionListener := mkListener {
  ls_refCount : Z;
  ls_port : Z;
  ls_backlog : list nat;
  ls_acceptRequests : list nat }.

Inductive ManagerAction :=
  | Offered (listener c : nat)
  | AddRefUser (listener request : nat)
  | Accepted (listener request c : nat) (question : list Z)
  | Kept (c : nat)
  | ReleasedUser (request : nat)
  | Uninited (c : nat)
  | Pushed (c : nat)
  | AcceptedReverse (c : nat).

(** Packages by their type; of a TCP SYN what the manager reads. *)
Inductive ManagerPackage :=
  | SessionData (p : SessionPackage)
  | TcpSynConnection (toVPort fromPeerid fromSessionId seq : Z) (payload : list Z)
  | OtherPackage.

Section manager.
(** The 20 bytes behind [peerid] and [seq] in a node: padding, the pointer to
    the connection and what lies behind the node. *)
Context (behind : BdtRemoteSeqConnectionMap → list Z).

Definition id_map_compare (left right : BdtIdConnectionMap) : Z :=
  if decide (im_id left = im_id right) then 0 else if decide (im_id right < im_id left) then 1 else -1.

(** The 32 bytes from [&peerid] on: a pointer, [seq] and the rest. *)
Definition seq_map_bytes (n : BdtRemoteSeqConnectionMap) : list Z :=
  le_bytes 8 (sm_peerid n) ++ le_bytes 4 (sm_seq n) ++ take 20 (behind n ++ replicate 20 0).

(** A field has 32 bits. *)
Definition remote_seq_map_compare (left right : BdtRemoteSeqConnectionMap) : Z :=
  let result := memcmp (seq_map_bytes left) (seq_map_bytes right) in
  if decide (result = 0) then result
  else if decide (u32 (sm_seq left) = u32 (sm_seq right)) then 0
  else if decide (u32 (sm_seq right) < u32 (sm_seq left)) then 1 else -1.

Definition connection_listener_map_compare (left right : BdtConnectionListenerMap) : Z :=
  if decide (lm_port right < lm_port left) then 1 else if decide (lm_port left < lm_port right) then -1 else 0.

Record Bdt_ConnectionManager := mkManager {
  mg_acceptBacklog : nat;
  mg_curId : Z;
  mg_connections : gmap nat BdtConnection;
  mg_created : nat;
  mg_addresses : Z;
  mg_idEntry : rbtree BdtIdConnectionMap;
  mg_passiveEntry : rbtree BdtRemoteSeqConnectionMap;
  mg_listenerMap : rbtree BdtConnectionListenerMap;
  mg_listeners : gmap nat BdtConnectionListener;
  mg_listening : nat;
  mg_trace : list ManagerAction }.

(** An empty manager. *)
Definition Bdt_ConnectionManagerCreate (backlog : nat) (curId : Z) : Bdt_ConnectionManager :=
  mkManager backlog curId ∅ 0 1 Leaf Leaf Leaf ∅ 0 [].

Notation MM := (M Bdt_ConnectionManager).

Definition mget {X} (f : Bdt_ConnectionManager → X) : MM X := mread (λ m, Some (f m)).
Definition from {X} (f : Bdt_ConnectionManager → option X) : MM X := mread f.

Definition set_ids (curId : Z) (m : Bdt_ConnectionManager) : Bdt_ConnectionManager :=
  mkManager (mg_acceptBacklog m) curId (mg_connections m) (mg_created m) (mg_addresses m) (mg_idEntry m) (mg_passiveEntry m)
    (mg_listenerMap m) (mg_listeners m) (mg_listening m) (mg_trace m).
Definition set_connections (connections : gmap nat BdtConnection) (created : nat) (m : Bdt_ConnectionManager) : Bdt_ConnectionManager :=
  mkManager (mg_acceptBacklog m) (mg_curId m) connections created (mg_addresses m) (mg_idEntry m) (mg_passiveEntry m)
    (mg_listenerMap m) (mg_listeners m) (mg_listening m) (mg_trace m).
Definition set_addresses (addresses : Z) (m : Bdt_ConnectionManager) : Bdt_ConnectionManager :=
  mkManager (mg_acceptBacklog m) (mg_curId m) (mg_connections m) (mg_created m) addresses (mg_idEntry m) (mg_passiveEntry m)
    (mg_listenerMap m) (mg_listeners m) (mg_listening m) (mg_trace m).
(** What [idLock] protects. *)
Definition set_idEntry (ids : rbtree BdtIdConnectionMap) (m : Bdt_ConnectionManager) : Bdt_ConnectionManager :=
  mkManager (mg_acceptBacklog m) (mg_curId m) (mg_connections m) (mg_created m) (mg_addresses m) ids (mg_passiveEntry m)
    (mg_listenerMap m) (mg_listeners m) (mg_listening m) (mg_trace m).
Definition set_passiveEntry (seqs : rbtree BdtRemoteSeqConnectionMap) (m : Bdt_ConnectionManager) : Bdt_ConnectionManager :=
  mkManager (mg_acceptBacklog m) (mg_curId m) (mg_connections m) (mg_created m) (mg_addresses m) (mg_idEntry m) seqs
    (mg_listenerMap m) (mg_listeners m) (mg_listening m) (mg_trace m).
(** What [listenerMapLock] protects. *)
Definition set_listenerMap (ports : rbtree BdtConnectionListenerMap) (m : Bdt_ConnectionManager) : Bdt_ConnectionManager :=
  mkManager (mg_acceptBacklog m) (mg_curId m) (mg_connections m) (mg_created m) (mg_addresses m) (mg_idEntry m) (mg_passiveEntry m)
    ports (mg_listeners m) (mg_listening m) (mg_trace m).
Definition set_listeners (listeners : gmap nat BdtConnectionListener) (listening : nat) (m : Bdt_ConnectionManager) : Bdt_ConnectionManager :=
  mkManager (mg_acceptBacklog m) (mg_curId m) (mg_connections m) (mg_created m) (mg_addresses m) (mg_idEntry m) (mg_passiveEntry m)
    (mg_listenerMap m) listeners listening (mg_trace m).
Definition set_mtrace (trace : list ManagerAction) (m : Bdt_ConnectionManager) : Bdt_ConnectionManager :=
  mkManager (mg_acceptBacklog m) (mg_curId m) (mg_connections m) (mg_created m) (mg_addresses m) (mg_idEntry m) (mg_passiveEntry m)
    (mg_listenerMap m) (mg_listeners m) (mg_listening m) trace.

Definition mact (a : ManagerAction) : MM unit := mwrite (λ m, set_mtrace (a :: mg_trace m) m).

(** [BFX_MALLOC_OBJ] of a node. *)
Definition malloc : MM Z :=
  addr ← mget mg_addresses;
  mwrite (set_addresses (addr + 1)) ;;
  mret addr.

(** ** Connections ([Connection.imp.inl]) *)

Definition the_connection (c : nat) : MM BdtConnection := from (λ m, mg_connections m !! c).
Definition put_connection (c : nat) (connection : BdtConnection) : MM unit :=
  mwrite (λ m, set_connections (<[c := connection]> (mg_connections m)) (mg_created m) m).

Definition set_refs (n : Z) (c : BdtConnection) : BdtConnection :=
  mkConnection n (cn_peer c) (cn_id c) (cn_connectSeq c) (cn_remoteId c) (cn_passive c) (cn_firstQuestion c).
Definition set_question (q : option (list Z)) (c : BdtConnection) : BdtConnection :=
  mkConnection (cn_refCount c) (cn_peer c) (cn_id c) (cn_connectSeq c) (cn_remoteId c) (cn_passive c) q.

Definition BdtAddRefConnection (c : nat) : MM unit :=
  connection ← the_connection c;
  put_connection c (set_refs (cn_refCount connection + 1) connection).

Definition BdtReleaseConnection (c : nat) : MM unit :=
  connection ← the_connection c;
  let refCount := cn_refCount connection - 1 in
  if decide (refCount ≤ 0) then
    mwrite (λ m, set_connections (delete c (mg_connections m)) (mg_created m) m) ;;
    mact (Uninited c)
  else put_connection c (set_refs refCount connection).

Definition ConnectionCreate (peer id connectSeq remoteId : Z) (passive : bool) : MM nat :=
  c ← mget mg_created;
  mwrite (λ m, set_connections (<[c := mkConnection 1 peer id connectSeq remoteId passive None]> (mg_connections m)) (S c) m) ;;
  mret c.

(** Only the first is kept. *)
Definition ConnectionSetFirstQuestion (c : nat) (question : list Z) : MM unit :=
  connection ← the_connection c;
  match cn_firstQuestion connection with
  | Some _ => mret tt
  | None => put_connection c (set_question (Some question) connection)
  end.

Definition next_id : MM Z :=
  cur ← mget mg_curId;
  let id := Bdt_Uint32IdCreatorNext cur in
  mwrite (set_ids id) ;;
  mret id.

(** ** Listeners *)

Definition the_listener (l : nat) : MM BdtConnectionListener := from (λ m, mg_listeners m !! l).
Definition put_listener (l : nat) (listener : BdtConnectionListener) : MM unit :=
  mwrite (λ m, set_listeners (<[l := listener]> (mg_listeners m)) (mg_listening m) m).

Definition BdtCreateConnectionListener (port : Z) : MM nat :=
  l ← mget mg_listening;
  mwrite (λ m, set_listeners (<[l := mkListener 1 port [] []]> (mg_listeners m)) (S l) m) ;;
  mret l.

(** Nothing is done with the last reference. *)
Definition BdtConnectionListenerAddRef (l : nat) : MM unit :=
  listener ← the_listener l;
  put_listener l (mkListener (ls_refCount listener + 1) (ls_port listener) (ls_backlog listener) (ls_acceptRequests listener)).
Definition BdtConnectionListenerRelease (l : nat) : MM unit :=
  listener ← the_listener l;
  put_listener l (mkListener (ls_refCount listener - 1) (ls_port listener) (ls_backlog listener) (ls_acceptRequests listener)).

(** The listener of a port, with a reference. *)
Definition find_listener (port : Z) : MM (option nat) :=
  ports ← mget mg_listenerMap;
  match find_member connection_listener_map_compare ports (mkListenerMap 0 port 0) with
  | Some found => BdtConnectionListenerAddRef (lm_listener found) ;; mret (Some (lm_listener found))
  | None => mret None
  end.

(** ** Looking connections up *)

Definition Bdt_GetConnectionById (id : Z) : MM (option nat) :=
  ids ← mget mg_idEntry;
  match find_member id_map_compare ids (mkIdMap 0 id 0) with
  | Some found => BdtAddRefConnection (im_connection found) ;; mret (Some (im_connection found))
  | None => mret None
  end.

Definition Bdt_GetConnectionByRemoteSeq (peerid seq : Z) : MM (option nat) :=
  seqs ← mget mg_passiveEntry;
  match find_member remote_seq_map_compare seqs (mkSeqMap 0 peerid seq 0) with
  | Some found => BdtAddRefConnection (sm_connection found) ;; mret (Some (sm_connection found))
  | None => mret None
  end.

(** ** Adding and removing connections *)

Definition add_id (addr : Z) (c : nat) : MM unit :=
  connection ← the_connection c;
  ids ← from (λ m, sglib_add im_addr id_map_compare (mg_idEntry m) (mkIdMap addr (cn_id connection) c));
  mwrite (set_idEntry ids).

(** [seq] is the next of the tunnel container. *)
Definition Bdt_AddActiveConnection (remote seq : Z) : MM nat :=
  id ← next_id;
  c ← ConnectionCreate remote id seq BDT_UINT32_ID_INVALID_VALUE false;
  toAddId ← malloc;
  add_id toAddId c ;;
  BdtAddRefConnection c ;;
  mret c.

(** A node of the tree is written. *)
Fixpoint write_node {X} (addr : X → Z) (new : X) (t : rbtree X) : rbtree X :=
  match t with
  | Leaf => Leaf
  | Node c l x r => Node c (write_node addr new l) (if decide (addr x = addr new) then new else x) (write_node addr new r)
  end.

(** A connection that is not there yet: the node is in the tree before it has
    a connection. *)
Definition new_passive (peer_of : nat → Z) (toAddId toAddPassive remote remoteId seq : Z) : MM nat :=
  seqs ← from (λ m, sglib_add sm_addr remote_seq_map_compare (mg_passiveEntry m) (mkSeqMap toAddPassive remote seq 0));
  mwrite (set_passiveEntry seqs) ;;
  id ← next_id;
  c ← ConnectionCreate remote id seq remoteId true;
  mwrite (λ m, set_passiveEntry (write_node sm_addr (mkSeqMap toAddPassive (peer_of c) seq c) (mg_passiveEntry m)) m) ;;
  add_id toAddId c ;;
  BdtAddRefConnection c ;;
  mret c.

(** The result, the connection and the listener: each has a reference.
    [peer_of] is the address of the id in a connection. *)
Definition Bdt_AddPassiveConnection (peer_of : nat → Z) (port remote remoteId seq : Z) (firstQuestion : list Z) :
    MM (Z * option nat * option nat) :=
  found ← find_listener port;
  match found with
  | None => mret (BFX_RESULT_NOT_FOUND, None, None)
  | Some l =>
      listener ← the_listener l;
      backlog ← mget mg_acceptBacklog;
      if decide (backlog < length (ls_backlog listener))%nat then
        BdtConnectionListenerRelease l ;;
        mret (BFX_RESULT_OUTOFMEMORY, None, None)
      else
        toAddId ← malloc;
        toAddPassive ← malloc;
        seqs ← mget mg_passiveEntry;
        match find_member remote_seq_map_compare seqs (mkSeqMap toAddPassive remote seq 0) with
        | Some found =>
            BdtAddRefConnection (sm_connection found) ;;
            BdtConnectionListenerRelease l ;;
            mret (BFX_RESULT_ALREADY_EXISTS, Some (sm_connection found), None)
        | None =>
            c ← new_passive peer_of toAddId toAddPassive remote remoteId seq;
            ConnectionSetFirstQuestion c firstQuestion ;;
            mret (BFX_RESULT_SUCCESS, Some c, Some l)
        end
  end.

Definition delete_passive (peer_of : nat → Z) (c : nat) : MM unit :=
  connection ← the_connection c;
  seqs ← mget mg_passiveEntry;
  match find_member remote_seq_map_compare seqs (mkSeqMap 0 (peer_of c) (cn_connectSeq connection) 0) with
  | Some found =>
      seqs ← from (λ m, sglib_delete sm_addr remote_seq_map_compare (mg_passiveEntry m) found);
      mwrite (set_passiveEntry seqs)
  | None => mret tt
  end.

Definition Bdt_RemoveConnection (peer_of : nat → Z) (c : nat) : MM Z :=
  connection ← the_connection c;
  ids ← mget mg_idEntry;
  let foundId := find_member id_map_compare ids (mkIdMap 0 (cn_id connection) 0) in
  match foundId with
  | Some found =>
      ids ← from (λ m, sglib_delete im_addr id_map_compare (mg_idEntry m) found);
      mwrite (set_idEntry ids)
  | None => mret tt
  end ;;
  (if cn_passive connection then delete_passive peer_of c else mret tt) ;;
  match foundId with
  | Some found => BdtReleaseConnection (im_connection found)
  | None => mret tt
  end ;;
  mret BFX_RESULT_SUCCESS.

(** ** Accepting *)

(** Whether the user keeps the connection a callback gives it: it takes a
    reference from inside of the callback. *)
Context (keeps : nat → bool).

Definition CallbackAccept (l c request : nat) : MM Z :=
  connection ← the_connection c;
  question ← from (λ _, cn_firstQuestion connection);
  n ← mget (λ m, length (mg_trace m));
  mact (Accepted l request c question) ;;
  (if keeps n then BdtAddRefConnection c ;; mact (Kept c) else mret tt) ;;
  mact (ReleasedUser request) ;;
  mret BFX_RESULT_SUCCESS.

Definition Bdt_FirePreAcceptConnection (l c : nat) : MM Z :=
  mact (Offered l c) ;;
  listener ← the_listener l;
  match ls_acceptRequests listener with
  | request :: requests =>
      put_listener l (mkListener (ls_refCount listener) (ls_port listener) (ls_backlog listener) requests) ;;
      _ ← CallbackAccept l c request;
      mret BFX_RESULT_SUCCESS
  | [] =>
      BdtAddRefConnection c ;;
      put_listener l (mkListener (ls_refCount listener) (ls_port listener) (ls_backlog listener ++ [c]) []) ;;
      mret BFX_RESULT_SUCCESS
  end.

Definition BdtListenConnection (port : Z) : MM Z :=
  ports ← mget mg_listenerMap;
  match find_member connection_listener_map_compare ports (mkListenerMap 0 port 0) with
  | Some _ => mret tt
  | None =>
      addr ← malloc;
      l ← BdtCreateConnectionListener port;
      ports ← from (λ m, sglib_add lm_addr connection_listener_map_compare (mg_listenerMap m) (mkListenerMap addr port l));
      mwrite (set_listenerMap ports)
  end ;;
  mret BFX_RESULT_SUCCESS.

Definition BdtAcceptConnection (port : Z) (request : nat) : MM Z :=
  found ← find_listener port;
  match found with
  | None => mret BFX_RESULT_NOT_FOUND
  | Some l =>
      mact (AddRefUser l request) ;;
      listener ← the_listener l;
      match ls_acceptRequests listener, ls_backlog listener with
      | [], c :: backlog =>
          put_listener l (mkListener (ls_refCount listener) (ls_port listener) backlog []) ;;
          _ ← CallbackAccept l c request;
          BdtReleaseConnection c
      | requests, backlog =>
          put_listener l (mkListener (ls_refCount listener) (ls_port listener) backlog (requests ++ [request]))
      end ;;
      BdtConnectionListenerRelease l ;;
      mret BFX_RESULT_SUCCESS
  end.

(** ** Packages *)

Context (conn_push : nat → Z * bool).

Definition Bdt_AddReverseConnectStreamConnection (peer_of : nat → Z) (toVPort fromPeerid fromSessionId seq : Z) (payload : list Z) : MM Z :=
  '(_, connection, listener) ← Bdt_AddPassiveConnection peer_of toVPort fromPeerid fromSessionId seq payload;
  match listener, connection with
  | Some l, Some c =>
      mact (AcceptedReverse c) ;;
      _ ← Bdt_FirePreAcceptConnection l c;
      BdtConnectionListenerRelease l
  | _, _ => mret tt
  end ;;
  match connection with Some c => BdtReleaseConnection c | None => mret tt end ;;
  mret BFX_RESULT_SUCCESS.

(** What a connection does with a package: it may remove itself. *)
Definition Bdt_ConnectionPushPackage (peer_of : nat → Z) (c : nat) : MM Z :=
  n ← mget (λ m, length (mg_trace m));
  mact (Pushed c) ;;
  let '(result, removes) := conn_push n in
  (if removes : bool then _ ← Bdt_RemoveConnection peer_of c; mret tt else mret tt) ;;
  mret result.

(** Which connection gets a session data package, new or not. *)
Definition connection_of (peer_of : nat → Z) (p : SessionPackage) (remote : Z) : MM (Z * option nat * option nat) :=
  let syn := has_flag (sp_cmdflags p) BDT_SESSIONDATA_PACKAGE_FLAG_SYN in
  let ack := has_flag (sp_cmdflags p) BDT_SESSIONDATA_PACKAGE_FLAG_ACK in
  if syn && negb ack then
    part ← from (λ _, sp_synPart p);
    found ← Bdt_GetConnectionByRemoteSeq remote (sy_synSeq part);
    match found with
    | Some c => mret (BFX_RESULT_SUCCESS, Some c, None)
    | None => Bdt_AddPassiveConnection peer_of (sy_toVPort part) remote (sy_fromSessionId part) (sy_synSeq part) (default [] (sp_payload p))
    end
  else
    found ← Bdt_GetConnectionById (if syn && ack then sp_toSessionId p else sp_sessionId p);
    mret (BFX_RESULT_SUCCESS, found, None).

Definition push_session (peer_of : nat → Z) (p : SessionPackage) (remote : Z) : MM Z :=
  '(result, connection, listener) ← connection_of peer_of p remote;
  match connection with
  | Some c =>
      result ← Bdt_ConnectionPushPackage peer_of c;
      result ← match listener with
               | Some l =>
                   result ← Bdt_FirePreAcceptConnection l c;
                   BdtConnectionListenerRelease l ;;
                   mret result
               | None => mret result
               end;
      BdtReleaseConnection c ;;
      mret result
  | None => mret result
  end.

(** [remote] is the address of the id of the container's peer. *)
Definition Bdt_ConnectionManagerPushPackage (peer_of : nat → Z) (package : ManagerPackage) (remote : Z) : MM Z :=
  match package with
  | SessionData p => push_session peer_of p remote
  | TcpSynConnection toVPort fromPeerid fromSessionId seq payload =>
      Bdt_AddReverseConnectStreamConnection peer_of toVPort fromPeerid fromSessionId seq payload
  | OtherPackage => mret BFX_RESULT_INVALID_PARAM
  end.
End manager.
