(* ===== verification/ManagerProofs.v ===== *)
(** * The tables of the connection manager

    The comparators are orders by a key, whatever the bytes are that the one of
    the passive connections compares; the trees under them are tables; and the
    invariant of the manager: who holds references to which connection, and
    what every operation does to it. *)

From S2P Require Import Prelude CInt RecvQueue Package BufferStream Codec SessionCodec Endpoint SgTree ConnectionManager.

(** ** Trees ordered by a key *)

Section keyed.
Context {X : Type} (key : X → Z) (addr : X → Z) (cmp : X → X → Z).

Definition by_key : Prop := ∀ x y, cmp x y = if decide (key x = key y) then 0 else if decide (key y < key x) then 1 else -1.

Context (Hkey : by_key).

Lemma by_key_laws : CmpLaws cmp.
Proof using Hkey.
  split.
  - intros x y. rewrite !Hkey. repeat case_decide; lia.
  - intros x y z. rewrite !Hkey. repeat case_decide; lia.
Qed.

Lemma by_key_eq x y : cmp x y = 0 ↔ key x = key y.
Proof using Hkey. rewrite Hkey. repeat case_decide; lia. Qed.

Lemma find_key t x :
  well_formed addr cmp t →
  match find_member cmp t x with
  | Some y => y ∈ elems t ∧ key y = key x
  | None => key x ∉ key <$> elems t
  end.
Proof using Hkey.
  intros (Ho & _). pose proof (@find_member_spec _ addr cmp by_key_laws t x Ho) as Hf.
  destruct (find_member cmp t x) as [y|].
  - destruct Hf as [Hy E]. split; [done|]. symmetry. by apply by_key_eq.
  - intros (y & E & Hy)%list_elem_of_fmap. by apply (Hf y Hy), by_key_eq.
Qed.

(** The only node with a key. *)
Lemma find_only t x y :
  well_formed addr cmp t → NoDup (key <$> elems t) → y ∈ elems t → key y = key x → find_member cmp t x = Some y.
Proof using Hkey.
  intros Hw Hn Hy E. pose proof (find_key t x Hw) as Hf. destruct (find_member cmp t x) as [z|].
  - destruct Hf as [Hz Ez]. f_equal. apply list_elem_of_lookup in Hy as [i Hi]. apply list_elem_of_lookup in Hz as [j Hj].
    assert (i = j) as ->; [|congruence].
    eapply NoDup_lookup; [exact Hn| |]; rewrite list_lookup_fmap; [rewrite Hi|rewrite Hj]; cbn; [reflexivity|congruence].
  - exfalso. apply Hf. rewrite <- E. by apply list_elem_of_fmap_2.
Qed.

Lemma add_key t x :
  well_formed addr cmp t → addr x ∉ addr <$> elems t →
  ∃ t', sglib_add addr cmp t x = Some t' ∧ well_formed addr cmp t' ∧ elems t' ≡ₚ x :: elems t.
Proof using Hkey. apply (@sglib_add_spec _ addr cmp by_key_laws). Qed.

Lemma delete_key t x :
  well_formed addr cmp t → x ∈ elems t →
  ∃ t', sglib_delete addr cmp t x = Some t' ∧ well_formed addr cmp t' ∧ elems t ≡ₚ x :: elems t'.
Proof using Hkey. apply (@sglib_delete_spec _ addr cmp by_key_laws). Qed.

(** A node that is written in place with the same key. *)
Lemma write_node_elems new t : elems (write_node addr new t) = (λ x, if decide (addr x = addr new) then new else x) <$> elems t.
Proof. induction t as [|c l IHl x r IHr]; [done|]. cbn. by rewrite IHl, IHr, fmap_app, fmap_cons. Qed.

Lemma before_key x y x' y' : key x = key x' → key y = key y' → addr x = addr x' → addr y = addr y' →
  before addr cmp x y = before addr cmp x' y'.
Proof using Hkey. intros E1 E2 E3 E4. unfold before. by rewrite !Hkey, E1, E2, E3, E4. Qed.

Lemma write_node_well new t :
  well_formed addr cmp t → (∀ x, x ∈ elems t → addr x = addr new → key x = key new) → well_formed addr cmp (write_node addr new t).
Proof using Hkey.
  intros (Ho & Hn & Hr & n & Hb) Hsame. set (f := λ x, if decide (addr x = addr new) then new else x).
  assert (Hf : ∀ x, x ∈ elems t → key (f x) = key x ∧ addr (f x) = addr x).
  { intros x Hx. unfold f. case_decide as E; [|done]. split; [symmetry; by apply Hsame|done]. }
  split; [|split; [|split]].
  - rewrite write_node_elems. fold f. unfold ordered in *. clear -Ho Hf Hkey.
    induction Ho as [|x l Hl IH Hx]; [constructor|]. rewrite fmap_cons. constructor.
    + apply IH. intros y Hy. apply Hf. by right.
    + apply Forall_fmap. apply Forall_forall. intros y Hy. rewrite Forall_forall in Hx. specialize (Hx y Hy).
      destruct (Hf x ltac:(by left)), (Hf y ltac:(by right)). rewrite <- Hx. by apply before_key.
  - rewrite write_node_elems, <- list_fmap_compose. fold f.
    replace (addr ∘ f <$> elems t) with (addr <$> elems t); [done|]. apply list_fmap_ext. intros i x Hx.
    destruct (Hf x); [by eapply list_elem_of_lookup_2|done].
  - by destruct t.
  - exists n. clear -Hb. revert n Hb. induction t as [|c l IHl x r IHr]; intros n Hb; [done|].
    assert (Hred : ∀ t : rbtree X, is_red (write_node addr new t) = is_red t) by by intros [].
    destruct c; cbn in *.
    + rewrite !Hred. destruct Hb as (H1 & H2 & H3 & H4). auto.
    + destruct n; [done|]. destruct Hb. auto.
Qed.
End keyed.

(** ** The comparators *)

Lemma id_compare_key : by_key im_id id_map_compare.
Proof. intros x y. done. Qed.

Lemma listener_compare_key : by_key lm_port connection_listener_map_compare.
Proof. intros x y. unfold connection_listener_map_compare. repeat case_decide; lia. Qed.

Lemma seq_map_bytes_length behind n : length (seq_map_bytes behind n) = 32%nat.
Proof. unfold seq_map_bytes. rewrite !length_app, !length_le_bytes, length_take, length_app, length_replicate. lia. Qed.

(** Only [seq] counts: when the bytes are equal it is equal too. *)
Lemma seq_compare_key behind : by_key (λ n, u32 (sm_seq n)) (remote_seq_map_compare behind).
Proof.
  intros x y. unfold remote_seq_map_compare. case_decide as E; [|done]. rewrite E. rewrite decide_True; [done|].
  apply memcmp_eq in E; [|by rewrite !seq_map_bytes_length]. unfold seq_map_bytes in E.
  apply app_inj_1 in E as [_ E]; [|by rewrite !length_le_bytes]. apply app_inj_1 in E as [E _]; [|by rewrite !length_le_bytes].
  apply (f_equal le_val) in E. by rewrite !le_val_bytes in E.
Qed.

(** ** Ids *)

(** The value of the creator after so many ids. *)
Definition id_after (init : Z) (n : nat) : Z := (init - 1 + Z.of_nat n) mod (2 ^ 31 - 1) + 1.

Lemma id_after_next init n : Bdt_Uint32IdCreatorNext (id_after init n) = id_after init (S n).
Proof.
  unfold Bdt_Uint32IdCreatorNext, id_after, BDT_UINT32_ID_INVALID_VALUE. set (p := 2 ^ 31 - 1).
  assert (Hp : 1 < p) by (unfold p; lia). rewrite Nat2Z.inj_succ.
  replace (init - 1 + Z.succ (Z.of_nat n)) with (init - 1 + Z.of_nat n + 1) by lia. set (a := init - 1 + Z.of_nat n).
  rewrite <- (Zplus_mod_idemp_l a 1 p). pose proof (Z.mod_pos_bound a p ltac:(lia)).
  case_decide as E.
  - replace (a mod p + 1) with p by lia. by rewrite Z.mod_same by lia.
  - rewrite (Z.mod_small (a mod p + 1)); [done|]. unfold p in *. lia.
Qed.

Lemma id_after_inj init i j : Z.of_nat i < 2 ^ 31 - 1 → Z.of_nat j < 2 ^ 31 - 1 → id_after init i = id_after init j → i = j.
Proof.
  intros Hi Hj E. unfold id_after in E. set (p := 2 ^ 31 - 1) in *.
  assert (E' : (init - 1 + Z.of_nat i) mod p = (init - 1 + Z.of_nat j) mod p) by lia.
  assert (Hd : (Z.of_nat i - Z.of_nat j) mod p = 0).
  { replace (Z.of_nat i - Z.of_nat j) with ((init - 1 + Z.of_nat i) - (init - 1 + Z.of_nat j)) by lia.
    rewrite Zminus_mod, E', Z.sub_diag. done. }
  apply Z.mod_divide in Hd as [k Hk]; [|unfold p; lia]. assert (k = 0) by (unfold p in *; nia). lia.
Qed.

(** ** Counting references *)

Definition occ (c : nat) (l : list nat) : nat := length (filter (c =.) l).
#[global] Arguments occ : simpl never.

Lemma occ_cons c d l : occ c (d :: l) = ((if decide (c = d) then 1 else 0) + occ c l)%nat.
Proof. unfold occ. rewrite filter_cons. by destruct (decide (c = d)). Qed.
Lemma occ_app c l1 l2 : occ c (l1 ++ l2) = (occ c l1 + occ c l2)%nat.
Proof. unfold occ. by rewrite filter_app, length_app. Qed.
#[global] Instance occ_perm c : Proper ((≡ₚ) ==> (=)) (occ c).
Proof. intros l1 l2 E. unfold occ. by rewrite E. Qed.
Lemma occ_pos c l : (0 < occ c l)%nat ↔ c ∈ l.
Proof.
  induction l as [|d l IH]; [unfold occ; cbn; split; [lia|by intros ?%elem_of_nil]|]. rewrite occ_cons, elem_of_cons, <- IH. case_decide; [split; [by left|lia]|].
  split; [right; lia|intros [?|?]; [done|lia]].
Qed.

(** ** The invariant of the tables *)

Section tables.
Context (behind : BdtRemoteSeqConnectionMap → list Z).

Notation MM := (M Bdt_ConnectionManager).
Implicit Types (m : Bdt_ConnectionManager) (E : list nat).

Lemma mget_bind {X Y} (f : Bdt_ConnectionManager → X) (k : X → MM Y) m : (mget f ≫= k) m = k (f m) m.
Proof. done. Qed.
Lemma mset_bind {Y} f (k : unit → MM Y) m : (mwrite f ≫= k) m = k tt (f m).
Proof. done. Qed.
Lemma mact_bind {Y} a (k : unit → MM Y) m : (mact a ≫= k) m = k tt (set_mtrace (a :: mg_trace m) m).
Proof. done. Qed.
Lemma malloc_bind {Y} (k : Z → MM Y) m : (malloc ≫= k) m = k (mg_addresses m) (set_addresses (mg_addresses m + 1) m).
Proof. done. Qed.
Lemma from_bind {X Y} (f : Bdt_ConnectionManager → option X) x (k : X → MM Y) m : f m = Some x → (from f ≫= k) m = k x m.
Proof. intros E. unfold from, mread, mbind, M_bind. by rewrite E. Qed.

(** The connections that the manager knows by their ids. *)
Definition registered m : list nat := im_connection <$> elems (mg_idEntry m).

(** The connections that were finished. *)
Definition uninited (trace : list ManagerAction) : list nat :=
  omap (λ a, match a with Uninited c => Some c | _ => None end) trace.

(** [E]: who else has a reference to which connection. *)
Record tables_ok (init : Z) (E : list nat) (m : Bdt_ConnectionManager) : Prop := {
  to_ids : well_formed im_addr id_map_compare (mg_idEntry m);
  to_seqs : well_formed sm_addr (remote_seq_map_compare behind) (mg_passiveEntry m);
  to_id_addr n : n ∈ elems (mg_idEntry m) → im_addr n < mg_addresses m;
  to_seq_addr n : n ∈ elems (mg_passiveEntry m) → sm_addr n < mg_addresses m;
  to_cur : mg_curId m = id_after init (mg_created m);
  to_conn c conn : mg_connections m !! c = Some conn →
    (c < mg_created m)%nat ∧ cn_id conn = id_after init (S c) ∧ cn_refCount conn = Z.of_nat (occ c (registered m ++ E));
  to_owned c : c ∈ registered m ++ E ↔ is_Some (mg_connections m !! c);
  to_id_node n : n ∈ elems (mg_idEntry m) → im_id n = id_after init (S (im_connection n));
  to_id_nodup : NoDup (registered m);
  to_seq_node n : n ∈ elems (mg_passiveEntry m) → sm_connection n ∈ registered m ∧
    ∃ conn, mg_connections m !! sm_connection n = Some conn ∧ cn_passive conn = true ∧ u32 (sm_seq n) = u32 (cn_connectSeq conn);
  to_seq_nodup : NoDup ((λ n, u32 (sm_seq n)) <$> elems (mg_passiveEntry m));
  to_few : Z.of_nat (mg_created m) < 2 ^ 31 - 1;
  to_gone_once : NoDup (uninited (mg_trace m));
  to_gone c : c ∈ uninited (mg_trace m) ↔ (c < mg_created m)%nat ∧ mg_connections m !! c = None }.

Lemma tables_perm init E E' m : E ≡ₚ E' → tables_ok init E m → tables_ok init E' m.
Proof.
  intros HE [H1 H2 H3 H4 H5 H6 H7 H8 H9 H10 H11 H12 H13 H14]. split; try done.
  - intros c conn Hc. rewrite <- HE. by apply H6.
  - intros c. rewrite <- HE. apply H7.
Qed.

Definition quiet (a : ManagerAction) : Prop :=
  match a with Offered _ _ | AddRefUser _ _ | Accepted _ _ _ _ | Kept _ => False | _ => True end.

Definition conn_later (conn conn' : BdtConnection) : Prop :=
  cn_id conn' = cn_id conn ∧ cn_passive conn' = cn_passive conn ∧ cn_connectSeq conn' = cn_connectSeq conn ∧
  (cn_firstQuestion conn ≠ None → cn_firstQuestion conn' ≠ None).

(** The manager after functions that do not touch listeners. *)
Record later m m' : Prop := {
  lt_listeners : mg_listeners m' = mg_listeners m;
  lt_ports : mg_listenerMap m' = mg_listenerMap m;
  lt_limit : mg_acceptBacklog m' = mg_acceptBacklog m;
  lt_listening : mg_listening m' = mg_listening m;
  lt_trace : ∃ l, mg_trace m' = l ++ mg_trace m ∧ Forall quiet l;
  lt_created : (mg_created m ≤ mg_created m')%nat;
  lt_addresses : mg_addresses m ≤ mg_addresses m';
  lt_conn c conn conn' : mg_connections m !! c = Some conn → mg_connections m' !! c = Some conn' → conn_later conn conn';
  lt_new c : (c < mg_created m)%nat → is_Some (mg_connections m' !! c) → is_Some (mg_connections m !! c) }.

#[export] Instance conn_later_refl : Reflexive conn_later.
Proof. by split. Qed.

#[export] Instance later_refl : Reflexive later.
Proof. intros m. split; try done; [by exists []|]. intros c conn conn' H1 H2. rewrite H1 in H2. by injection H2 as <-. Qed.

Lemma later_trans init E m1 m2 m3 : tables_ok init E m1 → later m1 m2 → later m2 m3 → later m1 m3.
Proof.
  intros Hok [A1 A2 A3 A4 (l1 & A5 & A5') A6 A7 A8 A9] [B1 B2 B3 B4 (l2 & B5 & B5') B6 B7 B8 B9].
  split; try congruence; try lia.
  - exists (l2 ++ l1). split; [by rewrite B5, A5, app_assoc|by apply Forall_app].
  - intros c conn conn' H1 H3. destruct (to_conn _ _ _ Hok c conn H1) as [Hc _].
    destruct (B9 c ltac:(lia) ltac:(eauto)) as [conn2 H2].
    destruct (A8 c conn conn2 H1 H2) as (?&?&?&?), (B8 c conn2 conn' H2 H3) as (?&?&?&?). split_and!; try congruence. auto.
  - intros c Hc H3. apply A9; [done|]. apply B9; [lia|done].
Qed.

(** ** References *)

(** Connections whose references are counted are there. *)
Lemma owned_conn init E m c : tables_ok init E m → c ∈ registered m ++ E → ∃ conn, mg_connections m !! c = Some conn.
Proof. intros Hok Hc. by apply (to_owned _ _ _ Hok) in Hc. Qed.

(** A connection is changed, and who has references to it. *)
Lemma tables_changed init E E' m c conn conn' :
  tables_ok init E m → mg_connections m !! c = Some conn →
  cn_id conn' = cn_id conn → cn_passive conn' = cn_passive conn → cn_connectSeq conn' = cn_connectSeq conn →
  cn_refCount conn' = Z.of_nat (occ c (registered m ++ E')) → c ∈ registered m ++ E' →
  (∀ d, d ≠ c → occ d E' = occ d E) →
  tables_ok init E' (set_connections (<[c:=conn']> (mg_connections m)) (mg_created m) m).
Proof.
  intros [H1 H2 H3 H4 H5 H6 H7 H8 H9 H10 H11 H12 H13 H14] Hc E1 E2 E3 E4 Hin Hocc. split; try done; cbn.
  - intros d x Hx. destruct (decide (d = c)) as [->|Hd].
    + rewrite lookup_insert_eq in Hx. injection Hx as <-. destruct (H6 c conn Hc) as (?&?&_). split_and!; try done. congruence.
    + rewrite lookup_insert_ne in Hx by done. destruct (H6 d x Hx) as (?&?&Ho). split_and!; try done.
      rewrite Ho, !occ_app. rewrite Hocc by done. done.
  - intros d. destruct (decide (d = c)) as [->|Hd].
    + rewrite lookup_insert_eq. split; [by eexists|done].
    + rewrite lookup_insert_ne by done. rewrite <- H7, <- !occ_pos, !occ_app, Hocc by done. done.
  - intros n Hn. destruct (H10 n Hn) as (Hr & x & Hx & Hp & Hseq). split; [done|].
    destruct (decide (sm_connection n = c)) as [Ed|Hd].
    + exists conn'. rewrite Ed in *. rewrite lookup_insert_eq. rewrite Hc in Hx. injection Hx as <-. split; [done|]. split; congruence.
    + exists x. by rewrite lookup_insert_ne.
  - intros d. rewrite H14. destruct (decide (d = c)) as [->|Hd]; [rewrite lookup_insert_eq, Hc; naive_solver|]. by rewrite lookup_insert_ne.
Qed.

Lemma later_changed m c conn conn' :
  mg_connections m !! c = Some conn → conn_later conn conn' →
  later m (set_connections (<[c:=conn']> (mg_connections m)) (mg_created m) m).
Proof.
  intros Hc Hl. split; try done; cbn; [by exists []| |].
  - intros d x x' Hx Hx'. destruct (decide (d = c)) as [->|Hd].
    + rewrite lookup_insert_eq in Hx'. injection Hx' as <-. rewrite Hc in Hx. by injection Hx as <-.
    + rewrite lookup_insert_ne in Hx' by done. rewrite Hx in Hx'. by injection Hx' as <-.
  - intros d _ Hd. destruct (decide (d = c)) as [->|Hdc]; [by eexists|]. by rewrite lookup_insert_ne in Hd.
Qed.

Lemma AddRef_runs init E m c :
  tables_ok init E m → c ∈ registered m ++ E →
  ∃ m', BdtAddRefConnection c m = Some (tt, m') ∧ tables_ok init (c :: E) m' ∧ later m m' ∧
    mg_idEntry m' = mg_idEntry m ∧ mg_passiveEntry m' = mg_passiveEntry m ∧ mg_trace m' = mg_trace m ∧
    mg_created m' = mg_created m.
Proof.
  intros Hok Hc. destruct (owned_conn _ _ _ _ Hok Hc) as [conn Hconn]. unfold BdtAddRefConnection, the_connection, put_connection.
  rewrite (from_bind _ conn) by done. eexists. split; [reflexivity|]. split; [|split; [by eapply later_changed|done]].
  destruct (to_conn _ _ _ Hok c conn Hconn) as (_ & _ & Ho).
  eapply tables_changed; [exact Hok|exact Hconn|done..| | |].
  - cbn. rewrite Ho, !occ_app, occ_cons, decide_True by done. lia.
  - apply elem_of_app. right. by left.
  - intros d Hd. rewrite occ_cons, decide_False by done. done.
Qed.

Lemma Release_runs init E m c :
  tables_ok init (c :: E) m →
  ∃ m', BdtReleaseConnection c m = Some (tt, m') ∧ tables_ok init E m' ∧ later m m' ∧
    mg_idEntry m' = mg_idEntry m ∧ mg_passiveEntry m' = mg_passiveEntry m ∧
    mg_created m' = mg_created m ∧ mg_addresses m' = mg_addresses m.
Proof.
  intros Hok. assert (Hc : c ∈ registered m ++ c :: E) by (apply elem_of_app; right; by left).
  destruct (owned_conn _ _ _ _ Hok Hc) as [conn Hconn]. unfold BdtReleaseConnection, the_connection, put_connection.
  rewrite (from_bind _ conn) by done. destruct (to_conn _ _ _ Hok c conn Hconn) as (Hlt & Hid & Ho).
  rewrite occ_app, occ_cons, decide_True in Ho by done. cbv zeta. case_decide as Hz.
  - rewrite mset_bind. eexists. split; [reflexivity|].
    assert (Hno : c ∉ registered m ++ E) by (rewrite <- occ_pos, occ_app; lia).
    split; [|split; [|done]].
    + destruct Hok as [H1 H2 H3 H4 H5 H6 H7 H8 H9 H10 H11 H12 H13 H14]. split; try done; cbn.
      * intros d x Hx. destruct (decide (d = c)) as [->|Hd]; [by rewrite lookup_delete_eq in Hx|].
        rewrite lookup_delete_ne in Hx by done. destruct (H6 d x Hx) as (?&?&Hod). split_and!; try done.
        rewrite Hod, !occ_app, occ_cons, decide_False by done. done.
      * intros d. destruct (decide (d = c)) as [->|Hd].
        -- rewrite lookup_delete_eq. split; [done|by intros [? ?]].
        -- rewrite lookup_delete_ne by done. rewrite <- H7, !elem_of_app, elem_of_cons. naive_solver.
      * intros n Hn. destruct (H10 n Hn) as (Hr & x & Hx & Hp & Hseq). split; [done|]. exists x.
        rewrite lookup_delete_ne; [done|]. intros ->. apply Hno, elem_of_app. by left.
      * constructor; [|done]. fold (uninited (mg_trace m)). rewrite H14, Hconn. by intros [_ ?].
      * intros d. rewrite elem_of_cons. fold (uninited (mg_trace m)). rewrite H14. destruct (decide (d = c)) as [->|Hd].
        -- rewrite lookup_delete_eq. naive_solver.
        -- rewrite lookup_delete_ne by done. naive_solver.
    + split; try done; cbn; [by exists [Uninited c]; split; [|constructor]| |].
      * intros d x x' Hx Hx'. destruct (decide (d = c)) as [->|Hd]; [by rewrite lookup_delete_eq in Hx'|].
        rewrite lookup_delete_ne in Hx' by done. rewrite Hx in Hx'. by injection Hx' as <-.
      * intros d _ Hd. destruct (decide (d = c)) as [->|Hdc]; [by rewrite lookup_delete_eq in Hd; destruct Hd|]. by rewrite lookup_delete_ne in Hd.
  - eexists. split; [reflexivity|]. split; [|split; [by eapply later_changed|done]].
    eapply tables_changed; [exact Hok|exact Hconn|done..| | |].
    + cbn. rewrite occ_app. lia.
    + apply occ_pos. rewrite occ_app. lia.
    + intros d Hd. by rewrite occ_cons, decide_False.
Qed.

(** ** Looking up *)

Lemma GetById_runs init E m id :
  tables_ok init E m →
  ∃ r m', Bdt_GetConnectionById id m = Some (r, m') ∧ later m m' ∧ mg_created m' = mg_created m ∧
    match r with
    | Some c => c ∈ registered m ∧ id = id_after init (S c) ∧ tables_ok init (c :: E) m'
    | None => m' = m ∧ ∀ c, c ∈ registered m → id ≠ id_after init (S c)
    end.
Proof.
  intros Hok. unfold Bdt_GetConnectionById. rewrite mget_bind.
  pose proof (find_key _ _ _ id_compare_key (mg_idEntry m) (mkIdMap 0 id 0) (to_ids _ _ _ Hok)) as Hf.
  destruct (find_member _ _ _) as [n|].
  - destruct Hf as [Hn E1]. cbn in E1. pose proof (list_elem_of_fmap_2 im_connection _ _ Hn) as Hr.
    destruct (AddRef_runs init E m (im_connection n) Hok) as (m' & Em & H1 & H2 & _ & _ & _ & H3); [apply elem_of_app; by left|].
    rewrite (M_bind_Some _ _ _ _ _ Em). exists (Some (im_connection n)), m'. split; [done|]. split; [done|]. split; [done|].
    split; [exact Hr|]. split; [|done]. rewrite <- E1. by apply (to_id_node _ _ _ Hok).
  - exists None, m. split; [done|]. split; [done|]. split; [done|]. split; [done|].
    intros c (n & -> & Hn)%list_elem_of_fmap ->. apply Hf. cbn. rewrite <- (to_id_node _ _ _ Hok n Hn). by apply list_elem_of_fmap_2.
Qed.

(** A node of the passive connections with a sequence number. *)
Lemma seq_found init E m peerid seq addr :
  tables_ok init E m →
  match find_member (remote_seq_map_compare behind) (mg_passiveEntry m) (mkSeqMap addr peerid seq 0) with
  | Some n => n ∈ elems (mg_passiveEntry m) ∧ u32 (sm_seq n) = u32 seq
  | None => u32 seq ∉ (λ n, u32 (sm_seq n)) <$> elems (mg_passiveEntry m)
  end.
Proof. intros Hok. apply (find_key _ _ _ (seq_compare_key behind) _ (mkSeqMap addr peerid seq 0) (to_seqs _ _ _ Hok)). Qed.

Lemma GetBySeq_runs init E m peerid seq :
  tables_ok init E m →
  ∃ r m', Bdt_GetConnectionByRemoteSeq behind peerid seq m = Some (r, m') ∧ later m m' ∧ mg_created m' = mg_created m ∧
    match r with
    | Some c => tables_ok init (c :: E) m' ∧ ∃ n, n ∈ elems (mg_passiveEntry m) ∧ u32 (sm_seq n) = u32 seq ∧ sm_connection n = c
    | None => m' = m
    end.
Proof.
  intros Hok. unfold Bdt_GetConnectionByRemoteSeq. rewrite mget_bind. pose proof (seq_found init E m peerid seq 0 Hok) as Hf.
  destruct (find_member _ _ _) as [n|]; [|by exists None, m].
  destruct Hf as [Hn E1]. destruct (to_seq_node _ _ _ Hok n Hn) as [Hr _].
  destruct (AddRef_runs init E m (sm_connection n) Hok) as (m' & Em & H1 & H2 & _ & _ & _ & H3); [apply elem_of_app; by left|].
  rewrite (M_bind_Some _ _ _ _ _ Em). exists (Some (sm_connection n)), m'. split_and!; try done. by exists n.
Qed.

(** ** Adding *)

Lemma addresses_ok init E m : tables_ok init E m → tables_ok init E (set_addresses (mg_addresses m + 1) m) ∧ later m (set_addresses (mg_addresses m + 1) m).
Proof.
  intros [H1 H2 H3 H4 H5 H6 H7 H8 H9 H10 H11 H12 H13 H14]. split.
  - split; try done; cbn; intros n Hn; [specialize (H3 n Hn)|specialize (H4 n Hn)]; lia.
  - split; try done; cbn; [by exists []|lia|]. intros c conn conn' Hx Hx'. rewrite Hx in Hx'. by injection Hx' as <-.
Qed.

Definition with_connection (peer seq remoteId : Z) (passive : bool) m : Bdt_ConnectionManager :=
  let id := Bdt_Uint32IdCreatorNext (mg_curId m) in
  set_connections (<[mg_created m := mkConnection 1 peer id seq remoteId passive None]> (mg_connections m)) (S (mg_created m)) (set_ids id m).

Lemma fresh_connection init E m : tables_ok init E m → mg_connections m !! mg_created m = None ∧ mg_created m ∉ registered m ++ E.
Proof.
  intros Hok. destruct (mg_connections m !! mg_created m) as [conn|] eqn:Ec.
  - destruct (to_conn _ _ _ Hok _ _ Ec). lia.
  - split; [done|]. rewrite (to_owned _ _ _ Hok), Ec. by intros [? ?].
Qed.

Lemma connection_ok init E m peer seq remoteId passive :
  tables_ok init E m → Z.of_nat (S (mg_created m)) < 2 ^ 31 - 1 →
  let m' := with_connection peer seq remoteId passive m in
  tables_ok init (mg_created m :: E) m' ∧ later m m' ∧ mg_created m ∉ registered m'.
Proof.
  intros Hok Hfew m'. destruct (fresh_connection init E m Hok) as [Hnone Hfresh].
  assert (Hreg : registered m' = registered m) by done. set (c := mg_created m) in *.
  assert (Hocc : occ c (registered m ++ E) = 0%nat) by (destruct (occ c (registered m ++ E)) eqn:Eo; [done|exfalso; apply Hfresh, occ_pos; lia]).
  split; [|split].
  - destruct Hok as [H1 H2 H3 H4 H5 H6 H7 H8 H9 H10 H11 H12 H13 H14]. split; rewrite ?Hreg; try done; cbn; fold c.
    + rewrite H5. apply id_after_next.
    + intros d conn Hd. destruct (decide (d = c)) as [->|Hdc].
      * rewrite lookup_insert_eq in Hd. injection Hd as <-. cbn. rewrite H5, id_after_next. split; [lia|]. split; [done|].
        rewrite occ_app, occ_cons, decide_True by done. rewrite occ_app in Hocc. lia.
      * rewrite lookup_insert_ne in Hd by done. destruct (H6 d conn Hd) as (? & ? & Ho). split; [lia|]. split; [done|].
        by rewrite Ho, !occ_app, occ_cons, decide_False by done.
    + intros d. destruct (decide (d = c)) as [->|Hdc].
      * rewrite lookup_insert_eq. split; [by eexists|]. intros _. apply elem_of_app. right. by left.
      * rewrite lookup_insert_ne by done. rewrite <- H7, !elem_of_app, elem_of_cons. naive_solver.
    + intros n Hn. destruct (H10 n Hn) as (Hr & conn & Hc & Hp). split; [done|]. exists conn. rewrite lookup_insert_ne; [done|].
      intros Ed. by rewrite <- Ed, Hnone in Hc.
    + intros d. rewrite H14. destruct (decide (d = c)) as [->|Hdc].
      * rewrite lookup_insert_eq. split; [intros [? _]; lia|by intros [_ ?]].
      * rewrite lookup_insert_ne by done. split; intros [? ?]; (split; [lia|done]).
  - split; try done; cbn; fold c; [by exists []|lia| |].
    + intros d x x' Hx Hx'. rewrite lookup_insert_ne in Hx' by (intros <-; congruence). rewrite Hx in Hx'. by injection Hx' as <-.
    + intros d Hd. by rewrite lookup_insert_ne by lia.
  - rewrite Hreg. intros Hin. apply Hfresh, elem_of_app. by left.
Qed.

Lemma add_id_ok init E m addr c :
  tables_ok init (c :: E) m → c ∉ registered m → (∀ n, n ∈ elems (mg_idEntry m) → im_addr n < addr) → addr < mg_addresses m →
  ∃ ids, (∀ seqs, add_id addr c (set_passiveEntry seqs m) = Some (tt, set_passiveEntry seqs (set_idEntry ids m))) ∧
    tables_ok init E (set_idEntry ids m) ∧ later m (set_idEntry ids m) ∧ registered (set_idEntry ids m) ≡ₚ c :: registered m.
Proof.
  intros Hok Hc Hfresh Haddr.
  destruct (owned_conn init (c :: E) m c Hok) as [conn Hconn]; [apply elem_of_app; right; by left|].
  destruct (add_key _ _ _ id_compare_key (mg_idEntry m) (mkIdMap addr (cn_id conn) c) (to_ids _ _ _ Hok)) as (ids & Es & Hw & Hp).
  { intros (n & E1 & Hn)%list_elem_of_fmap. cbn in E1. specialize (Hfresh n Hn). lia. }
  assert (Hreg : registered (set_idEntry ids m) ≡ₚ c :: registered m) by (unfold registered; cbn; by rewrite Hp).
  exists ids. split; [|split; [|split; [|done]]].
  - intros seqs. unfold add_id, the_connection. rewrite (from_bind _ conn) by done. by rewrite (from_bind _ ids) by done.
  - assert (Hown : registered (set_idEntry ids m) ++ E ≡ₚ registered m ++ c :: E) by (rewrite Hreg; apply Permutation_middle).
    destruct Hok as [H1 H2 H3 H4 H5 H6 H7 H8 H9 H10 H11 H12 H13 H14]. split; try done.
    + intros n. cbn. rewrite Hp, elem_of_cons. intros [->|Hn]; [done|by apply H3].
    + intros d x Hx. destruct (H6 d x Hx) as (?&?&Ho). split_and!; try done. by rewrite Hown.
    + intros d. rewrite Hown. apply H7.
    + intros n. cbn. rewrite Hp, elem_of_cons. intros [->|Hn]; [|by apply H8]. cbn. by destruct (H6 c conn Hconn) as (_ & ? & _).
    + rewrite Hreg. by constructor.
    + intros n Hn. destruct (H10 n Hn) as [Hr Hx]. split; [|done]. rewrite Hreg. by right.
  - split; try done; cbn; [by exists []|]. intros d x x' Hx Hx'. rewrite Hx in Hx'. by injection Hx' as <-.
Qed.

Lemma AddActive_runs init E m remote seq :
  tables_ok init E m → Z.of_nat (S (mg_created m)) < 2 ^ 31 - 1 →
  ∃ c m', Bdt_AddActiveConnection remote seq m = Some (c, m') ∧ tables_ok init (c :: E) m' ∧ later m m' ∧
    mg_created m' = S (mg_created m) ∧ c ∈ registered m'.
Proof.
  intros Hok Hfew. destruct (connection_ok init E m remote seq BDT_UINT32_ID_INVALID_VALUE false Hok Hfew) as (H1 & H2 & H3).
  set (m1 := with_connection _ _ _ _ m) in *. set (c := mg_created m) in *.
  destruct (addresses_ok _ _ _ H1) as [H4 H5]. set (m2 := set_addresses _ m1) in *.
  destruct (add_id_ok init E m2 (mg_addresses m) c H4 H3) as (ids & Ea & H6 & H7 & H8); [apply (to_id_addr _ _ _ Hok)|cbn; lia|].
  destruct (AddRef_runs init E (set_idEntry ids m2) c H6) as (m' & Em & H9 & H10 & Hid & _ & _ & Hcr); [apply elem_of_app; left; rewrite H8; by left|].
  exists c, m'. split; [|split; [done|split; [|split; [by rewrite Hcr|]]]].
  - unfold Bdt_AddActiveConnection.
    trans ((add_id (mg_addresses m) c ;; BdtAddRefConnection c ;; mret c) (set_passiveEntry (mg_passiveEntry m2) m2)); [done|].
    rewrite (M_bind_Some _ _ _ _ _ (Ea (mg_passiveEntry m2))).
    assert (Es : set_passiveEntry (mg_passiveEntry m2) (set_idEntry ids m2) = set_idEntry ids m2) by done.
    rewrite Es. by rewrite (M_bind_Some _ _ _ _ _ Em).
  - eapply (later_trans _ _ m m1 m' Hok H2). eapply (later_trans _ _ m1 m2 m' H1 H5). eapply (later_trans _ _ m2 _ m' H4 H7 H10).
  - unfold registered in *. rewrite Hid. rewrite H8. by left.
Qed.

(** ** The passive connections *)

(** The tree of the passive connections is another one. *)
Lemma passive_ok init E m seqs :
  tables_ok init E m → well_formed sm_addr (remote_seq_map_compare behind) seqs →
  (∀ n, n ∈ elems seqs → sm_addr n < mg_addresses m) →
  (∀ n, n ∈ elems seqs → sm_connection n ∈ registered m ∧
    ∃ conn, mg_connections m !! sm_connection n = Some conn ∧ cn_passive conn = true ∧ u32 (sm_seq n) = u32 (cn_connectSeq conn)) →
  NoDup ((λ n, u32 (sm_seq n)) <$> elems seqs) →
  tables_ok init E (set_passiveEntry seqs m) ∧ later m (set_passiveEntry seqs m).
Proof.
  intros [H1 H2 H3 H4 H5 H6 H7 H8 H9 H10 H11 H12 H13 H14] ? ? ? ?. split; [by split|].
  split; try done; [by exists []|]. cbn. intros d x x' Hx Hx'. rewrite Hx in Hx'. by injection Hx' as <-.
Qed.

(** Fewer passive connections. *)
Lemma passive_fewer init E m n seqs :
  tables_ok init E m → well_formed sm_addr (remote_seq_map_compare behind) seqs → elems (mg_passiveEntry m) ≡ₚ n :: elems seqs →
  tables_ok init E (set_passiveEntry seqs m) ∧ later m (set_passiveEntry seqs m).
Proof.
  intros Hok Hw Hp. apply passive_ok; try done.
  - intros x Hx. apply (to_seq_addr _ _ _ Hok). rewrite Hp. by right.
  - intros x Hx. apply (to_seq_node _ _ _ Hok). rewrite Hp. by right.
  - pose proof (to_seq_nodup _ _ _ Hok) as Hn. rewrite Hp in Hn. by apply NoDup_cons in Hn as [_ ?].
Qed.

Context (peer_of : nat → Z).

Lemma NewPassive_runs init E m toAddId toAddPassive remote remoteId seq :
  tables_ok init E m → Z.of_nat (S (mg_created m)) < 2 ^ 31 - 1 →
  u32 seq ∉ (λ n, u32 (sm_seq n)) <$> elems (mg_passiveEntry m) →
  (∀ n, n ∈ elems (mg_idEntry m) → im_addr n < toAddId) → toAddId < mg_addresses m →
  (∀ n, n ∈ elems (mg_passiveEntry m) → sm_addr n < toAddPassive) → toAddPassive < mg_addresses m →
  ∃ m', new_passive behind peer_of toAddId toAddPassive remote remoteId seq m = Some (mg_created m, m') ∧
    tables_ok init (mg_created m :: E) m' ∧ later m m' ∧ mg_created m' = S (mg_created m) ∧ mg_trace m' = mg_trace m.
Proof.
  intros Hok Hfew Hseq Hid Hid' Hpas Hpas'. set (c := mg_created m) in *.
  set (node0 := mkSeqMap toAddPassive remote seq 0). set (node := mkSeqMap toAddPassive (peer_of c) seq c).
  destruct (add_key _ _ _ (seq_compare_key behind) (mg_passiveEntry m) node0 (to_seqs _ _ _ Hok)) as (seqs & Es & Hw & Hp).
  { intros (n & E1 & Hn)%list_elem_of_fmap. cbn in E1. specialize (Hpas n Hn). lia. }
  destruct (connection_ok init E m remote seq remoteId true Hok Hfew) as (H1 & H2 & H3). set (m1 := with_connection _ _ _ _ m) in *.
  destruct (add_id_ok init E m1 toAddId c H1 H3 Hid Hid') as (ids & Ea & H4 & H5 & H6). set (m2 := set_idEntry ids m1) in *.
  set (seqs' := write_node sm_addr node seqs).
  assert (Hel : elems seqs' ≡ₚ node :: elems (mg_passiveEntry m)).
  { unfold seqs'. rewrite write_node_elems, Hp, fmap_cons. cbn [sm_addr]. rewrite decide_True by done.
    rewrite <- (list_fmap_id (elems (mg_passiveEntry m))) at 2. apply perm_skip. apply reflexive_eq. apply list_fmap_ext. intros i x Hx.
    rewrite decide_False; [done|]. apply list_elem_of_lookup_2, Hpas in Hx. cbn. lia. }
  destruct (passive_ok init E m2 seqs' H4) as [H7 H8].
  - apply (write_node_well _ _ _ (seq_compare_key behind)); [done|]. intros x. rewrite Hp, elem_of_cons. intros [->|Hx]; [done|].
    cbn. intros E1. specialize (Hpas x Hx). lia.
  - intros n. rewrite Hel, elem_of_cons. intros [->|Hn]; [done|]. by apply (to_seq_addr _ _ _ Hok).
  - intros n. rewrite Hel, elem_of_cons. intros [->|Hn].
    + cbn [sm_connection sm_seq node]. split; [rewrite H6; by left|]. exists (mkConnection 1 remote (Bdt_Uint32IdCreatorNext (mg_curId m)) seq remoteId true None).
      split; [|done]. cbn. apply lookup_insert_eq.
    + destruct (to_seq_node _ _ _ H4 n Hn) as [? ?]. done.
  - rewrite Hel, fmap_cons. constructor; [done|]. apply (to_seq_nodup _ _ _ Hok).
  - set (m3 := set_passiveEntry seqs' m2) in *.
    destruct (AddRef_runs init E m3 c H7) as (m' & Em & H9 & H10 & _ & _ & Ht & Hcr).
    { apply elem_of_app. left. change (c ∈ registered m2). rewrite H6. by left. }
    exists m'. split; [|split; [done|split; [|split; [by rewrite Hcr|by rewrite Ht]]]].
    + unfold new_passive. rewrite (from_bind _ seqs) by done.
      trans ((add_id toAddId c ;; BdtAddRefConnection c ;; mret c) (set_passiveEntry seqs' m1)); [done|].
      rewrite (M_bind_Some _ _ _ _ _ (Ea seqs')). by rewrite (M_bind_Some _ _ _ _ _ Em).
    + eapply (later_trans _ _ m m1 m' Hok H2). eapply (later_trans _ _ m1 m2 m' H1 H5). by eapply (later_trans _ _ m2 m3 m' H4 H8).
Qed.

Lemma SetFirstQuestion_runs init E m c q :
  tables_ok init E m → c ∈ registered m ++ E →
  ∃ m' conn, ConnectionSetFirstQuestion c q m = Some (tt, m') ∧ tables_ok init E m' ∧ later m m' ∧
    mg_connections m' !! c = Some conn ∧ cn_firstQuestion conn ≠ None ∧ mg_created m' = mg_created m ∧ mg_trace m' = mg_trace m.
Proof.
  intros Hok Hc. destruct (owned_conn _ _ _ _ Hok Hc) as [conn Hconn]. unfold ConnectionSetFirstQuestion, the_connection, put_connection.
  rewrite (from_bind _ conn) by done. destruct (cn_firstQuestion conn) as [q0|] eqn:Eq.
  { exists m, conn. split_and!; try done. congruence. }
  eexists _, (set_question (Some q) conn). split; [reflexivity|]. destruct (to_conn _ _ _ Hok c conn Hconn) as (_ & _ & Ho).
  split; [by eapply tables_changed|]. split; [|split; [apply lookup_insert_eq|done]].
  eapply later_changed; [exact Hconn|]. by split.
Qed.

(** ** Removing *)

Lemma DeletePassive_runs m c conn :
  well_formed sm_addr (remote_seq_map_compare behind) (mg_passiveEntry m) → mg_connections m !! c = Some conn →
  ∃ seqs, delete_passive behind peer_of c m = Some (tt, set_passiveEntry seqs m) ∧
    well_formed sm_addr (remote_seq_map_compare behind) seqs ∧
    ((u32 (cn_connectSeq conn) ∉ (λ n, u32 (sm_seq n)) <$> elems (mg_passiveEntry m)) ∧ seqs = mg_passiveEntry m ∨
     ∃ n, elems (mg_passiveEntry m) ≡ₚ n :: elems seqs ∧ u32 (sm_seq n) = u32 (cn_connectSeq conn)).
Proof.
  intros Hw Hconn. unfold delete_passive, the_connection. rewrite (from_bind _ conn) by done. rewrite mget_bind.
  pose proof (find_key _ _ _ (seq_compare_key behind) _ (mkSeqMap 0 (peer_of c) (cn_connectSeq conn) 0) Hw) as Hf.
  destruct (find_member _ _ _) as [n|].
  - destruct Hf as [Hn E1]. destruct (delete_key _ _ _ (seq_compare_key behind) _ n Hw Hn) as (seqs & Es & Hw' & Hp).
    rewrite (from_bind _ seqs) by done. exists seqs. split; [done|]. split; [done|]. right. by exists n.
  - exists (mg_passiveEntry m). split; [by destruct m|]. split; [done|]. by left.
Qed.

(** A connection that is in no tree any more: the reference of the trees is
    somebody's. *)
Lemma unregistered init E m ids seqs n :
  tables_ok init E m → well_formed im_addr id_map_compare ids → elems (mg_idEntry m) ≡ₚ n :: elems ids →
  well_formed sm_addr (remote_seq_map_compare behind) seqs → (∃ l, elems (mg_passiveEntry m) ≡ₚ l ++ elems seqs) →
  (∀ x, x ∈ elems seqs → sm_connection x ≠ im_connection n) →
  let m' := set_passiveEntry seqs (set_idEntry ids m) in
  tables_ok init (im_connection n :: E) m' ∧ later m m' ∧ im_connection n ∉ registered m'.
Proof.
  intros Hok Hw Hp Hw' [l Hl] Hno m'. assert (Hreg : registered m ≡ₚ im_connection n :: registered m') by (unfold registered; cbn; by rewrite Hp).
  assert (Hown : registered m' ++ im_connection n :: E ≡ₚ registered m ++ E) by (rewrite Hreg; symmetry; apply Permutation_middle).
  assert (Hnew : im_connection n ∉ registered m' ∧ NoDup (registered m')).
  { apply NoDup_cons. rewrite <- Hreg. apply (to_id_nodup _ _ _ Hok). }
  assert (Hin : ∀ x, x ∈ elems seqs → x ∈ elems (mg_passiveEntry m)) by (intros x Hx; rewrite Hl; apply elem_of_app; by right).
  split; [|split; [|by apply Hnew]].
  - destruct Hok as [H1 H2 H3 H4 H5 H6 H7 H8 H9 H10 H11 H12 H13 H14]. split; try done; try (by apply Hnew).
    + intros x Hx. apply H3. rewrite Hp. by right.
    + intros x Hx. by apply H4, Hin.
    + intros d x Hx. destruct (H6 d x Hx) as (?&?&Ho). split_and!; try done. by rewrite Hown.
    + intros d. rewrite Hown. apply H7.
    + intros x Hx. apply H8. rewrite Hp. by right.
    + intros x Hx. destruct (H10 x (Hin x Hx)) as [Hr Hc]. split; [|done]. rewrite Hreg, elem_of_cons in Hr.
      destruct Hr as [Hr|Hr]; [|done]. by apply Hno in Hr.
    + cbn. rewrite Hl, fmap_app in H11. by apply NoDup_app in H11 as (_ & _ & ?).
  - split; try done; cbn; [by exists []|]. intros d x x' Hx Hx'. rewrite Hx in Hx'. by injection Hx' as <-.
Qed.

(** The node of an id is the node of the connection that has it. *)
Lemma id_found init E m c conn :
  tables_ok init E m → mg_connections m !! c = Some conn →
  match find_member id_map_compare (mg_idEntry m) (mkIdMap 0 (cn_id conn) 0) with
  | Some n => n ∈ elems (mg_idEntry m) ∧ im_connection n = c
  | None => c ∉ registered m
  end.
Proof.
  intros Hok Hconn. destruct (to_conn _ _ _ Hok c conn Hconn) as (Hlt & Hid & _).
  pose proof (find_key _ _ _ id_compare_key (mg_idEntry m) (mkIdMap 0 (cn_id conn) 0) (to_ids _ _ _ Hok)) as Hf.
  pose proof (to_few _ _ _ Hok) as Hfew. destruct (find_member _ _ _) as [n|].
  - destruct Hf as [Hn E1]. split; [done|]. cbn in E1. rewrite (to_id_node _ _ _ Hok n Hn), Hid in E1.
    destruct (owned_conn init E m (im_connection n) Hok) as [conn' Hc']; [apply elem_of_app; left; by apply list_elem_of_fmap_2|].
    destruct (to_conn _ _ _ Hok _ _ Hc') as (Hlt' & _). apply id_after_inj in E1; lia.
  - intros (n & -> & Hn)%list_elem_of_fmap. apply Hf. cbn. rewrite Hid, <- (to_id_node _ _ _ Hok n Hn). by apply list_elem_of_fmap_2.
Qed.

Lemma Remove_runs init E m c :
  tables_ok init E m → c ∈ registered m ++ E →
  ∃ m', Bdt_RemoveConnection behind peer_of c m = Some (BFX_RESULT_SUCCESS, m') ∧ tables_ok init E m' ∧ later m m' ∧
    mg_created m' = mg_created m ∧ c ∉ registered m'.
Proof.
  intros Hok Hc. destruct (owned_conn _ _ _ _ Hok Hc) as [conn Hconn]. unfold Bdt_RemoveConnection, the_connection.
  rewrite (from_bind _ conn) by done. rewrite mget_bind. cbv zeta. pose proof (id_found init E m c conn Hok Hconn) as Hf.
  destruct (find_member id_map_compare _ _) as [n|].
  - destruct Hf as [Hn E1].
    destruct (delete_key _ _ _ id_compare_key _ n (to_ids _ _ _ Hok) Hn) as (ids & Es & Hw & Hp).
    assert (Hrun : (ids ← from (λ m, sglib_delete im_addr id_map_compare (mg_idEntry m) n); mwrite (set_idEntry ids)) m =
      Some (tt, set_idEntry ids m)) by by rewrite (from_bind _ ids).
    rewrite (M_bind_Some _ _ _ _ _ Hrun).
    destruct (DeletePassive_runs (set_idEntry ids m) c conn (to_seqs _ _ _ Hok) Hconn) as (seqs & Ed & Hw' & Hcase).
    assert (Hstep : ∃ seqs, (if cn_passive conn then delete_passive behind peer_of c else mret tt) (set_idEntry ids m) =
        Some (tt, set_passiveEntry seqs (set_idEntry ids m)) ∧ well_formed sm_addr (remote_seq_map_compare behind) seqs ∧
        (∃ l, elems (mg_passiveEntry m) ≡ₚ l ++ elems seqs) ∧ ∀ x, x ∈ elems seqs → sm_connection x ≠ im_connection n).
    { assert (Hseq : ∀ x, x ∈ elems (mg_passiveEntry m) → sm_connection x = c → cn_passive conn = true ∧ u32 (sm_seq x) = u32 (cn_connectSeq conn)).
      { intros x Hx Ex. destruct (to_seq_node _ _ _ Hok x Hx) as (_ & y & Hy & Hpas & Hs). rewrite Ex, Hconn in Hy. by injection Hy as <-. }
      rewrite E1. destruct (cn_passive conn) eqn:Epas.
      - exists seqs. split; [done|]. split; [done|]. destruct Hcase as [[Hnone ->]|(x & Hpx & Ex)].
        + split; [by exists []|]. intros y Hy Ey. apply Hnone. rewrite <- (proj2 (Hseq y Hy Ey)). by apply (list_elem_of_fmap_2 (λ n, u32 (sm_seq n))).
        + split; [by exists [x]|]. intros y Hy Ey. pose proof (to_seq_nodup _ _ _ Hok) as Hnd. cbn in Hpx. rewrite Hpx, fmap_cons in Hnd.
          apply NoDup_cons in Hnd as [Hnd _]. apply Hnd. rewrite Ex, <- (proj2 (Hseq y ltac:(rewrite Hpx; by right) Ey)).
          by apply (list_elem_of_fmap_2 (λ n, u32 (sm_seq n))).
      - exists (mg_passiveEntry m). split; [by destruct m|]. split; [apply (to_seqs _ _ _ Hok)|]. split; [by exists []|].
        intros y Hy Ey. by destruct (Hseq y Hy Ey). }
    clear seqs Ed Hw' Hcase. destruct Hstep as (seqs & Ed & Hw' & Hl & Hno).
    rewrite (M_bind_Some _ _ _ _ _ Ed). destruct (unregistered init E m ids seqs n Hok Hw Hp Hw' Hl Hno) as (H1 & H2 & H3).
    destruct (Release_runs init E _ _ H1) as (m' & Em & H4 & H5 & Hid & _ & Hcr & _).
    rewrite (M_bind_Some _ _ _ _ _ Em). exists m'. split; [done|]. split; [done|]. split; [by eapply later_trans|]. split; [done|].
    unfold registered in *. rewrite Hid. by rewrite <- E1.
  - assert (Hstep : ∃ m', (if cn_passive conn then delete_passive behind peer_of c else mret tt) m = Some (tt, m') ∧
        tables_ok init E m' ∧ later m m' ∧ mg_created m' = mg_created m ∧ registered m' = registered m).
    { destruct (cn_passive conn); [|by exists m].
      destruct (DeletePassive_runs m c conn (to_seqs _ _ _ Hok) Hconn) as (seqs & Ed & Hw' & [[_ ->]|(x & Hpx & _)]); rewrite Ed; eexists; (split; [done|]).
      - by destruct m.
      - destruct (passive_fewer init E m x seqs Hok Hw' Hpx). by split_and!. }
    destruct Hstep as (m' & Ed & H1 & H2 & H3 & H4). exists m'.
    rewrite (M_bind_Some _ _ _ _ _ (eq_refl : (mret tt : M _ unit) m = Some (tt, m))), (M_bind_Some _ _ _ _ _ Ed). by rewrite H4.
Qed.
End tables.
