(* ===== verification/ManagerAccept.v ===== *)
(** * Accepting connections

    The listeners of the connection manager: what is asked of a listener and
    what is offered to it is answered in order, each once; and every function
    of the manager that offers, asks or removes keeps this and the references
    of [ManagerProofs]. *)

From S2P Require Import Prelude CInt RecvQueue Package BufferStream Codec SessionCodec Endpoint SgTree ConnectionManager ManagerProofs.

(** ** What the trace says of a listener, newest first *)

(** The requests that were answered and the connections they were given. *)
Definition accepted_on (l : nat) (trace : list ManagerAction) : list (nat * nat) :=
  omap (λ a, match a with Accepted l' r c _ => if decide (l = l') then Some (r, c) else None | _ => None end) trace.
Definition asked_on (l : nat) (trace : list ManagerAction) : list nat :=
  omap (λ a, match a with AddRefUser l' r => if decide (l = l') then Some r else None | _ => None end) trace.
Definition offered_on (l : nat) (trace : list ManagerAction) : list nat :=
  omap (λ a, match a with Offered l' c => if decide (l = l') then Some c else None | _ => None end) trace.
Definition offered (trace : list ManagerAction) : list nat :=
  omap (λ a, match a with Offered _ c => Some c | _ => None end) trace.
(** The references that users took in callbacks. *)
Definition kept (trace : list ManagerAction) : list nat :=
  omap (λ a, match a with Kept c => Some c | _ => None end) trace.

Lemma accepted_on_cons l a t : accepted_on l (a :: t) =
  match a with Accepted l' r c _ => if decide (l = l') then [(r, c)] else [] | _ => [] end ++ accepted_on l t.
Proof. destruct a; try done. cbn. by case_decide. Qed.
Lemma asked_on_cons l a t : asked_on l (a :: t) =
  match a with AddRefUser l' r => if decide (l = l') then [r] else [] | _ => [] end ++ asked_on l t.
Proof. destruct a; try done. cbn. by case_decide. Qed.
Lemma offered_on_cons l a t : offered_on l (a :: t) =
  match a with Offered l' c => if decide (l = l') then [c] else [] | _ => [] end ++ offered_on l t.
Proof. destruct a; try done. cbn. by case_decide. Qed.
#[global] Arguments accepted_on : simpl never.
#[global] Arguments asked_on : simpl never.
#[global] Arguments offered_on : simpl never.

Lemma quiet_omap {X} (f : ManagerAction → option X) l t :
  (∀ a, quiet a → f a = None) → Forall quiet l → omap f (l ++ t) = omap f t.
Proof. intros Hf Hl. induction Hl as [|a l Ha _ IH]; [done|]. cbn. by rewrite (Hf a Ha). Qed.

(** ** The connections that wait *)

Definition backlogs_of (ls : gmap nat BdtConnectionListener) : list nat :=
  mjoin ((λ p : nat * BdtConnectionListener, ls_backlog p.2) <$> map_to_list ls).
Definition backlogs (m : Bdt_ConnectionManager) : list nat := backlogs_of (mg_listeners m).

Lemma backlogs_new ls l x : ls !! l = None → backlogs_of (<[l := x]> ls) ≡ₚ ls_backlog x ++ backlogs_of ls.
Proof. intros Hl. unfold backlogs_of. by rewrite map_to_list_insert. Qed.

Lemma backlogs_old ls l x : ls !! l = Some x → backlogs_of ls ≡ₚ ls_backlog x ++ backlogs_of (delete l ls).
Proof. intros Hl. unfold backlogs_of. by rewrite <- (map_to_list_delete ls l x) by done. Qed.

Lemma backlogs_insert ls l x y :
  ls !! l = Some x → ls_backlog x ++ backlogs_of (<[l := y]> ls) ≡ₚ ls_backlog y ++ backlogs_of ls.
Proof.
  intros Hl. rewrite (backlogs_old ls l x Hl). rewrite <- insert_delete_eq.
  rewrite backlogs_new by apply lookup_delete_eq. solve_Permutation.
Qed.

Lemma backlogs_elem ls l x c : ls !! l = Some x → c ∈ ls_backlog x → c ∈ backlogs_of ls.
Proof. intros Hl Hc. rewrite (backlogs_old ls l x Hl). apply elem_of_app. by left. Qed.

(** ** The invariant of the listeners *)

Section accept.
Context (behind : BdtRemoteSeqConnectionMap → list Z) (limit : nat).

(** [L]: who has a reference to which listener for the moment. *)
Record listener_ok (L : list nat) (t : list ManagerAction) (l : nat) (x : BdtConnectionListener) : Prop := {
  lo_refs : ls_refCount x = 1 + Z.of_nat (occ l L);
  lo_idle : ls_backlog x = [] ∨ ls_acceptRequests x = [];
  lo_limit : (length (ls_backlog x) ≤ S limit)%nat;
  lo_asked : asked_on l t = reverse (ls_acceptRequests x) ++ (accepted_on l t).*1;
  lo_offered : offered_on l t = reverse (ls_backlog x) ++ (accepted_on l t).*2 }.

Record accept_ok (L : list nat) (t : list ManagerAction) (m : Bdt_ConnectionManager) : Prop := {
  ao_limit : mg_acceptBacklog m = limit;
  ao_ports : well_formed lm_addr connection_listener_map_compare (mg_listenerMap m);
  ao_addr n : n ∈ elems (mg_listenerMap m) → lm_addr n < mg_addresses m;
  ao_node n : n ∈ elems (mg_listenerMap m) → ∃ x, mg_listeners m !! lm_listener n = Some x ∧ ls_port x = lm_port n;
  ao_listening l x : mg_listeners m !! l = Some x → (l < mg_listening m)%nat;
  ao_listener l x : mg_listeners m !! l = Some x → listener_ok L t l x;
  ao_unheard l : mg_listeners m !! l = None → l ∉ L ∧ accepted_on l t = [] ∧ asked_on l t = [] ∧ offered_on l t = [];
  ao_question l x c conn : mg_listeners m !! l = Some x → c ∈ ls_backlog x → mg_connections m !! c = Some conn →
    cn_firstQuestion conn ≠ None;
  ao_offered_once : NoDup (offered t);
  ao_offered c : c ∈ offered t → (c < mg_created m)%nat }.

Notation tables_ok := (tables_ok behind).

(** The whole invariant: [R] are the references to connections that are
    neither the trees' nor the listeners'. *)
Definition all_ok (init : Z) (L R : list nat) (m : Bdt_ConnectionManager) : Prop :=
  tables_ok init (backlogs m ++ R) m ∧ accept_ok L (mg_trace m) m.

(** ** What keeps it *)

Lemma accept_later init R L t m m' :
  tables_ok init (backlogs m ++ R) m → accept_ok L t m → later m m' → accept_ok L t m'.
Proof.
  intros Hok [H0 H1 H2 H3 H4 H5 H6 H7 H8 H9] [A1 A2 A3 A4 _ A6 A7 A8 A9]. split; rewrite ?A1, ?A2, ?A3, ?A4; try done.
  - intros n Hn. specialize (H2 n Hn). lia.
  - intros l x c conn Hl Hc Hconn. destruct (owned_conn _ _ _ m c Hok) as [conn0 Hconn0].
    { apply elem_of_app. right. apply elem_of_app. left. by eapply backlogs_elem. }
    destruct (A8 c conn0 conn Hconn0 Hconn) as (_ & _ & _ & Hq). apply Hq. by eapply H7.
  - intros c Hc. specialize (H9 c Hc). lia.
Qed.

Lemma accept_quiet L t m ts : accept_ok L t m → Forall quiet ts → accept_ok L (ts ++ t) m.
Proof.
  intros [H0 H1 H2 H3 H4 H5 H6 H7 H8 H9] Hq.
  assert (Ha : ∀ l, accepted_on l (ts ++ t) = accepted_on l t) by (intros l; apply quiet_omap; [by intros []|done]).
  assert (Hk : ∀ l, asked_on l (ts ++ t) = asked_on l t) by (intros l; apply quiet_omap; [by intros []|done]).
  assert (Ho : ∀ l, offered_on l (ts ++ t) = offered_on l t) by (intros l; apply quiet_omap; [by intros []|done]).
  assert (Hf : offered (ts ++ t) = offered t) by (apply quiet_omap; [by intros []|done]).
  split; rewrite ?Hf; try done.
  - intros l x Hl. destruct (H5 l x Hl). split; rewrite ?Ha, ?Hk, ?Ho; done.
  - intros l Hl. rewrite Ha, Hk, Ho. by apply H6.
Qed.

Lemma all_later init L R R' m m' :
  all_ok init L R m → later m m' → tables_ok init (backlogs m ++ R') m' → all_ok init L R' m'.
Proof.
  intros [Hok Hacc] Hl Hok'. split.
  - unfold backlogs. rewrite (lt_listeners _ _ Hl). exact Hok'.
  - destruct (lt_trace _ _ Hl) as (ts & -> & Hq). apply accept_quiet; [|done]. by eapply accept_later.
Qed.

(** The state of a listener and what the trace says of it change together. *)
Lemma accept_changed L L' t t' m l x x' :
  accept_ok L t m → mg_listeners m !! l = Some x → ls_port x' = ls_port x →
  listener_ok L' t' l x' →
  (∀ l', l' ≠ l → (occ l' L' = occ l' L) ∧ accepted_on l' t' = accepted_on l' t ∧ asked_on l' t' = asked_on l' t ∧
    offered_on l' t' = offered_on l' t) →
  (∀ c conn, c ∈ ls_backlog x' → mg_connections m !! c = Some conn → cn_firstQuestion conn ≠ None) →
  NoDup (offered t') → (∀ c, c ∈ offered t' → (c < mg_created m)%nat) →
  accept_ok L' t' (set_listeners (<[l := x']> (mg_listeners m)) (mg_listening m) m).
Proof.
  intros [H0 H1 H2 H3 H4 H5 H6 H7 H8 H9] Hl Hport Hx' Hother Hq Hnd Hlt. split; try done; cbn.
  - intros n Hn. destruct (H3 n Hn) as (y & Hy & Ey). destruct (decide (lm_listener n = l)) as [E|Hne].
    + exists x'. rewrite E, lookup_insert_eq. split; [done|]. rewrite E, Hl in Hy. injection Hy as <-. congruence.
    + exists y. by rewrite lookup_insert_ne.
  - intros d y Hy. destruct (decide (d = l)) as [->|Hd]; [by eapply H4|]. rewrite lookup_insert_ne in Hy by done. by eapply H4.
  - intros d y Hy. destruct (decide (d = l)) as [->|Hd].
    + rewrite lookup_insert_eq in Hy. by injection Hy as <-.
    + rewrite lookup_insert_ne in Hy by done. destruct (H5 d y Hy), (Hother d Hd) as (E1 & E2 & E3 & E4).
      split; rewrite ?E1, ?E2, ?E3, ?E4; done.
  - intros d Hd. destruct (decide (d = l)) as [->|Hne]; [by rewrite lookup_insert_eq in Hd|]. rewrite lookup_insert_ne in Hd by done.
    destruct (H6 d Hd) as (? & ? & ? & ?), (Hother d Hne) as (E1 & E2 & E3 & E4). rewrite E2, E3, E4. split; [|done]. rewrite <- occ_pos in *. lia.
  - intros d y c conn Hy Hc. destruct (decide (d = l)) as [->|Hd].
    + rewrite lookup_insert_eq in Hy. injection Hy as <-. by apply Hq.
    + rewrite lookup_insert_ne in Hy by done. by eapply H7.
Qed.

Lemma tables_listeners init E m ls n : tables_ok init E m → tables_ok init E (set_listeners ls n m).
Proof. intros []. by split. Qed.

Lemma tables_trace init E m t : tables_ok init E m → uninited t = uninited (mg_trace m) → tables_ok init E (set_mtrace t m).
Proof. intros [] Et. split; try done; cbn [mg_trace set_mtrace]; by rewrite Et. Qed.

Lemma later_but_trace t m m' : later (set_mtrace t m) m' → later m (set_mtrace (mg_trace m) m').
Proof. intros []. split; try done. by exists []. Qed.

Lemma accept_trace L t t' m : accept_ok L t m → accept_ok L t (set_mtrace t' m).
Proof. intros []. by split. Qed.
Lemma accept_trace_inv L t t' m : accept_ok L t (set_mtrace t' m) → accept_ok L t m.
Proof. intros []. by split. Qed.

(** ** References to listeners *)

Lemma backlogs_same ls l x x' : ls !! l = Some x → ls_backlog x' = ls_backlog x → backlogs_of (<[l := x']> ls) ≡ₚ backlogs_of ls.
Proof. intros Hl E. pose proof (backlogs_insert ls l x x' Hl) as Hp. rewrite E in Hp. by apply Permutation_app_inv_l in Hp. Qed.

Lemma refs_changed init L L' R m l x n :
  all_ok init L R m → mg_listeners m !! l = Some x → n = 1 + Z.of_nat (occ l L') → (∀ l', l' ≠ l → occ l' L' = occ l' L) →
  all_ok init L' R (set_listeners (<[l := mkListener n (ls_port x) (ls_backlog x) (ls_acceptRequests x)]> (mg_listeners m)) (mg_listening m) m).
Proof.
  intros [Hok Hacc] Hl -> Hocc. split.
  - apply tables_listeners. eapply tables_perm; [|exact Hok]. f_equiv. symmetry. by apply (backlogs_same _ _ x).
  - destruct (ao_listener _ _ _ Hacc l x Hl). eapply accept_changed; try done; [by intros l' Hl'; rewrite Hocc| | |].
    + intros c conn. apply (ao_question _ _ _ Hacc l x c conn Hl).
    + apply (ao_offered_once _ _ _ Hacc).
    + apply (ao_offered _ _ _ Hacc).
Qed.

Lemma ListenerAddRef_runs init L R m l x :
  all_ok init L R m → mg_listeners m !! l = Some x →
  ∃ x', BdtConnectionListenerAddRef l m = Some (tt, set_listeners (<[l := x']> (mg_listeners m)) (mg_listening m) m) ∧
    ls_backlog x' = ls_backlog x ∧ ls_acceptRequests x' = ls_acceptRequests x ∧ ls_port x' = ls_port x ∧
    all_ok init (l :: L) R (set_listeners (<[l := x']> (mg_listeners m)) (mg_listening m) m).
Proof.
  intros Hok Hl. unfold BdtConnectionListenerAddRef, the_listener, put_listener. rewrite (from_bind _ x) by done.
  eexists. split; [reflexivity|]. split_and!; try done. pose proof (lo_refs _ _ _ _ (ao_listener _ _ _ (proj2 Hok) l x Hl)) as Hr.
  eapply refs_changed; try done.
  - rewrite occ_cons, decide_True by done. lia.
  - intros d Hd. by rewrite occ_cons, decide_False.
Qed.

Lemma ListenerRelease_runs init L R m l :
  all_ok init (l :: L) R m →
  ∃ ls, BdtConnectionListenerRelease l m = Some (tt, set_listeners ls (mg_listening m) m) ∧
    all_ok init L R (set_listeners ls (mg_listening m) m).
Proof.
  intros Hok. destruct (mg_listeners m !! l) as [x|] eqn:Hl.
  - unfold BdtConnectionListenerRelease, the_listener, put_listener. rewrite (from_bind _ x) by done.
    eexists. split; [reflexivity|]. pose proof (lo_refs _ _ _ _ (ao_listener _ _ _ (proj2 Hok) l x Hl)) as Hr.
    rewrite occ_cons, decide_True in Hr by done. eapply refs_changed; try done; [lia|].
    intros d Hd. by rewrite occ_cons, decide_False.
  - exfalso. apply (proj1 (ao_unheard _ _ _ (proj2 Hok) l Hl)). by left.
Qed.

(** ** Listening *)

Lemma find_listener_runs init L R m port :
  all_ok init L R m →
  ∃ r m', find_listener port m = Some (r, m') ∧
    match r with
    | Some l => ∃ x, m' = set_listeners (<[l := x]> (mg_listeners m)) (mg_listening m) m ∧ ls_port x = port ∧ all_ok init (l :: L) R m'
    | None => m' = m
    end.
Proof.
  intros Hok. unfold find_listener. rewrite mget_bind.
  pose proof (find_key _ _ _ listener_compare_key (mg_listenerMap m) (mkListenerMap 0 port 0) (ao_ports _ _ _ (proj2 Hok))) as Hf.
  destruct (find_member _ _ _) as [n|]; [|by exists None, m]. destruct Hf as [Hn E1].
  destruct (ao_node _ _ _ (proj2 Hok) n Hn) as (x & Hx & E2).
  destruct (ListenerAddRef_runs init L R m _ x Hok Hx) as (x' & Ea & E3 & E4 & E5 & Hok').
  rewrite (M_bind_Some _ _ _ _ _ Ea). eexists (Some _), _. split; [done|]. exists x'. split_and!; try done. cbn in E1. congruence.
Qed.

Lemma fresh_listener L t m : accept_ok L t m → mg_listeners m !! mg_listening m = None.
Proof.
  intros Hacc. destruct (mg_listeners m !! mg_listening m) as [x|] eqn:E; [|done].
  pose proof (ao_listening _ _ _ Hacc _ _ E). lia.
Qed.

(** A listener for a port that had none. *)
Lemma listener_added init L R m port ports :
  all_ok init L R m → well_formed lm_addr connection_listener_map_compare ports →
  elems ports ≡ₚ mkListenerMap (mg_addresses m) port (mg_listening m) :: elems (mg_listenerMap m) →
  let l := mg_listening m in
  all_ok init L R (set_listenerMap ports (set_listeners (<[l := mkListener 1 port [] []]> (mg_listeners m)) (S l) (set_addresses (mg_addresses m + 1) m))).
Proof.
  intros [Hok Hacc] Hw Hp l. pose proof (fresh_listener _ _ _ Hacc) as Hnone. fold l in Hnone. split.
  - destruct (addresses_ok _ _ _ _ Hok) as [Hok' _]. eapply tables_perm; [|destruct Hok'; by split].
    f_equiv. symmetry. apply (backlogs_new _ _ (mkListener 1 port [] []) Hnone).
  - destruct Hacc as [H0 H1 H2 H3 H4 H5 H6 H7 H8 H9]. split; try done; cbn; fold l.
    + intros n. rewrite Hp, elem_of_cons. intros [->|Hn]; [cbn; lia|]. specialize (H2 n Hn). lia.
    + intros n. rewrite Hp, elem_of_cons. intros [->|Hn].
      * cbn. fold l. rewrite lookup_insert_eq. by eexists.
      * destruct (H3 n Hn) as (x & Hx & E). exists x. rewrite lookup_insert_ne; [done|]. intros Ed. by rewrite <- Ed, Hnone in Hx.
    + intros d x Hx. destruct (decide (d = l)) as [->|Hd]; [lia|]. rewrite lookup_insert_ne in Hx by done. specialize (H4 d x Hx). lia.
    + intros d x Hx. destruct (decide (d = l)) as [->|Hd].
      * rewrite lookup_insert_eq in Hx. injection Hx as <-. destruct (H6 l Hnone) as (HL & E1 & E2 & E3). rewrite <- occ_pos in HL.
        split; rewrite ?E1, ?E2, ?E3; cbn; try done; [lia|by left|lia].
      * rewrite lookup_insert_ne in Hx by done. by apply H5.
    + intros d Hd. apply H6. destruct (decide (d = l)) as [->|Hne]; [done|]. by rewrite lookup_insert_ne in Hd.
    + intros d x c conn Hx Hc. destruct (decide (d = l)) as [->|Hd].
      * rewrite lookup_insert_eq in Hx. injection Hx as <-. by apply elem_of_nil in Hc.
      * rewrite lookup_insert_ne in Hx by done. by eapply H7.
Qed.

Lemma Listen_runs init L R m port :
  all_ok init L R m →
  ∃ m', BdtListenConnection port m = Some (BFX_RESULT_SUCCESS, m') ∧ all_ok init L R m' ∧
    mg_created m' = mg_created m ∧ mg_trace m' = mg_trace m.
Proof.
  intros Hok. unfold BdtListenConnection. rewrite mget_bind. destruct (find_member _ _ _) as [n|]; [by exists m|].
  set (l := mg_listening m). set (node := mkListenerMap (mg_addresses m) port l).
  destruct (add_key _ _ _ listener_compare_key (mg_listenerMap m) node (ao_ports _ _ _ (proj2 Hok))) as (ports & Es & Hw & Hp).
  { intros (n & E1 & Hn)%list_elem_of_fmap. cbn in E1. pose proof (ao_addr _ _ _ (proj2 Hok) n Hn). lia. }
  eexists. split; [|split; [exact (listener_added init L R m port ports Hok Hw Hp)|done]].
  set (st := set_listeners (<[l := mkListener 1 port [] []]> (mg_listeners m)) (S l) (set_addresses (mg_addresses m + 1) m)).
  assert (E1 : (ports ← from (λ m, sglib_add lm_addr connection_listener_map_compare (mg_listenerMap m) node);
    mwrite (set_listenerMap ports)) st = Some (tt, set_listenerMap ports st)) by by rewrite (from_bind _ ports).
  change (((ports ← from (λ m, sglib_add lm_addr connection_listener_map_compare (mg_listenerMap m) node);
    mwrite (set_listenerMap ports)) ;; mret BFX_RESULT_SUCCESS) st = Some (BFX_RESULT_SUCCESS, set_listenerMap ports st)).
  by rewrite (M_bind_Some _ _ _ _ _ E1).
Qed.

(** ** References to connections *)

Lemma later_kept m m' : later m m' → kept (mg_trace m') = kept (mg_trace m).
Proof. intros H. destruct (lt_trace _ _ H) as (ts & -> & Hq). apply quiet_omap; [by intros []|done]. Qed.

Lemma all_perm init L R R' m : R ≡ₚ R' → all_ok init L R m → all_ok init L R' m.
Proof. intros HR [Hok Hacc]. split; [|done]. eapply tables_perm; [|exact Hok]. by rewrite HR. Qed.

Lemma owned_release init L R m c :
  all_ok init L (c :: R) m →
  ∃ m', BdtReleaseConnection c m = Some (tt, m') ∧ all_ok init L R m' ∧ later m m' ∧ mg_created m' = mg_created m ∧
    kept (mg_trace m') = kept (mg_trace m).
Proof.
  intros Hok. destruct (Release_runs behind init (backlogs m ++ R) m c) as (m' & Em & H1 & H2 & _ & _ & Hcr & _).
  { eapply tables_perm; [|exact (proj1 Hok)]. symmetry. apply Permutation_middle. }
  exists m'. split; [done|]. split; [by eapply all_later|]. split; [done|]. split; [done|]. by apply later_kept.
Qed.

Lemma owned_addref init L R m c :
  all_ok init L R m → c ∈ registered m ++ R →
  ∃ m', BdtAddRefConnection c m = Some (tt, m') ∧ all_ok init L (c :: R) m' ∧ later m m' ∧ mg_created m' = mg_created m ∧
    kept (mg_trace m') = kept (mg_trace m).
Proof.
  intros Hok Hc. destruct (AddRef_runs behind init (backlogs m ++ R) m c (proj1 Hok)) as (m' & Em & H1 & H2 & _ & _ & _ & Hcr).
  { rewrite !elem_of_app in *. naive_solver. }
  exists m'. split; [done|]. split; [|split; [done|split; [done|by apply later_kept]]].
  eapply all_later; [done|done|]. eapply tables_perm; [|exact H1]. apply Permutation_middle.
Qed.

(** ** Callbacks *)

Context (keeps : nat → bool).

Lemma Callback_runs init E m l c request :
  tables_ok init E m → c ∈ registered m ++ E →
  (∀ conn, mg_connections m !! c = Some conn → cn_firstQuestion conn ≠ None) →
  ∃ k q m', CallbackAccept keeps l c request m = Some (BFX_RESULT_SUCCESS, m') ∧ tables_ok init (k ++ E) m' ∧
    later m (set_mtrace (mg_trace m) m') ∧ mg_created m' = mg_created m ∧
    mg_trace m' = ReleasedUser request :: (Kept <$> k) ++ Accepted l request c q :: mg_trace m.
Proof.
  intros Hok Hc Hq. destruct (owned_conn _ _ _ _ _ Hok Hc) as [conn Hconn]. specialize (Hq conn Hconn).
  destruct (cn_firstQuestion conn) as [q|] eqn:Eq; [|done]. unfold CallbackAccept, the_connection.
  rewrite (from_bind _ conn) by done. rewrite (from_bind _ q) by done. rewrite mget_bind, mact_bind.
  pose proof (tables_trace _ _ _ (Accepted l request c q :: mg_trace m) Hok eq_refl) as Hok1. set (m1 := set_mtrace _ m) in *.
  destruct (keeps (length (mg_trace m))).
  - destruct (AddRef_runs _ _ _ m1 c Hok1 Hc) as (m2 & Em & H1 & H2 & _ & _ & Ht & Hcr).
    assert (Erun : (BdtAddRefConnection c ;; mact (Kept c)) m1 = Some (tt, set_mtrace (Kept c :: mg_trace m2) m2))
      by by rewrite (M_bind_Some _ _ _ _ _ Em).
    rewrite (M_bind_Some _ _ _ _ _ Erun). exists [c], q. eexists. split; [reflexivity|]. split; [|split; [|split]].
    + apply (tables_trace _ _ m2); [done|]. by cbn; rewrite Ht.
    + by apply later_but_trace in H2.
    + cbn. by rewrite Hcr.
    + cbn. by rewrite Ht.
  - exists [], q. eexists. split; [reflexivity|]. split; [by apply (tables_trace _ _ m)|]. split; [|done].
    apply later_but_trace with (t := mg_trace m1). split; try done; [by exists [ReleasedUser request]; split; [|repeat constructor]|]. intros d x x' Hx Hx'. cbn in *. rewrite Hx in Hx'. by injection Hx' as <-.
Qed.

(** ** Offering a connection *)

(** A connection that was not offered yet, to a listener with room. *)
Record ready (l c : nat) (m : Bdt_ConnectionManager) : Prop := {
  rd_room : ∃ x, mg_listeners m !! l = Some x ∧ (length (ls_backlog x) ≤ mg_acceptBacklog m)%nat;
  rd_new : c ∉ offered (mg_trace m);
  rd_there : (c < mg_created m)%nat;
  rd_question conn : mg_connections m !! c = Some conn → cn_firstQuestion conn ≠ None }.

Lemma ready_later l c m m' : is_Some (mg_connections m !! c) → ready l c m → later m m' → ready l c m'.
Proof.
  intros [conn Hconn] [H1 H2 H3 H4] [A1 A2 A3 A4 (ts & A5 & A5') A6 A7 A8 A9]. split; rewrite ?A1, ?A3; [done| |lia|].
  - rewrite A5. unfold offered. rewrite quiet_omap; [done|by intros []|done].
  - intros conn' Hc'. destruct (A8 c conn conn' Hconn Hc') as (_ & _ & _ & Hq). by apply Hq, H4.
Qed.

Lemma kept_keeps k : kept (Kept <$> k) = k.
Proof. induction k as [|c k IH]; [done|]. cbn. f_equal. exact IH. Qed.

(** What a callback says of the listeners. *)
Lemma callback_trace k l r c q t l' :
  let t' := ReleasedUser r :: (Kept <$> k) ++ Accepted l r c q :: t in
  accepted_on l' t' = (if decide (l' = l) then [(r, c)] else []) ++ accepted_on l' t ∧
  asked_on l' t' = asked_on l' t ∧ offered_on l' t' = offered_on l' t ∧ offered t' = offered t ∧ kept t' = k ++ kept t.
Proof.
  intros t'. unfold t', accepted_on, asked_on, offered_on, offered, kept. cbn. rewrite !omap_app. cbn.
  assert (E1 : ∀ {X} (f : ManagerAction → option X), (∀ c, f (Kept c) = None) → omap f (Kept <$> k) = []).
  { intros X f Hf. clear -Hf. induction k as [|x k IH]; [done|]. cbn. by rewrite Hf. }
  rewrite !E1 by done. pose proof (kept_keeps k) as Ek. unfold kept in Ek. rewrite Ek. cbn. by destruct (decide (l' = l)).
Qed.

(** A request is answered: [x'] is the listener without the request, or
    without the connection. *)
Lemma Answer_runs init L R m t l x x' c r :
  let m2 := set_listeners (<[l := x']> (mg_listeners m)) (mg_listening m) m in
  tables_ok init (backlogs m2 ++ R) m2 → accept_ok L t m → mg_listeners m !! l = Some x → ls_port x' = ls_port x →
  ls_refCount x' = ls_refCount x → ls_backlog x' = [] ∨ ls_acceptRequests x' = [] → (length (ls_backlog x') ≤ length (ls_backlog x))%nat →
  asked_on l (mg_trace m) = reverse (ls_acceptRequests x') ++ r :: (accepted_on l t).*1 →
  offered_on l (mg_trace m) = reverse (ls_backlog x') ++ c :: (accepted_on l t).*2 →
  (∀ l', accepted_on l' (mg_trace m) = accepted_on l' t) →
  (∀ l', l' ≠ l → asked_on l' (mg_trace m) = asked_on l' t ∧ offered_on l' (mg_trace m) = offered_on l' t) →
  (∀ d conn, d ∈ c :: ls_backlog x' → mg_connections m !! d = Some conn → cn_firstQuestion conn ≠ None) →
  NoDup (offered (mg_trace m)) → (∀ d, d ∈ offered (mg_trace m) → (d < mg_created m)%nat) →
  c ∈ registered m ++ R →
  ∃ k m', CallbackAccept keeps l c r m2 = Some (BFX_RESULT_SUCCESS, m') ∧ all_ok init L (k ++ R) m' ∧
    mg_created m' = mg_created m ∧ kept (mg_trace m') = k ++ kept (mg_trace m).
Proof.
  intros m2 Hok2 Hacc Hx Hport Hrefs Hidle Hlen Hasked Hoff Hsame Hothers Hq Hnd Hcr Hc.
  destruct (Callback_runs init _ m2 l c r Hok2) as (k & q & m' & Em & H1 & H2 & Hcr' & Ht).
  { rewrite !elem_of_app in *. naive_solver. }
  { intros conn. apply Hq. by left. }
  destruct (callback_trace k l r c q (mg_trace m) l) as (E1 & E2 & E3 & E4 & E5). change (mg_trace m2) with (mg_trace m) in Ht. rewrite <- Ht in *.
  exists k, m'. split; [done|]. split; [split|done].
  - change (backlogs m') with (backlogs (set_mtrace (mg_trace m2) m')). unfold backlogs at 1. rewrite (lt_listeners _ _ H2).
    eapply tables_perm; [|exact H1]. unfold backlogs. solve_Permutation.
  - apply (accept_trace_inv _ _ (mg_trace m2)), (accept_later init R L (mg_trace m') m2); [done| |exact H2].
    + destruct (ao_listener _ _ _ Hacc l x Hx) as [Hr _ Hl _ _]. eapply (accept_changed L L t _ m l x x' Hacc Hx Hport).
      * rewrite decide_True in E1 by done. split; rewrite ?E1, ?E2, ?E3, ?Hsame; try done; [congruence|lia].
      * intros l' Hl'. destruct (callback_trace k l r c q (mg_trace m) l') as (F1 & F2 & F3 & _). rewrite <- Ht in *.
        rewrite decide_False in F1 by done. destruct (Hothers l' Hl') as [? ?]. rewrite F1, F2, F3. by rewrite Hsame.
      * intros d conn Hd. apply Hq. by right.
      * by rewrite E4.
      * by rewrite E4.
Qed.

Lemma Fire_runs init L R m l c :
  all_ok init L R m → c ∈ registered m ++ R → ready l c m →
  ∃ k m', Bdt_FirePreAcceptConnection keeps l c m = Some (BFX_RESULT_SUCCESS, m') ∧ all_ok init L (k ++ R) m' ∧
    mg_created m' = mg_created m ∧ kept (mg_trace m') = k ++ kept (mg_trace m).
Proof.
  intros [Hok Hacc] Hc [(x & Hx & Hroom) Hnew Hlt Hq]. rewrite (ao_limit _ _ _ Hacc) in Hroom. unfold Bdt_FirePreAcceptConnection, the_listener, put_listener.
  rewrite mact_bind. rewrite (from_bind _ x) by done. set (t := Offered l c :: mg_trace m).
  pose proof (tables_trace _ _ _ t Hok eq_refl) as Hok1. set (m1 := set_mtrace t m) in *.
  destruct (ao_listener _ _ _ Hacc l x Hx) as [Hrefs Hidle Hlimit Hasked Hoff].
  assert (Hnd : NoDup (offered t)) by (constructor; [done|apply (ao_offered_once _ _ _ Hacc)]).
  assert (Hcr : ∀ d, d ∈ offered t → (d < mg_created m)%nat).
  { intros d. unfold t. cbn. rewrite elem_of_cons. intros [->|Hd]; [done|]. by apply (ao_offered _ _ _ Hacc). }
  destruct (ls_acceptRequests x) as [|r rs] eqn:Ereq.
  - destruct (AddRef_runs _ _ _ m1 c Hok1) as (m2 & Em & H1 & H2 & _ & _ & Ht & Hc2).
    { rewrite !elem_of_app in *. naive_solver. }
    rewrite (M_bind_Some _ _ _ _ _ Em). exists []. eexists. split; [reflexivity|].
    pose proof (lt_listeners _ _ H2) as El. pose proof (lt_listening _ _ H2) as Elis. cbn in El, Elis.
    rewrite El, Elis. cbn [app].
    assert (Hacc2 : accept_ok L (mg_trace m) m2) by (eapply (accept_later _ R _ _ m1); [done|by apply accept_trace|done]).
    split; [split|split; [done|cbn [mg_trace set_listeners]; by rewrite Ht]].
    + apply tables_listeners. eapply tables_perm; [|exact H1]. unfold backlogs. cbn.
      pose proof (backlogs_insert _ l x (mkListener (ls_refCount x) (ls_port x) (ls_backlog x ++ [c]) []) Hx) as Hp. cbn in Hp.
      rewrite <- app_assoc in Hp. apply Permutation_app_inv_l in Hp. by rewrite Hp.
    + pose proof (accept_changed L L (mg_trace m) t m2 l x (mkListener (ls_refCount x) (ls_port x) (ls_backlog x ++ [c]) []) Hacc2) as Hch.
      rewrite El, Elis in Hch. cbn [mg_trace set_listeners]. rewrite Ht. apply Hch; try done.
      * split; cbn [ls_refCount ls_backlog ls_acceptRequests]; try done; [by right|rewrite length_app; cbn; lia|].
        unfold t. rewrite offered_on_cons, accepted_on_cons, decide_True, reverse_snoc by done. cbn. by rewrite Hoff.
      * intros l' Hl'. unfold t. by rewrite offered_on_cons, decide_False.
      * cbn. intros d conn. rewrite elem_of_app, list_elem_of_singleton. intros [Hd| ->] Hconn.
        -- eapply (ao_question _ _ _ Hacc2 l x d conn); [by rewrite El|done|done].
        -- destruct (owned_conn _ _ _ m1 c Hok1) as [conn0 H0]; [rewrite !elem_of_app in *; naive_solver|].
           destruct (lt_conn _ _ H2 c conn0 conn H0 Hconn) as (_ & _ & _ & Hqq). by apply Hqq, Hq.
      * intros d Hd. rewrite Hc2. by apply Hcr.
  - set (x' := mkListener (ls_refCount x) (ls_port x) (ls_backlog x) rs).
    set (m2 := set_listeners (<[l := x']> (mg_listeners m)) (mg_listening m) m1).
    destruct Hidle as [Hb|]; [|done]. rewrite Hb in Hoff. cbn in Hoff.
    destruct (Answer_runs init L R m1 (mg_trace m) l x x' c r) as (k & m' & Em & H1 & H2 & H3); try done.
    + apply tables_listeners. eapply tables_perm; [|exact Hok1]. f_equiv. symmetry. by apply (backlogs_same _ _ x).
    + by apply accept_trace.
    + by left.
    + cbn [mg_trace set_mtrace m1]. unfold t. rewrite asked_on_cons, Hasked, reverse_cons. cbn. by rewrite <- app_assoc.
    + cbn [mg_trace set_mtrace m1]. unfold t. rewrite offered_on_cons, decide_True by done. cbn. by rewrite Hb, Hoff.
    + intros l' Hl'. cbn [mg_trace set_mtrace m1]. unfold t. by rewrite asked_on_cons, offered_on_cons, decide_False.
    + intros d conn. cbn. rewrite Hb, list_elem_of_singleton. intros ->. apply Hq.
    + exists k, m'. split; [|done]. change ((_ ← CallbackAccept keeps l c r; mret BFX_RESULT_SUCCESS) m2 = Some (BFX_RESULT_SUCCESS, m')).
      by rewrite (M_bind_Some _ _ _ _ _ Em).
Qed.

(** ** Asking for a connection *)

#[local] Arguments kept : simpl never.

(** A request that waits. *)
Lemma request_waits init L R m l x r :
  all_ok init L R m → mg_listeners m !! l = Some x → ls_acceptRequests x ≠ [] ∨ ls_backlog x = [] →
  all_ok init L R (set_listeners (<[l := mkListener (ls_refCount x) (ls_port x) (ls_backlog x) (ls_acceptRequests x ++ [r])]> (mg_listeners m))
    (mg_listening m) (set_mtrace (AddRefUser l r :: mg_trace m) m)).
Proof.
  intros [Hok Hacc] Hx Hcase. set (x' := mkListener _ _ _ _). set (t := AddRefUser l r :: mg_trace m).
  destruct (ao_listener _ _ _ Hacc l x Hx) as [Hrefs Hidle Hlimit Hasked Hoff]. split.
  - apply tables_listeners. apply (tables_trace _ _ m t); [|done]. eapply tables_perm; [|exact Hok]. f_equiv. symmetry. by apply (backlogs_same _ _ x).
  - apply (accept_changed L L (mg_trace m) t (set_mtrace t m) l x x'); try done.
    + by apply accept_trace.
    + split; cbn [ls_refCount ls_backlog ls_acceptRequests x']; try done; [naive_solver|].
      unfold t. rewrite asked_on_cons, accepted_on_cons, decide_True, reverse_snoc by done. cbn. by rewrite Hasked.
    + intros l' Hl'. unfold t. by rewrite asked_on_cons, decide_False.
    + intros c conn Hc. by apply (ao_question _ _ _ Hacc l x).
    + apply (ao_offered_once _ _ _ Hacc).
    + apply (ao_offered _ _ _ Hacc).
Qed.

(** The connection that waited longest is given to the request. *)
Lemma request_answered init L R m l x c b r :
  all_ok init L R m → mg_listeners m !! l = Some x → ls_acceptRequests x = [] → ls_backlog x = c :: b →
  ∃ k m', CallbackAccept keeps l c r (set_listeners (<[l := mkListener (ls_refCount x) (ls_port x) b []]> (mg_listeners m))
      (mg_listening m) (set_mtrace (AddRefUser l r :: mg_trace m) m)) = Some (BFX_RESULT_SUCCESS, m') ∧
    all_ok init L (k ++ c :: R) m' ∧ mg_created m' = mg_created m ∧ kept (mg_trace m') = k ++ kept (mg_trace m).
Proof.
  intros [Hok Hacc] Hx Hreq Hb. set (x' := mkListener _ _ _ _). set (t := AddRefUser l r :: mg_trace m).
  destruct (ao_listener _ _ _ Hacc l x Hx) as [Hrefs Hidle Hlimit Hasked Hoff].
  rewrite Hreq in Hasked. rewrite Hb, reverse_cons, <- app_assoc in Hoff. cbn in Hasked, Hoff.
  apply (Answer_runs init L (c :: R) (set_mtrace t m) (mg_trace m) l x x' c r); try done.
  - apply tables_listeners. apply (tables_trace _ _ m t); [|done]. eapply tables_perm; [|exact Hok].
    pose proof (backlogs_insert _ l x x' Hx) as Hp. rewrite Hb in Hp. cbn in Hp. unfold backlogs. cbn.
    apply (Permutation_app_inv_l b). rewrite !app_assoc, <- Hp. solve_Permutation.
  - by apply accept_trace.
  - by right.
  - rewrite Hb. cbn. lia.
  - cbn [mg_trace set_mtrace]. unfold t. rewrite asked_on_cons, decide_True by done. cbn. by rewrite Hasked.
  - intros l' Hl'. cbn [mg_trace set_mtrace]. unfold t. by rewrite asked_on_cons, decide_False.
  - intros d conn. cbn. rewrite <- Hb. by apply (ao_question _ _ _ Hacc l x).
  - apply (ao_offered_once _ _ _ Hacc).
  - apply (ao_offered _ _ _ Hacc).
  - apply elem_of_app. right. by left.
Qed.

Lemma Accept_runs init L R m port r :
  all_ok init L R m →
  ∃ result k m', BdtAcceptConnection keeps port r m = Some (result, m') ∧ all_ok init L (k ++ R) m' ∧
    mg_created m' = mg_created m ∧ kept (mg_trace m') = k ++ kept (mg_trace m).
Proof.
  intros Hok. unfold BdtAcceptConnection. destruct (find_listener_runs init L R m port Hok) as (res & m1 & E1 & H1).
  rewrite (M_bind_Some _ _ _ _ _ E1). destruct res as [l|]; [|subst m1; by exists BFX_RESULT_NOT_FOUND, [], m].
  destruct H1 as (x & Em1 & Hport & H1). assert (Hx : mg_listeners m1 !! l = Some x) by (rewrite Em1; apply lookup_insert_eq).
  assert (Hcr1 : mg_created m1 = mg_created m) by by rewrite Em1.
  assert (Ht1 : kept (mg_trace m1) = kept (mg_trace m)) by by rewrite Em1.
  clear E1 Em1. rewrite mact_bind. unfold the_listener, put_listener. rewrite (from_bind _ x) by done.
  assert (Hstep : ∃ k m2, (match ls_acceptRequests x, ls_backlog x with
      | [], c :: backlog =>
          mwrite (λ m, set_listeners (<[l := mkListener (ls_refCount x) (ls_port x) backlog []]> (mg_listeners m)) (mg_listening m) m) ;;
          _ ← CallbackAccept keeps l c r;
          BdtReleaseConnection c
      | requests, backlog =>
          mwrite (λ m, set_listeners (<[l := mkListener (ls_refCount x) (ls_port x) backlog (requests ++ [r])]> (mg_listeners m)) (mg_listening m) m)
      end) (set_mtrace (AddRefUser l r :: mg_trace m1) m1) = Some (tt, m2) ∧ all_ok init (l :: L) (k ++ R) m2 ∧
      mg_created m2 = mg_created m1 ∧ kept (mg_trace m2) = k ++ kept (mg_trace m1)).
  { pose proof (request_waits init (l :: L) R m1 l x r H1 Hx) as Hw.
    destruct (ls_acceptRequests x) as [|r0 rs] eqn:Ereq.
    - destruct (ls_backlog x) as [|c b] eqn:Eb; [by exists []; eexists; split; [reflexivity|split; [apply Hw; by right|]]|].
      destruct (request_answered init (l :: L) R m1 l x c b r H1 Hx Ereq Eb) as (k & m2 & E2 & H2 & H3 & H4).
      destruct (owned_release init (l :: L) (k ++ R) m2 c) as (m3 & E3 & H5 & _ & H6 & H7).
      { eapply all_perm; [|exact H2]. symmetry. apply Permutation_middle. }
      exists k, m3. rewrite mset_bind, (M_bind_Some _ _ _ _ _ E2). split; [done|]. split; [done|]. split; congruence.
    - exists []. eexists. split; [reflexivity|]. split; [apply Hw; by left|done]. }
  destruct Hstep as (k & m2 & E2 & H2 & H3 & H4). rewrite (M_bind_Some _ _ _ _ _ E2).
  destruct (ListenerRelease_runs init L (k ++ R) m2 l H2) as (ls & E3 & H5). rewrite (M_bind_Some _ _ _ _ _ E3).
  exists BFX_RESULT_SUCCESS, k. eexists. split; [reflexivity|]. split; [done|]. cbn. split; [congruence|]. by rewrite H4, Ht1.
Qed.
End accept.
