(* ===== verification/ManagerRuns.v ===== *)
(** * Runs of the connection manager

    The functions of the manager that others call keep its invariant: packages
    and reverse connects, connections that are added and removed.  Then any
    sequence of calls. *)

From S2P Require Import Prelude CInt RecvQueue Package BufferStream Codec SessionCodec Endpoint SgTree ConnectionManager ManagerProofs ManagerAccept.

#[local] Arguments kept : simpl never.

Section runs.
Context (behind : BdtRemoteSeqConnectionMap → list Z) (limit : nat) (peer_of : nat → Z).
Context (conn_push : nat → Z * bool).

Notation all_ok := (all_ok behind limit).
Notation tables_ok := (tables_ok behind).

(** ** Adding *)

Lemma all_addresses init L R m : all_ok init L R m → all_ok init L R (set_addresses (mg_addresses m + 1) m).
Proof. intros Hok. destruct (addresses_ok _ _ _ _ (proj1 Hok)) as [H1 H2]. by eapply all_later. Qed.

(** A passive connection that is new is ready for its listener. *)
Lemma passive_added init L R m l x toAddId toAddPassive remote remoteId seq q :
  all_ok init L R m → Z.of_nat (S (mg_created m)) < 2 ^ 31 - 1 →
  u32 seq ∉ (λ n, u32 (sm_seq n)) <$> elems (mg_passiveEntry m) →
  (∀ n, n ∈ elems (mg_idEntry m) → im_addr n < toAddId) → toAddId < mg_addresses m →
  (∀ n, n ∈ elems (mg_passiveEntry m) → sm_addr n < toAddPassive) → toAddPassive < mg_addresses m →
  mg_listeners m !! l = Some x → (length (ls_backlog x) ≤ mg_acceptBacklog m)%nat →
  ∃ m', (c ← new_passive behind peer_of toAddId toAddPassive remote remoteId seq;
         ConnectionSetFirstQuestion c q ;;
         mret (BFX_RESULT_SUCCESS, Some c, Some l)) m = Some (BFX_RESULT_SUCCESS, Some (mg_created m), Some l, m') ∧
    all_ok init L (mg_created m :: R) m' ∧ ready l (mg_created m) m' ∧ mg_created m' = S (mg_created m) ∧
    kept (mg_trace m') = kept (mg_trace m).
Proof.
  intros Hok Hfew Hseq H1 H2 H3 H4 Hx Hroom. set (c := mg_created m).
  destruct (NewPassive_runs behind peer_of init _ m toAddId toAddPassive remote remoteId seq (proj1 Hok) Hfew Hseq H1 H2 H3 H4)
    as (m1 & E1 & Hok1 & Hl1 & Hcr1 & Ht1). fold c in E1, Hok1. rewrite (M_bind_Some _ _ _ _ _ E1).
  destruct (SetFirstQuestion_runs behind init _ m1 c q Hok1) as (m2 & conn & E2 & Hok2 & Hl2 & Hconn & Hq & Hcr2 & Ht2).
  { apply elem_of_app. right. by left. }
  rewrite (M_bind_Some _ _ _ _ _ E2). exists m2. split; [done|].
  assert (Hl : later m m2) by (by eapply later_trans; [exact (proj1 Hok)| |]).
  split; [|split; [|split; [by rewrite Hcr2, Hcr1|by rewrite Ht2, Ht1]]].
  - eapply all_later; [exact Hok|done|]. eapply tables_perm; [|exact Hok2]. apply Permutation_middle.
  - split.
    + exists x. rewrite (lt_listeners _ _ Hl), (lt_limit _ _ Hl). done.
    + rewrite Ht2, Ht1. intros Hc. apply (ao_offered _ _ _ _ (proj2 Hok)) in Hc. fold c in Hc. lia.
    + rewrite Hcr2, Hcr1. unfold c. lia.
    + intros conn' Hc'. rewrite Hconn in Hc'. by injection Hc' as <-.
Qed.

Lemma AddPassive_runs init L R m port remote remoteId seq q :
  all_ok init L R m → Z.of_nat (S (mg_created m)) < 2 ^ 31 - 1 →
  ∃ result oc ol m', Bdt_AddPassiveConnection behind peer_of port remote remoteId seq q m = Some (result, oc, ol, m') ∧
    (mg_created m' ≤ S (mg_created m))%nat ∧ kept (mg_trace m') = kept (mg_trace m) ∧
    match oc, ol with
    | None, None => all_ok init L R m'
    | Some c, None => all_ok init L (c :: R) m'
    | Some c, Some l => all_ok init (l :: L) (c :: R) m' ∧ ready l c m'
    | None, Some _ => False
    end.
Proof.
  intros Hok Hfew. unfold Bdt_AddPassiveConnection. destruct (find_listener_runs behind limit init L R m port Hok) as (res & m1 & E1 & H1).
  rewrite (M_bind_Some _ _ _ _ _ E1). destruct res as [l|]; [|subst m1; exists BFX_RESULT_NOT_FOUND, None, None, m; by split_and!; try lia].
  destruct H1 as (x & Em1 & Hport & H1). assert (Hx : mg_listeners m1 !! l = Some x) by (rewrite Em1; apply lookup_insert_eq).
  assert (Hcr1 : mg_created m1 = mg_created m) by by rewrite Em1.
  assert (Ht1 : kept (mg_trace m1) = kept (mg_trace m)) by by rewrite Em1.
  clear E1 Em1. rewrite <- Hcr1, <- Ht1 in *. unfold the_listener. rewrite (from_bind _ x) by done. rewrite mget_bind. case_decide as Hback.
  - destruct (ListenerRelease_runs behind limit init L R m1 l H1) as (ls & E2 & H2). rewrite (M_bind_Some _ _ _ _ _ E2).
    eexists _, None, None, _. split; [reflexivity|]. cbn. split; [lia|done].
  - pose proof (all_addresses _ _ _ _ (all_addresses _ _ _ _ H1)) as H2. set (m2 := set_addresses _ (set_addresses _ m1)) in *.
    rewrite malloc_bind, malloc_bind. cbv beta. fold m2. rewrite mget_bind.
    pose proof (seq_found behind init _ m2 remote seq (mg_addresses (set_addresses (mg_addresses m1 + 1) m1)) (proj1 H2)) as Hf.
    destruct (find_member _ _ _) as [n|].
    + destruct Hf as [Hn _]. destruct (to_seq_node _ _ _ _ (proj1 H2) n Hn) as [Hr _].
      destruct (owned_addref behind limit init (l :: L) R m2 (sm_connection n) H2) as (m3 & E3 & H3 & _ & Hcr3 & Ht3); [apply elem_of_app; by left|].
      rewrite (M_bind_Some _ _ _ _ _ E3). destruct (ListenerRelease_runs behind limit init L _ m3 l H3) as (ls & E4 & H4).
      rewrite (M_bind_Some _ _ _ _ _ E4). eexists _, (Some _), None, _. split; [reflexivity|]. cbn. rewrite Hcr3. split; [cbn; lia|by split].
    + pose proof (to_id_addr _ _ _ _ (proj1 H1)) as Ha. pose proof (to_seq_addr _ _ _ _ (proj1 H1)) as Hb.
      destruct (passive_added init (l :: L) R m2 l x (mg_addresses m1) (mg_addresses m1 + 1) remote remoteId seq q H2)
        as (m3 & E3 & H3 & Hready & Hcr3 & Ht3); try done; cbn; try lia.
      { intros n Hn. specialize (Hb n Hn). lia. }
      eexists _, (Some _), (Some _), m3. split; [exact E3|]. rewrite Hcr3, Ht3. split; [cbn; lia|]. by split.
Qed.

(** ** Removing *)

Lemma owned_remove init L R m c :
  all_ok init L R m → c ∈ registered m ++ R →
  ∃ m', Bdt_RemoveConnection behind peer_of c m = Some (BFX_RESULT_SUCCESS, m') ∧ all_ok init L R m' ∧ later m m' ∧
    mg_created m' = mg_created m.
Proof.
  intros Hok Hc. destruct (Remove_runs behind peer_of init _ m c (proj1 Hok)) as (m' & Em & H1 & H2 & H3 & _).
  { rewrite !elem_of_app in *. naive_solver. }
  exists m'. split; [done|]. split; [by eapply all_later|done].
Qed.

(** ** Packages *)

(** What the decoder promises of a package with a SYN. *)
Definition syn_there (p : SessionPackage) : bool :=
  if has_flag (sp_cmdflags p) BDT_SESSIONDATA_PACKAGE_FLAG_SYN then bool_decide (is_Some (sp_synPart p)) else true.

Lemma ConnectionPush_runs init L R m c :
  all_ok init L R m → c ∈ R →
  ∃ result m', Bdt_ConnectionPushPackage behind conn_push peer_of c m = Some (result, m') ∧ all_ok init L R m' ∧ later m m' ∧
    mg_created m' = mg_created m ∧ ∃ ts, mg_trace m' = ts ++ Pushed c :: mg_trace m.
Proof.
  intros Hok Hc. unfold Bdt_ConnectionPushPackage. rewrite mget_bind, mact_bind. set (m1 := set_mtrace _ m).
  assert (Hl : later m m1).
  { split; try done; [by exists [Pushed c]; split; [|repeat constructor]|]. intros d x x' Hx Hx'. cbn in *. rewrite Hx in Hx'. by injection Hx' as <-. }
  assert (Hok1 : all_ok init L R m1) by (eapply all_later; [exact Hok|done|apply tables_trace; [apply Hok|done]]).
  destruct (conn_push _) as [result removes]. exists result. destruct removes.
  - destruct (owned_remove init L R m1 c Hok1) as (m' & Em & H1 & H2 & H3); [apply elem_of_app; by right|].
    assert (Erun : (_ ← Bdt_RemoveConnection behind peer_of c; mret tt) m1 = Some (tt, m')) by by rewrite (M_bind_Some _ _ _ _ _ Em).
    rewrite (M_bind_Some _ _ _ _ _ Erun). exists m'. split; [done|]. split; [done|]. split; [|split; [done|]].
    + eapply later_trans; [exact (proj1 Hok)|done|done].
    + destruct (lt_trace _ _ H2) as (ts & -> & _). by exists ts.
  - exists m1. split; [done|]. split; [done|]. split; [done|]. split; [done|]. by exists [].
Qed.

Lemma connection_of_runs init L R m p remote :
  all_ok init L R m → Z.of_nat (S (mg_created m)) < 2 ^ 31 - 1 → syn_there p = true →
  ∃ result oc ol m', connection_of behind peer_of p remote m = Some (result, oc, ol, m') ∧
    (mg_created m' ≤ S (mg_created m))%nat ∧ kept (mg_trace m') = kept (mg_trace m) ∧
    match oc, ol with
    | None, None => all_ok init L R m'
    | Some c, None => all_ok init L (c :: R) m'
    | Some c, Some l => all_ok init (l :: L) (c :: R) m' ∧ ready l c m'
    | None, Some _ => False
    end.
Proof.
  intros Hok Hfew Hsyn. unfold connection_of, syn_there in *.
  assert (Hmid : ∀ c m', tables_ok init (c :: backlogs m ++ R) m' → tables_ok init (backlogs m ++ c :: R) m').
  { intros c m'. apply tables_perm, Permutation_middle. }
  destruct (has_flag _ BDT_SESSIONDATA_PACKAGE_FLAG_SYN), (has_flag _ BDT_SESSIONDATA_PACKAGE_FLAG_ACK); cbn [andb negb].
  2: { apply bool_decide_eq_true_1 in Hsyn as [part Hpart]. rewrite (from_bind _ part) by done.
       destruct (GetBySeq_runs behind init _ m remote (sy_synSeq part) (proj1 Hok)) as (r & m1 & E1 & Hl & Hcr & H1).
       rewrite (M_bind_Some _ _ _ _ _ E1). destruct r as [c|]; [|subst m1; by apply AddPassive_runs].
       eexists _, (Some c), None, m1. split; [done|]. split; [lia|]. split; [by apply later_kept|].
       eapply all_later; [done..|]. by apply Hmid, H1. }
  all: match goal with |- context [Bdt_GetConnectionById ?i] =>
         destruct (GetById_runs behind init _ m i (proj1 Hok)) as (r & m1 & E1 & Hl & Hcr & H1) end.
  all: rewrite (M_bind_Some _ _ _ _ _ E1); eexists _, r, None, m1; (split; [done|]; split; [lia|]; split; [by apply later_kept|]).
  all: destruct r as [c|]; [eapply all_later; [done..|]; by apply Hmid, H1|destruct H1 as [-> _]; done].
Qed.

Context (keeps : nat → bool).

Lemma PushSession_runs init L R m p remote :
  all_ok init L R m → Z.of_nat (S (mg_created m)) < 2 ^ 31 - 1 → syn_there p = true →
  ∃ result k m', push_session behind keeps conn_push peer_of p remote m = Some (result, m') ∧
    all_ok init L (k ++ R) m' ∧ (mg_created m' ≤ S (mg_created m))%nat ∧ kept (mg_trace m') = k ++ kept (mg_trace m).
Proof.
  intros Hok Hfew Hsyn. unfold push_session.
  destruct (connection_of_runs init L R m p remote Hok Hfew Hsyn) as (result & oc & ol & m1 & E1 & Hcr1 & Ht1 & H1).
  rewrite (M_bind_Some _ _ _ _ _ E1). cbv beta iota. destruct oc as [c|].
  2: { destruct ol; [done|]. by exists result, [], m1. }
  assert (Hpush : ∃ result m2, Bdt_ConnectionPushPackage behind conn_push peer_of c m1 = Some (result, m2) ∧
    mg_created m2 = mg_created m1 ∧ kept (mg_trace m2) = kept (mg_trace m1) ∧
    match ol with Some l => all_ok init (l :: L) (c :: R) m2 ∧ ready l c m2 | None => all_ok init L (c :: R) m2 end).
  { destruct ol as [l|].
    - destruct H1 as [H1 Hready]. destruct (ConnectionPush_runs init _ _ m1 c H1) as (r & m2 & E2 & H2 & Hl & Hcr2 & _); [by left|].
      exists r, m2. split; [done|]. split; [done|]. split; [by apply later_kept|]. split; [done|]. eapply ready_later; [|done|done].
      apply (to_owned _ _ _ _ (proj1 H1)). rewrite !elem_of_app. right. right. by left.
    - destruct (ConnectionPush_runs init _ _ m1 c H1) as (r & m2 & E2 & H2 & Hl & Hcr2 & _); [by left|].
      exists r, m2. split; [done|]. split; [done|]. split; [by apply later_kept|done]. }
  destruct Hpush as (result2 & m2 & E2 & Hcr2 & Ht2 & H2). rewrite (M_bind_Some _ _ _ _ _ E2).
  assert (Hoffer : ∃ result k m3, (match ol with
      | Some l =>
          result ← Bdt_FirePreAcceptConnection keeps l c;
          BdtConnectionListenerRelease l ;;
          mret result
      | None => mret result2
      end) m2 = Some (result, m3) ∧ all_ok init L (c :: k ++ R) m3 ∧ mg_created m3 = mg_created m2 ∧
      kept (mg_trace m3) = k ++ kept (mg_trace m2)).
  { destruct ol as [l|]; [|by exists result2, [], m2]. destruct H2 as [H2 Hready].
    destruct (Fire_runs behind limit keeps init _ _ m2 l c H2) as (k & m3 & E3 & H3 & Hcr3 & Ht3); [apply elem_of_app; right; by left|done|].
    rewrite (M_bind_Some _ _ _ _ _ E3). destruct (ListenerRelease_runs behind limit init L _ m3 l H3) as (ls & E4 & H4).
    rewrite (M_bind_Some _ _ _ _ _ E4). eexists BFX_RESULT_SUCCESS, k, _. split; [reflexivity|]. split; [|done].
    eapply all_perm; [|exact H4]. symmetry. apply Permutation_middle. }
  destruct Hoffer as (result3 & k & m3 & E3 & H3 & Hcr3 & Ht3). rewrite (M_bind_Some _ _ _ _ _ E3).
  destruct (owned_release behind limit init L _ m3 c H3) as (m4 & E4 & H4 & _ & Hcr4 & Ht4). rewrite (M_bind_Some _ _ _ _ _ E4).
  exists result3, k, m4. split; [done|]. split; [done|]. split; [lia|]. by rewrite Ht4, Ht3, Ht2, Ht1.
Qed.

Lemma Reverse_runs init L R m port from session seq payload :
  all_ok init L R m → Z.of_nat (S (mg_created m)) < 2 ^ 31 - 1 →
  ∃ k m', Bdt_AddReverseConnectStreamConnection behind keeps peer_of port from session seq payload m = Some (BFX_RESULT_SUCCESS, m') ∧
    all_ok init L (k ++ R) m' ∧ (mg_created m' ≤ S (mg_created m))%nat ∧ kept (mg_trace m') = k ++ kept (mg_trace m).
Proof.
  intros Hok Hfew. unfold Bdt_AddReverseConnectStreamConnection.
  destruct (AddPassive_runs init L R m port from session seq payload Hok Hfew) as (result & oc & ol & m1 & E1 & Hcr1 & Ht1 & H1).
  rewrite (M_bind_Some _ _ _ _ _ E1). cbv beta iota. destruct oc as [c|].
  2: { destruct ol; [done|]. by exists [], m1. }
  destruct ol as [l|].
  - destruct H1 as [H1 Hready]. set (m2 := set_mtrace (AcceptedReverse c :: mg_trace m1) m1).
    assert (Hl : later m1 m2).
    { split; try done; [by exists [AcceptedReverse c]; split; [|repeat constructor]|]. intros d x x' Hx Hx'. cbn in *. rewrite Hx in Hx'. by injection Hx' as <-. }
    assert (H2 : all_ok init (l :: L) (c :: R) m2) by (eapply all_later; [exact H1|done|apply tables_trace; [apply H1|done]]).
    assert (Hready2 : ready l c m2).
    { eapply ready_later; [|done|done]. apply (to_owned _ _ _ _ (proj1 H1)). rewrite !elem_of_app. right. right. by left. }
    destruct (Fire_runs behind limit keeps init _ _ m2 l c H2) as (k & m3 & E3 & H3 & Hcr3 & Ht3); [apply elem_of_app; right; by left|done|].
    destruct (ListenerRelease_runs behind limit init L _ m3 l H3) as (ls & E4 & H4).
    assert (Erun : (mact (AcceptedReverse c) ;; _ ← Bdt_FirePreAcceptConnection keeps l c; BdtConnectionListenerRelease l) m1 =
      Some (tt, set_listeners ls (mg_listening m3) m3)).
    { rewrite mact_bind. fold m2. by rewrite (M_bind_Some _ _ _ _ _ E3). }
    rewrite (M_bind_Some _ _ _ _ _ Erun). destruct (owned_release behind limit init L (k ++ R) (set_listeners ls (mg_listening m3) m3) c) as (m4 & E5 & H5 & _ & Hcr4 & Ht4).
    { eapply all_perm; [|exact H4]. symmetry. apply Permutation_middle. }
    rewrite (M_bind_Some _ _ _ _ _ E5). exists k, m4. split; [done|]. split; [done|]. rewrite Hcr4, Ht4. split; [cbn; change (mg_created m2) with (mg_created m1) in Hcr3; lia|].
    trans (k ++ kept (mg_trace m2)); [exact Ht3|]. f_equal. exact Ht1.
  - destruct (owned_release behind limit init L R m1 c H1) as (m2 & E2 & H2 & _ & Hcr2 & Ht2).
    rewrite (M_bind_Some _ _ _ _ _ (eq_refl : (mret tt : M _ unit) m1 = Some (tt, m1))), (M_bind_Some _ _ _ _ _ E2).
    exists [], m2. split; [done|]. split; [done|]. split; [lia|]. by rewrite Ht2, Ht1.
Qed.

Definition package_there (p : ManagerPackage) : bool := match p with SessionData p => syn_there p | _ => true end.

Lemma PushPackage_runs init L R m p remote :
  all_ok init L R m → Z.of_nat (S (mg_created m)) < 2 ^ 31 - 1 → package_there p = true →
  ∃ result k m', Bdt_ConnectionManagerPushPackage behind keeps conn_push peer_of p remote m = Some (result, m') ∧
    all_ok init L (k ++ R) m' ∧ (mg_created m' ≤ S (mg_created m))%nat ∧ kept (mg_trace m') = k ++ kept (mg_trace m).
Proof.
  intros Hok Hfew Hthere. destruct p as [p|port from session seq payload|]; cbn.
  - by apply PushSession_runs.
  - eexists _. by apply Reverse_runs.
  - exists BFX_RESULT_INVALID_PARAM, [], m. split; [done|]. split; [done|]. split; [lia|done].
Qed.

(** ** Runs *)

Inductive ManagerOp :=
  | OpListen (port : Z)
  | OpAccept (port : Z) (request : nat)
  | OpConnect (remote seq : Z)
  | OpPush (p : ManagerPackage) (remote : Z)
  | OpReverse (port from session seq : Z) (payload : list Z)
  | OpAddRef (c : nat)
  | OpRelease (c : nat)
  | OpRemove (c : nat).

(** The references that were taken from inside of callbacks. *)
Definition taken (m m' : Bdt_ConnectionManager) : list nat :=
  take (length (kept (mg_trace m')) - length (kept (mg_trace m))) (kept (mg_trace m')).

(** One of the references to a connection. *)
Fixpoint remove_one (c : nat) (l : list nat) : option (list nat) :=
  match l with
  | [] => None
  | d :: l => if decide (c = d) then Some l else match remove_one c l with Some l' => Some (d :: l') | None => None end
  end.

Lemma remove_one_Some c l l' : remove_one c l = Some l' → l ≡ₚ c :: l'.
Proof.
  revert l'. induction l as [|d l IH]; intros l' E; [done|]. cbn in E. case_decide as Hd; [by injection E as <-; subst|].
  destruct (remove_one c l) as [k|]; [|done]. injection E as <-. rewrite (IH k eq_refl). apply perm_swap.
Qed.

(** [held]: the references that users have.  A user gives back, copies and
    removes what it has. *)
Definition run_mop (op : ManagerOp) (s : Bdt_ConnectionManager * list nat) : option (Bdt_ConnectionManager * list nat) :=
  let '(m, held) := s in
  match op with
  | OpListen port => match BdtListenConnection port m with Some (_, m') => Some (m', held) | None => None end
  | OpAccept port request => match BdtAcceptConnection keeps port request m with Some (_, m') => Some (m', taken m m' ++ held) | None => None end
  | OpConnect remote seq => match Bdt_AddActiveConnection remote seq m with Some (c, m') => Some (m', c :: held) | None => None end
  | OpPush p remote =>
      match Bdt_ConnectionManagerPushPackage behind keeps conn_push peer_of p remote m with Some (_, m') => Some (m', taken m m' ++ held) | None => None end
  | OpReverse port from session seq payload =>
      match Bdt_AddReverseConnectStreamConnection behind keeps peer_of port from session seq payload m with
      | Some (_, m') => Some (m', taken m m' ++ held)
      | None => None
      end
  | OpAddRef c =>
      if decide (c ∈ held) then match BdtAddRefConnection c m with Some (_, m') => Some (m', c :: held) | None => None end else Some (m, held)
  | OpRelease c =>
      match remove_one c held with
      | Some held' => match BdtReleaseConnection c m with Some (_, m') => Some (m', held') | None => None end
      | None => Some (m, held)
      end
  | OpRemove c =>
      if decide (c ∈ held) then match Bdt_RemoveConnection behind peer_of c m with Some (_, m') => Some (m', held) | None => None end else Some (m, held)
  end.

Fixpoint run_mops (ops : list ManagerOp) (s : Bdt_ConnectionManager * list nat) : option (Bdt_ConnectionManager * list nat) :=
  match ops with [] => Some s | op :: ops => match run_mop op s with Some s => run_mops ops s | None => None end end.

Definition fine_op (op : ManagerOp) : bool := match op with OpPush p _ => package_there p | _ => true end.

Lemma taken_kept m m' k : kept (mg_trace m') = k ++ kept (mg_trace m) → taken m m' = k.
Proof. intros E. unfold taken. rewrite E, length_app, Nat.add_sub. apply take_app_length. Qed.

Lemma run_mop_ok init op m held :
  all_ok init [] held m → fine_op op = true → Z.of_nat (S (mg_created m)) < 2 ^ 31 - 1 →
  ∃ m' held', run_mop op (m, held) = Some (m', held') ∧ all_ok init [] held' m' ∧ (mg_created m' ≤ S (mg_created m))%nat.
Proof.
  intros Hok Hfine Hfew. destruct op as [port|port r|remote seq|p remote|port from session seq payload|c|c|c]; cbn.
  - destruct (Listen_runs behind limit init [] held m port Hok) as (m' & -> & H & Hcr & _). eexists _, _. split; [done|]. split; [done|lia].
  - destruct (Accept_runs behind limit keeps init [] held m port r Hok) as (res & k & m' & -> & H & Hcr & Ht).
    eexists _, _. split; [done|]. rewrite (taken_kept m m' k Ht). split; [done|lia].
  - destruct (AddActive_runs behind init _ m remote seq (proj1 Hok) Hfew) as (c & m' & -> & H & Hl & Hcr & _).
    eexists _, _. split; [done|]. split; [|lia]. eapply all_later; [done|done|]. eapply tables_perm; [|exact H]. apply Permutation_middle.
  - destruct (PushPackage_runs init [] held m p remote Hok Hfew Hfine) as (res & k & m' & -> & H & Hcr & Ht).
    eexists _, _. split; [done|]. by rewrite (taken_kept m m' k Ht).
  - destruct (Reverse_runs init [] held m port from session seq payload Hok Hfew) as (k & m' & -> & H & Hcr & Ht).
    eexists _, _. split; [done|]. by rewrite (taken_kept m m' k Ht).
  - case_decide as Hc; [|eexists _, _; split; [done|]; split; [done|lia]].
    destruct (owned_addref behind limit init [] held m c Hok) as (m' & -> & H & _ & Hcr & _); [apply elem_of_app; by right|].
    eexists _, _. split; [done|]. split; [done|lia].
  - destruct (remove_one c held) as [held'|] eqn:Er; [|eexists _, _; split; [done|]; split; [done|lia]].
    apply remove_one_Some in Er. destruct (owned_release behind limit init [] held' m c) as (m' & -> & H & _ & Hcr & _); [by eapply all_perm|].
    eexists _, _. split; [done|]. split; [done|lia].
  - case_decide as Hc; [|eexists _, _; split; [done|]; split; [done|lia]].
    destruct (owned_remove init [] held m c Hok) as (m' & -> & H & _ & Hcr); [apply elem_of_app; by right|].
    eexists _, _. split; [done|]. split; [done|lia].
Qed.

Lemma run_mops_ok init ops m held :
  all_ok init [] held m → forallb fine_op ops = true → Z.of_nat (mg_created m + length ops) < 2 ^ 31 - 1 →
  ∃ m' held', run_mops ops (m, held) = Some (m', held') ∧ all_ok init [] held' m'.
Proof.
  revert m held. induction ops as [|op ops IH]; intros m held Hok Hfine Hfew; [by exists m, held|].
  cbn in Hfine. apply andb_true_iff in Hfine as [H1 H2]. cbn [length] in Hfew.
  destruct (run_mop_ok init op m held Hok H1) as (m' & held' & E & Hok' & Hcr); [lia|]. cbn [run_mops]. rewrite E. apply IH; [done|done|lia].
Qed.

Lemma create_ok init : 1 ≤ init < 2 ^ 31 → all_ok init [] [] (Bdt_ConnectionManagerCreate limit init).
Proof.
  intros Hinit. assert (Hw : ∀ {X} addr (cmp : X → X → Z), well_formed addr cmp Leaf).
  { intros X addr cmp. split; [constructor|]. split; [constructor|]. split; [done|]. by exists 0%nat. }
  split; split; try done; cbn; try (by intros ? ?%elem_of_nil).
  - unfold id_after. rewrite Nat2Z.inj_0, Z.add_0_r. rewrite Z.mod_small; lia.
  - intros c. split; [by intros ?%elem_of_nil|by intros [? ?]].
  - apply NoDup_nil_2.
  - constructor.
  - constructor.
  - intros c. split; [by intros ?%elem_of_nil|intros [? _]; lia].
  - intros l _. split; [by intros ?%elem_of_nil|done].
  - constructor.
Qed.
End runs.
