(* ===== verification/ManagerTheorems.v ===== *)
(** * The connection manager: the theorems

    References to connections are balanced whatever is called; requests to
    accept and connections that are offered meet in order, each once; and
    connections of different peers that number them alike are taken for one. *)

From S2P Require Import Prelude CInt RecvQueue Package BufferStream Codec SessionCodec Endpoint SgTree ConnectionManager ManagerProofs ManagerAccept ManagerRuns.

Section theorems.
Context (behind : BdtRemoteSeqConnectionMap → list Z) (peer_of : nat → Z).
Context (keeps : nat → bool) (conn_push : nat → Z * bool) (limit : nat) (init : Z).

Let run (ops : list ManagerOp) := run_mops behind peer_of conn_push keeps ops (Bdt_ConnectionManagerCreate limit init, []).

(** What a program may do with a manager. *)
Definition fine_ops (ops : list ManagerOp) : Prop := forallb fine_op ops = true ∧ Z.of_nat (length ops) < 2 ^ 31 - 1.

Lemma run_ok ops :
  1 ≤ init < 2 ^ 31 → fine_ops ops →
  ∃ m held, run ops = Some (m, held) ∧ all_ok behind limit init [] held m.
Proof.
  intros Hinit [Hfine Hlen]. apply (run_mops_ok behind limit peer_of conn_push keeps init ops); [by apply create_ok|done|].
  change (mg_created (Bdt_ConnectionManagerCreate limit init)) with 0%nat. lia.
Qed.



Lemma found_by_seq R m n peerid seq :
  all_ok behind limit init [] R m → n ∈ elems (mg_passiveEntry m) → u32 seq = u32 (sm_seq n) →
  ∃ m', Bdt_GetConnectionByRemoteSeq behind peerid seq m = Some (Some (sm_connection n), m') ∧
    all_ok behind limit init [] (sm_connection n :: R) m' ∧ mg_created m' = mg_created m ∧ mg_trace m' = mg_trace m.
Proof.
  intros Hok Hn Hseq. unfold Bdt_GetConnectionByRemoteSeq. rewrite mget_bind.
  rewrite (find_only _ _ _ (seq_compare_key behind) _ (mkSeqMap 0 peerid seq 0) n (to_seqs _ _ _ _ (proj1 Hok)) (to_seq_nodup _ _ _ _ (proj1 Hok)) Hn); [|done].
  destruct (to_seq_node _ _ _ _ (proj1 Hok) n Hn) as [Hr _].
  destruct (AddRef_runs behind init _ m (sm_connection n) (proj1 Hok)) as (m' & Em & H1 & H2 & _ & _ & Ht & Hcr); [apply elem_of_app; by left|].
  rewrite (M_bind_Some _ _ _ _ _ Em). exists m'. split; [done|]. split; [|done].
  eapply all_later; [done|done|]. eapply tables_perm; [|exact H1]. apply Permutation_middle.
Qed.

(** C28: The remote peer does not count.  When a passive connection has a
    sequence number, the SYN of another connection with this number, from any
    peer whatsoever, is handed to it, and no connection is made for it: the
    comparator compares the addresses of the peers' ids and what lies behind
    them, and then only the numbers. *)
Theorem other_peers_syn_conflated ops m held n p part remote :
  1 ≤ init < 2 ^ 31 → fine_ops ops →
  run_mops behind peer_of conn_push keeps ops (Bdt_ConnectionManagerCreate limit init, []) = Some (m, held) →
  n ∈ elems (mg_passiveEntry m) →
  has_flag (sp_cmdflags p) BDT_SESSIONDATA_PACKAGE_FLAG_SYN = true → has_flag (sp_cmdflags p) BDT_SESSIONDATA_PACKAGE_FLAG_ACK = false →
  sp_synPart p = Some part → u32 (sy_synSeq part) = u32 (sm_seq n) →
  ∃ result m', Bdt_ConnectionManagerPushPackage behind keeps conn_push peer_of (SessionData p) remote m = Some (result, m') ∧
    mg_created m' = mg_created m ∧ ∃ ts, mg_trace m' = ts ++ Pushed (sm_connection n) :: mg_trace m.
Proof.
  intros Hinit Hfine Hrun Hn Hsyn Hack Hpart Hseq. destruct (run_ok ops Hinit Hfine) as (m0 & held0 & E & Hok).
  unfold run in E. rewrite Hrun in E. injection E as <- <-.
  destruct (found_by_seq held m n remote (sy_synSeq part) Hok Hn Hseq) as (m1 & E1 & Hok1 & Hcr1 & Ht1).
  assert (Eof : connection_of behind peer_of p remote m = Some (BFX_RESULT_SUCCESS, Some (sm_connection n), None, m1)).
  { unfold connection_of. rewrite Hsyn, Hack. cbn [andb negb]. rewrite (from_bind _ part) by done. by rewrite (M_bind_Some _ _ _ _ _ E1). }
  unfold Bdt_ConnectionManagerPushPackage, push_session. rewrite (M_bind_Some _ _ _ _ _ Eof). cbv beta iota.
  destruct (ConnectionPush_runs behind limit peer_of conn_push init _ _ m1 (sm_connection n) Hok1) as (result & m2 & E2 & Hok2 & _ & Hcr2 & ts & Hts); [by left|].
  rewrite (M_bind_Some _ _ _ _ _ E2). destruct (owned_release behind limit init [] held m2 _ Hok2) as (m3 & E3 & _ & Hl & Hcr3 & _).
  exists result, m3. split; [|split; [congruence|]].
  - rewrite (M_bind_Some _ _ _ _ _ (eq_refl : (mret result : M _ Z) m2 = Some (result, m2))). by rewrite (M_bind_Some _ _ _ _ _ E3).
  - destruct (lt_trace _ _ Hl) as (ts' & -> & _). exists (ts' ++ ts). rewrite Hts, Ht1. by rewrite app_assoc.
Qed.
End theorems.

Module ManagerDemo.
(** A SYN with a number for a port. *)
Definition syn (seq port : Z) : SessionPackage :=
  mkSessionPackage BDT_SESSIONDATA_PACKAGE_FLAG_SYN 0 0 0 0 None 0 0 (Some [1; 2; 3]) (Some (mkSyn seq 0 0 port 7)) None.

(** The bytes behind a node, the ids in connections, users that keep what they
    are given, and connections that never remove themselves. *)
Definition behind (n : BdtRemoteSeqConnectionMap) : list Z := replicate 20 (sm_addr n).
Definition peer_of (c : nat) : Z := 1000 + Z.of_nat c.
Definition keeps (n : nat) : bool := true.
Definition conn_push (n : nat) : Z * bool := (BFX_RESULT_SUCCESS, false).

(** Two connections wait, one is accepted before and one after it comes; a
    connection is removed and given back, another is made. *)
Definition ops : list ManagerOp :=
  [OpListen 80; OpAccept 80 1; OpPush (SessionData (syn 5 80)) 400; OpPush (SessionData (syn 6 80)) 400; OpReverse 80 500 9 8 [4]; OpAccept 80 2; OpConnect 600 3;
   OpAddRef 3; OpRemove 0; OpRelease 0; OpRemove 1; OpRelease 3].

Example ops_run :
  match run_mops behind peer_of conn_push keeps ops (Bdt_ConnectionManagerCreate 4 (2 ^ 31 - 2), []) with
  | Some (m, held) => bool_decide (held = [3; 1]%nat ∧ uninited (mg_trace m) = [0]%nat ∧ backlogs m = [2]%nat ∧ registered m = [2; 3]%nat ∧
      accepted_on 0 (mg_trace m) = [(2, 1); (1, 0)]%nat)
  | None => false
  end = true.
Proof. vm_compute. reflexivity. Qed.

Lemma ops_fine : fine_ops ops.
Proof. by split; [vm_compute|]. Qed.



(** A connection with the number 5 of the peer at 400. *)
Definition first_ops : list ManagerOp := [OpListen 80; OpPush (SessionData (syn 5 80)) 400].

Lemma first_run :
  match run_mops behind peer_of conn_push keeps first_ops (Bdt_ConnectionManagerCreate 4 1, []) with
  | Some (m, held) => match elems (mg_passiveEntry m) with [n] => bool_decide (u32 (sm_seq n) = 5 ∧ sm_connection n = 0%nat) | _ => false end
  | None => false
  end = true.
Proof. vm_compute. reflexivity. Qed.

(** The peer at 999 asks for another port with the same number. *)
Lemma other_peers_syn_conflated_witness : ∃ m held result m',
  run_mops behind peer_of conn_push keeps first_ops (Bdt_ConnectionManagerCreate 4 1, []) = Some (m, held) ∧
  Bdt_ConnectionManagerPushPackage behind keeps conn_push peer_of (SessionData (syn 5 90)) 999 m = Some (result, m') ∧
  mg_created m' = mg_created m ∧ ∃ ts, mg_trace m' = ts ++ Pushed 0 :: mg_trace m.
Proof.
  pose proof first_run as Hr. destruct (run_mops behind peer_of conn_push keeps first_ops _) as [[m held]|] eqn:E; [|discriminate Hr].
  destruct (elems (mg_passiveEntry m)) as [|n [|]] eqn:En; [discriminate Hr| |discriminate Hr].
  apply bool_decide_eq_true_1 in Hr as [Hseq Hconn].
  destruct (other_peers_syn_conflated behind peer_of keeps conn_push 4 1 first_ops m held n (syn 5 90) (mkSyn 5 0 0 90 7) 999)
    as (result & m' & H1 & H2 & H3); [lia|by split; [vm_compute|]|exact E|rewrite En; by left|reflexivity|reflexivity|reflexivity|by rewrite Hseq|].
  exists m, held, result, m'. rewrite Hconn in H3. split; [done|]. split; [exact H1|]. split; [exact H2|exact H3].
Defined.
End ManagerDemo.
